(* ===== verification/_CoqProject ===== *)
-Q . S2P
Prelude.v
GoBytes.v
GoStrings.v
GoTime.v
GoFloat.v
GoHeap.v
GoBase64.v
Journal.v
Protection.v
SemVer.v
Semantics.v
Freshness.v
ComponentRegistry.v
Evaluator.v
EvaluatorProofs.v
ClusterModel.v
SchedulerState.v
Mutation.v
Preemption.v
Reservation.v
ReservationProofs.v
MutationProofs.v
Transaction.v
TransactionProofs.v
Intents.v
Constraints.v
Candidates.v
CandidateEngine.v
Projection.v
ProviderEvents.v
DurableState.v
PlanExecutor.v
PlanExecutorProofs.v
PlanExecutorLiveness.v
DurableProofs.v
ProjectionProofs.v
ReconcileProofs.v
PublishProofs.v
StoreWitnesses.v
CandidateProofs.v
CandidateResults.v
CandidateWitnesses.v
Policies.v
PhaseGraph.v
Validation.v
ActionPolicy.v
ActionPolicyProofs.v
SchedulerCore.v
AdaptiveModel.v
AdaptiveSignals.v
AdaptiveTargets.v
AdaptivePlanners.v
AdaptiveArbitration.v
AdaptiveCoordinator.v
PlanProofs.v
SchedulerProofs.v
SchedulerWitnesses.v
AdaptiveArbitrationProofs.v
AdaptivePlanProofs.v
AdaptiveProofs.v
AdaptiveWitnesses.v
EventLoop.v
EventLoopProofs.v
GoTimeText.v
Checkpoint.v
CheckpointProofs.v
CheckpointWitnesses.v
JobModel.v
JobRepository.v
JobStatus.v
JobLifecycle.v
Programs.v
JobController.v
JobRepositoryProofs.v
JobSafety.v
JobRecovery.v
JobStatusProofs.v
JobWitnesses.v
