(* ===== verification/Prelude.v ===== *)
(** * TGS-RL: a verification library for the scheduling and job-control core

    TGS-RL schedules the phases of a reinforcement-learning training job on a cluster of
    accelerators.  A controller publishes a scheduling intent; the scheduler evaluates it
    against a snapshot of the cluster and proposes a placement plan; the plan executor
    prepares, runs and commits the plan's actions through a provider; the scheduler store
    keeps the ledger of devices, allocations, reservations and transactions that all of
    them read and change.  This library models that Go code and proves what it promises.

    ** The Go side of the model

    - [Prelude]: results of fallible functions, stable sorting, ordering combinators,
      lemmas on lists and maps, the tactics [bool_props] and the hint database.
    - [GoBytes], [GoStrings], [GoTime], [GoTimeText], [GoFloat], [GoHeap], [GoBase64]: bytes
      and CRC-32, strings
      (byte strings with [TrimSpace], [Split], [Quote], formatting and parsing of numbers),
      timestamps and durations with the clamping of [time.Duration], binary64 arithmetic
      of the Standard Library, [container/heap], RFC 3339 and base64, each with its round trip.
    Machine integers are [Z] with the wrap-around written out where the code can reach it.
    What is not Go source of the repository is a parameter: Unicode case mapping and quoting
    of non-ASCII text, SHA-256, the iteration order of Go maps where it matters, the
    provider, the file system's faults, the clock.

    ** Parts

    - [Journal] ([storage/journal.go]): records with a checksum, append, replay, replacement.
    - [Protection] ([scheduler-go/protection]): budget, cooldown and circuit breaker.
    - [SemVer], [Semantics], [Freshness], [ComponentRegistry], [Evaluator], [EvaluatorProofs]
      ([scheduler-go/semantics]): versions, typed values, the registry of facts with their
      freshness, the registry of component versions, and the evaluation of an execution
      contract in Kleene logic down to its aggregate decision.
    - [ClusterModel], [SchedulerState], [Mutation], [Preemption], [Reservation],
      [Transaction], [Intents], [Projection], [ProviderEvents], [DurableState]
      ([scheduler-go/state]): the messages, the store [Ledger] of [Store], and one definition
      per operation of it: reserving and finalising plans of each purpose, transactions,
      intents and snapshots, the projection of provider events, export and restore.
      [ReservationProofs], [MutationProofs], [TransactionProofs], [DurableProofs],
      [ProjectionProofs], [ReconcileProofs], [PublishProofs] and [StoreWitnesses] prove its
      theorems.
    - [Constraints], [Candidates], [CandidateEngine], [CandidateProofs], [CandidateResults],
      [CandidateWitnesses] ([scheduler-go/constraints], [scoring], [candidates]): feasibility
      and score of a unit on a device, the frontier heap, the selection and its evidence.
    - [Policies] ([scheduler-go/policy], [scheduler-go/preemption]): choosing from a
      shortlist, listing the victims of a preemption.
    - [PhaseGraph] ([scheduler-go/scheduler/validation.go]): the graph of phases of a contract.
    - [PlanExecutor], [PlanExecutorProofs], [PlanExecutorLiveness]
      ([scheduler-go/planexecutor]): the state machine that drives a plan, writing each
      status before the step it announces, and its recovery.
    - [Validation], [ActionPolicy], [ActionPolicyProofs] ([scheduler-go/scheduler/validation.go],
      [scheduler-go/actionpolicy]): the checks of a snapshot and an intent, what each action
      may do and how it is undone, and what an accepted plan guarantees.
    - [SchedulerCore], [PlanProofs], [SchedulerProofs], [SchedulerWitnesses]
      ([scheduler-go/scheduler]: [scheduler.go], [planner.go], [decision_helpers.go],
      [requirements.go], [resources.go], [evaluation_context.go], [integration.go],
      [preemption_validation.go]): from a snapshot and an intent to a plan and a decision.
    - [AdaptiveModel], [AdaptiveSignals], [AdaptiveTargets], [AdaptivePlanners],
      [AdaptiveArbitration], [AdaptiveCoordinator] and their theorems in
      [AdaptiveArbitrationProofs], [AdaptivePlanProofs], [AdaptiveProofs],
      [AdaptiveWitnesses] ([scheduler-go/scheduler/adaptive_*.go]): the planners of the
      three ticks, the arbitration between their proposals and the adaptive evaluation.
    - [EventLoop], [EventLoopProofs] ([scheduler-go/eventloop]): the runtime of the three ticks
      as a state machine, one move for what happens under one lock.
    - [Checkpoint], [CheckpointProofs], [CheckpointWitnesses] ([scheduler-go/persistence],
      [storage/checkpoint.go], [storage/files.go]): the whole state of the scheduler in one
      file, its encoding and decoding, and the journal beside it.
    - [JobModel] ([job-controller-go/compiler], [lifecycle], [runtimeclient/manifest.go]):
      jobs, runs and operations, compiling a run and its manifest, the table of transitions.
    - [JobRepository], [JobRepositoryProofs] ([job-controller-go/state]): the store of jobs
      with its event log and watches, and the repository that writes it to a file first.
    - [JobStatus], [JobStatusProofs], [JobLifecycle] ([job-controller-go/status],
      [controller/helpers.go], [controller/status_projection.go]): the aggregate of a
      component's statuses and how an observation moves a run.
    - [Programs], [JobController], [JobSafety], [JobRecovery], [JobWitnesses]
      ([job-controller-go/controller]): every request of the controller as a program of
      steps on the shared store, run beside any other requests and across restarts.

    The parts meet where the code calls: [Candidates] and [SchedulerCore] read the snapshot
    of [ClusterModel]; [Transaction] reserves through [Reservation], [Mutation] and
    [Preemption] on the [Ledger] of [SchedulerState]; [PlanExecutor] runs on the whole
    store of [Transaction]; [DurableState] is the view of all of it that [Checkpoint] writes down
    with the guard of [Protection], through the files of [Journal].
    The hash, the wire encodings and the oracle of the provider are section variables, so
    the theorems hold for every one of them.

    ** The theorems

    - The ledger: reserving and finalising keep the resources of every device
      ([ReservePlan_conserves], [Reconcile_conserves]); undoing gives back the state before
      ([reserve_finalize_roundtrip], [mutation_abort_restores]); what an uncertain outcome
      may still hold is kept ([retainedAllocations_conservative]); transactions advance
      along their state machine and lose no update
      ([transaction_no_lost_update], [transaction_lifecycle]); export and restore are inverse, sandboxes never go
      back, the state stays well formed.
    - The executor refines the abstract protocol of [PlanExecutorProofs], writes ahead,
      commits last, ends its recovery, and commits against a cooperative environment.
    - The scheduler: candidates never over-commit and are those of a reference without heap
      and cache; admissions, preemptions and adaptive plans are safe and pass validation;
      arbitration keeps its budget and does not depend on the order of proposals; the
      contract evaluator is Kleene's logic and blocks on missing critical facts.
    - The checkpoint: whichever saves succeed or fail, a restart recovers the state that was
      acknowledged last or one refused since ([restart_recovers_checkpoint]), and a store
      that is captured, saved, recovered and restored is the store it was
      ([restart_restores_store]).
    - The ticks: a drain dispatches exactly the active keys, each once
      ([tick_dispatches_active]), with the merge of all its requests ([Enqueue_merges]).
    - The job controller: whatever requests run together, with crashes and failing writes
      in between, the log only grows ([log_never_shrinks]), the runtime is called for a run
      only under a recorded operation ([runtime_calls_recorded]), a refused command leaves
      its run as it was ([refused_command_rolls_back]), a restart finds what was
      acknowledged ([restart_durable]), watches have no gap ([watch_no_gap]), recovery finds
      every operation under way and settles it ([listRunningOperations_complete],
      [recovery_settles]); the aggregate of statuses loses no source and shows the worst
      health.

    A theorem with a hypothesis is applied at a concrete input by a witness: in the file of
    the theorem, or in [StoreWitnesses], [CandidateWitnesses], [SchedulerWitnesses],
    [AdaptiveWitnesses], [CheckpointWitnesses], [JobWitnesses], and in the modules of witnesses
    of [EventLoopProofs].

    ** Bounds and fuel

    - [container/heap] sifts at most as deep as the heap is long; the fuel is its length.
    - Kahn's algorithm removes one phase a round; the fuel is the number of phases, and
      [validatePhaseGraph_acyclic] shows it is enough.
    - Resuming a transaction takes at most four rounds: [Resume_terminates].
    - Reading the pages of running operations takes one call more than there are
      operations: [listRunningOperations_complete].
    - A program is finite; waiting for another goroutine is a step that is not taken until
      the other is done, so a schedule decides how long it takes.

    ** Not modelled, and why

    - The text of protobuf and JSON messages in the checkpoint: parameters that read back what
      they wrote.
    - [scheduler-go/provider]: the executor is proved against every provider; the mock is a
      test double, and the NVIDIA provider drives [nvidia-smi] and helper processes.
    - [scheduler-go/service], [job-controller-go/service], [operator-go/control]: decoding of
      requests, metadata and streaming of gRPC around operations that are modelled.
    - [scheduler-go/config], [observability], [cmd]: files read at start-up, counters, wiring.
    - [operator-go], [internal], [cmd]: Kubernetes objects, processes and devices; what they
      do is what the API server, the kernel and the driver do.
    - [gateway-python], [runtime-python], [adapters], [console], [deploy], [gen]: other
      languages, manifests and generated code.
    - [runtimeclient/driver.go]: the client of the runtime; a call's outcome is a parameter
      of the controller's programs. *)

From Stdlib Require Import ZArith Lia Bool Ascii String.
From Stdlib Require Export Permutation Sorting.Sorted.
From stdpp Require Export base tactics list gmap strings sorting.
From stdpp Require Import options.

Open Scope Z_scope.

(** ** Results: a Go function that returns [(value, error)] *)

Inductive Result (E A : Type) : Type :=
| Ok (a : A)
| Err (e : E).

Arguments Ok {E A} a.
Arguments Err {E A} e.

#[export] Instance Result_ret E : MRet (Result E) := fun _ a => Ok a.

#[export] Instance Result_bind E : MBind (Result E) :=
  fun _ _ k r => match r with Ok a => k a | Err e => Err e end.

#[export] Instance Result_fmap E : FMap (Result E) :=
  fun _ _ f r => match r with Ok a => Ok (f a) | Err e => Err e end.

Definition is_ok {E A} (r : Result E A) : bool :=
  match r with Ok _ => true | Err _ => false end.

(** [guard_err b e] is Go's [if !b { return ..., e }]. *)
Definition guard_err {E} (b : bool) (e : E) : Result E unit :=
  if b then Ok tt else Err e.

Lemma bind_Ok {E A B} (r : Result E A) (k : A → Result E B) b :
  (r ≫= k) = Ok b ↔ ∃ a, r = Ok a ∧ k a = Ok b.
Proof. destruct r; naive_solver. Qed.

Lemma bind_Err {E A B} (r : Result E A) (k : A → Result E B) e :
  (r ≫= k) = Err e ↔ r = Err e ∨ ∃ a, r = Ok a ∧ k a = Err e.
Proof. destruct r; naive_solver. Qed.

Lemma guard_err_Ok {E} b (e : E) : guard_err b e = Ok tt ↔ b = true.
Proof. destruct b; naive_solver. Qed.

Lemma guard_err_Err {E} b (e e' : E) :
  guard_err b e = Err e' ↔ b = false ∧ e' = e.
Proof. destruct b; naive_solver. Qed.

(** ** Machine integers

    A Go [uint64] is a [Z] in [0, 2^64); arithmetic that can leave the range is
    written with [wrap64].  Likewise for [uint32] and, two's complement, for
    [int64] and [int32]. *)

Definition two32 : Z := 4294967296.
Definition two64 : Z := 18446744073709551616.
Definition max_uint64 : Z := 18446744073709551615.
Definition max_int64 : Z := 9223372036854775807.
Definition min_int64 : Z := -9223372036854775808.

Definition wrap64 (z : Z) : Z := z mod two64.
Definition wrap32 (z : Z) : Z := z mod two32.

Definition is_u64 (z : Z) : Prop := 0 ≤ z < two64.
Definition is_u32 (z : Z) : Prop := 0 ≤ z < two32.

(** Two's complement reading of the low 64 bits, Go's [int64] conversion. *)
Definition swrap64 (z : Z) : Z :=
  (z + 9223372036854775808) mod two64 - 9223372036854775808.

Definition swrap32 (z : Z) : Z := (z + 2147483648) mod two32 - 2147483648.

Lemma wrap64_id z : is_u64 z → wrap64 z = z.
Proof. intros ?. unfold wrap64. by apply Z.mod_small. Qed.

Lemma wrap64_range z : is_u64 (wrap64 z).
Proof. unfold is_u64, wrap64. by apply Z.mod_pos_bound. Qed.

Lemma swrap64_id z : min_int64 ≤ z ≤ max_int64 → swrap64 z = z.
Proof.
  intros ?. unfold swrap64. rewrite Z.mod_small; [lia|].
  unfold two64, min_int64, max_int64 in *. lia.
Qed.

Lemma is_u64_dec z : Decision (is_u64 z).
Proof. unfold is_u64. apply _. Defined.
#[export] Existing Instance is_u64_dec.

(** ** Record update

    [r <| f := v |>] is Go's assignment [r.f = v] on a value we own.  The
    instance [eta] lists the fields of a record once; the setter of each field
    is derived from it. *)

Class Eta (R : Type) := eta : R → R.

Class Setter {R T : Type} (proj : R → T) := set_field : (T → T) → R → R.
Arguments set_field {R T} proj {_} f r : assert.

Ltac derive_setter :=
  match goal with
  | |- @Setter ?R ?T ?proj =>
      let body := (eval hnf in (_ : Eta R)) in
      let upd := (match eval pattern proj in body with
                  | ?abs _ => constr:(fun f : T -> T => abs (fun r : R => f (proj r)))
                  end) in
      let upd := (eval cbv beta in upd) in
      exact upd
  end.

#[export] Hint Extern 1 (Setter _) => derive_setter : typeclass_instances.

Notation "r <| f := v |>" := (set_field f (fun _ => v) r)
  (at level 1, left associativity, f at next level, v at level 200,
   format "r  <| f  :=  v |>") : stdpp_scope.

Arguments set_field {R T} proj {_} f r /.

(** ** Less-than tests and stable sorting

    A Go comparator [func(i, j int) bool] is a boolean [less]; [sort_by less]
    is the stable insertion sort that [sort.SliceStable] computes whenever
    [less] is a strict weak order.  When [less] is total on the elements the
    sorted list is unique, so it also describes [sort.Slice] and [sort.Strings]. *)

Class StrictWeak {A} (less : A → A → bool) : Prop := {
  sw_asym a b : less a b = true → less b a = false;
  sw_neg_trans a b c : less b a = false → less c b = false → less c a = false;
}.

Fixpoint insert_by {A} (less : A → A → bool) (x : A) (l : list A) : list A :=
  match l with
  | [] => [x]
  | y :: l' => if less y x then y :: insert_by less x l' else x :: y :: l'
  end.

Fixpoint sort_by {A} (less : A → A → bool) (l : list A) : list A :=
  match l with
  | [] => []
  | x :: l' => insert_by less x (sort_by less l')
  end.

(** [not_after less a b]: [a] may stand before [b] in a sorted list. *)
Definition not_after {A} (less : A → A → bool) (a b : A) : Prop := less b a = false.

Definition sorted_by {A} (less : A → A → bool) (l : list A) : Prop :=
  StronglySorted (not_after less) l.

Section Sorting.
Context {A : Type} (less : A → A → bool).

Lemma insert_by_perm x l : insert_by less x l ≡ₚ x :: l.
Proof.
  induction l as [|y l IH]; simpl; [done|].
  destruct (less y x); [|done]. rewrite IH. apply Permutation_swap.
Qed.

Lemma sort_by_perm l : sort_by less l ≡ₚ l.
Proof. induction l as [|x l IH]; simpl; [done|]. by rewrite insert_by_perm, IH. Qed.

Lemma sort_by_length l : length (sort_by less l) = length l.
Proof. by rewrite sort_by_perm. Qed.

Lemma elem_of_sort_by x l : x ∈ sort_by less l ↔ x ∈ l.
Proof. by rewrite sort_by_perm. Qed.

Lemma sw_irrefl `{!StrictWeak less} a : less a a = false.
Proof. destruct (less a a) eqn:E; [|done]. by rewrite (sw_asym a a E) in E. Qed.

Lemma sw_lt_le `{!StrictWeak less} a b c : less a b = true → less c b = false → less a c = true.
Proof.
  intros Hab Hcb. destruct (less a c) eqn:E; [done|]. by rewrite (sw_neg_trans b c a Hcb E) in Hab.
Qed.

Lemma sw_trans `{!StrictWeak less} a b c : less a b = true → less b c = true → less a c = true.
Proof. intros Hab Hbc. eapply sw_lt_le; [done|by apply sw_asym]. Qed.

Lemma insert_by_sorted `{!StrictWeak less} x l :
  sorted_by less l → sorted_by less (insert_by less x l).
Proof.
  unfold sorted_by. induction 1 as [|y l Hl IH Hall]; simpl; [by repeat constructor|].
  destruct (less y x) eqn:Hyx; constructor; auto.
  - rewrite insert_by_perm. constructor; [by apply sw_asym|done].
  - by constructor.
  - constructor; [done|]. eapply Forall_impl; [done|].
    intros z Hz. unfold not_after in *. by eapply sw_neg_trans with y.
Qed.

Lemma sort_by_sorted `{!StrictWeak less} l : sorted_by less (sort_by less l).
Proof. induction l; simpl; [constructor|by apply insert_by_sorted]. Qed.

Lemma sort_by_id l : sorted_by less l → sort_by less l = l.
Proof.
  unfold sorted_by. induction 1 as [|y l Hl IH Hall]; simpl; [done|].
  rewrite IH. destruct l as [|z l]; simpl; [done|].
  inversion Hall as [|? ? Hz ?]; subst. unfold not_after in Hz. by rewrite Hz.
Qed.

(** Elements that [less] does not separate are equal: the sort has one
    possible result whatever the order of the input. *)
Lemma sort_by_unique `{!StrictWeak less} l1 l2 :
  (∀ a b, a ∈ l1 → b ∈ l1 → less a b = false → less b a = false → a = b) →
  l1 ≡ₚ l2 → sort_by less l1 = sort_by less l2.
Proof.
  intros Htot Hp. eapply (StronglySorted_unique_strong (not_after less)).
  - intros x1 x2 H1 H2 Hx Hy. rewrite elem_of_sort_by in H1, H2.
    apply Htot; [done|by rewrite Hp|exact Hy|exact Hx].
  - apply sort_by_sorted.
  - apply sort_by_sorted.
  - by rewrite !sort_by_perm.
Qed.
End Sorting.

(** Sorting by a test on images sorts the images. *)
Lemma insert_by_fmap {A B} (f : A → B) less x l :
  f <$> insert_by (λ a b, less (f a) (f b)) x l = insert_by less (f x) (f <$> l).
Proof. induction l as [|y l IH]; [done|]. cbn. case_match; [|done]. cbn. by rewrite IH. Qed.

Lemma sort_by_fmap {A B} (f : A → B) less l : f <$> sort_by (λ a b, less (f a) (f b)) l = sort_by less (f <$> l).
Proof. induction l as [|x l IH]; [done|]. cbn. by rewrite insert_by_fmap, IH. Qed.

Section Less.
Context {A : Type}.

(** Lexicographic combination: the first test decides unless it ties. *)
Definition lex_less (l1 l2 : A → A → bool) (a b : A) : bool :=
  if l1 a b then true else if l1 b a then false else l2 a b.

#[export] Instance lex_less_sw l1 l2 :
  StrictWeak l1 → StrictWeak l2 → StrictWeak (lex_less l1 l2).
Proof.
  intros H1 H2. unfold lex_less. split.
  - intros a b. destruct (l1 a b) eqn:E.
    + intros _. by rewrite (sw_asym _ _ E).
    + destruct (l1 b a) eqn:E'; [done|]. apply sw_asym.
  - intros a b c.
    destruct (l1 b a) eqn:Eba; [done|]. destruct (l1 c b) eqn:Ecb; [done|].
    rewrite (sw_neg_trans _ _ _ Eba Ecb).
    destruct (l1 a c) eqn:Eac; [done|].
    rewrite (sw_neg_trans b c a Ecb Eac), (sw_neg_trans c a b Eac Eba).
    apply sw_neg_trans.
Qed.

(** A tie is a tie of both. *)
Lemma lex_less_tie (l1 l2 : A → A → bool) a b :
  lex_less l1 l2 a b = false → lex_less l1 l2 b a = false → (l1 a b = false ∧ l1 b a = false) ∧ l2 a b = false ∧ l2 b a = false.
Proof. unfold lex_less. destruct (l1 a b), (l1 b a); naive_solver. Qed.

(** Comparison of a key, and its reverse.  Not instances: each unifies with
    every comparator, so they are applied by [key_sw] below. *)
Lemma key_less_sw {B} (l : B → B → bool) (key : A → B) :
  StrictWeak l → StrictWeak (λ a b, l (key a) (key b)).
Proof. intros [H1 H2]. split; eauto. Qed.

Lemma flip_less_sw (l : A → A → bool) :
  StrictWeak l → StrictWeak (λ a b, l b a).
Proof. intros [H1 H2]. split; eauto. Qed.

Lemma StrictWeak_ext (l1 l2 : A → A → bool) :
  (∀ a b, l1 a b = l2 a b) → StrictWeak l2 → StrictWeak l1.
Proof. intros Heq [H1 H2]. split; intros *; rewrite !Heq; eauto. Qed.
End Less.

#[export] Instance Zltb_sw : StrictWeak Z.ltb.
Proof. split; intros *; rewrite ?Z.ltb_lt, ?Z.ltb_ge; lia. Qed.

(** ** Strings: bytewise order, as Go's [<] on strings *)

Definition str_ltb (a b : string) : bool := String.ltb a b.

Lemma str_ltb_leb a b : str_ltb a b = negb (String.leb b a).
Proof.
  unfold str_ltb, String.ltb, String.leb. rewrite (String.compare_antisym b a).
  by destruct (String.compare a b).
Qed.

#[export] Instance str_ltb_sw : StrictWeak str_ltb.
Proof.
  assert (Ht : ∀ a b c, String.leb a b = true → String.leb b c = true →
    String.leb a c = true).
  { intros a b c H1 H2. apply Is_true_true_1.
    apply (transitivity (R := String.le) (y := b)); by apply Is_true_true. }
  split; intros *; rewrite !str_ltb_leb, ?negb_true_iff, ?negb_false_iff; [|eauto].
  intros H. by destruct (String.leb_total a b) as [E|E]; [|congruence].
Qed.

Lemma str_ltb_total a b : str_ltb a b = false → str_ltb b a = false → a = b.
Proof. rewrite !str_ltb_leb, !negb_false_iff. intros. by apply String.leb_antisym. Qed.

Lemma str_ltb_irrefl a : str_ltb a a = false.
Proof. apply sw_irrefl, _. Qed.

Definition sort_strings : list string → list string := sort_by str_ltb.

Lemma sort_strings_unique l1 l2 : l1 ≡ₚ l2 → sort_strings l1 = sort_strings l2.
Proof. intros. apply sort_by_unique; [apply _| |done]. intros. by apply str_ltb_total. Qed.

(** Discharge [StrictWeak] of a lexicographic comparator of keys. *)
Ltac key_sw :=
  first [ apply lex_less_sw; key_sw
        | apply (key_less_sw Z.ltb); exact _
        | apply (key_less_sw str_ltb); exact _
        | apply flip_less_sw; first [ apply (key_less_sw Z.ltb); exact _
                                    | apply (key_less_sw str_ltb); exact _ ] ].

(** ** Automation shared by the components *)

Create HintDb tgsrl.
#[export] Hint Resolve wrap64_range str_ltb_irrefl : tgsrl.

(** Split every boolean test and option match the goal or a hypothesis is
    stuck on, then simplify. *)
Ltac case_all :=
  repeat (case_match; simplify_eq/=; try done).

(** Turn a boolean conjunction or comparison hypothesis into a proposition. *)
Ltac bool_props :=
  repeat match goal with
  | H : _ && _ = true |- _ => apply andb_true_iff in H as [? ?]
  | H : _ || _ = false |- _ => apply orb_false_iff in H as [? ?]
  | H : negb _ = true |- _ => apply negb_true_iff in H
  | H : negb _ = false |- _ => apply negb_false_iff in H
  | H : (_ <? _) = true |- _ => apply Z.ltb_lt in H
  | H : (_ <? _) = false |- _ => apply Z.ltb_ge in H
  | H : (_ <=? _) = true |- _ => apply Z.leb_le in H
  | H : (_ <=? _) = false |- _ => apply Z.leb_gt in H
  | H : (_ =? _) = true |- _ => apply Z.eqb_eq in H
  | H : (_ =? _) = false |- _ => apply Z.eqb_neq in H
  | H : bool_decide _ = true |- _ => apply bool_decide_eq_true in H
  | H : bool_decide _ = false |- _ => apply bool_decide_eq_false in H
  end.

(** Decide the test a hypothesis branches on. *)
Tactic Notation "decide_in" hyp(H) "as" ident(Hd) :=
  match type of H with
  | context [bool_decide ?P] => destruct (bool_decide_reflect P) as [Hd|Hd]
  end.
