(* ===== verification/GoBytes.v ===== *)
(** * Bytes and big-endian integers

    The pieces of Go's [encoding/binary], [hash/crc32] and [io] that the journal
    uses: bytes are [Byte.byte], a [[]byte] is a list, a reader is the list of
    the bytes still unread. *)

From Stdlib Require Import ZArith Lia.
From Stdlib Require Import Init.Byte Strings.Byte.
From S2P Require Import Prelude.
From stdpp Require Import options.

Abbreviation byte := Byte.byte.

Definition byte_of_Z (z : Z) : byte :=
  match Byte.of_N (Z.to_N (z mod 256)) with Some b => b | None => x00 end.

Definition Z_of_byte (b : byte) : Z := Z.of_N (Byte.to_N b).

Lemma Z_of_byte_range b : 0 ≤ Z_of_byte b < 256.
Proof. unfold Z_of_byte. pose proof (Byte.to_N_bounded b). lia. Qed.

Lemma byte_of_Z_of_byte b : byte_of_Z (Z_of_byte b) = b.
Proof.
  unfold byte_of_Z. rewrite Z.mod_small by apply Z_of_byte_range.
  unfold Z_of_byte. by rewrite N2Z.id, Byte.of_to_N.
Qed.

Lemma Z_of_byte_of_Z z : Z_of_byte (byte_of_Z z) = z mod 256.
Proof.
  unfold byte_of_Z. assert (Hz : 0 ≤ z mod 256 < 256) by (by apply Z.mod_pos_bound).
  destruct (Byte.of_N (Z.to_N (z mod 256))) as [b|] eqn:E.
  - apply Byte.to_of_N in E. unfold Z_of_byte. rewrite E. lia.
  - apply Byte.of_N_None_iff in E. lia.
Qed.

Lemma Z_of_byte_inj b1 b2 : Z_of_byte b1 = Z_of_byte b2 → b1 = b2.
Proof. intros H. by rewrite <-(byte_of_Z_of_byte b1), H, byte_of_Z_of_byte. Qed.

#[export] Instance byte_eq_dec : EqDecision byte := Byte.byte_eq_dec.

(** ** [binary.BigEndian] *)

Definition PutUint16 (v : Z) : list byte := [byte_of_Z (v / 256); byte_of_Z v].

Definition PutUint32 (v : Z) : list byte :=
  [byte_of_Z (v / 16777216); byte_of_Z (v / 65536); byte_of_Z (v / 256); byte_of_Z v].

#[global] Arguments PutUint16 : simpl never.
#[global] Arguments PutUint32 : simpl never.

(** The reading of a byte sequence, most significant byte first. *)
Definition be_value (bs : list byte) : Z :=
  foldl (λ acc b, acc * 256 + Z_of_byte b) 0 bs.

Lemma length_PutUint16 v : length (PutUint16 v) = 2%nat.
Proof. done. Qed.

Lemma length_PutUint32 v : length (PutUint32 v) = 4%nat.
Proof. done. Qed.

Lemma be_value_PutUint16 v : 0 ≤ v < 65536 → be_value (PutUint16 v) = v.
Proof.
  intros Hv. unfold be_value, PutUint16; simpl. rewrite !Z_of_byte_of_Z.
  rewrite (Z.mod_small (v / 256)).
  - pose proof (Z.div_mod v 256). lia.
  - split; [by apply Z.div_pos; lia|]. apply Z.div_lt_upper_bound; lia.
Qed.

Lemma be_value_PutUint32 v : is_u32 v → be_value (PutUint32 v) = v.
Proof.
  unfold is_u32, two32. intros Hv. unfold be_value, PutUint32; simpl.
  rewrite !Z_of_byte_of_Z, (Z.mod_small (v / 16777216)).
  - replace (v / 16777216) with (v / 256 / 256 / 256) by (by rewrite !Z.div_div by lia).
    replace (v / 65536) with (v / 256 / 256) by (by rewrite !Z.div_div by lia).
    pose proof (Z.div_mod v 256). pose proof (Z.div_mod (v / 256) 256).
    pose proof (Z.div_mod (v / 256 / 256) 256). lia.
  - split; [by apply Z.div_pos; lia|]. apply Z.div_lt_upper_bound; lia.
Qed.

Lemma be_value_range bs : 0 ≤ be_value bs < 256 ^ Z.of_nat (length bs).
Proof.
  unfold be_value. induction bs as [|b bs IH] using rev_ind; [simpl; lia|].
  rewrite foldl_app, length_app; simpl. pose proof (Z_of_byte_range b).
  rewrite Nat2Z.inj_add, Z.pow_add_r by lia. lia.
Qed.

(** ** [io.ReadFull]

    Reads exactly [n] bytes: [ErrEOF] when nothing could be read, and
    [ErrUnexpectedEOF] when only some bytes could be read. *)

Inductive ReadError := ErrEOF | ErrUnexpectedEOF.

Definition ReadFull (n : nat) (s : list byte) : Result ReadError (list byte * list byte) :=
  if decide (n ≤ length s)%nat then Ok (take n s, drop n s)
  else match s with [] => Err ErrEOF | _ => Err ErrUnexpectedEOF end.

#[global] Arguments ReadFull : simpl never.

Lemma ReadFull_app l1 l2 : ReadFull (length l1) (l1 ++ l2) = Ok (l1, l2).
Proof.
  unfold ReadFull. rewrite decide_True by (rewrite length_app; lia).
  by rewrite take_app_length, drop_app_length.
Qed.

Lemma ReadFull_app_n n l1 l2 : n = length l1 → ReadFull n (l1 ++ l2) = Ok (l1, l2).
Proof. intros ->. apply ReadFull_app. Qed.

Lemma ReadFull_Ok n s a b : ReadFull n s = Ok (a, b) → s = a ++ b ∧ length a = n.
Proof.
  unfold ReadFull. case_decide; [|by destruct s]. intros [= <- <-].
  rewrite take_drop, length_take. split; [done|lia].
Qed.

Lemma ReadFull_short n s :
  (length s < n)%nat → ReadFull n s = Err (if decide (s = []) then ErrEOF else ErrUnexpectedEOF).
Proof.
  intros. unfold ReadFull. rewrite decide_False by lia. by destruct s.
Qed.

(** ** [crc32.ChecksumIEEE]: the reflected polynomial 0xedb88320, bit by bit *)

Definition crc_poly : Z := 0xedb88320.

Definition crc_bit (c : Z) : Z :=
  if Z.testbit c 0 then Z.lxor (Z.shiftr c 1) crc_poly else Z.shiftr c 1.

Definition crc_byte (c : Z) (b : byte) : Z :=
  Nat.iter 8 crc_bit (Z.lxor c (Z_of_byte b)).

Definition ChecksumIEEE (bs : list byte) : Z :=
  Z.lxor (foldl crc_byte 0xffffffff bs) 0xffffffff.

Example ChecksumIEEE_check_value :
  ChecksumIEEE (String.list_byte_of_string "123456789") = 0xcbf43926.
Proof. vm_compute. reflexivity. Qed.

(** Numbers below [2 ^ n] by their bits. *)
Lemma lt_pow2_bits n z :
  0 ≤ n → 0 ≤ z → (∀ i, n ≤ i → Z.testbit z i = false) → z < 2 ^ n.
Proof.
  intros Hn Hz Hb. destruct (decide (z = 0)) as [->|Hne]; [by apply Z.pow_pos_nonneg|].
  apply Z.log2_lt_pow2; [lia|]. destruct (decide (n ≤ Z.log2 z)) as [Hle|]; [|lia].
  specialize (Hb _ Hle). by rewrite Z.bit_log2 in Hb by lia.
Qed.

Lemma testbit_high n z i : 0 ≤ z < 2 ^ n → n ≤ i → Z.testbit z i = false.
Proof.
  intros [Hz Hlt] Hi. destruct (decide (z = 0)) as [->|]; [by rewrite Z.testbit_0_l|].
  apply Z.bits_above_log2; [lia|]. apply Z.log2_lt_pow2 in Hlt; lia.
Qed.

Lemma lxor_u32 a b : is_u32 a → is_u32 b → is_u32 (Z.lxor a b).
Proof.
  unfold is_u32. change two32 with (2 ^ 32). intros Ha Hb.
  assert (0 ≤ Z.lxor a b) by (apply Z.lxor_nonneg; lia).
  split; [done|]. apply lt_pow2_bits; [lia|done|].
  intros i Hi. by rewrite Z.lxor_spec, !(testbit_high 32) by (done || lia).
Qed.

Lemma crc_bit_u32 c : is_u32 c → is_u32 (crc_bit c).
Proof.
  intros Hc. assert (is_u32 (Z.shiftr c 1)).
  { unfold is_u32, two32 in *. rewrite Z.shiftr_div_pow2 by lia.
    change (2 ^ 1) with 2. split; [apply Z.div_pos; lia|].
    apply Z.div_lt_upper_bound; lia. }
  unfold crc_bit. destruct (Z.testbit c 0); [|done].
  apply lxor_u32; [done|]. by unfold is_u32, crc_poly, two32.
Qed.

Lemma crc_bits_u32 n c : is_u32 c → is_u32 (Nat.iter n crc_bit c).
Proof. induction n; simpl; auto using crc_bit_u32. Qed.

Lemma Z_of_byte_u32 b : is_u32 (Z_of_byte b).
Proof. pose proof (Z_of_byte_range b). unfold is_u32, two32. lia. Qed.

Lemma crc_byte_u32 c b : is_u32 c → is_u32 (crc_byte c b).
Proof. intros. apply crc_bits_u32, lxor_u32; auto using Z_of_byte_u32. Qed.

Lemma crc_bytes_u32 bs c : is_u32 c → is_u32 (foldl crc_byte c bs).
Proof. revert c. induction bs; simpl; auto using crc_byte_u32. Qed.

Lemma ChecksumIEEE_u32 bs : is_u32 (ChecksumIEEE bs).
Proof.
  apply lxor_u32; [apply crc_bytes_u32|]; by unfold is_u32, two32.
Qed.

(** One step of the register is injective on 32-bit values: bit 31 of the
    result says whether the polynomial was added, which gives back bit 0. *)
Lemma crc_bit_inj c1 c2 : is_u32 c1 → is_u32 c2 → crc_bit c1 = crc_bit c2 → c1 = c2.
Proof.
  unfold is_u32. change two32 with (2 ^ 32). intros H1 H2 Heq.
  assert (Hmsb : ∀ c, 0 ≤ c < 2 ^ 32 → Z.testbit (crc_bit c) 31 = Z.testbit c 0).
  { intros c Hc. unfold crc_bit. destruct (Z.testbit c 0).
    - rewrite Z.lxor_spec, Z.shiftr_spec by lia.
      by rewrite (testbit_high 32) by (done || lia).
    - rewrite Z.shiftr_spec by lia. by rewrite (testbit_high 32) by (done || lia). }
  assert (H0 : Z.testbit c1 0 = Z.testbit c2 0) by (rewrite <-!Hmsb; congruence).
  assert (Hs : Z.shiftr c1 1 = Z.shiftr c2 1).
  { unfold crc_bit in Heq. rewrite <-H0 in Heq. destruct (Z.testbit c1 0); [|done].
    apply (f_equal (λ x, Z.lxor x crc_poly)) in Heq.
    by rewrite !Z.lxor_assoc, Z.lxor_nilpotent, !Z.lxor_0_r in Heq. }
  apply Z.bits_inj'. intros i Hi. destruct (decide (i = 0)) as [->|]; [done|].
  replace i with ((i - 1) + 1) by lia. rewrite <-!Z.shiftr_spec by lia. by rewrite Hs.
Qed.

Lemma crc_bits_inj n c1 c2 :
  is_u32 c1 → is_u32 c2 → Nat.iter n crc_bit c1 = Nat.iter n crc_bit c2 → c1 = c2.
Proof.
  intros H1 H2. induction n as [|n IH]; simpl; [done|].
  intros ?%crc_bit_inj; auto using crc_bits_u32.
Qed.

Lemma lxor_cancel_r a b c : Z.lxor a c = Z.lxor b c → a = b.
Proof.
  intros H. apply (f_equal (λ x, Z.lxor x c)) in H.
  by rewrite !Z.lxor_assoc, Z.lxor_nilpotent, !Z.lxor_0_r in H.
Qed.

Lemma crc_byte_inj_state c1 c2 b :
  is_u32 c1 → is_u32 c2 → crc_byte c1 b = crc_byte c2 b → c1 = c2.
Proof.
  intros H1 H2 H. apply crc_bits_inj in H; [|apply lxor_u32; auto using Z_of_byte_u32..].
  by apply lxor_cancel_r in H.
Qed.

Lemma crc_byte_inj_byte c b1 b2 :
  is_u32 c → crc_byte c b1 = crc_byte c b2 → b1 = b2.
Proof.
  intros Hc H. apply crc_bits_inj in H; [|apply lxor_u32; auto using Z_of_byte_u32..].
  rewrite !(Z.lxor_comm c) in H. by apply lxor_cancel_r, Z_of_byte_inj in H.
Qed.

Lemma crc_bytes_inj bs c1 c2 :
  is_u32 c1 → is_u32 c2 → foldl crc_byte c1 bs = foldl crc_byte c2 bs → c1 = c2.
Proof.
  revert c1 c2. induction bs as [|b bs IH]; simpl; intros c1 c2 H1 H2 H; [done|].
  apply IH in H; auto using crc_byte_u32. by apply crc_byte_inj_state in H.
Qed.

(** Changing one byte changes the checksum. *)
Lemma ChecksumIEEE_one_byte pre b1 b2 post :
  ChecksumIEEE (pre ++ b1 :: post) = ChecksumIEEE (pre ++ b2 :: post) → b1 = b2.
Proof.
  unfold ChecksumIEEE. intros H%lxor_cancel_r. rewrite !foldl_app in H; simpl in H.
  assert (Hc : is_u32 (foldl crc_byte 4294967295 pre)).
  { apply crc_bytes_u32. by unfold is_u32, two32. }
  apply crc_bytes_inj in H; auto using crc_byte_u32.
  by apply crc_byte_inj_byte in H.
Qed.
