(* ===== verification/GoStrings.v ===== *)
(** * Go's [strings] and [strconv], as far as the modelled code uses them

    A Go string is its bytes: a Rocq [string].  [TrimSpace] strips exactly the
    UTF-8 encodings of the code points for which [unicode.IsSpace] holds. *)

From Stdlib Require Import ZArith Lia Ascii String.
From S2P Require Import Prelude.
From stdpp Require Import pretty.
From stdpp Require Import options.

Local Open Scope Z_scope.

(** ** Characters and lists of characters *)

Abbreviation chars := String.list_ascii_of_string.
Abbreviation unchars := String.string_of_list_ascii.

Definition code (c : ascii) : Z := Z.of_N (N_of_ascii c).

Definition is_digit (c : ascii) : bool := (48 <=? code c) && (code c <=? 57).
Definition is_upper (c : ascii) : bool := (65 <=? code c) && (code c <=? 90).
Definition is_lower (c : ascii) : bool := (97 <=? code c) && (code c <=? 122).

(** Printable ASCII other than the blank. *)
Definition is_graphic (c : ascii) : bool := (33 <=? code c) && (code c <=? 126).

Definition all_chars (f : ascii → bool) (s : string) : bool := forallb f (chars s).

Lemma all_chars_app f s1 s2 : all_chars f (s1 +:+ s2) = all_chars f s1 && all_chars f s2.
Proof. unfold all_chars. induction s1; simpl; [done|]. by rewrite IHs1, andb_assoc. Qed.

Lemma chars_app s1 s2 : chars (s1 +:+ s2) = chars s1 ++ chars s2.
Proof. induction s1; simpl; [done|]. by rewrite IHs1. Qed.

Lemma unchars_app l1 l2 : unchars (l1 ++ l2) = unchars l1 +:+ unchars l2.
Proof. induction l1; simpl; [done|]. by rewrite IHl1. Qed.

(** ** [strings.TrimSpace] *)

Definition bytes_seq (l : list nat) : list ascii := ascii_of_nat <$> l.

(** The encodings of the white-space code points. *)
Definition space_seqs : list (list ascii) :=
  bytes_seq <$>
  [[9]; [10]; [11]; [12]; [13]; [32]; [194; 133]; [194; 160]; [225; 154; 128];
   [226; 128; 128]; [226; 128; 129]; [226; 128; 130]; [226; 128; 131]; [226; 128; 132];
   [226; 128; 133]; [226; 128; 134]; [226; 128; 135]; [226; 128; 136]; [226; 128; 137];
   [226; 128; 138]; [226; 128; 168]; [226; 128; 169]; [226; 128; 175]; [226; 129; 159];
   [227; 128; 128]]%nat.

Fixpoint strip_prefix (p l : list ascii) : option (list ascii) :=
  match p, l with
  | [], _ => Some l
  | a :: p', b :: l' => if Ascii.eqb a b then strip_prefix p' l' else None
  | _ :: _, [] => None
  end.

Fixpoint strip_any (ps : list (list ascii)) (l : list ascii) : option (list ascii) :=
  match ps with
  | [] => None
  | p :: ps' => match strip_prefix p l with Some r => Some r | None => strip_any ps' l end
  end.

Fixpoint trim_left (fuel : nat) (ps : list (list ascii)) (l : list ascii) : list ascii :=
  match fuel with
  | O => l
  | S fuel' => match strip_any ps l with Some r => trim_left fuel' ps r | None => l end
  end.

Definition TrimSpace (s : string) : string :=
  let l := chars s in
  let l := trim_left (length l) space_seqs l in
  unchars (reverse (trim_left (length l) (reverse <$> space_seqs) (reverse l))).

(** No white-space sequence starts or ends with a graphic character. *)
Lemma strip_any_graphic c l :
  is_graphic c = true →
  strip_any space_seqs (c :: l) = None ∧ strip_any (reverse <$> space_seqs) (c :: l) = None.
Proof.
  intros Hc. assert (Hne : ∀ n, (n < 33 ∨ 126 < n)%nat → Ascii.eqb (ascii_of_nat n) c = false
    ∨ (255 < n)%nat).
  { intros n Hn. destruct (decide (255 < n)%nat) as [|Hle]; [by right|]. left.
    apply Ascii.eqb_neq. intros <-. unfold is_graphic, code in Hc.
    unfold ascii_of_nat in Hc. rewrite N_ascii_embedding in Hc by lia. bool_props. lia. }
  assert (Hno : ∀ ps, forallb (λ p : list nat, match p with
      | n :: _ => ((n <? 33) || (126 <? n)) && (n <=? 255) | [] => false end)%nat ps = true →
      strip_any (bytes_seq <$> ps) (c :: l) = None).
  { induction ps as [|p ps IH]; simpl; [done|]. intros [Hp Hps]%andb_true_iff.
    destruct p as [|n p]; [done|]. apply andb_true_iff in Hp as [Hp1 Hp2].
    apply Nat.leb_le in Hp2. destruct (Hne n) as [E|]; [|simpl; rewrite E; auto|lia].
    apply orb_true_iff in Hp1 as [?%Nat.ltb_lt|?%Nat.ltb_lt]; auto. }
  split.
  - apply Hno. vm_compute. reflexivity.
  - replace (reverse <$> space_seqs) with
      (bytes_seq <$> [[9]; [10]; [11]; [12]; [13]; [32]; [133; 194]; [160; 194]; [128; 154; 225];
       [128; 128; 226]; [129; 128; 226]; [130; 128; 226]; [131; 128; 226]; [132; 128; 226];
       [133; 128; 226]; [134; 128; 226]; [135; 128; 226]; [136; 128; 226]; [137; 128; 226];
       [138; 128; 226]; [168; 128; 226]; [169; 128; 226]; [175; 128; 226]; [159; 129; 226];
       [128; 128; 227]]%nat) by done.
    apply Hno. vm_compute. reflexivity.
Qed.

Lemma trim_left_graphic fuel c l :
  is_graphic c = true →
  trim_left fuel space_seqs (c :: l) = c :: l ∧
  trim_left fuel (reverse <$> space_seqs) (c :: l) = c :: l.
Proof.
  intros [H1 H2]%(strip_any_graphic c l). destruct fuel; [done|].
  cbn [trim_left]. by rewrite H1, H2.
Qed.

Lemma TrimSpace_graphic s : all_chars is_graphic s = true → TrimSpace s = s.
Proof.
  unfold TrimSpace, all_chars. intros Hg.
  assert (Hl : trim_left (length (chars s)) space_seqs (chars s) = chars s).
  { destruct (chars s) as [|c l]; [done|]. simpl in Hg. bool_props.
    by apply trim_left_graphic. }
  rewrite Hl. assert (Hr : trim_left (length (chars s)) (reverse <$> space_seqs)
    (reverse (chars s)) = reverse (chars s)).
  { destruct (reverse (chars s)) as [|c l] eqn:E; [by destruct (length _)|].
    apply trim_left_graphic. rewrite forallb_forall in Hg. apply Hg.
    apply list_elem_of_In, elem_of_reverse. rewrite E. by left. }
  rewrite Hr, reverse_involutive. apply String.string_of_list_ascii_of_string.
Qed.

(** ** Prefixes, cutting, splitting and joining *)

Definition HasPrefix (s p : string) : bool := String.prefix p s.

Definition TrimPrefix (s p : string) : string :=
  match strip_prefix (chars p) (chars s) with Some r => unchars r | None => s end.

(** [strings.Cut] at a one-byte separator. *)
Fixpoint cut_list (c : ascii) (l : list ascii) : list ascii * option (list ascii) :=
  match l with
  | [] => ([], None)
  | x :: l' =>
      if Ascii.eqb x c then ([], Some l')
      else let '(b, a) := cut_list c l' in (x :: b, a)
  end.

Definition Cut (s : string) (c : ascii) : string * option string :=
  let '(b, a) := cut_list c (chars s) in (unchars b, unchars <$> a).

Definition Contains_byte (s : string) (c : ascii) : bool :=
  existsb (λ x, Ascii.eqb x c) (chars s).

(** [strings.Split] at a one-byte separator. *)
Fixpoint split_list (c : ascii) (l : list ascii) : list (list ascii) :=
  match l with
  | [] => [[]]
  | x :: l' =>
      if Ascii.eqb x c then [] :: split_list c l'
      else match split_list c l' with
           | p :: ps => (x :: p) :: ps
           | [] => [[x]]
           end
  end.

Definition Split (s : string) (c : ascii) : list string := unchars <$> split_list c (chars s).

(** [strings.Join] *)
Fixpoint Join (parts : list string) (sep : string) : string :=
  match parts with
  | [] => ""
  | [p] => p
  | p :: ps => p +:+ sep +:+ Join ps sep
  end.

Definition sep_free (c : ascii) (s : string) : Prop := c ∉ chars s.

Lemma chars_unchars l : chars (unchars l) = l.
Proof. apply String.list_ascii_of_string_of_list_ascii. Qed.

Lemma unchars_chars s : unchars (chars s) = s.
Proof. apply String.string_of_list_ascii_of_string. Qed.

Lemma split_list_free c l : c ∉ l → split_list c l = [l].
Proof.
  induction l as [|x l IH]; simpl; [done|]. intros [Hx Hl]%not_elem_of_cons.
  destruct (Ascii.eqb_spec x c); [congruence|]. by rewrite IH.
Qed.

Lemma split_list_app c l1 l2 :
  c ∉ l1 → split_list c (l1 ++ c :: l2) = l1 :: split_list c l2.
Proof.
  induction l1 as [|x l IH]; simpl; [by rewrite Ascii.eqb_refl|].
  intros [Hx Hl]%not_elem_of_cons. destruct (Ascii.eqb_spec x c); [congruence|].
  by rewrite IH.
Qed.

Lemma split_list_ne c l : split_list c l ≠ [].
Proof. destruct l; simpl; repeat case_match; congruence. Qed.

Lemma split_list_pieces c l : Forall (λ p, c ∉ p) (split_list c l).
Proof.
  induction l as [|x l IH]; simpl; [repeat constructor; set_solver|].
  destruct (Ascii.eqb_spec x c); [constructor; [set_solver|done]|].
  destruct (split_list c l) as [|p ps]; [repeat constructor; set_solver|].
  inversion IH; subst. constructor; [|done]. set_solver.
Qed.

(** Splitting what was joined, and the converse. *)
Lemma Split_Join c parts :
  parts ≠ [] → Forall (sep_free c) parts →
  Split (Join parts (String c EmptyString)) c = parts.
Proof.
  unfold Split, sep_free. intros Hne Hf. induction Hf as [|p ps Hp Hf IH]; [done|].
  destruct ps as [|q ps].
  - simpl. rewrite split_list_free by done. simpl. by rewrite unchars_chars.
  - change (Join (p :: q :: ps) _) with (p +:+ String c EmptyString +:+ Join (q :: ps) (String c EmptyString)).
    rewrite !chars_app. cbn [chars app]. rewrite split_list_app by done.
    rewrite fmap_cons, unchars_chars. f_equal. by apply IH.
Qed.

Lemma Join_Split c s : Join (Split s c) (String c EmptyString) = s.
Proof.
  unfold Split. rewrite <-(unchars_chars s) at 2. generalize (chars s); intros l.
  induction l as [|x l IH]; simpl; [done|].
  pose proof (split_list_ne c l). destruct (Ascii.eqb_spec x c) as [->|].
  - destruct (split_list c l) as [|p ps] eqn:E; [done|]. simpl in *. by rewrite IH.
  - destruct (split_list c l) as [|p ps] eqn:E; [done|]. simpl in *.
    destruct ps; simpl in *; by rewrite <-IH.
Qed.

Lemma cut_list_app c l1 l2 : c ∉ l1 → cut_list c (l1 ++ c :: l2) = (l1, Some l2).
Proof.
  induction l1 as [|x l IH]; simpl; [by rewrite Ascii.eqb_refl|].
  intros [Hx Hl]%not_elem_of_cons. destruct (Ascii.eqb_spec x c); [congruence|].
  by rewrite IH.
Qed.

Lemma cut_list_free c l : c ∉ l → cut_list c l = (l, None).
Proof.
  induction l as [|x l IH]; simpl; [done|]. intros [Hx Hl]%not_elem_of_cons.
  destruct (Ascii.eqb_spec x c); [congruence|]. by rewrite IH.
Qed.

Lemma cut_list_spec c l b a :
  cut_list c l = (b, a) →
  (c ∉ b) ∧ l = b ++ (match a with Some r => c :: r | None => [] end).
Proof.
  revert b a. induction l as [|x l IH]; simpl; intros b a.
  { intros [= <- <-]. split; [set_solver|done]. }
  destruct (Ascii.eqb_spec x c) as [->|Hx].
  { intros [= <- <-]. split; [set_solver|done]. }
  destruct (cut_list c l) as [b' a'] eqn:E. intros [= <- <-].
  destruct (IH _ _ eq_refl) as [Hb ->]. by split; [set_solver|].
Qed.

Lemma Cut_app c s1 s2 :
  sep_free c s1 → Cut (s1 +:+ String c s2) c = (s1, Some s2).
Proof.
  intros Hf. unfold Cut. rewrite chars_app. cbn [chars]. rewrite cut_list_app by done.
  cbn. by rewrite !unchars_chars.
Qed.

Lemma Cut_free c s : sep_free c s → Cut s c = (s, None).
Proof. intros Hf. unfold Cut. rewrite cut_list_free by done. cbn. by rewrite unchars_chars. Qed.

Lemma Contains_byte_false s c : Contains_byte s c = false ↔ sep_free c s.
Proof.
  unfold Contains_byte, sep_free. rewrite <-not_true_iff_false, existsb_exists. split.
  - intros H Hin. apply H. exists c. rewrite Ascii.eqb_refl. split; [|done].
    by apply list_elem_of_In.
  - intros H (x & Hx & E). apply Ascii.eqb_eq in E as ->. by apply H, list_elem_of_In.
Qed.

(** ** Letter case *)

Definition ascii_lower (c : ascii) : ascii :=
  if is_upper c then ascii_of_nat (nat_of_ascii c + 32) else c.
Definition ascii_upper (c : ascii) : ascii :=
  if is_lower c then ascii_of_nat (nat_of_ascii c - 32) else c.

Definition is_ascii (s : string) : bool := all_chars (λ c, code c <? 128) s.
Definition lower_ascii (s : string) : string := unchars (ascii_lower <$> chars s).
Definition upper_ascii (s : string) : string := unchars (ascii_upper <$> chars s).

(** [strings.ToLower]; [unicode_lower] is its action on strings that are not
    ASCII. *)
Definition ToLower (unicode_lower : string → string) (s : string) : string :=
  if is_ascii s then lower_ascii s else unicode_lower s.

Definition ToUpper (unicode_upper : string → string) (s : string) : string :=
  if is_ascii s then upper_ascii s else unicode_upper s.

(** ** Decimal numbers *)

Definition digit_char (d : Z) : ascii := ascii_of_N (Z.to_N (48 + d)).

Fixpoint format_digits (fuel : nat) (n : Z) (acc : list ascii) : list ascii :=
  match fuel with
  | O => acc
  | S fuel' =>
      let acc' := digit_char (n mod 10) :: acc in
      if n <? 10 then acc' else format_digits fuel' (n / 10) acc'
  end.

(** [strconv.FormatUint(n, 10)] and [%d] of an unsigned number. *)
Definition FormatUint (n : Z) : string :=
  unchars (format_digits (S (Z.to_nat (Z.log2 n))) n []).

Definition digits_value (l : list ascii) : Z :=
  foldl (λ acc c, acc * 10 + (code c - 48)) 0 l.

(** A canonical decimal number: digits without a superfluous leading zero. *)
Definition canonical_digits (l : list ascii) : Prop :=
  l ≠ [] ∧ forallb is_digit l = true ∧ (head l = Some "0"%char → l = ["0"%char]).

Lemma code_digit_char d : 0 ≤ d < 10 → code (digit_char d) = 48 + d.
Proof. intros. unfold code, digit_char. rewrite N_ascii_embedding by lia. lia. Qed.

Lemma is_digit_digit_char d : 0 ≤ d < 10 → is_digit (digit_char d) = true.
Proof.
  intros. unfold is_digit. rewrite code_digit_char by done.
  apply andb_true_iff; split; apply Z.leb_le; lia.
Qed.

Lemma digits_value_app l1 l2 :
  digits_value (l1 ++ l2) =
  foldl (λ acc c, acc * 10 + (code c - 48)) (digits_value l1) l2.
Proof. unfold digits_value. by rewrite foldl_app. Qed.

Lemma format_digits_spec fuel n acc :
  0 ≤ n < 2 ^ Z.of_nat fuel → (0 < fuel)%nat →
  ∃ ds, format_digits fuel n acc = ds ++ acc ∧ digits_value ds = n ∧ canonical_digits ds
    ∧ (n ≠ 0 → head ds ≠ Some "0"%char).
Proof.
  revert n acc. induction fuel as [|fuel IH]; intros n acc Hn Hf; [lia|]. simpl.
  pose proof (Z.mod_pos_bound n 10 eq_refl) as Hm.
  assert (Hv : ∀ d, 0 ≤ d < 10 → head [digit_char d] = Some "0"%char → d = 0).
  { intros d Hd [= E]. apply (f_equal code) in E. rewrite code_digit_char in E by done.
    change (code "0") with 48 in E. lia. }
  destruct (Z.ltb_spec n 10) as [Hlt|Hge].
  - rewrite Z.mod_small in * by lia. exists [digit_char n].
    split; [done|]. split; [|split; [split_and!|]].
    + unfold digits_value; simpl. rewrite code_digit_char; lia.
    + done.
    + simpl. by rewrite is_digit_digit_char.
    + by intros ->%Hv.
    + intros Hne E%Hv; lia.
  - rewrite Nat2Z.inj_succ, Z.pow_succ_r in Hn by lia.
    pose proof (Z.div_mod n 10). assert (n / 10 < 2 ^ Z.of_nat fuel).
    { apply Z.div_lt_upper_bound; lia. }
    assert (1 ≤ n / 10) by (apply Z.div_le_lower_bound; lia).
    destruct fuel as [|fuel']; [simpl in *; lia|].
    destruct (IH (n / 10) (digit_char (n mod 10) :: acc)) as (ds & -> & Hds & (Hne & Hd & Hz) & Hnz);
      [lia..|].
    exists (ds ++ [digit_char (n mod 10)]). rewrite <-app_assoc.
    split; [done|]. split; [|split; [split_and!|]].
    + rewrite digits_value_app, Hds. simpl. rewrite code_digit_char; lia.
    + by destruct ds.
    + rewrite forallb_app, Hd. simpl. by rewrite is_digit_digit_char.
    + intros E. destruct ds as [|d ds]; [done|]. exfalso. apply Hnz; [lia|done].
    + intros _. destruct ds as [|d ds]; [done|]. apply Hnz. lia.
Qed.

Lemma FormatUint_spec n :
  0 ≤ n → canonical_digits (chars (FormatUint n)) ∧ digits_value (chars (FormatUint n)) = n.
Proof.
  intros Hn. unfold FormatUint. rewrite chars_unchars.
  destruct (format_digits_spec (S (Z.to_nat (Z.log2 n))) n []) as (ds & -> & Hv & Hc & _); [|lia|].
  - rewrite Nat2Z.inj_succ, Z2Nat.id by apply Z.log2_nonneg. split; [done|].
    destruct (decide (n = 0)) as [->|]; [done|]. by apply Z.log2_spec; lia.
  - by rewrite app_nil_r.
Qed.

Lemma FormatUint_inj n1 n2 : 0 ≤ n1 → 0 ≤ n2 → FormatUint n1 = FormatUint n2 → n1 = n2.
Proof.
  intros H1 H2 E. destruct (FormatUint_spec n1 H1) as [_ <-].
  destruct (FormatUint_spec n2 H2) as [_ <-]. by rewrite E.
Qed.

Lemma append_nil_r (s : string) : s +:+ "" = s.
Proof. induction s as [|c s IH]; [done|]. change (String c (s +:+ "") = String c s). by rewrite IH. Qed.

Lemma append_assoc (a b c : string) : (a +:+ b) +:+ c = a +:+ (b +:+ c).
Proof. induction a as [|x a IH]; [done|]. change (String x ((a +:+ b) +:+ c) = String x (a +:+ (b +:+ c))). by rewrite IH. Qed.

Lemma app_length_inj (a b c d : string) : String.length a = String.length c → a +:+ b = c +:+ d → a = c ∧ b = d.
Proof.
  revert c. induction a as [|x a IH]; intros [|y c] Hl H; try done. cbn in Hl, H. injection Hl as Hl. injection H as -> H.
  by destruct (IH c Hl H) as [-> ->].
Qed.

Lemma concat_cons (x : string) l : String.concat "" (x :: l) = x +:+ String.concat "" l.
Proof. destruct l; cbn; [by rewrite append_nil_r|done]. Qed.

Lemma FormatUint_free n : 0 ≤ n → sep_free ":"%char (FormatUint n).
Proof.
  intros Hn. destruct (FormatUint_spec n Hn) as ((_ & Hd & _) & _). unfold sep_free. intros Hin.
  rewrite forallb_forall in Hd. specialize (Hd _ (proj1 (list_elem_of_In _ _) Hin)). by vm_compute in Hd.
Qed.

(** [strconv.Atoi]: an optional sign and digits, within [int64]. *)
Definition Atoi (s : string) : option Z :=
  let '(neg, ds) :=
    match chars s with
    | "-"%char :: l => (true, l)
    | "+"%char :: l => (false, l)
    | l => (false, l)
    end in
  match ds with
  | [] => None
  | _ =>
      if forallb is_digit ds then
        let v := if neg : bool then - digits_value ds else digits_value ds in
        if (min_int64 <=? v) && (v <=? max_int64) then Some v else None
      else None
  end.

(** [strconv.FormatInt(n, 10)] *)
Definition FormatInt (n : Z) : string :=
  if n <? 0 then "-" +:+ FormatUint (- n) else FormatUint n.

(** [%0wd] of an unsigned number. *)
Definition FormatPadded (w : nat) (n : Z) : string :=
  let ds := chars (FormatUint n) in
  unchars (replicate (w - length ds) "0"%char ++ ds).

Definition FormatBool (b : bool) : string := if b then "true" else "false".

(** [strconv.ParseBool] *)
Definition ParseBool (s : string) : option bool :=
  if bool_decide (s ∈ ["1"; "t"; "T"; "true"; "TRUE"; "True"]) then Some true
  else if bool_decide (s ∈ ["0"; "f"; "F"; "false"; "FALSE"; "False"]) then Some false
  else None.

(** [strings.ReplaceAll] of one byte by another. *)
Definition replace_byte (old new : ascii) (s : string) : string :=
  unchars ((λ c, if Ascii.eqb c old then new else c) <$> chars s).

(** [%q].  What it writes for runes outside ASCII depends on Go's table of
    printable runes, hence the parameter. *)
Definition hex_digit (d : Z) : ascii :=
  if d <? 10 then ascii_of_N (Z.to_N (48 + d)) else ascii_of_N (Z.to_N (87 + d)).

Definition quote_char (c : ascii) : list ascii :=
  let n := code c in
  if n =? 34 then ["\"; c]%char else
  if n =? 92 then ["\"; "\"]%char else
  if n =? 7 then ["\"; "a"]%char else
  if n =? 8 then ["\"; "b"]%char else
  if n =? 12 then ["\"; "f"]%char else
  if n =? 10 then ["\"; "n"]%char else
  if n =? 13 then ["\"; "r"]%char else
  if n =? 9 then ["\"; "t"]%char else
  if n =? 11 then ["\"; "v"]%char else
  if (n <? 32) || (n =? 127) then ["\"%char; "x"%char; hex_digit (n / 16); hex_digit (n mod 16)]
  else [c].

Definition dquote : ascii := ascii_of_N 34.

Definition Quote (unicode_quote : string → string) (s : string) : string :=
  if is_ascii s then unchars (dquote :: (chars s ≫= quote_char) ++ [dquote]) else unicode_quote s.
