(* ===== verification/GoTime.v ===== *)
(** * Go's [time] and protobuf's [timestamppb]/[durationpb]

    An instant is the number of nanoseconds since the Unix epoch; the zero
    [time.Time] is the first instant of year 1. *)

From Stdlib Require Import ZArith Lia Ascii.
From S2P Require Import Prelude GoStrings.
From stdpp Require Import options.

Local Open Scope Z_scope.

Definition Second : Z := 1000000000.
Definition Millisecond : Z := 1000000.
Definition Minute : Z := 60 * Second.

Definition zero_time : Z := -62135596800 * Second.
Definition IsZero (t : Z) : bool := t =? zero_time.

(** [t.Sub(u)]: a duration, saturating at the limits of [int64]. *)
Definition clamp64 (d : Z) : Z := Z.max min_int64 (Z.min max_int64 d).
Definition time_Sub (t u : Z) : Z := clamp64 (t - u).

Lemma clamp64_mono a b : a ≤ b → clamp64 a ≤ clamp64 b.
Proof. unfold clamp64. lia. Qed.

Lemma time_Sub_lt t u d : d ≤ max_int64 → time_Sub t u < d → t - u < d.
Proof. unfold time_Sub, clamp64. lia. Qed.

Lemma time_Sub_ge t u d : min_int64 < d → d ≤ time_Sub t u → d ≤ t - u.
Proof. unfold time_Sub, clamp64. lia. Qed.

Lemma time_Sub_lt_iff t u d :
  min_int64 < d ≤ max_int64 → time_Sub t u < d ↔ t - u < d.
Proof. unfold time_Sub, clamp64. lia. Qed.

(** [d.Milliseconds()] *)
Definition Milliseconds (d : Z) : Z := Z.quot d Millisecond.

Record Timestamp := mkTimestamp { Seconds : Z; Nanos : Z }.

#[export] Instance Timestamp_eq_dec : EqDecision Timestamp.
Proof. solve_decision. Defined.

(** A nil timestamp reads as the epoch. *)
Definition AsTime (ts : option Timestamp) : Z :=
  match ts with Some t => Seconds t * Second + Nanos t | None => 0 end.

(** [timestamppb.New] *)
Definition timestamp_New (t : Z) : Timestamp := mkTimestamp (t / Second) (t mod Second).

Definition Timestamp_valid (t : Timestamp) : bool :=
  (-62135596800 <=? Seconds t) && (Seconds t <=? 253402300799) &&
  (0 <=? Nanos t) && (Nanos t <=? 999999999).

Lemma AsTime_New t : AsTime (Some (timestamp_New t)) = t.
Proof. unfold AsTime, timestamp_New, Second; simpl. pose proof (Z.div_mod t 1000000000). lia. Qed.

Record Duration := mkDuration { DurSeconds : Z; DurNanos : Z }.

#[export] Instance Duration_eq_dec : EqDecision Duration.
Proof. solve_decision. Defined.

Definition AsDuration (d : Duration) : Z := clamp64 (DurSeconds d * Second + DurNanos d).

(** [CheckValid] of a duration: bounded, and both parts of the same sign. *)
Definition Duration_valid (d : Duration) : bool :=
  (-315576000000 <=? DurSeconds d) && (DurSeconds d <=? 315576000000) &&
  (-999999999 <=? DurNanos d) && (DurNanos d <=? 999999999) &&
  negb ((0 <? DurSeconds d) && (DurNanos d <? 0)) &&
  negb ((DurSeconds d <? 0) && (0 <? DurNanos d)).

(** ** [time.RFC3339Nano] of a UTC time

    The civil date of a day number, then the clock, then the fraction of the
    second without its trailing zeros. *)

Definition civil_of_days (days : Z) : Z * Z * Z :=
  let z := days + 719468 in
  let era := z / 146097 in
  let doe := z mod 146097 in
  let yoe := (doe - doe / 1460 + doe / 36524 - doe / 146096) / 365 in
  let doy := doe - (365 * yoe + yoe / 4 - yoe / 100) in
  let mp := (5 * doy + 2) / 153 in
  let d := doy - (153 * mp + 2) / 5 + 1 in
  let m := if mp <? 10 then mp + 3 else mp - 9 in
  (yoe + era * 400 + (if m <=? 2 then 1 else 0), m, d).

Fixpoint drop_zeros (l : list Ascii.ascii) : list Ascii.ascii :=
  match l with
  | c :: l' => if Ascii.eqb c "0"%char then drop_zeros l' else l
  | [] => []
  end.

Definition format_fraction (nanos : Z) : string :=
  if nanos =? 0 then "" else
  "." +:+ unchars (reverse (drop_zeros (reverse (chars (FormatPadded 9 nanos))))).

Definition FormatRFC3339Nano (t : Z) : string :=
  let secs := t / Second in
  let sod := secs mod 86400 in
  let '(y, m, d) := civil_of_days (secs / 86400) in
  FormatPadded 4 y +:+ "-" +:+ FormatPadded 2 m +:+ "-" +:+ FormatPadded 2 d +:+ "T" +:+
  FormatPadded 2 (sod / 3600) +:+ ":" +:+ FormatPadded 2 ((sod / 60) mod 60) +:+ ":" +:+
  FormatPadded 2 (sod mod 60) +:+ format_fraction (t mod Second) +:+ "Z".

Example format_epoch : FormatRFC3339Nano 0 = "1970-01-01T00:00:00Z".
Proof. vm_compute. reflexivity. Qed.

Example format_leap : FormatRFC3339Nano (1709211845 * Second + 120000000) = "2024-02-29T13:04:05.12Z".
Proof. vm_compute. reflexivity. Qed.
