(* ===== verification/GoFloat.v ===== *)
(** * Go's [float64]: IEEE 754 binary64 on the standard library's [spec_float] *)

From Stdlib Require Import ZArith Lia.
From Stdlib Require Import Floats.SpecFloat.
From S2P Require Import Prelude.
From stdpp Require Import options.

Local Open Scope Z_scope.

Abbreviation float64 := spec_float.

Definition fadd : float64 → float64 → float64 := SFadd 53 1024.
Definition fsub : float64 → float64 → float64 := SFsub 53 1024.
Definition fmul : float64 → float64 → float64 := SFmul 53 1024.
Definition fdiv : float64 → float64 → float64 := SFdiv 53 1024.
Definition fltb : float64 → float64 → bool := SFltb.
Definition fleb : float64 → float64 → bool := SFleb.
Definition feqb : float64 → float64 → bool := SFeqb.

Definition f0 : float64 := S754_zero false.
(** [float64(z)] for an integer [z], rounded to nearest even. *)
Definition f_of_Z (z : Z) : float64 := binary_normalize 53 1024 z 0 false.
Definition f1 : float64 := f_of_Z 1.

Definition IsNaN (f : float64) : bool := match f with S754_nan => true | _ => false end.
Definition IsInf (f : float64) : bool := match f with S754_infinity _ => true | _ => false end.

(** [math.IsNaN(v) || math.IsInf(v, 0)] *)
Definition invalidFloat (f : float64) : bool := IsNaN f || IsInf f.

(** [math.Min] *)
Definition fmin (x y : float64) : float64 :=
  match x, y with
  | S754_infinity true, _ | _, S754_infinity true => S754_infinity true
  | S754_nan, _ | _, S754_nan => S754_nan
  | S754_zero sx, S754_zero _ => if sx then x else y
  | _, _ => if fltb x y then x else y
  end.

(** [math.Max] *)
Definition fmax (x y : float64) : float64 :=
  match x, y with
  | S754_infinity false, _ | _, S754_infinity false => S754_infinity false
  | S754_nan, _ | _, S754_nan => S754_nan
  | S754_zero sx, S754_zero _ => if sx then y else x
  | _, _ => if fltb y x then x else y
  end.

(** [math.Round]: to the nearest integer, halves away from zero. *)
Definition fround (f : float64) : float64 :=
  match f with
  | S754_finite s m e =>
      if 0 <=? e then f else
      let q := (Zpos m + 2 ^ (- e - 1)) / 2 ^ (- e) in
      if q =? 0 then S754_zero s else binary_normalize 53 1024 (if s then - q else q) 0 s
  | _ => f
  end.

(** The constant nearest to a fraction. *)
Definition f_ratio (p q : Z) : float64 := fdiv (f_of_Z p) (f_of_Z q).

#[export] Instance float64_eq_dec : EqDecision float64.
Proof. solve_decision. Defined.

(** ** The order of the numbers

    [SFcompare] on numbers is the lexicographic comparison of a key made of the
    class, the exponent and the mantissa. *)

Definition fkey (f : float64) : Z * (Z * Z) :=
  match f with
  | S754_zero _ => (0, (0, 0))
  | S754_infinity s => (if s then -2 else 2, (0, 0))
  | S754_nan => (3, (0, 0))
  | S754_finite s m e => if s then (-1, (- e, Zneg m)) else (1, (e, Zpos m))
  end.

Definition key_ltb (a b : Z * (Z * Z)) : bool :=
  lex_less (λ x y, x.1 <? y.1)
    (lex_less (λ x y, x.2.1 <? y.2.1) (λ x y, x.2.2 <? y.2.2)) a b.

#[export] Instance key_ltb_sw : StrictWeak key_ltb.
Proof.
  apply lex_less_sw; [apply (key_less_sw Z.ltb (λ x : Z * (Z * Z), x.1)), _|].
  apply lex_less_sw; [apply (key_less_sw Z.ltb (λ x : Z * (Z * Z), x.2.1)), _|].
  apply (key_less_sw Z.ltb (λ x : Z * (Z * Z), x.2.2)), _.
Qed.

Lemma fltb_key a b : IsNaN a = false → IsNaN b = false → fltb a b = key_ltb (fkey a) (fkey b).
Proof.
  unfold fltb, SFltb, key_ltb, lex_less.
  destruct a as [sa|[]| |[] ma ea], b as [sb|[]| |[] mb eb]; try done; intros _ _; simpl.
  - destruct (Z.compare_spec ea eb) as [->|H|H].
    + rewrite !Z.ltb_irrefl. unfold Z.ltb; simpl. rewrite <-Pos.compare_antisym.
      change (Pos.compare_cont Eq ma mb) with (Pos.compare ma mb).
      destruct (Pos.compare_spec ma mb) as [->|?|?].
      * by rewrite Pos.compare_refl.
      * by rewrite (proj2 (Pos.compare_gt_iff mb ma)).
      * by rewrite (proj2 (Pos.compare_lt_iff mb ma)).
    + rewrite (proj2 (Z.ltb_ge (- ea) (- eb))) by lia.
      by rewrite (proj2 (Z.ltb_lt (- eb) (- ea))) by lia.
    + by rewrite (proj2 (Z.ltb_lt (- ea) (- eb))) by lia.
  - destruct (Z.compare_spec ea eb) as [->|H|H].
    + rewrite !Z.ltb_irrefl. unfold Z.ltb; simpl.
      change (Pos.compare_cont Eq ma mb) with (Pos.compare ma mb). by destruct (Pos.compare ma mb).
    + by rewrite (proj2 (Z.ltb_lt ea eb)) by lia.
    + rewrite (proj2 (Z.ltb_ge ea eb)) by lia. by rewrite (proj2 (Z.ltb_lt eb ea)) by lia.
Qed.

(** The comparison of keys that are numbers is a strict weak order. *)
Lemma fltb_asym a b : fltb a b = true → fltb b a = false.
Proof.
  destruct (IsNaN a) eqn:Ea; [by destruct a|]. destruct (IsNaN b) eqn:Eb; [by destruct b, a as [| | |[]]|].
  rewrite !fltb_key by done. apply sw_asym.
Qed.

Lemma fltb_neg_trans a b c :
  IsNaN a = false → IsNaN b = false → IsNaN c = false →
  fltb b a = false → fltb c b = false → fltb c a = false.
Proof. intros Ha Hb Hc. rewrite !fltb_key by done. apply sw_neg_trans. Qed.

Lemma fleb_fltb a b : IsNaN a = false → IsNaN b = false → fleb a b = negb (fltb b a).
Proof.
  intros Ha Hb. unfold fleb, fltb, SFleb, SFltb.
  destruct a as [sa|[]| |[] ma ea], b as [sb|[]| |[] mb eb]; try done; simpl.
  - rewrite (Z.compare_antisym ea eb). destruct (ea ?= eb); simpl; [|done..].
    change (Pos.compare_cont Eq ma mb) with (Pos.compare ma mb).
    change (Pos.compare_cont Eq mb ma) with (Pos.compare mb ma).
    rewrite (Pos.compare_antisym ma mb). by destruct (Pos.compare ma mb).
  - rewrite (Z.compare_antisym ea eb). destruct (ea ?= eb); simpl; [|done..].
    change (Pos.compare_cont Eq ma mb) with (Pos.compare ma mb).
    change (Pos.compare_cont Eq mb ma) with (Pos.compare mb ma).
    rewrite (Pos.compare_antisym ma mb). by destruct (Pos.compare ma mb).
Qed.

Lemma feqb_fltb a b :
  IsNaN a = false → IsNaN b = false → feqb a b = negb (fltb a b) && negb (fltb b a).
Proof.
  intros Ha Hb. unfold feqb, fltb, SFeqb, SFltb.
  destruct a as [sa|[]| |[] ma ea], b as [sb|[]| |[] mb eb]; try done; simpl.
  - rewrite (Z.compare_antisym ea eb). destruct (ea ?= eb); simpl; [|done..].
    change (Pos.compare_cont Eq ma mb) with (Pos.compare ma mb).
    change (Pos.compare_cont Eq mb ma) with (Pos.compare mb ma).
    rewrite (Pos.compare_antisym ma mb). by destruct (Pos.compare ma mb).
  - rewrite (Z.compare_antisym ea eb). destruct (ea ?= eb); simpl; [|done..].
    change (Pos.compare_cont Eq ma mb) with (Pos.compare ma mb).
    change (Pos.compare_cont Eq mb ma) with (Pos.compare mb ma).
    rewrite (Pos.compare_antisym ma mb). by destruct (Pos.compare ma mb).
Qed.
