(* ===== verification/GoHeap.v ===== *)
(** * Go's [container/heap] on a slice

    The heap operations over a list with a comparator, as the standard library
    performs them: [down] and [up] by swaps, [Init] from the last parent, [Pop] by
    swapping the root with the last element.  [Pop] removes a least element. *)

From Stdlib Require Import Lia.
From S2P Require Import Prelude.
From stdpp Require Import options.

Local Open Scope nat_scope.

(** ** The operations *)

Section Heap.
Context {A : Type} (less : A → A → bool).

(** [h.Less(i, j)] and [h.Swap(i, j)]; out of range they do nothing here, and the
    operations never go there. *)
Definition less_at (l : list A) (i j : nat) : bool :=
  match l !! i, l !! j with Some x, Some y => less x y | _, _ => false end.

Definition swap (i j : nat) (l : list A) : list A :=
  match l !! i, l !! j with Some x, Some y => <[i := y]> (<[j := x]> l) | _, _ => l end.

(** The child of [i] to compare with: the left one unless the right one is less. *)
Definition least_child (l : list A) (i n : nat) : nat :=
  let j1 := 2 * i + 1 in
  if bool_decide (j1 + 1 < n) && less_at l (j1 + 1) j1 then j1 + 1 else j1.

Fixpoint down (fuel : nat) (l : list A) (i n : nat) : list A :=
  match fuel with
  | O => l
  | S fuel =>
      if bool_decide (n ≤ 2 * i + 1) then l else
      let j := least_child l i n in
      if less_at l j i then down fuel (swap i j l) j n else l
  end.

Fixpoint up (fuel : nat) (l : list A) (j : nat) : list A :=
  match fuel with
  | O => l
  | S fuel =>
      let i := (j - 1) / 2 in
      if bool_decide (j = 0) || negb (less_at l j i) then l else up fuel (swap i j l) i
  end.

(** [for i := n/2 - 1; i >= 0; i--] *)
Fixpoint init_from (k : nat) (l : list A) : list A :=
  match k with
  | O => l
  | S k => init_from k (down (length l) l k (length l))
  end.

Definition heap_Init (l : list A) : list A := init_from (length l / 2) l.

Definition heap_Push (l : list A) (x : A) : list A := up (S (length l)) (l ++ [x]) (length l).

(** [None]: popping an empty heap, Go's index panic. *)
Definition heap_Pop (l : list A) : option (A * list A) :=
  let n := length l - 1 in
  let l := down (length l) (swap 0 n l) 0 n in
  x ← last l; Some (x, take n l).

(** ** Order *)

Definition child (p c : nat) : Prop := c = 2 * p + 1 ∨ c = 2 * p + 2.

(** The elements at [p] and [c] are in heap order. *)
Definition ordered (l : list A) (p c : nat) : Prop := less_at l c p = false.

Definition heap (l : list A) : Prop := ∀ p c, child p c → c < length l → ordered l p c.

Context `{!StrictWeak less}.

Lemma swap_length i j l : length (swap i j l) = length l.
Proof using. unfold swap. destruct (l !! i), (l !! j); try done. by rewrite !length_insert. Qed.

Lemma swap_perm i j l : swap i j l ≡ₚ l.
Proof using.
  unfold swap. destruct (l !! i) as [x|] eqn:Hi; [|done]. destruct (l !! j) as [y|] eqn:Hj; [|done].
  by apply Permutation_insert_swap.
Qed.

Lemma swap_lookup i j l x y k :
  l !! i = Some x → l !! j = Some y → i ≠ j →
  swap i j l !! k = if decide (k = i) then Some y else if decide (k = j) then Some x else l !! k.
Proof using.
  intros Hi Hj Hne. unfold swap. rewrite Hi, Hj.
  pose proof (lookup_lt_Some _ _ _ Hi). pose proof (lookup_lt_Some _ _ _ Hj).
  destruct (decide (k = i)) as [->|?].
  { rewrite list_lookup_insert_eq; [done|by rewrite length_insert]. }
  rewrite list_lookup_insert_ne by done.
  destruct (decide (k = j)) as [->|?]; [by rewrite list_lookup_insert_eq|by rewrite list_lookup_insert_ne].
Qed.

Lemma less_at_Some l i j x y : l !! i = Some x → l !! j = Some y → less_at l i j = less x y.
Proof using. intros Hi Hj. unfold less_at. by rewrite Hi, Hj. Qed.

Lemma ordered_Some l p c : (∀ x y, l !! p = Some x → l !! c = Some y → less y x = false) → ordered l p c.
Proof using.
  intros H. unfold ordered, less_at. destruct (l !! c) as [y|] eqn:Hc; [|done].
  destruct (l !! p) as [x|] eqn:Hp; [|done]. by apply H.
Qed.

(** Heap order among the first [n], from [i0] on, but below [i]; and across [i]. *)
Definition order_but (l : list A) (n i0 i : nat) : Prop :=
  (∀ p c, child p c → c < n → i0 ≤ p → p ≠ i → ordered l p c) ∧
  (∀ g c, child g i → i0 ≤ g → child i c → c < n → ordered l g c).

Lemma least_child_spec l i n :
  n ≤ length l → 2 * i + 1 < n →
  child i (least_child l i n) ∧ least_child l i n < n ∧
  ∀ c, child i c → c < n → ordered l (least_child l i n) c.
Proof using Type*.
  intros Hn Hi. unfold least_child. cbv zeta. case_bool_decide as Hj; cbn [andb].
  - destruct (less_at l (2 * i + 1 + 1) (2 * i + 1)) eqn:Hl.
    + split; [right; lia|]. split; [lia|]. intros c Hc Hcn.
      apply ordered_Some. intros x y Hx Hy. destruct Hc as [->| ->].
      * apply sw_asym. by rewrite (less_at_Some _ _ _ _ _ Hx Hy) in Hl.
      * replace (2 * i + 2) with (2 * i + 1 + 1) in Hy by lia. rewrite Hx in Hy. injection Hy as ->. by apply sw_irrefl.
    + split; [by left|]. split; [lia|]. intros c Hc Hcn. destruct Hc as [->| ->].
      * apply ordered_Some. intros x y Hx Hy. rewrite Hx in Hy. injection Hy as ->. by apply sw_irrefl.
      * unfold ordered. by replace (2 * i + 2) with (2 * i + 1 + 1) by lia.
  - split; [by left|]. split; [lia|]. intros c Hc Hcn. assert (c = 2 * i + 1) as -> by (destruct Hc; lia).
    apply ordered_Some. intros x y Hx Hy. rewrite Hx in Hy. injection Hy as ->. by apply sw_irrefl.
Qed.

(** Swapping a parent with its least child moves the disorder down. *)
Lemma swap_down l n i0 i :
  n ≤ length l → 2 * i + 1 < n → i0 ≤ i → order_but l n i0 i →
  less_at l (least_child l i n) i = true → order_but (swap i (least_child l i n) l) n i0 (least_child l i n).
Proof using Type*.
  intros Hn Hi Hi0 [H1 H2] Hless. destruct (least_child_spec l i n Hn Hi) as (Hj & Hjn & Hleast).
  set (j := least_child l i n) in *.
  destruct (lookup_lt_is_Some_2 l i) as [x Hx]; [lia|]. destruct (lookup_lt_is_Some_2 l j) as [y Hy]; [lia|].
  rewrite (less_at_Some _ _ _ _ _ Hy Hx) in Hless. assert (Hne : i ≠ j) by (destruct Hj; lia).
  pose proof (swap_lookup i j l x y) as Hsw.
  split.
  - intros p c Hc Hcn Hp Hpj. apply ordered_Some. intros u v Hu Hv.
    rewrite Hsw in Hu, Hv by done. rewrite (decide_False (P := p = j)) in Hu by done.
    destruct (decide (p = i)) as [->|Hpi].
    + injection Hu as <-. rewrite (decide_False (P := c = i)) in Hv by (destruct Hc; lia).
      destruct (decide (c = j)) as [->|Hcj]; [injection Hv as <-; by apply sw_asym|].
      specialize (Hleast c Hc Hcn). unfold ordered in Hleast. by rewrite (less_at_Some _ _ _ _ _ Hv Hy) in Hleast.
    + rewrite (decide_False (P := c = j)) in Hv by (intros ->; destruct Hc, Hj; lia).
      destruct (decide (c = i)) as [->|Hci].
      * injection Hv as <-. specialize (H2 p j Hc Hp Hj Hjn). unfold ordered in H2.
        by rewrite (less_at_Some _ _ _ _ _ Hy Hu) in H2.
      * specialize (H1 p c Hc Hcn Hp Hpi). unfold ordered in H1. by rewrite (less_at_Some _ _ _ _ _ Hv Hu) in H1.
  - intros g c Hg Hg0 Hc Hcn. assert (g = i) as -> by (destruct Hg, Hj; lia).
    apply ordered_Some. intros u v Hu Hv. rewrite Hsw in Hu, Hv by done.
    rewrite decide_True in Hu by done. injection Hu as <-.
    rewrite (decide_False (P := c = i)), (decide_False (P := c = j)) in Hv by (destruct Hc, Hj; lia).
    specialize (H1 j c Hc Hcn ltac:(destruct Hj; lia) ltac:(lia)). unfold ordered in H1.
    by rewrite (less_at_Some _ _ _ _ _ Hv Hy) in H1.
Qed.

Lemma down_length fuel l i n : length (down fuel l i n) = length l.
Proof using.
  revert l i. induction fuel as [|fuel IH]; intros l i; cbn [down]; [done|]. case_bool_decide; [done|].
  destruct (less_at _ _ _); [|done]. by rewrite IH, swap_length.
Qed.

Lemma down_perm fuel l i n : down fuel l i n ≡ₚ l.
Proof using.
  revert l i. induction fuel as [|fuel IH]; intros l i; cbn [down]; [done|]. case_bool_decide; [done|].
  destruct (less_at _ _ _); [|done]. by rewrite IH, swap_perm.
Qed.

(** [down] leaves what is past [n] alone. *)
Lemma down_past fuel l i n k : n ≤ k → n ≤ length l → down fuel l i n !! k = l !! k.
Proof using Type*.
  intros Hk Hn. revert l i Hn. induction fuel as [|fuel IH]; intros l i Hn; cbn [down]; [done|]. case_bool_decide; [done|].
  destruct (least_child_spec l i n) as (Hj & Hjn & _); [done|lia|].
  destruct (less_at _ _ _) eqn:Hl; [|done]. rewrite IH by (by rewrite swap_length).
  destruct (lookup_lt_is_Some_2 l i) as [x Hx]; [destruct Hj; lia|].
  destruct (lookup_lt_is_Some_2 l (least_child l i n)) as [y Hy]; [lia|].
  rewrite (swap_lookup _ _ _ _ _ _ Hx Hy) by (destruct Hj; lia).
  rewrite !decide_False by (destruct Hj; lia). done.
Qed.

Lemma down_order fuel l n i0 i :
  n ≤ length l → n ≤ fuel + i → i0 ≤ i → order_but l n i0 i →
  ∀ p c, child p c → c < n → i0 ≤ p → ordered (down fuel l i n) p c.
Proof using Type*.
  revert l i. induction fuel as [|fuel IH]; intros l i Hn Hf Hi0 Hb p c Hc Hcn Hp; cbn [down].
  { apply (proj1 Hb); try done. destruct Hc; lia. }
  case_bool_decide as Hi.
  { apply (proj1 Hb); try done. destruct Hc; lia. }
  destruct (least_child_spec l i n) as (Hj & Hjn & Hleast); [done|lia|].
  destruct (less_at l _ i) eqn:Hl.
  - apply IH; try done; [by rewrite swap_length|destruct Hj; lia|destruct Hj; lia|]. apply swap_down; [done|lia|done|done|done].
  - destruct (decide (p = i)) as [->|Hpi]; [|by apply (proj1 Hb)].
    apply ordered_Some. intros x y Hx Hy. destruct (lookup_lt_is_Some_2 l (least_child l i n)) as [z Hz]; [lia|].
    rewrite (less_at_Some _ _ _ _ _ Hz Hx) in Hl. specialize (Hleast c Hc Hcn). unfold ordered in Hleast.
    rewrite (less_at_Some _ _ _ _ _ Hy Hz) in Hleast. by eapply sw_neg_trans with z.
Qed.

(** ** Building *)

Lemma init_from_heap k l :
  (∀ p c, child p c → c < length l → k ≤ p → ordered l p c) → heap (init_from k l).
Proof using Type*.
  revert l. induction k as [|k IH]; intros l H; simpl; [intros p c Hc Hcn; apply H; [done|done|lia]|].
  apply IH. rewrite down_length. intros p c Hc Hcn Hp. apply (down_order _ _ _ k); [done|lia|done| |done|done|done].
  split; [intros; apply H; [done|done|lia]|]. intros g c' Hg Hg0. destruct Hg; lia.
Qed.

Lemma heap_Init_heap l : heap (heap_Init l).
Proof using Type*.
  apply init_from_heap. intros p c Hc Hcn Hp. pose proof (Nat.div_mod_eq (length l) 2).
  pose proof (Nat.mod_upper_bound (length l) 2). destruct Hc; lia.
Qed.

Lemma init_from_perm k l : init_from k l ≡ₚ l.
Proof using. revert l. induction k as [|k IH]; intros l; simpl; [done|]. by rewrite IH, down_perm. Qed.

Lemma heap_Init_perm l : heap_Init l ≡ₚ l.
Proof using. apply init_from_perm. Qed.

(** ** Pushing *)

(** Heap order but above [j]; and across [j]. *)
Definition order_but_above (l : list A) (j : nat) : Prop :=
  (∀ p c, child p c → c < length l → c ≠ j → ordered l p c) ∧
  (∀ g c, child g j → child j c → c < length l → ordered l g c).

Lemma parent_child j : j ≠ 0 → child ((j - 1) / 2) j ∧ (j - 1) / 2 < j.
Proof using.
  intros Hj. pose proof (Nat.div_mod_eq (j - 1) 2). pose proof (Nat.mod_upper_bound (j - 1) 2).
  unfold child. lia.
Qed.

Lemma swap_up l i j :
  j < length l → child i j → order_but_above l j → less_at l j i = true → order_but_above (swap i j l) i.
Proof using Type*.
  intros Hjn Hij [H1 H2] Hless. assert (Hlt : i < j) by (destruct Hij; lia).
  destruct (lookup_lt_is_Some_2 l i) as [x Hx]; [lia|]. destruct (lookup_lt_is_Some_2 l j) as [y Hy]; [lia|].
  rewrite (less_at_Some _ _ _ _ _ Hy Hx) in Hless. pose proof (sw_asym _ _ Hless) as Hxy.
  pose proof (swap_lookup i j l x y) as Hsw.
  assert (Hx' : ∀ c z, child i c → c ≠ j → c < length l → l !! c = Some z → less z x = false).
  { intros c z Hc Hcj Hcn Hz. specialize (H1 i c Hc Hcn Hcj). unfold ordered in H1. by rewrite (less_at_Some _ _ _ _ _ Hz Hx) in H1. }
  split; rewrite swap_length.
  - intros p c Hc Hcn Hci. apply ordered_Some. intros u v Hu Hv. rewrite Hsw in Hu, Hv by (done || lia).
    rewrite (decide_False (P := c = i)) in Hv by done.
    destruct (decide (c = j)) as [->|Hcj].
    + injection Hv as <-. rewrite decide_True in Hu by (destruct Hc, Hij; lia). by injection Hu as <-.
    + destruct (decide (p = i)) as [->|Hpi].
      * injection Hu as <-. eapply sw_neg_trans; [exact Hxy|]. by apply (Hx' c).
      * destruct (decide (p = j)) as [->|Hpj].
        -- injection Hu as <-. specialize (H2 i c Hij Hc Hcn). unfold ordered in H2. by rewrite (less_at_Some _ _ _ _ _ Hv Hx) in H2.
        -- specialize (H1 p c Hc Hcn Hcj). unfold ordered in H1. by rewrite (less_at_Some _ _ _ _ _ Hv Hu) in H1.
  - intros g c Hg Hc Hcn. apply ordered_Some. intros u v Hu Hv. rewrite Hsw in Hu, Hv by (done || lia).
    rewrite (decide_False (P := g = i)), (decide_False (P := g = j)) in Hu by (destruct Hg; lia).
    rewrite (decide_False (P := c = i)) in Hv by (destruct Hc; lia).
    assert (Hgi : less x u = false).
    { specialize (H1 g i Hg ltac:(lia) ltac:(lia)). unfold ordered in H1. by rewrite (less_at_Some _ _ _ _ _ Hx Hu) in H1. }
    destruct (decide (c = j)) as [->|Hcj]; [by injection Hv as <-|]. eapply sw_neg_trans; [exact Hgi|]. by apply (Hx' c).
Qed.

Lemma up_heap fuel l j : j < fuel → j < length l → order_but_above l j → heap (up fuel l j).
Proof using Type*.
  revert l j. induction fuel as [|fuel IH]; intros l j Hf Hjn Hb; [lia|]. cbn [up].
  destruct (decide (j = 0)) as [->|Hj].
  { intros p c Hc Hcn. apply (proj1 Hb); [done|done|]. destruct Hc; lia. }
  rewrite bool_decide_false by done. destruct (parent_child j Hj) as [Hc Hlt]. cbn [orb].
  destruct (less_at l j _) eqn:Hl; cbn [negb].
  - apply IH; [lia|rewrite swap_length; lia|]. by apply swap_up.
  - intros p c Hpc Hcn. destruct (decide (c = j)) as [->|Hcj]; [|by apply (proj1 Hb)].
    assert (p = (j - 1) / 2) as -> by (destruct Hpc, Hc; lia). done.
Qed.

Lemma up_perm fuel l j : up fuel l j ≡ₚ l.
Proof using.
  revert l j. induction fuel as [|fuel IH]; intros l j; cbn [up]; [done|]. destruct (_ || _); [done|]. by rewrite IH, swap_perm.
Qed.

Lemma heap_Push_perm l x : heap_Push l x ≡ₚ x :: l.
Proof using. unfold heap_Push. rewrite up_perm. by rewrite Permutation_app_comm. Qed.

Lemma heap_Push_heap l x : heap l → heap (heap_Push l x).
Proof using Type*.
  intros Hl. apply up_heap; [lia|rewrite length_app; simpl; lia|]. split; rewrite length_app; simpl.
  - intros p c Hc Hcn Hne. apply ordered_Some. intros u v Hu Hv.
    rewrite lookup_app_l in Hu, Hv by (destruct Hc; lia). specialize (Hl p c Hc ltac:(lia)).
    unfold ordered in Hl. by rewrite (less_at_Some _ _ _ _ _ Hv Hu) in Hl.
  - intros g c Hg Hc Hcn. destruct Hc; lia.
Qed.

(** ** Popping *)

(** The root is a least element. *)
Lemma heap_root l x k y : heap l → l !! 0 = Some x → l !! k = Some y → less y x = false.
Proof using Type*.
  intros Hl Hx. revert y. induction k as [k IH] using lt_wf_ind. intros y Hy.
  destruct (decide (k = 0)) as [->|Hk].
  { rewrite Hx in Hy. injection Hy as ->. by apply sw_irrefl. }
  destruct (parent_child k Hk) as [Hc Hlt]. pose proof (lookup_lt_Some _ _ _ Hy) as Hkn.
  destruct (lookup_lt_is_Some_2 l ((k - 1) / 2)) as [z Hz]; [lia|].
  specialize (Hl _ _ Hc Hkn). unfold ordered in Hl. rewrite (less_at_Some _ _ _ _ _ Hy Hz) in Hl.
  eapply sw_neg_trans; [|exact Hl]. by apply (IH _ Hlt).
Qed.

(** Popping a heap removes a least element and leaves a heap of the others. *)
Theorem heap_Pop_spec l :
  heap l → l ≠ [] →
  ∃ x l', heap_Pop l = Some (x, l') ∧ x :: l' ≡ₚ l ∧ heap l' ∧ Forall (λ y, less y x = false) l'.
Proof using Type*.
  intros Hl Hne. destruct l as [|x0 rest] eqn:El; [done|]. rewrite <-El in *. clear Hne.
  assert (Hlen : length l = S (length rest)) by (by rewrite El). set (n := length l - 1).
  assert (H0 : l !! 0 = Some x0) by (by rewrite El).
  destruct (lookup_lt_is_Some_2 l n) as [z Hz]; [unfold n; lia|].
  set (l1 := swap 0 n l). set (l2 := down (length l) l1 0 n).
  assert (Hl2 : length l2 = length l) by (unfold l2, l1; by rewrite down_length, swap_length).
  assert (Hlast : l2 !! n = Some x0).
  { unfold l2. rewrite down_past; [|lia|unfold l1; rewrite swap_length; unfold n; lia].
    destruct (decide (n = 0)) as [Hn|Hn].
    - unfold l1, swap. rewrite Hn in *. rewrite H0. rewrite list_lookup_insert_eq; [done|]. rewrite length_insert; lia.
    - unfold l1. rewrite (swap_lookup _ _ _ _ _ _ H0 Hz) by lia. by rewrite decide_False, decide_True by lia. }
  assert (Hsplit : l2 = take n l2 ++ [x0]).
  { rewrite <-(take_drop n l2) at 1. f_equal. rewrite (drop_S _ x0 n Hlast). f_equal. apply drop_ge. unfold n in *. lia. }
  assert (Hperm : x0 :: take n l2 ≡ₚ l).
  { transitivity l2; [|unfold l2, l1; by rewrite down_perm, swap_perm].
    rewrite Hsplit at 2. by rewrite Permutation_app_comm. }
  exists x0, (take n l2). split_and!; [|done| |].
  - unfold heap_Pop. fold n l1 l2. rewrite Hsplit at 1. by rewrite last_snoc.
  - intros p c Hc Hcn. rewrite length_take in Hcn. apply ordered_Some. intros u v Hu Hv.
    rewrite lookup_take, decide_True in Hu by (destruct Hc; lia). rewrite lookup_take, decide_True in Hv by lia.
    assert (Hord : ordered l2 p c).
    { apply (down_order _ _ _ 0); [unfold l1; rewrite swap_length; unfold n; lia|unfold n; lia|lia| |done|lia|lia].
      split; [|intros g c' Hg; destruct Hg; lia]. intros p' c' Hc' Hcn' _ Hp'. apply ordered_Some. intros u' v' Hu' Hv'.
      unfold l1 in Hu', Hv'. rewrite (swap_lookup _ _ _ _ _ _ H0 Hz), !decide_False in Hu' by (destruct Hc'; lia).
      rewrite (swap_lookup _ _ _ _ _ _ H0 Hz), !decide_False in Hv' by (destruct Hc'; lia).
      specialize (Hl p' c' Hc' ltac:(unfold n in *; lia)). unfold ordered in Hl. by rewrite (less_at_Some _ _ _ _ _ Hv' Hu') in Hl. }
    unfold ordered in Hord. by rewrite (less_at_Some _ _ _ _ _ Hv Hu) in Hord.
  - apply Forall_forall. intros y Hy. assert (y ∈ l) as [k Hk]%list_elem_of_lookup by (rewrite <-Hperm; by right).
    by apply (heap_root l x0 k y).
Qed.

Lemma heap_Pop_nil : heap_Pop [] = None.
Proof using. done. Qed.

End Heap.
