(* ===== verification/GoBase64.v ===== *)
(** * Go's [encoding/base64]

    The standard and the URL alphabet, with and without padding, over strings of bytes.  The
    decoder skips line ends, wants the padding it is configured for, and does not look at
    the bits that are left over at the end. *)

From Stdlib Require Import ZArith Lia Ascii String.
From S2P Require Import Prelude GoStrings.
From stdpp Require Import options.

Local Open Scope Z_scope.

Record Encoding := mkEncoding { char62 : ascii; char63 : ascii; padded : bool }.

Definition StdEncoding : Encoding := mkEncoding "+" "/" true.
Definition RawStdEncoding : Encoding := mkEncoding "+" "/" false.
Definition RawURLEncoding : Encoding := mkEncoding "-" "_" false.

Definition byte_of (n : Z) : ascii := ascii_of_N (Z.to_N n).

(** The character of six bits. *)
Definition sextet_char (e : Encoding) (v : Z) : ascii :=
  if v <? 26 then byte_of (65 + v)
  else if v <? 52 then byte_of (97 + (v - 26))
  else if v <? 62 then byte_of (48 + (v - 52))
  else if v =? 62 then char62 e else char63 e.

Definition sextet_value (e : Encoding) (c : ascii) : option Z :=
  if is_upper c then Some (code c - 65)
  else if is_lower c then Some (code c - 97 + 26)
  else if is_digit c then Some (code c - 48 + 52)
  else if Ascii.eqb c (char62 e) then Some 62
  else if Ascii.eqb c (char63 e) then Some 63
  else None.

Definition padding (e : Encoding) (n : nat) : list ascii := if padded e then replicate n "="%char else [].

Fixpoint encode_bytes (e : Encoding) (l : list ascii) : list ascii :=
  match l with
  | [] => []
  | [a] => [sextet_char e (code a / 4); sextet_char e (code a mod 4 * 16)] ++ padding e 2
  | [a; b] => [sextet_char e (code a / 4); sextet_char e (code a mod 4 * 16 + code b / 16); sextet_char e (code b mod 16 * 4)] ++ padding e 1
  | a :: b :: c :: rest =>
      [sextet_char e (code a / 4); sextet_char e (code a mod 4 * 16 + code b / 16);
       sextet_char e (code b mod 16 * 4 + code c / 64); sextet_char e (code c mod 64)] ++ encode_bytes e rest
  end.

Definition EncodeToString (e : Encoding) (s : string) : string := unchars (encode_bytes e (chars s)).

(** Two and three characters: one and two bytes. *)
Definition decode_two (e : Encoding) (a b : ascii) : option (list ascii) :=
  va ← sextet_value e a; vb ← sextet_value e b; Some [byte_of (va * 4 + vb / 16)].
Definition decode_three (e : Encoding) (a b c : ascii) : option (list ascii) :=
  va ← sextet_value e a; vb ← sextet_value e b; vc ← sextet_value e c;
  Some [byte_of (va * 4 + vb / 16); byte_of (vb mod 16 * 16 + vc / 4)].

Fixpoint decode_chars (e : Encoding) (l : list ascii) : option (list ascii) :=
  match l with
  | [] => Some []
  | [a; b] => if padded e then None else decode_two e a b
  | [a; b; c] => if padded e then None else decode_three e a b c
  | a :: b :: c :: d :: rest =>
      if padded e && Ascii.eqb d "=" then
        if bool_decide (rest = []) then if Ascii.eqb c "=" then decode_two e a b else decode_three e a b c else None
      else
        va ← sextet_value e a; vb ← sextet_value e b; vc ← sextet_value e c; vd ← sextet_value e d;
        rest ← decode_chars e rest;
        Some ([byte_of (va * 4 + vb / 16); byte_of (vb mod 16 * 16 + vc / 4); byte_of (vc mod 4 * 64 + vd)] ++ rest)
  | [_] => None
  end.

Definition line_end (c : ascii) : bool := (code c =? 10) || (code c =? 13).

Definition DecodeString (e : Encoding) (s : string) : option string :=
  unchars <$> decode_chars e (List.filter (λ c, negb (line_end c)) (chars s)).

(** ** Decoding what was encoded *)

(** An alphabet whose last two characters are not among the others, nor line ends or padding. *)
Definition alphabet_ok (e : Encoding) : bool :=
  forallb (λ v, bool_decide (sextet_value e (sextet_char e (Z.of_nat v)) = Some (Z.of_nat v)) &&
                negb (line_end (sextet_char e (Z.of_nat v))) && negb (Ascii.eqb (sextet_char e (Z.of_nat v)) "=")) (seq 0 64).

Lemma alphabet_spec e v : alphabet_ok e = true → 0 ≤ v < 64 →
  sextet_value e (sextet_char e v) = Some v ∧ line_end (sextet_char e v) = false ∧ Ascii.eqb (sextet_char e v) "=" = false.
Proof.
  intros Hok Hv. unfold alphabet_ok in Hok. rewrite forallb_forall in Hok. specialize (Hok (Z.to_nat v)).
  rewrite Z2Nat.id in Hok by lia. destruct (andb_prop _ _ (Hok ltac:(apply in_seq; lia))) as [H1 H3].
  apply andb_prop in H1 as [H1 H2]. apply bool_decide_eq_true in H1. by apply negb_true_iff in H2, H3.
Qed.

Lemma code_range c : 0 ≤ code c < 256.
Proof. unfold code. pose proof (N_ascii_bounded c). lia. Qed.

Lemma byte_of_code c : byte_of (code c) = c.
Proof. unfold byte_of, code. by rewrite N2Z.id, ascii_N_embedding. Qed.

Lemma byte_of_eq n c : n = code c → byte_of n = c.
Proof. intros ->. apply byte_of_code. Qed.

(** Induction in steps of three. *)
Lemma triples_ind {A} (P : list A → Prop) :
  P [] → (∀ a, P [a]) → (∀ a b, P [a; b]) → (∀ a b c l, P l → P (a :: b :: c :: l)) → ∀ l, P l.
Proof.
  intros H0 H1 H2 H3 l. induction l as [l IH] using (induction_ltof1 _ (@length A)). unfold ltof in IH.
  destruct l as [|a [|b [|c l]]]; [done..|]. apply H3, IH. cbn. lia.
Qed.

Ltac dlia := Z.to_euclidean_division_equations; lia.

Ltac sextets e Hok :=
  repeat match goal with
  | |- context [sextet_value e (sextet_char e ?v)] => rewrite (proj1 (alphabet_spec e v Hok ltac:(dlia)))
  | |- context [Ascii.eqb (sextet_char e ?v) "="] => rewrite (proj2 (proj2 (alphabet_spec e v Hok ltac:(dlia))))
  end.

Lemma decode_encode_bytes e l : alphabet_ok e = true → decode_chars e (encode_bytes e l) = Some l.
Proof.
  intros Hok. induction l as [|a|a b|a b c l IH] using triples_ind; [done|..].
  - pose proof (code_range a). unfold encode_bytes, padding. destruct (padded e) eqn:Ep; cbn; rewrite Ep; cbn;
      unfold decode_two; sextets e Hok; cbn; do 2 f_equal; apply byte_of_eq; dlia.
  - pose proof (code_range a). pose proof (code_range b). unfold encode_bytes, padding.
    destruct (padded e) eqn:Ep; cbn; rewrite Ep; cbn; unfold decode_three; sextets e Hok; cbn; repeat f_equal; apply byte_of_eq; dlia.
  - pose proof (code_range a). pose proof (code_range b). pose proof (code_range c). cbn -[Z.div Z.modulo Z.mul Z.add]. 
    sextets e Hok. rewrite andb_false_r. cbn. rewrite IH. cbn. repeat f_equal; apply byte_of_eq; dlia.
Qed.

Lemma encode_no_line_ends e l : alphabet_ok e = true → forallb (λ c, negb (line_end c)) (encode_bytes e l) = true.
Proof.
  intros Hok. assert (Hc : ∀ v, 0 ≤ v < 64 → negb (line_end (sextet_char e v)) = true).
  { intros v Hv. by rewrite (proj1 (proj2 (alphabet_spec e v Hok Hv))). }
  induction l as [|a|a b|a b c l IH] using triples_ind; [done|..].
  - pose proof (code_range a). unfold encode_bytes. rewrite forallb_app. cbn. rewrite !Hc by dlia. unfold padding. by destruct (padded e).
  - pose proof (code_range a). pose proof (code_range b). unfold encode_bytes. rewrite forallb_app. cbn. rewrite !Hc by dlia.
    unfold padding. by destruct (padded e).
  - pose proof (code_range a). pose proof (code_range b). pose proof (code_range c). cbn -[Z.div Z.modulo Z.mul Z.add].
    rewrite !Hc by dlia. exact IH.
Qed.

Lemma filter_forallb {A} (f : A → bool) l : forallb f l = true → List.filter f l = l.
Proof. induction l as [|x l IH]; cbn; [done|]. intros [-> H]%andb_true_iff. by rewrite IH. Qed.

Lemma DecodeString_EncodeToString e s : alphabet_ok e = true → DecodeString e (EncodeToString e s) = Some s.
Proof.
  intros Hok. unfold DecodeString, EncodeToString. rewrite chars_unchars, filter_forallb by by apply encode_no_line_ends.
  rewrite decode_encode_bytes by done. cbn. by rewrite unchars_chars.
Qed.

Lemma standard_alphabets : alphabet_ok StdEncoding = true ∧ alphabet_ok RawStdEncoding = true ∧ alphabet_ok RawURLEncoding = true.
Proof. vm_compute. done. Qed.

Example encode_hello : EncodeToString StdEncoding "hello!!" = "aGVsbG8hIQ==" ∧ EncodeToString RawURLEncoding "~~?" = "fn4_".
Proof. vm_compute. done. Qed.
