(* ===== verification/Journal.v ===== *)
(** * The append-only journal ([storage/journal.go])

    Records are framed as magic, body length, CRC and body; [Append] extends the
    file, [Replay] decodes it from the start, [Replace] swaps it atomically.
    The file is the list of its bytes.  What the operating system does is the
    [fault] argument: how many bytes of a write reached the file before it
    failed, or at which side of the rename a replacement failed. *)

From Stdlib Require Import ZArith Lia String Init.Byte.
From S2P Require Import Prelude GoBytes.
From stdpp Require Import options.

Record JournalRecord := mkJournalRecord {
  Kind : string;
  Key : string;
  Payload : list byte;
}.

Inductive JournalError :=
| ErrKindRequired
| ErrKeyRequired
| ErrKindTooLong
| ErrKeyTooLong
| ErrRecordTooLarge
| ErrJournalTooLarge
| ErrBadMagic
| ErrInvalidBodyLength
| ErrChecksumMismatch
| ErrCorruptField
| ErrTruncatedTail
| ErrRead (e : ReadError)
| ErrIO.

Definition journalMagic : Z := 0x5447534a.
Definition maxJournalBodyBytes : Z := 67108864.

Abbreviation bytes_of := String.list_byte_of_string.
Abbreviation string_of := String.string_of_list_byte.

Definition blen (l : list byte) : Z := Z.of_nat (length l).
Definition slen (s : string) : Z := blen (bytes_of s).

(** [journalRecordBodyLength] *)
Definition journalRecordBodyLength (r : JournalRecord) : Result JournalError Z :=
  if 65535 <? slen (Kind r) then Err ErrKindTooLong
  else if 65535 <? slen (Key r) then Err ErrKeyTooLong
  else
    let bodyLen := 2 + slen (Kind r) + 2 + slen (Key r) + blen (Payload r) in
    if maxJournalBodyBytes <? bodyLen then Err ErrRecordTooLarge else Ok bodyLen.

Definition journal_body (r : JournalRecord) : list byte :=
  PutUint16 (slen (Kind r)) ++ bytes_of (Kind r) ++
  PutUint16 (slen (Key r)) ++ bytes_of (Key r) ++ Payload r.

(** [encodeJournalRecord] *)
Definition encodeJournalRecord (r : JournalRecord) : Result JournalError (list byte) :=
  bodyLen ← journalRecordBodyLength r;
  let body := journal_body r in
  Ok (PutUint32 journalMagic ++ PutUint32 bodyLen ++ PutUint32 (ChecksumIEEE body) ++ body).

(** [decodeJournalRecord]: the record and the bytes left unread. *)
Definition lift_read {A} (wrap : ReadError → JournalError) (r : Result ReadError A) :
    Result JournalError A :=
  match r with Ok a => Ok a | Err e => Err (wrap e) end.

Definition decode_body (body : list byte) : Result JournalError JournalRecord :=
  '(kl, b1) ← lift_read (λ _, ErrCorruptField) (ReadFull 2 body);
  '(kind, b2) ← lift_read (λ _, ErrCorruptField) (ReadFull (Z.to_nat (be_value kl)) b1);
  '(yl, b3) ← lift_read (λ _, ErrCorruptField) (ReadFull 2 b2);
  '(key, payload) ← lift_read (λ _, ErrCorruptField) (ReadFull (Z.to_nat (be_value yl)) b3);
  Ok (mkJournalRecord (string_of kind) (string_of key) payload).

Definition decodeJournalRecord (reader : list byte) :
    Result JournalError (JournalRecord * list byte) :=
  '(header, r1) ← lift_read ErrRead (ReadFull 12 reader);
  if negb (be_value (take 4 header) =? journalMagic) then Err ErrBadMagic else
  let bodyLen := be_value (take 4 (drop 4 header)) in
  if maxJournalBodyBytes <? bodyLen then Err ErrRecordTooLarge else
  if bodyLen <? 4 then Err ErrInvalidBodyLength else
  '(body, r2) ← lift_read ErrRead (ReadFull (Z.to_nat bodyLen) r1);
  if negb (be_value (drop 8 header) =? ChecksumIEEE body) then Err ErrChecksumMismatch else
  r ← decode_body body;
  Ok (r, r2).

(** [Journal.Append] *)
Definition Append (fault : option nat) (file : list byte) (r : JournalRecord) :
    list byte * Result JournalError unit :=
  if decide (Kind r = "") then (file, Err ErrKindRequired) else
  if decide (Key r = "") then (file, Err ErrKeyRequired) else
  match encodeJournalRecord r with
  | Err e => (file, Err e)
  | Ok wire =>
      match fault with
      | Some n => (file ++ take n wire, Err ErrIO)
      | None => (file ++ wire, Ok tt)
      end
  end.

(** [Journal.Replay]: the visitor is a state transformer that may fail. *)
Inductive ReplayEnd (E : Type) :=
| ReplayOk
| ReplayVisitorError (e : E)
| ReplayError (e : JournalError)
| ReplayOutOfFuel.
Arguments ReplayOk {E}.
Arguments ReplayVisitorError {E} e.
Arguments ReplayError {E} e.
Arguments ReplayOutOfFuel {E}.

Section Replay.
Context {S E : Type} (visitor : S → JournalRecord → S * option E).

Fixpoint replay_loop (fuel : nat) (st : S) (reader : list byte) : S * ReplayEnd E :=
  match fuel with
  | O => (st, ReplayOutOfFuel)
  | Datatypes.S fuel' =>
      match decodeJournalRecord reader with
      | Ok (r, rest) =>
          match visitor st r with
          | (st', Some e) => (st', ReplayVisitorError e)
          | (st', None) => replay_loop fuel' st' rest
          end
      | Err (ErrRead ErrEOF) => (st, ReplayOk)
      | Err (ErrRead ErrUnexpectedEOF) => (st, ReplayError ErrTruncatedTail)
      | Err e => (st, ReplayError e)
      end
  end.

(** Every decoded record takes at least one byte, so the file's length plus
    one iterations are enough. *)
Definition Replay (st : S) (file : list byte) : S * ReplayEnd E :=
  replay_loop (Datatypes.S (length file)) st file.
End Replay.

(** The visitor that records what it is given and never fails. *)
Definition collect (seen : list JournalRecord) (r : JournalRecord) :
    list JournalRecord * option Empty_set := (seen ++ [r], None).

(** [ValidateJournalReplacement] *)
Fixpoint validate_total (total : Z) (records : list JournalRecord) : Result JournalError unit :=
  match records with
  | [] => Ok tt
  | r :: rest =>
      bodyLen ← journalRecordBodyLength r;
      let total' := wrap64 (total + (12 + bodyLen)) in
      if maxJournalBodyBytes <? total' then Err ErrJournalTooLarge
      else validate_total total' rest
  end.

Definition ValidateJournalReplacement (records : list JournalRecord) : Result JournalError unit :=
  validate_total 0 records.

(** [writeJournalRecordsAtomically] *)
Inductive ReplaceFault := FaultBeforeRename | FaultAfterRename.

Fixpoint encode_all (records : list JournalRecord) : Result JournalError (list byte) :=
  match records with
  | [] => Ok []
  | r :: rest =>
      wire ← encodeJournalRecord r;
      wires ← encode_all rest;
      Ok (wire ++ wires)
  end.

Definition writeJournalRecordsAtomically (fault : option ReplaceFault) (file : list byte)
    (records : list JournalRecord) : list byte * Result JournalError unit :=
  match ValidateJournalReplacement records with
  | Err e => (file, Err e)
  | Ok _ =>
      match encode_all records with
      | Err e => (file, Err e)
      | Ok wires =>
          match fault with
          | Some FaultBeforeRename => (file, Err ErrIO)
          | Some FaultAfterRename => (wires, Err ErrIO)
          | None => (wires, Ok tt)
          end
      end
  end.

Definition Replace := writeJournalRecordsAtomically.

(** ** Encoding and decoding are inverse *)

Lemma slen_nonneg s : 0 ≤ slen s.
Proof. unfold slen, blen. lia. Qed.

Lemma body_length_Ok r n :
  journalRecordBodyLength r = Ok n →
  slen (Kind r) ≤ 65535 ∧ slen (Key r) ≤ 65535 ∧
  n = blen (journal_body r) ∧ 4 ≤ n ≤ maxJournalBodyBytes.
Proof.
  unfold journalRecordBodyLength.
  destruct (65535 <? slen (Kind r)) eqn:E1; [done|].
  destruct (65535 <? slen (Key r)) eqn:E2; [done|].
  destruct (maxJournalBodyBytes <? _) eqn:E3; [done|]. intros [= <-]. bool_props.
  unfold blen, journal_body. rewrite !length_app, !length_PutUint16.
  unfold slen, blen in *. lia.
Qed.

Lemma encode_Ok r w :
  encodeJournalRecord r = Ok w ↔
  ∃ n, journalRecordBodyLength r = Ok n ∧
    w = PutUint32 journalMagic ++ PutUint32 n ++
        PutUint32 (ChecksumIEEE (journal_body r)) ++ journal_body r.
Proof.
  unfold encodeJournalRecord. rewrite bind_Ok. split; intros (n & ? & Hw); exists n.
  - by injection Hw.
  - by rewrite Hw.
Qed.

Lemma encode_length r w :
  encodeJournalRecord r = Ok w → length w = (12 + length (journal_body r))%nat.
Proof. rewrite encode_Ok. intros (n & _ & ->). by rewrite !length_app. Qed.

Lemma encode_header r w :
  encodeJournalRecord r = Ok w →
  ∃ h, w = h ++ journal_body r ∧ length h = 12%nat ∧
    be_value (take 4 h) = journalMagic ∧
    be_value (take 4 (drop 4 h)) = blen (journal_body r) ∧
    be_value (drop 8 h) = ChecksumIEEE (journal_body r) ∧
    4 ≤ blen (journal_body r) ≤ maxJournalBodyBytes.
Proof.
  rewrite encode_Ok. intros (n & Hn & ->).
  destruct (body_length_Ok _ _ Hn) as (_ & _ & -> & Hr).
  exists (PutUint32 journalMagic ++ PutUint32 (blen (journal_body r)) ++
     PutUint32 (ChecksumIEEE (journal_body r))).
  split; [by rewrite <-!app_assoc|]. split; [done|].
  split; [by apply be_value_PutUint32|]. split_and!; try lia.
  - apply be_value_PutUint32. unfold is_u32, two32, maxJournalBodyBytes in *. lia.
  - apply be_value_PutUint32, ChecksumIEEE_u32.
Qed.

Ltac read_step := cbn [lift_read mbind Result_bind].

Lemma decode_body_body r n :
  journalRecordBodyLength r = Ok n → decode_body (journal_body r) = Ok r.
Proof.
  intros (Hk & Hy & _)%body_length_Ok. pose proof (slen_nonneg (Kind r)).
  pose proof (slen_nonneg (Key r)). unfold decode_body, journal_body.
  rewrite (ReadFull_app_n 2) by done; read_step.
  rewrite be_value_PutUint16 by lia.
  rewrite (ReadFull_app_n (Z.to_nat (slen (Kind r)))) by (unfold slen, blen; lia); read_step.
  rewrite (ReadFull_app_n 2) by done; read_step.
  rewrite be_value_PutUint16 by lia.
  rewrite (ReadFull_app_n (Z.to_nat (slen (Key r)))) by (unfold slen, blen; lia); read_step.
  rewrite !String.string_of_list_byte_of_string. by destruct r.
Qed.

(** The decoder on a well-formed frame with an arbitrary body. *)
Lemma decode_frame h body rest :
  length h = 12%nat → be_value (take 4 h) = journalMagic →
  be_value (take 4 (drop 4 h)) = blen body → 4 ≤ blen body ≤ maxJournalBodyBytes →
  decodeJournalRecord (h ++ body ++ rest) =
    if negb (be_value (drop 8 h) =? ChecksumIEEE body) then Err ErrChecksumMismatch
    else r ← decode_body body; Ok (r, rest).
Proof.
  intros Hl Hm Hb Hr. unfold decodeJournalRecord.
  rewrite (ReadFull_app_n 12) by done; read_step. rewrite Hm, Hb, Z.eqb_refl; simpl.
  rewrite (proj2 (Z.ltb_ge _ _)) by lia. rewrite (proj2 (Z.ltb_ge _ _)) by lia.
  by rewrite (ReadFull_app_n (Z.to_nat (blen body))) by (unfold blen; lia).
Qed.

Lemma decode_encode r w rest :
  encodeJournalRecord r = Ok w → decodeJournalRecord (w ++ rest) = Ok (r, rest).
Proof.
  intros Hw. destruct (encode_header _ _ Hw) as (h & -> & Hl & Hm & Hb & Hc & Hr).
  rewrite <-app_assoc, decode_frame by done. rewrite Hc, Z.eqb_refl; simpl.
  apply encode_Ok in Hw as (n & Hn & _). by rewrite (decode_body_body _ _ Hn).
Qed.

Lemma PutUint16_be_value bs : length bs = 2%nat → PutUint16 (be_value bs) = bs.
Proof.
  destruct bs as [|a [|b []]]; try done. intros _. unfold PutUint16, be_value; simpl.
  pose proof (Z_of_byte_range a). pose proof (Z_of_byte_range b).
  f_equal; [|f_equal]; apply Z_of_byte_inj; rewrite Z_of_byte_of_Z.
  - rewrite Z.div_add_l by lia. rewrite (Z.div_small (Z_of_byte b)) by lia.
    rewrite Z.mod_small; lia.
  - rewrite Z.add_comm, Z_mod_plus_full, Z.mod_small; lia.
Qed.

Lemma PutUint32_be_value bs : length bs = 4%nat → PutUint32 (be_value bs) = bs.
Proof.
  destruct bs as [|a [|b [|c [|d []]]]]; try done. intros _.
  unfold PutUint32, be_value; simpl.
  pose proof (Z_of_byte_range a). pose proof (Z_of_byte_range b).
  pose proof (Z_of_byte_range c). pose proof (Z_of_byte_range d).
  repeat f_equal; apply Z_of_byte_inj; rewrite Z_of_byte_of_Z.
  - replace (_ / 16777216) with (Z_of_byte a); [by apply Z.mod_small|].
    apply Z.div_unique with (Z_of_byte b * 65536 + Z_of_byte c * 256 + Z_of_byte d); lia.
  - replace (_ / 65536) with (Z_of_byte a * 256 + Z_of_byte b).
    + by rewrite Z.add_comm, Z_mod_plus_full, Z.mod_small.
    + apply Z.div_unique with (Z_of_byte c * 256 + Z_of_byte d); lia.
  - replace (_ / 256) with ((Z_of_byte a * 256 + Z_of_byte b) * 256 + Z_of_byte c).
    + by rewrite Z.add_comm, Z_mod_plus_full, Z.mod_small.
    + apply Z.div_unique with (Z_of_byte d); lia.
  - by rewrite Z.add_comm, Z_mod_plus_full, Z.mod_small.
Qed.

Lemma lift_read_Ok {A} w (r : Result ReadError A) a : lift_read w r = Ok a ↔ r = Ok a.
Proof. destruct r; simpl; split; congruence. Qed.

Lemma decode_body_Ok body r :
  decode_body body = Ok r →
  body = journal_body r ∧ slen (Kind r) ≤ 65535 ∧ slen (Key r) ≤ 65535.
Proof.
  unfold decode_body. rewrite bind_Ok.
  intros ([kl b1] & H1 & H). rewrite lift_read_Ok in H1.
  apply bind_Ok in H as ([kind b2] & H2 & H). rewrite lift_read_Ok in H2.
  apply bind_Ok in H as ([yl b3] & H3 & H). rewrite lift_read_Ok in H3.
  apply bind_Ok in H as ([key payload] & H4 & H). rewrite lift_read_Ok in H4.
  injection H as <-.
  apply ReadFull_Ok in H1 as [-> L1], H2 as [-> L2], H3 as [-> L3], H4 as [-> L4].
  unfold journal_body, slen, blen; cbn [Kind Key Payload].
  rewrite !String.list_byte_of_string_of_list_byte, L2, L4.
  pose proof (be_value_range kl) as R1. pose proof (be_value_range yl) as R2.
  rewrite L1 in R1. rewrite L3 in R2. change (256 ^ Z.of_nat 2) with 65536 in *.
  rewrite !Z2Nat.id by lia. rewrite !PutUint16_be_value by done.
  split_and!; [done|lia..].
Qed.

Lemma decode_Ok reader r rest :
  decodeJournalRecord reader = Ok (r, rest) →
  ∃ w, encodeJournalRecord r = Ok w ∧ reader = w ++ rest.
Proof.
  unfold decodeJournalRecord. rewrite bind_Ok. intros ([h r1] & H1 & H).
  rewrite lift_read_Ok in H1. apply ReadFull_Ok in H1 as [-> Hl].
  destruct (negb _) eqn:Em; [done|]. cbv zeta in H.
  destruct (maxJournalBodyBytes <? _) eqn:Ebig; [done|].
  destruct (_ <? 4) eqn:Esmall; [done|].
  apply bind_Ok in H as ([body r2] & H2 & H). rewrite lift_read_Ok in H2.
  apply ReadFull_Ok in H2 as [-> Hb].
  destruct (negb (be_value (drop 8 h) =? _)) eqn:Ec; [done|].
  apply bind_Ok in H as (r' & H3 & H). injection H as -> ->. bool_props.
  apply decode_body_Ok in H3 as (-> & Hk & Hy).
  set (n := be_value (take 4 (drop 4 h))) in *.
  exists (h ++ journal_body r). split; [|by rewrite <-app_assoc].
  assert (Hn : n = 2 + slen (Kind r) + 2 + slen (Key r) + blen (Payload r)).
  { unfold journal_body in Hb. rewrite !length_app, !length_PutUint16 in Hb.
    unfold slen, blen in *. lia. }
  apply encode_Ok. exists n. split.
  - unfold journalRecordBodyLength. rewrite !(proj2 (Z.ltb_ge _ _)) by lia. by rewrite Hn.
  - rewrite <-Ec, <-Em. unfold n.
    rewrite !PutUint32_be_value by (rewrite ?length_take, ?length_drop; lia).
    rewrite !app_assoc. f_equal.
    rewrite <-(take_drop 4 h) at 1. rewrite <-app_assoc. f_equal.
    by rewrite <-(take_drop 4 (drop 4 h)) at 1; rewrite drop_drop.
Qed.

(** The visitor run over a list of records, stopping at its first error. *)
Fixpoint visit_all {S E} (visitor : S → JournalRecord → S * option E) (st : S)
    (rs : list JournalRecord) : S * option E :=
  match rs with
  | [] => (st, None)
  | r :: rs' =>
      match visitor st r with
      | (st', Some e) => (st', Some e)
      | (st', None) => visit_all visitor st' rs'
      end
  end.

(** A file built by successful appends. *)
Fixpoint append_all (file : list byte) (rs : list JournalRecord) : Result JournalError (list byte) :=
  match rs with
  | [] => Ok file
  | r :: rs' =>
      match Append None file r with
      | (file', Ok _) => append_all file' rs'
      | (_, Err e) => Err e
      end
  end.

Lemma visit_all_collect seen rs : visit_all collect seen rs = (seen ++ rs, None).
Proof.
  revert seen. induction rs as [|r rs IH]; intros seen; simpl; [by rewrite app_nil_r|].
  by rewrite IH, <-app_assoc.
Qed.

Lemma encode_all_cons r rs ws :
  encode_all (r :: rs) = Ok ws ↔
  ∃ w ws', encodeJournalRecord r = Ok w ∧ encode_all rs = Ok ws' ∧ ws = w ++ ws'.
Proof.
  simpl. rewrite bind_Ok. split.
  - intros (w & Hw & H). apply bind_Ok in H as (ws' & H1 & H2). injection H2 as <-. eauto.
  - intros (w & ws' & Hw & H & ->). exists w. split; [done|]. by rewrite H.
Qed.

Lemma Append_None_Ok file r file' u :
  Append None file r = (file', Ok u) →
  ∃ w, encodeJournalRecord r = Ok w ∧ file' = file ++ w.
Proof.
  unfold Append. repeat case_decide; try done.
  destruct (encodeJournalRecord r) as [w|]; [|done]. intros [= <- _]. eauto.
Qed.

Lemma append_all_wires file rs file' :
  append_all file rs = Ok file' → ∃ ws, encode_all rs = Ok ws ∧ file' = file ++ ws.
Proof.
  revert file. induction rs as [|r rs IH]; intros file; simpl.
  { intros [= <-]. exists []. by rewrite app_nil_r. }
  destruct (Append None file r) as [f [u|]] eqn:E; [|done].
  intros (ws & Hws & ->)%IH. apply Append_None_Ok in E as (w & Hw & ->).
  exists (w ++ ws). split; [|by rewrite app_assoc].
  rewrite Hw; cbn. by rewrite Hws.
Qed.

Lemma decode_shorter reader r rest :
  decodeJournalRecord reader = Ok (r, rest) → (length rest < length reader)%nat.
Proof.
  intros (w & Hw & ->)%decode_Ok. apply encode_length in Hw. rewrite length_app. lia.
Qed.

Section ReplayFacts.
Context {S E : Type} (visitor : S → JournalRecord → S * option E).

(** More fuel than bytes changes nothing. *)
Lemma replay_loop_fuel f1 f2 st reader :
  (length reader < f1)%nat → (length reader < f2)%nat →
  replay_loop visitor f1 st reader = replay_loop visitor f2 st reader.
Proof.
  revert f2 st reader. induction f1 as [|f1 IH]; intros [|f2] st reader H1 H2; try lia.
  simpl. destruct (decodeJournalRecord reader) as [[r rest]|] eqn:E1; [|done].
  apply decode_shorter in E1. destruct (visitor st r) as [st' []]; [done|].
  apply IH; lia.
Qed.

Lemma replay_loop_not_out_of_fuel f st reader :
  (length reader < f)%nat → (replay_loop visitor f st reader).2 ≠ ReplayOutOfFuel.
Proof.
  revert st reader. induction f as [|f IH]; intros st reader Hf; [lia|]. simpl.
  destruct (decodeJournalRecord reader) as [[r rest]|e] eqn:E1.
  - apply decode_shorter in E1. destruct (visitor st r) as [st' []]; [done|].
    apply IH. lia.
  - by repeat case_match.
Qed.

Lemma Replay_wires st rs ws tail :
  encode_all rs = Ok ws →
  Replay visitor st (ws ++ tail) =
    match visit_all visitor st rs with
    | (st', Some e) => (st', ReplayVisitorError e)
    | (st', None) => Replay visitor st' tail
    end.
Proof.
  revert st ws. induction rs as [|r rs IH]; intros st ws; [by intros [= <-]|].
  intros (w & ws' & Hw & Hws & ->)%encode_all_cons. unfold Replay at 1. simpl.
  rewrite <-app_assoc, (decode_encode _ _ _ Hw).
  destruct (visitor st r) as [st' []]; [done|]. rewrite <-(IH _ _ Hws).
  unfold Replay. apply encode_length in Hw.
  apply replay_loop_fuel; rewrite ?length_app; lia.
Qed.

(** A header without its body, and shorter tails. *)
Lemma Replay_nil st : Replay visitor st [] = (st, ReplayOk).
Proof. done. Qed.

Lemma Replay_torn st r w n :
  encodeJournalRecord r = Ok w → (0 < n < length w)%nat →
  Replay visitor st (take n w) =
    (st, if decide (n = 12)%nat then ReplayOk else ReplayError ErrTruncatedTail).
Proof.
  intros Hw [Hn0 Hn]. destruct (encode_header _ _ Hw) as (h & -> & Hl & Hm & Hb & Hc & Hr).
  unfold Replay; simpl. unfold decodeJournalRecord.
  destruct (decide (n < 12)%nat) as [Hlt|Hge].
  - rewrite ReadFull_short by (rewrite length_take; lia).
    rewrite (decide_False (P := _ = [])), (decide_False (P := n = 12%nat)); [done|lia|].
    intros E1%(f_equal length). rewrite length_take in E1. simpl in E1. lia.
  - rewrite take_app_ge by lia. rewrite (ReadFull_app_n 12) by done. read_step.
    rewrite Hm, Hb, Z.eqb_refl; simpl negb; cbv iota zeta.
    rewrite (proj2 (Z.ltb_ge _ _)) by lia. rewrite (proj2 (Z.ltb_ge _ _)) by lia.
    rewrite length_app in Hn. unfold blen.
    rewrite ReadFull_short by (rewrite length_take; lia).
    destruct (decide (n = 12)%nat) as [->|Hne].
    + by rewrite Hl.
    + rewrite decide_False; [done|]. intros E1%(f_equal length).
      rewrite length_take in E1. simpl in E1. lia.
Qed.
End ReplayFacts.

(** ** Properties *)

(** The frame format is canonical: decoding succeeds with record [r] and
    unread bytes [rest] exactly when the input is the encoding of [r] followed
    by [rest]. *)
Theorem decode_encode_iff reader r rest :
  decodeJournalRecord reader = Ok (r, rest) ↔
  ∃ wire, encodeJournalRecord r = Ok wire ∧ reader = wire ++ rest.
Proof.
  split; [apply decode_Ok|]. intros (w & Hw & ->). by apply decode_encode.
Qed.

(** Replaying a file built by any successful appends runs the visitor on
    exactly the appended records, in order, until it fails; the journal itself
    reports no error. *)
Theorem Replay_appended {S E} (visitor : S → JournalRecord → S * option E) st rs file :
  append_all [] rs = Ok file →
  Replay visitor st file =
    match visit_all visitor st rs with
    | (st', Some e) => (st', ReplayVisitorError e)
    | (st', None) => (st', ReplayOk)
    end.
Proof.
  intros (ws & Hws & ->)%append_all_wires. rewrite app_nil_l, <-(app_nil_r ws).
  rewrite (Replay_wires visitor st rs ws [] Hws). by repeat case_match.
Qed.

Definition rec_a : JournalRecord := mkJournalRecord "intent" "exec/a" [x01; x02].
Definition rec_b : JournalRecord := mkJournalRecord "plan" "p-1" [].

Definition file_ab : list byte :=
  match append_all [] [rec_a; rec_b] with Ok f => f | Err _ => [] end.

Lemma Replay_appended_witness :
  append_all [] [rec_a; rec_b] = Ok file_ab ∧
  Replay collect [] file_ab = ([rec_a; rec_b], ReplayOk).
Proof.
  split; [vm_compute; reflexivity|].
  rewrite (Replay_appended collect [] [rec_a; rec_b]); vm_compute; reflexivity.
Defined.

(** A crash in the middle of an append never makes a later replay deliver
    a partial record: the records appended before it are all delivered, and the
    torn record is delivered only when all its bytes were written.  The tail is
    reported as truncated, except that a tail of exactly the twelve header bytes
    is taken for a clean end of file. *)
Theorem Replay_torn_append rs file r n wire :
  append_all [] rs = Ok file → encodeJournalRecord r = Ok wire →
  Kind r ≠ "" → Key r ≠ "" →
  Replay collect [] (Append (Some n) file r).1 =
    if decide (n = 0 ∨ n = 12)%nat then (rs, ReplayOk)
    else if decide (n < length wire)%nat then (rs, ReplayError ErrTruncatedTail)
    else (rs ++ [r], ReplayOk).
Proof.
  intros (ws & Hws & ->)%append_all_wires Hw Hk Hy. rewrite app_nil_l.
  unfold Append. rewrite !decide_False by done. rewrite Hw. cbn [fst].
  assert (Hlen : (16 ≤ length wire)%nat).
  { destruct (encode_header _ _ Hw) as (h & -> & Hl & _ & _ & _ & Hr & _).
    rewrite length_app. unfold blen in Hr. lia. }
  rewrite (Replay_wires collect [] rs ws _ Hws), visit_all_collect, app_nil_l.
  destruct (decide (n < length wire)%nat) as [Hn|Hn].
  - destruct (decide (n = 0)%nat) as [->|Hn0]; [by rewrite decide_True by tauto|].
    rewrite (Replay_torn collect rs r wire n Hw) by lia.
    destruct (decide (n = 12)%nat), (decide (n = 0 ∨ n = 12)%nat); (done || lia).
  - rewrite decide_False by lia. rewrite take_ge by lia.
    assert (Hone : encode_all [r] = Ok wire).
    { simpl. rewrite Hw; cbn. by rewrite app_nil_r. }
    rewrite <-(app_nil_r wire), (Replay_wires collect rs [r] wire [] Hone).
    by rewrite visit_all_collect.
Qed.

Definition file_a : list byte :=
  match append_all [] [rec_a] with Ok f => f | Err _ => [] end.
Definition wire_b : list byte :=
  match encodeJournalRecord rec_b with Ok w => w | Err _ => [] end.

Lemma Replay_torn_append_witness :
  append_all [] [rec_a] = Ok file_a ∧
  Replay collect [] (Append (Some 13%nat) file_a rec_b).1 = ([rec_a], ReplayError ErrTruncatedTail) ∧
  Replay collect [] (Append (Some 12%nat) file_a rec_b).1 = ([rec_a], ReplayOk).
Proof.
  split; [vm_compute; reflexivity|].
  split; rewrite (Replay_torn_append [rec_a] file_a rec_b _ wire_b);
    solve [vm_compute; reflexivity | vm_compute; discriminate].
Defined.

(** A record whose body differs from what was written in one byte is
    rejected by the checksum, wherever that byte is. *)
Theorem decode_corrupt_byte r wire i b rest :
  encodeJournalRecord r = Ok wire → (12 ≤ i < length wire)%nat → wire !! i ≠ Some b →
  decodeJournalRecord (<[i := b]> wire ++ rest) = Err ErrChecksumMismatch.
Proof.
  intros Hw [Hi1 Hi2] Hb.
  destruct (encode_header _ _ Hw) as (h & -> & Hl & Hm & Hlen & Hc & Hr).
  set (body := journal_body r) in *. rewrite length_app in Hi2.
  rewrite insert_app_r_alt by lia. set (j := (i - length h)%nat) in *.
  assert (Hj : (j < length body)%nat) by lia.
  rewrite <-app_assoc, decode_frame; try done.
  - destruct (lookup_lt_is_Some_2 body j Hj) as [a Ha].
    assert (Hab : b ≠ a).
    { intros ->. apply Hb. by rewrite lookup_app_r by lia. }
    rewrite Hc. destruct (Z.eqb_spec (ChecksumIEEE body) (ChecksumIEEE (<[j:=b]> body)))
      as [E|]; [|done].
    rewrite insert_take_drop in E by done.
    rewrite <-(take_drop_middle body j a Ha) in E at 1.
    by apply ChecksumIEEE_one_byte in E.
  - by unfold blen; rewrite length_insert.
  - unfold blen in *. by rewrite length_insert.
Qed.

Lemma decode_corrupt_byte_witness :
  (12 ≤ 30 < length file_ab)%nat ∧
  decodeJournalRecord (<[26%nat := xff]>
     (match encodeJournalRecord rec_a with Ok w => w | _ => [] end) ++ []) =
  Err ErrChecksumMismatch.
Proof.
  split; [vm_compute; lia|].
  apply (decode_corrupt_byte rec_a); [vm_compute; reflexivity|vm_compute; lia|].
  vm_compute. discriminate.
Defined.

(** ** Replacement *)

Lemma validate_total_spec total rs :
  0 ≤ total ≤ maxJournalBodyBytes →
  validate_total total rs = Ok () ↔
  ∃ ws, encode_all rs = Ok ws ∧ total + blen ws ≤ maxJournalBodyBytes.
Proof.
  revert total. induction rs as [|r rs IH]; intros total Ht.
  { simpl. split; [|done]. intros _. exists []. unfold blen; simpl. split; [done|lia]. }
  cbn [validate_total]. rewrite bind_Ok. split.
  - intros (n & Hn & H). destruct (body_length_Ok _ _ Hn) as (_ & _ & -> & Hr).
    unfold maxJournalBodyBytes in *.
    rewrite wrap64_id in H by (unfold is_u64, two64; lia).
    destruct (_ <? _) eqn:E in H; [done|]. bool_props.
    apply IH in H as (ws & Hws & Hle); [|lia].
    exists ((PutUint32 journalMagic ++ PutUint32 (blen (journal_body r)) ++
        PutUint32 (ChecksumIEEE (journal_body r)) ++ journal_body r) ++ ws).
    split; [apply encode_all_cons; eexists _, ws; split_and!; [|done|done]; apply encode_Ok; eauto|].
    unfold blen in *. rewrite !length_app, !length_PutUint32. lia.
  - intros (ws & (w & ws' & Hw & Hws & ->)%encode_all_cons & Hle).
    pose proof (encode_length _ _ Hw) as Hl. apply encode_Ok in Hw as (n & Hn & _).
    destruct (body_length_Ok _ _ Hn) as (_ & _ & -> & Hr).
    eexists; split; [done|]. unfold maxJournalBodyBytes, blen in *.
    rewrite length_app in Hle.
    rewrite wrap64_id by (unfold is_u64, two64; lia).
    rewrite (proj2 (Z.ltb_ge _ _)) by lia. apply IH; [lia|].
    exists ws'. split; [done|]. unfold blen. lia.
Qed.

(** [ValidateJournalReplacement] accepts exactly the record lists whose
    whole encoding exists and fits the journal size limit; the [uint64] running
    total cannot wrap. *)
Theorem ValidateJournalReplacement_spec rs :
  ValidateJournalReplacement rs = Ok () ↔
  ∃ wires, encode_all rs = Ok wires ∧ blen wires ≤ maxJournalBodyBytes.
Proof.
  unfold ValidateJournalReplacement. rewrite validate_total_spec; [done|].
  unfold maxJournalBodyBytes. lia.
Qed.

(** C40: Replacing a journal is atomic: whatever fails, afterwards the file is
    either the old one byte for byte or replays to exactly the new records; on
    success it is the latter. *)
Theorem Replace_atomic fault file rs file' res :
  Replace fault file rs = (file', res) →
  (file' = file ∨ Replay collect [] file' = (rs, ReplayOk)) ∧
  (res = Ok () → Replay collect [] file' = (rs, ReplayOk)).
Proof.
  unfold Replace, writeJournalRecordsAtomically.
  destruct (ValidateJournalReplacement rs) as [[]|]; [|intros [= <- <-]; naive_solver].
  destruct (encode_all rs) as [ws|] eqn:Hws; [|intros [= <- <-]; naive_solver].
  assert (Hr : Replay collect [] ws = (rs, ReplayOk)).
  { rewrite <-(app_nil_r ws), (Replay_wires collect [] rs ws [] Hws).
    by rewrite visit_all_collect. }
  destruct fault as [[]|]; intros [= <- <-]; naive_solver.
Qed.

Lemma Replace_atomic_witness :
  ∃ file', Replace None file_ab [rec_b] = (file', Ok ()) ∧
    Replay collect [] file' = ([rec_b], ReplayOk).
Proof.
  eexists. split; [vm_compute; reflexivity|].
  refine (proj2 (Replace_atomic None file_ab [rec_b] _ (Ok ()) _) eq_refl).
  vm_compute. reflexivity.
Defined.
