(* ===== verification/Protection.v ===== *)
(** * The protection guard ([scheduler-go/protection/protection.go])

    Per key: cooldown, score hysteresis, an action budget per window and a
    circuit breaker.  The guard is its configuration and a map from keys to
    their state; every operation runs under the guard's mutex, so it is one
    transition, and the clock reading it takes is an argument. *)

From Stdlib Require Import ZArith Lia.
From S2P Require Import Prelude GoTime GoFloat.
From stdpp Require Import options.

Local Open Scope Z_scope.

Record Config := mkConfig {
  Enabled : bool;
  Cooldown : Z;
  Hysteresis : float64;
  MaxActionsPerWindow : Z;
  Window : Z;
  BreakerThreshold : Z;
  BreakerResetAfter : Z;
}.

#[export] Instance eta_Config : Eta Config := λ c,
  mkConfig (Enabled c) (Cooldown c) (Hysteresis c) (MaxActionsPerWindow c) (Window c)
    (BreakerThreshold c) (BreakerResetAfter c).

Inductive Reason :=
| EMPTY_KEY | EMPTY_ACTION_SET | CIRCUIT_OPEN | COOLDOWN | HYSTERESIS | BUDGET_EXHAUSTED.

#[export] Instance Reason_eq_dec : EqDecision Reason.
Proof. solve_decision. Defined.

Inductive Decision := Allowed | Denied (r : Reason).

#[export] Instance Decision_eq_dec : EqDecision Decision.
Proof. solve_decision. Defined.

Record actionState := mkActionState {
  lastAction : Z;
  lastScore : float64;
  windowStart : Z;
  windowCount : Z;
  breakerCount : Z;
  breakerOpened : Z;
}.

#[export] Instance eta_actionState : Eta actionState := λ s,
  mkActionState (lastAction s) (lastScore s) (windowStart s) (windowCount s)
    (breakerCount s) (breakerOpened s).

(** The zero value read for a key the map does not hold. *)
Definition zero_state : actionState := mkActionState zero_time f0 zero_time 0 0 zero_time.

Record Guard := mkGuard { cfg : Config; gstate : gmap string actionState }.

#[export] Instance eta_Guard : Eta Guard := λ g, mkGuard (cfg g) (gstate g).

Definition state_of (g : Guard) (key : string) : actionState := default zero_state (gstate g !! key).

(** [NewGuard] *)
Definition guard_defaults (c : Config) : Config :=
  if Enabled c then
    let c := if MaxActionsPerWindow c =? 0 then c <| MaxActionsPerWindow := 1 |> else c in
    let c := if Window c <=? 0 then c <| Window := Minute |> else c in
    let c := if BreakerThreshold c =? 0 then c <| BreakerThreshold := 3 |> else c in
    if BreakerResetAfter c <=? 0 then c <| BreakerResetAfter := 5 * Minute |> else c
  else c.

Definition NewGuard (c : Config) : Guard := mkGuard (guard_defaults c) ∅.

(** [normalizeLocked] *)
Definition normalizeLocked (c : Config) (st : actionState) (now : Z) : actionState :=
  let st :=
    if negb (IsZero (breakerOpened st)) && (BreakerResetAfter c <=? time_Sub now (breakerOpened st))
    then st <| breakerOpened := zero_time |> <| breakerCount := 0 |> else st in
  if negb (IsZero (windowStart st)) && (Window c <=? time_Sub now (windowStart st))
  then st <| windowStart := zero_time |> <| windowCount := 0 |> else st.

(** [evaluateLocked]: the decision and the state to store if it is [Allowed]. *)
Definition evaluateLocked (c : Config) (st : actionState) (now : Z) (score : float64)
    (actionCount : Z) : Decision * actionState :=
  let st := normalizeLocked c st now in
  if negb (IsZero (breakerOpened st)) && (time_Sub now (breakerOpened st) <? BreakerResetAfter c)
  then (Denied CIRCUIT_OPEN, st) else
  if (0 <? Cooldown c) && negb (IsZero (lastAction st)) && (time_Sub now (lastAction st) <? Cooldown c)
  then (Denied COOLDOWN, st) else
  if fltb f0 (Hysteresis c) && fltb f0 (lastScore st) &&
     fltb score (fadd (lastScore st) (Hysteresis c))
  then (Denied HYSTERESIS, st) else
  let st :=
    if IsZero (windowStart st) || (Window c <=? time_Sub now (windowStart st))
    then st <| windowStart := now |> <| windowCount := 0 |> else st in
  if swrap64 (MaxActionsPerWindow c - windowCount st) <? actionCount
  then (Denied BUDGET_EXHAUSTED, st) else
  (Allowed, st <| lastAction := now |> <| lastScore := score |>
               <| windowCount := swrap64 (windowCount st + actionCount) |>).

(** [CheckN] *)
Definition CheckN (g : Guard) (now : Z) (key : string) (score : float64) (actionCount : Z) : Decision :=
  if negb (Enabled (cfg g)) then Allowed else
  if decide (key = "") then Denied EMPTY_KEY else
  if actionCount <? 1 then Denied EMPTY_ACTION_SET else
  (evaluateLocked (cfg g) (state_of g key) now score actionCount).1.

(** [CommitN] *)
Definition CommitN (g : Guard) (now : Z) (key : string) (score : float64) (actionCount : Z) :
    Guard * Decision :=
  if negb (Enabled (cfg g)) then (g, Allowed) else
  if decide (key = "") then (g, Denied EMPTY_KEY) else
  if actionCount <? 1 then (g, Denied EMPTY_ACTION_SET) else
  match evaluateLocked (cfg g) (state_of g key) now score actionCount with
  | (Allowed, next) => (g <| gstate := <[key := next]> (gstate g) |>, Allowed)
  | (d, _) => (g, d)
  end.

Definition Allow (g : Guard) (now : Z) (key : string) (score : float64) := CommitN g now key score 1.
Definition AllowN := CommitN.
Definition Check1 (g : Guard) (now : Z) (key : string) (score : float64) := CheckN g now key score 1.

(** [Reject] *)
Definition Reject (g : Guard) (now : Z) (key : string) : Guard :=
  if negb (Enabled (cfg g)) || bool_decide (key = "") then g else
  let st := normalizeLocked (cfg g) (state_of g key) now in
  let st := st <| breakerCount := swrap64 (breakerCount st + 1) |> in
  let st := if BreakerThreshold (cfg g) <=? breakerCount st then st <| breakerOpened := now |> else st in
  g <| gstate := <[key := st]> (gstate g) |>.

(** [Accept] *)
Definition Accept (g : Guard) (now : Z) (key : string) : Guard :=
  if negb (Enabled (cfg g)) || bool_decide (key = "") then g else
  let st := normalizeLocked (cfg g) (state_of g key) now in
  let st := if 0 <? breakerCount st then st <| breakerCount := breakerCount st - 1 |> else st in
  let st := if breakerCount st =? 0 then st <| breakerOpened := zero_time |> else st in
  g <| gstate := <[key := st]> (gstate g) |>.

(** The durable form of a key's state, and [ExportState]/[RestoreState]. *)
Record StateEntry := mkStateEntry {
  LastAction : Z;
  LastScore : float64;
  WindowStart : Z;
  WindowCount : Z;
  BreakerCount : Z;
  BreakerOpened : Z;
}.

Definition export_entry (st : actionState) : StateEntry :=
  mkStateEntry (lastAction st) (lastScore st) (windowStart st) (windowCount st)
    (breakerCount st) (breakerOpened st).

Definition restore_entry (e : StateEntry) : actionState :=
  mkActionState (LastAction e) (LastScore e) (WindowStart e) (WindowCount e)
    (BreakerCount e) (BreakerOpened e).

Definition ExportState (g : Guard) : gmap string StateEntry := export_entry <$> gstate g.

Definition RestoreState (g : Guard) (snapshot : gmap string StateEntry) : Guard :=
  g <| gstate := restore_entry <$> snapshot |>.

(** ** Traces

    The calls made on one guard, each with the clock reading it took.  [run]
    returns the final guard and what each call returned ([Allowed] for the calls
    without a result). *)

Inductive Call := DoCommit (score : float64) (actionCount : Z) | DoReject | DoAccept.

Record Event := mkEvent { at_time : Z; on_key : string; call : Call }.

Definition step (g : Guard) (e : Event) : Guard * Decision :=
  match call e with
  | DoCommit score n => CommitN g (at_time e) (on_key e) score n
  | DoReject => (Reject g (at_time e) (on_key e), Allowed)
  | DoAccept => (Accept g (at_time e) (on_key e), Allowed)
  end.

Fixpoint run (g : Guard) (evs : list Event) : Guard * list (Event * Decision) :=
  match evs with
  | [] => (g, [])
  | e :: evs =>
      let '(g, d) := step g e in
      let '(g, ds) := run g evs in (g, (e, d) :: ds)
  end.

(** The mutations an answered call let through for [key] in [lo, hi). *)
Definition granted (key : string) (lo hi : Z) (ed : Event * Decision) : Z :=
  match ed with
  | (mkEvent t k (DoCommit _ n), Allowed) =>
      if bool_decide (k = key) && (lo <=? t) && (t <? hi) then n else 0
  | _ => 0
  end.

Definition total_granted (key : string) (lo hi : Z) (l : list (Event * Decision)) : Z :=
  foldr (λ ed acc, granted key lo hi ed + acc) 0 l.

(** Clock readings are non-decreasing and not the zero time. *)
Fixpoint clocked (t : Z) (evs : list Event) : Prop :=
  match evs with
  | [] => True
  | e :: evs => t ≤ at_time e ∧ clocked (at_time e) evs
  end.

(** An enabled configuration whose numbers are what Go's [int] and
    [time.Duration] can hold, as [NewGuard] leaves it. *)
Record well_configured (c : Config) : Prop := {
  wc_enabled : Enabled c = true;
  wc_max : 0 ≤ MaxActionsPerWindow c ≤ max_int64;
  wc_window : 0 < Window c ≤ max_int64;
  wc_reset : 0 < BreakerResetAfter c ≤ max_int64;
  wc_cooldown : Cooldown c ≤ max_int64;
}.

(** The window of a state: its count is within the budget, and none is counted
    outside a window. *)
Definition window_ok (c : Config) (st : actionState) : Prop :=
  0 ≤ windowCount st ≤ MaxActionsPerWindow c ∧ (windowStart st = zero_time → windowCount st = 0).

Section Guard.
Set Default Proof Using "Type*".
Context (c : Config) (Hc : well_configured c).

Lemma IsZero_spec t : IsZero t = bool_decide (t = zero_time).
Proof. unfold IsZero. case_bool_decide; [by apply Z.eqb_eq|by apply Z.eqb_neq]. Qed.

Lemma elapsed_spec t u d : 0 < d ≤ max_int64 → (d <=? time_Sub t u) = bool_decide (d ≤ t - u).
Proof.
  intros H. pose proof (time_Sub_lt_iff t u d). unfold min_int64 in *.
  case_bool_decide; [apply Z.leb_le|apply Z.leb_gt]; lia.
Qed.

Lemma not_elapsed_spec t u d : 0 < d ≤ max_int64 → (time_Sub t u <? d) = bool_decide (t - u < d).
Proof.
  intros H. pose proof (time_Sub_lt_iff t u d). unfold min_int64 in *.
  case_bool_decide; [apply Z.ltb_lt|apply Z.ltb_ge]; lia.
Qed.

Lemma normalize_lastAction st now : lastAction (normalizeLocked c st now) = lastAction st.
Proof. unfold normalizeLocked. by repeat case_match. Qed.

(** [normalizeLocked] in terms of elapsed time. *)
Lemma normalize_spec st now :
  let st' := normalizeLocked c st now in
  (breakerOpened st', breakerCount st') =
    (if bool_decide (breakerOpened st ≠ zero_time ∧ BreakerResetAfter c ≤ now - breakerOpened st)
     then (zero_time, 0) else (breakerOpened st, breakerCount st)) ∧
  (windowStart st', windowCount st') =
    (if bool_decide (windowStart st ≠ zero_time ∧ Window c ≤ now - windowStart st)
     then (zero_time, 0) else (windowStart st, windowCount st)).
Proof.
  destruct Hc. unfold normalizeLocked. simpl.
  rewrite !elapsed_spec, !IsZero_spec by done.
  rewrite <-!bool_decide_not, <-!bool_decide_and.
  split; repeat case_bool_decide; simpl in *; try done; by rewrite ?bool_decide_eq_false_2 by tauto.
Qed.

(** The gates an allowed action passed. *)
Lemma evaluate_allowed_gates st now score n st' :
  evaluateLocked c st now score n = (Allowed, st') →
  lastAction st' = now ∧
  (0 < Cooldown c → lastAction st = zero_time ∨ Cooldown c ≤ now - lastAction st) ∧
  (breakerOpened st = zero_time ∨ BreakerResetAfter c ≤ now - breakerOpened st).
Proof.
  destruct Hc. unfold evaluateLocked.
  destruct (normalize_spec st now) as [Hbr _]. rewrite !normalize_lastAction.
  set (s := normalizeLocked c st now) in *. clearbody s.
  rewrite !not_elapsed_spec, !IsZero_spec by done.
  destruct (_ && bool_decide (now - breakerOpened s < _)) eqn:E1; [done|].
  destruct (_ && (time_Sub now (lastAction st) <? _)) eqn:E2; [done|].
  destruct (_ && fltb score _); [done|]. destruct (_ <? n); intros [= <-].
  split_and!; [done| |].
  - intros HC. rewrite (proj2 (Z.ltb_lt _ _) HC), not_elapsed_spec in E2 by lia. simpl in E2.
    destruct (bool_decide (lastAction st = zero_time)) eqn:?; simpl in E2; bool_props;
      [by left|right; lia].
  - destruct (decide (breakerOpened st = zero_time)) as [|Hnz]; [by left|right].
    decide_in Hbr as Hd; [apply Hd|]. injection Hbr as Hs _. rewrite Hs in E1.
    rewrite bool_decide_eq_false_2 in E1 by done. simpl in E1. bool_props. lia.
Qed.

(** The window an allowed action was counted in. *)
Lemma evaluate_allowed_window st now score n st' :
  window_ok c st → 1 ≤ n →
  evaluateLocked c st now score n = (Allowed, st') →
  (windowStart st' = now ∧ windowCount st' = n ∧ n ≤ MaxActionsPerWindow c ∧
    (windowStart st = zero_time ∨ Window c ≤ now - windowStart st)) ∨
  (windowStart st' = windowStart st ∧ windowCount st' = windowCount st + n ∧
    windowStart st ≠ zero_time ∧
    windowCount st + n ≤ MaxActionsPerWindow c ∧ now - windowStart st < Window c).
Proof.
  intros [Hw Hz] Hn. destruct Hc. unfold evaluateLocked.
  destruct (normalize_spec st now) as [_ Hwin].
  set (s := normalizeLocked c st now) in *. clearbody s.
  rewrite !elapsed_spec, !IsZero_spec by done.
  destruct (_ && (time_Sub now (breakerOpened s) <? _)); [done|].
  destruct (_ && (time_Sub now (lastAction s) <? _)); [done|].
  destruct (_ && fltb score _); [done|]. intros E.
  assert (Hfresh : windowStart s = zero_time →
    windowStart st' = now ∧ windowCount st' = n ∧ n ≤ MaxActionsPerWindow c).
  { intros Hs. rewrite (bool_decide_eq_true_2 _ Hs) in E. simpl in E.
    rewrite Z.sub_0_r, !swrap64_id in E by (unfold min_int64, max_int64 in *; lia).
    destruct (_ <? n) eqn:En; simplify_eq/=; bool_props.
    by rewrite swrap64_id by (unfold min_int64, max_int64 in *; lia). }
  decide_in Hwin as Hd; injection Hwin as Hs Hcnt; [left; tauto|].
  destruct (decide (windowStart st = zero_time)) as [Hnz|Hnz].
  { rewrite Hs in Hfresh. left. tauto. }
  rewrite Hs, (bool_decide_eq_false_2 _ Hnz), bool_decide_eq_false_2 in E by (intros ?; tauto).
  right. simpl in E. rewrite Hcnt in E.
  rewrite !swrap64_id in E by (unfold min_int64, max_int64 in *; lia).
  destruct (_ <? n) eqn:En; simplify_eq/=; bool_props. split_and!; auto with lia.
  apply swrap64_id. unfold min_int64, max_int64 in *; lia.
Qed.
(** ** One call, seen from one key *)

(** How a call that lets nothing through for [key] may move its window. *)
Definition window_kept (st st' : actionState) (now : Z) : Prop :=
  (windowStart st' = windowStart st ∧ windowCount st' = windowCount st) ∨
  (windowStart st' = zero_time ∧ windowCount st' = 0 ∧ Window c ≤ now - windowStart st).

Lemma normalize_kept st now : window_kept st (normalizeLocked c st now) now.
Proof.
  destruct (normalize_spec st now) as [_ Hwin]. unfold window_kept.
  decide_in Hwin as Hd; injection Hwin as -> ->; [right; tauto|by left].
Qed.

Lemma state_of_insert cf m k st key :
  state_of (mkGuard cf (<[k := st]> m)) key =
  if decide (k = key) then st else state_of (mkGuard cf m) key.
Proof.
  unfold state_of; simpl. case_decide; subst; [by rewrite lookup_insert_eq|].
  by rewrite lookup_insert_ne.
Qed.

Lemma step_cfg g e : cfg (step g e).1 = cfg g.
Proof.
  unfold step, CommitN, Reject, Accept. repeat case_match; done.
Qed.

(** Every call either is a granted commit of [key], or keeps its window and
    its last action. *)
Lemma step_spec g e key :
  cfg g = c →
  let st := state_of g key in let st' := state_of (step g e).1 key in
  (∃ score n, e = mkEvent (at_time e) key (DoCommit score n) ∧ (step g e).2 = Allowed ∧ 1 ≤ n ∧
     evaluateLocked c st (at_time e) score n = (Allowed, st')) ∨
  ((∀ lo hi, granted key lo hi (e, (step g e).2) = 0) ∧
   (∀ score n, e = mkEvent (at_time e) key (DoCommit score n) → (step g e).2 ≠ Allowed) ∧
   lastAction st' = lastAction st ∧ window_kept st st' (at_time e)).
Proof.
  intros Hg. destruct e as [now k [score n| |]]; unfold step; cbn [call at_time on_key].
  - unfold CommitN. rewrite Hg, (wc_enabled _ Hc). simpl.
    destruct (decide (k = "")) as [->|Hk]; [right; simpl; split_and!; by try left|].
    destruct (n <? 1) eqn:Hn; [right; simpl; split_and!; by try left|].
    destruct (evaluateLocked c (state_of g k) now score n) as [[|r] next] eqn:E; simpl;
      [|right; split_and!; by try left].
    rewrite state_of_insert. case_decide as Hd; [subst k|].
    + left. bool_props. exists score, n. by split_and!.
    + right. split_and!; [|congruence|done|by left].
      intros. by rewrite bool_decide_eq_false_2.
  - right. unfold Reject. rewrite Hg. split_and!; [by intros|done| |];
      (destruct (_ || _); [by try left|]); simpl; rewrite state_of_insert; (case_decide; [subst k|by try left]).
    + by case_match; simpl; rewrite normalize_lastAction.
    + pose proof (normalize_kept (state_of g key) now). by case_match.
  - right. unfold Accept. rewrite Hg. split_and!; [by intros|done| |];
      (destruct (_ || _); [by try left|]); simpl; rewrite state_of_insert; (case_decide; [subst k|by try left]).
    + by repeat case_match; simpl; rewrite normalize_lastAction.
    + pose proof (normalize_kept (state_of g key) now). by repeat case_match.
Qed.
Lemma window_kept_ok st st' now : window_ok c st → window_kept st st' now → window_ok c st'.
Proof.
  intros [? Hz] [[E1 E2]|(E1 & E2 & _)]; split; rewrite ?E1, ?E2; auto with lia.
Qed.

Lemma step_window_ok g e key :
  cfg g = c → zero_time < at_time e →
  window_ok c (state_of g key) → window_ok c (state_of (step g e).1 key).
Proof.
  intros Hg Ht Hok. destruct (step_spec g e key Hg) as [(score & n & _ & _ & Hn & E)|(_ & _ & _ & Hk)];
    [|by eapply window_kept_ok].
  destruct (evaluate_allowed_window _ _ _ _ _ Hok Hn E) as [(E1 & E2 & ? & _)|(E1 & E2 & ? & ? & _)];
    destruct Hok; split; rewrite ?E1, ?E2; auto with lia; lia.
Qed.

Lemma total_granted_late g evs key lo hi t :
  cfg g = c → clocked t evs → hi ≤ t → total_granted key lo hi (run g evs).2 = 0.
Proof.
  revert g t. induction evs as [|e evs IH]; intros g t Hg Hclk Ht; [done|].
  destruct Hclk as [Hte Hclk]. simpl. destruct (step g e) as [g' d] eqn:E.
  specialize (IH g' (at_time e)). destruct (run g' evs) as [g'' ds]. simpl in *.
  rewrite IH by (done || lia || by rewrite <-Hg, <-(step_cfg g e), E).
  destruct e as [now k [score n| |]]; simpl in *; try done. destruct d; [|done].
  rewrite (proj2 (Z.ltb_ge now hi)) by lia. by rewrite andb_false_r.
Qed.

(** What is left of the current window's budget. *)
Definition budget_left (st : actionState) : Z :=
  if IsZero (windowStart st) then 0 else MaxActionsPerWindow c - windowCount st.

Lemma budget_left_nonneg st : window_ok c st → 0 ≤ budget_left st.
Proof. intros [? _]. unfold budget_left. case_match; lia. Qed.

(** Inside a live window at most its remaining budget is granted. *)
Lemma granted_live g evs key lo hi t :
  cfg g = c → zero_time < t → clocked t evs → window_ok c (state_of g key) →
  windowStart (state_of g key) ≠ zero_time →
  hi ≤ windowStart (state_of g key) + Window c →
  total_granted key lo hi (run g evs).2 ≤ MaxActionsPerWindow c - windowCount (state_of g key).
Proof.
  revert g t. induction evs as [|e evs IH]; intros g t Hg Ht Hclk Hok Hws Hhi;
    [destruct Hok; simpl; lia|]. destruct Hclk as [Hte Hclk].
  pose proof (step_spec g e key Hg) as Hs. pose proof (step_window_ok g e key Hg) as Hok'.
  pose proof (step_cfg g e) as Hg'. simpl.
  destruct (step g e) as [g' d]; simpl in *. specialize (IH g' (at_time e)).
  pose proof (total_granted_late g' evs key lo hi (at_time e)) as Hlate.
  destruct (run g' evs) as [g'' ds]; simpl in *.
  destruct Hs as [(score & n & He & -> & Hn & E)|(Hgr & _ & _ & [[E1 E2]|(E1 & E2 & Hlw)])].
  - rewrite He; simpl. rewrite bool_decide_eq_true_2 by done; simpl.
    destruct (evaluate_allowed_window _ _ _ _ _ Hok Hn E) as [(_ & _ & _ & [|Hlw])|(E1 & E2 & _ & Hle & _)]; [done| |].
    + rewrite Hlate, (proj2 (Z.ltb_ge (at_time e) hi)) by (congruence || lia || done).
      rewrite andb_false_r. destruct Hok; lia.
    + rewrite E1, E2 in IH.
      assert (total_granted key lo hi ds ≤ MaxActionsPerWindow c - (windowCount (state_of g key) + n)).
      { apply IH; try done; [congruence|lia|apply Hok'; [lia|done]]. }
      destruct (_ && _); lia.
  - rewrite Hgr. rewrite E1, E2 in IH. apply IH; try done; [congruence|lia|apply Hok'; [lia|done]].
  - rewrite Hgr, Hlate by (congruence || lia || done). destruct Hok; lia.
Qed.
(** Any interval no longer than a window meets at most two windows. *)
Lemma granted_any g evs key lo hi t :
  cfg g = c → zero_time < t → clocked t evs → lo ≤ t → window_ok c (state_of g key) →
  hi ≤ lo + Window c →
  total_granted key lo hi (run g evs).2 ≤ budget_left (state_of g key) + MaxActionsPerWindow c.
Proof.
  revert g t. induction evs as [|e evs IH]; intros g t Hg Ht Hclk Hlo Hok Hhi;
    [pose proof (budget_left_nonneg _ Hok); destruct Hc; simpl; lia|]. destruct Hclk as [Hte Hclk].
  pose proof (step_spec g e key Hg) as Hs. pose proof (step_window_ok g e key Hg) as Hok'.
  pose proof (step_cfg g e) as Hg'. simpl. pose proof (budget_left_nonneg _ Hok) as Hleft.
  destruct (step g e) as [g' d]; simpl in *. specialize (IH g' (at_time e)).
  pose proof (granted_live g' evs key lo hi (at_time e)) as Hlive.
  destruct (run g' evs) as [g'' ds]; simpl in *. unfold budget_left in *.
  destruct Hs as [(score & n & He & -> & Hn & E)|(Hgr & _ & _ & [[E1 E2]|(E1 & E2 & Hlw)])].
  - rewrite He; simpl. rewrite bool_decide_eq_true_2 by done; simpl.
    destruct (evaluate_allowed_window _ _ _ _ _ Hok Hn E)
      as [(E1 & E2 & Hle & _)|(E1 & E2 & Hnz & Hle & _)].
    + assert (total_granted key lo hi ds ≤ MaxActionsPerWindow c - n).
      { rewrite <-E2. apply Hlive; try done; [congruence|lia|apply Hok'; [lia|done]|lia|lia]. }
      destruct (_ && _); lia.
    + rewrite E1, E2 in IH. apply Z.eqb_neq in Hnz. unfold IsZero in *. rewrite Hnz in *.
      assert (total_granted key lo hi ds ≤
        MaxActionsPerWindow c - (windowCount (state_of g key) + n) + MaxActionsPerWindow c).
      { apply IH; try done; [congruence|lia|lia|apply Hok'; [lia|done]]. }
      destruct (_ && _); lia.
  - rewrite Hgr. rewrite E1, E2 in IH. apply IH; try done; [congruence|lia|lia|apply Hok'; [lia|done]].
  - rewrite Hgr. rewrite E1 in IH. unfold IsZero at 1 in IH. rewrite Z.eqb_refl in IH.
    assert (total_granted key lo hi ds ≤ 0 + MaxActionsPerWindow c).
    { apply IH; try done; [congruence|lia|lia|apply Hok'; [lia|done]]. }
    lia.
Qed.

Lemma granted_bound g evs key lo t :
  cfg g = c → zero_time < t → clocked t evs → window_ok c (state_of g key) →
  total_granted key lo (lo + Window c) (run g evs).2 ≤ 2 * MaxActionsPerWindow c.
Proof.
  revert g t. induction evs as [|e evs IH]; intros g t Hg Ht Hclk Hok;
    [destruct Hc; simpl; lia|].
  destruct (decide (lo ≤ at_time e)) as [Hlo|Hlo]; destruct Hclk as [Hte Hclk].
  - etrans; [apply (granted_any g (e :: evs) key lo _ (at_time e)); try done; [lia|simpl; auto with lia..]|].
    destruct Hok. unfold budget_left. case_match; lia.
  - pose proof (step_window_ok g e key Hg) as Hok'. pose proof (step_cfg g e) as Hg'. simpl.
    destruct (step g e) as [g' d]; simpl in *. specialize (IH g' (at_time e)).
    destruct (run g' evs) as [g'' ds]; simpl in *.
    assert (total_granted key lo (lo + Window c) ds ≤ 2 * MaxActionsPerWindow c).
    { apply IH; try done; [congruence|lia|apply Hok'; [lia|done]]. }
    assert (granted key lo (lo + Window c) (e, d) = 0) as Hz; [|unfold granted in Hz; rewrite Hz; lia].
    destruct e as [now k [score n| |]]; simpl in *; try done. destruct d; [|done].
    rewrite (proj2 (Z.leb_gt lo now)) by lia. by rewrite andb_false_r.
Qed.
(** ** Cooldown *)

(** [ed] is an allowed commit of [key]. *)
Definition grants (key : string) (ed : Event * Decision) : Prop :=
  ∃ t score n, ed = (mkEvent t key (DoCommit score n), Allowed).

Lemma grants_after g evs key t i ed :
  cfg g = c → 0 < Cooldown c → zero_time < t → clocked t evs →
  lastAction (state_of g key) ≠ zero_time →
  (run g evs).2 !! i = Some ed → grants key ed →
  Cooldown c ≤ at_time ed.1 - lastAction (state_of g key).
Proof.
  revert g t i. induction evs as [|e evs IH]; intros g t i Hg HC Ht Hclk Hla Hi Hgr; [done|].
  destruct Hclk as [Hte Hclk]. simpl in Hi.
  pose proof (step_spec g e key Hg) as Hs. pose proof (step_cfg g e) as Hg'.
  destruct (step g e) as [g' d]; simpl in *. specialize (IH g' (at_time e)).
  destruct (run g' evs) as [g'' ds]; simpl in *.
  destruct Hs as [(score & n & He & -> & Hn & E)|(_ & Hno & El & _)].
  - destruct (evaluate_allowed_gates _ _ _ _ _ E) as (E1 & E2 & _).
    destruct (E2 HC) as [|Hle]; [done|]. destruct i as [|i]; simpl in Hi; [injection Hi as <-; done|].
    assert (Cooldown c ≤ at_time ed.1 - lastAction (state_of g' key)); [|lia].
    eapply IH; try done; [congruence|lia|lia].
  - destruct i as [|i]; simpl in Hi; [injection Hi as <-|].
    + destruct Hgr as (t' & score & n & [= -> ->]). by destruct (Hno score n).
    + rewrite <-El in *. eapply IH; try done; [congruence|lia].
Qed.

Lemma grants_spaced g evs key t i j ed1 ed2 :
  cfg g = c → 0 < Cooldown c → zero_time < t → clocked t evs →
  (run g evs).2 !! i = Some ed1 → (run g evs).2 !! j = Some ed2 →
  (i < j)%nat → grants key ed1 → grants key ed2 →
  Cooldown c ≤ at_time ed2.1 - at_time ed1.1.
Proof.
  revert g t i j. induction evs as [|e evs IH]; intros g t i j Hg HC Ht Hclk Hi Hj Hij H1 H2; [done|].
  destruct Hclk as [Hte Hclk]. simpl in Hi, Hj.
  pose proof (step_spec g e key Hg) as Hs. pose proof (step_cfg g e) as Hg'.
  destruct (step g e) as [g' d]; simpl in *. specialize (IH g' (at_time e)).
  pose proof (grants_after g' evs key (at_time e)) as Hafter.
  destruct (run g' evs) as [g'' ds]; simpl in *.
  destruct j as [|j]; [lia|]. simpl in Hj. destruct i as [|i]; simpl in Hi; [injection Hi as <-|].
  - destruct H1 as (t1 & s1 & n1 & [= -> ->]).
    destruct Hs as [(score & n & He & _ & Hn & E)|(_ & Hno & _)]; [|by destruct (Hno s1 n1)].
    destruct (evaluate_allowed_gates _ _ _ _ _ E) as (E1 & _). simpl in *. rewrite <-E1.
    eapply Hafter; try done; [congruence|lia|lia].
  - eapply (IH i j); try done; [congruence|lia|lia].
Qed.

(** ** The circuit breaker *)

Lemma evaluate_open st now score n :
  breakerOpened st ≠ zero_time → now - breakerOpened st < BreakerResetAfter c →
  (evaluateLocked c st now score n).1 = Denied CIRCUIT_OPEN.
Proof.
  intros Hnz Hlt. destruct Hc. unfold evaluateLocked.
  destruct (normalize_spec st now) as [Hbr _]. decide_in Hbr as Hd; [lia|].
  injection Hbr as -> _. rewrite not_elapsed_spec, IsZero_spec by done.
  by rewrite bool_decide_eq_false_2, bool_decide_eq_true_2 by done.
Qed.

(** Until the reset time passes, only an [Accept] can close an open breaker. *)
Lemma step_breaker g e key b :
  cfg g = c → zero_time < b → b ≤ at_time e → at_time e - b < BreakerResetAfter c →
  b ≤ breakerOpened (state_of g key) →
  (on_key e = key → call e ≠ DoAccept) →
  b ≤ breakerOpened (state_of (step g e).1 key).
Proof.
  intros Hg Hb Hbe Hlt Hop Hna. destruct e as [now k [score n| |]]; unfold step; cbn [call at_time on_key] in *.
  - unfold CommitN. rewrite Hg.
    destruct (negb _); [done|]. destruct (decide (k = "")); [done|]. destruct (n <? 1); [done|].
    destruct (evaluateLocked c (state_of g k) now score n) as [[|r] st'] eqn:E; [simpl|done].
    rewrite state_of_insert. case_decide; [subst k|done].
    pose proof (evaluate_open (state_of g key) now score n) as Hopen.
    match goal with E : evaluateLocked _ _ _ _ _ = _ |- _ => rewrite E in Hopen end.
    discriminate Hopen; lia.
  - unfold Reject. rewrite Hg. destruct (_ || _); [done|]. simpl.
    rewrite state_of_insert. case_decide; [subst k|done].
    destruct (normalize_spec (state_of g key) now) as [Hbr _].
    decide_in Hbr as Hd; [lia|]. injection Hbr as E _. case_match; simpl; lia.
  - unfold Accept. rewrite Hg. destruct (_ || _); [done|]. simpl.
    rewrite state_of_insert. case_decide; [subst k|done]. by destruct Hna.
Qed.

Lemma run_breaker g evs key b t :
  cfg g = c → zero_time < b → b ≤ t → clocked t evs →
  Forall (λ e, at_time e - b < BreakerResetAfter c ∧ (on_key e = key → call e ≠ DoAccept)) evs →
  b ≤ breakerOpened (state_of g key) →
  cfg (run g evs).1 = c ∧ b ≤ breakerOpened (state_of (run g evs).1 key).
Proof.
  revert g t. induction evs as [|e evs IH]; intros g t Hg Hb Hbt Hclk Hall Hop; [done|].
  destruct Hclk as [Hte Hclk]. apply Forall_cons in Hall as [[He Hna] Hall]. simpl.
  pose proof (step_breaker g e key b Hg Hb ltac:(lia) He Hop Hna) as Hop'.
  pose proof (step_cfg g e) as Hg'. destruct (step g e) as [g' d]; simpl in *.
  specialize (IH g' (at_time e)). destruct (run g' evs) as [g'' ds]; simpl in *.
  apply IH; try done; [congruence|lia].
Qed.
End Guard.

(** ** Properties *)

(** The action budget limits the rate.  On a guard made by [NewGuard], whatever
    the calls on whatever keys, any interval no longer than the configured window
    contains at most twice the window's budget of actions granted for a key: the
    interval meets at most two windows, and neither grants more than its budget. *)
Theorem budget_bounds_rate c evs key t lo :
  let cf := guard_defaults c in
  well_configured cf → zero_time < t → clocked t evs →
  total_granted key lo (lo + Window cf) (run (NewGuard c) evs).2 ≤ 2 * MaxActionsPerWindow cf.
Proof.
  intros cf Hc Ht Hclk. eapply granted_bound; try done.
  unfold state_of; simpl. rewrite lookup_empty; simpl.
  destruct Hc. split; simpl; [lia|done].
Qed.

(** Cooldown separates actions.  In any sequence of calls on a guard, two
    actions granted for the same key are at least the cooldown apart, whatever
    other calls happened in between. *)
Theorem cooldown_spaces_actions g evs key t i j ed1 ed2 :
  well_configured (cfg g) → 0 < Cooldown (cfg g) → zero_time < t → clocked t evs →
  (run g evs).2 !! i = Some ed1 → (run g evs).2 !! j = Some ed2 → (i < j)%nat →
  grants key ed1 → grants key ed2 →
  Cooldown (cfg g) ≤ at_time ed2.1 - at_time ed1.1.
Proof. intros. by eapply grants_spaced. Qed.

(** The circuit breaker protects.  Once rejections of a key reach the
    threshold, every later commit for it before the reset time is denied with
    [CIRCUIT_OPEN], whatever calls happen in between as long as none of them
    accepts the key; and the denied commit does not change the guard. *)
Theorem breaker_denies_until_reset g key t evs now score n :
  let g1 := Reject g t key in
  let g2 := (run g1 evs).1 in
  well_configured (cfg g) → zero_time < t → key ≠ "" → 1 ≤ n →
  BreakerThreshold (cfg g) ≤ breakerCount (state_of g1 key) →
  clocked t evs → Forall (λ e, at_time e ≤ now ∧ (on_key e = key → call e ≠ DoAccept)) evs →
  t ≤ now < t + BreakerResetAfter (cfg g) →
  CommitN g2 now key score n = (g2, Denied CIRCUIT_OPEN).
Proof.
  intros g1 g2 Hc Ht Hk Hn Hthr Hclk Hall Hnow.
  assert (Hcfg : cfg g1 = cfg g) by (unfold g1, Reject; by repeat case_match).
  assert (Hop : t ≤ breakerOpened (state_of g1 key)).
  { revert Hthr. unfold g1, Reject. rewrite (wc_enabled _ Hc), bool_decide_eq_false_2 by done.
    simpl. rewrite !state_of_insert, !decide_True by done.
    case_match eqn:E; simpl; bool_props; lia. }
  destruct (run_breaker (cfg g) Hc g1 evs key t t) as [Hcfg2 Hop2]; try done.
  { eapply Forall_impl; [exact Hall|]. simpl. intros e [? ?]. split; [lia|done]. }
  fold g2 in Hcfg2, Hop2. unfold CommitN.
  rewrite Hcfg2, (wc_enabled _ Hc), decide_False by done. simpl.
  rewrite (proj2 (Z.ltb_ge n 1)) by lia.
  pose proof (evaluate_open (cfg g) Hc (state_of g2 key) now score n ltac:(lia) ltac:(lia)) as E.
  by destruct (evaluateLocked _ _ _ _ _) as [d st]; simpl in E; subst.
Qed.

(** [CheckN] predicts [CommitN] and costs nothing.  They decide alike in
    every state; a denied commit leaves the guard as it was, and an allowed one on
    an enabled guard changes only the state of its key. *)
Theorem CommitN_spec g now key score n :
  (CommitN g now key score n).2 = CheckN g now key score n ∧
  (CheckN g now key score n ≠ Allowed ∨ Enabled (cfg g) = false →
     (CommitN g now key score n).1 = g) ∧
  cfg (CommitN g now key score n).1 = cfg g ∧
  (∀ k, k ≠ key → gstate (CommitN g now key score n).1 !! k = gstate g !! k).
Proof.
  unfold CommitN, CheckN.
  destruct (Enabled (cfg g)); simpl; [|done]. case_decide; [naive_solver|].
  destruct (n <? 1); [naive_solver|].
  destruct (evaluateLocked _ _ _ _ _) as [[|r] st]; simpl; split_and!; try done; [naive_solver|].
  intros k Hk. by rewrite lookup_insert_ne.
Qed.

(** *** Witnesses: two actions per ten seconds, one second of cooldown *)

Definition example_config : Config :=
  mkConfig true Second f0 2 (10 * Second) 2 (5 * Second).

Lemma example_configured : well_configured example_config.
Proof. by split; simpl; vm_compute; try split. Qed.

Definition example_calls : list Event :=
  [mkEvent 0 "a" (DoCommit f1 1); mkEvent Second "a" (DoCommit f1 1);
   mkEvent (9 * Second) "a" (DoCommit f1 1); mkEvent (10 * Second) "a" (DoCommit f1 2)].

Lemma budget_bounds_rate_witness :
  total_granted "a" 0 (10 * Second) (run (NewGuard example_config) example_calls).2 ≤ 2 * 2.
Proof.
  apply (budget_bounds_rate example_config example_calls "a" 0 0);
    [exact example_configured|done|by vm_compute].
Defined.

Lemma cooldown_spaces_actions_witness :
  Cooldown example_config ≤ at_time (mkEvent (10 * Second) "a" (DoCommit f1 2)) - at_time (mkEvent Second "a" (DoCommit f1 1)).
Proof.
  apply (cooldown_spaces_actions (NewGuard example_config) example_calls "a" 0 1 3
    (mkEvent Second "a" (DoCommit f1 1), Allowed) (mkEvent (10 * Second) "a" (DoCommit f1 2), Allowed));
    [exact example_configured|first [by vm_compute|lia]..| |].
  - by exists Second, f1, 1.
  - by exists (10 * Second), f1, 2.
Defined.

Definition example_rejected : Guard := Reject (NewGuard example_config) 0 "a".

Lemma breaker_denies_until_reset_witness :
  CommitN (run (Reject example_rejected Second "a") [mkEvent (2 * Second) "a" DoReject]).1
    (5 * Second) "a" f1 1 =
  ((run (Reject example_rejected Second "a") [mkEvent (2 * Second) "a" DoReject]).1, Denied CIRCUIT_OPEN).
Proof.
  apply (breaker_denies_until_reset example_rejected "a" Second [mkEvent (2 * Second) "a" DoReject]
    (5 * Second) f1 1); [exact example_configured|by vm_compute..| |by vm_compute].
  repeat constructor; by vm_compute.
Defined.

(** A second action within the cooldown is denied; [CheckN] agrees. *)
Lemma CommitN_spec_witness :
  let g := (CommitN (NewGuard example_config) 0 "a" f1 1).1 in
  (CommitN g 1 "a" f1 1).1 = g ∧ CheckN g 1 "a" f1 1 = Denied COOLDOWN.
Proof.
  cbn zeta. split; [|by vm_compute].
  apply (CommitN_spec (CommitN (NewGuard example_config) 0 "a" f1 1).1 1 "a" f1 1). left. by vm_compute.
Defined.
