(* ===== verification/SemVer.v ===== *)
(** * Semantic versions ([scheduler-go/semantics/versions.go], syntax and order)

    Parsing, printing and comparing the versions of protocols and components.
    The parser accepts two-component legacy versions and a leading [v] and [V];
    the printer always writes three components. *)

From Stdlib Require Import ZArith Lia Ascii.
From S2P Require Import Prelude GoStrings.
From stdpp Require Import options.

Local Open Scope Z_scope.

Record semanticVersion := mkVersion {
  major : Z;
  minor : Z;
  patch : Z;
  prerelease : list string;
  build : list string;
}.

#[export] Instance semanticVersion_eq_dec : EqDecision semanticVersion.
Proof. solve_decision. Defined.

(** The distinct error messages of [parseSemanticVersion]. *)
Inductive VersionError :=
| VersionNotCanonical | BuildInvalid | ComponentCount | ComponentInvalid | PrereleaseInvalid.

#[export] Instance VersionError_eq_dec : EqDecision VersionError.
Proof. solve_decision. Defined.

Definition dot : string := ".".

(** ** Parsing *)

Definition validNumericIdentifier (value : string) : bool :=
  match chars value with
  | [] => false
  | c :: l => negb (Ascii.eqb c "0" && negb (bool_decide (l = []))) && forallb is_digit (c :: l)
  end.

Definition identifier_char (c : ascii) : bool :=
  is_digit c || is_upper c || is_lower c || Ascii.eqb c "-".

Definition validVersionIdentifier (pre : bool) (value : string) : bool :=
  match chars value with
  | [] => false
  | c :: l =>
      forallb identifier_char (c :: l) &&
      negb (pre && forallb is_digit (c :: l) && negb (bool_decide (l = [])) && Ascii.eqb c "0")
  end.

Definition validVersionIdentifiers (values : list string) (pre : bool) : bool :=
  negb (bool_decide (values = [])) && forallb (validVersionIdentifier pre) values.

(** [strconv.ParseUint(part, 10, 32)] *)
Definition ParseUint32 (part : string) : option Z :=
  let ds := chars part in
  if negb (bool_decide (ds = [])) && forallb is_digit ds && (digits_value ds <? two32)
  then Some (digits_value ds) else None.

Definition parse_component (part : string) : Result VersionError Z :=
  _ ← guard_err (validNumericIdentifier part) ComponentInvalid;
  match ParseUint32 part with Some n => Ok n | None => Err ComponentInvalid end.

Fixpoint parse_components (parts : list string) : Result VersionError (list Z) :=
  match parts with
  | [] => Ok []
  | p :: ps => n ← parse_component p; ns ← parse_components ps; Ok (n :: ns)
  end.

Definition parse_identifiers (part : option string) (pre : bool) (e : VersionError) :
    Result VersionError (list string) :=
  match part with
  | None => Ok []
  | Some part =>
      let ids := Split part "." in
      if validVersionIdentifiers ids pre then Ok ids else Err e
  end.

Definition parseSemanticVersion (value : string) : Result VersionError semanticVersion :=
  _ ← guard_err (negb (bool_decide (value = "")) && bool_decide (value = TrimSpace value)) VersionNotCanonical;
  let value := TrimPrefix (TrimPrefix value "v") "V" in
  let '(coreAndPre, buildPart) := Cut value "+" in
  _ ← guard_err (match buildPart with
                 | Some b => negb (bool_decide (b = "") || Contains_byte b "+")
                 | None => true end) BuildInvalid;
  let '(core, prereleasePart) := Cut coreAndPre "-" in
  let parts := Split core "." in
  _ ← guard_err ((length parts =? 2)%nat || (length parts =? 3)%nat) ComponentCount;
  values ← parse_components parts;
  pre ← parse_identifiers prereleasePart true PrereleaseInvalid;
  bld ← parse_identifiers buildPart false BuildInvalid;
  Ok (mkVersion (nth 0 values 0) (nth 1 values 0) (nth 2 values 0) pre bld).

(** ** Printing *)

Definition print_core (v : semanticVersion) : string :=
  FormatUint (major v) +:+ dot +:+ FormatUint (minor v) +:+ dot +:+ FormatUint (patch v).

Definition print_prerelease (v : semanticVersion) : string :=
  match prerelease v with [] => "" | _ => "-" +:+ Join (prerelease v) dot end.

Definition print_build (v : semanticVersion) : string :=
  match build v with [] => "" | _ => "+" +:+ Join (build v) dot end.

Definition print_version (v : semanticVersion) : string :=
  (print_core v +:+ print_prerelease v) +:+ print_build v.

Definition normalizeVersion (value : string) : Result VersionError string :=
  print_version <$> parseSemanticVersion value.

Definition NormalizeSemanticVersion := normalizeVersion.

(** ** Precedence *)

Definition numericPrerelease (value : string) : bool :=
  all_chars is_digit value && negb (bool_decide (value = "")).

(** One step of the prerelease loop: 0 is [continue]. *)
Definition compareIdentifier (l r : string) : Z :=
  if decide (l = r) then 0 else
  match numericPrerelease l, numericPrerelease r with
  | true, false => -1
  | false, true => 1
  | true, true =>
      if (String.length l <? String.length r)%nat ||
         ((String.length l =? String.length r)%nat && str_ltb l r) then -1 else 1
  | false, false => if str_ltb l r then -1 else 1
  end.

Fixpoint comparePrerelease (l r : list string) : Z :=
  match l, r with
  | [], [] => 0
  | [], _ => -1
  | _, [] => 1
  | x :: l, y :: r => let d := compareIdentifier x y in if d =? 0 then comparePrerelease l r else d
  end.

Definition comparePair (a b : Z) : Z := if a <? b then -1 else if b <? a then 1 else 0.

Definition compareSemanticVersions (l r : semanticVersion) : Z :=
  let d := comparePair (major l) (major r) in if negb (d =? 0) then d else
  let d := comparePair (minor l) (minor r) in if negb (d =? 0) then d else
  let d := comparePair (patch l) (patch r) in if negb (d =? 0) then d else
  match prerelease l, prerelease r with
  | [], [] => 0
  | [], _ => 1
  | _, [] => -1
  | pl, pr => comparePrerelease pl pr
  end.

(** ** Compatibility *)

Definition protocolCompatible (current required : string) : bool :=
  match parseSemanticVersion current, parseSemanticVersion required with
  | Ok actual, Ok minimum =>
      (major actual =? major minimum) && negb (compareSemanticVersions actual minimum <? 0) &&
      (if major actual =? 0 then minor actual =? minor minimum else true)
  | _, _ => false
  end.

Definition VersionsCompatible := protocolCompatible.

Definition versionsSemanticallyEqual (l r : string) : bool :=
  bool_decide (l = r) ||
  match normalizeVersion l, normalizeVersion r with
  | Ok a, Ok b => bool_decide (a = b)
  | _, _ => false
  end.

Example parse_legacy : normalizeVersion "v1.20" = Ok "1.20.0".
Proof. vm_compute. reflexivity. Qed.

Example parse_full : normalizeVersion "1.2.3-rc.1+b-7" = Ok "1.2.3-rc.1+b-7".
Proof. vm_compute. reflexivity. Qed.

Example parse_zero : normalizeVersion "1.02.3" = Err ComponentInvalid.
Proof. vm_compute. reflexivity. Qed.

(** ** Well-formed versions: the values the parser can return *)

Record wf_version (v : semanticVersion) : Prop := {
  wf_major : is_u32 (major v);
  wf_minor : is_u32 (minor v);
  wf_patch : is_u32 (patch v);
  wf_pre : prerelease v = [] ∨ validVersionIdentifiers (prerelease v) true = true;
  wf_build : build v = [] ∨ validVersionIdentifiers (build v) false = true;
}.

Lemma digits_value_nonneg ds : forallb is_digit ds = true → 0 ≤ digits_value ds.
Proof.
  unfold digits_value. intros H.
  enough (∀ acc, 0 ≤ acc → 0 ≤ foldl (λ acc c, acc * 10 + (code c - 48)) acc ds) by auto with lia.
  induction ds as [|d ds IH]; simpl in *; [done|].
  apply andb_true_iff in H as [Hd H]. intros acc Hacc. apply IH; [done|].
  unfold is_digit in Hd. bool_props. lia.
Qed.

Lemma parse_component_Ok part n : parse_component part = Ok n → is_u32 n.
Proof.
  unfold parse_component, ParseUint32. intros (_ & _ & H)%bind_Ok.
  destruct (_ && _) eqn:E; simplify_eq. bool_props. split; [by apply digits_value_nonneg|done].
Qed.

Lemma parse_components_Ok parts ns :
  parse_components parts = Ok ns → length ns = length parts ∧ Forall is_u32 ns.
Proof.
  revert ns. induction parts as [|p ps IH]; simpl; intros ns.
  - intros [= <-]. by split.
  - intros (n & Hn%parse_component_Ok & (ns' & Hns & [= <-])%bind_Ok)%bind_Ok.
    destruct (IH _ Hns) as [<- ?]. split; [done|by constructor].
Qed.

Lemma parse_identifiers_Ok part pre e ids :
  parse_identifiers part pre e = Ok ids → ids = [] ∨ validVersionIdentifiers ids pre = true.
Proof. unfold parse_identifiers. destruct part; [case_match|]; naive_solver. Qed.

Lemma parse_wf s v : parseSemanticVersion s = Ok v → wf_version v.
Proof.
  unfold parseSemanticVersion. intros (_ & _ & H)%bind_Ok.
  destruct (Cut _ "+") as [coreAndPre bp]. apply bind_Ok in H as (_ & _ & H).
  destruct (Cut _ "-") as [core pp]. apply bind_Ok in H as (_ & _ & H).
  apply bind_Ok in H as (ns & Hns & (pre & Hp & (bld & Hb & [= <-])%bind_Ok)%bind_Ok).
  apply parse_components_Ok in Hns as [_ Hns].
  assert (Hnth : ∀ i, is_u32 (nth i ns 0)).
  { intros i. destruct (nth_in_or_default i ns 0) as [Hin | ->]; [|done].
    rewrite Forall_forall in Hns. apply Hns. by apply list_elem_of_In. }
  split; simpl; eauto using parse_identifiers_Ok.
Qed.

(** ** Parsing what was printed *)

Lemma valid_numeric_FormatUint n : 0 ≤ n → validNumericIdentifier (FormatUint n) = true.
Proof.
  intros Hn. destruct (FormatUint_spec n Hn) as [(Hne & Hd & Hz) _].
  unfold validNumericIdentifier. destruct (chars (FormatUint n)) as [|c l]; [done|].
  rewrite Hd, andb_true_r. destruct (Ascii.eqb_spec c "0"); [|done]; subst.
  by injection (Hz eq_refl) as ->.
Qed.

Lemma parse_component_FormatUint n : is_u32 n → parse_component (FormatUint n) = Ok n.
Proof.
  intros [Hn Hlt]. unfold parse_component. rewrite valid_numeric_FormatUint by done. simpl.
  destruct (FormatUint_spec n Hn) as [(Hne & Hd & _) Hv]. unfold ParseUint32.
  rewrite Hv, Hd, (proj2 (Z.ltb_lt _ _) Hlt). by rewrite bool_decide_eq_false_2.
Qed.

(** Every character of a printed version outside its separators. *)
Lemma identifier_char_facts c :
  identifier_char c = true →
  is_graphic c = true ∧ c ≠ "+"%char ∧ c ≠ "."%char ∧ (c ≠ "-"%char → is_digit c || is_upper c || is_lower c = true).
Proof.
  intros H. split_and!; [|by intros ->..|].
  - unfold identifier_char, is_digit, is_upper, is_lower, is_graphic in *.
    destruct (Ascii.eqb_spec c "-"); [subst; by vm_compute|]. lia.
  - unfold identifier_char in H. by destruct (Ascii.eqb_spec c "-"); rewrite ?orb_false_r in H.
Qed.

Lemma is_digit_facts c : is_digit c = true → identifier_char c = true ∧ c ≠ "-"%char.
Proof. intros H. split; [by unfold identifier_char; rewrite H|by intros ->]. Qed.

(** Strings over the characters satisfying [P]. *)
Definition over (P : ascii → Prop) (s : string) : Prop := Forall P (chars s).

Lemma over_app P s1 s2 : over P (s1 +:+ s2) ↔ over P s1 ∧ over P s2.
Proof. unfold over. by rewrite chars_app, Forall_app. Qed.

Lemma over_Join P parts sep :
  over P sep → Forall (over P) parts → over P (Join parts sep).
Proof.
  intros Hs. induction 1 as [|p ps Hp Hps IH]; [by constructor|].
  destruct ps; [done|]. change (over P (p +:+ sep +:+ Join (s :: ps) sep)).
  rewrite !over_app. auto.
Qed.

Lemma over_impl (P Q : ascii → Prop) s : (∀ c, P c → Q c) → over P s → over Q s.
Proof. unfold over. eauto using Forall_impl. Qed.

Lemma over_sep_free P c s : ¬ P c → over P s → sep_free c s.
Proof. unfold over, sep_free. rewrite Forall_forall. naive_solver. Qed.

Definition idc (c : ascii) : Prop := identifier_char c = true.
Definition digit (c : ascii) : Prop := is_digit c = true.

Lemma FormatUint_digits n : 0 ≤ n → over digit (FormatUint n).
Proof.
  intros Hn. destruct (FormatUint_spec n Hn) as [(_ & Hd & _) _].
  unfold over, digit. apply Forall_forall. intros c Hc. rewrite forallb_forall in Hd.
  apply Hd. by apply list_elem_of_In.
Qed.

Lemma valid_identifiers_over ids pre :
  validVersionIdentifiers ids pre = true → ids ≠ [] ∧ Forall (over idc) ids.
Proof.
  unfold validVersionIdentifiers. intros [Hne H]%andb_true_iff. split; [by bool_props|].
  apply Forall_forall. intros s Hs. rewrite forallb_forall in H.
  specialize (H s). rewrite <-list_elem_of_In in H. specialize (H Hs).
  unfold validVersionIdentifier, over in *. destruct (chars s) as [|c l]; [done|].
  apply andb_true_iff in H as [H _]. apply Forall_forall. intros d Hd.
  rewrite forallb_forall in H. apply H. by apply list_elem_of_In.
Qed.

Lemma sep_free_sep c d : c ≠ d → sep_free c (String d EmptyString).
Proof. unfold sep_free; simpl. set_solver. Qed.

Lemma sep_free_app c s1 s2 : sep_free c (s1 +:+ s2) ↔ sep_free c s1 ∧ sep_free c s2.
Proof. unfold sep_free. rewrite chars_app. set_solver. Qed.

(** The text of a core, a prerelease and a build part never contains the
    separator that ends it. *)
Lemma print_core_over v : wf_version v → over (λ c, is_digit c = true ∨ c = "."%char) (print_core v).
Proof.
  intros []. unfold print_core. rewrite !over_app.
  assert (Hd : ∀ n, is_u32 n → over (λ c, is_digit c = true ∨ c = "."%char) (FormatUint n)).
  { intros n [Hn _]. eapply over_impl; [|by apply FormatUint_digits]. by left. }
  assert (over (λ c, is_digit c = true ∨ c = "."%char) dot) by (repeat constructor; by right).
  split_and!; auto.
Qed.

Lemma Join_ids_over ids pre :
  validVersionIdentifiers ids pre = true → over (λ c, idc c ∨ c = "."%char) (Join ids dot).
Proof.
  intros [_ H]%valid_identifiers_over. apply over_Join; [repeat constructor; by right|].
  eapply Forall_impl; [done|]. intros s. apply over_impl. by left.
Qed.

Lemma Split_Join_ids ids pre :
  validVersionIdentifiers ids pre = true → Split (Join ids dot) "." = ids.
Proof.
  intros [Hne H]%valid_identifiers_over. apply Split_Join; [done|].
  eapply Forall_impl; [done|]. intros s Hs. eapply over_sep_free, Hs. by intros ?.
Qed.

Lemma parse_identifiers_Join ids pre e :
  validVersionIdentifiers ids pre = true → parse_identifiers (Some (Join ids dot)) pre e = Ok ids.
Proof. intros H. unfold parse_identifiers. by rewrite (Split_Join_ids _ _ H), H. Qed.

Lemma Join_ids_nonempty ids pre : validVersionIdentifiers ids pre = true → Join ids dot ≠ "".
Proof.
  intros H E. pose proof (Split_Join_ids _ _ H) as Hs. rewrite E in Hs. simpl in Hs. by subst.
Qed.

Lemma over_plus_free P s : (∀ c, P c → c ≠ "+"%char) → over P s → sep_free "+" s.
Proof. intros HP. apply over_sep_free. intros H. by apply (HP _ H). Qed.

(** Printing begins with a digit and contains only graphic characters. *)
Lemma print_version_graphic v : wf_version v → all_chars is_graphic (print_version v) = true.
Proof.
  intros Hwf. assert (over (λ c, is_graphic c = true) (print_version v)) as H.
  { assert (Hid : ∀ c, idc c ∨ c = "."%char → is_graphic c = true).
    { intros c [Hc| ->]; [by apply identifier_char_facts|by vm_compute]. }
    unfold print_version, print_prerelease, print_build. rewrite !over_app. split_and!.
    - eapply over_impl, print_core_over, Hwf. intros c [Hc|Hc]; apply Hid; [|by right].
      left. by apply is_digit_facts.
    - destruct Hwf as [_ _ _ [->|Hp] _]; [by constructor|].
      destruct (prerelease v); [by constructor|]. rewrite over_app.
      split; [repeat constructor; by vm_compute|]. eapply over_impl, Join_ids_over, Hp. done.
    - destruct Hwf as [_ _ _ _ [->|Hp]]; [by constructor|].
      destruct (build v); [by constructor|]. rewrite over_app.
      split; [repeat constructor; by vm_compute|]. eapply over_impl, Join_ids_over, Hp. done. }
  unfold all_chars. apply forallb_forall. intros c Hc. unfold over in H.
  rewrite Forall_forall in H. apply H. by apply list_elem_of_In.
Qed.

Lemma TrimPrefix_digit n s p :
  0 ≤ n → is_digit p = false →
  TrimPrefix (FormatUint n +:+ s) (String p EmptyString) = FormatUint n +:+ s.
Proof.
  intros Hn Hp. destruct (FormatUint_spec n Hn) as [(Hne & Hd & _) _].
  unfold TrimPrefix. rewrite chars_app. destruct (chars (FormatUint n)) as [|c l]; [done|].
  simpl in *. apply andb_true_iff in Hd as [Hc _].
  destruct (Ascii.eqb_spec p c); [congruence|done].
Qed.

Lemma app_string_assoc (a b c : string) : a +:+ (b +:+ c) = (a +:+ b) +:+ c.
Proof.
  induction a as [|x a IH]; [done|].
  change (String x (a +:+ (b +:+ c)) = String x ((a +:+ b) +:+ c)). by rewrite IH.
Qed.

Lemma app_string_nil (a : string) : a +:+ "" = a.
Proof. induction a as [|x a IH]; [done|]. change (String x (a +:+ "") = String x a). by rewrite IH. Qed.

Lemma parse_print_core v :
  wf_version v →
  Split (print_core v) "." = [FormatUint (major v); FormatUint (minor v); FormatUint (patch v)] ∧
  parse_components (Split (print_core v) ".") = Ok [major v; minor v; patch v].
Proof.
  intros []. assert (Hs : Split (print_core v) "." = [FormatUint (major v); FormatUint (minor v); FormatUint (patch v)]).
  { unfold print_core. apply (Split_Join "." [FormatUint (major v); FormatUint (minor v); FormatUint (patch v)]); [done|].
    assert (Hd : ∀ n, is_u32 n → sep_free "." (FormatUint n)).
    { intros n [Hn _]. eapply over_sep_free, FormatUint_digits, Hn. by intros ?. }
    repeat constructor; auto. }
  split; [done|]. rewrite Hs. simpl. by rewrite !parse_component_FormatUint.
Qed.

(** The parts that [strings.Cut] finds in a printed version. *)
Definition joined (ids : list string) : option string :=
  match ids with [] => None | _ => Some (Join ids dot) end.

Lemma Cut_suffix c s ids :
  sep_free c s →
  Cut (s +:+ match ids with [] => "" | _ => String c EmptyString +:+ Join ids dot end) c = (s, joined ids).
Proof.
  intros Hs. destruct ids as [|x ids]; simpl.
  - rewrite app_string_nil. by apply Cut_free.
  - by apply (Cut_app c s (Join (x :: ids) dot)).
Qed.

Lemma Cut_print_build v :
  wf_version v → Cut (print_version v) "+" = (print_core v +:+ print_prerelease v, joined (build v)).
Proof.
  intros Hwf. apply (Cut_suffix "+" (print_core v +:+ print_prerelease v) (build v)).
  rewrite sep_free_app. split.
  - eapply over_sep_free, print_core_over, Hwf. by intros [?|?].
  - unfold print_prerelease. destruct (wf_pre _ Hwf) as [->|Hp]; [unfold sep_free; simpl; set_solver|].
    destruct (prerelease v) eqn:E; [unfold sep_free; simpl; set_solver|].
    rewrite sep_free_app. split; [by apply sep_free_sep|].
    eapply over_sep_free, Join_ids_over, Hp. by intros [?|?].
Qed.

Lemma Cut_print_prerelease v :
  wf_version v → Cut (print_core v +:+ print_prerelease v) "-" = (print_core v, joined (prerelease v)).
Proof.
  intros Hwf. apply (Cut_suffix "-" (print_core v) (prerelease v)). eapply over_sep_free, print_core_over, Hwf. by intros [?|?].
Qed.

Lemma parse_identifiers_joined ids pre e :
  ids = [] ∨ validVersionIdentifiers ids pre = true → parse_identifiers (joined ids) pre e = Ok ids.
Proof.
  intros [->|H]; [done|]. destruct ids as [|i ids]; [done|]. exact (parse_identifiers_Join _ _ _ H).
Qed.

Lemma joined_build_ok ids :
  ids = [] ∨ validVersionIdentifiers ids false = true →
  match joined ids with Some b => negb (bool_decide (b = "") || Contains_byte b "+") | None => true end = true.
Proof.
  intros [->|H]; [done|]. destruct ids as [|i ids]; [done|]. cbn [joined].
  rewrite bool_decide_eq_false_2 by exact (Join_ids_nonempty _ _ H).
  rewrite (proj2 (Contains_byte_false _ _)); [done|].
  eapply over_sep_free, Join_ids_over, H. by intros [?|?].
Qed.

Lemma print_version_head v :
  wf_version v →
  print_version v ≠ "" ∧ TrimPrefix (TrimPrefix (print_version v) "v") "V" = print_version v.
Proof.
  intros [Hma _ _ _ _]. assert (Hshape : ∃ s, print_version v = FormatUint (major v) +:+ s).
  { unfold print_version, print_core. rewrite <-!app_string_assoc. by eexists. }
  destruct Hshape as [s ->]. destruct (FormatUint_spec (major v) (proj1 Hma)) as [(Hne & _) _].
  split; [by destruct (FormatUint (major v))|]. by rewrite !TrimPrefix_digit by (done || apply Hma).
Qed.

Lemma parse_print v : wf_version v → parseSemanticVersion (print_version v) = Ok v.
Proof.
  intros Hwf. unfold parseSemanticVersion.
  destruct (print_version_head v Hwf) as [Hne Htrim]. destruct (parse_print_core v Hwf) as [Hs Hc].
  rewrite (TrimSpace_graphic _ (print_version_graphic _ Hwf)), (bool_decide_eq_false_2 _ Hne).
  rewrite bool_decide_eq_true_2, Htrim, Cut_print_build by done. cbn [guard_err negb andb mbind Result_bind].
  rewrite joined_build_ok, Cut_print_prerelease by (done || apply Hwf). cbn [guard_err mbind Result_bind].
  rewrite Hc, Hs. cbn [length Nat.eqb orb guard_err mbind Result_bind].
  rewrite !parse_identifiers_joined by apply Hwf. by destruct v.
Qed.

(** ** The order of versions *)

(** A three-way comparison: total, antisymmetric up to its own ties, transitive. *)
Class ThreeWay {A} (f : A → A → Z) : Prop := {
  tw_anti a b : f b a = - f a b;
  tw_trans a b c : f a b ≤ 0 → f b c ≤ 0 → f a c ≤ 0;
}.

Lemma tw_refl {A} (f : A → A → Z) `{!ThreeWay f} a : f a a = 0.
Proof. pose proof (tw_anti a a). lia. Qed.

Lemma tw_tie {A} (f : A → A → Z) `{!ThreeWay f} a b c :
  f a b ≤ 0 → f b c ≤ 0 → f a c = 0 → f a b = 0 ∧ f b c = 0.
Proof.
  intros Hab Hbc Hac. pose proof (tw_anti a c). pose proof (tw_anti a b). pose proof (tw_anti b c).
  pose proof (tw_trans c a b). pose proof (tw_trans b c a). lia.
Qed.

Definition cmp_less {A} (less : A → A → bool) (a b : A) : Z :=
  if less a b then -1 else if less b a then 1 else 0.

#[export] Instance cmp_less_tw {A} (less : A → A → bool) : StrictWeak less → ThreeWay (cmp_less less).
Proof.
  intros Hsw. unfold cmp_less. split.
  - intros a b. destruct (less a b) eqn:E; [by rewrite (sw_asym _ _ E)|]. by destruct (less b a).
  - intros a b c. destruct (less a b) eqn:Eab, (less b c) eqn:Ebc; intros H1 H2;
      destruct (less a c) eqn:Eac; try lia; destruct (less c a) eqn:Eca; try lia; exfalso.
    all: assert (Hba : less b a = false) by (destruct (less b a) eqn:E; [first [apply sw_asym in E; congruence | lia]|done]).
    all: assert (Hcb : less c b = false) by (destruct (less c b) eqn:E; [first [apply sw_asym in E; congruence | lia]|done]).
    all: by rewrite (sw_neg_trans _ _ _ Hba Hcb) in Eca.
Qed.

Definition cmp_lex {A} (f g : A → A → Z) (a b : A) : Z := if negb (f a b =? 0) then f a b else g a b.

#[export] Instance cmp_lex_tw {A} (f g : A → A → Z) : ThreeWay f → ThreeWay g → ThreeWay (cmp_lex f g).
Proof.
  intros Hf Hg. unfold cmp_lex. split.
  - intros a b. rewrite (tw_anti a b). destruct (Z.eqb_spec (f a b) 0) as [->|]; simpl; [apply tw_anti|].
    by rewrite (proj2 (Z.eqb_neq (- f a b) 0)) by lia.
  - intros a b c H1 H2. pose proof (tw_trans (f := f) a b c). pose proof (tw_tie f a b c).
    pose proof (tw_trans (f := g) a b c).
    destruct (Z.eqb_spec (f a b) 0), (Z.eqb_spec (f b c) 0), (Z.eqb_spec (f a c) 0); simpl in *; lia.
Qed.

Lemma cmp_key_tw {A B} (f : B → B → Z) (k : A → B) : ThreeWay f → ThreeWay (λ a b, f (k a) (k b)).
Proof. intros []. split; eauto. Qed.

Lemma ThreeWay_ext {A} (f g : A → A → Z) : (∀ a b, f a b = g a b) → ThreeWay g → ThreeWay f.
Proof. intros E []. split; intros *; rewrite !E; eauto. Qed.

(** Lexicographic order of lists, the shorter prefix first. *)
Fixpoint cmp_list {A} (f : A → A → Z) (l r : list A) : Z :=
  match l, r with
  | [], [] => 0
  | [], _ => -1
  | _, [] => 1
  | x :: l, y :: r => let d := f x y in if d =? 0 then cmp_list f l r else d
  end.

#[export] Instance cmp_list_tw {A} (f : A → A → Z) : ThreeWay f → ThreeWay (cmp_list f).
Proof.
  intros Hf. split.
  - induction a as [|x a IH]; intros [|y b]; simpl; try done. rewrite (tw_anti x y).
    destruct (Z.eqb_spec (f x y) 0) as [->|]; simpl; [apply IH|].
    by rewrite (proj2 (Z.eqb_neq (- f x y) 0)) by lia.
  - induction a as [|x a IH]; intros [|y b] [|z c]; simpl; try lia. intros H1 H2.
    pose proof (tw_trans (f := f) x y z). pose proof (tw_tie f x y z). specialize (IH b c).
    destruct (Z.eqb_spec (f x y) 0), (Z.eqb_spec (f y z) 0), (Z.eqb_spec (f x z) 0); simpl in *; lia.
Qed.

(** Identifiers: numeric ones first, by length and then by digits; the others
    bytewise. *)
Definition identifier_class (s : string) : Z := if numericPrerelease s then 0 else 1.
Definition identifier_width (s : string) : Z :=
  if numericPrerelease s then Z.of_nat (String.length s) else 0.

Definition identifier_less : string → string → bool :=
  lex_less (λ a b, identifier_class a <? identifier_class b)
    (lex_less (λ a b, identifier_width a <? identifier_width b) str_ltb).

#[export] Instance identifier_less_sw : StrictWeak identifier_less.
Proof.
  apply lex_less_sw; [apply (key_less_sw Z.ltb identifier_class), _|].
  apply lex_less_sw; [apply (key_less_sw Z.ltb identifier_width), _|apply _].
Qed.

Lemma compareIdentifier_cmp l r : compareIdentifier l r = cmp_less identifier_less l r.
Proof.
  unfold compareIdentifier, cmp_less. case_decide as H; [subst; by rewrite sw_irrefl by apply _|].
  assert (Htot : str_ltb l r = false → str_ltb r l = true).
  { destruct (str_ltb r l) eqn:E; [done|]. intros E'. by destruct H; apply str_ltb_total. }
  unfold identifier_less, lex_less, identifier_class, identifier_width.
  destruct (numericPrerelease l), (numericPrerelease r); simpl; try done.
  - destruct (Nat.ltb_spec (String.length l) (String.length r));
      destruct (Nat.eqb_spec (String.length l) (String.length r)); simpl.
    all: repeat match goal with |- context [?a <? ?b] => destruct (Z.ltb_spec a b); try lia end.
    all: first [done | by destruct (str_ltb l r) eqn:E; [|rewrite Htot]].
  - by destruct (str_ltb l r) eqn:E; [|rewrite Htot].
Qed.

Lemma comparePrerelease_cmp l r : comparePrerelease l r = cmp_list compareIdentifier l r.
Proof.
  revert r. induction l as [|x l IH]; intros [|y r]; simpl; try done. by rewrite IH.
Qed.

#[export] Instance comparePrerelease_tw : ThreeWay comparePrerelease.
Proof.
  eapply ThreeWay_ext; [apply comparePrerelease_cmp|]. apply cmp_list_tw.
  eapply ThreeWay_ext; [apply compareIdentifier_cmp|]. apply _.
Qed.

Definition compare_pre (l r : list string) : Z :=
  match l, r with
  | [], [] => 0
  | [], _ => 1
  | _, [] => -1
  | _, _ => comparePrerelease l r
  end.

#[export] Instance compare_pre_tw : ThreeWay compare_pre.
Proof.
  split.
  - intros [|x a] [|y b]; try done. apply (tw_anti (f := comparePrerelease)).
  - intros [|x a] [|y b] [|z c]; try (simpl; lia). apply (tw_trans (f := comparePrerelease)).
Qed.

Lemma comparePair_cmp a b : comparePair a b = cmp_less Z.ltb a b.
Proof. done. Qed.

Lemma compare_chain l r :
  compareSemanticVersions l r =
  cmp_lex (λ a b, comparePair (major a) (major b))
    (cmp_lex (λ a b, comparePair (minor a) (minor b))
      (cmp_lex (λ a b, comparePair (patch a) (patch b)) (λ a b, compare_pre (prerelease a) (prerelease b)))) l r.
Proof. unfold compareSemanticVersions, cmp_lex, compare_pre. by repeat case_match. Qed.

#[export] Instance compareSemanticVersions_tw : ThreeWay compareSemanticVersions.
Proof.
  eapply ThreeWay_ext; [apply compare_chain|].
  apply cmp_lex_tw; [apply (cmp_key_tw comparePair major), (cmp_less_tw Z.ltb), _|].
  apply cmp_lex_tw; [apply (cmp_key_tw comparePair minor), (cmp_less_tw Z.ltb), _|].
  apply cmp_lex_tw; [apply (cmp_key_tw comparePair patch), (cmp_less_tw Z.ltb), _|].
  apply (cmp_key_tw compare_pre prerelease), _.
Qed.

Lemma compareIdentifier_0 l r : compareIdentifier l r = 0 → l = r.
Proof.
  unfold compareIdentifier. case_decide; [done|]. intros H0. by repeat case_match.
Qed.

Lemma compare_pre_0 l r : compare_pre l r = 0 → l = r.
Proof.
  destruct l as [|x l], r as [|y r]; try done. unfold compare_pre.
  generalize (x :: l) (y :: r). clear. induction l as [|x l IH]; intros [|y r]; simpl; try done.
  destruct (Z.eqb_spec (compareIdentifier x y) 0) as [->%compareIdentifier_0|]; [|done].
  intros H. f_equal. by apply IH.
Qed.

Lemma comparePair_0 a b : comparePair a b = 0 → a = b.
Proof. unfold comparePair. repeat case_match; bool_props; lia. Qed.

(** [compareSemanticVersions] is a total order on precedence: swapping the
    arguments negates the result, it is transitive, and it answers 0 exactly when
    the numbers and the prerelease identifiers agree (build metadata never counts). *)
Theorem compareSemanticVersions_order :
  (∀ a b, compareSemanticVersions b a = - compareSemanticVersions a b) ∧
  (∀ a b c, compareSemanticVersions a b ≤ 0 → compareSemanticVersions b c ≤ 0 →
     compareSemanticVersions a c ≤ 0) ∧
  (∀ a b, compareSemanticVersions a b = 0 ↔
     major a = major b ∧ minor a = minor b ∧ patch a = patch b ∧ prerelease a = prerelease b).
Proof.
  split_and!; [apply tw_anti|apply tw_trans|]. intros a b. rewrite compare_chain. unfold cmp_lex.
  split.
  - destruct (Z.eqb_spec (comparePair (major a) (major b)) 0) as [?%comparePair_0|]; [|done].
    destruct (Z.eqb_spec (comparePair (minor a) (minor b)) 0) as [?%comparePair_0|]; [|done].
    destruct (Z.eqb_spec (comparePair (patch a) (patch b)) 0) as [?%comparePair_0|]; [|done].
    simpl. intros ?%compare_pre_0. done.
  - intros (-> & -> & -> & ->). unfold comparePair. rewrite !Z.ltb_irrefl. simpl.
    apply (tw_refl compare_pre).
Qed.

(** Parsing and printing are inverse.  A string the parser accepts is
    normalised to a string that parses to the same version, so normalisation is
    idempotent; and printing any well-formed version and parsing it gives it back. *)
Theorem parse_normalize_roundtrip :
  (∀ v, wf_version v → parseSemanticVersion (print_version v) = Ok v) ∧
  (∀ s v, parseSemanticVersion s = Ok v →
     wf_version v ∧ normalizeVersion s = Ok (print_version v) ∧
     parseSemanticVersion (print_version v) = Ok v ∧
     NormalizeSemanticVersion (print_version v) = Ok (print_version v)).
Proof.
  split; [apply parse_print|]. intros s v H. pose proof (parse_wf _ _ H) as Hwf.
  unfold NormalizeSemanticVersion, normalizeVersion. by rewrite H, !parse_print.
Qed.

(** [VersionsCompatible] is the compatible window: it accepts [current] for
    [required] exactly when both parse, the major numbers agree, [current] is not
    older, and below 1.0 the minor numbers agree too.  On parsable versions it is
    reflexive, and it is transitive. *)
Theorem VersionsCompatible_window :
  (∀ cur req, VersionsCompatible cur req = true ↔
     ∃ a m, parseSemanticVersion cur = Ok a ∧ parseSemanticVersion req = Ok m ∧
       major a = major m ∧ 0 ≤ compareSemanticVersions a m ∧ (major a = 0 → minor a = minor m)) ∧
  (∀ s, is_ok (parseSemanticVersion s) = true → VersionsCompatible s s = true) ∧
  (∀ a b c, VersionsCompatible a b = true → VersionsCompatible b c = true →
     VersionsCompatible a c = true).
Proof.
  assert (Hspec : ∀ cur req, VersionsCompatible cur req = true ↔
     ∃ a m, parseSemanticVersion cur = Ok a ∧ parseSemanticVersion req = Ok m ∧
       major a = major m ∧ 0 ≤ compareSemanticVersions a m ∧ (major a = 0 → minor a = minor m)).
  { intros cur req. unfold VersionsCompatible, protocolCompatible.
    destruct (parseSemanticVersion cur) as [a|]; [|naive_solver].
    destruct (parseSemanticVersion req) as [m|]; [|naive_solver]. split.
    - intros H. exists a, m. destruct (Z.eqb_spec (major a) 0); bool_props; auto with lia.
    - intros (? & ? & [= <-] & [= <-] & H1 & H2 & H3). rewrite H1, Z.eqb_refl in *. simpl.
      rewrite (proj2 (Z.ltb_ge _ _) H2). simpl. destruct (Z.eqb_spec (major m) 0); [|done].
      apply Z.eqb_eq. auto. }
  split; [exact Hspec|]. split.
  - intros s. destruct (parseSemanticVersion s) as [v|] eqn:E; [|done]. intros _.
    apply Hspec. exists v, v. rewrite (tw_refl compareSemanticVersions). auto with lia.
  - intros a b c. rewrite !Hspec. intros (va & vb & -> & Eb & H1 & H2 & H3) (vb' & vc & Eb' & -> & H4 & H5 & H6).
    rewrite Eb in Eb'. injection Eb' as <-. exists va, vc. split_and!; [done..|congruence| |intros; etrans; [auto|apply H6; lia]].
    pose proof (tw_anti va vb). pose proof (tw_anti vb vc). pose proof (tw_anti va vc).
    pose proof (tw_trans vc vb va). lia.
Qed.

Lemma compareSemanticVersions_order_witness :
  compareSemanticVersions (mkVersion 1 0 0 ["rc"; "2"] []) (mkVersion 1 0 0 [] []) ≤ 0.
Proof.
  apply (proj1 (proj2 compareSemanticVersions_order) _ (mkVersion 1 0 0 ["rc"; "11"] [])); by vm_compute.
Defined.

Lemma parse_normalize_roundtrip_witness :
  NormalizeSemanticVersion "1.20.0-rc.1" = Ok "1.20.0-rc.1".
Proof.
  apply (proj2 parse_normalize_roundtrip "v1.20-rc.1" (mkVersion 1 20 0 ["rc"; "1"] [])). by vm_compute.
Defined.

Lemma VersionsCompatible_window_witness : VersionsCompatible "1.4" "1.2.7" = true.
Proof.
  apply (proj2 (proj2 VersionsCompatible_window) "1.4" "1.3.0" "1.2.7"); by vm_compute.
Defined.
