(* ===== verification/Semantics.v ===== *)
(** * Semantic values and contracts ([scheduler-go/semantics/evaluator.go], data)

    The messages the evaluator reads and writes, and the comparison of semantic
    values.  A protobuf enum is open: each has a constructor for a number the
    schema does not name.  A pointer the code tests for nil is an [option]. *)

From Stdlib Require Import ZArith Lia.
From S2P Require Import Prelude GoStrings GoTime GoFloat.
From stdpp Require Import options.

Local Open Scope Z_scope.

(** ** Enumerations *)

Inductive ObservationDisposition :=
| OBSERVATION_DISPOSITION_UNKNOWN
| OBSERVATION_DISPOSITION_BLOCK
| OBSERVATION_DISPOSITION_HOLD
| OBSERVATION_DISPOSITION_DEGRADE
| OBSERVATION_DISPOSITION_NOT_APPLICABLE
| OBSERVATION_DISPOSITION_UNNAMED (n : Z).

Inductive ConditionOperator :=
| CONDITION_OPERATOR_UNKNOWN
| CONDITION_OPERATOR_EQ
| CONDITION_OPERATOR_NE
| CONDITION_OPERATOR_GT
| CONDITION_OPERATOR_GE
| CONDITION_OPERATOR_LT
| CONDITION_OPERATOR_LE
| CONDITION_OPERATOR_IN
| CONDITION_OPERATOR_NOT_IN
| CONDITION_OPERATOR_EXISTS
| CONDITION_OPERATOR_AND
| CONDITION_OPERATOR_OR
| CONDITION_OPERATOR_NOT
| CONDITION_OPERATOR_UNNAMED (n : Z).

Inductive ContractEvaluationStatus :=
| STATUS_UNKNOWN
| STATUS_SATISFIED
| STATUS_VIOLATED
| STATUS_INDETERMINATE
| STATUS_NOT_APPLICABLE.

Inductive ContractDecisionAction :=
| ACTION_UNKNOWN
| ACTION_ALLOW
| ACTION_REJECT
| ACTION_PAUSE_REQUIRED
| ACTION_ABORT_REQUIRED
| ACTION_BLOCK_PRODUCER_REQUIRED
| ACTION_SHED_OLDEST_REQUIRED
| ACTION_SHED_NEWEST_REQUIRED
| ACTION_SCALE_OUT_REQUESTED
| ACTION_WAIT_FOR_SAFE_POINT.

Inductive ContractClauseKind :=
| CLAUSE_KIND_UNKNOWN
| CLAUSE_KIND_VALIDITY_RULE
| CLAUSE_KIND_CONDITION
| CLAUSE_KIND_VERSION_CONSTRAINT
| CLAUSE_KIND_BACKPRESSURE_POLICY
| CLAUSE_KIND_SAFE_POINT_POLICY
| CLAUSE_KIND_SAMPLE_FRESHNESS
| CLAUSE_KIND_POLICY_LAG
| CLAUSE_KIND_EFFECTIVE_SAMPLE_SIZE
| CLAUSE_KIND_SAMPLE_COVERAGE.

Inductive ValidityFailureMode :=
| VALIDITY_FAILURE_MODE_UNKNOWN
| VALIDITY_FAILURE_MODE_REJECT
| VALIDITY_FAILURE_MODE_PAUSE
| VALIDITY_FAILURE_MODE_ABORT
| VALIDITY_FAILURE_MODE_UNNAMED (n : Z).

Inductive BackpressureMode :=
| BACKPRESSURE_MODE_UNKNOWN
| BACKPRESSURE_MODE_BLOCK_PRODUCER
| BACKPRESSURE_MODE_SHED_OLDEST
| BACKPRESSURE_MODE_SHED_NEWEST
| BACKPRESSURE_MODE_REQUEST_SCALE_OUT
| BACKPRESSURE_MODE_UNNAMED (n : Z).

Inductive VersionOperator :=
| VERSION_OPERATOR_UNKNOWN
| VERSION_OPERATOR_EXACT
| VERSION_OPERATOR_SEMVER
| VERSION_OPERATOR_COMPATIBLE
| VERSION_OPERATOR_UNNAMED (n : Z).

Inductive ComponentKind :=
| COMPONENT_KIND_UNKNOWN
| COMPONENT_KIND_PROTOCOL
| COMPONENT_KIND_SCHEDULER
| COMPONENT_KIND_RUNTIME
| COMPONENT_KIND_OPERATOR
| COMPONENT_KIND_PROVIDER
| COMPONENT_KIND_FRAMEWORK_ADAPTER
| COMPONENT_KIND_ROLLOUT_ENGINE
| COMPONENT_KIND_TRAINER
| COMPONENT_KIND_CUDA_DRIVER
| COMPONENT_KIND_EXECUTION_BACKEND
| COMPONENT_KIND_UNNAMED (n : Z).

Inductive DeviceKind :=
| DEVICE_KIND_UNKNOWN | DEVICE_KIND_CPU | DEVICE_KIND_GPU | DEVICE_KIND_TPU
| DEVICE_KIND_NPU | DEVICE_KIND_CUSTOM | DEVICE_KIND_UNNAMED (n : Z).

Inductive TickKind :=
| TICK_KIND_UNKNOWN | TICK_KIND_FAST | TICK_KIND_MEDIUM | TICK_KIND_SLOW | TICK_KIND_UNNAMED (n : Z).

#[export] Instance ObservationDisposition_eq_dec : EqDecision ObservationDisposition.
Proof. solve_decision. Defined.
#[export] Instance ConditionOperator_eq_dec : EqDecision ConditionOperator.
Proof. solve_decision. Defined.
#[export] Instance ContractEvaluationStatus_eq_dec : EqDecision ContractEvaluationStatus.
Proof. solve_decision. Defined.
#[export] Instance ContractDecisionAction_eq_dec : EqDecision ContractDecisionAction.
Proof. solve_decision. Defined.
#[export] Instance ContractClauseKind_eq_dec : EqDecision ContractClauseKind.
Proof. solve_decision. Defined.
#[export] Instance ValidityFailureMode_eq_dec : EqDecision ValidityFailureMode.
Proof. solve_decision. Defined.
#[export] Instance ComponentKind_eq_dec : EqDecision ComponentKind.
Proof. solve_decision. Defined.
#[export] Instance VersionOperator_eq_dec : EqDecision VersionOperator.
Proof. solve_decision. Defined.
#[export] Instance DeviceKind_eq_dec : EqDecision DeviceKind.
Proof. solve_decision. Defined.
#[export] Instance TickKind_eq_dec : EqDecision TickKind.
Proof. solve_decision. Defined.

Definition TickKind_String (k : TickKind) : string :=
  match k with
  | TICK_KIND_UNNAMED n => FormatInt n
  | TICK_KIND_UNKNOWN => "TICK_KIND_UNKNOWN" | TICK_KIND_FAST => "TICK_KIND_FAST"
  | TICK_KIND_MEDIUM => "TICK_KIND_MEDIUM" | TICK_KIND_SLOW => "TICK_KIND_SLOW"
  end.

(** Numbers and names of the schema, where the code uses them. *)
Definition ClauseKind_number (k : ContractClauseKind) : Z :=
  match k with
  | CLAUSE_KIND_UNKNOWN => 0 | CLAUSE_KIND_VALIDITY_RULE => 1 | CLAUSE_KIND_CONDITION => 2
  | CLAUSE_KIND_VERSION_CONSTRAINT => 3 | CLAUSE_KIND_BACKPRESSURE_POLICY => 4
  | CLAUSE_KIND_SAFE_POINT_POLICY => 5 | CLAUSE_KIND_SAMPLE_FRESHNESS => 6
  | CLAUSE_KIND_POLICY_LAG => 7 | CLAUSE_KIND_EFFECTIVE_SAMPLE_SIZE => 8
  | CLAUSE_KIND_SAMPLE_COVERAGE => 9
  end.

Definition ClauseKind_String (k : ContractClauseKind) : string :=
  "CONTRACT_CLAUSE_KIND_" +:+
  match k with
  | CLAUSE_KIND_UNKNOWN => "UNKNOWN" | CLAUSE_KIND_VALIDITY_RULE => "VALIDITY_RULE"
  | CLAUSE_KIND_CONDITION => "CONDITION" | CLAUSE_KIND_VERSION_CONSTRAINT => "VERSION_CONSTRAINT"
  | CLAUSE_KIND_BACKPRESSURE_POLICY => "BACKPRESSURE_POLICY"
  | CLAUSE_KIND_SAFE_POINT_POLICY => "SAFE_POINT_POLICY"
  | CLAUSE_KIND_SAMPLE_FRESHNESS => "SAMPLE_FRESHNESS" | CLAUSE_KIND_POLICY_LAG => "POLICY_LAG"
  | CLAUSE_KIND_EFFECTIVE_SAMPLE_SIZE => "EFFECTIVE_SAMPLE_SIZE"
  | CLAUSE_KIND_SAMPLE_COVERAGE => "SAMPLE_COVERAGE"
  end.

Definition Status_String (s : ContractEvaluationStatus) : string :=
  "CONTRACT_EVALUATION_STATUS_" +:+
  match s with
  | STATUS_UNKNOWN => "UNKNOWN" | STATUS_SATISFIED => "SATISFIED" | STATUS_VIOLATED => "VIOLATED"
  | STATUS_INDETERMINATE => "INDETERMINATE" | STATUS_NOT_APPLICABLE => "NOT_APPLICABLE"
  end.

Definition ComponentKind_String (k : ComponentKind) : string :=
  match k with
  | COMPONENT_KIND_UNNAMED n => FormatInt n
  | _ => "COMPONENT_KIND_" +:+
    match k with
    | COMPONENT_KIND_PROTOCOL => "PROTOCOL" | COMPONENT_KIND_SCHEDULER => "SCHEDULER"
    | COMPONENT_KIND_RUNTIME => "RUNTIME" | COMPONENT_KIND_OPERATOR => "OPERATOR"
    | COMPONENT_KIND_PROVIDER => "PROVIDER"
    | COMPONENT_KIND_FRAMEWORK_ADAPTER => "FRAMEWORK_ADAPTER"
    | COMPONENT_KIND_ROLLOUT_ENGINE => "ROLLOUT_ENGINE" | COMPONENT_KIND_TRAINER => "TRAINER"
    | COMPONENT_KIND_CUDA_DRIVER => "CUDA_DRIVER"
    | COMPONENT_KIND_EXECUTION_BACKEND => "EXECUTION_BACKEND"
    | _ => "UNKNOWN"
    end
  end.

Definition VersionOperator_String (o : VersionOperator) : string :=
  match o with
  | VERSION_OPERATOR_UNNAMED n => FormatInt n
  | VERSION_OPERATOR_UNKNOWN => "VERSION_OPERATOR_UNKNOWN"
  | VERSION_OPERATOR_EXACT => "VERSION_OPERATOR_EXACT"
  | VERSION_OPERATOR_SEMVER => "VERSION_OPERATOR_SEMVER"
  | VERSION_OPERATOR_COMPATIBLE => "VERSION_OPERATOR_COMPATIBLE"
  end.

(** ** Semantic values *)

Inductive SemanticValue :=
| NoKind
| StringValue (s : string)
| Int64Value (z : Z)
| Uint64Value (z : Z)
| DoubleValue (f : float64)
| BoolValue (b : bool)
| BytesValue (s : string)
| ObjectValue (fields : list (string * option SemanticValue))
| ListValue (values : list (option SemanticValue)).

Record SemanticField := mkField { field_key : string; field_value : option SemanticValue }.

Definition semanticField (key : string) (value : option SemanticValue) : option SemanticField :=
  match value with None => None | Some _ => Some (mkField key value) end.

Definition semanticUint (z : Z) : option SemanticValue := Some (Uint64Value z).
Definition semanticInt (z : Z) : option SemanticValue := Some (Int64Value z).
Definition semanticDouble (f : float64) : option SemanticValue := Some (DoubleValue f).
Definition semanticBool (b : bool) : option SemanticValue := Some (BoolValue b).
Definition semanticString (s : string) : option SemanticValue := Some (StringValue s).

Definition finite (f : float64) : bool := negb (IsNaN f) && negb (IsInf f).

Fixpoint finiteSemanticValue (v : SemanticValue) : bool :=
  match v with
  | DoubleValue f => finite f
  | ListValue vs => forallb (λ o, match o with Some v => finiteSemanticValue v | None => false end) vs
  | _ => true
  end.

Definition finite_ptr (v : option SemanticValue) : bool :=
  match v with Some v => finiteSemanticValue v | None => false end.

(** [proto.Equal] on two values: doubles compare as numbers, NaN equal to itself. *)
Definition double_Equal (a b : float64) : bool := feqb a b || (IsNaN a && IsNaN b).

Fixpoint Equal (a b : SemanticValue) {struct a} : bool :=
  let ptr o o' :=
    match o, o' with Some v, Some v' => Equal v v' | None, None => true | _, _ => false end in
  match a, b with
  | NoKind, NoKind => true
  | StringValue s, StringValue s' | BytesValue s, BytesValue s' => bool_decide (s = s')
  | Int64Value z, Int64Value z' | Uint64Value z, Uint64Value z' => z =? z'
  | DoubleValue f, DoubleValue f' => double_Equal f f'
  | BoolValue c, BoolValue c' => Bool.eqb c c'
  | ObjectValue fs, ObjectValue fs' =>
      (fix go l l' := match l, l' with
       | [], [] => true
       | (k, o) :: l, (k', o') :: l' => bool_decide (k = k') && ptr o o' && go l l'
       | _, _ => false end) fs fs'
  | ListValue vs, ListValue vs' =>
      (fix go l l' := match l, l' with
       | [], [] => true
       | o :: l, o' :: l' => ptr o o' && go l l'
       | _, _ => false end) vs vs'
  | _, _ => false
  end.

(** ** Comparing values *)

Section Compare.
Context {A : Type} (ltb eqb leb : A → A → bool) (unsupported : string).

(** The shape the ordered comparators share. *)
Definition compareOrdered (op : ConditionOperator) (l r : A) : Result string bool :=
  match op with
  | CONDITION_OPERATOR_EQ => Ok (eqb l r)
  | CONDITION_OPERATOR_NE => Ok (negb (eqb l r))
  | CONDITION_OPERATOR_GT => Ok (ltb r l)
  | CONDITION_OPERATOR_GE => Ok (leb r l)
  | CONDITION_OPERATOR_LT => Ok (ltb l r)
  | CONDITION_OPERATOR_LE => Ok (leb l r)
  | _ => Err unsupported
  end.
End Compare.

Definition compareOrderedStrings : ConditionOperator → string → string → Result string bool :=
  compareOrdered str_ltb (λ a b, bool_decide (a = b)) (λ a b, negb (str_ltb b a))
    "unsupported operator for string".

Definition compareOrderedBools (op : ConditionOperator) (l r : bool) : Result string bool :=
  match op with
  | CONDITION_OPERATOR_EQ => Ok (Bool.eqb l r)
  | CONDITION_OPERATOR_NE => Ok (negb (Bool.eqb l r))
  | _ => Err "unsupported operator for bool"
  end.

Definition compareOrderedInts : ConditionOperator → Z → Z → Result string bool :=
  compareOrdered Z.ltb Z.eqb Z.leb "unsupported operator for int64".

Definition compareOrderedUints : ConditionOperator → Z → Z → Result string bool :=
  compareOrdered Z.ltb Z.eqb Z.leb "unsupported operator for uint64".

Definition compareOrderedFloats : ConditionOperator → float64 → float64 → Result string bool :=
  compareOrdered fltb feqb fleb "unsupported operator for double".

(** [compareValues] past the test for list operators. *)
Definition compareTyped (op : ConditionOperator) (l r : SemanticValue) : Result string bool :=
  match l, r with
  | NoKind, _ | _, NoKind => Err "missing typed value"
  | StringValue a, StringValue b => compareOrderedStrings op a b
  | BoolValue a, BoolValue b => compareOrderedBools op a b
  | Int64Value a, Int64Value b => compareOrderedInts op a b
  | Uint64Value a, Uint64Value b => compareOrderedUints op a b
  | DoubleValue a, DoubleValue b =>
      if negb (finite a) || negb (finite b) then Err "invalid double comparison"
      else compareOrderedFloats op a b
  | BytesValue a, BytesValue b => compareOrderedStrings op a b
  | DoubleValue _, _ => Err "invalid double comparison"
  | ObjectValue _, _ | ListValue _, _ => Err "unsupported semantic type"
  | _, _ => Err "type mismatch"
  end.

(** The loop over the candidates of [IN]. *)
Fixpoint compareMember (l : SemanticValue) (candidates : list (option SemanticValue)) :
    Result string bool :=
  match candidates with
  | [] => Ok false
  | None :: _ => Err "nil comparison value"
  | Some c :: cs =>
      equal ← compareTyped CONDITION_OPERATOR_EQ l c;
      if equal : bool then Ok true else compareMember l cs
  end.

Definition compareValues (op : ConditionOperator) (l r : option SemanticValue) : Result string bool :=
  match l, r with
  | Some l, Some r =>
      match op with
      | CONDITION_OPERATOR_IN | CONDITION_OPERATOR_NOT_IN =>
          match r with
          | ListValue vs =>
              matched ← compareMember l vs;
              Ok (if decide (op = CONDITION_OPERATOR_NOT_IN) then negb matched else matched)
          | _ => Err "IN/NOT_IN requires list operand"
          end
      | _ => compareTyped op l r
      end
  | _, _ => Err "nil comparison value"
  end.

(** ** Messages *)

Inductive Condition := mkCondition {
  condition_id : string;
  display_name : string;
  expression : string;
  language : string;
  cond_operator : ConditionOperator;
  cond_attributes : list (string * string);
  operands : list (option SemanticValue);
  predicates : list (option Condition);
  fact_path : string;
  comparison_fact_path : string;
}.

Record ValidityRule := mkValidityRule {
  rule_id : string;
  rule_description : string;
  rule_expression : string;
  rule_failure_mode : ValidityFailureMode;
  predicate : option Condition;
}.

Record ObservationPolicy := mkObservationPolicy {
  maximum_age : option Duration;
  missing : ObservationDisposition;
  stale : ObservationDisposition;
}.

Record CriticalFactPolicy := mkCriticalFactPolicy {
  critical_fact_path : string;
  critical_observation_policy : option ObservationPolicy;
}.

Record ComponentVersion := mkComponentVersion {
  comp_kind : ComponentKind;
  comp_name : string;
  comp_version : string;
  comp_observed_at : option Timestamp;
  comp_source : string;
  comp_revision : Z;
  comp_attributes : list (string * string);
}.

Record VersionConstraint := mkVersionConstraint {
  component : string;
  vc_operator : VersionOperator;
  vc_version : string;
  allow_prerelease : bool;
  vc_source : string;
  vc_revision : Z;
  component_kind : ComponentKind;
  vc_observation_policy : option ObservationPolicy;
}.

Record BackpressurePolicy := mkBackpressurePolicy {
  bp_mode : BackpressureMode;
  low_watermark : Z;
  high_watermark : Z;
  maximum_buffer_level : Z;
  stall_timeout : option Duration;
}.

Record ObservedFact := mkObservedFact {
  fact : option SemanticField;
  of_observed_at : option Timestamp;
  of_source : string;
  of_revision : Z;
}.

Record ContractObservation := mkContractObservation {
  obs_observed_at : option Timestamp;
  oldest_sample_at : option Timestamp;
  policy_lag : option Z;
  sample_stale : option bool;
  buffer_level : option Z;
  effective_sample_size : option float64;
  accepted_samples : option Z;
  expected_samples : option Z;
  obs_safe_point : option bool;
  obs_source : string;
  typed_facts : list (option SemanticField);
  sample_count : option Z;
  effective_sample_size_ratio : option float64;
  fact_observations : list (option ObservedFact);
  component_versions : list (option ComponentVersion);
  backpressure_started_at : option Timestamp;
  obs_event_id : string;
  obs_phase_id : string;
  obs_policy_version : string;
}.

(** The submessages of a contract the evaluator reads: of the safe-point policy
    whether it is enabled, of the commit policy whether it needs a safe point. *)
Record ExecutionContract := mkExecutionContract {
  contract_id : string;
  contract_version : string;
  validity_rules : list (option ValidityRule);
  version_constraints : list (option VersionConstraint);
  commit_require_safe_point : option bool;
  backpressure_policy : option BackpressurePolicy;
  safe_point_enabled : option bool;
  conditions : list (option Condition);
  critical_fact_policies : list (option CriticalFactPolicy);
}.

Record EvaluationContext := mkEvaluationContext {
  tick_kind : TickKind;
  evaluation_time : option Timestamp;
  decision_sequence : Z;
  cause : string;
  observed_revision : Z;
  ctx_contract_observation : option ContractObservation;
  compatibility_defaults_applied : bool;
}.

(** The fields of an intent, a device and a snapshot that evaluation reads. *)
Record IntentView := mkIntentView {
  intent_version : Z;
  execution_id : string;
  stage_id : string;
  intent_contract_observation : option ContractObservation;
}.

Record DeviceView := mkDeviceView {
  device_kind : DeviceKind;
  device_component_versions : list (option ComponentVersion);
}.

Record SnapshotView := mkSnapshotView {
  snap_revision : Z;
  snap_annotations : gmap string string;
  devices : list (option DeviceView);
}.

Record ContractEvaluation := mkContractEvaluation {
  evaluation_id : string;
  eval_contract_id : string;
  clause_kind : ContractClauseKind;
  clause_id : string;
  eval_status : ContractEvaluationStatus;
  eval_predicate : option Condition;
  observations : list (option SemanticField);
  evidence : list (option SemanticField);
  missing_keys : list string;
  failure_mode : ValidityFailureMode;
  recommended_action : ContractDecisionAction;
  detail : string;
  observation_disposition : ObservationDisposition;
}.

#[export] Instance eta_ContractEvaluation : Eta ContractEvaluation := λ e,
  mkContractEvaluation (evaluation_id e) (eval_contract_id e) (clause_kind e) (clause_id e)
    (eval_status e) (eval_predicate e) (observations e) (evidence e) (missing_keys e)
    (failure_mode e) (recommended_action e) (detail e) (observation_disposition e).

Record SafePointResolution := mkSafePoint {
  sp_value : bool;
  sp_present : bool;
  sp_evidence : list (option SemanticField);
}.

(** [Input], with the pointers [Evaluate] tests for nil. *)
Record Input := mkInput {
  in_contract : ExecutionContract;
  in_intent : IntentView;
  in_snapshot : SnapshotView;
  in_context : EvaluationContext;
  in_safe_point : option SafePointResolution;
}.

(** Nil-safe getters. *)
Definition GetMaximumAge (p : option ObservationPolicy) : option Duration := p ≫= maximum_age.
Definition GetMissing (p : option ObservationPolicy) : ObservationDisposition :=
  from_option missing OBSERVATION_DISPOSITION_UNKNOWN p.
Definition GetStale (p : option ObservationPolicy) : ObservationDisposition :=
  from_option stale OBSERVATION_DISPOSITION_UNKNOWN p.

Definition disposition_known (d : ObservationDisposition) : bool :=
  match d with OBSERVATION_DISPOSITION_UNKNOWN | OBSERVATION_DISPOSITION_UNNAMED _ => false | _ => true end.

(** Sort keys of fields: [SemanticField] by key and then by the text protobuf
    gives the value, which is a parameter. *)
Section Stable.
Context (ValueString : SemanticValue → string).

Definition field_text (f : SemanticField) : string := from_option ValueString "" (field_value f).

Definition field_less : SemanticField → SemanticField → bool :=
  lex_less (λ a b, str_ltb (field_key a) (field_key b)) (λ a b, str_ltb (field_text a) (field_text b)).

Definition stableFields (fields : list (option SemanticField)) : list (option SemanticField) :=
  Some <$> sort_by field_less (omap id fields).
End Stable.

Definition stableStrings (values : list string) : list string :=
  sort_strings (filter (λ s, s ≠ "") values).
