(* ===== verification/Freshness.v ===== *)
(** * Facts and their freshness ([scheduler-go/semantics/freshness.go],
    [buildFacts] of [evaluator.go])

    The registry of observed facts, the freshness of a fact under an observation
    policy, and the disposition that replaces a fact that is missing or stale. *)

From Stdlib Require Import ZArith Lia.
From S2P Require Import Prelude GoStrings GoTime GoFloat Semantics.
From stdpp Require Import options.

Local Open Scope Z_scope.

(** ** The registry *)

Inductive observationOrigin := originBuiltIn | originLegacy | originExplicit.

#[export] Instance observationOrigin_eq_dec : EqDecision observationOrigin.
Proof. solve_decision. Defined.

Definition origin_rank (o : observationOrigin) : Z :=
  match o with originBuiltIn => 1 | originLegacy => 2 | originExplicit => 3 end.

Record observationMetadata := mkMetadata {
  observedAt : Z;
  present : bool;
  source : string;
  revision : Z;
}.

(** The zero value. *)
Definition no_metadata : observationMetadata := mkMetadata zero_time false "" 0.

Record factIssue := mkIssue { issue_reason : string; issue_evidence : list (option SemanticField) }.

Record factRegistry := mkRegistry {
  values : gmap string SemanticValue;
  metadata : gmap string observationMetadata;
  origins : gmap string observationOrigin;
  issues : gmap string factIssue;
  policies : gmap string ObservationPolicy;
  evaluationTime : Z;
}.

#[export] Instance eta_factRegistry : Eta factRegistry := λ r,
  mkRegistry (values r) (metadata r) (origins r) (issues r) (policies r) (evaluationTime r).

Inductive FactError :=
| CriticalPolicyMalformed
| CriticalPolicyDuplicated (path : string)
| PolicyMissing | MaximumAgeInvalid | MaximumAgeNotPositive | DispositionUnknown
| FactMalformed
| FactNotFinite (path : string)
| FactInvalid (path : string)
| FactConflictsWithIssue (path : string)
| FactConflicts (path : string)
| FactDuplicated (path : string)
| ObservedAtInvalid | ObservedAtRequired | SourceNotCanonical
| OldestSampleInvalid.

Definition legacyObservationMetadata (obs : ContractObservation) : Result FactError observationMetadata :=
  let md := mkMetadata zero_time false (TrimSpace (obs_source obs)) 0 in
  match obs_observed_at obs with
  | None => Ok md
  | Some ts =>
      if Timestamp_valid ts
      then Ok (mkMetadata (AsTime (Some ts)) true (source md) 0) else Err ObservedAtInvalid
  end.

Definition explicitObservationMetadata (at_ : option Timestamp) (src : string) (rev : Z) :
    Result FactError observationMetadata :=
  match at_ with
  | None => Err ObservedAtRequired
  | Some ts =>
      if negb (Timestamp_valid ts) then Err ObservedAtInvalid else
      if bool_decide (src = "") || bool_decide (src ≠ TrimSpace src) then Err SourceNotCanonical else
      Ok (mkMetadata (AsTime (Some ts)) true src rev)
  end.

Definition register (r : factRegistry) (path : string) (value : option SemanticValue)
    (md : observationMetadata) (origin : observationOrigin) : Result FactError factRegistry :=
  if bool_decide (path = "") || bool_decide (path ≠ TrimSpace path) then Err FactMalformed else
  match value with
  | None => Err FactMalformed
  | Some v =>
      if negb (finiteSemanticValue v) then Err (FactNotFinite path) else
      match issues r !! path with
      | Some _ => Err (FactConflictsWithIssue path)
      | None =>
          match values r !! path with
          | Some existing =>
              if negb (Equal existing v) then Err (FactConflicts path) else
              let existingOrigin := default originBuiltIn (origins r !! path) in
              if decide (origin = originExplicit ∧ existingOrigin = originExplicit)
              then Err (FactDuplicated path) else
              if origin_rank existingOrigin <? origin_rank origin
              then Ok (r <| metadata := <[path := md]> (metadata r) |>
                         <| origins := <[path := origin]> (origins r) |>)
              else Ok r
          | None =>
              Ok (r <| values := <[path := v]> (values r) |>
                    <| metadata := <[path := md]> (metadata r) |>
                    <| origins := <[path := origin]> (origins r) |>)
          end
      end
  end.

(** The dispositions are checked in Go's map order; both fail with the same
    message up to the name, so the order does not matter here. *)
Definition validateObservationPolicy (policy : option ObservationPolicy) : Result FactError unit :=
  match policy with
  | None => Err PolicyMissing
  | Some p =>
      _ ← (match maximum_age p with
           | Some d =>
               if negb (Duration_valid d) then Err MaximumAgeInvalid else
               if AsDuration d <=? 0 then Err MaximumAgeNotPositive else Ok tt
           | None => Ok tt
           end);
      guard_err (disposition_known (missing p) && disposition_known (stale p)) DispositionUnknown
  end.

(** ** Freshness *)

Inductive observationState := observationFresh | observationMissing | observationStale.

#[export] Instance observationState_eq_dec : EqDecision observationState.
Proof. solve_decision. Defined.

Definition registry_observationState (r : factRegistry) (path : string)
    (policy : option ObservationPolicy) :
    observationState * list (option SemanticField) * string :=
  let ev := [semanticField "observation.fact_path" (semanticString path);
             semanticField "observation.evaluation_time"
               (semanticString (FormatRFC3339Nano (evaluationTime r)))] in
  match values r !! path with
  | None =>
      match issues r !! path with
      | Some issue => (observationMissing, ev ++ issue_evidence issue, issue_reason issue)
      | None => (observationMissing, ev, "required fact is missing")
      end
  | Some value =>
      let ev := ev ++ [semanticField "observation.value" (Some value)] in
      let md := default no_metadata (metadata r !! path) in
      let ev := if bool_decide (source md ≠ "")
                then ev ++ [semanticField "observation.source" (semanticString (source md))] else ev in
      let ev := ev ++ [semanticField "observation.revision" (semanticUint (revision md))] in
      let age := time_Sub (evaluationTime r) (observedAt md) in
      let ev := if present md
                then ev ++ [semanticField "observation.observed_at"
                              (semanticString (FormatRFC3339Nano (observedAt md)));
                            semanticField "observation.age_ms" (semanticInt (Milliseconds age))]
                else ev in
      if present md && (age <? 0)
      then (observationStale, ev, "fact observation time is after evaluation time") else
      match GetMaximumAge policy with
      | None => (observationFresh, ev, "fact is present and no maximum age is configured")
      | Some maximumAge =>
          let ev := ev ++ [semanticField "observation.maximum_age_ms"
                             (semanticInt (Milliseconds (AsDuration maximumAge)))] in
          if negb (present md) then (observationStale, ev, "fact observation time is missing") else
          if AsDuration maximumAge <? age
          then (observationStale, ev, "fact observation exceeded maximum age")
          else (observationFresh, ev, "fact observation is fresh")
      end
  end.

(** ** Dispositions *)

Definition statusForObservationDisposition (d : ObservationDisposition) : ContractEvaluationStatus :=
  match d with
  | OBSERVATION_DISPOSITION_NOT_APPLICABLE => STATUS_NOT_APPLICABLE
  | OBSERVATION_DISPOSITION_DEGRADE => STATUS_INDETERMINATE
  | OBSERVATION_DISPOSITION_HOLD => STATUS_INDETERMINATE
  | OBSERVATION_DISPOSITION_BLOCK => STATUS_VIOLATED
  | _ => STATUS_INDETERMINATE
  end.

Definition actionForObservationDisposition (d : ObservationDisposition) : ContractDecisionAction :=
  match d with
  | OBSERVATION_DISPOSITION_NOT_APPLICABLE | OBSERVATION_DISPOSITION_DEGRADE => ACTION_ALLOW
  | OBSERVATION_DISPOSITION_HOLD => ACTION_PAUSE_REQUIRED
  | _ => ACTION_REJECT
  end.

Definition strongerDisposition_priority (d : ObservationDisposition) : Z :=
  match d with
  | OBSERVATION_DISPOSITION_BLOCK => 4
  | OBSERVATION_DISPOSITION_HOLD => 3
  | OBSERVATION_DISPOSITION_DEGRADE => 2
  | OBSERVATION_DISPOSITION_NOT_APPLICABLE => 1
  | _ => 0
  end.

Definition strongerDisposition (l r : ObservationDisposition) : ObservationDisposition :=
  if strongerDisposition_priority l <? strongerDisposition_priority r then r else l.

Definition applyObservationDisposition (e : ContractEvaluation) (d : ObservationDisposition) :
    ContractEvaluation :=
  e <| observation_disposition := d |> <| eval_status := statusForObservationDisposition d |>
    <| recommended_action := actionForObservationDisposition d |>.

Record conditionResult := mkConditionResult {
  cr_status : ContractEvaluationStatus;
  cr_missing : list string;
  cr_evidence : list (option SemanticField);
  cr_detail : string;
  cr_disposition : ObservationDisposition;
}.

#[export] Instance eta_conditionResult : Eta conditionResult := λ c,
  mkConditionResult (cr_status c) (cr_missing c) (cr_evidence c) (cr_detail c) (cr_disposition c).

Definition empty_result : conditionResult :=
  mkConditionResult STATUS_UNKNOWN [] [] "" OBSERVATION_DISPOSITION_UNKNOWN.

(** [observationGuard]: [None] when no policy guards the fact. *)
Definition observationGuard (r : factRegistry) (path : string) : option conditionResult :=
  match policies r !! path with
  | None => None
  | Some policy =>
      let '(state, ev, det) := registry_observationState r path (Some policy) in
      match state with
      | observationFresh => Some (empty_result <| cr_evidence := ev |>)
      | _ =>
          let '(d, missing_paths) :=
            match state with
            | observationMissing => (missing policy, [path])
            | _ => (stale policy, [])
            end in
          Some (mkConditionResult (statusForObservationDisposition d) missing_paths ev det d)
      end
  end.

Definition criticalFactClauseKind (path : string) : ContractClauseKind :=
  if bool_decide (path ∈ ["sample.age_ms"; "sample.stale"]) then CLAUSE_KIND_SAMPLE_FRESHNESS else
  if bool_decide (path = "sample.policy_lag") then CLAUSE_KIND_POLICY_LAG else
  if bool_decide (path ∈ ["batch.effective_sample_size"; "batch.effective_sample_size_ratio"])
  then CLAUSE_KIND_EFFECTIVE_SAMPLE_SIZE else
  if bool_decide (path ∈ ["batch.accepted_samples"; "group.accepted_samples";
                          "group.expected_samples"; "sample.sample_count"])
  then CLAUSE_KIND_SAMPLE_COVERAGE else CLAUSE_KIND_CONDITION.

Definition invalidObservationIssue (reason : string) (observed_at evaluation_at : Z) : factIssue :=
  mkIssue reason
    [semanticField "observation.observed_at" (semanticString (FormatRFC3339Nano observed_at));
     semanticField "observation.evaluation_time" (semanticString (FormatRFC3339Nano evaluation_at));
     semanticField "observation.age_ms"
       (semanticInt (Milliseconds (time_Sub evaluation_at observed_at)))].

(** ** Building the registry ([buildFacts]) *)

Definition validateFactValue (path : string) (v : SemanticValue) : Result FactError unit :=
  if bool_decide (path ∈ ["batch.effective_sample_size"; "batch.effective_sample_size_ratio"])
  then match v with
       | DoubleValue f => guard_err (finite f && negb (fltb f f0)) (FactInvalid path)
       | _ => Err (FactInvalid path)
       end
  else Ok tt.

Fixpoint critical_policies (r : factRegistry) (l : list (option CriticalFactPolicy)) :
    Result FactError factRegistry :=
  match l with
  | [] => Ok r
  | None :: _ => Err CriticalPolicyMalformed
  | Some critical :: l =>
      let path := TrimSpace (critical_fact_path critical) in
      match critical_observation_policy critical with
      | Some policy =>
          if bool_decide (path = "") then Err CriticalPolicyMalformed else
          if bool_decide (is_Some (policies r !! path)) then Err (CriticalPolicyDuplicated path) else
          _ ← validateObservationPolicy (Some policy);
          critical_policies (r <| policies := <[path := policy]> (policies r) |>) l
      | None => Err CriticalPolicyMalformed
      end
  end.

(** [if obs.F != nil { register(path, value) }] *)
Definition register_opt {A} (r : factRegistry) (path : string) (value : option A)
    (wrap : A → option SemanticValue) (md : observationMetadata) : Result FactError factRegistry :=
  match value with
  | Some v => register r path (wrap v) md originLegacy
  | None => Ok r
  end.

(** An effective sample size: an invalid number becomes an issue, not an error. *)
Definition register_sample_size (r : factRegistry) (path reason : string) (value : option float64)
    (md : observationMetadata) : Result FactError factRegistry :=
  match value with
  | Some f =>
      if negb (finite f) || fltb f f0
      then Ok (r <| issues := <[path := mkIssue reason
             [semanticField (path +:+ ".invalid") (semanticDouble f)]]> (issues r) |>)
      else register r path (semanticDouble f) md originLegacy
  | None => Ok r
  end.

Definition register_oldest_sample (r : factRegistry) (at_ : option Timestamp)
    (md : observationMetadata) : Result FactError factRegistry :=
  match at_ with
  | None => Ok r
  | Some ts =>
      if negb (Timestamp_valid ts) then Err OldestSampleInvalid else
      let t := AsTime (Some ts) in
      let age := Milliseconds (time_Sub (evaluationTime r) t) in
      if age <? 0
      then Ok (r <| issues := <["sample.age_ms" := invalidObservationIssue
             "oldest sample timestamp is after evaluation time" t (evaluationTime r)]> (issues r) |>)
      else register r "sample.age_ms" (semanticInt age) md originLegacy
  end.

Fixpoint register_typed_facts (r : factRegistry) (md : observationMetadata)
    (l : list (option SemanticField)) : Result FactError factRegistry :=
  match l with
  | [] => Ok r
  | Some (mkField key (Some v)) :: l =>
      if bool_decide (TrimSpace key = "") || bool_decide (key ≠ TrimSpace key) then Err FactMalformed else
      if negb (finiteSemanticValue v) then Err (FactNotFinite key) else
      _ ← validateFactValue key v;
      _ ← guard_err (negb (bool_decide (is_Some (issues r !! key)))) (FactConflictsWithIssue key);
      r ← register r key (Some v) md originLegacy;
      register_typed_facts r md l
  | _ => Err FactMalformed
  end.

Fixpoint register_observed_facts (r : factRegistry) (l : list (option ObservedFact)) :
    Result FactError factRegistry :=
  match l with
  | [] => Ok r
  | Some (mkObservedFact (Some (mkField key (Some v))) at_ src rev) :: l =>
      if bool_decide (TrimSpace key = "") || bool_decide (key ≠ TrimSpace key) then Err FactMalformed else
      if negb (finiteSemanticValue v) then Err (FactNotFinite key) else
      _ ← validateFactValue key v;
      md ← explicitObservationMetadata at_ src rev;
      r ← register r key (Some v) md originExplicit;
      register_observed_facts r l
  | _ => Err FactMalformed
  end.

Definition register_observation (r : factRegistry) (obs : ContractObservation) :
    Result FactError factRegistry :=
  md ← legacyObservationMetadata obs;
  r ← register_opt r "sample.policy_lag" (policy_lag obs) semanticUint md;
  r ← register_opt r "sample.stale" (sample_stale obs) semanticBool md;
  r ← register_opt r "buffer.level.current" (buffer_level obs) semanticUint md;
  r ← register_opt r "batch.accepted_samples" (accepted_samples obs) semanticUint md;
  r ← register_opt r "group.accepted_samples" (accepted_samples obs) semanticUint md;
  r ← register_opt r "group.expected_samples" (expected_samples obs) semanticUint md;
  r ← register_opt r "sample.sample_count" (sample_count obs) semanticUint md;
  r ← register_sample_size r "batch.effective_sample_size" "effective_sample_size is invalid"
        (effective_sample_size obs) md;
  r ← register_sample_size r "batch.effective_sample_size_ratio"
        "effective_sample_size_ratio is invalid" (effective_sample_size_ratio obs) md;
  r ← register_oldest_sample r (oldest_sample_at obs) md;
  r ← register_typed_facts r md (typed_facts obs);
  register_observed_facts r (fact_observations obs).

Section BuildFacts.
Context (ValueString : SemanticValue → string).

Definition register_safe_point (r : factRegistry) (sp : option SafePointResolution) :
    Result FactError factRegistry :=
  match sp with
  | None => Ok r
  | Some sp =>
      r ← (if sp_present sp
           then register r "runtime.safe_point" (semanticBool (sp_value sp)) no_metadata originBuiltIn
           else Ok r);
      Ok (if bool_decide (sp_evidence sp = []) then r else
          r <| issues := <["runtime.safe_point" :=
                mkIssue "runtime safe point resolved from snapshot annotation fallback"
                  (stableFields ValueString (sp_evidence sp))]> (issues r) |>)
  end.

Definition buildFacts (input : Input) (obs : option ContractObservation) :
    Result FactError factRegistry :=
  let r := mkRegistry ∅ ∅ ∅ ∅ ∅ (AsTime (evaluation_time (in_context input))) in
  r ← critical_policies r (critical_fact_policies (in_contract input));
  r ← register r "intent.version.current" (semanticUint (intent_version (in_intent input)))
        no_metadata originBuiltIn;
  r ← register_safe_point r (in_safe_point input);
  match obs with
  | Some obs => register_observation r obs
  | None => Ok r
  end.
End BuildFacts.

(** ** What a registry guarantees *)

Lemma feqb_refl f : IsNaN f = false → feqb f f = true.
Proof.
  unfold feqb, SpecFloat.SFeqb. destruct f as [[]|[]| |[] m e]; try done; intros _; simpl;
    rewrite Z.compare_refl; change (Pos.compare_cont Eq m m) with (Pos.compare m m);
    by rewrite Pos.compare_refl.
Qed.

Lemma Equal_refl v : Equal v v = true.
Proof.
  revert v. fix go 1. intros [|s|z|z|f|b|s|fs|vs]; simpl.
  - done.
  - by apply bool_decide_eq_true.
  - apply Z.eqb_refl.
  - apply Z.eqb_refl.
  - unfold double_Equal. destruct (IsNaN f) eqn:E; [by rewrite orb_true_r|by rewrite feqb_refl].
  - by destruct b.
  - by apply bool_decide_eq_true.
  - induction fs as [|[k [v|]] fs IH]; [done| |]; rewrite bool_decide_eq_true_2 by done; simpl.
    + rewrite (go v). exact IH.
    + exact IH.
  - induction vs as [|[v|] vs IH]; [done| |].
    + rewrite (go v). exact IH.
    + exact IH.
Qed.

(** A registry is well formed: every value is finite and comes with its metadata and
    origin, and every policy is one [validateObservationPolicy] accepts. *)
Record facts_ok (r : factRegistry) : Prop := {
  ok_metadata p : is_Some (values r !! p) ↔ is_Some (metadata r !! p);
  ok_origins p : is_Some (values r !! p) ↔ is_Some (origins r !! p);
  ok_finite p v : values r !! p = Some v → finiteSemanticValue v = true;
  ok_policies p policy : policies r !! p = Some policy → validateObservationPolicy (Some policy) = Ok tt;
}.

(** [r'] extends [r]: no value is overwritten and the policies stay. *)
Record extends (r r' : factRegistry) : Prop := {
  ext_ok : facts_ok r → facts_ok r';
  ext_values : values r ⊆ values r';
  ext_policies : policies r' = policies r;
}.

#[export] Instance extends_preorder : PreOrder extends.
Proof.
  split; [by intros r|]. intros r1 r2 r3 [] []. split; [auto|by etrans|congruence].
Qed.

(** The registry holds the value [v] for [path]. *)
Definition holds (r : factRegistry) (path : string) (v : SemanticValue) : Prop :=
  ∃ v', values r !! path = Some v' ∧ Equal v' v = true.

Lemma holds_extends r r' path v : extends r r' → holds r path v → holds r' path v.
Proof. intros [_ Hsub _] (v' & Hv & He). exists v'. split; [by eapply lookup_weaken|done]. Qed.

Lemma is_Some_insert {A B} (m : gmap string A) (m' : gmap string B) k a b p :
  (is_Some (m !! p) ↔ is_Some (m' !! p)) →
  is_Some (<[k := a]> m !! p) ↔ is_Some (<[k := b]> m' !! p).
Proof. destruct (decide (k = p)) as [->|]; [by rewrite !lookup_insert_eq|by rewrite !lookup_insert_ne]. Qed.

Lemma register_extends r path v md o r' :
  register r path (Some v) md o = Ok r' → extends r r' ∧ holds r' path v.
Proof.
  unfold register. destruct (_ || _); [done|]. destruct (finiteSemanticValue v) eqn:Hfin; [|done].
  destruct (issues r !! path); [done|]. simpl. destruct (values r !! path) as [old|] eqn:Hold.
  - destruct (Equal old v) eqn:Heq; [|done]. simpl. destruct (decide _) as [|_]; [done|].
    destruct (_ <? _); intros [= <-]; (split; [|by exists old]); [|done].
    split; [|done|done]. intros [H1 H2 H3 H4].
    assert (His : is_Some (values r !! path)) by by eexists.
    split; simpl; try done; intros p; (destruct (decide (path = p)) as [->|];
      [rewrite lookup_insert_eq; split; [by eexists|done]|by rewrite lookup_insert_ne]).
  - intros [= <-]. split; [split|].
    + intros [H1 H2 H3 H4]. split; simpl; try done.
      * intros p. by apply is_Some_insert.
      * intros p. by apply is_Some_insert.
      * intros p w. destruct (decide (path = p)) as [->|];
          [rewrite lookup_insert_eq; by intros [= <-]|rewrite lookup_insert_ne by done; apply H3].
    + simpl. by apply insert_subseteq.
    + done.
    + exists v. simpl. by rewrite lookup_insert_eq, Equal_refl.
Qed.

Lemma extends_issue r path issue : extends r (r <| issues := <[path := issue]> (issues r) |>).
Proof. split; [by intros []|done|done]. Qed.

Lemma register_opt_extends {A} r path (value : option A) wrap md r' :
  (∀ a, is_Some (wrap a)) →
  register_opt r path value wrap md = Ok r' →
  extends r r' ∧ (∀ a v, value = Some a → wrap a = Some v → holds r' path v).
Proof.
  intros Hw. unfold register_opt. destruct value as [a|]; [|by intros [= <-]].
  destruct (Hw a) as [v Hv]. rewrite Hv. intros H. destruct (register_extends _ _ _ _ _ _ H) as [? Hh].
  split; [done|]. intros ? ? [= <-] ?. congruence.
Qed.

Lemma register_sample_size_extends r path reason value md r' :
  register_sample_size r path reason value md = Ok r' → extends r r'.
Proof.
  unfold register_sample_size. destruct value as [f|]; [|by intros [= <-]].
  destruct (_ || _); [intros [= <-]; apply extends_issue|]. intros H. by apply register_extends in H as [].
Qed.

Lemma register_oldest_sample_extends r at_ md r' :
  register_oldest_sample r at_ md = Ok r' → extends r r'.
Proof.
  unfold register_oldest_sample. destruct at_ as [ts|]; [|by intros [= <-]].
  destruct (negb _); [done|]. destruct (_ <? 0); [intros [= <-]; apply extends_issue|].
  intros H. by apply register_extends in H as [].
Qed.

Lemma register_typed_facts_extends r md l r' :
  register_typed_facts r md l = Ok r' →
  extends r r' ∧ ∀ k v, Some (mkField k (Some v)) ∈ l → holds r' k v.
Proof.
  revert r. induction l as [|[[k [v|]]|] l IH]; intros r; simpl; try done.
  { intros [= <-]. split; [done|set_solver]. }
  destruct (_ || _); [done|]. destruct (negb _); [done|].
  intros (_ & _ & (_ & _ & (r1 & H1 & H2)%bind_Ok)%bind_Ok)%bind_Ok.
  destruct (register_extends _ _ _ _ _ _ H1) as [He Hh]. destruct (IH _ H2) as [He' Hl].
  split; [by etrans|]. intros k' v' [[= -> ->]|Hin]%elem_of_cons; [by eapply holds_extends|auto].
Qed.

Lemma register_observed_facts_extends r l r' :
  register_observed_facts r l = Ok r' →
  extends r r' ∧
  ∀ k v at_ src rev, Some (mkObservedFact (Some (mkField k (Some v))) at_ src rev) ∈ l → holds r' k v.
Proof.
  revert r. induction l as [|[[[[k [v|]]|] at_ src rev]|] l IH]; intros r; simpl; try done.
  { intros [= <-]. split; [done|set_solver]. }
  destruct (_ || _); [done|]. destruct (negb _); [done|].
  intros (_ & _ & (md & _ & (r1 & H1 & H2)%bind_Ok)%bind_Ok)%bind_Ok.
  destruct (register_extends _ _ _ _ _ _ H1) as [He Hh]. destruct (IH _ H2) as [He' Hl].
  split; [by etrans|].
  intros k' v' at' src' rev' [[= -> -> _ _ _]|Hin]%elem_of_cons; [by eapply holds_extends|by eapply Hl].
Qed.

(** The facts an observation states outright. *)
Definition observed (obs : ContractObservation) (path : string) (v : SemanticValue) : Prop :=
  Some (mkField path (Some v)) ∈ typed_facts obs ∨
  (∃ at_ src rev, Some (mkObservedFact (Some (mkField path (Some v))) at_ src rev) ∈ fact_observations obs) ∨
  (path = "sample.policy_lag" ∧ ∃ n, policy_lag obs = Some n ∧ v = Uint64Value n) ∨
  (path = "buffer.level.current" ∧ ∃ n, buffer_level obs = Some n ∧ v = Uint64Value n).

Lemma register_observation_extends r obs r' :
  register_observation r obs = Ok r' →
  extends r r' ∧ ∀ path v, observed obs path v → holds r' path v.
Proof.
  unfold register_observation.
  intros (md & _ & (r1 & H1 & (r2 & H2 & (r3 & H3 & (r4 & H4 & (r5 & H5 & (r6 & H6 & (r7 & H7 & H)%bind_Ok)%bind_Ok)%bind_Ok)%bind_Ok)%bind_Ok)%bind_Ok)%bind_Ok)%bind_Ok.
  apply bind_Ok in H as (r8 & H8 & (r9 & H9 & (r10 & H10 & (r11 & H11 & H12)%bind_Ok)%bind_Ok)%bind_Ok).
  apply register_opt_extends in H1 as [E1 K1]; [|done]. apply register_opt_extends in H2 as [E2 _]; [|done].
  apply register_opt_extends in H3 as [E3 K3]; [|done]. apply register_opt_extends in H4 as [E4 _]; [|done].
  apply register_opt_extends in H5 as [E5 _]; [|done]. apply register_opt_extends in H6 as [E6 _]; [|done].
  apply register_opt_extends in H7 as [E7 _]; [|done].
  apply register_sample_size_extends in H8, H9. apply register_oldest_sample_extends in H10.
  apply register_typed_facts_extends in H11 as [E11 K11].
  apply register_observed_facts_extends in H12 as [E12 K12].
  assert (E3' : extends r3 r') by (do 8 (etrans; [eassumption|]); done).
  split; [by do 3 (etrans; [eassumption|])|].
  intros path v [Hin|[(at_ & src & rev & Hin)|[(-> & n & Hn & ->)|(-> & n & Hn & ->)]]].
  - eapply holds_extends, K11, Hin. done.
  - by eapply K12.
  - apply (holds_extends r1); [by do 2 (etrans; [eassumption|])|]. by eapply K1.
  - apply (holds_extends r3); [done|]. by eapply K3.
Qed.

Lemma critical_policies_ok r l r' :
  critical_policies r l = Ok r' →
  (facts_ok r → facts_ok r') ∧ values r' = values r ∧ policies r ⊆ policies r' ∧
  (∀ critical, critical ∈ l → ∃ c policy, critical = Some c ∧ critical_observation_policy c = Some policy ∧
     policies r' !! TrimSpace (critical_fact_path c) = Some policy).
Proof.
  revert r. induction l as [|[c|] l IH]; intros r; simpl; [|destruct (critical_observation_policy c) as [policy|] eqn:Hpol|]; try done.
  { intros [= <-]. split_and!; try done. set_solver. }
  destruct (bool_decide _); [done|]. case_bool_decide as Hdup; [done|].
  intros ([] & Hval & H)%bind_Ok. destruct (IH _ H) as (Hok & Hv & Hsub & Hall). simpl in *.
  apply eq_None_not_Some in Hdup. split_and!; [|done| |].
  - intros [H1 H2 H3 H4]. apply Hok. split; simpl; try done. intros p policy'.
    destruct (decide (TrimSpace (critical_fact_path c) = p)) as [<-|];
      [rewrite lookup_insert_eq; by intros [= <-]|rewrite lookup_insert_ne by done; apply H4].
  - etrans; [|exact Hsub]. by apply insert_subseteq.
  - intros critical [->|Hin]%elem_of_cons; [|by apply Hall].
    exists c, policy. split_and!; [done..|]. eapply lookup_weaken; [|exact Hsub]. apply lookup_insert_eq.
Qed.

(** The fact registry is sound.  If [buildFacts] succeeds, every registered value
    is finite and has its metadata and origin, every critical policy of the contract
    guards its path and is valid, and every fact an observation states - typed,
    explicitly observed, or in its own field - is held with that very value: two
    surfaces that state different values are rejected, never silently overridden. *)
Theorem buildFacts_sound ValueString input obs r :
  buildFacts ValueString input (Some obs) = Ok r →
  facts_ok r ∧
  (∀ critical, critical ∈ critical_fact_policies (in_contract input) →
     ∃ c policy, critical = Some c ∧ critical_observation_policy c = Some policy ∧
       policies r !! TrimSpace (critical_fact_path c) = Some policy) ∧
  (∀ path v, observed obs path v → holds r path v) ∧
  holds r "intent.version.current" (Uint64Value (intent_version (in_intent input))).
Proof.
  unfold buildFacts. intros (r1 & H1 & (r2 & H2 & (r3 & H3 & H4)%bind_Ok)%bind_Ok)%bind_Ok.
  apply critical_policies_ok in H1 as (Hok & _ & _ & Hpol).
  apply register_extends in H2 as [E2 Hi]. apply register_observation_extends in H4 as [E4 Hobs].
  assert (E3 : extends r2 r3).
  { unfold register_safe_point in H3. destruct (in_safe_point input) as [sp|]; [|by injection H3 as <-].
    apply bind_Ok in H3 as (r2' & H3 & [= <-]). trans r2'.
    - destruct (sp_present sp); [by apply register_extends in H3 as []|by injection H3 as <-].
    - destruct (bool_decide _); [done|]. apply extends_issue. }
  assert (E : extends r1 r) by by do 2 (etrans; [eassumption|]).
  split_and!; [| |done|].
  - apply E, Hok. split; simpl; intros p; rewrite ?lookup_empty; try done.
  - intros critical Hin. rewrite (ext_policies _ _ E). by apply Hpol.
  - eapply holds_extends, Hi. by etrans.
Qed.
