(* ===== verification/ComponentRegistry.v ===== *)
(** * Component versions ([scheduler-go/semantics/versions.go], registry)

    The versions of the components a contract may constrain: what is observed
    outranks what the snapshot says, the protocol's own version outranks both,
    and two different versions of the same rank are a conflict.  Lower-casing of
    names outside ASCII follows Go's Unicode tables, a parameter. *)

From Stdlib Require Import ZArith Lia Ascii.
From S2P Require Import Prelude GoStrings GoTime SemVer Semantics Freshness.
From stdpp Require Import options.

Local Open Scope Z_scope.

Definition ProtocolVersion : string := "0.3.0".

Definition componentPrioritySnapshot : Z := 1.
Definition componentPriorityObservation : Z := 2.
Definition componentPriorityBuiltIn : Z := 3.

Definition ComponentKind_code (k : ComponentKind) : Z + Z :=
  match k with
  | COMPONENT_KIND_UNKNOWN => inl 0 | COMPONENT_KIND_PROTOCOL => inl 1
  | COMPONENT_KIND_SCHEDULER => inl 2 | COMPONENT_KIND_RUNTIME => inl 3
  | COMPONENT_KIND_OPERATOR => inl 4 | COMPONENT_KIND_PROVIDER => inl 5
  | COMPONENT_KIND_FRAMEWORK_ADAPTER => inl 6 | COMPONENT_KIND_ROLLOUT_ENGINE => inl 7
  | COMPONENT_KIND_TRAINER => inl 8 | COMPONENT_KIND_CUDA_DRIVER => inl 9
  | COMPONENT_KIND_EXECUTION_BACKEND => inl 10 | COMPONENT_KIND_UNNAMED n => inr n
  end.

Definition ComponentKind_decode (c : Z + Z) : option ComponentKind :=
  match c with
  | inr n => Some (COMPONENT_KIND_UNNAMED n)
  | inl i => nth_error
      [COMPONENT_KIND_UNKNOWN; COMPONENT_KIND_PROTOCOL; COMPONENT_KIND_SCHEDULER;
       COMPONENT_KIND_RUNTIME; COMPONENT_KIND_OPERATOR; COMPONENT_KIND_PROVIDER;
       COMPONENT_KIND_FRAMEWORK_ADAPTER; COMPONENT_KIND_ROLLOUT_ENGINE; COMPONENT_KIND_TRAINER;
       COMPONENT_KIND_CUDA_DRIVER; COMPONENT_KIND_EXECUTION_BACKEND] (Z.to_nat i)
  end.

#[export] Instance ComponentKind_countable : Countable ComponentKind.
Proof. apply (inj_countable ComponentKind_code ComponentKind_decode). by intros []. Defined.

Definition kind_known (k : ComponentKind) : bool :=
  match k with COMPONENT_KIND_UNKNOWN | COMPONENT_KIND_UNNAMED _ => false | _ => true end.

(** [componentIdentity] *)
Definition componentIdentity : Type := ComponentKind * string.

Record componentEntry := mkEntry {
  entry_version : ComponentVersion;
  priority : Z;
  builtIn : bool;
  conflict : string;
}.

Record componentRegistry := mkComponents {
  entries : gmap componentIdentity componentEntry;
  evaluationAt : Z;
  devicesKnown : bool;
  hasGPU : bool;
}.

#[export] Instance eta_componentEntry : Eta componentEntry := λ e,
  mkEntry (entry_version e) (priority e) (builtIn e) (conflict e).
#[export] Instance eta_componentRegistry : Eta componentRegistry := λ r,
  mkComponents (entries r) (evaluationAt r) (devicesKnown r) (hasGPU r).

Inductive ComponentError :=
| ComponentNil | ComponentKindInvalid | ComponentNameInvalid | ComponentVersionInvalid
| ComponentObservedAtRequired | ComponentObservedAtInvalid | ComponentSourceInvalid.

Definition componentAliases : list (string * ComponentKind) :=
  [("protocol", COMPONENT_KIND_PROTOCOL); ("scheduler", COMPONENT_KIND_SCHEDULER);
   ("runtime", COMPONENT_KIND_RUNTIME); ("operator", COMPONENT_KIND_OPERATOR);
   ("provider", COMPONENT_KIND_PROVIDER); ("framework-adapter", COMPONENT_KIND_FRAMEWORK_ADAPTER);
   ("rollout-engine", COMPONENT_KIND_ROLLOUT_ENGINE); ("trainer", COMPONENT_KIND_TRAINER);
   ("cuda-driver", COMPONENT_KIND_CUDA_DRIVER);
   ("execution-backend", COMPONENT_KIND_EXECUTION_BACKEND)].

(** A string that is non-empty and equal to its trimmed form. *)
Definition canonical (s : string) : bool := negb (bool_decide (s = "") || bool_decide (s ≠ TrimSpace s)).

Section Components.
Context (unicode_lower unicode_quote : string → string).

Definition lower : string → string := ToLower unicode_lower.

Definition canonicalComponentAlias (value : string) : string :=
  replace_byte "_"%char "-"%char (lower (TrimSpace value)).

Definition ComponentKindForAlias (value : string) : option ComponentKind :=
  snd <$> find (λ p, bool_decide (p.1 = canonicalComponentAlias value)) componentAliases.

(** ** Registration *)

Definition validate_component (v : ComponentVersion) (built_in : bool) : Result ComponentError unit :=
  _ ← guard_err (kind_known (comp_kind v)) ComponentKindInvalid;
  _ ← guard_err (canonical (comp_name v)) ComponentNameInvalid;
  _ ← guard_err (canonical (comp_version v)) ComponentVersionInvalid;
  if built_in : bool then Ok tt else
  match comp_observed_at v with
  | None => Err ComponentObservedAtRequired
  | Some ts =>
      _ ← guard_err (Timestamp_valid ts) ComponentObservedAtInvalid;
      guard_err (canonical (comp_source v)) ComponentSourceInvalid
  end.

Definition identity_of (v : ComponentVersion) : componentIdentity := (comp_kind v, lower (comp_name v)).

Definition conflict_message (a b : string) : string :=
  "conflicting component versions " +:+ Quote unicode_quote a +:+ " and " +:+ Quote unicode_quote b
  +:+ " at the same priority".

(** The entry after an observation of the same identity arrives. *)
Definition merge_entry (existing : option componentEntry) (incoming : componentEntry) : componentEntry :=
  match existing with
  | None => incoming
  | Some old =>
      if priority old <? priority incoming then incoming else
      if priority incoming <? priority old then old else
      if versionsSemanticallyEqual (comp_version (entry_version old)) (comp_version (entry_version incoming))
      then old else
      old <| conflict := conflict_message (comp_version (entry_version old))
                                          (comp_version (entry_version incoming)) |>
  end.

Definition add (r : componentRegistry) (version : option ComponentVersion) (prio : Z) (built_in : bool) :
    Result ComponentError componentRegistry :=
  match version with
  | None => Err ComponentNil
  | Some v =>
      _ ← validate_component v built_in;
      let id := identity_of v in
      Ok (r <| entries := <[id := merge_entry (entries r !! id) (mkEntry v prio built_in "")]> (entries r) |>)
  end.

Fixpoint add_all (r : componentRegistry) (versions : list (option ComponentVersion)) (prio : Z) :
    Result ComponentError componentRegistry :=
  match versions with
  | [] => Ok r
  | v :: vs => r ← add r v prio false; add_all r vs prio
  end.

Definition snapshot_kind (v : option ComponentVersion) : bool :=
  match v with
  | Some v => bool_decide (comp_kind v = COMPONENT_KIND_PROVIDER ∨ comp_kind v = COMPONENT_KIND_CUDA_DRIVER)
  | None => false
  end.

Fixpoint add_devices (r : componentRegistry) (ds : list (option DeviceView)) :
    Result ComponentError componentRegistry :=
  match ds with
  | [] => Ok r
  | None :: ds => add_devices (r <| devicesKnown := false |>) ds
  | Some d :: ds =>
      if decide (device_kind d = DEVICE_KIND_UNKNOWN)
      then add_devices (r <| devicesKnown := false |>) ds else
      let r := if decide (device_kind d = DEVICE_KIND_GPU) then r <| hasGPU := true |> else r in
      r ← add_all r (filter (λ v, snapshot_kind v = true) (device_component_versions d))
            componentPrioritySnapshot;
      add_devices r ds
  end.

Definition protocol_component : ComponentVersion :=
  mkComponentVersion COMPONENT_KIND_PROTOCOL "protocol" ProtocolVersion None "scheduler-protocol" 0 [].

Definition buildComponentRegistry (input : Input) (obs : option ContractObservation) :
    Result ComponentError componentRegistry :=
  let r := mkComponents ∅ (AsTime (evaluation_time (in_context input))) false false in
  r ← add r (Some protocol_component) componentPriorityBuiltIn true;
  r ← add_all r (from_option component_versions [] obs) componentPriorityObservation;
  match devices (in_snapshot input) with
  | [] => Ok r
  | ds => add_devices (r <| devicesKnown := true |>) ds
  end.

(** ** Resolution *)

(** [registry.byKind[kind]]: the identities of a kind, by name. *)
Definition byKind (r : componentRegistry) (kind : ComponentKind) : list componentIdentity :=
  sort_by (λ a b, str_ltb a.2 b.2) (filter (λ id, id.1 = kind) (fst <$> map_to_list (entries r))).

Inductive KindError := ConstraintMalformed | AliasUnrecognized | KindUnrecognized | AliasConflicts.

Definition KindError_message (e : KindError) : string :=
  match e with
  | ConstraintMalformed => "component constraint is malformed"
  | AliasUnrecognized => "legacy component must use a recognized alias"
  | KindUnrecognized => "component kind is not recognized"
  | AliasConflicts => "component alias conflicts with component kind"
  end.

Definition constraintComponentKind (constraint : option VersionConstraint) :
    Result KindError (ComponentKind * bool) :=
  match constraint with
  | None => Err ConstraintMalformed
  | Some c =>
      if negb (canonical (component c)) then Err ConstraintMalformed else
      let alias := ComponentKindForAlias (component c) in
      match component_kind c with
      | COMPONENT_KIND_UNKNOWN =>
          match alias with Some k => Ok (k, true) | None => Err AliasUnrecognized end
      | COMPONENT_KIND_UNNAMED _ => Err KindUnrecognized
      | kind =>
          match alias with
          | Some k => if decide (k = kind) then Ok (kind, true) else Err AliasConflicts
          | None => Ok (kind, false)
          end
      end
  end.

Inductive Resolution := Found (e : componentEntry) | NotFound | Ambiguous (message : string).

Definition resolve (r : componentRegistry) (kind : ComponentKind) (comp : string) (generic : bool) :
    Resolution :=
  if generic then
    match byKind r kind with
    | [] => NotFound
    | [id] => match entries r !! id with Some e => Found e | None => NotFound end
    | _ => Ambiguous "component alias matches multiple observed components"
    end
  else match entries r !! (kind, lower comp) with Some e => Found e | None => NotFound end.

Definition versionObservationPolicy (c : VersionConstraint) : ObservationPolicy :=
  default (mkObservationPolicy None OBSERVATION_DISPOSITION_BLOCK OBSERVATION_DISPOSITION_BLOCK)
    (vc_observation_policy c).

Definition componentObservationState (at_ : Z) (v : ComponentVersion) (policy : ObservationPolicy) :
    observationState * list (option SemanticField) * string :=
  match comp_observed_at v with
  | None => (observationStale, [], "component observation time is missing")
  | Some ts =>
      let observed := AsTime (Some ts) in
      let age := time_Sub at_ observed in
      let ev := [semanticField "component.observed_at" (semanticString (FormatRFC3339Nano observed));
                 semanticField "component.age_ms" (semanticInt (Milliseconds age))] in
      if age <? 0 then (observationStale, ev, "component observation time is after evaluation time") else
      match maximum_age policy with
      | Some maximumAge =>
          let ev := ev ++ [semanticField "component.maximum_age_ms"
                             (semanticInt (Milliseconds (AsDuration maximumAge)))] in
          if AsDuration maximumAge <? age
          then (observationStale, ev, "component observation exceeded maximum age")
          else (observationFresh, ev, "component observation is fresh")
      | None => (observationFresh, ev, "component observation is fresh")
      end
  end.

Definition componentEvidence (v : ComponentVersion) : list (option SemanticField) :=
  [semanticField "component.name" (semanticString (comp_name v));
   semanticField "component.source" (semanticString (comp_source v));
   semanticField "component.revision" (semanticUint (comp_revision v))].

Definition componentMissingKey (kind : ComponentKind) (comp : string) : string :=
  "component_version." +:+ lower (TrimPrefix (ComponentKind_String kind) "COMPONENT_KIND_") +:+ "."
  +:+ lower comp.

(** ** Matching *)

Definition no_prerelease (r : Result VersionError semanticVersion) : bool :=
  match r with Ok v => bool_decide (prerelease v = []) | Err _ => true end.

Definition evaluateVersionMatch (current : string) (c : VersionConstraint) : bool * string :=
  let required := vc_version c in
  if decide (vc_operator c = VERSION_OPERATOR_EXACT) then
    let exact := bool_decide (current = required) ||
      match normalizeVersion current, normalizeVersion required with
      | Ok a, Ok b => bool_decide (a = b)
      | _, _ => false
      end in
    if exact && negb (no_prerelease (parseSemanticVersion current)) && negb (allow_prerelease c)
    then (false, "prerelease component version is not allowed") else
    if exact then (true, "component version exactly matched")
    else (false, "component version did not exactly match")
  else
  match normalizeVersion current, normalizeVersion required with
  | Ok actual, Ok minimum =>
      let pa := parseSemanticVersion actual in
      let pm := parseSemanticVersion minimum in
      if (negb (no_prerelease pa) || negb (no_prerelease pm)) && negb (allow_prerelease c)
      then (false, "prerelease component version is not allowed") else
      match vc_operator c with
      | VERSION_OPERATOR_SEMVER =>
          if match pa, pm with Ok a, Ok m => 0 <=? compareSemanticVersions a m | _, _ => false end
          then (true, "component semantic version satisfies the minimum")
          else (false, "component semantic version is below the minimum")
      | VERSION_OPERATOR_COMPATIBLE =>
          if protocolCompatible actual minimum then (true, "component semantic version is compatible")
          else (false, "component semantic version is incompatible")
      | _ => (false, "version operator is unknown")
      end
  | _, _ => (false, "component or required version is not valid semantic version syntax")
  end.
End Components.

(** ** What a registry holds *)

Section Registry.
Context (unicode_lower unicode_quote : string → string).

Abbreviation identity := (identity_of unicode_lower).
Abbreviation merge := (merge_entry unicode_quote).

(** The component versions offered to the registry, in order, as fresh entries. *)
Definition offered_device (d : option DeviceView) : list componentEntry :=
  match d with
  | Some d =>
      if decide (device_kind d = DEVICE_KIND_UNKNOWN) then [] else
      (λ v, mkEntry v componentPrioritySnapshot false "") <$>
        omap id (filter (λ v, snapshot_kind v = true) (device_component_versions d))
  | None => []
  end.

Definition offered_devices (ds : list (option DeviceView)) : list componentEntry := ds ≫= offered_device.

Definition offered (input : Input) (obs : option ContractObservation) : list componentEntry :=
  mkEntry protocol_component componentPriorityBuiltIn true "" ::
  ((λ v, mkEntry v componentPriorityObservation false "") <$> omap id (from_option component_versions [] obs)) ++
  offered_devices (devices (in_snapshot input)).

Definition merge_all (acc : option componentEntry) (l : list componentEntry) : option componentEntry :=
  foldl (λ acc e, Some (merge acc e)) acc l.

Definition of_identity (id : componentIdentity) (l : list componentEntry) : list componentEntry :=
  filter (λ e, identity (entry_version e) = id) l.

Lemma add_entries r v prio b r' id :
  add unicode_lower unicode_quote r (Some v) prio b = Ok r' →
  entries r' !! id = merge_all (entries r !! id) (of_identity id [mkEntry v prio b ""]).
Proof.
  unfold add. intros (_ & _ & [= <-])%bind_Ok. unfold of_identity. simpl.
  rewrite filter_cons. simpl. case_decide as Hid; simpl.
  - by rewrite <-Hid, lookup_insert_eq.
  - by rewrite lookup_insert_ne.
Qed.

Lemma merge_all_app id acc l1 l2 :
  merge_all acc (of_identity id (l1 ++ l2)) = merge_all (merge_all acc (of_identity id l1)) (of_identity id l2).
Proof. unfold of_identity, merge_all. by rewrite filter_app, foldl_app. Qed.

Lemma add_all_entries r vs prio r' i :
  add_all unicode_lower unicode_quote r vs prio = Ok r' →
  entries r' !! i = merge_all (entries r !! i)
    (of_identity i ((λ v, mkEntry v prio false "") <$> omap id vs)).
Proof.
  revert r. induction vs as [|[v|] vs IH]; intros r; simpl; [by intros [= <-]| |done].
  intros (r1 & H1 & H2)%bind_Ok. rewrite (IH _ H2), (add_entries _ _ _ _ _ i H1).
  by rewrite <-merge_all_app.
Qed.

Lemma add_devices_entries r ds r' id :
  add_devices unicode_lower unicode_quote r ds = Ok r' →
  entries r' !! id = merge_all (entries r !! id) (of_identity id (offered_devices ds)).
Proof.
  revert r. induction ds as [|[d|] ds IH]; intros r; simpl; [by intros [= <-]| |].
  - change (offered_devices (Some d :: ds)) with (offered_device (Some d) ++ offered_devices ds).
    unfold offered_device. case_decide as Hk; [intros H; by rewrite (IH _ H)|].
    intros (r1 & H1 & H2)%bind_Ok. rewrite (IH _ H2), merge_all_app.
    rewrite (add_all_entries _ _ _ _ id H1). by destruct (decide _).
  - intros H. by rewrite (IH _ H).
Qed.

Lemma build_entries input obs r id :
  buildComponentRegistry unicode_lower unicode_quote input obs = Ok r →
  entries r !! id = merge_all None (of_identity id (offered input obs)).
Proof.
  unfold buildComponentRegistry, offered.
  intros (r1 & H1 & (r2 & H2 & H3)%bind_Ok)%bind_Ok.
  apply (add_entries _ _ _ _ _ id) in H1. apply (add_all_entries _ _ _ _ id) in H2.
  change (?x :: ?l) with ([x] ++ l). rewrite !merge_all_app. simpl in H1. rewrite lookup_empty in H1.
  rewrite <-H1, <-H2. destruct (devices (in_snapshot input)) as [|d ds]; [by injection H3 as <-|].
  by apply (add_devices_entries _ _ _ id) in H3.
Qed.

(** [e] is offered: the same component at the same priority. *)
Definition same_offer (e x : componentEntry) : Prop :=
  entry_version e = entry_version x ∧ priority e = priority x ∧ builtIn e = builtIn x.

Definition agrees (e x : componentEntry) : Prop :=
  versionsSemanticallyEqual (comp_version (entry_version e)) (comp_version (entry_version x)) = true.

(** What merging a list of offers keeps. *)
Definition merged (l : list componentEntry) (e : componentEntry) : Prop :=
  (∃ x, x ∈ l ∧ same_offer e x) ∧ (∀ x, x ∈ l → priority x ≤ priority e) ∧
  (conflict e = "" ↔ ∀ x, x ∈ l → priority x = priority e → agrees e x).

Lemma agrees_refl e e' : entry_version e = entry_version e' → agrees e e'.
Proof. unfold agrees, versionsSemanticallyEqual. intros ->. by rewrite bool_decide_eq_true_2. Qed.

Lemma merged_merge l e x :
  merged l e → conflict x = "" → merged (l ++ [x]) (merge (Some e) x).
Proof.
  intros ((y & Hy & Hoff) & Hmax & Hc) Hx. unfold merge_entry.
  assert (Hin : ∀ z, z ∈ l ++ [x] ↔ z ∈ l ∨ z = x) by set_solver.
  destruct (Z.ltb_spec (priority e) (priority x)) as [Hlt|Hge]; [|destruct (Z.ltb_spec (priority x) (priority e)) as [Hlt'|Hge']].
  - split_and!.
    + exists x. split; [set_solver|done].
    + intros z [Hz| ->]%Hin; [specialize (Hmax z Hz)|]; lia.
    + split; [|done]. intros _ z [Hz| ->]%Hin Hp; [specialize (Hmax z Hz); lia|by apply agrees_refl].
  - split_and!.
    + exists y. split; [set_solver|done].
    + intros z [Hz| ->]%Hin; [auto|lia].
    + rewrite Hc. split; intros H z Hz; [|apply H; set_solver].
      apply Hin in Hz as [Hz| ->]; [auto|lia].
  - destruct (versionsSemanticallyEqual _ _) eqn:Heq.
    + split_and!.
      * exists y. split; [set_solver|done].
      * intros z [Hz| ->]%Hin; [auto|lia].
      * rewrite Hc. split; intros H z Hz; [|apply H; set_solver].
        apply Hin in Hz as [Hz| ->]; [auto|done].
    + split_and!.
      * exists y. split; [set_solver|done].
      * intros z [Hz| ->]%Hin; [by apply Hmax|simpl; lia].
      * split; [done|]. intros H. exfalso. specialize (H x). unfold agrees in H. simpl in H.
        rewrite Heq in H. discriminate H; [set_solver|lia].
Qed.

Lemma merge_all_merged l x :
  Forall (λ x, conflict x = "") (x :: l) → ∃ e, merge_all None (x :: l) = Some e ∧ merged (x :: l) e.
Proof.
  intros Hall. inversion Hall as [|? ? Hx Hl]; subst. unfold merge_all. simpl.
  assert (H0 : merged [x] x).
  { split_and!; [exists x; split; [set_solver|done]|set_solver|]. split; [|done].
    intros _ z ->%list_elem_of_singleton _. by apply agrees_refl. }
  change (x :: l) with ([x] ++ l). revert H0. generalize [x]. clear Hall Hx. rename x into e0.
  revert e0. induction l as [|z l IH]; intros e0 pre H0; simpl; [exists e0; by rewrite app_nil_r|].
  apply Forall_cons in Hl as [Hz Hl]. replace (pre ++ z :: l) with ((pre ++ [z]) ++ l) by by rewrite <-app_assoc.
  apply (IH Hl). by apply merged_merge.
Qed.

Lemma offered_fresh input obs : Forall (λ x, conflict x = "") (offered input obs).
Proof.
  unfold offered, offered_devices. constructor; [done|]. apply Forall_app. split.
  - by apply Forall_fmap, Forall_true.
  - apply Forall_bind, Forall_true. intros [d|]; [|constructor]. simpl. case_decide; [constructor|].
    by apply Forall_fmap, Forall_true.
Qed.

(** What the component registry holds.  An identity (kind and lower-cased name)
    is present exactly when some surface offered it; its entry is an offer of the
    highest priority among them, and it is free of conflict exactly when every offer
    of that priority is semantically the same version - whatever the order in which
    the versions were offered. *)
Theorem buildComponentRegistry_spec input obs r id :
  buildComponentRegistry unicode_lower unicode_quote input obs = Ok r →
  match entries r !! id with
  | None => ∀ x, x ∈ offered input obs → identity (entry_version x) ≠ id
  | Some e => merged (of_identity id (offered input obs)) e
  end.
Proof.
  intros H. rewrite (build_entries _ _ _ id H).
  destruct (of_identity id (offered input obs)) as [|x l] eqn:E.
  - simpl. intros x Hx Hid. assert (Hin : x ∈ of_identity id (offered input obs)).
    { unfold of_identity. rewrite list_elem_of_filter. done. }
    rewrite E in Hin. set_solver.
  - destruct (merge_all_merged l x) as (e & -> & He); [|done]. rewrite <-E. unfold of_identity.
    apply Forall_forall. intros z Hz. rewrite list_elem_of_filter in Hz.
    pose proof (offered_fresh input obs) as Hf. rewrite Forall_forall in Hf. apply Hf, Hz.
Qed.
End Registry.

(** ** Matching a version *)

Definition prerelease_free (s : string) : Prop :=
  ∀ v, parseSemanticVersion s = Ok v → prerelease v = [].

(** What a constraint asks of a version, as its operator reads. *)
Definition version_accepted (current : string) (c : VersionConstraint) : Prop :=
  match vc_operator c with
  | VERSION_OPERATOR_EXACT =>
      versionsSemanticallyEqual current (vc_version c) = true ∧
      (allow_prerelease c = true ∨ prerelease_free current)
  | VERSION_OPERATOR_SEMVER =>
      (∃ a m, parseSemanticVersion current = Ok a ∧ parseSemanticVersion (vc_version c) = Ok m ∧
         0 ≤ compareSemanticVersions a m) ∧
      (allow_prerelease c = true ∨ prerelease_free current ∧ prerelease_free (vc_version c))
  | VERSION_OPERATOR_COMPATIBLE =>
      VersionsCompatible current (vc_version c) = true ∧
      (allow_prerelease c = true ∨ prerelease_free current ∧ prerelease_free (vc_version c))
  | _ => False
  end.

Lemma no_prerelease_spec s : no_prerelease (parseSemanticVersion s) = true ↔ prerelease_free s.
Proof.
  unfold no_prerelease, prerelease_free. destruct (parseSemanticVersion s) as [v|]; [|naive_solver].
  rewrite bool_decide_eq_true. naive_solver.
Qed.

Lemma normalize_parse s n :
  normalizeVersion s = Ok n → ∃ v, parseSemanticVersion s = Ok v ∧ parseSemanticVersion n = Ok v.
Proof.
  unfold normalizeVersion. destruct (parseSemanticVersion s) as [v|] eqn:E; [|done]. intros [= <-].
  exists v. split; [done|]. by apply parse_print, (parse_wf s).
Qed.

Lemma normalize_Err s e : normalizeVersion s = Err e → parseSemanticVersion s = Err e.
Proof. unfold normalizeVersion. destruct (parseSemanticVersion s); naive_solver. Qed.

(** Two versions as the non-exact operators read them. *)
Lemma normalize_both s t :
  (∃ a m va vm, normalizeVersion s = Ok a ∧ normalizeVersion t = Ok m ∧
     parseSemanticVersion s = Ok va ∧ parseSemanticVersion a = Ok va ∧
     parseSemanticVersion t = Ok vm ∧ parseSemanticVersion m = Ok vm) ∨
  (match normalizeVersion s, normalizeVersion t with Ok _, Ok _ => False | _, _ => True end ∧
   match parseSemanticVersion s, parseSemanticVersion t with Ok _, Ok _ => False | _, _ => True end).
Proof.
  destruct (normalizeVersion s) as [a|e] eqn:Ea; [|right; by rewrite (normalize_Err _ _ Ea)].
  destruct (normalize_parse _ _ Ea) as (va & Hs & Ha).
  destruct (normalizeVersion t) as [m|e] eqn:Em; [|right; by rewrite (normalize_Err _ _ Em), Hs].
  destruct (normalize_parse _ _ Em) as (vm & ? & ?). left. exists a, m, va, vm. done.
Qed.

(** [evaluateVersionMatch] accepts exactly the versions the constraint's operator
    describes: the same version up to normalisation, a version not older than the
    required one, or one in its compatible window; a prerelease only if the
    constraint allows it; and nothing for an operator the schema does not name. *)
Theorem evaluateVersionMatch_spec current c :
  (evaluateVersionMatch current c).1 = true ↔ version_accepted current c.
Proof.
  unfold evaluateVersionMatch, version_accepted.
  pose proof (no_prerelease_spec current) as Hf1. pose proof (no_prerelease_spec (vc_version c)) as Hf2.
  destruct (decide (vc_operator c = VERSION_OPERATOR_EXACT)) as [Hop|Hop].
  { rewrite Hop. change (bool_decide (current = vc_version c) || _) with (versionsSemanticallyEqual current (vc_version c)).
    rewrite <-Hf1.
    destruct (versionsSemanticallyEqual _ _), (no_prerelease _), (allow_prerelease c); naive_solver. }
  unfold VersionsCompatible, protocolCompatible.
  destruct (normalize_both current (vc_version c))
    as [(a & m & va & vm & Ea & Em & Hs & Ha & Ht & Hm)|[Hn Hp]].
  - rewrite Hs in Hf1. rewrite Ht in Hf2. rewrite Ea, Em, Hs, Ha, Ht, Hm.
    revert Hf1 Hf2. generalize (no_prerelease (Ok va)) (no_prerelease (Ok vm)). intros pa pm Hf1 Hf2.
    destruct (vc_operator c); try (by destruct pa, pm, (allow_prerelease c)); rewrite <-Hf1, <-Hf2.
    + assert (Hcmp : (∃ a m0, @Ok VersionError _ va = Ok a ∧ @Ok VersionError _ vm = Ok m0 ∧ 0 ≤ compareSemanticVersions a m0) ↔
        (0 <=? compareSemanticVersions va vm) = true) by (rewrite Z.leb_le; naive_solver).
      rewrite Hcmp. by destruct pa, pm, (allow_prerelease c), (0 <=? compareSemanticVersions va vm); naive_solver.
    + destruct (_ && _ && _); destruct pa, pm, (allow_prerelease c); naive_solver.
  - destruct (vc_operator c); try done.
    all: destruct (normalizeVersion current), (normalizeVersion (vc_version c)); try done.
    all: destruct (parseSemanticVersion current), (parseSemanticVersion (vc_version c)); naive_solver.
Qed.
