(* ===== verification/Evaluator.v ===== *)
(** * The contract evaluator ([scheduler-go/semantics/evaluator.go])

    Every clause of an execution contract is evaluated against the facts and the
    component versions observed, and the evaluations are aggregated into one
    decision.  Parameters: the text protobuf gives a value ([ValueString]), the
    SHA-256 digest of an evaluation's context and wire form ([digest]), and Go's
    Unicode tables for lower-casing and quoting. *)

From Stdlib Require Import ZArith Lia Ascii.
From S2P Require Import Prelude GoStrings GoTime GoFloat SemVer Semantics Freshness ComponentRegistry.
From stdpp Require Import options.

Local Open Scope Z_scope.

(** ** Conditions *)

Definition result_of (status : ContractEvaluationStatus) (missing : list string)
    (ev : list (option SemanticField)) (det : string) : conditionResult :=
  mkConditionResult status missing ev det OBSERVATION_DISPOSITION_UNKNOWN.

Section Connectives.
Context (eval : option Condition → conditionResult).

(** Append a predicate's evidence, missing facts and disposition. *)
Definition combine (acc res : conditionResult) : conditionResult :=
  acc <| cr_evidence := cr_evidence acc ++ cr_evidence res |>
      <| cr_missing := cr_missing acc ++ cr_missing res |>
      <| cr_disposition := strongerDisposition (cr_disposition acc) (cr_disposition res) |>.

Fixpoint and_loop (preds : list (option Condition)) (acc : conditionResult) (indeterminate : bool) :
    conditionResult :=
  match preds with
  | [] =>
      if indeterminate
      then acc <| cr_status := STATUS_INDETERMINATE |> <| cr_detail := "AND predicate indeterminate" |>
      else acc
  | p :: preds =>
      let res := eval p in
      let acc := combine acc res in
      match cr_status res with
      | STATUS_VIOLATED =>
          acc <| cr_status := STATUS_VIOLATED |> <| cr_detail := "AND predicate violated" |>
              <| cr_disposition := cr_disposition res |>
      | STATUS_INDETERMINATE => and_loop preds acc true
      | _ => and_loop preds acc indeterminate
      end
  end.

Fixpoint or_loop (preds : list (option Condition)) (acc : conditionResult) (indeterminate : bool) :
    conditionResult :=
  match preds with
  | [] =>
      if indeterminate
      then acc <| cr_status := STATUS_INDETERMINATE |> <| cr_detail := "OR predicate indeterminate" |>
      else acc
  | p :: preds =>
      let res := eval p in
      let acc := combine acc res in
      match cr_status res with
      | STATUS_SATISFIED =>
          acc <| cr_status := STATUS_SATISFIED |> <| cr_detail := "OR predicate satisfied" |>
              <| cr_disposition := OBSERVATION_DISPOSITION_UNKNOWN |>
      | STATUS_INDETERMINATE => or_loop preds acc true
      | _ => or_loop preds acc indeterminate
      end
  end.

Definition evalLogicalAND (preds : list (option Condition)) : conditionResult :=
  and_loop preds (empty_result <| cr_status := STATUS_SATISFIED |>) false.

Definition evalLogicalOR (preds : list (option Condition)) : conditionResult :=
  or_loop preds (empty_result <| cr_status := STATUS_VIOLATED |>) false.

Definition negate_status (s : ContractEvaluationStatus) : ContractEvaluationStatus :=
  match s with
  | STATUS_SATISFIED => STATUS_VIOLATED
  | STATUS_VIOLATED => STATUS_SATISFIED
  | s => s
  end.

Definition evalLogicalNOT (preds : list (option Condition)) : conditionResult :=
  match preds with
  | [p] =>
      let res := eval p in
      if decide (cr_disposition res = OBSERVATION_DISPOSITION_UNKNOWN)
      then res <| cr_status := negate_status (cr_status res) |> <| cr_detail := "NOT predicate evaluated" |>
      else res <| cr_detail := "NOT predicate observation unavailable: " +:+ cr_detail res |>
  | _ => result_of STATUS_INDETERMINATE [] [] "NOT requires exactly one predicate"
  end.
End Connectives.

(** The guard's result when it stands for the whole predicate. *)
Definition guard_blocks (g : option conditionResult) : option conditionResult :=
  match g with
  | Some g => if decide (cr_status g = STATUS_UNKNOWN) then None else Some g
  | None => None
  end.

Definition guard_evidence (g : option conditionResult) : list (option SemanticField) :=
  from_option cr_evidence [] g.

(** A fact that is not registered. *)
Definition unregistered (facts : factRegistry) (path : string) (status : ContractEvaluationStatus)
    (det : string) : conditionResult :=
  match issues facts !! path with
  | Some issue => result_of STATUS_INDETERMINATE [path] (issue_evidence issue) (issue_reason issue)
  | None => result_of status [path] [] det
  end.

Definition evalExists (facts : factRegistry) (path : string) : conditionResult :=
  let guard := observationGuard facts path in
  match guard_blocks guard with
  | Some g => g
  | None =>
      match values facts !! path with
      | None => unregistered facts path STATUS_VIOLATED "fact does not exist"
      | Some v => result_of STATUS_SATISFIED [] (guard_evidence guard ++ [semanticField path (Some v)]) "fact exists"
      end
  end.

(** The right operand, or the missing fact and the message. *)
Definition comparisonValue (facts : factRegistry) (cond : Condition) :
    Result (list string * string) SemanticValue :=
  let path := comparison_fact_path cond in
  if decide (path ≠ "") then
    match values facts !! path with
    | Some v => Ok v
    | None => Err ([path], from_option issue_reason "missing comparison fact" (issues facts !! path))
    end
  else
    match operands cond with
    | [Some v] => if finiteSemanticValue v then Ok v else Err ([], "operand is not finite")
    | [None] => Err ([], "operand is nil")
    | _ => Err ([], "expected exactly one operand")
    end.

Definition evalBinaryCondition (facts : factRegistry) (cond : Condition) : conditionResult :=
  let leftGuard := observationGuard facts (fact_path cond) in
  match guard_blocks leftGuard with
  | Some g => g
  | None =>
      let rightGuard :=
        if decide (comparison_fact_path cond = "") then None
        else observationGuard facts (comparison_fact_path cond) in
      match guard_blocks rightGuard with
      | Some g => g
      | None =>
          match values facts !! fact_path cond with
          | None => unregistered facts (fact_path cond) STATUS_INDETERMINATE "missing fact"
          | Some lhs =>
              match comparisonValue facts cond with
              | Err (missing, msg) =>
                  result_of STATUS_INDETERMINATE missing [semanticField (fact_path cond) (Some lhs)] msg
              | Ok rhs =>
                  let ev := guard_evidence leftGuard ++ guard_evidence rightGuard ++
                    [semanticField (fact_path cond) (Some lhs);
                     semanticField (if decide (comparison_fact_path cond = "") then "operand"
                                    else comparison_fact_path cond) (Some rhs)] in
                  match compareValues (cond_operator cond) (Some lhs) (Some rhs) with
                  | Err msg => result_of STATUS_INDETERMINATE [] ev msg
                  | Ok true => result_of STATUS_SATISFIED [] ev "predicate satisfied"
                  | Ok false => result_of STATUS_VIOLATED [] ev "predicate violated"
                  end
              end
          end
      end
  end.

Definition missing_predicate : conditionResult :=
  result_of STATUS_INDETERMINATE [] [] "missing predicate".

Fixpoint evalCond (facts : factRegistry) (cond : Condition) : conditionResult :=
  let eval o := match o with Some c => evalCond facts c | None => missing_predicate end in
  match cond_operator cond with
  | CONDITION_OPERATOR_AND => evalLogicalAND eval (predicates cond)
  | CONDITION_OPERATOR_OR => evalLogicalOR eval (predicates cond)
  | CONDITION_OPERATOR_NOT => evalLogicalNOT eval (predicates cond)
  | CONDITION_OPERATOR_EXISTS => evalExists facts (fact_path cond)
  | CONDITION_OPERATOR_EQ | CONDITION_OPERATOR_NE | CONDITION_OPERATOR_GT | CONDITION_OPERATOR_GE
  | CONDITION_OPERATOR_LT | CONDITION_OPERATOR_LE | CONDITION_OPERATOR_IN | CONDITION_OPERATOR_NOT_IN =>
      evalBinaryCondition facts cond
  | _ => result_of STATUS_INDETERMINATE [] [] "unknown condition operator"
  end.

Definition evalCondition (facts : factRegistry) (cond : option Condition) : conditionResult :=
  match cond with Some c => evalCond facts c | None => missing_predicate end.

(** ** Actions and priorities *)

Definition actionFor (status : ContractEvaluationStatus) (mode : ValidityFailureMode) :
    ContractDecisionAction :=
  match status with
  | STATUS_SATISFIED | STATUS_NOT_APPLICABLE => ACTION_ALLOW
  | _ =>
      match mode with
      | VALIDITY_FAILURE_MODE_ABORT => ACTION_ABORT_REQUIRED
      | VALIDITY_FAILURE_MODE_PAUSE => ACTION_PAUSE_REQUIRED
      | _ => ACTION_REJECT
      end
  end.

Definition backpressureDirective (mode : BackpressureMode) : ContractDecisionAction :=
  match mode with
  | BACKPRESSURE_MODE_BLOCK_PRODUCER => ACTION_BLOCK_PRODUCER_REQUIRED
  | BACKPRESSURE_MODE_SHED_OLDEST => ACTION_SHED_OLDEST_REQUIRED
  | BACKPRESSURE_MODE_SHED_NEWEST => ACTION_SHED_NEWEST_REQUIRED
  | BACKPRESSURE_MODE_REQUEST_SCALE_OUT => ACTION_SCALE_OUT_REQUESTED
  | _ => ACTION_REJECT
  end.

Definition blockingAction (a : ContractDecisionAction) : string :=
  match a with
  | ACTION_ABORT_REQUIRED => "ABORT"
  | ACTION_PAUSE_REQUIRED | ACTION_WAIT_FOR_SAFE_POINT => "PAUSE"
  | ACTION_REJECT | ACTION_BLOCK_PRODUCER_REQUIRED | ACTION_SHED_OLDEST_REQUIRED
  | ACTION_SHED_NEWEST_REQUIRED | ACTION_SCALE_OUT_REQUESTED => "REJECT"
  | _ => ""
  end.

Definition isBlocking (e : ContractEvaluation) : bool :=
  match observation_disposition e with
  | OBSERVATION_DISPOSITION_BLOCK | OBSERVATION_DISPOSITION_HOLD => true
  | OBSERVATION_DISPOSITION_DEGRADE | OBSERVATION_DISPOSITION_NOT_APPLICABLE => false
  | _ =>
      match recommended_action e with
      | ACTION_UNKNOWN | ACTION_ALLOW => false
      | _ => true
      end
  end.

Definition actionPriority (a : ContractDecisionAction) : Z :=
  match a with
  | ACTION_ABORT_REQUIRED => 3
  | ACTION_PAUSE_REQUIRED | ACTION_WAIT_FOR_SAFE_POINT => 2
  | ACTION_UNKNOWN | ACTION_ALLOW => 0
  | _ => 1
  end.

Definition dispositionPriority (d : ObservationDisposition) : Z :=
  match d with
  | OBSERVATION_DISPOSITION_BLOCK => 2
  | OBSERVATION_DISPOSITION_HOLD => 1
  | _ => 0
  end.

Definition aggregatePriorityGreater (candidate current : ContractEvaluation) : bool :=
  let cd := dispositionPriority (observation_disposition candidate) in
  let rd := dispositionPriority (observation_disposition current) in
  if negb (cd =? rd) then rd <? cd
  else actionPriority (recommended_action current) <? actionPriority (recommended_action candidate).

Record AggregateResult := mkAggregate {
  Blocking : bool;
  Action : ContractDecisionAction;
  FallbackReason : string;
  BlockingAction : string;
}.

(** The loop of [Aggregate]: the best blocking evaluation so far. *)
Fixpoint best_blocking (evals : list (option ContractEvaluation)) (best : option ContractEvaluation) :
    option ContractEvaluation :=
  match evals with
  | [] => best
  | None :: evals => best_blocking evals best
  | Some e :: evals =>
      if negb (isBlocking e) then best_blocking evals best else
      match best with
      | None => best_blocking evals (Some e)
      | Some b => best_blocking evals (if aggregatePriorityGreater e b then Some e else Some b)
      end
  end.

Definition Aggregate (evals : list (option ContractEvaluation)) : AggregateResult :=
  match best_blocking evals None with
  | None => mkAggregate false ACTION_ALLOW "" ""
  | Some best =>
      mkAggregate true (recommended_action best)
        (ClauseKind_String (clause_kind best) +:+ ":" +:+ clause_id best +:+ ":" +:+
         Status_String (eval_status best))
        (blockingAction (recommended_action best))
  end.

(** ** Safe points *)

Definition safePointAnnotation : string := "tgsrl.io/safe-point".

(** The keys of the annotation, most specific first, without repetition. *)
Definition stableSafePointKeys (configuredKey executionID stageID : string) : list string :=
  let bases := [TrimSpace configuredKey; safePointAnnotation; "safe_point"] in
  let keys := filter (λ b, b ≠ "") bases ≫=
    λ base, [base +:+ "/" +:+ executionID +:+ "/" +:+ stageID; base] in
  foldl (λ seen k, if bool_decide (k ∈ seen) then seen else seen ++ [k]) [] keys.

Fixpoint first_annotation (annotations : gmap string string) (keys : list string) : SafePointResolution :=
  match keys with
  | [] => mkSafePoint false false []
  | key :: keys =>
      match annotations !! key with
      | None => first_annotation annotations keys
      | Some raw =>
          let ev := [semanticField "snapshot.safe_point.annotation_key" (semanticString key);
                     semanticField "snapshot.safe_point.annotation_raw" (semanticString raw)] in
          match ParseBool (TrimSpace raw) with
          | None => mkSafePoint false false ev
          | Some v => mkSafePoint v true ev
          end
      end
  end.

Definition ResolveSafePoint (snapshot : option SnapshotView) (intent : option IntentView)
    (ctx : option EvaluationContext) (configuredKey : string) : SafePointResolution :=
  match (ctx ≫= ctx_contract_observation) ≫= obs_safe_point with
  | Some v => mkSafePoint v true []
  | None =>
      match (intent ≫= intent_contract_observation) ≫= obs_safe_point with
      | Some v => mkSafePoint v true []
      | None =>
          match snapshot, intent with
          | Some s, Some i =>
              first_annotation (snap_annotations s)
                (stableSafePointKeys configuredKey (execution_id i) (stage_id i))
          | _, _ => mkSafePoint false false []
          end
      end
  end.

Definition effectiveObservation (ctx : option EvaluationContext) (intent : option IntentView) :
    option ContractObservation :=
  match ctx ≫= ctx_contract_observation with
  | Some o => Some o
  | None => intent ≫= intent_contract_observation
  end.

(** ** Clauses *)

Section Evaluate.
Context (ValueString : SemanticValue → string).
Context (digest : string → ContractEvaluation → string).
Context (unicode_lower unicode_quote : string → string).

Definition newEvaluation (input : Input) (kind : ContractClauseKind) (clauseID : string)
    (pred : option Condition) (mode : ValidityFailureMode) : ContractEvaluation :=
  mkContractEvaluation "" (contract_id (in_contract input)) kind clauseID STATUS_UNKNOWN pred [] [] []
    mode ACTION_ALLOW "" OBSERVATION_DISPOSITION_UNKNOWN.

Definition applyConditionResult (e : ContractEvaluation) (res : conditionResult) : ContractEvaluation :=
  e <| eval_status := cr_status res |>
    <| missing_keys := stableStrings (cr_missing res) |>
    <| evidence := stableFields ValueString (cr_evidence res) |>
    <| observation_disposition := cr_disposition res |>.

Definition context_parts (input : Input) : string :=
  Join ([contract_id (in_contract input); contract_version (in_contract input);
         FormatUint (intent_version (in_intent input)); FormatUint (snap_revision (in_snapshot input));
         TickKind_String (tick_kind (in_context input)); FormatUint (decision_sequence (in_context input));
         FormatUint (observed_revision (in_context input)); cause (in_context input);
         FormatBool (compatibility_defaults_applied (in_context input))] ++
        match evaluation_time (in_context input) with
        | Some ts => [FormatRFC3339Nano (AsTime (Some ts))]
        | None => []
        end) "|".

Definition evaluationID (input : Input) (e : ContractEvaluation) : string :=
  "eval-sha256-" +:+ digest (context_parts input) (e <| evaluation_id := "" |>).

Definition finalizeEvaluation (input : Input) (e : ContractEvaluation) : ContractEvaluation :=
  let e := e <| observations := stableFields ValueString (observations e) |>
             <| evidence := stableFields ValueString (evidence e) |>
             <| missing_keys := stableStrings (missing_keys e) |> in
  e <| evaluation_id := evaluationID input e |>.

Definition fallbackDetail (primary fallback : string) : string :=
  if bool_decide (primary ≠ "") then primary else fallback.

(** The action a condition's result asks for: the observation's disposition
    when there is one, else the failure mode. *)
Definition action_of (status : ContractEvaluationStatus) (res : conditionResult)
    (mode : ValidityFailureMode) : ContractDecisionAction :=
  if decide (cr_disposition res = OBSERVATION_DISPOSITION_UNKNOWN) then actionFor status mode
  else actionForObservationDisposition (cr_disposition res).

Definition evaluateValidityRule (input : Input) (facts : factRegistry) (rule : option ValidityRule) :
    ContractEvaluation :=
  let id := from_option rule_id "" rule in
  let pred := rule ≫= predicate in
  let mode := from_option rule_failure_mode VALIDITY_FAILURE_MODE_UNKNOWN rule in
  let base := newEvaluation input CLAUSE_KIND_VALIDITY_RULE id pred mode in
  match pred with
  | None =>
      finalizeEvaluation input
        (base <| eval_status := STATUS_INDETERMINATE |>
              <| detail := "legacy rule has no typed predicate" |>
              <| recommended_action := ACTION_ALLOW |>)
  | Some p =>
      let res := evalCond facts p in
      let base := applyConditionResult base res in
      finalizeEvaluation input
        (base <| detail := fallbackDetail (cr_detail res) (from_option rule_description "" rule) |>
              <| recommended_action := action_of (eval_status base) res mode |>)
  end.

Definition evaluateConditionClause (input : Input) (facts : factRegistry) (cond : option Condition) :
    ContractEvaluation :=
  let base := newEvaluation input CLAUSE_KIND_CONDITION (from_option condition_id "" cond) cond
                VALIDITY_FAILURE_MODE_REJECT in
  let res := evalCondition facts cond in
  let base := applyConditionResult base res in
  finalizeEvaluation input
    (base <| detail := cr_detail res |>
          <| recommended_action := action_of (eval_status base) res (failure_mode base) |>).

Definition evaluateCriticalFactPolicy (input : Input) (facts : factRegistry)
    (critical : option CriticalFactPolicy) : ContractEvaluation :=
  let path := from_option critical_fact_path "" critical in
  let policy := critical ≫= critical_observation_policy in
  let base := newEvaluation input (criticalFactClauseKind path) path None VALIDITY_FAILURE_MODE_REJECT in
  let base := match values facts !! path with
              | Some v => base <| observations := observations base ++ [semanticField path (Some v)] |>
              | None => base end in
  let '(state, ev, det) := registry_observationState facts path policy in
  let base := base <| evidence := evidence base ++ ev |> <| detail := det |> in
  finalizeEvaluation input
    match state with
    | observationFresh => base <| eval_status := STATUS_SATISFIED |> <| recommended_action := ACTION_ALLOW |>
    | observationMissing =>
        applyObservationDisposition (base <| missing_keys := [path] |>) (GetMissing policy)
    | observationStale => applyObservationDisposition base (GetStale policy)
    end.

(** A guard that stands for the whole clause. *)
Definition apply_guard (input : Input) (base : ContractEvaluation) (g : conditionResult) : ContractEvaluation :=
  finalizeEvaluation input
    ((applyConditionResult base g) <| detail := cr_detail g |>
       <| recommended_action := actionForObservationDisposition (cr_disposition g) |>).

(** The verdict on a buffer level. *)
Definition backpressure_verdict (level : Z) (policy : BackpressurePolicy) :
    ContractEvaluationStatus * string * ContractDecisionAction :=
  if level <=? low_watermark policy
  then (STATUS_SATISFIED, "buffer level at or below low watermark", ACTION_ALLOW) else
  if maximum_buffer_level policy <? level
  then (STATUS_VIOLATED, "buffer level exceeds maximum", ACTION_REJECT) else
  if high_watermark policy <=? level
  then (STATUS_VIOLATED, "buffer level exceeds high watermark", backpressureDirective (bp_mode policy))
  else (STATUS_INDETERMINATE, "buffer level between watermarks without previous state", ACTION_ALLOW).

(** [GetUint64Value]: 0 for a value of another kind. *)
Definition GetUint64Value (v : SemanticValue) : Z := match v with Uint64Value z => z | _ => 0 end.
Definition GetBoolValue (v : SemanticValue) : bool := match v with BoolValue b => b | _ => false end.

Definition evaluateBackpressure (input : Input) (facts : factRegistry) (policy : BackpressurePolicy) :
    ContractEvaluation :=
  let path := "buffer.level.current" in
  let base := newEvaluation input CLAUSE_KIND_BACKPRESSURE_POLICY "backpressure" None
                VALIDITY_FAILURE_MODE_REJECT in
  let guard := observationGuard facts path in
  let base := base <| evidence := evidence base ++ guard_evidence guard |> in
  match guard_blocks guard with
  | Some g => apply_guard input base g
  | None =>
      match values facts !! path with
      | None =>
          finalizeEvaluation input
            (base <| eval_status := STATUS_INDETERMINATE |> <| missing_keys := [path] |>
                  <| detail := "missing current buffer level" |> <| recommended_action := ACTION_ALLOW |>)
      | Some current =>
          let '(status, det, action) := backpressure_verdict (GetUint64Value current) policy in
          finalizeEvaluation input
            (base <| observations := observations base ++ [semanticField path (Some current)] |>
                  <| evidence := evidence base ++
                       [semanticField "buffer.low_watermark" (semanticUint (low_watermark policy));
                        semanticField "buffer.high_watermark" (semanticUint (high_watermark policy));
                        semanticField "buffer.maximum" (semanticUint (maximum_buffer_level policy))] |>
                  <| eval_status := status |> <| detail := det |> <| recommended_action := action |>)
      end
  end.

Definition evaluateSafePoint (input : Input) (facts : factRegistry) : ContractEvaluation :=
  let path := "runtime.safe_point" in
  let base := newEvaluation input CLAUSE_KIND_SAFE_POINT_POLICY "safe-point" None
                VALIDITY_FAILURE_MODE_PAUSE in
  let require := default false (commit_require_safe_point (in_contract input)) in
  let policyEnabled := default false (safe_point_enabled (in_contract input)) in
  let base := base <| evidence := evidence base ++
        [semanticField "commit.require_safe_point" (semanticBool require);
         semanticField "safe_point_policy.enabled" (semanticBool policyEnabled)] |> in
  if negb require then
    finalizeEvaluation input
      (base <| eval_status := STATUS_NOT_APPLICABLE |>
            <| detail := "safe point not required for commit" |> <| recommended_action := ACTION_ALLOW |>)
  else
  match guard_blocks (observationGuard facts path) with
  | Some g => apply_guard input base g
  | None =>
      match values facts !! path with
      | None =>
          finalizeEvaluation input
            (base <| eval_status := STATUS_INDETERMINATE |> <| missing_keys := [path] |>
                  <| detail := "missing runtime safe point state" |>
                  <| recommended_action := ACTION_WAIT_FOR_SAFE_POINT |>)
      | Some v =>
          let base := base <| observations := observations base ++ [semanticField path (Some v)] |>
                           <| evidence := evidence base ++ from_option issue_evidence [] (issues facts !! path) |> in
          finalizeEvaluation input
            (if GetBoolValue v
             then base <| eval_status := STATUS_SATISFIED |> <| detail := "runtime is at a safe point" |>
                       <| recommended_action := ACTION_ALLOW |>
             else base <| eval_status := STATUS_VIOLATED |>
                       <| detail := "runtime is not at a required safe point" |>
                       <| recommended_action := ACTION_WAIT_FOR_SAFE_POINT |>)
      end
  end.

(** The three ways a version constraint ends without an observation's disposition. *)
Definition settle (input : Input) (base : ContractEvaluation) (status : ContractEvaluationStatus)
    (det : string) (action : ContractDecisionAction) : ContractEvaluation :=
  finalizeEvaluation input
    (base <| eval_status := status |> <| detail := det |> <| recommended_action := action |>).

Definition evaluateVersionConstraint (input : Input) (registry : componentRegistry)
    (constraint : option VersionConstraint) : ContractEvaluation :=
  let base := newEvaluation input CLAUSE_KIND_VERSION_CONSTRAINT (from_option component "" constraint)
                None VALIDITY_FAILURE_MODE_REJECT in
  match constraint, constraintComponentKind unicode_lower constraint with
  | Some c, Ok (kind, generic) =>
      let base := base <| evidence := evidence base ++
        [semanticField "component.kind" (semanticString (ComponentKind_String kind));
         semanticField "component.version.required" (semanticString (vc_version c));
         semanticField "component.version.operator" (semanticString (VersionOperator_String (vc_operator c)))] |> in
      if bool_decide (kind = COMPONENT_KIND_CUDA_DRIVER) && devicesKnown registry && negb (hasGPU registry) then
        settle input
          (base <| observation_disposition := OBSERVATION_DISPOSITION_NOT_APPLICABLE |>
                <| evidence := evidence base ++ [semanticField "snapshot.device_set" (semanticString "cpu-only")] |>)
          STATUS_NOT_APPLICABLE "CUDA driver is not applicable to a device set with no GPU" ACTION_ALLOW
      else
      match resolve unicode_lower registry kind (component c) generic with
      | Ambiguous msg => settle input base STATUS_INDETERMINATE msg ACTION_REJECT
      | NotFound =>
          finalizeEvaluation input (applyObservationDisposition
            (base <| missing_keys := [componentMissingKey unicode_lower kind (component c)] |>
                  <| detail := "applicable component version is missing" |>)
            (missing (versionObservationPolicy c)))
      | Found entry =>
          let current := comp_version (entry_version entry) in
          let base := base <| observations := observations base ++
                        [semanticField "component.version.current" (semanticString current)] |>
                      <| evidence := evidence base ++ componentEvidence (entry_version entry) |> in
          if bool_decide (conflict entry ≠ "")
          then settle input base STATUS_INDETERMINATE (conflict entry) ACTION_REJECT else
          let policy := versionObservationPolicy c in
          let '(state, ev, det) := componentObservationState (evaluationAt registry) (entry_version entry) policy in
          let base := if builtIn entry then base else base <| evidence := evidence base ++ ev |> in
          if negb (builtIn entry) && bool_decide (state = observationStale)
          then finalizeEvaluation input
                 (applyObservationDisposition (base <| detail := det |>) (stale policy)) else
          let '(compatible, det) := evaluateVersionMatch current c in
          if compatible : bool then settle input base STATUS_SATISFIED det ACTION_ALLOW
          else settle input base STATUS_VIOLATED det ACTION_REJECT
      end
  | _, Err e => settle input base STATUS_INDETERMINATE (KindError_message e) ACTION_REJECT
  | None, Ok _ => settle input base STATUS_INDETERMINATE "" ACTION_REJECT
  end.

(** ** Evaluation of a contract *)

Definition evaluationLess : ContractEvaluation → ContractEvaluation → bool :=
  lex_less (λ a b, ClauseKind_number (clause_kind a) <? ClauseKind_number (clause_kind b))
    (lex_less (λ a b, str_ltb (clause_id a) (clause_id b))
       (λ a b, str_ltb (evaluation_id a) (evaluation_id b))).

Inductive EvaluateError :=
| ContractNil | IntentNil | SnapshotNil | ContextNil
| EvaluationTimeMissing | EvaluationTimeInvalid
| FactsRejected (e : FactError)
| ComponentsRejected (e : ComponentError).

Definition lift_err {E E' A} (f : E → E') (r : Result E A) : Result E' A :=
  match r with Ok a => Ok a | Err e => Err (f e) end.

(** The evaluation of every clause, in the order of the contract. *)
Definition clause_evaluations (input : Input) (facts : factRegistry) (versions : componentRegistry) :
    list ContractEvaluation :=
  let c := in_contract input in
  (evaluateValidityRule input facts <$> validity_rules c) ++
  (evaluateConditionClause input facts <$> conditions c) ++
  (evaluateCriticalFactPolicy input facts <$> critical_fact_policies c) ++
  (evaluateVersionConstraint input versions <$> version_constraints c) ++
  (evaluateBackpressure input facts <$> option_list (backpressure_policy c)) ++
  (if bool_decide (is_Some (safe_point_enabled c)) || bool_decide (is_Some (commit_require_safe_point c))
   then [evaluateSafePoint input facts] else []).

Definition evaluate_clauses (input : Input) (facts : factRegistry) (versions : componentRegistry) :
    list ContractEvaluation * AggregateResult :=
  let evals := sort_by evaluationLess (clause_evaluations input facts versions) in
  (evals, Aggregate (Some <$> evals)).

Definition Evaluate (contract : option ExecutionContract) (intent : option IntentView)
    (snapshot : option SnapshotView) (context : option EvaluationContext)
    (safePoint : option SafePointResolution) :
    Result EvaluateError (list ContractEvaluation * AggregateResult) :=
  match contract, intent, snapshot, context with
  | None, _, _, _ => Err ContractNil
  | _, None, _, _ => Err IntentNil
  | _, _, None, _ => Err SnapshotNil
  | _, _, _, None => Err ContextNil
  | Some contract, Some intent, Some snapshot, Some context =>
      match evaluation_time context with
      | None => Err EvaluationTimeMissing
      | Some ts =>
          if negb (Timestamp_valid ts) then Err EvaluationTimeInvalid else
          let sp := default (ResolveSafePoint (Some snapshot) (Some intent) (Some context)
                               safePointAnnotation) safePoint in
          let input := mkInput contract intent snapshot context (Some sp) in
          let obs := effectiveObservation (Some context) (Some intent) in
          facts ← lift_err FactsRejected (buildFacts ValueString input obs);
          versions ← lift_err ComponentsRejected (buildComponentRegistry unicode_lower unicode_quote input obs);
          Ok (evaluate_clauses input facts versions)
      end
  end.
End Evaluate.
