(* ===== verification/EvaluatorProofs.v ===== *)
(** * The contract evaluator: properties *)

From Stdlib Require Import ZArith Lia.
From S2P Require Import Prelude GoStrings GoTime GoFloat SemVer Semantics Freshness ComponentRegistry Evaluator.
From stdpp Require Import options.

Local Open Scope Z_scope.

(** ** Conditions are strong Kleene logic

    The reference semantics: a truth value is [Some b] or, undetermined, [None]. *)

Lemma Condition_induction (P : Condition → Prop) :
  (∀ c, Forall (λ o, ∀ c', o = Some c' → P c') (predicates c) → P c) → ∀ c, P c.
Proof.
  intros IH. fix go 1. intros c. apply IH. destruct c as [? ? ? ? ? ? ? preds ? ?]; simpl.
  induction preds as [|o preds IHp]; constructor; [|exact IHp].
  destruct o as [c|]; intros c' E; [|discriminate E]. injection E as <-. exact (go c).
Qed.

Definition tri_and (vs : list (option bool)) : option bool :=
  if bool_decide (Some false ∈ vs) then Some false else
  if bool_decide (None ∈ vs) then None else Some true.

Definition tri_or (vs : list (option bool)) : option bool :=
  if bool_decide (Some true ∈ vs) then Some true else
  if bool_decide (None ∈ vs) then None else Some false.

(** The value of a comparison: undetermined unless both operands are there and
    comparable. *)
Definition compare_sem (facts : factRegistry) (c : Condition) : option bool :=
  match values facts !! fact_path c, comparisonValue facts c with
  | Some l, Ok r => match compareValues (cond_operator c) (Some l) (Some r) with Ok b => Some b | Err _ => None end
  | _, _ => None
  end.

Definition exists_sem (facts : factRegistry) (path : string) : option bool :=
  match values facts !! path, issues facts !! path with
  | Some _, _ => Some true
  | None, Some _ => None
  | None, None => Some false
  end.

Fixpoint cond_sem (facts : factRegistry) (c : Condition) : option bool :=
  let sem o := match o with Some c => cond_sem facts c | None => None end in
  match cond_operator c with
  | CONDITION_OPERATOR_AND => tri_and (map sem (predicates c))
  | CONDITION_OPERATOR_OR => tri_or (map sem (predicates c))
  | CONDITION_OPERATOR_NOT =>
      match predicates c with [p] => negb <$> sem p | _ => None end
  | CONDITION_OPERATOR_EXISTS => exists_sem facts (fact_path c)
  | CONDITION_OPERATOR_UNKNOWN | CONDITION_OPERATOR_UNNAMED _ => None
  | _ => compare_sem facts c
  end.

Definition tri_status (v : option bool) : ContractEvaluationStatus :=
  match v with
  | Some true => STATUS_SATISFIED
  | Some false => STATUS_VIOLATED
  | None => STATUS_INDETERMINATE
  end.

(** [res] is a plain truth value: no observation policy was involved. *)
Definition plain (res : conditionResult) (v : option bool) : Prop :=
  cr_status res = tri_status v ∧ cr_disposition res = OBSERVATION_DISPOSITION_UNKNOWN.

Section Connectives.
Context (eval : option Condition → conditionResult) (sem : option Condition → option bool).

Lemma and_loop_plain preds acc ind :
  Forall (λ p, plain (eval p) (sem p)) preds →
  plain acc (Some true) →
  plain (and_loop eval preds acc ind)
    (if ind then if bool_decide (Some false ∈ map sem preds) then Some false else None
     else tri_and (map sem preds)).
Proof.
  intros Hall. revert acc ind. induction Hall as [|p preds [Hs Hd] Hall IH]; intros acc ind [Ha Hb]; simpl.
  { destruct ind; split; simpl; try done. }
  destruct (sem p) as [[|]|] eqn:E; rewrite Hs; simpl.
  - assert (Hc : plain (combine acc (eval p)) (Some true)) by (split; simpl; rewrite ?Hb, ?Hd; done).
    specialize (IH (combine acc (eval p)) ind Hc). unfold tri_and in *.
    destruct ind; simpl in *;
      rewrite (bool_decide_ext (Some false ∈ Some true :: _) (Some false ∈ map sem preds)) by set_solver;
      rewrite ?(bool_decide_ext (None ∈ Some true :: _) (None ∈ map sem preds)) by set_solver; done.
  - unfold tri_and. rewrite bool_decide_eq_true_2 by set_solver. by destruct ind; split; simpl.
  - assert (Hc : plain (combine acc (eval p)) (Some true)) by (split; simpl; rewrite ?Hb, ?Hd; done).
    specialize (IH (combine acc (eval p)) true Hc). unfold tri_and in *. simpl in IH.
    rewrite (bool_decide_ext (Some false ∈ None :: _) (Some false ∈ map sem preds)) by set_solver.
    rewrite (bool_decide_eq_true_2 (None ∈ None :: _)) by set_solver.
    by destruct ind, (bool_decide (Some false ∈ map sem preds)).
Qed.

Lemma or_loop_plain preds acc ind :
  Forall (λ p, plain (eval p) (sem p)) preds →
  plain acc (Some false) →
  plain (or_loop eval preds acc ind)
    (if ind then if bool_decide (Some true ∈ map sem preds) then Some true else None
     else tri_or (map sem preds)).
Proof.
  intros Hall. revert acc ind. induction Hall as [|p preds [Hs Hd] Hall IH]; intros acc ind [Ha Hb]; simpl.
  { destruct ind; split; simpl; try done. }
  destruct (sem p) as [[|]|] eqn:E; rewrite Hs; simpl.
  - unfold tri_or. rewrite bool_decide_eq_true_2 by set_solver. by destruct ind; split; simpl.
  - assert (Hc : plain (combine acc (eval p)) (Some false)) by (split; simpl; rewrite ?Hb, ?Hd; done).
    specialize (IH (combine acc (eval p)) ind Hc). unfold tri_or in *.
    destruct ind; simpl in *;
      rewrite (bool_decide_ext (Some true ∈ Some false :: _) (Some true ∈ map sem preds)) by set_solver;
      rewrite ?(bool_decide_ext (None ∈ Some false :: _) (None ∈ map sem preds)) by set_solver; done.
  - assert (Hc : plain (combine acc (eval p)) (Some false)) by (split; simpl; rewrite ?Hb, ?Hd; done).
    specialize (IH (combine acc (eval p)) true Hc). unfold tri_or in *. simpl in IH.
    rewrite (bool_decide_ext (Some true ∈ None :: _) (Some true ∈ map sem preds)) by set_solver.
    rewrite (bool_decide_eq_true_2 (None ∈ None :: _)) by set_solver.
    by destruct ind, (bool_decide (Some true ∈ map sem preds)).
Qed.
End Connectives.

Section Plain.
Context (facts : factRegistry) (Hno : policies facts = ∅).
Set Default Proof Using "Type*".

Lemma no_guard path : observationGuard facts path = None.
Proof. unfold observationGuard. by rewrite Hno, lookup_empty. Qed.

Lemma evalExists_plain path : plain (evalExists facts path) (exists_sem facts path).
Proof.
  unfold evalExists, exists_sem, unregistered. rewrite no_guard. simpl. by repeat case_match.
Qed.

Lemma evalBinary_plain c : plain (evalBinaryCondition facts c) (compare_sem facts c).
Proof.
  unfold evalBinaryCondition, compare_sem, unregistered. rewrite !no_guard. simpl.
  replace (guard_blocks (if decide (comparison_fact_path c = "") then None else None)) with (@None conditionResult)
    by (by case_decide).
  destruct (values facts !! fact_path c); [|by case_match].
  destruct (comparisonValue facts c) as [r|[m msg]]; [|done].
  by repeat case_match.
Qed.

Lemma evalCond_plain c : plain (evalCond facts c) (cond_sem facts c).
Proof.
  induction c as [c IH] using Condition_induction.
  set (eval o := match o with Some c => evalCond facts c | None => missing_predicate end).
  set (sem o := match o with Some c => cond_sem facts c | None => None end).
  assert (Hp : Forall (λ p, plain (eval p) (sem p)) (predicates c)).
  { eapply Forall_impl; [exact IH|]. simpl. intros [c'|] Hc; [by apply Hc|done]. }
  destruct c as [i1 i2 i3 i4 op i6 i7 preds i9 i10]. simpl in Hp |- *.
  fold eval. fold sem. destruct op; try done; try apply evalBinary_plain; try apply evalExists_plain.
  - by apply (and_loop_plain eval sem preds _ false).
  - by apply (or_loop_plain eval sem preds _ false).
  - unfold evalLogicalNOT. destruct preds as [|p [|? ?]]; [done| |done].
    apply Forall_inv in Hp as [Hs Hd]. destruct (decide _) as [_|Hn]; [|by destruct Hn].
    split; [|done]. cbn [cr_status set_field]. rewrite Hs. unfold sem.
    by destruct p as [c|]; [destruct (cond_sem facts c) as [[|]|]|].
Qed.
End Plain.


(** ** Freshness *)

(** Freshness.  Under a policy, a registered fact is fresh exactly when it was
    not observed after the evaluation time and, if the policy has a maximum age,
    its observation time is known and no older than that; a fact is missing exactly
    when it is not registered; everything else is stale. *)
Theorem observationState_spec facts path policy :
  let state := (registry_observationState facts path policy).1.1 in
  let md := default no_metadata (metadata facts !! path) in
  let age := time_Sub (evaluationTime facts) (observedAt md) in
  (state = observationMissing ↔ values facts !! path = None) ∧
  (state = observationFresh ↔
     is_Some (values facts !! path) ∧ (present md = true → 0 ≤ age) ∧
     (∀ d, GetMaximumAge policy = Some d → present md = true ∧ age ≤ AsDuration d)).
Proof.
  simpl. unfold registry_observationState.
  destruct (values facts !! path) as [v|].
  2: { split; [by destruct (issues facts !! path)|].
       split; [by destruct (issues facts !! path)|]. by intros [[? ?] _]. }
  set (md := default no_metadata (metadata facts !! path)).
  set (age := time_Sub (evaluationTime facts) (observedAt md)). cbn zeta.
  destruct (present md) eqn:Hp; simpl.
  - destruct (Z.ltb_spec age 0); simpl.
    { split; [done|]. split; [done|]. intros (_ & H1 & _). specialize (H1 eq_refl). lia. }
    destruct (GetMaximumAge policy) as [d|]; simpl.
    + destruct (Z.ltb_spec (AsDuration d) age); simpl; (split; [done|]).
      * split; [done|]. intros (_ & _ & H1). destruct (H1 d eq_refl). lia.
      * split; [|done]. intros _. split; [by eexists|]. split; [done|]. by intros ? [= <-].
    + split; [done|]. split; [|done]. intros _. split; [by eexists|]. by split.
  - destruct (GetMaximumAge policy) as [d|]; simpl; (split; [done|]).
    + split; [done|]. intros (_ & _ & H1). by destruct (H1 d eq_refl).
    + split; [|done]. intros _. split; [by eexists|]. by split.
Qed.

(** ** Aggregation *)

Definition priority_less : ContractEvaluation → ContractEvaluation → bool :=
  lex_less (λ a b, dispositionPriority (observation_disposition b) <? dispositionPriority (observation_disposition a))
    (λ a b, actionPriority (recommended_action b) <? actionPriority (recommended_action a)).

#[export] Instance priority_less_sw : StrictWeak priority_less.
Proof.
  apply lex_less_sw.
  - apply (flip_less_sw (λ a b, dispositionPriority (observation_disposition a) <? dispositionPriority (observation_disposition b))).
    apply (key_less_sw Z.ltb), _.
  - apply (flip_less_sw (λ a b, actionPriority (recommended_action a) <? actionPriority (recommended_action b))).
    apply (key_less_sw Z.ltb), _.
Qed.

Lemma aggregatePriorityGreater_less a b : aggregatePriorityGreater a b = priority_less a b.
Proof.
  unfold aggregatePriorityGreater, priority_less, lex_less.
  destruct (Z.eqb_spec (dispositionPriority (observation_disposition a)) (dispositionPriority (observation_disposition b))) as [->|].
  - by rewrite Z.ltb_irrefl.
  - simpl. destruct (Z.ltb_spec (dispositionPriority (observation_disposition b)) (dispositionPriority (observation_disposition a))); [done|].
    by rewrite (proj2 (Z.ltb_lt _ _)) by lia.
Qed.

Lemma best_blocking_None evals :
  best_blocking evals None = None ↔ ∀ e, Some e ∈ evals → isBlocking e = false.
Proof.
  assert (Hsome : ∀ l b, ∃ b', best_blocking l (Some b) = Some b').
  { induction l as [|[e|] l IH]; intros b; simpl; eauto. case_match; eauto. case_match; eauto. }
  induction evals as [|[e|] evals IH]; simpl; [split; [set_solver|done]| |rewrite IH; set_solver].
  destruct (isBlocking e) eqn:E; simpl.
  - destruct (Hsome evals e) as [b' ->]. split; [done|]. intros H. rewrite H in E; [done|set_solver].
  - rewrite IH. split; [|set_solver]. intros H e' [[= ->]|?]%elem_of_cons; auto.
Qed.

(** The winner is the first of the blocking evaluations of highest priority. *)
Lemma best_blocking_from evals b0 b :
  best_blocking evals (Some b0) = Some b →
  (b = b0 ∧ ∀ e, Some e ∈ evals → isBlocking e = true → priority_less e b0 = false) ∨
  (∃ l1 l2, evals = l1 ++ Some b :: l2 ∧ isBlocking b = true ∧ priority_less b b0 = true ∧
    (∀ e, Some e ∈ l1 → isBlocking e = true → priority_less b e = true) ∧
    (∀ e, Some e ∈ l2 → isBlocking e = true → priority_less e b = false)).
Proof.
  revert b0. induction evals as [|[e|] evals IH]; intros b0; simpl.
  - intros [= <-]. left. split; [done|set_solver].
  - destruct (isBlocking e) eqn:E; simpl.
    + rewrite aggregatePriorityGreater_less. destruct (priority_less e b0) eqn:Hp; intros H;
        destruct (IH _ H) as [[-> Hall]|(l1 & l2 & -> & Hb & Hbe & H1 & H2)].
      * right. exists [], evals. split_and!; try done. set_solver.
      * right. exists (Some e :: l1), l2. split_and!; try done; [by apply (sw_trans priority_less b e b0)|].
        intros e' [[= ->]|?]%elem_of_cons; auto.
      * left. split; [done|]. intros e' [[= ->]|?]%elem_of_cons; auto.
      * right. exists (Some e :: l1), l2. split_and!; try done.
        intros e' [[= ->]|?]%elem_of_cons; [|auto]. intros _. by apply (sw_lt_le priority_less b b0 e).
    + intros H. destruct (IH _ H) as [[-> Hall]|(l1 & l2 & -> & Hb & Hbe & H1 & H2)].
      * left. split; [done|]. intros e' [[= ->]|?]%elem_of_cons; [congruence|auto].
      * right. exists (Some e :: l1), l2. split_and!; try done.
        intros e' [[= ->]|?]%elem_of_cons; [congruence|auto].
  - intros H. destruct (IH _ H) as [[-> Hall]|(l1 & l2 & -> & Hb & Hbe & H1 & H2)].
    + left. split; [done|]. intros e' [?|?]%elem_of_cons; [done|auto].
    + right. exists (None :: l1), l2. split_and!; try done.
      intros e' [?|?]%elem_of_cons; [done|auto].
Qed.

(** [b] is the first of the blocking evaluations of highest priority. *)
Definition first_best (evals : list (option ContractEvaluation)) (b : ContractEvaluation) : Prop :=
  ∃ l1 l2, evals = l1 ++ Some b :: l2 ∧ isBlocking b = true ∧
    (∀ e, Some e ∈ l1 → isBlocking e = true → aggregatePriorityGreater b e = true) ∧
    (∀ e, Some e ∈ l2 → isBlocking e = true → aggregatePriorityGreater e b = false).

Lemma best_blocking_Some evals b : best_blocking evals None = Some b → first_best evals b.
Proof.
  unfold first_best. induction evals as [|[e|] evals IH]; simpl; [done| |].
  - destruct (isBlocking e) eqn:E; simpl; intros H.
    + destruct (best_blocking_from _ _ _ H) as [[-> Hall]|(l1 & l2 & -> & Hb & Hbe & H1 & H2)].
      * exists [], evals. split_and!; try done; [set_solver|].
        intros. rewrite aggregatePriorityGreater_less. auto.
      * exists (Some e :: l1), l2. split_and!; try done; intros e' Hin ?;
          rewrite aggregatePriorityGreater_less; [|by apply H2].
        apply elem_of_cons in Hin as [[= ->]|?]; [done|by apply H1].
    + destruct (IH H) as (l1 & l2 & -> & Hb & H1 & H2). exists (Some e :: l1), l2. split_and!; try done.
      intros e' [[= ->]|?]%elem_of_cons; [congruence|auto].
  - intros H. destruct (IH H) as (l1 & l2 & -> & Hb & H1 & H2). exists (None :: l1), l2.
    split_and!; try done. intros e' [?|?]%elem_of_cons; [done|auto].
Qed.

(** Aggregation is fail-safe.  The decision blocks exactly when some evaluation
    does, and then its action and reason are those of the first blocking evaluation
    that no other outranks (disposition first, then action); otherwise it allows. *)
Theorem Aggregate_spec evals :
  (Blocking (Aggregate evals) = true ↔ ∃ e, Some e ∈ evals ∧ isBlocking e = true) ∧
  (Blocking (Aggregate evals) = true → ∃ b, first_best evals b ∧
     Action (Aggregate evals) = recommended_action b ∧
     BlockingAction (Aggregate evals) = blockingAction (recommended_action b)) ∧
  (Blocking (Aggregate evals) = false → Action (Aggregate evals) = ACTION_ALLOW).
Proof.
  unfold Aggregate. pose proof (best_blocking_None evals) as HN.
  pose proof (best_blocking_Some evals) as HS.
  destruct (best_blocking evals None) as [b|]; simpl; split_and!; try done.
  - split; [|done]. intros _. destruct (HS b eq_refl) as (l1 & l2 & -> & Hb & _).
    exists b. split; [set_solver|done].
  - intros _. exists b. auto.
  - split; [done|]. intros (e & He & Hb). by rewrite (proj1 HN eq_refl e He) in Hb.
Qed.

(** ** Critical facts *)

(** A disposition under which an unavailable fact does not stop the decision. *)
Definition tolerates (d : ObservationDisposition) : Prop :=
  d = OBSERVATION_DISPOSITION_DEGRADE ∨ d = OBSERVATION_DISPOSITION_NOT_APPLICABLE.

Definition tolerated (facts : factRegistry) (path : string) (policy : option ObservationPolicy) : Prop :=
  let state := (registry_observationState facts path policy).1.1 in
  state = observationFresh ∨
  (state = observationMissing ∧ tolerates (GetMissing policy)) ∨
  (state = observationStale ∧ tolerates (GetStale policy)).

Section Evaluate.
Context (ValueString : SemanticValue → string).
Context (digest : string → ContractEvaluation → string).
Context (unicode_lower unicode_quote : string → string).

Lemma critical_not_blocking input facts critical :
  isBlocking (evaluateCriticalFactPolicy ValueString digest input facts critical) = false →
  tolerated facts (from_option critical_fact_path "" critical) (critical ≫= critical_observation_policy).
Proof.
  unfold evaluateCriticalFactPolicy, tolerated.
  destruct (registry_observationState facts _ _) as [[state ev] det]; simpl.
  unfold tolerates. destruct state; simpl; [by left|right; left|right; right]; split; try done.
  - destruct (GetMissing _); simpl in *; try done; auto.
  - destruct (GetStale _); simpl in *; try done; auto.
Qed.

(** C37: A decision that does not block tolerates every critical fact.  If [Evaluate]
    returns a non-blocking decision, then each critical fact of the contract is
    fresh in the facts it built, or is missing or stale under a policy that says to
    degrade or not to apply; so a missing or stale fact under a blocking policy,
    under a hold or under an unrecognised disposition always stops the decision. *)
Theorem Evaluate_critical_facts contract intent snapshot context sp evals agg :
  Evaluate ValueString digest unicode_lower unicode_quote (Some contract) (Some intent) (Some snapshot)
    (Some context) (Some sp) = Ok (evals, agg) →
  Blocking agg = false →
  ∃ facts,
    buildFacts ValueString (mkInput contract intent snapshot context (Some sp))
      (effectiveObservation (Some context) (Some intent)) = Ok facts ∧
    ∀ critical, critical ∈ critical_fact_policies contract →
      tolerated facts (from_option critical_fact_path "" critical)
        (critical ≫= critical_observation_policy).
Proof.
  unfold Evaluate. destruct (evaluation_time context) as [ts|]; [|done].
  destruct (negb (Timestamp_valid ts)); [done|]. cbn [from_option id].
  set (input := mkInput contract intent snapshot context (Some sp)).
  set (obs := effectiveObservation (Some context) (Some intent)).
  destruct (buildFacts ValueString input obs) as [facts|]; cbn [lift_err mbind Result_bind]; [|done].
  destruct (buildComponentRegistry unicode_lower unicode_quote input obs) as [versions|]; cbn [lift_err mbind Result_bind]; [|done].
  intros [= <- <-] Hb. exists facts. split; [done|]. intros critical Hin.
  apply (critical_not_blocking input). apply not_true_iff_false. intros Hblock.
  assert (Hnb : Blocking (Aggregate (Some <$> sort_by evaluationLess
    (clause_evaluations ValueString digest unicode_lower input facts versions))) = true); [|congruence].
  apply Aggregate_spec. eexists. split; [|exact Hblock].
  apply list_elem_of_fmap. eexists. split; [done|]. rewrite elem_of_sort_by.
  unfold clause_evaluations. rewrite !elem_of_app, !list_elem_of_fmap. right. right. left. eauto.
Qed.

(** ** The order of the clauses does not matter *)

#[export] Instance evaluationLess_sw : StrictWeak evaluationLess.
Proof.
  apply lex_less_sw; [apply (key_less_sw Z.ltb (λ e, ClauseKind_number (clause_kind e))), _|].
  apply lex_less_sw; [apply (key_less_sw str_ltb clause_id), _|apply (key_less_sw str_ltb evaluation_id), _].
Qed.

Lemma evaluationLess_tie a b :
  evaluationLess a b = false → evaluationLess b a = false → evaluation_id a = evaluation_id b.
Proof.
  unfold evaluationLess, lex_less. intros Hab Hba. apply str_ltb_total; by repeat case_match.
Qed.

(** The same contract with its rules, conditions and version constraints listed in
    another order. *)
Record contract_perm (c c' : ExecutionContract) : Prop := {
  cp_id : contract_id c = contract_id c';
  cp_version : contract_version c = contract_version c';
  cp_rules : validity_rules c ≡ₚ validity_rules c';
  cp_versions : version_constraints c ≡ₚ version_constraints c';
  cp_commit : commit_require_safe_point c = commit_require_safe_point c';
  cp_backpressure : backpressure_policy c = backpressure_policy c';
  cp_safe_point : safe_point_enabled c = safe_point_enabled c';
  cp_conditions : conditions c ≡ₚ conditions c';
  cp_critical : critical_fact_policies c = critical_fact_policies c';
}.

Lemma clause_evaluations_perm c c' intent snapshot context sp facts versions :
  contract_perm c c' →
  clause_evaluations ValueString digest unicode_lower (mkInput c intent snapshot context sp) facts versions ≡ₚ
  clause_evaluations ValueString digest unicode_lower (mkInput c' intent snapshot context sp) facts versions.
Proof.
  destruct c, c'. intros []. simpl in *. subst. unfold clause_evaluations. simpl.
  repeat apply Permutation_app; try done; by apply fmap_Permutation.
Qed.

(** The decision does not depend on the order in which a contract lists its
    rules, conditions and version constraints: a reordered contract yields the same
    evaluations in the same order and the same aggregate, provided the identifiers
    of the evaluations (SHA-256 digests) do not collide. *)
Theorem Evaluate_order_independent c c' intent snapshot context sp evals agg :
  contract_perm c c' →
  Evaluate ValueString digest unicode_lower unicode_quote (Some c) (Some intent) (Some snapshot)
    (Some context) sp = Ok (evals, agg) →
  (∀ e1 e2, e1 ∈ evals → e2 ∈ evals → evaluation_id e1 = evaluation_id e2 → e1 = e2) →
  Evaluate ValueString digest unicode_lower unicode_quote (Some c') (Some intent) (Some snapshot)
    (Some context) sp = Ok (evals, agg).
Proof.
  intros Hp. unfold Evaluate. destruct (evaluation_time context) as [ts|]; [|done].
  destruct (negb (Timestamp_valid ts)); [done|].
  set (sp' := Some (default _ sp)). set (obs := effectiveObservation (Some context) (Some intent)).
  assert (Hf : buildFacts ValueString (mkInput c' intent snapshot context sp') obs =
               buildFacts ValueString (mkInput c intent snapshot context sp') obs).
  { unfold buildFacts. simpl. by rewrite (cp_critical _ _ Hp). }
  rewrite Hf. destruct (buildFacts ValueString (mkInput c intent snapshot context sp') obs) as [facts|]; cbn [lift_err mbind Result_bind]; [|done].
  change (buildComponentRegistry unicode_lower unicode_quote (mkInput c' intent snapshot context sp') obs)
    with (buildComponentRegistry unicode_lower unicode_quote (mkInput c intent snapshot context sp') obs).
  simpl. destruct (buildComponentRegistry unicode_lower unicode_quote _ obs) as [versions|]; cbn [lift_err mbind Result_bind]; [|done].
  intros [= <- <-] Hinj. unfold evaluate_clauses.
  rewrite (sort_by_unique evaluationLess _
    (clause_evaluations ValueString digest unicode_lower (mkInput c intent snapshot context sp') facts versions));
    [done| |symmetry; by apply clause_evaluations_perm].
  intros a b Ha Hb Hab Hba. apply Hinj; try (rewrite elem_of_sort_by, (clause_evaluations_perm _ _ _ _ _ _ _ _ Hp); done).
  by apply evaluationLess_tie.
Qed.
End Evaluate.

(** ** Witnesses

    A contract with a critical fact, two conditions and a version constraint,
    evaluated a second after the buffer level was observed. *)

Definition ex_condition (id : string) (op : ConditionOperator) (limit : Z) : Condition :=
  mkCondition id "" "" "" op [] [semanticUint limit] [] "buffer.level.current" "".

Definition ex_policy : ObservationPolicy :=
  mkObservationPolicy (Some (mkDuration 5 0)) OBSERVATION_DISPOSITION_BLOCK OBSERVATION_DISPOSITION_HOLD.

Definition ex_observation : ContractObservation :=
  mkContractObservation (Some (mkTimestamp 100 0)) None (Some 3) None (Some 40) None None None None
    "probe" [Some (mkField "queue.depth" (semanticInt 7))] None None []
    [Some (mkComponentVersion COMPONENT_KIND_TRAINER "trainer" "1.4.0" (Some (mkTimestamp 100 0)) "probe" 1 [])] None "" "" "".

Definition ex_contract (conds : list (option Condition)) : ExecutionContract :=
  mkExecutionContract "contract" "1" []
    [Some (mkVersionConstraint "trainer" VERSION_OPERATOR_SEMVER "1.2" false "" 0 COMPONENT_KIND_UNKNOWN None)]
    None None None conds [Some (mkCriticalFactPolicy "buffer.level.current" (Some ex_policy))].

Definition ex_conditions : list (option Condition) :=
  [Some (ex_condition "high" CONDITION_OPERATOR_LT 100); Some (ex_condition "low" CONDITION_OPERATOR_GE 10)].

Definition ex_intent : IntentView := mkIntentView 1 "exec" "stage" (Some ex_observation).
Definition ex_snapshot : SnapshotView := mkSnapshotView 5 ∅ [].
Definition ex_context : EvaluationContext :=
  mkEvaluationContext TICK_KIND_FAST (Some (mkTimestamp 101 0)) 1 "tick" 5 None false.

(** A digest that keeps the clause apart, in place of SHA-256. *)
Definition ex_digest (ctx : string) (e : ContractEvaluation) : string := clause_id e.

Definition ex_Evaluate (conds : list (option Condition)) :=
  Evaluate (λ _, "") ex_digest id id (Some (ex_contract conds)) (Some ex_intent) (Some ex_snapshot)
    (Some ex_context) (Some (mkSafePoint true true [])).

Definition ex_result : list ContractEvaluation * AggregateResult :=
  match ex_Evaluate ex_conditions with Ok r => r | Err _ => ([], mkAggregate true ACTION_REJECT "" "") end.

Example ex_evaluates : Blocking ex_result.2 = false ∧ (clause_id <$> ex_result.1) =
  ["buffer.level.current"; "high"; "low"; "trainer"].
Proof. vm_compute. done. Qed.


Lemma Evaluate_critical_facts_witness :
  ∃ facts, ∀ critical, critical ∈ critical_fact_policies (ex_contract ex_conditions) →
    tolerated facts (from_option critical_fact_path "" critical) (critical ≫= critical_observation_policy).
Proof.
  destruct (Evaluate_critical_facts (λ _, "") ex_digest id id (ex_contract ex_conditions) ex_intent
    ex_snapshot ex_context (mkSafePoint true true []) ex_result.1 ex_result.2) as (facts & _ & H);
    [by vm_compute..|]. by exists facts.
Defined.

Lemma Evaluate_order_independent_witness : ex_Evaluate (reverse ex_conditions) = Ok ex_result.
Proof.
  unfold ex_Evaluate. rewrite (surjective_pairing ex_result).
  apply (Evaluate_order_independent (λ _, "") ex_digest id id (ex_contract ex_conditions)).
  - split; try done. simpl. apply Permutation_swap.
  - by vm_compute.
  - intros e1 e2 H1 H2. apply list_elem_of_In in H1, H2. revert H1 H2. vm_compute.
    intros H1 H2. repeat destruct H1 as [<-|H1]; try done; repeat destruct H2 as [<-|H2]; try done.
Defined.

Lemma buildFacts_sound_witness :
  ∃ r, buildFacts (λ _, "") (mkInput (ex_contract []) ex_intent ex_snapshot ex_context None) (Some ex_observation) = Ok r ∧
    holds r "queue.depth" (Int64Value 7).
Proof.
  destruct (buildFacts (λ _, "") (mkInput (ex_contract []) ex_intent ex_snapshot ex_context None)
    (Some ex_observation)) as [r|] eqn:E; [|by vm_compute in E]. exists r. split; [done|].
  apply (buildFacts_sound (λ _, "") _ ex_observation r E). left. by left.
Defined.

Lemma buildComponentRegistry_spec_witness :
  ∃ r e, buildComponentRegistry id id (mkInput (ex_contract []) ex_intent ex_snapshot ex_context None)
      (Some ex_observation) = Ok r ∧
    entries r !! (COMPONENT_KIND_TRAINER, "trainer") = Some e ∧
    merged (of_identity id (COMPONENT_KIND_TRAINER, "trainer")
      (offered (mkInput (ex_contract []) ex_intent ex_snapshot ex_context None) (Some ex_observation))) e.
Proof.
  destruct (buildComponentRegistry id id (mkInput (ex_contract []) ex_intent ex_snapshot ex_context None)
    (Some ex_observation)) as [r|] eqn:E; [|by vm_compute in E].
  pose proof (buildComponentRegistry_spec id id _ _ r (COMPONENT_KIND_TRAINER, "trainer") E) as H.
  match type of H with match ?x with _ => _ end => destruct x as [e|] eqn:He end.
  - exists r, e. split; [done|]. split; [exact He|exact H].
  - exfalso. eapply (H (mkEntry _ _ _ _)); [apply list_elem_of_In; vm_compute; right; by left|done].
Defined.
