(* ===== verification/ClusterModel.v ===== *)
(** * The scheduler's resource model ([proto/tgsrl/v1/resource.proto],
      [scheduling.proto], the resource arithmetic of [scheduler-go/state])

    The messages the scheduler store keeps and changes.  Parts of a message the
    scheduler only carries along (semantic context, cursors) are one field holding
    their canonical encoding, so that comparing and cloning messages treats them as a
    whole. *)

From Stdlib Require Import ZArith Lia.
From S2P Require Import Prelude GoTime GoFloat Semantics.
From stdpp Require Import options.

Local Open Scope Z_scope.

(** ** Enumerations *)

Inductive DeviceHealth :=
| DEVICE_HEALTH_UNKNOWN | DEVICE_HEALTH_READY | DEVICE_HEALTH_DEGRADED | DEVICE_HEALTH_DRAINING
| DEVICE_HEALTH_UNAVAILABLE | DEVICE_HEALTH_UNNAMED (n : Z).

Inductive AllocationState :=
| ALLOCATION_STATE_UNKNOWN | ALLOCATION_STATE_PENDING | ALLOCATION_STATE_ACTIVE
| ALLOCATION_STATE_RELEASING | ALLOCATION_STATE_RELEASED | ALLOCATION_STATE_FAILED
| ALLOCATION_STATE_UNNAMED (n : Z).

Inductive DataKind :=
| DATA_KIND_UNKNOWN | DATA_KIND_SYNTHETIC | DATA_KIND_REPLAY | DATA_KIND_LIVE
| DATA_KIND_UNNAMED (n : Z).

Inductive PlanPurpose :=
| PLAN_PURPOSE_UNKNOWN | PLAN_PURPOSE_ADMISSION | PLAN_PURPOSE_REBALANCE | PLAN_PURPOSE_PREEMPTION
| PLAN_PURPOSE_RECOVERY | PLAN_PURPOSE_RECONCILIATION | PLAN_PURPOSE_UNNAMED (n : Z).

Inductive RollbackPolicy :=
| ROLLBACK_POLICY_UNKNOWN | ROLLBACK_POLICY_NOT_REQUIRED | ROLLBACK_POLICY_REQUIRED_COMPENSATION
| ROLLBACK_POLICY_UNNAMED (n : Z).

Inductive ActionType :=
| ACTION_TYPE_UNKNOWN | ACTION_TYPE_SET_SHARE | ACTION_TYPE_SET_PRIORITY | ACTION_TYPE_PAUSE
| ACTION_TYPE_RESUME | ACTION_TYPE_SLEEP | ACTION_TYPE_OFFLOAD | ACTION_TYPE_REBIND
| ACTION_TYPE_RECREATE | ACTION_TYPE_BIND | ACTION_TYPE_RELEASE | ACTION_TYPE_RESIZE
| ACTION_TYPE_UNNAMED (n : Z).

Inductive ActionResultStatus :=
| ACTION_RESULT_STATUS_UNKNOWN | ACTION_RESULT_STATUS_SUCCEEDED | ACTION_RESULT_STATUS_FAILED
| ACTION_RESULT_STATUS_SKIPPED | ACTION_RESULT_STATUS_ROLLED_BACK | ACTION_RESULT_STATUS_UNNAMED (n : Z).

Inductive ActionLevel :=
| ACTION_LEVEL_UNKNOWN | ACTION_LEVEL_L1 | ACTION_LEVEL_L2 | ACTION_LEVEL_L3 | ACTION_LEVEL_L4 | ACTION_LEVEL_UNNAMED (n : Z).

Inductive ActionPrecondition :=
| ACTION_PRECONDITION_UNKNOWN | ACTION_PRECONDITION_SNAPSHOT_REVISION_MATCH
| ACTION_PRECONDITION_TARGET_GENERATION_MATCH | ACTION_PRECONDITION_SAFE_POINT_REACHED
| ACTION_PRECONDITION_AFFECTED_ALLOCATIONS_ACTIVE | ACTION_PRECONDITION_UNNAMED (n : Z).

Inductive ExpectedImpact :=
| EXPECTED_IMPACT_UNKNOWN | EXPECTED_IMPACT_ALLOCATION_CREATED | EXPECTED_IMPACT_ALLOCATION_RELEASED
| EXPECTED_IMPACT_CAPACITY_RESERVED | EXPECTED_IMPACT_CAPACITY_RELEASED
| EXPECTED_IMPACT_RUNTIME_STATE_CHANGED | EXPECTED_IMPACT_UNNAMED (n : Z).

Inductive CapabilityRequirementKind :=
| CAPABILITY_REQUIREMENT_KIND_UNKNOWN | CAPABILITY_REQUIREMENT_KIND_ORDERED_ACTION_EXECUTION
| CAPABILITY_REQUIREMENT_KIND_COMPENSATING_ROLLBACK | CAPABILITY_REQUIREMENT_KIND_TRANSACTIONAL_PLAN_EXECUTION
| CAPABILITY_REQUIREMENT_KIND_ATOMIC_REPLACEMENT | CAPABILITY_REQUIREMENT_KIND_PROVIDER_CAPABILITY
| CAPABILITY_REQUIREMENT_KIND_UNNAMED (n : Z).

#[export] Instance ActionLevel_eq_dec : EqDecision ActionLevel.
Proof. solve_decision. Defined.
#[export] Instance ActionPrecondition_eq_dec : EqDecision ActionPrecondition.
Proof. solve_decision. Defined.
#[export] Instance ExpectedImpact_eq_dec : EqDecision ExpectedImpact.
Proof. solve_decision. Defined.
#[export] Instance CapabilityRequirementKind_eq_dec : EqDecision CapabilityRequirementKind.
Proof. solve_decision. Defined.
#[export] Instance DeviceHealth_eq_dec : EqDecision DeviceHealth.
Proof. solve_decision. Defined.
#[export] Instance AllocationState_eq_dec : EqDecision AllocationState.
Proof. solve_decision. Defined.
#[export] Instance DataKind_eq_dec : EqDecision DataKind.
Proof. solve_decision. Defined.
#[export] Instance PlanPurpose_eq_dec : EqDecision PlanPurpose.
Proof. solve_decision. Defined.
#[export] Instance RollbackPolicy_eq_dec : EqDecision RollbackPolicy.
Proof. solve_decision. Defined.
#[export] Instance ActionType_eq_dec : EqDecision ActionType.
Proof. solve_decision. Defined.
#[export] Instance ActionResultStatus_eq_dec : EqDecision ActionResultStatus.
Proof. solve_decision. Defined.

(** ** Resources *)

Record ResourceVector := mkResources {
  cpu_millis : Z;
  memory_bytes : Z;
  accelerator_units : float64;
  ephemeral_storage_bytes : Z;
  network_bandwidth_bps : Z;
}.

#[export] Instance ResourceVector_eq_dec : EqDecision ResourceVector.
Proof. solve_decision. Defined.

(** The zero message, what the getters of a nil vector read. *)
Definition zero_resources : ResourceVector := mkResources 0 0 f0 0 0.

(** [1e-12] *)
Definition epsilon : float64 := SpecFloat.S754_finite false 4951760157141521 (-92).

(** [resourcesFit]: a nil vector on either side never fits. *)
Definition resourcesFit (requested available : option ResourceVector) : bool :=
  match requested, available with
  | Some r, Some a =>
      if invalidFloat (accelerator_units r) then false else
      (cpu_millis r <=? cpu_millis a) && (memory_bytes r <=? memory_bytes a) &&
      fleb (accelerator_units r) (fadd (accelerator_units a) epsilon) &&
      (ephemeral_storage_bytes r <=? ephemeral_storage_bytes a) &&
      (network_bandwidth_bps r <=? network_bandwidth_bps a)
  | _, _ => false
  end.

Definition subtractResources (available requested : ResourceVector) : ResourceVector :=
  mkResources (wrap64 (cpu_millis available - cpu_millis requested))
    (wrap64 (memory_bytes available - memory_bytes requested))
    (fsub (accelerator_units available) (accelerator_units requested))
    (wrap64 (ephemeral_storage_bytes available - ephemeral_storage_bytes requested))
    (wrap64 (network_bandwidth_bps available - network_bandwidth_bps requested)).

Definition cappedAdd (left right limit : Z) : Z :=
  if (limit <=? left) || (limit - left <? right) then limit else left + right.

Definition addResourcesCapped (available returned capacity : ResourceVector) : ResourceVector :=
  mkResources (cappedAdd (cpu_millis available) (cpu_millis returned) (cpu_millis capacity))
    (cappedAdd (memory_bytes available) (memory_bytes returned) (memory_bytes capacity))
    (fmin (accelerator_units capacity) (fadd (accelerator_units available) (accelerator_units returned)))
    (cappedAdd (ephemeral_storage_bytes available) (ephemeral_storage_bytes returned)
       (ephemeral_storage_bytes capacity))
    (cappedAdd (network_bandwidth_bps available) (network_bandwidth_bps returned)
       (network_bandwidth_bps capacity)).

(** ** Messages *)

(** What a device is measured to be capable of, or a unit requires. *)
Record CapabilityEvidence := mkCapabilityEvidence {
  evidence_id : string;
  ev_source : string;
  ev_revision : Z;
  ev_observed_at : option Timestamp;
  collector : string;
  ev_detail : string;
  ev_attributes : gmap string string;
}.

#[export] Instance CapabilityEvidence_eq_dec : EqDecision CapabilityEvidence.
Proof. solve_decision. Defined.

#[export] Instance ComponentVersion_eq_dec : EqDecision ComponentVersion.
Proof. solve_decision. Defined.

Record CapabilitySet := mkCapabilities {
  names : list string;
  cap_attributes : gmap string string;
  algorithms : list string;
  rollout_modes : list string;
  cap_source : string;
  cap_revision : Z;
  measured_at : option Timestamp;
  supported_actions : list string;
  limits : gmap string float64;
  cap_evidence : list (option CapabilityEvidence);
  cap_component_versions : list (option ComponentVersion);
}.

Record Device := mkDevice {
  device_id : string;
  health : DeviceHealth;
  capacity : option ResourceVector;
  allocatable : option ResourceVector;
  device_capabilities : option CapabilitySet;
  device_labels : gmap string string;
  dev_kind : DeviceKind;
}.

Record Allocation := mkAllocation {
  allocation_id : string;
  al_execution_id : string;
  al_stage_id : string;
  al_intent_version : Z;
  al_job_id : string;
  al_pending_unit_id : string;
  al_device_ids : list string;
  al_resources : option ResourceVector;
  al_state : AllocationState;
  al_created_at : option Timestamp;
  al_expires_at : option Timestamp;
  al_run_id : string;
  al_trace_id : string;
  al_data_kind : DataKind;
  al_generation : Z;
  al_runtime_unit_id : string;
  al_decision_id : string;
  al_plan_id : string;
  al_action_id : string;
  al_priority : option Z;
  al_sandbox_id : string;
  al_binding_id : string;
}.

Record PendingUnit := mkPendingUnit {
  pending_unit_id : string;
  pu_execution_id : string;
  pu_stage_id : string;
  pu_intent_version : Z;
  pu_job_id : string;
  requested_resources : option ResourceVector;
  pu_required_capabilities : option CapabilitySet;
  pu_priority : Z;
  queued_at : option Timestamp;
  attempt : Z;
  pu_run_id : string;
  pu_trace_id : string;
  pu_data_kind : DataKind;
  pu_runtime_unit_id : string;
}.

Record Binding := mkBinding {
  binding_id : string;
  bi_pending_unit_id : string;
  bi_device_ids : list string;
  bi_resources : option ResourceVector;
  bi_sandbox_id : string;
  bi_generation : Z;
  bi_runtime_unit_id : string;
}.

Record Rollback := mkRollback {
  rb_action_type : ActionType;
  rb_target_id : string;
  restore_binding : option Binding;
  reason : string;
}.

(** The part of an action the store does not read: its contract with the planner, the
    provider and the policy of actions. *)
Record ActionContract := mkContract {
  level : ActionLevel;
  ac_priority : Z;
  order : Z;
  ac_plan_id : string;
  expected_snapshot_revision : Z;
  ac_required_capabilities : option CapabilitySet;
  requires_safe_point : bool;
  deadline : option Timestamp;
  ac_tick_kind : TickKind;
  preconditions : list ActionPrecondition;
  expected_impacts : list ExpectedImpact;
}.

Definition no_contract : ActionContract := mkContract ACTION_LEVEL_UNKNOWN 0 0 "" 0 None false None TICK_KIND_UNKNOWN [] [].

Record CapabilityRequirement := mkRequirement {
  requirement_kind : CapabilityRequirementKind;
  requirement_name : string;
  min_version : string;
  required : bool;
}.

#[export] Instance CapabilityRequirement_eq_dec : EqDecision CapabilityRequirement.
Proof. solve_decision. Defined.

Record Action := mkAction {
  action_id : string;
  action_type : ActionType;
  target_id : string;
  action_binding : option Binding;
  share : float64;
  action_rollback : option Rollback;
  ac_sandbox_id : string;
  expected_generation : Z;
  idempotency_key : string;
  action_contract : ActionContract;
}.

Record PlacementPlan := mkPlan {
  plan_id : string;
  pl_execution_id : string;
  pl_stage_id : string;
  pl_intent_version : Z;
  snapshot_revision : Z;
  bindings : list (option Binding);
  actions : list (option Action);
  pl_created_at : option Timestamp;
  pl_expires_at : option Timestamp;
  pl_decision_id : string;
  pl_run_id : string;
  pl_trace_id : string;
  pl_data_kind : DataKind;
  pl_generation : Z;
  pl_cursor : string;
  pl_job_id : string;
  purpose : PlanPurpose;
  rollback_policy : RollbackPolicy;
  capability_requirements : list (option CapabilityRequirement);
  affected_allocation_ids : list string;
  pl_carried : string;
}.

Record ActionResult := mkActionResult {
  ar_action_id : string;
  ar_status : ActionResultStatus;
  rollback_attempted : bool;
  rollback_status : ActionResultStatus;
  ar_error_code : string;
  ar_error_message : string;
  ar_observed_revision : Z;
  ar_plan_id : string;
  ar_idempotency_key : string;
  ar_carried : string;
}.

Record ClusterSnapshot := mkSnapshot {
  snapshot_id : string;
  revision : Z;
  observed_at : option Timestamp;
  devices : list Device;
  allocations : list Allocation;
  pending_units : list PendingUnit;
  annotations : gmap string string;
  snapshot_carried : string;
}.

#[export] Instance eta_CapabilitySet : Eta CapabilitySet := λ c,
  mkCapabilities (names c) (cap_attributes c) (algorithms c) (rollout_modes c) (cap_source c) (cap_revision c)
    (measured_at c) (supported_actions c) (limits c) (cap_evidence c) (cap_component_versions c).

#[export] Instance eta_Device : Eta Device := λ d,
  mkDevice (device_id d) (health d) (capacity d) (allocatable d) (device_capabilities d) (device_labels d)
    (dev_kind d).
#[export] Instance eta_ClusterSnapshot : Eta ClusterSnapshot := λ s,
  mkSnapshot (snapshot_id s) (revision s) (observed_at s) (devices s) (allocations s)
    (pending_units s) (annotations s) (snapshot_carried s).
#[export] Instance eta_Allocation : Eta Allocation := λ a,
  mkAllocation (allocation_id a) (al_execution_id a) (al_stage_id a) (al_intent_version a)
    (al_job_id a) (al_pending_unit_id a) (al_device_ids a) (al_resources a) (al_state a)
    (al_created_at a) (al_expires_at a) (al_run_id a) (al_trace_id a) (al_data_kind a)
    (al_generation a) (al_runtime_unit_id a) (al_decision_id a) (al_plan_id a) (al_action_id a)
    (al_priority a) (al_sandbox_id a) (al_binding_id a).

(** ** [proto.Equal]

    Structural, except that doubles compare as numbers. *)

Definition double_Equal (a b : float64) : bool := feqb a b || (IsNaN a && IsNaN b).

Definition option_Equal {A} (eq : A → A → bool) (a b : option A) : bool :=
  match a, b with Some a, Some b => eq a b | None, None => true | _, _ => false end.

Fixpoint list_Equal {A} (eq : A → A → bool) (l l' : list A) : bool :=
  match l, l' with
  | [], [] => true
  | a :: l, b :: l' => eq a b && list_Equal eq l l'
  | _, _ => false
  end.

Definition map_Equal {A} (eq : A → A → bool) (m m' : gmap string A) : bool :=
  bool_decide (dom m = dom m') &&
  forallb (λ kv, from_option (eq kv.2) false (m' !! kv.1)) (map_to_list m).

Definition capabilities_Equal (a b : CapabilitySet) : bool :=
  bool_decide ((names a, cap_attributes a, algorithms a, rollout_modes a, cap_source a, cap_revision a) =
               (names b, cap_attributes b, algorithms b, rollout_modes b, cap_source b, cap_revision b)) &&
  bool_decide ((measured_at a, supported_actions a, cap_evidence a, cap_component_versions a) =
               (measured_at b, supported_actions b, cap_evidence b, cap_component_versions b)) &&
  map_Equal double_Equal (limits a) (limits b).

Definition resources_Equal (a b : ResourceVector) : bool :=
  (cpu_millis a =? cpu_millis b) && (memory_bytes a =? memory_bytes b) &&
  double_Equal (accelerator_units a) (accelerator_units b) &&
  (ephemeral_storage_bytes a =? ephemeral_storage_bytes b) &&
  (network_bandwidth_bps a =? network_bandwidth_bps b).

Definition binding_Equal (a b : Binding) : bool :=
  bool_decide ((binding_id a, bi_pending_unit_id a, bi_device_ids a, bi_sandbox_id a, bi_generation a, bi_runtime_unit_id a) =
               (binding_id b, bi_pending_unit_id b, bi_device_ids b, bi_sandbox_id b, bi_generation b, bi_runtime_unit_id b)) &&
  option_Equal resources_Equal (bi_resources a) (bi_resources b).

Definition rollback_Equal (a b : Rollback) : bool :=
  bool_decide ((rb_action_type a, rb_target_id a, reason a) = (rb_action_type b, rb_target_id b, reason b)) &&
  option_Equal binding_Equal (restore_binding a) (restore_binding b).

Definition contract_Equal (a b : ActionContract) : bool :=
  bool_decide ((level a, ac_priority a, order a, ac_plan_id a, expected_snapshot_revision a, requires_safe_point a,
                deadline a, ac_tick_kind a, preconditions a, expected_impacts a) =
               (level b, ac_priority b, order b, ac_plan_id b, expected_snapshot_revision b, requires_safe_point b,
                deadline b, ac_tick_kind b, preconditions b, expected_impacts b)) &&
  option_Equal capabilities_Equal (ac_required_capabilities a) (ac_required_capabilities b).

Definition action_Equal (a b : Action) : bool :=
  bool_decide ((action_id a, action_type a, target_id a, ac_sandbox_id a, expected_generation a, idempotency_key a) =
               (action_id b, action_type b, target_id b, ac_sandbox_id b, expected_generation b, idempotency_key b)) &&
  contract_Equal (action_contract a) (action_contract b) &&
  double_Equal (share a) (share b) && option_Equal binding_Equal (action_binding a) (action_binding b) &&
  option_Equal rollback_Equal (action_rollback a) (action_rollback b).

Definition plan_Equal (a b : PlacementPlan) : bool :=
  bool_decide ((plan_id a, pl_execution_id a, pl_stage_id a, pl_intent_version a, snapshot_revision a,
                pl_created_at a, pl_expires_at a, pl_decision_id a, pl_run_id a, pl_trace_id a, pl_data_kind a) =
               (plan_id b, pl_execution_id b, pl_stage_id b, pl_intent_version b, snapshot_revision b,
                pl_created_at b, pl_expires_at b, pl_decision_id b, pl_run_id b, pl_trace_id b, pl_data_kind b)) &&
  bool_decide ((pl_generation a, pl_cursor a, pl_job_id a, purpose a, rollback_policy a,
                capability_requirements a, affected_allocation_ids a, pl_carried a) =
               (pl_generation b, pl_cursor b, pl_job_id b, purpose b, rollback_policy b,
                capability_requirements b, affected_allocation_ids b, pl_carried b)) &&
  list_Equal (option_Equal binding_Equal) (bindings a) (bindings b) &&
  list_Equal (option_Equal action_Equal) (actions a) (actions b).

Definition device_Equal (a b : Device) : bool :=
  bool_decide ((device_id a, health a, device_labels a, dev_kind a) =
               (device_id b, health b, device_labels b, dev_kind b)) &&
  option_Equal capabilities_Equal (device_capabilities a) (device_capabilities b) &&
  option_Equal resources_Equal (capacity a) (capacity b) && option_Equal resources_Equal (allocatable a) (allocatable b).

Definition allocation_Equal (a b : Allocation) : bool :=
  bool_decide ((allocation_id a, al_execution_id a, al_stage_id a, al_intent_version a, al_job_id a, al_pending_unit_id a,
                al_device_ids a, al_state a, al_created_at a, al_expires_at a, al_run_id a) =
               (allocation_id b, al_execution_id b, al_stage_id b, al_intent_version b, al_job_id b, al_pending_unit_id b,
                al_device_ids b, al_state b, al_created_at b, al_expires_at b, al_run_id b)) &&
  bool_decide ((al_trace_id a, al_data_kind a, al_generation a, al_runtime_unit_id a, al_decision_id a, al_plan_id a,
                al_action_id a, al_priority a, al_sandbox_id a, al_binding_id a) =
               (al_trace_id b, al_data_kind b, al_generation b, al_runtime_unit_id b, al_decision_id b, al_plan_id b,
                al_action_id b, al_priority b, al_sandbox_id b, al_binding_id b)) &&
  option_Equal resources_Equal (al_resources a) (al_resources b).

Definition pending_Equal (a b : PendingUnit) : bool :=
  bool_decide ((pending_unit_id a, pu_execution_id a, pu_stage_id a, pu_intent_version a, pu_job_id a,
                pu_priority a, queued_at a) =
               (pending_unit_id b, pu_execution_id b, pu_stage_id b, pu_intent_version b, pu_job_id b,
                pu_priority b, queued_at b)) &&
  bool_decide ((attempt a, pu_run_id a, pu_trace_id a, pu_data_kind a, pu_runtime_unit_id a) =
               (attempt b, pu_run_id b, pu_trace_id b, pu_data_kind b, pu_runtime_unit_id b)) &&
  option_Equal capabilities_Equal (pu_required_capabilities a) (pu_required_capabilities b) &&
  option_Equal resources_Equal (requested_resources a) (requested_resources b).

Definition snapshot_Equal (a b : ClusterSnapshot) : bool :=
  bool_decide ((snapshot_id a, revision a, observed_at a, annotations a, snapshot_carried a) =
               (snapshot_id b, revision b, observed_at b, annotations b, snapshot_carried b)) &&
  list_Equal device_Equal (devices a) (devices b) && list_Equal allocation_Equal (allocations a) (allocations b) &&
  list_Equal pending_Equal (pending_units a) (pending_units b).
