(* ===== verification/SchedulerState.v ===== *)
(** * The scheduler store's state ([scheduler-go/state]: [store.go],
      [action_compat.go], [helpers.go], parts of [snapshot.go] and [reservation.go])

    The store's snapshot, intents and plan reservations, the errors its operations
    wrap, the purposes of plans and the helpers every kind of reservation uses.
    Every operation runs under the store's lock on one reading of its clock, so it
    is a function of the ledger and that reading. *)

From Stdlib Require Import ZArith Lia.
From S2P Require Import Prelude GoStrings GoTime GoFloat ClusterModel.
From stdpp Require Import options.

Local Open Scope Z_scope.

(** The messages wrapped around [ErrPlanAlreadyReserved]. *)
Inductive ReservedWhy := SameContent | DifferentContent | TargetReserved | FinalizedDifferently.

#[export] Instance ReservedWhy_eq_dec : EqDecision ReservedWhy.
Proof. solve_decision. Defined.

(** The sentinel errors of [store.go] that these operations wrap; [NilDereference]
    is Go's panic. *)
Inductive StateError :=
| ErrRevisionExhausted
| ErrInvalidIntent
| ErrIntentExpired
| ErrIntentNotFound
| ErrPlanRevisionConflict
| ErrPlanIntentConflict
| ErrPlanAlreadyReserved (why : ReservedWhy)
| ErrPlanNotReserved
| ErrPendingUnitNotFound
| ErrInsufficientResource
| NilDereference
| OtherStateError (message : string).

#[export] Instance StateError_eq_dec : EqDecision StateError.
Proof. solve_decision. Defined.

(** The part of a stored intent the fences read. *)
Record StoredIntent := mkStoredIntent {
  si_version : Z;
  si_valid_until : option Timestamp;
  si_carried : string;
}.

Record planReservation := mkReservation {
  res_plan : PlacementPlan;
  beforeSnapshot : ClusterSnapshot;
  deviceAllocatable : gmap string (option ResourceVector);
  pendingUnits : list PendingUnit;
  allocationIDs : list string;
  finalized : bool;
  succeeded : bool;
  retainedAllocationIDs : list string;
}.

(** The store's snapshot, intents and reservations. *)
Record Ledger := mkLedger {
  snapshot : ClusterSnapshot;
  intents : gmap (string * string) StoredIntent;
  reservations : gmap string planReservation;
}.

#[export] Instance eta_planReservation : Eta planReservation := λ r,
  mkReservation (res_plan r) (beforeSnapshot r) (deviceAllocatable r) (pendingUnits r) (allocationIDs r) (finalized r)
    (succeeded r) (retainedAllocationIDs r).
#[export] Instance eta_Ledger : Eta Ledger := λ l, mkLedger (snapshot l) (intents l) (reservations l).

(** ** Purposes *)

Definition isLegacyBindOnlyPlan (plan : PlacementPlan) : bool :=
  negb (bool_decide (actions plan = [])) && bool_decide (rollback_policy plan = ROLLBACK_POLICY_UNKNOWN) &&
  bool_decide (capability_requirements plan = []) && bool_decide (affected_allocation_ids plan = []) &&
  forallb (λ a, match a with
                | Some a => bool_decide (action_type a = ACTION_TYPE_BIND) && bool_decide (action_rollback a = None)
                | None => false end) (actions plan).

Definition effectivePlanPurpose (plan : PlacementPlan) : PlanPurpose * bool :=
  match purpose plan with
  | PLAN_PURPOSE_UNKNOWN =>
      if isLegacyBindOnlyPlan plan then (PLAN_PURPOSE_ADMISSION, true) else (PLAN_PURPOSE_UNKNOWN, false)
  | p => (p, false)
  end.

Definition isMutationPurpose (p : PlanPurpose) : bool :=
  match p with
  | PLAN_PURPOSE_REBALANCE | PLAN_PURPOSE_PREEMPTION | PLAN_PURPOSE_RECOVERY
  | PLAN_PURPOSE_RECONCILIATION => true
  | _ => false
  end.

(** ** Small helpers *)

Definition firstNonEmpty (a b : string) : string := if decide (a = "") then b else a.

Definition firstKnownDataKind (a b : DataKind) : DataKind :=
  if decide (a = DATA_KIND_UNKNOWN) then b else a.

Definition actionIDForBinding (plan : PlacementPlan) (bindingID : string) : string :=
  if decide (bindingID = "") then "" else
  match find (λ a, match a with
                   | Some a => bool_decide (from_option binding_id "" (action_binding a) = bindingID)
                   | None => false end) (actions plan) with
  | Some (Some a) => action_id a
  | _ => ""
  end.

(** [sortPendingUnits]: priority descending, then queue time, then identifier. *)
Definition pending_less : PendingUnit → PendingUnit → bool :=
  lex_less (λ a b, pu_priority b <? pu_priority a)
    (lex_less (λ a b, AsTime (queued_at a) <? AsTime (queued_at b))
       (λ a b, str_ltb (pending_unit_id a) (pending_unit_id b))).

Definition sortPendingUnits : list PendingUnit → list PendingUnit := sort_by pending_less.

(** [findDevice]: the first device with the identifier. *)
Fixpoint findDevice (ds : list Device) (id : string) : option (nat * Device) :=
  match ds with
  | [] => None
  | d :: ds =>
      if decide (device_id d = id) then Some (0%nat, d)
      else (λ p, (S p.1, p.2)) <$> findDevice ds id
  end.

(** The entry of a map filled from the list: the last device with the identifier. *)
Fixpoint lastDevice (ds : list Device) (id : string) : option (nat * Device) :=
  match ds with
  | [] => None
  | d :: ds =>
      match lastDevice ds id with
      | Some p => Some (S p.1, p.2)
      | None => if decide (device_id d = id) then Some (0%nat, d) else None
      end
  end.

(** Maps and sets filled from lists, the last element winning. *)
Definition pending_map (us : list PendingUnit) : gmap string PendingUnit :=
  foldl (λ m u, <[pending_unit_id u := u]> m) ∅ us.

Definition snapshotID (rev : Z) : string := "snapshot-" +:+ FormatUint rev.

Definition commitSnapshotLocked (l : Ledger) (now : Z) (working : ClusterSnapshot) : Ledger :=
  let rev := wrap64 (revision (snapshot l) + 1) in
  l <| snapshot := working <| revision := rev |> <| snapshot_id := snapshotID rev |>
                           <| observed_at := Some (timestamp_New now) |> |>.

(** ** Validation of a plan's fences *)

Definition validatePlanLocked (l : Ledger) (now : Z) (plan : PlacementPlan) : Result StateError unit :=
  _ ← guard_err (snapshot_revision plan =? revision (snapshot l)) ErrPlanRevisionConflict;
  match intents l !! (pl_execution_id plan, pl_stage_id plan) with
  | None => Err ErrIntentNotFound
  | Some intent =>
      _ ← guard_err (now <? AsTime (si_valid_until intent)) ErrIntentExpired;
      guard_err (pl_intent_version plan =? si_version intent) ErrPlanIntentConflict
  end.

Definition ValidatePlan (l : Ledger) (now : Z) (plan : option PlacementPlan) : Result StateError unit :=
  match plan with
  | None => Err (OtherStateError "state: nil placement plan")
  | Some plan => validatePlanLocked l now plan
  end.

(** Give the resources of a released allocation back to its devices. *)
Fixpoint release_devices (ds : list Device) (ids : list string) (resources : option ResourceVector) :
    Result StateError (list Device) :=
  match ids with
  | [] => Ok ds
  | id :: ids =>
      match findDevice ds id with
      | None => release_devices ds ids resources
      | Some (i, device) =>
          match allocatable device with
          | None => Err NilDereference
          | Some a =>
              let a := addResourcesCapped a (default zero_resources resources)
                         (default zero_resources (capacity device)) in
              release_devices (alter (λ d, d <| allocatable := Some a |>) i ds) ids resources
          end
      end
  end.
