(* ===== verification/Mutation.v ===== *)
(** * Mutation reservations ([scheduler-go/state/mutation_reservation.go])

    Plans that change active allocations: releasing, resizing, rebinding,
    recreating, and the lifecycle actions that leave the snapshot alone.  A
    reservation prepares the change in the snapshot and locks the allocations it
    names; finalising commits it, reverses exactly its own delta, or marks what may
    be left behind as failed.  [working] is the private copy of the snapshot the
    code edits; a loop that stops at a missing device returns the error of the code,
    and a nil vector that the code would write through is [NilDereference]. *)

From Stdlib Require Import ZArith Lia.
From S2P Require Import Prelude GoStrings GoTime GoFloat ClusterModel SchedulerState.
From stdpp Require Import options.

Local Open Scope Z_scope.

(** ** Lookups *)

(** [findAllocationMutable], [findAllocationInSnapshot]: the first with the id. *)
Fixpoint findAllocation (als : list Allocation) (id : string) : option (nat * Allocation) :=
  match als with
  | [] => None
  | a :: als =>
      if decide (allocation_id a = id) then Some (0%nat, a)
      else (λ p, (S p.1, p.2)) <$> findAllocation als id
  end.

Definition findAllocationMutable (w : ClusterSnapshot) (id : string) : Result StateError (nat * Allocation) :=
  match findAllocation (allocations w) id with Some p => Ok p | None => Err ErrPendingUnitNotFound end.

(** A map filled from the list by identifier, the last one winning. *)
Definition allocation_map (als : list Allocation) : gmap string Allocation :=
  foldl (λ m a, <[allocation_id a := a]> m) ∅ als.

(** Writing through the pointer [findAllocationMutable] returned. *)
Definition update_allocation (f : Allocation → Allocation) (i : nat) (w : ClusterSnapshot) : ClusterSnapshot :=
  w <| allocations := alter f i (allocations w) |>.

Definition set_state (st : AllocationState) (a : Allocation) : Allocation := a <| al_state := st |>.

(** The allocations that may be changed. *)
Definition reservable (a : Allocation) : bool :=
  bool_decide (al_state a = ALLOCATION_STATE_ACTIVE) || bool_decide (al_state a = ALLOCATION_STATE_PENDING) ||
  bool_decide (al_state a = ALLOCATION_STATE_RELEASING).

Fixpoint collect_affected (als : list Allocation) (ids : list string) (items : gmap string Allocation) :
    Result StateError (gmap string Allocation) :=
  match ids with
  | [] => Ok items
  | id :: ids =>
      match findAllocation als id with
      | None => Err ErrPendingUnitNotFound
      | Some (_, a) => if reservable a then collect_affected als ids (<[id := a]> items) else Err ErrInvalidIntent
      end
  end.

Definition affectedAllocationsByID (als : list Allocation) (ids : list string) :
    Result StateError (gmap string Allocation) :=
  if bool_decide (ids = []) then Err ErrInvalidIntent else collect_affected als ids ∅.

(** The allocations other plans' open reservations hold. *)
Definition locked_by_others (rs : gmap string planReservation) (planID : string) : list string :=
  concat ((λ p, allocationIDs p.2) <$>
            filter (λ p, p.1 ≠ planID ∧ finalized p.2 = false) (map_to_list rs)).

Definition ensureMutationTargetsUnlocked (rs : gmap string planReservation) (planID : string)
    (affected : list string) : Result StateError unit :=
  guard_err (forallb (λ id, negb (bool_decide (id ∈ locked_by_others rs planID))) affected)
    (ErrPlanAlreadyReserved TargetReserved).

Definition singleAffectedAllocation (action : Action) (affected : gmap string Allocation) :
    Result StateError Allocation :=
  match (if decide (target_id action = "") then map_to_list affected else []), affected !! target_id action with
  | [(_, a)], _ => Ok a
  | _, Some a => Ok a
  | _, None => Err ErrPendingUnitNotFound
  end.

Definition is_active (a : Allocation) : bool := bool_decide (al_state a = ALLOCATION_STATE_ACTIVE).

(** ** Resource arithmetic *)

Definition positiveUint64Delta (left right : Z) : Z := if left <=? right then 0 else left - right.

Definition positiveResourceDelta (left right : ResourceVector) : ResourceVector :=
  mkResources (positiveUint64Delta (cpu_millis left) (cpu_millis right))
    (positiveUint64Delta (memory_bytes left) (memory_bytes right))
    (fmax f0 (fsub (accelerator_units left) (accelerator_units right)))
    (positiveUint64Delta (ephemeral_storage_bytes left) (ephemeral_storage_bytes right))
    (positiveUint64Delta (network_bandwidth_bps left) (network_bandwidth_bps right)).

Definition addResources (available returned : ResourceVector) : ResourceVector :=
  mkResources (wrap64 (cpu_millis available + cpu_millis returned))
    (wrap64 (memory_bytes available + memory_bytes returned))
    (fadd (accelerator_units available) (accelerator_units returned))
    (wrap64 (ephemeral_storage_bytes available + ephemeral_storage_bytes returned))
    (wrap64 (network_bandwidth_bps available + network_bandwidth_bps returned)).

(** Every named device exists, is ready if required, and has room for [need]. *)
Fixpoint check_devices (ready : bool) (need : ResourceVector) (ds : list Device) (ids : list string) :
    Result StateError unit :=
  match ids with
  | [] => Ok tt
  | id :: ids =>
      match findDevice ds id with
      | None => Err ErrInsufficientResource
      | Some (_, d) =>
          if ready && negb (bool_decide (health d = DEVICE_HEALTH_READY)) then Err ErrInsufficientResource
          else if resourcesFit (Some need) (allocatable d) then check_devices ready need ds ids
          else Err ErrInsufficientResource
      end
  end.

(** Write the allocatable vector of every named device, in order. *)
Fixpoint update_devices (f : Device → ResourceVector → ResourceVector) (ds : list Device) (ids : list string) :
    Result StateError (list Device) :=
  match ids with
  | [] => Ok ds
  | id :: ids =>
      match findDevice ds id with
      | None => Err NilDereference
      | Some (i, d) =>
          match allocatable d with
          | None => Err NilDereference
          | Some a => update_devices f (alter (λ e, e <| allocatable := Some (f d a) |>) i ds) ids
          end
      end
  end.

Definition device_capacity (d : Device) : ResourceVector := default zero_resources (capacity d).

(** [subtractResources] of one vector, then [addResourcesCapped] of another. *)
Definition exchange (minus plus : ResourceVector) (d : Device) (a : ResourceVector) : ResourceVector :=
  addResourcesCapped (subtractResources a minus) plus (device_capacity d).

Definition rememberDeviceAllocatable (r : planReservation) (ids : list string) : planReservation :=
  r <| deviceAllocatable :=
    foldl (λ m id, match m !! id, findDevice (devices (beforeSnapshot r)) id with
                   | None, Some (_, d) => <[id := allocatable d]> m
                   | _, _ => m
                   end) (deviceAllocatable r) ids |>.

(** [removeAllocationsByID] *)
Definition removeAllocationsByID (als : list Allocation) (ids : list string) : list Allocation :=
  filter (λ a, allocation_id a ∉ ids) als.

(** Set the state of the first allocation with each of the ids that is there. *)
Definition mark_allocations (st : AllocationState) (als : list Allocation) (ids : list string) : list Allocation :=
  foldl (λ als id, match findAllocation als id with
                   | Some (i, _) => alter (set_state st) i als
                   | None => als
                   end) als ids.

Definition markAllocationsFailed : list Allocation → list string → list Allocation :=
  mark_allocations ALLOCATION_STATE_FAILED.

Definition restorePendingUnitsFromReservation (w : ClusterSnapshot) (units : list PendingUnit) : ClusterSnapshot :=
  if bool_decide (units = []) then w else
  w <| pending_units := sortPendingUnits
         (pending_units w ++ filter (λ u, pending_unit_id u ∉ pending_unit_id <$> pending_units w) units) |>.

Section Mutation.
Context (allocationID : string → string).

(** ** Reserving *)

(** The working snapshot and the reservation under construction. *)
Definition Prepared : Type := ClusterSnapshot * planReservation.

Definition add_allocation_ids (ids : list string) (r : planReservation) : planReservation :=
  r <| allocationIDs := allocationIDs r ++ ids |>.

(** The target of an action, which must be active. *)
Definition active_target (action : Action) (affected : gmap string Allocation) : Result StateError Allocation :=
  a ← singleAffectedAllocation action affected;
  _ ← guard_err (is_active a) ErrInvalidIntent;
  Ok a.

Definition reserveReleaseAction (w : ClusterSnapshot) (plan : PlacementPlan) (action : Action)
    (affected : gmap string Allocation) (r : planReservation) : Result StateError Prepared :=
  a ← active_target action affected;
  p ← findAllocationMutable w (allocation_id a);
  let r := add_allocation_ids [allocation_id a] r in
  Ok (update_allocation (set_state ALLOCATION_STATE_RELEASING) p.1 w,
      if decide (purpose plan = PLAN_PURPOSE_RECONCILIATION)
      then r <| retainedAllocationIDs := retainedAllocationIDs r ++ [allocation_id a] |> else r).

Definition reserveLifecycleOnlyAction (w : ClusterSnapshot) (action : Action)
    (affected : gmap string Allocation) (r : planReservation) : Result StateError Prepared :=
  a ← active_target action affected;
  Ok (w, add_allocation_ids [allocation_id a] r).

Definition reserveResizeAction (w : ClusterSnapshot) (plan : PlacementPlan) (action : Action)
    (affected : gmap string Allocation) (r : planReservation) : Result StateError Prepared :=
  a ← active_target action affected;
  match action_binding action ≫= bi_resources, al_resources a with
  | Some target, Some current =>
      p ← findAllocationMutable w (allocation_id a);
      if resources_Equal target current then Ok (w, add_allocation_ids [allocation_id a] r) else
      let r := rememberDeviceAllocatable r (al_device_ids a) in
      let consumed := positiveResourceDelta target current in
      let returned := positiveResourceDelta current target in
      _ ← check_devices false consumed (devices w) (al_device_ids p.2);
      ds ← update_devices (exchange consumed returned) (devices w) (al_device_ids p.2);
      let resize a := a <| al_resources := Some target |> <| al_intent_version := pl_intent_version plan |> in
      Ok (update_allocation resize p.1 (w <| devices := ds |>), add_allocation_ids [allocation_id a] r)
  | _, _ => Err ErrInvalidIntent
  end.

Definition buildReplacementAllocation (plan : PlacementPlan) (action : Action) (source : Allocation) (b : Binding)
    (id : string) (now : Z) (recreate : bool) : Allocation :=
  mkAllocation id (al_execution_id source) (al_stage_id source) (pl_intent_version plan) (al_job_id source)
    (al_pending_unit_id source) (bi_device_ids b) (bi_resources b) ALLOCATION_STATE_PENDING
    (Some (timestamp_New now)) (pl_expires_at plan) (al_run_id source) (al_trace_id source) (al_data_kind source)
    (bi_generation b) (if recreate then bi_runtime_unit_id b else al_runtime_unit_id source) (pl_decision_id plan)
    (plan_id plan) (action_id action) (al_priority source) (bi_sandbox_id b) (binding_id b).

Definition reserveReplacementAction (w : ClusterSnapshot) (plan : PlacementPlan) (action : Action)
    (affected : gmap string Allocation) (r : planReservation) (now : Z) (sameDevice : bool) :
    Result StateError Prepared :=
  a ← active_target action affected;
  match action_binding action with
  | None => Err ErrInvalidIntent
  | Some b =>
      match bi_resources b, bi_device_ids b with
      | Some resources, _ :: _ =>
          if negb (option_Equal resources_Equal (Some resources) (al_resources a)) then Err ErrInvalidIntent else
          let r := rememberDeviceAllocatable (rememberDeviceAllocatable r (al_device_ids a)) (bi_device_ids b) in
          if sameDevice && negb (bool_decide (bi_device_ids b = al_device_ids a)) then Err ErrInvalidIntent else
          ds ← (if sameDevice then Ok (devices w) else
                  _ ← check_devices true resources (devices w) (bi_device_ids b);
                  update_devices (λ _ v, subtractResources v resources) (devices w) (bi_device_ids b));
          let id := allocationID (binding_id b) in
          if bool_decide (is_Some (findAllocation (allocations w) id)) then Err ErrInvalidIntent else
          Ok (w <| devices := ds |> <| allocations := allocations w ++
                [buildReplacementAllocation plan action a b id now sameDevice] |>,
              add_allocation_ids [allocation_id a; id] r)
      | _, _ => Err ErrInvalidIntent
      end
  end.

Definition reserveRebindAction (w : ClusterSnapshot) (plan : PlacementPlan) (action : Action)
    (affected : gmap string Allocation) (r : planReservation) (now : Z) : Result StateError Prepared :=
  reserveReplacementAction w plan action affected r now false.

Definition reserveRecreateAction (w : ClusterSnapshot) (plan : PlacementPlan) (action : Action)
    (affected : gmap string Allocation) (r : planReservation) (now : Z) : Result StateError Prepared :=
  reserveReplacementAction w plan action affected r now true.

Definition applyMutationReservation (w : ClusterSnapshot) (plan : PlacementPlan) (action : Action)
    (affected : gmap string Allocation) (r : planReservation) (now : Z) : Result StateError Prepared :=
  match action_type action with
  | ACTION_TYPE_RELEASE => reserveReleaseAction w plan action affected r
  | ACTION_TYPE_PAUSE | ACTION_TYPE_RESUME | ACTION_TYPE_SLEEP | ACTION_TYPE_OFFLOAD
  | ACTION_TYPE_SET_SHARE | ACTION_TYPE_SET_PRIORITY => reserveLifecycleOnlyAction w action affected r
  | ACTION_TYPE_RESIZE => reserveResizeAction w plan action affected r
  | ACTION_TYPE_REBIND => reserveRebindAction w plan action affected r now
  | ACTION_TYPE_RECREATE => reserveRecreateAction w plan action affected r now
  | _ => Err ErrInvalidIntent
  end.

(** Several lifecycle actions at once. *)
Definition mergeableLifecycleAction (t : ActionType) : bool :=
  match t with
  | ACTION_TYPE_SET_SHARE | ACTION_TYPE_SET_PRIORITY | ACTION_TYPE_PAUSE
  | ACTION_TYPE_RESUME | ACTION_TYPE_SLEEP | ACTION_TYPE_OFFLOAD => true
  | _ => false
  end.

Definition compatibleLifecycleMutations (left right : ActionType) : bool :=
  match left, right with
  | ACTION_TYPE_SET_SHARE, ACTION_TYPE_SET_PRIORITY | ACTION_TYPE_SET_PRIORITY, ACTION_TYPE_SET_SHARE => true
  | _, _ => false
  end.

(** The loop over the actions; [seen] maps an allocation to its mutations so far. *)
Fixpoint merge_lifecycle (affected : gmap string Allocation) (acts : list (option Action))
    (seen : gmap string (list ActionType)) : Result StateError (gmap string (list ActionType)) :=
  match acts with
  | [] => Ok seen
  | None :: _ => Err ErrInvalidIntent
  | Some action :: acts =>
      if negb (mergeableLifecycleAction (action_type action)) then Err ErrInvalidIntent else
      a ← singleAffectedAllocation action affected;
      let existing := default [] (seen !! allocation_id a) in
      if negb (forallb (λ t, compatibleLifecycleMutations t (action_type action)) existing)
      then Err ErrInvalidIntent
      else merge_lifecycle affected acts (<[allocation_id a := existing ++ [action_type action]]> seen)
  end.

Definition new_reservation (l : Ledger) (plan : PlacementPlan) : planReservation :=
  mkReservation plan (snapshot l) ∅ [] [] false false [].

Definition add_reservation (plan : PlacementPlan) (r : planReservation) (l : Ledger) : Ledger :=
  l <| reservations := <[plan_id plan := r]> (reservations l) |>.

Definition reserveLifecyclePlanLocked (l : Ledger) (plan : PlacementPlan) : Result StateError Ledger :=
  affected ← affectedAllocationsByID (allocations (snapshot l)) (affected_allocation_ids plan);
  _ ← ensureMutationTargetsUnlocked (reservations l) (plan_id plan) (affected_allocation_ids plan);
  seen ← merge_lifecycle affected (actions plan) ∅;
  Ok (add_reservation plan (add_allocation_ids (sort_strings (fst <$> map_to_list seen)) (new_reservation l plan)) l).

(** Committing only a snapshot that differs. *)
Definition commit_changed (l : Ledger) (now : Z) (w : ClusterSnapshot) : Ledger :=
  if snapshot_Equal w (snapshot l) then l else commitSnapshotLocked l now w.

(** [reserveMutationPlanLocked] for the purposes other than preemption. *)
Definition reserveChangePlan (l : Ledger) (now : Z) (plan : PlacementPlan) : Result StateError Ledger :=
  match actions plan with
  | [] => Err ErrInvalidIntent
  | _ :: _ :: _ => reserveLifecyclePlanLocked l plan
  | [None] => Err ErrInvalidIntent
  | [Some action] =>
      if bool_decide (action_id action = "") then Err ErrInvalidIntent else
      affected ← affectedAllocationsByID (allocations (snapshot l)) (affected_allocation_ids plan);
      _ ← ensureMutationTargetsUnlocked (reservations l) (plan_id plan) (affected_allocation_ids plan);
      if revision (snapshot l) =? max_uint64 then Err ErrRevisionExhausted else
      p ← applyMutationReservation (snapshot l) plan action affected (new_reservation l plan) now;
      Ok (add_reservation plan p.2 (commit_changed l now p.1))
  end.

(** ** Outcomes *)

Definition confirms_restoration (r : ActionResult) : bool :=
  if rollback_attempted r then bool_decide (rollback_status r = ACTION_RESULT_STATUS_ROLLED_BACK) else
  match ar_status r with
  | ACTION_RESULT_STATUS_FAILED | ACTION_RESULT_STATUS_SKIPPED | ACTION_RESULT_STATUS_ROLLED_BACK => true
  | _ => false
  end.

(** The results by action; [None] for a malformed one or, if not [duplicates], a
    second result of an action. *)
Fixpoint results_by_id (duplicates : bool) (rs : list (option ActionResult)) (m : gmap string ActionResult) :
    option (gmap string ActionResult) :=
  match rs with
  | [] => Some m
  | None :: _ => None
  | Some r :: rs =>
      if bool_decide (ar_action_id r = "") then None
      else if negb duplicates && bool_decide (is_Some (m !! ar_action_id r)) then None
      else results_by_id duplicates rs (<[ar_action_id r := r]> m)
  end.

Definition results_confirm_restoration (duplicates : bool) (plan : PlacementPlan)
    (results : list (option ActionResult)) : bool :=
  if bool_decide (actions plan = []) || negb (Nat.eqb (length results) (length (actions plan))) then false else
  match results_by_id duplicates results ∅ with
  | None => false
  | Some byID =>
      forallb (λ a, match byID !! from_option action_id "" a with
                    | Some r => confirms_restoration r
                    | None => false end) (actions plan)
  end.

Definition mutationResultConfirmsRestoration : PlacementPlan → list (option ActionResult) → bool :=
  results_confirm_restoration false.

Definition first_action_type (plan : PlacementPlan) : ActionType :=
  match actions plan with Some a :: _ => action_type a | _ => ACTION_TYPE_UNKNOWN end.

Definition successfulMutationRetainedIDs (plan : PlacementPlan) (r : planReservation) : list string :=
  match first_action_type plan, allocationIDs r with
  | ACTION_TYPE_RELEASE, _ => []
  | (ACTION_TYPE_REBIND | ACTION_TYPE_RECREATE), [_; target] => [target]
  | _, ids => ids
  end.

Definition failedMutationRetainedIDs (plan : PlacementPlan) (r : planReservation)
    (results : list (option ActionResult)) : list string * bool :=
  match actions plan with
  | [] => ([], false)
  | action :: _ =>
      match results with
      | [Some result] =>
          if negb (bool_decide (ar_action_id result = from_option action_id "" action)) then (allocationIDs r, true) else
          let rollbackIncomplete := rollback_attempted result &&
                negb (bool_decide (rollback_status result = ACTION_RESULT_STATUS_ROLLED_BACK)) in
          let mutationMayRemain := rollbackIncomplete ||
                (negb (rollback_attempted result) &&
                 match ar_status result with
                 | ACTION_RESULT_STATUS_FAILED | ACTION_RESULT_STATUS_SKIPPED | ACTION_RESULT_STATUS_ROLLED_BACK => false
                 | _ => true
                 end) in
          if negb mutationMayRemain then ([], false)
          else if rollbackIncomplete then (allocationIDs r, true)
          else match first_action_type plan, allocationIDs r with
               | (ACTION_TYPE_REBIND | ACTION_TYPE_RECREATE), [_; target] => ([target], false)
               | _, ids => (ids, false)
               end
      | _ => (allocationIDs r, true)
      end
  end.

Record mutationFinalizationOutcome := mkOutcome {
  restore : bool;
  retainedIDs : list string;
}.

Definition mutationOutcome (plan : PlacementPlan) (r : planReservation) (ok : bool)
    (results : list (option ActionResult)) : mutationFinalizationOutcome :=
  if ok then mkOutcome false (sort_strings (successfulMutationRetainedIDs plan r))
  else if mutationResultConfirmsRestoration plan results then mkOutcome true []
  else mkOutcome false (sort_strings (failedMutationRetainedIDs plan r results).1).

(** ** Finalising *)

Definition reverseDeviceResourceDelta (w : ClusterSnapshot) (ids : list string)
    (preparedConsumption preparedReturn : option ResourceVector) : Result StateError ClusterSnapshot :=
  let consumption := default zero_resources preparedConsumption in
  let returned := default zero_resources preparedReturn in
  _ ← check_devices false returned (devices w) ids;
  ds ← update_devices (exchange returned consumption) (devices w) ids;
  Ok (w <| devices := ds |>).

Definition restoreMutationStateFromBeforeImage (w : ClusterSnapshot) (plan : PlacementPlan) (r : planReservation) :
    Result StateError ClusterSnapshot :=
  match actions plan with
  | [] => Err ErrPlanNotReserved
  | _ :: _ :: _ =>
      if forallb (λ a, match a with Some a => mergeableLifecycleAction (action_type a) | None => false end) (actions plan)
      then Ok w else Err ErrInvalidIntent
  | [None] => Err ErrInvalidIntent
  | [Some action] =>
      let targetID := match target_id action, allocationIDs r with
                      | ""%string, id :: _ => id
                      | id, _ => id end in
      let previous := allocation_map (allocations (beforeSnapshot r)) !! targetID in
      w ← match action_type action with
          | ACTION_TYPE_RELEASE =>
              match previous, findAllocation (allocations w) targetID with
              | Some previous, Some (i, _) => Ok (update_allocation (set_state (al_state previous)) i w)
              | _, _ => Err ErrPlanNotReserved
              end
          | ACTION_TYPE_RESIZE =>
              match previous, findAllocation (allocations w) targetID with
              | Some previous, Some (i, _) =>
                  let target := default zero_resources (action_binding action ≫= bi_resources) in
                  let before := default zero_resources (al_resources previous) in
                  w ← reverseDeviceResourceDelta w (al_device_ids previous)
                        (Some (positiveResourceDelta target before)) (Some (positiveResourceDelta before target));
                  let resize a := a <| al_resources := al_resources previous |>
                                    <| al_intent_version := al_intent_version previous |> in
                  Ok (update_allocation resize i w)
              | _, _ => Err ErrPlanNotReserved
              end
          | ACTION_TYPE_REBIND =>
              w ← reverseDeviceResourceDelta w (from_option bi_device_ids [] (action_binding action))
                    (action_binding action ≫= bi_resources) None;
              Ok (w <| allocations := removeAllocationsByID (allocations w) (tail (allocationIDs r)) |>)
          | ACTION_TYPE_RECREATE =>
              Ok (w <| allocations := removeAllocationsByID (allocations w) (tail (allocationIDs r)) |>)
          | ACTION_TYPE_PAUSE | ACTION_TYPE_RESUME | ACTION_TYPE_SLEEP | ACTION_TYPE_OFFLOAD
          | ACTION_TYPE_SET_SHARE | ACTION_TYPE_SET_PRIORITY => Ok w
          | _ => Err ErrInvalidIntent
          end;
      Ok (restorePendingUnitsFromReservation w (pendingUnits r))
  end.

(** Give back the resources of the allocations that are there. *)
Fixpoint release_allocations (ds : list Device) (als : list Allocation) (ids : list string) :
    Result StateError (list Device) :=
  match ids with
  | [] => Ok ds
  | id :: ids =>
      match findAllocation als id with
      | None => release_allocations ds als ids
      | Some (_, a) => ds ← release_devices ds (al_device_ids a) (al_resources a); release_allocations ds als ids
      end
  end.

(** The working snapshot of a plan that succeeded. *)
Definition commitMutation (w : ClusterSnapshot) (plan : PlacementPlan) (r : planReservation) :
    Result StateError ClusterSnapshot :=
  let als := allocations w in
  match first_action_type plan, allocationIDs r with
  | ACTION_TYPE_RELEASE, ids =>
      ds ← release_allocations (devices w) als ids;
      Ok (w <| devices := ds |> <| allocations := removeAllocationsByID als ids |>)
  | ACTION_TYPE_REBIND, source :: target :: _ =>
      ds ← release_allocations (devices w) als [source];
      Ok (w <| devices := ds |> <| allocations :=
            mark_allocations ALLOCATION_STATE_ACTIVE (removeAllocationsByID als [source]) [target] |>)
  | ACTION_TYPE_RECREATE, source :: target :: _ =>
      Ok (w <| allocations := mark_allocations ALLOCATION_STATE_ACTIVE (removeAllocationsByID als [source]) [target] |>)
  | (ACTION_TYPE_REBIND | ACTION_TYPE_RECREATE), _ => Ok w
  | _, ids => Ok (w <| allocations := mark_allocations ALLOCATION_STATE_ACTIVE als ids |>)
  end.

(** Committing the result of a finalisation. *)
Definition commit_finalized (l : Ledger) (now : Z) (w : ClusterSnapshot) : Result StateError Ledger :=
  if (revision (snapshot l) =? max_uint64) && negb (snapshot_Equal w (snapshot l))
  then Err ErrRevisionExhausted else Ok (commit_changed l now w).

Definition finalizeMutationPlanResultsLocked (l : Ledger) (now : Z) (plan : PlacementPlan) (r : planReservation)
    (ok : bool) (results : list (option ActionResult)) : Result StateError (Ledger * list string) :=
  if bool_decide (actions plan = []) then Err ErrPlanNotReserved else
  let outcome := mutationOutcome plan r ok results in
  w ← (if ok then commitMutation (snapshot l) plan r
       else if restore outcome then restoreMutationStateFromBeforeImage (snapshot l) plan r
       else Ok ((snapshot l) <| allocations := markAllocationsFailed (allocations (snapshot l)) (retainedIDs outcome) |>));
  l ← commit_finalized l now w;
  Ok (l, retainedIDs outcome).
End Mutation.
