(* ===== verification/Preemption.v ===== *)
(** * Preemption reservations ([scheduler-go/state/preemption_reservation.go])

    A preemption plan releases victims and binds one replacement, whose resources
    may come from the victims on its device: preparing takes only what the victims
    do not cover, committing returns what the replacement does not use. *)

From Stdlib Require Import ZArith Lia.
From S2P Require Import Prelude GoStrings GoTime GoFloat ClusterModel SchedulerState Mutation.
From stdpp Require Import options.

Local Open Scope Z_scope.

(** ** The parts of a plan *)

(** The loop over the actions: the bind action and the release actions. *)
Fixpoint preemption_actions (acts : list (option Action)) (bind : option Action) (releases : list Action) :
    Result StateError (option Action * list Action) :=
  match acts with
  | [] => Ok (bind, releases)
  | None :: _ => Err ErrInvalidIntent
  | Some action :: acts =>
      if bool_decide (action_id action = "") then Err ErrInvalidIntent else
      match action_type action, bind with
      | ACTION_TYPE_RELEASE, _ => preemption_actions acts bind (releases ++ [action])
      | ACTION_TYPE_BIND, None => preemption_actions acts (Some action) releases
      | _, _ => Err ErrInvalidIntent
      end
  end.

(** The replacement binding, its device and resources, the bind and release actions. *)
Record PreemptionParts := mkParts {
  replacement : Binding;
  target_device : string;
  replacement_resources : ResourceVector;
  bind_action : Action;
  release_actions : list Action;
}.

Definition preemptionPlanParts (plan : PlacementPlan) : Result StateError PreemptionParts :=
  match bindings plan with
  | [Some b] =>
      match bi_resources b, bi_device_ids b with
      | Some resources, [device] =>
          if bool_decide (binding_id b = "") || bool_decide (bi_pending_unit_id b = "") then Err ErrInvalidIntent else
          p ← preemption_actions (actions plan) None [];
          match p with
          | (Some bind, (_ :: _) as releases) =>
              _ ← guard_err (option_Equal binding_Equal (action_binding bind) (Some b) &&
                             bool_decide (target_id bind = bi_pending_unit_id b) &&
                             bool_decide (ac_sandbox_id bind = bi_sandbox_id b) &&
                             (expected_generation bind =? bi_generation b)) ErrInvalidIntent;
              _ ← guard_err (negb (bool_decide (bi_sandbox_id b = "") || bool_decide (bi_runtime_unit_id b = "") ||
                                   (bi_generation b =? 0))) ErrInvalidIntent;
              Ok (mkParts b device resources bind releases)
          | _ => Err ErrInvalidIntent
          end
      | _, _ => Err ErrInvalidIntent
      end
  | _ => Err ErrInvalidIntent
  end.

(** The release action names exactly the victim, and can restore it. *)
Definition victim_binding (victim : Allocation) : Binding :=
  mkBinding (al_binding_id victim) (al_pending_unit_id victim) (al_device_ids victim) (al_resources victim)
    (al_sandbox_id victim) (al_generation victim) (al_runtime_unit_id victim).

Definition validatePreemptionReleaseIdentity (action : Action) (victim : Allocation) : Result StateError unit :=
  let want := victim_binding victim in
  guard_err
    (negb (bool_decide (binding_id want = "") || bool_decide (bi_pending_unit_id want = "") ||
           bool_decide (bi_sandbox_id want = "") || bool_decide (bi_runtime_unit_id want = "") ||
           (bi_generation want =? 0) || bool_decide (bi_device_ids want = []) || bool_decide (bi_resources want = None)) &&
     bool_decide (ac_sandbox_id action = bi_sandbox_id want) && (expected_generation action =? bi_generation want) &&
     option_Equal binding_Equal (action_binding action) (Some want) &&
     match action_rollback action with
     | Some rb => bool_decide (rb_action_type rb = ACTION_TYPE_BIND) && bool_decide (rb_target_id rb = bi_sandbox_id want) &&
                  option_Equal binding_Equal (restore_binding rb) (Some want)
     | None => false
     end) ErrInvalidIntent.

(** ** Reserving *)

(** [addResources] of a vector that may be nil. *)
Definition add_optional (available : ResourceVector) (returned : option ResourceVector) : ResourceVector :=
  match returned with Some r => addResources available r | None => available end.

(** The loop over the victims: the working snapshot, the reservation, what they
    release on the target device. *)
Fixpoint reserve_victims (target : string) (affected : gmap string Allocation) (releases : list Action)
    (seen : gset string) (w : ClusterSnapshot) (r : planReservation) (released : ResourceVector) :
    Result StateError (ClusterSnapshot * planReservation * ResourceVector) :=
  match releases with
  | [] => Ok (w, r, released)
  | action :: releases =>
      victim ← active_target action affected;
      _ ← validatePreemptionReleaseIdentity action victim;
      if bool_decide (allocation_id victim ∈ seen) then Err ErrInvalidIntent else
      p ← findAllocationMutable w (allocation_id victim);
      reserve_victims target affected releases ({[allocation_id victim]} ∪ seen)
        (update_allocation (set_state ALLOCATION_STATE_RELEASING) p.1 w) (add_allocation_ids [allocation_id victim] r)
        (if bool_decide (target ∈ al_device_ids victim) then add_optional released (al_resources victim) else released)
  end.

(** The first unit that matches is taken; the rest keep their order. *)
Fixpoint consumeReplacementPendingUnit (pending : list PendingUnit) (plan : PlacementPlan) (b : Binding) :
    Result StateError (PendingUnit * list PendingUnit) :=
  match pending with
  | [] => Err ErrPendingUnitNotFound
  | u :: pending =>
      if bool_decide (pending_unit_id u = bi_pending_unit_id b) && bool_decide (pu_execution_id u = pl_execution_id plan) &&
         bool_decide (pu_stage_id u = pl_stage_id plan) && (pu_intent_version u =? pl_intent_version plan)
      then if option_Equal resources_Equal (requested_resources u) (bi_resources b) then Ok (u, pending)
           else Err ErrInvalidIntent
      else p ← consumeReplacementPendingUnit pending plan b; Ok (p.1, u :: p.2)
  end.

Definition buildPreemptionReplacementAllocation (plan : PlacementPlan) (action : Action) (b : Binding)
    (unit : PendingUnit) (id : string) (now : Z) : Allocation :=
  mkAllocation id (pl_execution_id plan) (pl_stage_id plan) (pl_intent_version plan)
    (firstNonEmpty (pl_job_id plan) (pu_job_id unit)) (pending_unit_id unit) (bi_device_ids b) (bi_resources b)
    ALLOCATION_STATE_PENDING (Some (timestamp_New now)) (pl_expires_at plan)
    (firstNonEmpty (pl_run_id plan) (pu_run_id unit)) (firstNonEmpty (pl_trace_id plan) (pu_trace_id unit))
    (firstKnownDataKind (pl_data_kind plan) (pu_data_kind unit)) (bi_generation b)
    (firstNonEmpty (bi_runtime_unit_id b) (pu_runtime_unit_id unit)) (pl_decision_id plan) (plan_id plan)
    (action_id action) (Some (pu_priority unit)) (bi_sandbox_id b) (binding_id b).

Section Preemption.
Context (allocationID : string → string).

Definition reservePreemptionReplacement (w : ClusterSnapshot) (plan : PlacementPlan) (parts : PreemptionParts)
    (affected : gmap string Allocation) (r : planReservation) (now : Z) : Result StateError Prepared :=
  let b := replacement parts in
  v ← reserve_victims (target_device parts) affected (release_actions parts) ∅ w r zero_resources;
  let '(w, r, released) := v in
  u ← consumeReplacementPendingUnit (pending_units w) plan b;
  let r := r <| pendingUnits := pendingUnits r ++ [u.1] |> in
  let w := w <| pending_units := sortPendingUnits u.2 |> in
  let extra := positiveResourceDelta (replacement_resources parts) released in
  _ ← check_devices true extra (devices w) [target_device parts];
  let r := rememberDeviceAllocatable r [target_device parts] in
  ds ← update_devices (λ _ a, subtractResources a extra) (devices w) [target_device parts];
  let id := allocationID (binding_id b) in
  if bool_decide (is_Some (findAllocation (allocations w) id)) then Err ErrInvalidIntent else
  Ok (w <| devices := ds |> <| allocations := allocations w ++
        [buildPreemptionReplacementAllocation plan (bind_action parts) b u.1 id now] |>,
      add_allocation_ids [id] r).

Definition reservePreemptionPlanLocked (l : Ledger) (now : Z) (plan : PlacementPlan) : Result StateError Ledger :=
  parts ← preemptionPlanParts plan;
  affected ← affectedAllocationsByID (allocations (snapshot l)) (affected_allocation_ids plan);
  _ ← ensureMutationTargetsUnlocked (reservations l) (plan_id plan) (affected_allocation_ids plan);
  if revision (snapshot l) =? max_uint64 then Err ErrRevisionExhausted else
  p ← reservePreemptionReplacement (snapshot l) plan parts affected (new_reservation l plan) now;
  Ok (add_reservation plan p.2 (commit_changed l now p.1)).

(** [reserveMutationPlanLocked] *)
Definition reserveMutationPlanLocked (l : Ledger) (now : Z) (plan : PlacementPlan) : Result StateError Ledger :=
  if decide (purpose plan = PLAN_PURPOSE_PREEMPTION) then reservePreemptionPlanLocked l now plan
  else reserveChangePlan allocationID l now plan.

(** ** Finalising *)

Definition preemptionResultsConfirmRestoration : PlacementPlan → list (option ActionResult) → bool :=
  results_confirm_restoration true.

Definition preemptionOutcome (plan : PlacementPlan) (r : planReservation) (ok : bool)
    (results : list (option ActionResult)) : mutationFinalizationOutcome :=
  if ok then
    match preemptionPlanParts plan with
    | Err _ => mkOutcome false (sort_strings (successfulMutationRetainedIDs plan r))
    | Ok parts => mkOutcome false [allocationID (binding_id (replacement parts))]
    end
  else if preemptionResultsConfirmRestoration plan results then mkOutcome true []
  else mkOutcome false (sort_strings (allocationIDs r)).

(** The loop over the devices of a victim that is committed: the devices, what is
    released on the target device. *)
Fixpoint release_victim (target : string) (resources : option ResourceVector) (ds : list Device) (ids : list string)
    (released : ResourceVector) : Result StateError (list Device * ResourceVector) :=
  match ids with
  | [] => Ok (ds, released)
  | id :: ids =>
      if bool_decide (is_Some (findDevice ds id)) && bool_decide (id = target)
      then release_victim target resources ds ids (add_optional released resources)
      else ds ← release_devices ds [id] resources; release_victim target resources ds ids released
  end.

Fixpoint release_victims (target : string) (als : list Allocation) (releases : list Action) (ds : list Device)
    (released : ResourceVector) : Result StateError (list Device * ResourceVector) :=
  match releases with
  | [] => Ok (ds, released)
  | action :: releases =>
      match findAllocation als (target_id action) with
      | None => Err ErrPendingUnitNotFound
      | Some (_, victim) =>
          p ← release_victim target (al_resources victim) ds (al_device_ids victim) released;
          release_victims target als releases p.1 p.2
      end
  end.

Definition commitPreemptionReplacement (w : ClusterSnapshot) (parts : PreemptionParts) : Result StateError ClusterSnapshot :=
  p ← findAllocationMutable w (allocationID (binding_id (replacement parts)));
  let w := update_allocation (set_state ALLOCATION_STATE_ACTIVE) p.1 w in
  v ← release_victims (target_device parts) (allocations w) (release_actions parts) (devices w) zero_resources;
  ds ← (if decide (target_device parts = "") then Ok v.1 else
          if bool_decide (is_Some (findDevice v.1 (target_device parts))) then
            update_devices (λ d a, addResourcesCapped a (positiveResourceDelta v.2 (replacement_resources parts)) (device_capacity d))
              v.1 [target_device parts]
          else Err ErrInsufficientResource);
  Ok (w <| devices := ds |> <| allocations :=
        removeAllocationsByID (allocations w) (target_id <$> release_actions parts) |>).

(** The loop over the victims of an aborted plan. *)
Fixpoint restore_victims (target : string) (before : list Allocation) (releases : list Action) (w : ClusterSnapshot)
    (released : ResourceVector) : Result StateError (ClusterSnapshot * ResourceVector) :=
  match releases with
  | [] => Ok (w, released)
  | action :: releases =>
      match findAllocation before (target_id action), findAllocation (allocations w) (target_id action) with
      | Some (_, previous), Some (i, _) =>
          let back a := a <| al_state := al_state previous |> <| al_intent_version := al_intent_version previous |> in
          restore_victims target before releases (update_allocation back i w)
            (if bool_decide (target ∈ al_device_ids previous) then add_optional released (al_resources previous) else released)
      | _, _ => Err ErrPendingUnitNotFound
      end
  end.

Definition abortPreemptionReplacement (w : ClusterSnapshot) (parts : PreemptionParts) (r : planReservation) :
    Result StateError ClusterSnapshot :=
  v ← restore_victims (target_device parts) (allocations (beforeSnapshot r)) (release_actions parts) w zero_resources;
  w ← reverseDeviceResourceDelta v.1 (bi_device_ids (replacement parts))
        (Some (positiveResourceDelta (replacement_resources parts) v.2)) None;
  Ok (restorePendingUnitsFromReservation
        (w <| allocations := removeAllocationsByID (allocations w) [allocationID (binding_id (replacement parts))] |>)
        (pendingUnits r)).

Definition finalizePreemptionPlanResultsLocked (l : Ledger) (now : Z) (plan : PlacementPlan) (r : planReservation)
    (ok : bool) (results : list (option ActionResult)) : Result StateError (Ledger * list string) :=
  parts ← preemptionPlanParts plan;
  let outcome := preemptionOutcome plan r ok results in
  if finalized r then
    if bool_decide (succeeded r = ok ∧ retainedAllocationIDs r = retainedIDs outcome)
    then Ok (l, retainedIDs outcome) else Err (ErrPlanAlreadyReserved FinalizedDifferently)
  else
    w ← (if ok then commitPreemptionReplacement (snapshot l) parts
         else if restore outcome then abortPreemptionReplacement (snapshot l) parts r
         else Ok ((snapshot l) <| allocations := markAllocationsFailed (allocations (snapshot l)) (retainedIDs outcome) |>));
    l ← commit_finalized l now w;
    Ok (l, retainedIDs outcome).
End Preemption.
