(* ===== verification/Reservation.v ===== *)
(** * Plan reservations ([scheduler-go/state/reservation.go])

    Reserving a plan fences it against the snapshot and intent it was made from,
    consumes its pending units and allocatable resources and creates pending
    allocations; finalising converges the reservation from the results of its
    actions.  Plans whose purpose is a mutation go to [Mutation.v] and
    [Preemption.v].  The parameter [allocationID] is a SHA-256 identifier. *)

From Stdlib Require Import ZArith Lia.
From S2P Require Import Prelude GoStrings GoTime GoFloat ClusterModel SchedulerState Mutation Preemption.
From stdpp Require Import options.

Local Open Scope Z_scope.

Section Reservation.
Context (allocationID : string → string).

(** ** Reserving an admission plan *)

Record ReserveState := mkReserveState {
  rs_devices : list Device;
  rs_pending : gmap string PendingUnit;
  seenUnits : gset string;
  seenAllocations : gset string;
  rs_pendingUnits : list PendingUnit;
  rs_allocationIDs : list string;
  rs_allocations : list Allocation;
}.

Definition new_allocation (plan : PlacementPlan) (unit : PendingUnit) (b : Binding) (now : Z) : Allocation :=
  mkAllocation (allocationID (binding_id b)) (pl_execution_id plan) (pl_stage_id plan)
    (pl_intent_version plan) (pu_job_id unit) (pending_unit_id unit) (bi_device_ids b) (bi_resources b)
    ALLOCATION_STATE_PENDING (Some (timestamp_New now)) (pl_expires_at plan)
    (firstNonEmpty (pl_run_id plan) (pu_run_id unit)) (firstNonEmpty (pl_trace_id plan) (pu_trace_id unit))
    (firstKnownDataKind (pl_data_kind plan) (pu_data_kind unit)) (bi_generation b)
    (firstNonEmpty (bi_runtime_unit_id b) (pu_runtime_unit_id unit)) (pl_decision_id plan) (plan_id plan)
    (actionIDForBinding plan (binding_id b)) (Some (pu_priority unit)) (bi_sandbox_id b) (binding_id b).

(** The pending unit belongs to the plan's stage and intent. *)
Definition unit_matches (plan : PlacementPlan) (u : PendingUnit) : bool :=
  bool_decide (pu_execution_id u = pl_execution_id plan) && bool_decide (pu_stage_id u = pl_stage_id plan) &&
  (pu_intent_version u =? pl_intent_version plan).

(** One iteration of the loop over the bindings. *)
Definition reserve_binding (plan : PlacementPlan) (now : Z) (st : ReserveState) (b : option Binding) :
    Result StateError ReserveState :=
  match b with
  | None => Err ErrInvalidIntent
  | Some b =>
      match bi_device_ids b, bi_resources b with
      | [deviceID], Some requested =>
          if bool_decide (binding_id b = "") || bool_decide (bi_pending_unit_id b = "")
          then Err ErrInvalidIntent else
          if bool_decide (bi_pending_unit_id b ∈ seenUnits st) then Err ErrInvalidIntent else
          match rs_pending st !! bi_pending_unit_id b with
          | None => Err ErrPendingUnitNotFound
          | Some unit =>
              if negb (unit_matches plan unit) then Err ErrPendingUnitNotFound else
              if negb (option_Equal resources_Equal (requested_resources unit) (Some requested))
              then Err ErrInvalidIntent else
              match lastDevice (rs_devices st) deviceID with
              | None => Err ErrInsufficientResource
              | Some (i, device) =>
                  if negb (bool_decide (health device = DEVICE_HEALTH_READY)) then Err ErrInsufficientResource else
                  if negb (resourcesFit (Some requested) (allocatable device)) then Err ErrInsufficientResource else
                  let alloc := allocationID (binding_id b) in
                  if bool_decide (alloc ∈ seenAllocations st) then Err ErrInvalidIntent else
                  Ok (mkReserveState
                        (alter (λ d, d <| allocatable := (λ a, subtractResources a requested) <$> allocatable d |>)
                           i (rs_devices st))
                        (delete (bi_pending_unit_id b) (rs_pending st))
                        ({[bi_pending_unit_id b]} ∪ seenUnits st)
                        ({[alloc]} ∪ seenAllocations st)
                        (rs_pendingUnits st ++ [unit])
                        (rs_allocationIDs st ++ [alloc])
                        (rs_allocations st ++ [new_allocation plan unit b now]))
              end
          end
      | _, _ => Err ErrInvalidIntent
      end
  end.

Fixpoint reserve_bindings (plan : PlacementPlan) (now : Z) (st : ReserveState) (bs : list (option Binding)) :
    Result StateError ReserveState :=
  match bs with
  | [] => Ok st
  | b :: bs => st ← reserve_binding plan now st b; reserve_bindings plan now st bs
  end.

(** [reservePlanLocked] past the check for mutation purposes. *)
Definition reserveAdmissionPlan (l : Ledger) (now : Z) (plan : PlacementPlan) : Result StateError Ledger :=
  if bool_decide (bindings plan = []) then Err ErrInvalidIntent else
  if revision (snapshot l) =? max_uint64 then Err ErrRevisionExhausted else
  let working := snapshot l in
  st ← reserve_bindings plan now
         (mkReserveState (devices working) (pending_map (pending_units working)) ∅ ∅ [] []
            (allocations working)) (bindings plan);
  let working := working <| devices := rs_devices st |> <| allocations := rs_allocations st |>
       <| pending_units := sortPendingUnits (snd <$> map_to_list (rs_pending st)) |> in
  let reservation := mkReservation plan (snapshot l) ∅ (rs_pendingUnits st) (rs_allocationIDs st) false false [] in
  let l := commitSnapshotLocked l now working in
  Ok (l <| reservations := <[plan_id plan := reservation]> (reservations l) |>).

Definition reservePlanLocked (l : Ledger) (now : Z) (plan : PlacementPlan) : Result StateError Ledger :=
  match reservations l !! plan_id plan with
  | Some existing =>
      Err (ErrPlanAlreadyReserved (if plan_Equal (res_plan existing) plan then SameContent else DifferentContent))
  | None =>
      _ ← validatePlanLocked l now plan;
      if isMutationPurpose (effectivePlanPurpose plan).1 then reserveMutationPlanLocked allocationID l now plan
      else reserveAdmissionPlan l now plan
  end.

Definition ReservePlan (l : Ledger) (now : Z) (plan : option PlacementPlan) : Result StateError Ledger :=
  match plan with
  | None => Err ErrInvalidIntent
  | Some plan =>
      if bool_decide (plan_id plan = "") then Err ErrInvalidIntent else reservePlanLocked l now plan
  end.

(** ** Which allocations to retain *)

Definition bindingID_of (b : option Binding) : string := from_option binding_id "" b.

Definition retainAllBindings (plan : PlacementPlan) : gset string :=
  list_to_set ((λ b, allocationID (bindingID_of b)) <$> bindings plan).

Definition plan_actions (plan : PlacementPlan) : gset string :=
  list_to_set (filter (λ id, id ≠ "") (from_option action_id "" <$> actions plan)).

(** The results by action, the last one winning, and whether some is malformed. *)
Fixpoint index_results (plan : PlacementPlan) (rs : list (option ActionResult))
    (byAction : gmap string ActionResult) (malformed : bool) : gmap string ActionResult * bool :=
  match rs with
  | [] => (byAction, malformed)
  | None :: rs => index_results plan rs byAction true
  | Some r :: rs =>
      if bool_decide (ar_action_id r = "") then index_results plan rs byAction true else
      let malformed := malformed || bool_decide (is_Some (byAction !! ar_action_id r)) ||
                       negb (bool_decide (ar_action_id r ∈ plan_actions plan)) in
      index_results plan rs (<[ar_action_id r := r]> byAction) malformed
  end.

Definition rollbackIncomplete (r : ActionResult) : bool :=
  rollback_attempted r && negb (bool_decide (rollback_status r = ACTION_RESULT_STATUS_ROLLED_BACK)).

Definition mutationMayRemain (r : ActionResult) : bool :=
  rollbackIncomplete r ||
  (bool_decide (ar_status r = ACTION_RESULT_STATUS_SUCCEEDED) && negb (rollback_attempted r)).

Record Evidence := mkEvidence {
  ev_retained : gset string;
  ev_degraded : gset string;
  coveredBindings : gset string;
  malformedEvidence : bool;
}.

Definition weigh_action (byAction : gmap string ActionResult) (ev : Evidence) (a : option Action) : Evidence :=
  match a with
  | None => ev
  | Some a =>
      let bindingID := from_option binding_id "" (action_binding a) in
      if bool_decide (bindingID = "") then ev else
      let covered := {[bindingID]} ∪ coveredBindings ev in
      match byAction !! action_id a with
      | None => mkEvidence (ev_retained ev) (ev_degraded ev) covered true
      | Some r =>
          let id := allocationID bindingID in
          if mutationMayRemain r
          then mkEvidence ({[id]} ∪ ev_retained ev)
                 (if rollbackIncomplete r then {[id]} ∪ ev_degraded ev else ev_degraded ev)
                 covered (malformedEvidence ev)
          else mkEvidence (ev_retained ev) (ev_degraded ev) covered (malformedEvidence ev)
      end
  end.

Definition retainedAllocations (plan : PlacementPlan) (ok : bool) (results : list (option ActionResult)) :
    gset string * gset string :=
  if ok then (retainAllBindings plan, ∅) else
  match results with
  | [] => (retainAllBindings plan, ∅)
  | _ =>
      let '(byAction, malformed) := index_results plan results ∅ false in
      let ev := foldl (weigh_action byAction) (mkEvidence ∅ ∅ ∅ malformed) (actions plan) in
      let malformed := malformedEvidence ev ||
        negb (forallb (λ b, bool_decide (bindingID_of b ∈ coveredBindings ev)) (bindings plan)) in
      (if malformed then ev_retained ev ∪ retainAllBindings plan else ev_retained ev, ev_degraded ev)
  end.

Definition sortedSetValues (s : gset string) : list string := sort_strings (elements s).

(** ** Finalising *)

(** The loop over the snapshot's allocations: those kept and the devices after. *)
Fixpoint converge (reserved retained degraded : gset string) (ds : list Device) (als : list Allocation) :
    Result StateError (list Allocation * list Device) :=
  match als with
  | [] => Ok ([], ds)
  | a :: als =>
      if bool_decide (allocation_id a ∉ reserved) then
        p ← converge reserved retained degraded ds als; Ok (a :: p.1, p.2)
      else if bool_decide (allocation_id a ∈ retained) then
        let a := a <| al_state := if bool_decide (allocation_id a ∈ degraded)
                                  then ALLOCATION_STATE_FAILED else ALLOCATION_STATE_ACTIVE |> in
        p ← converge reserved retained degraded ds als; Ok (a :: p.1, p.2)
      else
        ds ← release_devices ds (al_device_ids a) (al_resources a);
        converge reserved retained degraded ds als
  end.

(** The pending units a failed plan gives back. *)
Definition returned_units (reservation : planReservation) (retained : gset string) : list PendingUnit :=
  let retainedPending : gset string := list_to_set
    (from_option bi_pending_unit_id "" <$>
       filter (λ b, allocationID (bindingID_of b) ∈ retained) (bindings (res_plan reservation))) in
  filter (λ u, pending_unit_id u ∉ retainedPending) (pendingUnits reservation).

(** [reservation.finalized = true] and the fields that go with it. *)
Definition finalize_reservation (r : planReservation) (ok : bool) (retained : list string) : planReservation :=
  r <| finalized := true |> <| succeeded := ok |> <| retainedAllocationIDs := retained |>.

(** Finalising an admission plan. *)
Definition finalizeAdmissionPlan (l : Ledger) (now : Z) (plan : PlacementPlan) (r : planReservation) (ok : bool)
    (results : list (option ActionResult)) : Result StateError Ledger :=
  let '(retained, degraded) := retainedAllocations plan ok results in
  let retainedIDs := sortedSetValues retained in
  if finalized r then
    if bool_decide (succeeded r = ok ∧ retainedAllocationIDs r = retainedIDs)
    then Ok l else Err (ErrPlanAlreadyReserved FinalizedDifferently)
  else
  if revision (snapshot l) =? max_uint64 then Err ErrRevisionExhausted else
  let working := snapshot l in
  p ← converge (list_to_set (allocationIDs r)) retained degraded (devices working) (allocations working);
  let working := working <| allocations := p.1 |> <| devices := p.2 |> in
  let working :=
    if ok then working else
    working <| pending_units := sortPendingUnits (pending_units working ++ returned_units r retained) |> in
  Ok (add_reservation plan (finalize_reservation r ok retainedIDs) (commitSnapshotLocked l now working)).

Definition finalizePlanResultsLocked (l : Ledger) (now : Z) (plan : PlacementPlan) (ok : bool)
    (results : list (option ActionResult)) : Result StateError Ledger :=
  match reservations l !! plan_id plan with
  | None => Err ErrPlanNotReserved
  | Some reservation =>
      if negb (plan_Equal (res_plan reservation) plan) then Err ErrPlanNotReserved else
      let p := (effectivePlanPurpose plan).1 in
      if decide (p = PLAN_PURPOSE_PREEMPTION) then
        f ← finalizePreemptionPlanResultsLocked allocationID l now plan reservation ok results;
        Ok (add_reservation plan (finalize_reservation reservation ok f.2) f.1)
      else if isMutationPurpose p then
        if finalized reservation then
          if bool_decide (succeeded reservation = ok ∧
                          retainedAllocationIDs reservation = retainedIDs (mutationOutcome plan reservation ok results))
          then Ok l else Err (ErrPlanAlreadyReserved FinalizedDifferently)
        else
          f ← finalizeMutationPlanResultsLocked l now plan reservation ok results;
          Ok (add_reservation plan (finalize_reservation reservation ok f.2) f.1)
      else finalizeAdmissionPlan l now plan reservation ok results
  end.

Definition FinalizePlanResults (l : Ledger) (now : Z) (plan : option PlacementPlan) (ok : bool)
    (results : list (option ActionResult)) : Result StateError Ledger :=
  match plan with
  | None => Err ErrPlanNotReserved
  | Some plan => finalizePlanResultsLocked l now plan ok results
  end.

Definition FinalizePlan (l : Ledger) (now : Z) (plan : option PlacementPlan) (ok : bool) :
    Result StateError Ledger := FinalizePlanResults l now plan ok [].
End Reservation.
