(* ===== verification/ReservationProofs.v ===== *)
(** * Plan reservations: properties *)

From Stdlib Require Import ZArith Lia.
From S2P Require Import Prelude GoStrings GoTime GoFloat ClusterModel SchedulerState Mutation Preemption Reservation.
From stdpp Require Import options.

Local Open Scope Z_scope.

(** ** The integer resources *)

Definition integer_resources : list (ResourceVector → Z) :=
  [cpu_millis; memory_bytes; ephemeral_storage_bytes; network_bandwidth_bps].

(** Every integer resource of the vector is a [uint64]. *)
Definition rv_ok (v : ResourceVector) : Prop := ∀ proj, proj ∈ integer_resources → is_u64 (proj v).

Lemma integer_cases (P : (ResourceVector → Z) → Prop) :
  P cpu_millis → P memory_bytes → P ephemeral_storage_bytes → P network_bandwidth_bps →
  ∀ proj, proj ∈ integer_resources → P proj.
Proof. intros H1 H2 H3 H4 proj. unfold integer_resources. set_solver. Qed.

Lemma fits_le proj r a :
  proj ∈ integer_resources → resourcesFit (Some r) (Some a) = true → proj r ≤ proj a.
Proof.
  intros Hp. unfold resourcesFit. destruct (invalidFloat _); [done|]. intros H. bool_props.
  revert proj Hp. by apply integer_cases.
Qed.

Lemma subtract_proj proj a r :
  proj ∈ integer_resources → proj (subtractResources a r) = wrap64 (proj a - proj r).
Proof. revert proj. by apply integer_cases. Qed.

Lemma add_proj proj a r c :
  proj ∈ integer_resources → proj (addResourcesCapped a r c) = cappedAdd (proj a) (proj r) (proj c).
Proof. revert proj. by apply integer_cases. Qed.

Lemma subtract_exact proj a r :
  proj ∈ integer_resources → rv_ok a → rv_ok r → resourcesFit (Some r) (Some a) = true →
  proj (subtractResources a r) = proj a - proj r.
Proof.
  intros Hp Ha Hr Hfit. rewrite subtract_proj by done. pose proof (fits_le proj r a Hp Hfit).
  pose proof (Ha proj Hp). pose proof (Hr proj Hp). apply wrap64_id. unfold is_u64 in *. lia.
Qed.

Lemma subtract_ok a r :
  rv_ok a → rv_ok r → resourcesFit (Some r) (Some a) = true → rv_ok (subtractResources a r).
Proof. intros Ha Hr Hfit proj Hp. rewrite subtract_proj by done. apply wrap64_range. Qed.

Lemma cappedAdd_spec a b c : a ≤ c → 0 ≤ b → cappedAdd a b c = Z.min c (a + b).
Proof.
  intros. unfold cappedAdd. destruct (Z.leb_spec c a), (Z.ltb_spec (c - a) b); simpl; lia.
Qed.

(** ** Devices *)

Definition device_amount (proj : ResourceVector → Z) (d : Device) : Z :=
  from_option proj 0 (allocatable d).

Definition total (proj : ResourceVector → Z) (ds : list Device) : Z :=
  foldr (λ d acc, device_amount proj d + acc) 0 ds.

Definition device_ok (d : Device) : Prop := ∀ a, allocatable d = Some a → rv_ok a.

Lemma lastDevice_lookup ds id i d :
  lastDevice ds id = Some (i, d) → ds !! i = Some d ∧ device_id d = id.
Proof.
  revert i d. induction ds as [|d0 ds IH]; intros i d; simpl; [done|].
  destruct (lastDevice ds id) as [[j d1]|] eqn:E.
  - intros [= <- <-]. by apply IH.
  - case_decide; [|done]. by intros [= <- <-].
Qed.

Lemma findDevice_lookup ds id i d :
  findDevice ds id = Some (i, d) → ds !! i = Some d ∧ device_id d = id.
Proof.
  revert i d. induction ds as [|d0 ds IH]; intros i d; simpl; [done|]. case_decide.
  - by intros [= <- <-].
  - destruct (findDevice ds id) as [[j d1]|] eqn:E; [|done]. intros [= <- <-]. by apply IH.
Qed.

Lemma total_alter proj f ds i d :
  ds !! i = Some d → total proj (alter f i ds) = total proj ds - device_amount proj d + device_amount proj (f d).
Proof.
  revert i. induction ds as [|d0 ds IH]; intros [|i] Hi; try done.
  - injection Hi as ->. simpl. lia.
  - change (alter f (S i) (d0 :: ds)) with (d0 :: alter f i ds).
    pose proof (IH i Hi). unfold total in *. cbn [foldr]. lia.
Qed.

(** ** The reservation loop *)

Section Loop.
Context (allocationID : string → string).
Abbreviation step := (reserve_binding allocationID).
Abbreviation loop := (reserve_bindings allocationID).

(** What a binding asks for. *)
Definition requested (proj : ResourceVector → Z) (b : option Binding) : Z :=
  from_option proj 0 (b ≫= bi_resources).

Definition total_requested (proj : ResourceVector → Z) (bs : list (option Binding)) : Z :=
  foldr (λ b acc, requested proj b + acc) 0 bs.

Definition binding_ok (b : option Binding) : Prop := ∀ r, b ≫= bi_resources = Some r → rv_ok r.

(** One iteration of the loop that succeeds: the binding, its unit and device. *)
Lemma reserve_binding_Ok plan now st b st' :
  step plan now st b = Ok st' →
  ∃ bi unit dev i r a id,
    b = Some bi ∧ bi_device_ids bi = [id] ∧ bi_resources bi = Some r ∧
    (bi_pending_unit_id bi ∉ seenUnits st) ∧ rs_pending st !! bi_pending_unit_id bi = Some unit ∧
    unit_matches plan unit = true ∧
    lastDevice (rs_devices st) id = Some (i, dev) ∧ health dev = DEVICE_HEALTH_READY ∧
    allocatable dev = Some a ∧ resourcesFit (Some r) (Some a) = true ∧
    (allocationID (binding_id bi) ∉ seenAllocations st) ∧
    st' = mkReserveState
      (alter (λ d, d <| allocatable := (λ a, subtractResources a r) <$> allocatable d |>) i (rs_devices st))
      (delete (bi_pending_unit_id bi) (rs_pending st)) ({[bi_pending_unit_id bi]} ∪ seenUnits st)
      ({[allocationID (binding_id bi)]} ∪ seenAllocations st) (rs_pendingUnits st ++ [unit])
      (rs_allocationIDs st ++ [allocationID (binding_id bi)])
      (rs_allocations st ++ [new_allocation allocationID plan unit bi now]).
Proof.
  unfold reserve_binding. destruct b as [bi|]; [|done].
  destruct (bi_device_ids bi) as [|id [|? ?]] eqn:Hids; try done.
  destruct (bi_resources bi) as [r|] eqn:Hr; [|done].
  destruct (_ || _); [done|]. case_bool_decide as Hs; [done|].
  destruct (rs_pending st !! bi_pending_unit_id bi) as [unit|] eqn:Hu; [|done].
  destruct (unit_matches plan unit) eqn:Hm; [|done]. cbn [negb].
  destruct (option_Equal _ _ _); [|done]. cbn [negb].
  destruct (lastDevice (rs_devices st) id) as [[i dev]|] eqn:Hd; [|done].
  case_bool_decide as Hh; [|done]. cbn [negb].
  destruct (allocatable dev) as [a|] eqn:Ha; [|done].
  destruct (resourcesFit (Some r) (Some a)) eqn:Hfit; [|done]. cbn [negb].
  case_bool_decide as Hal; [done|]. intros [= <-].
  exists bi, unit, dev, i, r, a, id. by split_and!.
Qed.

(** Conservation: what the loop takes from the devices is what was requested. *)
Lemma reserve_bindings_total proj plan now st bs st' :
  proj ∈ integer_resources → Forall device_ok (rs_devices st) → Forall binding_ok bs →
  loop plan now st bs = Ok st' →
  Forall device_ok (rs_devices st') ∧
  total proj (rs_devices st') + total_requested proj bs = total proj (rs_devices st).
Proof.
  intros Hp. revert st. induction bs as [|b bs IH]; intros st Hds Hbs; simpl; [intros [= <-]; split; [done|lia]|].
  intros (st1 & H1 & H2)%bind_Ok. apply Forall_cons in Hbs as [Hb Hbs].
  apply reserve_binding_Ok in H1 as (bi & unit & dev & i & r & a & id & -> & _ & Hr & _ & _ & _ & Hd & _ & Ha & Hfit & _ & ->).
  apply lastDevice_lookup in Hd as [Hi _].
  assert (Hra : rv_ok a) by (apply (proj1 (Forall_lookup _ _) Hds i dev Hi a Ha)).
  assert (Hrr : rv_ok r) by (by apply Hb).
  assert (Hds' : Forall device_ok (alter (λ d, d <| allocatable := (λ a, subtractResources a r) <$> allocatable d |>)
    i (rs_devices st))).
  { apply Forall_alter; [exact Hds|]. intros d Hd _ a'. rewrite Hi in Hd. injection Hd as <-.
    simpl. rewrite Ha; simpl. intros [= <-]. by apply subtract_ok. }
  apply IH in H2 as [Hok Hsum]; [|exact Hds'|exact Hbs]. split; [done|]. simpl in Hsum. rewrite (total_alter _ _ _ _ _ Hi) in Hsum.
  unfold device_amount in Hsum; simpl in Hsum. rewrite Ha in Hsum; simpl in Hsum.
  rewrite subtract_exact in Hsum by done. unfold requested; simpl. rewrite Hr; simpl.
  unfold total_requested in *. lia.
Qed.
End Loop.

(** ** What a list of demands puts on each device *)

Definition Demand : Type := list string * option ResourceVector.
Definition binding_demand (b : option Binding) : Demand := (from_option bi_device_ids [] b, b ≫= bi_resources).
Definition allocation_demand (a : Allocation) : Demand := (al_device_ids a, al_resources a).

Definition load1 (proj : ResourceVector → Z) (id : string) (d : Demand) : Z :=
  if decide (d.1 = [id]) then from_option proj 0 d.2 else 0.
Definition load (proj : ResourceVector → Z) (id : string) (ds : list Demand) : Z :=
  foldr (λ d acc, load1 proj id d + acc) 0 ds.

Arguments load : simpl never.

Lemma load_cons proj id d ds : load proj id (d :: ds) = load1 proj id d + load proj id ds.
Proof. done. Qed.

(** [ds'] is [ds] with its allocatable integer resources changed by [delta] per
    device, everything else untouched. *)
Definition shifted (delta : (ResourceVector → Z) → string → Z) (ds ds' : list Device) : Prop :=
  length ds' = length ds ∧
  ∀ j d, ds !! j = Some d → ∃ d', ds' !! j = Some d' ∧
    device_id d' = device_id d ∧ health d' = health d ∧ capacity d' = capacity d ∧
    dev_kind d' = dev_kind d ∧
    (is_Some (allocatable d') ↔ is_Some (allocatable d)) ∧
    ∀ proj, proj ∈ integer_resources → device_amount proj d' = device_amount proj d + delta proj (device_id d).

Lemma shifted_refl ds : shifted (λ _ _, 0) ds ds.
Proof. split; [done|]. intros j d Hj. exists d. split_and!; try done. intros; lia. Qed.

Lemma shifted_trans f g ds1 ds2 ds3 :
  shifted f ds1 ds2 → shifted g ds2 ds3 → shifted (λ p i, f p i + g p i) ds1 ds3.
Proof.
  intros [L1 H1] [L2 H2]. split; [congruence|]. intros j d Hj.
  destruct (H1 j d Hj) as (d2 & Hj2 & ? & ? & ? & ? & ? & Hd).
  destruct (H2 j d2 Hj2) as (d3 & Hj3 & ? & ? & ? & ? & ? & Hd').
  exists d3. split_and!; try congruence; [tauto|]. intros proj Hp. rewrite Hd', Hd by done.
  replace (device_id d2) with (device_id d) by congruence. lia.
Qed.

Lemma shifted_ext f g ds ds' :
  (∀ proj d, proj ∈ integer_resources → d ∈ ds → f proj (device_id d) = g proj (device_id d)) →
  shifted f ds ds' → shifted g ds ds'.
Proof.
  intros He [L H]. split; [done|]. intros j d Hj. destruct (H j d Hj) as (d' & ? & ? & ? & ? & ? & ? & Hd).
  exists d'. split_and!; try done. intros. rewrite <-He; auto. by apply list_elem_of_lookup_2 in Hj.
Qed.

(** Changing the allocatable vector of one device of a list without duplicates. *)
Lemma shifted_alter ds i d a f :
  NoDup (device_id <$> ds) → ds !! i = Some d → allocatable d = Some a →
  shifted (λ proj id, if decide (id = device_id d) then proj (f a) - proj a else 0) ds
    (alter (λ d, d <| allocatable := f <$> allocatable d |>) i ds).
Proof.
  intros Hnd Hi Ha. split; [by rewrite length_alter|]. intros j e Hj.
  rewrite list_lookup_alter. case_decide as Hij.
  - subst j. rewrite Hi in Hj. injection Hj as <-. rewrite Hi; simpl. eexists. split; [done|].
    simpl. rewrite Ha. split_and!; try done. intros proj _. unfold device_amount; simpl. rewrite Ha; simpl.
    rewrite decide_True by done. lia.
  - exists e. split_and!; try done. intros proj _. rewrite decide_False; [lia|].
    intros He. apply Hij. eapply (NoDup_lookup (device_id <$> ds)); [done| |].
    + by rewrite list_lookup_fmap, Hi.
    + by rewrite list_lookup_fmap, Hj, <-He.
Qed.

Lemma alter_allocatable (ds : list Device) (i : nat) d a (f : ResourceVector → ResourceVector) :
  ds !! i = Some d → allocatable d = Some a →
  alter (λ d, d <| allocatable := Some (f a) |>) i ds =
  alter (λ d, d <| allocatable := f <$> allocatable d |>) i ds.
Proof.
  intros Hi Ha. apply list_eq. intros j. rewrite !list_lookup_alter. case_decide; [|done].
  rewrite Hi. simpl. by rewrite Ha.
Qed.

Lemma shifted_ids f ds ds' : shifted f ds ds' → device_id <$> ds' = device_id <$> ds.
Proof.
  intros [L H]. apply list_eq. intros j. rewrite !list_lookup_fmap.
  destruct (ds !! j) as [d|] eqn:Hj; simpl.
  - destruct (H j d Hj) as (d' & -> & E & _). simpl. by rewrite E.
  - apply lookup_ge_None in Hj. rewrite (proj2 (lookup_ge_None ds' j)) by lia. done.
Qed.

Section Shift.
Context (allocationID : string → string).

Lemma reserve_bindings_shifted plan now st bs st' :
  NoDup (device_id <$> rs_devices st) → Forall device_ok (rs_devices st) → Forall binding_ok bs →
  reserve_bindings allocationID plan now st bs = Ok st' →
  shifted (λ proj id, - load proj id (binding_demand <$> bs)) (rs_devices st) (rs_devices st').
Proof.
  revert st. induction bs as [|b bs IH]; intros st Hnd Hds Hbs; simpl; [intros [= <-]; apply shifted_refl|].
  intros (st1 & H1 & H2)%bind_Ok. pose proof Hbs as Hbs0. apply Forall_cons in Hbs as [Hb Hbs].
  assert (Hds1 : Forall device_ok (rs_devices st1)).
  { eapply (reserve_bindings_total allocationID cpu_millis plan now st [b]); [set_solver|done| |].
    - by constructor.
    - simpl. by rewrite H1. }
  apply reserve_binding_Ok in H1 as (bi & unit & dev & i & r & a & id & -> & Hid & Hr & _ & _ & _ & Hd & _ & Ha & Hfit & _ & ->).
  apply lastDevice_lookup in Hd as [Hi Hdev]. subst id.
  pose proof (shifted_alter _ _ _ _ (λ a, subtractResources a r) Hnd Hi Ha) as Hsh.
  assert (Hra : rv_ok a) by (apply (proj1 (Forall_lookup _ _) Hds i dev Hi a Ha)).
  assert (Hrr : rv_ok r) by (by apply Hb). cbn [rs_devices] in Hds1.
  apply IH in H2; [|cbn [rs_devices]; by rewrite (shifted_ids _ _ _ Hsh)|exact Hds1|exact Hbs].
  eapply shifted_ext; [|exact (shifted_trans _ _ _ _ _ Hsh H2)]. intros proj d Hp _. cbv beta.
  rewrite load_cons.
  unfold load1; simpl. rewrite Hid, Hr; simpl.
  change (list_fmap (option Binding) Demand binding_demand bs) with (binding_demand <$> bs).
  rewrite subtract_exact by done. destruct (decide (device_id d = device_id dev)) as [->|Hne].
  - rewrite decide_True by done. lia.
  - rewrite decide_False by congruence. lia.
Qed.

(** Giving back: as long as it fits under the capacity, nothing is capped. *)
Definition room (ds : list Device) (demands : list Demand) : Prop :=
  ∀ proj d, proj ∈ integer_resources → d ∈ ds →
    device_amount proj d + load proj (device_id d) demands ≤ proj (default zero_resources (capacity d)).

Definition demand_ok (d : Demand) : Prop := (∃ id, d.1 = [id]) ∧ ∃ r, d.2 = Some r ∧ rv_ok r.

Lemma load_nonneg proj id ds : proj ∈ integer_resources → Forall demand_ok ds → 0 ≤ load proj id ds.
Proof.
  intros Hp. induction 1 as [|d ds [_ (r & Hr & Hok)] Hds IH]; [done|].
  rewrite load_cons. unfold load1. rewrite Hr; simpl. pose proof (Hok proj Hp). unfold is_u64 in *. case_decide; lia.
Qed.

Lemma release_devices_shifted ds dem ds' :
  NoDup (device_id <$> ds) → demand_ok dem → room ds [dem] →
  release_devices ds dem.1 dem.2 = Ok ds' →
  shifted (λ proj id, if decide (id ∈ device_id <$> ds) then load proj id [dem] else 0) ds ds'.
Proof.
  intros Hnd [(id & Hid) (r & Hr & Hrv)] Hroom. rewrite Hid, Hr. simpl.
  destruct (findDevice ds id) as [[i d]|] eqn:Hf.
  - apply findDevice_lookup in Hf as [Hi <-]. destruct (allocatable d) as [a|] eqn:Ha; [|done]. intros [= <-].
    pose proof (shifted_alter _ _ _ _ (λ a, addResourcesCapped a r (default zero_resources (capacity d))) Hnd Hi Ha) as Hsh.
    refine (eq_ind_r (λ t, shifted _ ds t) _ (alter_allocatable _ _ _ _
      (λ a, addResourcesCapped a r (default zero_resources (capacity d))) Hi Ha)).
    eapply shifted_ext; [|exact Hsh]. intros proj e Hp He. cbv beta.
    rewrite load_cons. change (load proj (device_id e) []) with 0. unfold load1. rewrite Hid, Hr. simpl.
    destruct (decide (device_id e ∈ device_id <$> ds)) as [_|Hn]; [|destruct Hn; by apply list_elem_of_fmap_2].
    destruct (decide (device_id e = device_id d)) as [E|Hne].
    + rewrite E. rewrite decide_True by done. rewrite add_proj by done.
      pose proof (Hroom proj d Hp ltac:(by apply list_elem_of_lookup_2 in Hi)) as Hr'.
      rewrite load_cons in Hr'. change (load proj (device_id d) []) with 0 in Hr'.
      unfold load1, device_amount in Hr'. rewrite Ha, Hid, Hr in Hr'; simpl in Hr'.
      rewrite decide_True in Hr' by done. pose proof (Hrv proj Hp). unfold is_u64 in *.
      rewrite cappedAdd_spec by lia. lia.
    + rewrite decide_False by congruence. lia.
  - intros [= <-]. eapply shifted_ext; [|apply shifted_refl]. intros proj e Hp He. cbv beta.
    rewrite load_cons. change (load proj (device_id e) []) with 0. unfold load1. rewrite Hid.
    case_decide as Hin; [|done]. rewrite decide_False; [done|]. intros [= ->].
    clear -Hf He. induction ds as [|d0 ds IH]; [by apply not_elem_of_nil in He|].
    simpl in Hf. case_decide; [done|]. apply elem_of_cons in He as [->|He]; [done|].
    apply IH; [|done]. by destruct (findDevice ds (device_id e)).
Qed.
Lemma room_cons ds dem dems :
  Forall demand_ok dems → room ds (dem :: dems) → room ds [dem].
Proof.
  intros Hok H proj d Hp Hd. specialize (H proj d Hp Hd). rewrite load_cons in *.
  pose proof (load_nonneg proj (device_id d) dems Hp Hok). change (load proj (device_id d) []) with 0. lia.
Qed.

Lemma converge_keep reserved retained degraded ds als0 als :
  (∀ a, a ∈ als0 → allocation_id a ∉ reserved) →
  converge reserved retained degraded ds (als0 ++ als) =
  (p ← converge reserved retained degraded ds als; Ok (als0 ++ p.1, p.2)).
Proof.
  induction als0 as [|a als0 IH]; intros Hn; simpl.
  { by destruct (converge _ _ _ _ _) as [[]|]. }
  rewrite bool_decide_eq_true_2 by (apply Hn; set_solver). rewrite IH by set_solver.
  by destruct (converge _ _ _ _ als) as [[]|].
Qed.

(** What the loop appends, and the units it takes. *)
Lemma reserve_bindings_appends plan now st bs st' :
  reserve_bindings allocationID plan now st bs = Ok st' →
  ∃ news units,
    rs_allocations st' = rs_allocations st ++ news ∧
    allocation_demand <$> news = binding_demand <$> bs ∧
    allocation_id <$> news = (λ b, allocationID (bindingID_of b)) <$> bs ∧
    rs_allocationIDs st' = rs_allocationIDs st ++ (allocation_id <$> news) ∧
    Forall (λ a, al_state a = ALLOCATION_STATE_PENDING) news ∧
    rs_pendingUnits st' = rs_pendingUnits st ++ units ∧
    (snd <$> map_to_list (rs_pending st)) ≡ₚ units ++ (snd <$> map_to_list (rs_pending st')).
Proof.
  revert st. induction bs as [|b bs IH]; intros st; simpl.
  { intros [= <-]. exists [], []. rewrite !app_nil_r. by split_and!. }
  intros (st1 & H1 & H2)%bind_Ok.
  apply reserve_binding_Ok in H1 as (bi & unit & dev & i & r & a & id & -> & Hid & Hr & _ & Hu & _ & _ & _ & _ & _ & _ & ->).
  destruct (IH _ H2) as (news & units & E1 & E2 & E3 & E4 & E5 & E6 & E7). simpl in *.
  exists (new_allocation allocationID plan unit bi now :: news), (unit :: units).
  rewrite E1, E4, E6, <-!app_assoc. split_and!; try done.
  - rewrite fmap_cons. by f_equal.
  - rewrite fmap_cons. by f_equal.
  - by constructor.
  - rewrite <-(insert_delete_id (rs_pending st) _ _ Hu) at 1.
    rewrite map_to_list_insert by apply lookup_delete_eq. simpl. by rewrite E7.
Qed.
End Shift.

(** ** Pending units *)

#[export] Instance pending_less_sw : StrictWeak pending_less.
Proof.
  apply lex_less_sw; [apply (flip_less_sw (λ a b, pu_priority a <? pu_priority b)), (key_less_sw Z.ltb), _|].
  apply lex_less_sw; [apply (key_less_sw Z.ltb (λ u, AsTime (queued_at u))), _|].
  apply (key_less_sw str_ltb pending_unit_id), _.
Qed.

Lemma pending_tie a b : pending_less a b = false → pending_less b a = false → pending_unit_id a = pending_unit_id b.
Proof. unfold pending_less, lex_less. intros. apply str_ltb_total; by repeat case_match. Qed.

Lemma sortPendingUnits_unique us vs :
  NoDup (pending_unit_id <$> us) → us ≡ₚ vs → sortPendingUnits us = sortPendingUnits vs.
Proof.
  intros Hnd Hp. apply sort_by_unique; [apply _| |done]. intros a b Ha Hb H1 H2.
  apply list_elem_of_lookup in Ha as [i Hi]. apply list_elem_of_lookup in Hb as [j Hj].
  assert (i = j) as ->; [|congruence]. eapply (NoDup_lookup (pending_unit_id <$> us)); [done| |].
  - by rewrite list_lookup_fmap, Hi.
  - rewrite list_lookup_fmap, Hj; simpl. f_equal. symmetry. by apply pending_tie.
Qed.

Lemma pending_map_values us :
  NoDup (pending_unit_id <$> us) → (snd <$> map_to_list (pending_map us)) ≡ₚ us.
Proof.
  unfold pending_map. intros Hnd.
  assert (Hgen : ∀ m : gmap string PendingUnit, NoDup (pending_unit_id <$> us) → (∀ u, u ∈ us → m !! pending_unit_id u = None) →
    snd <$> map_to_list (foldl (λ m u, <[pending_unit_id u := u]> m) m us) ≡ₚ us ++ (snd <$> map_to_list m)).
  { clear Hnd. induction us as [|u us IH]; intros m Hnd Hm; simpl; [done|].
    apply NoDup_cons in Hnd as [Hu Hnd]. rewrite IH; [|done|].
    - rewrite map_to_list_insert by (apply Hm; set_solver). simpl. by rewrite Permutation_middle.
    - intros v Hv. rewrite lookup_insert_ne; [apply Hm; set_solver|].
      intros E. apply Hu. rewrite E. by apply list_elem_of_fmap_2. }
  rewrite Hgen by (done || intros; apply lookup_empty). rewrite map_to_list_empty. by rewrite app_nil_r.
Qed.

(** ** Giving everything back *)

(** The devices a demand names have an allocatable vector. *)
Definition backed (ds : list Device) (dem : Demand) : Prop :=
  ∀ d, d ∈ ds → device_id d ∈ dem.1 → is_Some (allocatable d).

Lemma backed_shifted f ds ds' dem : shifted f ds ds' → backed ds dem ↔ backed ds' dem.
Proof.
  intros [L H]. unfold backed. split; intros Hb d Hd Hin; apply list_elem_of_lookup in Hd as [j Hj].
  - destruct (lookup_lt_is_Some_2 ds j) as [e He]; [rewrite <-L; by apply lookup_lt_Some in Hj|].
    destruct (H j e He) as (d' & Hj' & Hid & _ & _ & _ & Hal & _). rewrite Hj in Hj'. injection Hj' as <-.
    apply Hal, Hb; [by apply list_elem_of_lookup_2 in He|congruence].
  - destruct (H j d Hj) as (d' & Hj' & Hid & _ & _ & _ & Hal & _).
    apply Hal, Hb; [by apply list_elem_of_lookup_2 in Hj'|congruence].
Qed.

Lemma NoDup_device ds i j d e :
  NoDup (device_id <$> ds) → ds !! i = Some d → ds !! j = Some e → device_id d = device_id e → i = j ∧ d = e.
Proof.
  intros Hnd Hi Hj E. assert (i = j) as ->; [|split; congruence].
  apply (NoDup_lookup (device_id <$> ds) i j (device_id d)); [done| |]; rewrite list_lookup_fmap.
  - by rewrite Hi.
  - rewrite Hj. simpl. by rewrite E.
Qed.

Section Return.
Context (allocationID : string → string).

Lemma reserve_bindings_demands plan now st bs st' :
  NoDup (device_id <$> rs_devices st) → Forall binding_ok bs →
  reserve_bindings allocationID plan now st bs = Ok st' →
  Forall demand_ok (binding_demand <$> bs) ∧ Forall (backed (rs_devices st)) (binding_demand <$> bs).
Proof.
  revert st. induction bs as [|b bs IH]; intros st Hnd Hbs; simpl; [by intros _|].
  intros (st1 & H1 & H2)%bind_Ok. apply Forall_cons in Hbs as [Hb Hbs].
  apply reserve_binding_Ok in H1 as (bi & unit & dev & i & r & a & id & -> & Hid & Hr & _ & _ & _ & Hd & _ & Ha & _ & _ & ->).
  apply lastDevice_lookup in Hd as [Hi Hdev]. subst id.
  pose proof (shifted_alter _ _ _ _ (λ a, subtractResources a r) Hnd Hi Ha) as Hsh.
  apply IH in H2 as [Hok Hba]; [|cbn [rs_devices]; by rewrite (shifted_ids _ _ _ Hsh)|exact Hbs].
  cbn [rs_devices] in Hba. split; (apply Forall_cons; split; [|]).
  - unfold demand_ok; simpl. split; [by eexists|]. exists r. split; [done|]. by apply Hb.
  - exact Hok.
  - unfold binding_demand; simpl. rewrite Hid. intros d Hdd Hin. apply list_elem_of_singleton in Hin.
    apply list_elem_of_lookup in Hdd as [j Hj].
    destruct (NoDup_device _ _ _ _ _ Hnd Hj Hi Hin) as [_ ->]. by rewrite Ha.
  - eapply Forall_impl; [exact Hba|]. intros dem. by apply (backed_shifted _ _ _ _ Hsh).
Qed.
End Return.

Lemma release_devices_total ds dem :
  NoDup (device_id <$> ds) → demand_ok dem → backed ds dem → is_ok (release_devices ds dem.1 dem.2) = true.
Proof.
  intros Hnd [(id & Hid) _] Hb. rewrite Hid. simpl.
  destruct (findDevice ds id) as [[i d]|] eqn:Hf; [|done]. apply findDevice_lookup in Hf as [Hi <-].
  destruct (Hb d) as [a ->]; [by apply list_elem_of_lookup_2 in Hi|rewrite Hid; set_solver|done].
Qed.

Lemma room_next ds ds1 dem dems :
  shifted (λ proj id, load proj id [dem]) ds ds1 → room ds (dem :: dems) → room ds1 dems.
Proof.
  intros [Hlen Hsh] Hroom proj d' Hp Hd'. apply list_elem_of_lookup in Hd' as [j Hj].
  destruct (lookup_lt_is_Some_2 ds j) as [d Hd]; [rewrite <-Hlen; by apply lookup_lt_Some in Hj|].
  destruct (Hsh j d Hd) as (d2 & Hj2 & Hid & _ & Hcap & _ & _ & Ham). rewrite Hj in Hj2. injection Hj2 as <-.
  rewrite Hid, Hcap, Ham by done. pose proof (Hroom proj d Hp ltac:(by apply list_elem_of_lookup_2 in Hd)) as Hr.
  rewrite load_cons in *. change (load proj (device_id d) []) with 0. lia.
Qed.

(** The loop over the allocations of a plan none of which is retained. *)
Lemma converge_release reserved degraded ds als :
  NoDup (device_id <$> ds) → (∀ a, a ∈ als → allocation_id a ∈ reserved) →
  Forall demand_ok (allocation_demand <$> als) → Forall (backed ds) (allocation_demand <$> als) →
  room ds (allocation_demand <$> als) →
  ∃ ds', converge reserved ∅ degraded ds als = Ok ([], ds') ∧
    shifted (λ proj id, load proj id (allocation_demand <$> als)) ds ds'.
Proof.
  revert ds. induction als as [|a als IH]; intros ds Hnd Hres Hok Hba Hroom; simpl.
  { exists ds. split; [done|]. apply shifted_refl. }
  rewrite bool_decide_eq_false_2 by (intros Hn; apply Hn, Hres; set_solver).
  rewrite bool_decide_eq_false_2 by set_solver.
  apply Forall_cons in Hok as [Ha Hok]. apply Forall_cons in Hba as [Hb Hba].
  pose proof (release_devices_total ds (allocation_demand a) Hnd Ha Hb) as Hrel.
  change (al_device_ids a) with (allocation_demand a).1. change (al_resources a) with (allocation_demand a).2.
  destruct (release_devices ds _ _) as [ds1|] eqn:H1; [|done]. cbn [mbind Result_bind].
  apply release_devices_shifted in H1; [|done|done|by eapply room_cons].
  assert (Hsh : shifted (λ proj id, load proj id [allocation_demand a]) ds ds1).
  { eapply shifted_ext; [|exact H1]. intros proj d Hp Hd. cbv beta.
    destruct (decide (device_id d ∈ device_id <$> ds)) as [_|Hn]; [done|]. destruct Hn. by apply list_elem_of_fmap_2. }
  destruct (IH ds1) as (ds' & -> & Hsh2);
    [by rewrite (shifted_ids _ _ _ Hsh)|set_solver|done| |by eapply room_next|].
  - eapply Forall_impl; [exact Hba|]. intros dem. by apply (backed_shifted _ _ _ _ Hsh).
  - exists ds'. split; [done|]. eapply shifted_ext; [|exact (shifted_trans _ _ _ _ _ Hsh Hsh2)].
    intros proj d _ _. cbv beta. rewrite !load_cons. change (load proj (device_id d) []) with 0.
    change (list_fmap Allocation Demand allocation_demand als) with (allocation_demand <$> als). lia.
Qed.


(** ** [proto.Equal] is reflexive *)

Lemma double_Equal_refl f : double_Equal f f = true.
Proof.
  unfold double_Equal, feqb, SpecFloat.SFeqb. destruct f as [[]|[]| |s m e]; try done.
  simpl. destruct s; rewrite Z.compare_refl, ?Pos.compare_cont_refl; done.
Qed.

Lemma option_Equal_refl {A} (eq : A → A → bool) o : (∀ a, eq a a = true) → option_Equal eq o o = true.
Proof. intros H. destruct o; simpl; auto. Qed.

Lemma list_Equal_refl {A} (eq : A → A → bool) l : (∀ a, eq a a = true) → list_Equal eq l l = true.
Proof. intros H. induction l; simpl; [done|]. by rewrite H. Qed.

Lemma resources_Equal_refl r : resources_Equal r r = true.
Proof. unfold resources_Equal. by rewrite !Z.eqb_refl, double_Equal_refl. Qed.

Lemma map_Equal_refl {A} (eq : A → A → bool) m : (∀ a, eq a a = true) → map_Equal eq m m = true.
Proof.
  intros H. unfold map_Equal. rewrite bool_decide_eq_true_2 by done. apply forallb_forall.
  intros [k a] Hk%list_elem_of_In%elem_of_map_to_list. simpl. by rewrite Hk; simpl.
Qed.

Lemma capabilities_Equal_refl c : capabilities_Equal c c = true.
Proof. unfold capabilities_Equal. rewrite !bool_decide_eq_true_2 by done. apply map_Equal_refl, double_Equal_refl. Qed.

Lemma binding_Equal_refl b : binding_Equal b b = true.
Proof.
  unfold binding_Equal. rewrite bool_decide_eq_true_2 by done. apply option_Equal_refl, resources_Equal_refl.
Qed.

Lemma rollback_Equal_refl r : rollback_Equal r r = true.
Proof.
  unfold rollback_Equal. rewrite bool_decide_eq_true_2 by done. apply option_Equal_refl, binding_Equal_refl.
Qed.

Lemma action_Equal_refl a : action_Equal a a = true.
Proof.
  unfold action_Equal, contract_Equal. rewrite !bool_decide_eq_true_2, double_Equal_refl by done.
  rewrite (option_Equal_refl capabilities_Equal) by apply capabilities_Equal_refl.
  rewrite !option_Equal_refl; [done|apply rollback_Equal_refl|apply binding_Equal_refl].
Qed.

Lemma plan_Equal_refl p : plan_Equal p p = true.
Proof.
  unfold plan_Equal. rewrite !bool_decide_eq_true_2 by done. rewrite !list_Equal_refl; [done|..]; intros;
    apply option_Equal_refl; [apply action_Equal_refl|apply binding_Equal_refl].
Qed.

(** ** Reserving and finalising *)

Definition reserve_start (l : Ledger) : ReserveState :=
  mkReserveState (devices (snapshot l)) (pending_map (pending_units (snapshot l))) ∅ ∅ [] [] (allocations (snapshot l)).

Section Store.
Context (allocationID : string → string).

(** The ledger an admission plan leaves. *)
Definition reserved_ledger (l : Ledger) (now : Z) (plan : PlacementPlan) (st : ReserveState) : Ledger :=
  let l' := commitSnapshotLocked l now ((snapshot l) <| devices := rs_devices st |>
    <| allocations := rs_allocations st |> <| pending_units := sortPendingUnits (snd <$> map_to_list (rs_pending st)) |>) in
  l' <| reservations := <[plan_id plan := mkReservation plan (snapshot l) ∅ (rs_pendingUnits st) (rs_allocationIDs st)
                            false false []]> (reservations l') |>.

Lemma ReservePlan_inv l now plan l' :
  isMutationPurpose (effectivePlanPurpose plan).1 = false →
  ReservePlan allocationID l now (Some plan) = Ok l' →
  reservations l !! plan_id plan = None ∧ validatePlanLocked l now plan = Ok tt ∧
  revision (snapshot l) ≠ max_uint64 ∧
  ∃ st, reserve_bindings allocationID plan now (reserve_start l) (bindings plan) = Ok st ∧
    l' = reserved_ledger l now plan st.
Proof.
  intros Hp. unfold ReservePlan, reservePlanLocked. case_bool_decide; [done|].
  destruct (reservations l !! plan_id plan) eqn:Hr; [done|]. intros ([] & Hv & H2)%bind_Ok.
  rewrite Hp in H2. unfold reserveAdmissionPlan in H2. case_bool_decide; [done|].
  destruct (Z.eqb_spec (revision (snapshot l)) max_uint64) as [|Hrev]; [done|].
  apply bind_Ok in H2 as (st & Hst & [= <-]). split_and!; try done. exists st. by split.
Qed.

Lemma validatePlanLocked_Ok l now plan :
  validatePlanLocked l now plan = Ok tt →
  snapshot_revision plan = revision (snapshot l) ∧
  ∃ intent, intents l !! (pl_execution_id plan, pl_stage_id plan) = Some intent ∧
    now < AsTime (si_valid_until intent) ∧ pl_intent_version plan = si_version intent.
Proof.
  unfold validatePlanLocked. intros ([] & H1%guard_err_Ok & H2)%bind_Ok.
  destruct (intents l !! _) as [i|]; [|done]. apply bind_Ok in H2 as ([] & H3%guard_err_Ok & H4%guard_err_Ok).
  bool_props. split; [lia|]. exists i. split; [done|lia].
Qed.


Lemma returned_units_all r : returned_units allocationID r ∅ = pendingUnits r.
Proof.
  unfold returned_units. rewrite (list_filter_iff _ (λ _ : option Binding, False)) by set_solver.
  assert (Hf : ∀ bs : list (option Binding), filter (λ _, False) bs = []) by (induction bs; done).
  rewrite Hf. simpl. induction (pendingUnits r) as [|u us IH]; [done|].
  rewrite filter_cons, decide_True by set_solver. by f_equal.
Qed.

(** An admission plan is finalised as one. *)
Lemma finalize_admission l now plan r ok results :
  isMutationPurpose (effectivePlanPurpose plan).1 = false → reservations l !! plan_id plan = Some r →
  finalizePlanResultsLocked allocationID l now plan ok results =
    if plan_Equal (res_plan r) plan then finalizeAdmissionPlan allocationID l now plan r ok results else Err ErrPlanNotReserved.
Proof.
  intros Hp Hr. unfold finalizePlanResultsLocked. rewrite Hr. destruct (plan_Equal _ _); [|done]. cbn [negb].
  rewrite Hp. rewrite decide_False; [done|]. by intros E; rewrite E in Hp.
Qed.

(** Finalising as failed a reservation none of whose allocations is retained. *)
Lemma finalize_unretained l now plan results r als0 news :
  isMutationPurpose (effectivePlanPurpose plan).1 = false →
  reservations l !! plan_id plan = Some r → res_plan r = plan → finalized r = false →
  (retainedAllocations allocationID plan false results).1 = ∅ → revision (snapshot l) ≠ max_uint64 →
  NoDup (device_id <$> devices (snapshot l)) → allocations (snapshot l) = als0 ++ news →
  allocationIDs r = allocation_id <$> news → (∀ a, a ∈ als0 → allocation_id a ∉ allocation_id <$> news) →
  Forall demand_ok (allocation_demand <$> news) →
  Forall (backed (devices (snapshot l))) (allocation_demand <$> news) →
  room (devices (snapshot l)) (allocation_demand <$> news) →
  ∃ l'', FinalizePlanResults allocationID l now (Some plan) false results = Ok l'' ∧
    shifted (λ proj id, load proj id (allocation_demand <$> news)) (devices (snapshot l)) (devices (snapshot l'')) ∧
    allocations (snapshot l'') = als0 ∧
    pending_units (snapshot l'') = sortPendingUnits (pending_units (snapshot l) ++ pendingUnits r) ∧
    revision (snapshot l'') = wrap64 (revision (snapshot l) + 1).
Proof.
  intros Hp Hr Hplan Hfin Hret Hmax Hnd Hals Hids Hfresh Hdem Hback Hroom.
  unfold FinalizePlanResults. rewrite (finalize_admission _ _ _ r) by done. rewrite Hplan, plan_Equal_refl.
  unfold finalizeAdmissionPlan.
  destruct (retainedAllocations allocationID plan false results) as [ret deg]. simpl in Hret. subst ret.
  rewrite Hfin, (proj2 (Z.eqb_neq _ _)) by done. rewrite Hals, Hids, converge_keep.
  - destruct (converge_release (list_to_set (allocation_id <$> news)) deg (devices (snapshot l)) news)
      as (ds' & -> & Hsh); [done| |done..|].
    + intros a Ha. apply elem_of_list_to_set. by apply list_elem_of_fmap_2.
    + eexists. split; [reflexivity|]. cbn. rewrite app_nil_r, returned_units_all. by split_and!.
  - intros a Ha Hin. apply elem_of_list_to_set in Hin. by eapply Hfresh.
Qed.

(** C3: Reserving a plan and then finalising it as failed, with evidence that retains
    nothing, gives everything back: finalising succeeds, every device has its
    capacity, health and (integer) allocatable resources of before, the allocations
    are those of before, the pending queue is the one of before in its order, and
    only the revision has moved, once per operation. *)
Theorem reserve_finalize_roundtrip l now now' plan results l' :
  isMutationPurpose (effectivePlanPurpose plan).1 = false →
  0 ≤ revision (snapshot l) < max_uint64 - 1 →
  NoDup (pending_unit_id <$> pending_units (snapshot l)) → NoDup (device_id <$> devices (snapshot l)) →
  Forall device_ok (devices (snapshot l)) → Forall binding_ok (bindings plan) → room (devices (snapshot l)) [] →
  (∀ a b, a ∈ allocations (snapshot l) → b ∈ bindings plan → allocation_id a ≠ allocationID (bindingID_of b)) →
  (retainedAllocations allocationID plan false results).1 = ∅ →
  ReservePlan allocationID l now (Some plan) = Ok l' →
  ∃ l'', FinalizePlanResults allocationID l' now' (Some plan) false results = Ok l'' ∧
    shifted (λ _ _, 0) (devices (snapshot l)) (devices (snapshot l'')) ∧
    allocations (snapshot l'') = allocations (snapshot l) ∧
    pending_units (snapshot l'') = sortPendingUnits (pending_units (snapshot l)) ∧
    revision (snapshot l'') = revision (snapshot l) + 2.
Proof.
  intros Hp Hrev Hndp Hndd Hds Hbs Hroom Hfresh Hret Hok.
  apply ReservePlan_inv in Hok as (Hres & Hv & Hmax & st & Hst & ->); [|done].
  pose proof (reserve_bindings_appends _ _ _ _ _ _ Hst) as (news & units & E1 & E2 & E3 & E4 & _ & E6 & E7).
  pose proof (reserve_bindings_shifted _ _ _ (reserve_start l) _ _ Hndd Hds Hbs Hst) as Hsh.
  pose proof (reserve_bindings_demands _ _ _ (reserve_start l) _ _ Hndd Hbs Hst) as [Hdem Hback].
  cbn [rs_allocationIDs reserve_start rs_allocations rs_devices rs_pendingUnits rs_pending app] in *.
  assert (Hrev1 : revision (snapshot (reserved_ledger l now plan st)) = revision (snapshot l) + 1).
  { apply wrap64_id. unfold is_u64, max_uint64, two64 in *. lia. }
  destruct (finalize_unretained (reserved_ledger l now plan st) now' plan results
    (mkReservation plan (snapshot l) ∅ (rs_pendingUnits st) (rs_allocationIDs st) false false [])
    (allocations (snapshot l)) news) as (l'' & Hok & Hsh2 & Hals & Hpend & Hrev2); try done.
  - apply lookup_insert_eq.
  - rewrite Hrev1. lia.
  - change (NoDup (device_id <$> rs_devices st)). by rewrite (shifted_ids _ _ _ Hsh).
  - intros a Ha Hin. rewrite E3 in Hin. apply list_elem_of_fmap in Hin as (b & Hin & Hb). by eapply Hfresh.
  - by rewrite E2.
  - change (Forall (backed (rs_devices st)) (allocation_demand <$> news)). rewrite E2.
    eapply Forall_impl; [exact Hback|]. intros dem. by apply (backed_shifted _ _ _ _ Hsh).
  - rewrite E2. intros proj d' Hproj Hd'. apply list_elem_of_lookup in Hd' as [j Hj]. destruct Hsh as [Hlen Hsh].
    change (rs_devices st !! j = Some d') in Hj.
    destruct (lookup_lt_is_Some_2 (devices (snapshot l)) j) as [d Hd]; [rewrite <-Hlen; by apply lookup_lt_Some in Hj|].
    destruct (Hsh j d Hd) as (d2 & Hj2 & Hid & _ & Hcap & _ & _ & Ham). rewrite Hj in Hj2. injection Hj2 as <-.
    rewrite Hid, Hcap, Ham by done. pose proof (Hroom proj d Hproj ltac:(by apply list_elem_of_lookup_2 in Hd)) as Hr.
    change (load proj (device_id d) []) with 0 in Hr. lia.
  - exists l''. split; [done|]. split_and!; [|done| |].
    + eapply shifted_ext; [|exact (shifted_trans _ _ _ _ _ Hsh Hsh2)]. intros. cbv beta. rewrite E2. lia.
    + rewrite Hpend. cbn [pendingUnits]. rewrite E6. symmetry. apply sortPendingUnits_unique; [done|].
      etrans; [symmetry; by apply pending_map_values|]. rewrite E7.
      change (pending_units (snapshot (reserved_ledger l now plan st)))
        with (sortPendingUnits (snd <$> map_to_list (rs_pending st))).
      unfold sortPendingUnits. rewrite sort_by_perm. by rewrite Permutation_app_comm.
    + rewrite Hrev2, Hrev1. rewrite wrap64_id; [lia|]. unfold is_u64, max_uint64, two64 in *. lia.
Qed.
End Store.


(** ** Evidence *)

Section Evidence.
Context (allocationID : string → string).

Definition action_binding_id (a : Action) : string := from_option binding_id "" (action_binding a).

(** The results are for actions of the plan, one each. *)
Definition well_formed_results (plan : PlacementPlan) (results : list (option ActionResult)) : Prop :=
  (∀ r, r ∈ results → ∃ r', r = Some r' ∧ ar_action_id r' ∈ plan_actions plan) ∧
  NoDup (from_option ar_action_id "" <$> results).

Lemma index_results_sound plan rs m mal k r :
  (index_results plan rs m mal).1 !! k = Some r → m !! k = Some r ∨ (Some r ∈ rs ∧ ar_action_id r = k).
Proof.
  revert m mal. induction rs as [|[r0|] rs IH]; intros m mal; simpl; [by left| |].
  - case_bool_decide; intros [H1|[H1 H2]]%IH; [by left|set_solver| |set_solver].
    apply lookup_insert_Some in H1 as [[<- <-]|[_ H1]]; [set_solver|by left].
  - intros [H1|[H1 H2]]%IH; [by left|set_solver].
Qed.

Lemma index_results_malformed plan rs m mal :
  (index_results plan rs m mal).2 = false →
  mal = false ∧ well_formed_results plan rs ∧
  ∀ r, Some r ∈ rs → m !! ar_action_id r = None.
Proof.
  revert m mal. induction rs as [|[r0|] rs IH]; intros m mal; simpl.
  - intros ->. split_and!; [done|split; [set_solver|constructor]|set_solver].
  - case_bool_decide as Hid.
    { by intros (? & _)%IH. }
    intros (Hmal & [Hwf Hnd] & Hfresh)%IH. apply orb_false_iff in Hmal as [[-> H1]%orb_false_iff H2].
    apply bool_decide_eq_false in H1. apply negb_false_iff, bool_decide_eq_true in H2.
    assert (Hm : m !! ar_action_id r0 = None) by (destruct (m !! _) eqn:E; [|done]; destruct H1; by eexists).
    split_and!; [done|split|].
    + intros r [->|Hr]%elem_of_cons; [by eexists|by apply Hwf].
    + constructor; [|done]. intros ([r|] & E & Hr)%list_elem_of_fmap; simpl in E.
      * pose proof (Hfresh r Hr) as Hf. rewrite <-E, lookup_insert_eq in Hf. done.
      * by destruct (Hwf None Hr) as (? & ? & _).
    + intros r [[= ->]|Hr]%elem_of_cons; [done|]. specialize (Hfresh r Hr).
      by apply lookup_insert_None in Hfresh as [? _].
  - by intros (? & _)%IH.
Qed.

Lemma weigh_actions_mono byAction ev as' :
  let ev' := foldl (weigh_action allocationID byAction) ev as' in
  ev_retained ev ⊆ ev_retained ev' ∧ (malformedEvidence ev' = false → malformedEvidence ev = false) ∧
  (ev_degraded ev ⊆ ev_retained ev → ev_degraded ev' ⊆ ev_retained ev').
Proof.
  revert ev. induction as' as [|a as' IH]; intros ev; simpl; [by split_and!|].
  destruct (IH (weigh_action allocationID byAction ev a)) as (H1 & H2 & H3).
  assert (Hstep : ev_retained ev ⊆ ev_retained (weigh_action allocationID byAction ev a) ∧
    (malformedEvidence (weigh_action allocationID byAction ev a) = false → malformedEvidence ev = false) ∧
    (ev_degraded ev ⊆ ev_retained ev →
     ev_degraded (weigh_action allocationID byAction ev a) ⊆ ev_retained (weigh_action allocationID byAction ev a))).
  { unfold weigh_action. repeat case_match; simpl; split_and!; try done; set_solver. }
  destruct Hstep as (S1 & S2 & S3). split_and!; [set_solver|auto|auto].
Qed.

Lemma weigh_actions_spec byAction ev as' :
  let ev' := foldl (weigh_action allocationID byAction) ev as' in
  (∀ id, id ∈ coveredBindings ev' → id ∈ coveredBindings ev ∨
     (id ≠ "" ∧ ∃ a, Some a ∈ as' ∧ action_binding_id a = id)) ∧
  (malformedEvidence ev' = false → ∀ a, Some a ∈ as' → action_binding_id a ≠ "" →
     ∃ r, byAction !! action_id a = Some r ∧
       (mutationMayRemain r = true → allocationID (action_binding_id a) ∈ ev_retained ev')).
Proof.
  revert ev. induction as' as [|a0 as' IH]; intros ev; simpl; [split; [by left|set_solver]|].
  destruct (IH (weigh_action allocationID byAction ev a0)) as [H1 H2].
  pose proof (weigh_actions_mono byAction (weigh_action allocationID byAction ev a0) as') as (M1 & M2 & _).
  split.
  - intros id [Hc|(Hne & a & Ha & Hid)]%H1; [|right; set_solver].
    destruct a0 as [a0|]; [|by left]. unfold weigh_action in Hc. fold (action_binding_id a0) in Hc.
    case_bool_decide as Hb; [by left|].
    assert (Hc' : id ∈ ({[action_binding_id a0]} ∪ coveredBindings ev : gset string)) by (by repeat case_match).
    apply elem_of_union in Hc' as [->%elem_of_singleton|]; [right; set_solver|by left].
  - intros Hmal a [<-|Ha]%elem_of_cons Hne; [|by apply H2]. specialize (M2 Hmal).
    unfold weigh_action in M1, M2 |- *. fold (action_binding_id a) in M1, M2 |- *.
    rewrite bool_decide_eq_false_2 in M1, M2 |- * by done.
    destruct (byAction !! action_id a) as [r|]; [|done]. exists r. split; [done|]. intros Hr. rewrite Hr in *.
    apply M1. cbn. set_solver.
Qed.

End Evidence.


(** ** Finalising twice *)

Lemma sortedSetValues_inj s t : sortedSetValues s = sortedSetValues t ↔ s = t.
Proof.
  split; [|by intros ->]. intros E. apply set_eq. intros x. unfold sortedSetValues, sort_strings in E.
  rewrite <-!elem_of_elements, <-(elem_of_sort_by str_ltb x (elements s)), E. by rewrite elem_of_sort_by.
Qed.

Section Finalize.
Context (allocationID : string → string).
Abbreviation finalize := (finalizePlanResultsLocked allocationID).

(** What a successful finalisation leaves recorded. *)
Lemma finalize_records l now plan ok results l' :
  isMutationPurpose (effectivePlanPurpose plan).1 = false → finalize l now plan ok results = Ok l' →
  ∃ r, reservations l' !! plan_id plan = Some r ∧ plan_Equal (res_plan r) plan = true ∧ finalized r = true ∧
    succeeded r = ok ∧ retainedAllocationIDs r = sortedSetValues (retainedAllocations allocationID plan ok results).1.
Proof.
  intros Hp. destruct (reservations l !! plan_id plan) as [r|] eqn:Hr;
    [|by unfold finalizePlanResultsLocked; rewrite Hr].
  rewrite (finalize_admission _ _ _ _ r) by done. destruct (plan_Equal (res_plan r) plan) eqn:He; [|done].
  unfold finalizeAdmissionPlan.
  destruct (retainedAllocations allocationID plan ok results) as [ret deg]. simpl.
  destruct (finalized r) eqn:Hf.
  - case_bool_decide as Hd; [|done]. destruct Hd as [H1 H2]. intros [= <-]. exists r. by split_and!.
  - destruct (_ =? _); [done|]. intros (p & _ & [= <-])%bind_Ok. simpl. rewrite lookup_insert_eq.
    eexists. split; [done|]. by split_and!.
Qed.

(** Finalising is idempotent and final.  Once a plan is finalised, finalising it
    again changes nothing: it succeeds exactly for the same outcome and evidence that
    retains the same allocations, and is refused otherwise. *)
Theorem finalize_idempotent l now plan ok results l' now' ok' results' :
  isMutationPurpose (effectivePlanPurpose plan).1 = false → finalize l now plan ok results = Ok l' →
  finalize l' now' plan ok' results' =
    if decide (ok' = ok ∧ (retainedAllocations allocationID plan ok' results').1 =
                          (retainedAllocations allocationID plan ok results).1)
    then Ok l' else Err (ErrPlanAlreadyReserved FinalizedDifferently).
Proof.
  intros Hp H. destruct (finalize_records _ _ _ _ _ _ Hp H) as (r & Hr & He & Hf & Hs & Hret).
  rewrite (finalize_admission _ _ _ _ r) by done. rewrite He. unfold finalizeAdmissionPlan. rewrite Hf.
  destruct (retainedAllocations allocationID plan ok' results') as [ret' deg']. simpl.
  rewrite Hs, Hret. destruct (decide _) as [[-> ->]|Hn]; [by rewrite bool_decide_eq_true_2|].
  rewrite bool_decide_eq_false_2; [done|]. intros [-> E]. apply Hn. split; [done|].
  by apply sortedSetValues_inj in E as ->.
Qed.
End Finalize.

(** ** Instances *)

Module ReservationWitnesses.
Definition aid (s : string) : string := "alloc-" +:+ s.
Definition rv (c m : Z) : ResourceVector := mkResources c m f1 0 0.
Definition dev : Device := mkDevice "d" DEVICE_HEALTH_READY (Some (rv 8 8)) (Some (rv 8 4)) None ∅ Semantics.DEVICE_KIND_GPU.
Definition pu (id : string) (p : Z) : PendingUnit :=
  mkPendingUnit id "e" "s" 1 "j" (Some (rv 2 3)) None p None 0 "" "" DATA_KIND_LIVE "".
Definition bi : Binding := mkBinding "b" "u" ["d"] (Some (rv 2 3)) "" 1 "".
Definition act : Action := mkAction "a" ACTION_TYPE_BIND "u" (Some bi) f0 None "" 1 "" no_contract.
Definition plan : PlacementPlan := mkPlan "p" "e" "s" 1 7 [Some bi] [Some act] None None "" "" "" DATA_KIND_LIVE 1 "" "j"
  PLAN_PURPOSE_ADMISSION ROLLBACK_POLICY_NOT_REQUIRED [] [] "".
Definition snap : ClusterSnapshot := mkSnapshot "" 7 None [dev] [] [pu "v" 0; pu "u" 1] ∅ "".
Definition ledger : Ledger :=
  mkLedger snap {[("e", "s") := mkStoredIntent 1 (Some (mkTimestamp 9 0)) ""]} ∅.
Definition failed : list (option ActionResult) :=
  [Some (mkActionResult "a" ACTION_RESULT_STATUS_FAILED false ACTION_RESULT_STATUS_UNKNOWN "" "" 0 "p" "" "")].
Definition after : Ledger :=
  match ReservePlan aid ledger 5 (Some plan) with Ok l => l | Err _ => ledger end.

Lemma rv_small c m : 0 ≤ c < 10 → 0 ≤ m < 10 → rv_ok (rv c m).
Proof. intros ? ? proj. revert proj. apply integer_cases; unfold is_u64, two64; simpl; lia. Qed.

Lemma room_dev : room [dev] [].
Proof.
  intros proj d Hp Hd. apply list_elem_of_singleton in Hd as ->. revert proj Hp.
  apply integer_cases; unfold load, device_amount; simpl; lia.
Qed.


Lemma reserve_finalize_roundtrip_witness :
  ∃ l'', FinalizePlanResults aid after 6 (Some plan) false failed = Ok l'' ∧
    shifted (λ _ _, 0) [dev] (devices (snapshot l'')) ∧ allocations (snapshot l'') = [] ∧
    pending_units (snapshot l'') = sortPendingUnits [pu "v" 0; pu "u" 1] ∧ revision (snapshot l'') = 7 + 2.
Proof.
  apply (reserve_finalize_roundtrip aid ledger 5 6 plan failed after).
  - done.
  - unfold max_uint64. simpl. lia.
  - apply (bool_decide_unpack _). by vm_compute.
  - apply (bool_decide_unpack _). by vm_compute.
  - apply Forall_singleton. intros a [= <-]. by apply rv_small.
  - apply Forall_singleton. intros a [= <-]. by apply rv_small.
  - apply room_dev.
  - set_solver.
  - by vm_compute.
  - by vm_compute.
Defined.


Lemma finalize_idempotent_witness :
  ∃ l, finalizePlanResultsLocked aid after 6 plan false failed = Ok l ∧
       finalizePlanResultsLocked aid l 8 plan false failed = Ok l ∧
       finalizePlanResultsLocked aid l 8 plan true [] = Err (ErrPlanAlreadyReserved FinalizedDifferently).
Proof.
  destruct (finalizePlanResultsLocked aid after 6 plan false failed) as [l|] eqn:E; [|by vm_compute in E].
  exists l. split; [done|]. split.
  - rewrite (finalize_idempotent aid after 6 plan false failed l 8 false failed); [|done|done].
    by rewrite decide_True.
  - rewrite (finalize_idempotent aid after 6 plan false failed l 8 true []); [|done|done].
    rewrite decide_False; [done|]. by intros [? _].
Defined.
End ReservationWitnesses.
