(* ===== verification/MutationProofs.v ===== *)
(** * Mutation reservations: properties *)

From Stdlib Require Import ZArith Lia.
From S2P Require Import Prelude GoStrings GoTime GoFloat ClusterModel SchedulerState Mutation Preemption Reservation ReservationProofs.
From stdpp Require Import options.

Local Open Scope Z_scope.

(** ** Finding allocations *)

Lemma findAllocation_lookup als id i a :
  findAllocation als id = Some (i, a) → als !! i = Some a ∧ allocation_id a = id.
Proof.
  revert i. induction als as [|a0 als IH]; intros i; simpl; [done|]. case_decide.
  - by intros [= <- <-].
  - destruct (findAllocation als id) as [[j b]|]; [|done]. intros [= <- <-]. by apply IH.
Qed.

Lemma findAllocation_None als id : findAllocation als id = None ↔ id ∉ allocation_id <$> als.
Proof.
  induction als as [|a als IH]; simpl; [set_solver|]. case_decide; [set_solver|].
  destruct (findAllocation als id) as [[]|]; simpl.
  - split; [done|]. intros Hn. discriminate (proj2 IH ltac:(set_solver)).
  - pose proof (proj1 IH eq_refl). set_solver.
Qed.

Lemma findAllocation_alter als f i id j a :
  (∀ a, allocation_id (f a) = allocation_id a) → findAllocation als id = Some (j, a) →
  findAllocation (alter f i als) id = Some (j, if decide (i = j) then f a else a).
Proof.
  intros Hf. revert i j. induction als as [|b als IH]; intros i j; [done|]. simpl.
  case_decide as Hb.
  - intros [= <- <-]. destruct i as [|i]; simpl; [by rewrite Hf, decide_True|by rewrite decide_True].
  - destruct (findAllocation als id) as [[j' b']|] eqn:E; [|done]. intros [= <- <-].
    destruct i as [|i]; simpl.
    + rewrite Hf, decide_False by done. by rewrite E.
    + rewrite decide_False by done. change (list_alter f i als) with (alter f i als). rewrite (IH i j' eq_refl). simpl.
      destruct (decide (i = j')) as [->|]; by repeat case_decide; try congruence.
Qed.

Lemma allocation_map_other als m id :
  id ∉ allocation_id <$> als → foldl (λ m a, <[allocation_id a := a]> m) m als !! id = (m : gmap string Allocation) !! id.
Proof.
  revert m. induction als as [|a als IH]; intros m Hn; simpl; [done|].
  rewrite IH by set_solver. apply lookup_insert_ne. set_solver.
Qed.

Lemma allocation_map_lookup als id i a :
  NoDup (allocation_id <$> als) → findAllocation als id = Some (i, a) → allocation_map als !! id = Some a.
Proof.
  unfold allocation_map. generalize (∅ : gmap string Allocation). revert i.
  induction als as [|b als IH]; intros i m Hnd; simpl; [done|]. apply NoDup_cons in Hnd as [Hb Hnd]. case_decide as E.
  - intros [= _ ->]. subst id. rewrite allocation_map_other by done. apply lookup_insert_eq.
  - destruct (findAllocation als id) as [[j b']|] eqn:F; [|done]. intros [= _ <-]. by apply (IH j).
Qed.

Lemma collect_affected_spec als ids m m' :
  collect_affected als ids m = Ok m' →
  ∀ k a, m' !! k = Some a → m !! k = Some a ∨ ∃ i, findAllocation als k = Some (i, a).
Proof.
  revert m. induction ids as [|id ids IH]; intros m; simpl; [intros [= <-]; by left|].
  destruct (findAllocation als id) as [[i b]|] eqn:E; [|done]. destruct (reservable b); [|done].
  intros H k a Hk. apply (IH _ H) in Hk as [Hk|]; [|by right].
  apply lookup_insert_Some in Hk as [[<- <-]|[_ Hk]]; [right; by exists i|by left].
Qed.

(** The target of an action is the first allocation with its identifier. *)
Lemma active_target_spec als ids affected action a :
  affectedAllocationsByID als ids = Ok affected → active_target action affected = Ok a →
  ∃ i, findAllocation als (allocation_id a) = Some (i, a) ∧ al_state a = ALLOCATION_STATE_ACTIVE ∧
    (target_id action = "" ∨ target_id action = allocation_id a).
Proof.
  unfold affectedAllocationsByID, active_target. case_bool_decide; [done|]. intros Haff (b & Hb & H2)%bind_Ok.
  apply bind_Ok in H2 as ([] & Hact%guard_err_Ok & [= <-]). apply bool_decide_eq_true in Hact.
  assert (Hin : ∃ k, affected !! k = Some b ∧ (target_id action = "" ∨ target_id action = k)).
  { unfold singleAffectedAllocation in Hb. destruct (decide (target_id action = "")) as [E|E].
    - destruct (map_to_list affected) as [|[k c] [|]] eqn:Hm.
      + destruct (affected !! target_id action) eqn:F; [|done]. injection Hb as ->. exists (target_id action). by split; [|right].
      + injection Hb as ->. exists k. split; [|by left]. apply elem_of_map_to_list. rewrite Hm. by left.
      + destruct (affected !! target_id action) eqn:F; [|done]. injection Hb as ->. exists (target_id action). by split; [|right].
    - destruct (affected !! target_id action) eqn:F; [|done]. injection Hb as ->. exists (target_id action). by split; [|right]. }
  destruct Hin as (k & Hk & Ht). destruct (collect_affected_spec _ _ _ _ Haff k b Hk) as [He|[i Hi]];
    [by rewrite lookup_empty in He|].
  pose proof (findAllocation_lookup _ _ _ _ Hi) as [_ <-]. exists i. by split_and!.
Qed.

(** ** Writing device vectors *)

(** The device with the identifier exists and has an allocatable vector. *)
Definition has_vector (ds : list Device) (id : string) : Prop :=
  ∃ i d a, findDevice ds id = Some (i, d) ∧ allocatable d = Some a.

Lemma findDevice_shifted f ds ds' id i d :
  shifted f ds ds' → findDevice ds id = Some (i, d) →
  ∃ d', findDevice ds' id = Some (i, d') ∧ ds' !! i = Some d'.
Proof.
  intros Hsh. revert ds' i Hsh. induction ds as [|e ds IH]; intros ds' i [Hlen Hsh]; [done|].
  destruct ds' as [|e' ds']; [done|]. simpl in Hlen.
  destruct (Hsh 0%nat e eq_refl) as (? & [= <-] & Hid & _). simpl. rewrite Hid. case_decide.
  - intros [= <- <-]. by exists e'.
  - destruct (findDevice ds id) as [[j d']|] eqn:F; [|done]. intros [= <- <-].
    destruct (IH ds' j) as (d2 & F2 & H2); [|done|].
    + split; [lia|]. intros k e2 Hk. by apply (Hsh (S k)).
    + exists d2. by rewrite F2.
Qed.

Lemma has_vector_shifted f ds ds' id : shifted f ds ds' → has_vector ds id → has_vector ds' id.
Proof.
  intros Hsh (i & d & a & Hf & Ha). pose proof (findDevice_lookup _ _ _ _ Hf) as [Hi _].
  destruct (findDevice_shifted _ _ _ _ _ _ Hsh Hf) as (d' & Hf' & Hi').
  destruct Hsh as [_ Hsh]. destruct (Hsh i d Hi) as (d2 & Hd2 & _ & _ & _ & _ & [_ Hal] & _).
  rewrite Hi' in Hd2. injection Hd2 as <-. destruct Hal as [a' Ha']; [by rewrite Ha|]. by exists i, d', a'.
Qed.

Lemma update_devices_shifted f delta ds ids ds' :
  NoDup (device_id <$> ds) → NoDup ids → update_devices f ds ids = Ok ds' →
  (∀ d a, d ∈ ds → device_id d ∈ ids → allocatable d = Some a →
     ∀ proj, proj ∈ integer_resources → proj (f d a) = proj a + delta proj) →
  shifted (λ proj id, if decide (id ∈ ids) then delta proj else 0) ds ds'.
Proof.
  intros Hnd Hids. revert ds Hnd. induction Hids as [|id ids Hid Hids IH]; intros ds Hnd Hup Hf; cbn [update_devices] in Hup.
  { injection Hup as <-. eapply shifted_ext; [|apply shifted_refl]. intros. by rewrite decide_False by set_solver. }
  destruct (findDevice ds id) as [[i d]|] eqn:F; [|done]. apply findDevice_lookup in F as [Hi <-].
  destruct (allocatable d) as [a|] eqn:Ha; [|done].
  pose proof (shifted_alter _ _ _ _ (f d) Hnd Hi Ha) as Hsh.
  rewrite (alter_allocatable _ _ _ _ (f d) Hi Ha) in Hup.
  apply IH in Hup; [|by rewrite (shifted_ids _ _ _ Hsh)|].
  - eapply shifted_ext; [|exact (shifted_trans _ _ _ _ _ Hsh Hup)]. intros proj e Hp He. cbv beta.
    destruct (decide (device_id e = device_id d)) as [->|Hne].
    + rewrite decide_False by done. rewrite decide_True by set_solver.
      rewrite Hf; [lia|by apply list_elem_of_lookup_2 in Hi|set_solver|done|done].
    + destruct (decide (device_id e ∈ ids)); [rewrite decide_True by set_solver|rewrite decide_False by set_solver]; lia.
  - intros e b He Hin Hb proj Hp. apply list_elem_of_lookup in He as [j Hj]. rewrite list_lookup_alter in Hj.
    case_decide as Hij.
    + subst j. rewrite Hi in Hj. simpl in Hj. injection Hj as <-. done.
    + apply Hf; [by apply list_elem_of_lookup_2 in Hj|set_solver|done|done].
Qed.

Lemma update_devices_total f ds ids :
  NoDup (device_id <$> ds) → Forall (has_vector ds) ids → is_ok (update_devices f ds ids) = true.
Proof.
  intros Hnd Hids. revert ds Hnd Hids. induction ids as [|id ids IH]; intros ds Hnd Hids; cbn [update_devices]; [done|].
  apply Forall_cons in Hids as [(i & d & a & F & Ha) Hids]. rewrite F, Ha.
  apply findDevice_lookup in F as [Hi _]. rewrite (alter_allocatable _ _ _ _ (f d) Hi Ha).
  pose proof (shifted_alter _ _ _ _ (f d) Hnd Hi Ha) as Hsh.
  apply IH; [by rewrite (shifted_ids _ _ _ Hsh)|]. eapply Forall_impl; [exact Hids|].
  intros id'. by apply has_vector_shifted with (1 := Hsh).
Qed.

Lemma check_devices_Ok ready need ds ids :
  check_devices ready need ds ids = Ok tt → Forall (has_vector ds) ids ∧
  ∀ i d a, ds !! i = Some d → device_id d ∈ ids → NoDup (device_id <$> ds) → allocatable d = Some a →
    resourcesFit (Some need) (Some a) = true.
Proof.
  induction ids as [|id ids IH]; cbn [check_devices]; [intros _; split; [done|set_solver]|].
  destruct (findDevice ds id) as [[i d]|] eqn:F; [|done].
  destruct (_ && _); [done|]. destruct (resourcesFit (Some need) (allocatable d)) eqn:Hfit; [|done]. intros [H1 H2]%IH.
  destruct (allocatable d) as [a|] eqn:Ha; [|done]. split.
  - constructor; [by exists i, d, a|done].
  - intros j e b Hj Hin Hnd Hb. apply elem_of_cons in Hin as [E|Hin]; [|by eapply H2].
    apply findDevice_lookup in F as [Hi Hid]. destruct (NoDup_device _ _ _ _ _ Hnd Hi Hj) as [_ ->]; [congruence|].
    congruence.
Qed.

(** The accelerator part of [resourcesFit]. *)
Definition accelerator_fits (r a : float64) : bool := negb (invalidFloat r) && fleb r (fadd a epsilon).

Lemma resourcesFit_split r a :
  (∀ proj, proj ∈ integer_resources → proj r ≤ proj a) → accelerator_fits (accelerator_units r) (accelerator_units a) = true →
  resourcesFit (Some r) (Some a) = true.
Proof.
  unfold accelerator_fits, resourcesFit. intros Hint [Hinv Hle]%andb_true_iff. apply negb_true_iff in Hinv. rewrite Hinv, Hle.
  pose proof (Hint cpu_millis ltac:(set_solver)). pose proof (Hint memory_bytes ltac:(set_solver)).
  pose proof (Hint ephemeral_storage_bytes ltac:(set_solver)). pose proof (Hint network_bandwidth_bps ltac:(set_solver)).
  by rewrite !(proj2 (Z.leb_le _ _)).
Qed.

(** Either the devices have room for [need] or one of them lacks accelerators for it. *)
Lemma check_devices_accelerators need ds ids :
  Forall (has_vector ds) ids →
  (∀ d a, d ∈ ds → device_id d ∈ ids → allocatable d = Some a → ∀ proj, proj ∈ integer_resources → proj need ≤ proj a) →
  check_devices false need ds ids = Ok tt ∨
  (check_devices false need ds ids = Err ErrInsufficientResource ∧
   ∃ d a, d ∈ ds ∧ allocatable d = Some a ∧ accelerator_fits (accelerator_units need) (accelerator_units a) = false).
Proof.
  intros Hids Hint. induction Hids as [|id ids (i & d & a & F & Ha) Hids IH]; cbn [check_devices]; [by left|].
  rewrite F, Ha. cbn [andb]. apply findDevice_lookup in F as [Hi Hid]. apply list_elem_of_lookup_2 in Hi.
  destruct (accelerator_fits (accelerator_units need) (accelerator_units a)) eqn:Hacc.
  - assert (Hneed : ∀ proj, proj ∈ integer_resources → proj need ≤ proj a).
    { intros proj Hp. apply (Hint d a); [done|rewrite Hid; by left|done|done]. }
    rewrite (resourcesFit_split need a Hneed Hacc).
    apply IH. intros d' a' ? ?. apply Hint; [done|by right].
  - right. split; [|by exists d, a]. destruct (resourcesFit (Some need) (Some a)) eqn:Hfit; [|done].
    unfold resourcesFit in Hfit. unfold accelerator_fits in Hacc. destruct (invalidFloat _); [done|]. simpl in Hacc.
    rewrite Hacc in Hfit. by rewrite !andb_false_r in Hfit.
Qed.

(** ** Resource deltas *)

Lemma delta_proj proj l r :
  proj ∈ integer_resources → proj (positiveResourceDelta l r) = positiveUint64Delta (proj l) (proj r).
Proof. revert proj. by apply integer_cases. Qed.

Lemma positiveUint64Delta_spec l r : positiveUint64Delta l r = Z.max 0 (l - r).
Proof. unfold positiveUint64Delta. destruct (Z.leb_spec l r); lia. Qed.

Lemma delta_ok l r : rv_ok l → rv_ok r → rv_ok (positiveResourceDelta l r).
Proof.
  intros Hl Hr proj Hp. rewrite delta_proj, positiveUint64Delta_spec by done.
  pose proof (Hl proj Hp). pose proof (Hr proj Hp). unfold is_u64 in *. lia.
Qed.

(** [exchange] of vectors that fit, below the capacity. *)
Lemma exchange_proj proj minus plus d a :
  proj ∈ integer_resources → is_u64 (proj a - proj minus) → 0 ≤ proj plus →
  proj a - proj minus + proj plus ≤ proj (device_capacity d) → proj a - proj minus ≤ proj (device_capacity d) →
  proj (exchange minus plus d a) = proj a + (proj plus - proj minus).
Proof.
  intros Hp Hm Hpl Hcap Hcap2. unfold exchange. rewrite add_proj, subtract_proj by done.
  rewrite wrap64_id by done. rewrite cappedAdd_spec by lia. lia.
Qed.

(** ** Preparing and restoring *)

(** A snapshot whose allocations were taken from its devices. *)
Record snapshot_ok (w : ClusterSnapshot) : Prop := {
  ok_devices : NoDup (device_id <$> devices w);
  ok_allocations : NoDup (allocation_id <$> allocations w);
  ok_vectors : Forall device_ok (devices w);
  ok_below : ∀ proj d, proj ∈ integer_resources → d ∈ devices w → device_amount proj d ≤ proj (device_capacity d);
  ok_resources : ∀ a r, a ∈ allocations w → al_resources a = Some r → rv_ok r;
  ok_distinct : ∀ a, a ∈ allocations w → NoDup (al_device_ids a);
  ok_placed : ∀ a, a ∈ allocations w → Forall (has_vector (devices w)) (al_device_ids a);
  ok_taken : ∀ a r d proj, proj ∈ integer_resources → a ∈ allocations w → al_resources a = Some r →
    d ∈ devices w → device_id d ∈ al_device_ids a → device_amount proj d + proj r ≤ proj (device_capacity d);
}.

(** The same devices up to accelerators, the same allocations and pending units. *)
Definition restored (w w' : ClusterSnapshot) : Prop :=
  shifted (λ _ _, 0) (devices w) (devices w') ∧ allocations w' = allocations w ∧ pending_units w' = pending_units w.

Definition same_state (w w' : ClusterSnapshot) : Prop :=
  devices w' = devices w ∧ allocations w' = allocations w ∧ pending_units w' = pending_units w.

Lemma restored_refl w : restored w w.
Proof. split; [apply shifted_refl|done]. Qed.

(** Taking back an exchange of [minus] for [plus] on the devices [ids]. *)
Lemma reverse_shifted w w2 ids (minus plus : ResourceVector) :
  snapshot_ok w → NoDup ids → Forall (has_vector (devices w)) ids → rv_ok minus → rv_ok plus →
  shifted (λ proj id, if decide (id ∈ ids) then proj plus - proj minus else 0) (devices w) (devices w2) →
  (∀ proj d, proj ∈ integer_resources → d ∈ devices w → device_id d ∈ ids → proj minus ≤ device_amount proj d) →
  (∃ w3, reverseDeviceResourceDelta w2 ids (Some minus) (Some plus) = Ok w3 ∧
     shifted (λ _ _, 0) (devices w) (devices w3) ∧ w3 = w2 <| devices := devices w3 |>) ∨
  (reverseDeviceResourceDelta w2 ids (Some minus) (Some plus) = Err ErrInsufficientResource ∧
   ∃ d a, d ∈ devices w2 ∧ allocatable d = Some a ∧ accelerator_fits (accelerator_units plus) (accelerator_units a) = false).
Proof.
  intros Hw Hids Hvec Hm Hpl Hsh Hfit.
  assert (Hback : ∀ d2, d2 ∈ devices w2 → ∃ d, d ∈ devices w ∧ device_id d = device_id d2 ∧ device_capacity d2 = device_capacity d ∧
    ∀ proj, proj ∈ integer_resources →
      device_amount proj d2 = device_amount proj d + if decide (device_id d ∈ ids) then proj plus - proj minus else 0).
  { intros d2 Hd2. apply list_elem_of_lookup in Hd2 as [j Hj]. destruct Hsh as [Hlen Hsh].
    destruct (lookup_lt_is_Some_2 (devices w) j) as [d Hd]; [rewrite <-Hlen; by apply lookup_lt_Some in Hj|].
    destruct (Hsh j d Hd) as (d' & Hj' & Hid & _ & Hcap & _ & _ & Ham). rewrite Hj in Hj'. injection Hj' as <-.
    exists d. split_and!; [by apply list_elem_of_lookup_2 in Hd|done|unfold device_capacity; by rewrite Hcap|done]. }
  assert (Hvec2 : Forall (has_vector (devices w2)) ids).
  { eapply Forall_impl; [exact Hvec|]. intros id. by apply has_vector_shifted with (1 := Hsh). }
  assert (Hnd2 : NoDup (device_id <$> devices w2)).
  { rewrite (shifted_ids _ _ _ Hsh). by apply ok_devices. }
  unfold reverseDeviceResourceDelta. cbn [default from_option id].
  destruct (check_devices_accelerators plus (devices w2) ids Hvec2) as [->|[-> Hstuck]]; [|left|by right].
  { intros d2 a2 Hd2 Hin Ha2 proj Hp. destruct (Hback d2 Hd2) as (d & Hd & Hid & _ & Ham). rewrite <-Hid in Hin.
    pose proof (Ham proj Hp) as E. rewrite decide_True in E by done. unfold device_amount in E at 1. rewrite Ha2 in E. simpl in E.
    pose proof (Hfit proj d Hp Hd Hin). lia. }
  cbn [mbind Result_bind].
  pose proof (update_devices_total (exchange plus minus) (devices w2) ids Hnd2 Hvec2) as Htot.
  destruct (update_devices (exchange plus minus) (devices w2) ids) as [ds|] eqn:Hup; [|done].
  eexists. split; [reflexivity|]. split; [|done]. cbn [devices].
  apply (update_devices_shifted _ (λ proj, proj minus - proj plus)) in Hup; [|done|done|].
  - eapply shifted_ext; [|exact (shifted_trans _ _ _ _ _ Hsh Hup)]. intros proj d Hp Hd. cbv beta.
    destruct (decide (device_id d ∈ ids)); lia.
  - intros d2 a2 Hd2 Hin Ha2 proj Hp. destruct (Hback d2 Hd2) as (d & Hd & Hid & Hcap & Ham). rewrite <-Hid in Hin.
    pose proof (Ham proj Hp) as E. rewrite decide_True in E by done. unfold device_amount in E at 1. rewrite Ha2 in E. simpl in E.
    pose proof (Hfit proj d Hp Hd Hin). pose proof (ok_below w Hw proj d Hp Hd) as Hb. rewrite <-Hcap in Hb.
    pose proof (Hm proj Hp). pose proof (Hpl proj Hp).
    assert (Hu : is_u64 (device_amount proj d)).
    { unfold device_amount. destruct (allocatable d) as [v|] eqn:Hv; simpl; [|unfold is_u64, two64; lia].
      pose proof (ok_vectors w Hw) as Hok. rewrite Forall_forall in Hok. by apply (Hok d Hd v Hv). }
    unfold is_u64 in *. apply exchange_proj; [done|unfold is_u64; lia|lia|lia|lia].
Qed.

(** Two lists of allocations [proto.Equal] tells apart, in either order. *)
Definition lists_differ (als als' : list Allocation) : Prop :=
  length als ≠ length als' ∨
  ∃ i a b, als !! i = Some a ∧ als' !! i = Some b ∧ allocation_Equal a b = false ∧ allocation_Equal b a = false.

Lemma lists_differ_sym als als' : lists_differ als als' → lists_differ als' als.
Proof. intros [?|(i & a & b & ? & ? & ? & ?)]; [left; congruence|right; by exists i, b, a]. Qed.

Lemma list_Equal_lookup {A} (eq : A → A → bool) l l' :
  list_Equal eq l l' = true → length l = length l' ∧
  ∀ i a b, l !! i = Some a → l' !! i = Some b → eq a b = true.
Proof.
  revert l'. induction l as [|x l IH]; intros [|y l']; simpl; try done.
  intros [Hxy [Hlen Hl]%IH]%andb_true_iff. split; [lia|]. intros [|i] a b; simpl; [by intros [= <-] [= <-]|apply Hl].
Qed.

Lemma lists_differ_Equal w w' : lists_differ (allocations w) (allocations w') → snapshot_Equal w w' = false.
Proof.
  intros H. apply not_true_iff_false. unfold snapshot_Equal. intros E. bool_props.
  destruct (list_Equal_lookup allocation_Equal (allocations w) (allocations w')) as [Hlen Hl]; [done|].
  destruct H as [?|(i & a & b & Ha & Hb & Hf & _)]; [done|]. by rewrite (Hl i a b Ha Hb) in Hf.
Qed.

Lemma alter_id {A} (f : A → A) (i : nat) (l : list A) : (∀ a, l !! i = Some a → f a = a) → alter f i l = l.
Proof.
  intros Hf. apply list_eq. intros j. rewrite list_lookup_alter. case_decide as E; [|done]. subst j.
  destruct (l !! i) as [a|] eqn:Hi; [|done]. cbn. by rewrite (Hf a eq_refl).
Qed.

Lemma alter_alter {A} (f g : A → A) (i : nat) (l : list A) : alter f i (alter g i l) = alter (λ a, f (g a)) i l.
Proof.
  apply list_eq. intros j. rewrite !list_lookup_alter. destruct (decide (i = j)) as [<-|Hne].
  - rewrite decide_True by done. by destruct (l !! i).
  - done.
Qed.

Lemma restored_set w w' : shifted (λ _ _, 0) (devices w) (devices w') → allocations w' = allocations w →
  pending_units w' = pending_units w → restored w w'.
Proof. by intros. Qed.

Lemma feqb_sym a b : feqb a b = feqb b a.
Proof.
  destruct (IsNaN a) eqn:Ha; [by destruct a, b|]. destruct (IsNaN b) eqn:Hb; [by destruct a, b|].
  rewrite !feqb_fltb by done. apply andb_comm.
Qed.

Lemma remove_new als a id :
  id ∉ allocation_id <$> als → allocation_id a = id → removeAllocationsByID (als ++ [a]) [id] = als.
Proof.
  intros Hn Ha. unfold removeAllocationsByID. rewrite filter_app. rewrite (filter_cons_False _ a) by set_solver.
  simpl. rewrite app_nil_r. induction als as [|b als IH]; [done|]. rewrite filter_cons_True by set_solver.
  f_equal. apply IH. set_solver.
Qed.

Section Changes.
Context (allocationID : string → string).
Context (w : ClusterSnapshot) (plan : PlacementPlan) (action : Action) (r : planReservation) (now : Z).
Context (affected : gmap string Allocation).
Context (Hw : snapshot_ok w) (Haff : affectedAllocationsByID (allocations w) (affected_allocation_ids plan) = Ok affected).
Context (Hplan : actions plan = [Some action]).
Context (Hr : beforeSnapshot r = w ∧ allocationIDs r = [] ∧ pendingUnits r = []).
Context (Hbinding : ∀ v, action_binding action ≫= bi_resources = Some v → rv_ok v).
Context (Hdistinct : NoDup (from_option bi_device_ids [] (action_binding action))).
Set Default Proof Using "Type*".

(** The accelerators that preparing handed back, and restoring takes again. *)
Definition handed_back (als : list Allocation) (f : float64) : Prop :=
  f = f0 ∨ ∃ a cur target, a ∈ als ∧ al_resources a = Some cur ∧ action_binding action ≫= bi_resources = Some target ∧
    f = accelerator_units (positiveResourceDelta cur target).

(** Restoring cannot go on: a device lacks accelerators to take back. *)
Definition accelerator_stuck (w2 : ClusterSnapshot) : Prop :=
  ∃ d v f, d ∈ devices w2 ∧ allocatable d = Some v ∧ handed_back (allocations w) f ∧
    accelerator_fits f (accelerator_units v) = false.

(** The outcome of restoring what was prepared. *)
Definition restores (w1 : ClusterSnapshot) (r1 : planReservation) : Prop :=
  (w1 = w ∨ lists_differ (allocations w1) (allocations w)) ∧
  ∀ w2, same_state w1 w2 →
    (∃ w3, restoreMutationStateFromBeforeImage w2 plan r1 = Ok w3 ∧ restored w w3) ∨
    (restoreMutationStateFromBeforeImage w2 plan r1 = Err ErrInsufficientResource ∧ accelerator_stuck w2).

(** The target a restore looks up is the one that was prepared. *)
Lemma restore_target a :
  target_id action = "" ∨ target_id action = allocation_id a →
  match target_id action with "" => allocation_id a | String c s => String c s end = allocation_id a.
Proof using. intros [->| ->]; [done|]. by destruct (allocation_id a). Qed.

Lemma lifecycle_restores w1 r1 :
  mergeableLifecycleAction (action_type action) = true →
  reserveLifecycleOnlyAction w action affected r = Ok (w1, r1) → restores w1 r1.
Proof.
  intros Ht (a & Ha & [= <- <-])%bind_Ok. split; [by left|]. intros w2 (E1 & E2 & E3). left.
  unfold restoreMutationStateFromBeforeImage. rewrite Hplan. destruct Hr as (Hb & Hids & Hpend). exists w2. split.
  - destruct (action_type action); try done; cbn; by rewrite Hpend.
  - apply restored_set; [rewrite E1; apply shifted_refl|done|done].
Qed.

Lemma release_restores w1 r1 :
  action_type action = ACTION_TYPE_RELEASE → reserveReleaseAction w plan action affected r = Ok (w1, r1) → restores w1 r1.
Proof.
  intros Ht (a & Ha & H2)%bind_Ok. apply bind_Ok in H2 as ([i a'] & Hf & H2).
  destruct (active_target_spec _ _ _ _ _ Haff Ha) as (j & Hj & Hact & Htgt).
  unfold findAllocationMutable in Hf. rewrite Hj in Hf. injection Hf as <- <-.
  pose proof (findAllocation_lookup _ _ _ _ Hj) as [Hi _]. destruct Hr as (Hb & Hids & Hpend). injection H2 as <- Er.
  assert (Hr1 : allocationIDs r1 = [allocation_id a] ∧ beforeSnapshot r1 = w ∧ pendingUnits r1 = []).
  { rewrite <-Er. case_decide; cbn; by rewrite Hids. }
  destruct Hr1 as (Hids1 & Hb1 & Hp1). split.
  - right. right. exists j, (set_state ALLOCATION_STATE_RELEASING a), a. split_and!; [|done| |].
    + cbn. by rewrite list_lookup_alter_eq, Hi.
    + unfold allocation_Equal. rewrite bool_decide_eq_false_2; [done|]. simpl. rewrite Hact. by intros [= ].
    + unfold allocation_Equal. rewrite bool_decide_eq_false_2; [done|]. simpl. rewrite Hact. by intros [= ].
  - intros w2 (E1 & E2 & E3). left. unfold restoreMutationStateFromBeforeImage. rewrite Hplan, Ht.
    rewrite Hids1, Hb1, Hp1. rewrite (restore_target a Htgt).
    rewrite (allocation_map_lookup _ _ _ _ (ok_allocations w Hw) Hj), E2. cbn [allocations update_allocation set_field].
    rewrite (findAllocation_alter _ (set_state ALLOCATION_STATE_RELEASING) j _ _ _ (λ _, eq_refl) Hj). cbn [mbind Result_bind]. eexists. split; [reflexivity|].
    cbn. apply restored_set; cbn; [rewrite E1; apply shifted_refl| |done].
    rewrite E2. cbn. rewrite alter_alter. apply alter_id. intros b Hb'. rewrite Hi in Hb'. injection Hb' as <-. by destruct a.
Qed.
Lemma resources_Equal_proj proj a b : proj ∈ integer_resources → resources_Equal a b = true → proj a = proj b.
Proof using.
  intros Hp H. unfold resources_Equal in H. bool_props. revert proj Hp. by apply integer_cases.
Qed.

Lemma resources_Equal_sym a b : resources_Equal a b = resources_Equal b a.
Proof using.
  unfold resources_Equal. rewrite (Z.eqb_sym (cpu_millis a)), (Z.eqb_sym (memory_bytes a)),
    (Z.eqb_sym (ephemeral_storage_bytes a)), (Z.eqb_sym (network_bandwidth_bps a)).
  unfold double_Equal. rewrite (andb_comm (IsNaN (accelerator_units a))).
  by rewrite feqb_sym.
Qed.

(** What a resize puts back. *)
Definition resize_back (previous a : Allocation) : Allocation :=
  a <| al_resources := al_resources previous |> <| al_intent_version := al_intent_version previous |>.

Lemma resize_restores_tail a cur target i b r1 w2 :
  action_type action = ACTION_TYPE_RESIZE → action_binding action ≫= bi_resources = Some target →
  findAllocation (allocations w) (allocation_id a) = Some (i, a) → al_resources a = Some cur →
  (target_id action = "" ∨ target_id action = allocation_id a) →
  allocationIDs r1 = [allocation_id a] ∧ beforeSnapshot r1 = w ∧ pendingUnits r1 = [] →
  findAllocation (allocations w2) (allocation_id a) = Some (i, b) →
  alter (resize_back a) i (allocations w2) = allocations w → pending_units w2 = pending_units w →
  shifted (λ proj id, if decide (id ∈ al_device_ids a)
    then proj (positiveResourceDelta cur target) - proj (positiveResourceDelta target cur) else 0) (devices w) (devices w2) →
  (∀ proj d, proj ∈ integer_resources → d ∈ devices w → device_id d ∈ al_device_ids a →
     proj (positiveResourceDelta target cur) ≤ device_amount proj d) →
  (∃ w3, restoreMutationStateFromBeforeImage w2 plan r1 = Ok w3 ∧ restored w w3) ∨
  (restoreMutationStateFromBeforeImage w2 plan r1 = Err ErrInsufficientResource ∧ accelerator_stuck w2).
Proof.
  intros Ht Hb Hi Hcur Htgt (Hids & Hbef & Hpend) Hi2 Hback Hpu Hsh Hfit.
  pose proof (findAllocation_lookup _ _ _ _ Hi) as [Hin _]. apply list_elem_of_lookup_2 in Hin.
  unfold restoreMutationStateFromBeforeImage. rewrite Hplan, Ht, Hids, Hbef, Hpend, (restore_target a Htgt).
  rewrite (allocation_map_lookup _ _ _ _ (ok_allocations w Hw) Hi), Hi2, Hb, Hcur. cbn [default from_option id].
  pose proof (ok_resources w Hw a cur Hin Hcur) as Hc. pose proof (Hbinding target Hb) as Htg.
  destruct (reverse_shifted w w2 (al_device_ids a) (positiveResourceDelta target cur) (positiveResourceDelta cur target))
    as [(w3 & -> & Hsh3 & Hw3)|[-> (d & v & Hd & Hv & Hacc)]]; try done.
  - by apply (ok_distinct w Hw).
  - by apply (ok_placed w Hw).
  - by apply delta_ok.
  - by apply delta_ok.
  - left. cbn [mbind Result_bind]. eexists. split; [reflexivity|]. apply restored_set; [done| |].
    + cbn. rewrite <-Hback, Hw3. cbn. unfold resize_back. cbn. by rewrite Hcur.
    + cbn. by rewrite Hw3.
  - right. split; [done|]. exists d, v, (accelerator_units (positiveResourceDelta cur target)).
    split_and!; [done|done| |done]. right. by exists a, cur, target.
Qed.

Lemma resize_restores w1 r1 :
  action_type action = ACTION_TYPE_RESIZE → reserveResizeAction w plan action affected r = Ok (w1, r1) → restores w1 r1.
Proof.
  intros Ht (a & Ha & H2)%bind_Ok.
  destruct (active_target_spec _ _ _ _ _ Haff Ha) as (i & Hi & _ & Htgt).
  pose proof (findAllocation_lookup _ _ _ _ Hi) as [Hil _]. pose proof (list_elem_of_lookup_2 _ _ _ Hil) as Hin.
  destruct (action_binding action ≫= bi_resources) as [target|] eqn:Hb in H2; [|done].
  destruct (al_resources a) as [cur|] eqn:Hcur; [|done]. apply bind_Ok in H2 as (p & Hf & H2).
  unfold findAllocationMutable in Hf. rewrite Hi in Hf. injection Hf as <-. cbn [fst snd] in H2.
  destruct Hr as (Hbef & Hids & Hpend).
  pose proof (ok_resources w Hw a cur Hin Hcur) as Hc. pose proof (Hbinding target Hb) as Htg.
  destruct (resources_Equal target cur) eqn:He.
  - injection H2 as <- <-. split; [by left|]. intros w2 (E1 & E2 & E3).
    assert (Hz : ∀ proj, proj ∈ integer_resources →
      proj (positiveResourceDelta cur target) = 0 ∧ proj (positiveResourceDelta target cur) = 0).
    { intros proj Hp. rewrite !delta_proj, !positiveUint64Delta_spec by done.
      rewrite (resources_Equal_proj proj _ _ Hp He). lia. }
    apply (resize_restores_tail a cur target i a); try done.
    + split_and!; [cbn; by rewrite Hids|done|done].
    + by rewrite E2.
    + rewrite E2. apply alter_id. intros b Hb'. rewrite Hil in Hb'. injection Hb' as <-. by destruct a.
    + rewrite E1. eapply shifted_ext; [|apply shifted_refl]. intros proj d Hp _. cbv beta.
      destruct (Hz proj Hp) as [-> ->]. by case_decide.
    + intros proj d Hp Hd _. destruct (Hz proj Hp) as [_ ->]. unfold device_amount.
      destruct (allocatable d) as [v|] eqn:Hv; [|done]. pose proof (ok_vectors w Hw) as Hok. rewrite Forall_forall in Hok.
      pose proof (Hok d Hd v Hv proj Hp). unfold is_u64 in *. simpl. lia.
  - apply bind_Ok in H2 as ([] & Hchk & H2). apply bind_Ok in H2 as (ds & Hup & H2). injection H2 as <- <-.
    apply check_devices_Ok in Hchk as [_ Hfits].
    assert (Hfit : ∀ proj d v, proj ∈ integer_resources → d ∈ devices w → device_id d ∈ al_device_ids a →
      allocatable d = Some v → proj (positiveResourceDelta target cur) ≤ proj v).
    { intros proj d v Hp Hd Hid Hv. apply list_elem_of_lookup in Hd as [k Hk].
      apply fits_le; [done|]. by eapply (Hfits k d v Hk Hid (ok_devices w Hw)). }
    split.
    + right. right. exists i, (a <| al_resources := Some target |> <| al_intent_version := pl_intent_version plan |>), a.
      split_and!; [|done| |].
      * cbn. by rewrite list_lookup_alter_eq, Hil.
      * unfold allocation_Equal. apply andb_false_iff. right. simpl. by rewrite Hcur.
      * unfold allocation_Equal. apply andb_false_iff. right. simpl. rewrite Hcur. change (resources_Equal cur target = false). by rewrite resources_Equal_sym.
    + intros w2 (E1 & E2 & E3). apply (resize_restores_tail a cur target i
        (a <| al_resources := Some target |> <| al_intent_version := pl_intent_version plan |>)); try done.
      * split_and!; [cbn; by rewrite Hids|done|done].
      * rewrite E2. cbn. rewrite (findAllocation_alter _ _ i _ i a); [by rewrite decide_True|done|done].
      * rewrite E2. cbn. rewrite alter_alter. apply alter_id. intros b Hb'. rewrite Hil in Hb'. injection Hb' as <-. by destruct a.
      * rewrite E1. cbn. apply (update_devices_shifted _ (λ proj,
          proj (positiveResourceDelta cur target) - proj (positiveResourceDelta target cur))) in Hup; [done|..].
        -- by apply ok_devices.
        -- by apply (ok_distinct w Hw).
        -- intros d v Hd Hid Hv proj Hp. pose proof (Hfit proj d v Hp Hd Hid Hv) as Hle.
           pose proof (ok_below w Hw proj d Hp Hd) as Hcap. pose proof (ok_taken w Hw a cur d proj Hp Hin Hcur Hd Hid) as Htk.
           unfold device_amount in Hcap, Htk. rewrite Hv in Hcap, Htk. simpl in Hcap, Htk.
           pose proof (ok_vectors w Hw) as Hok. rewrite Forall_forall in Hok. pose proof (Hok d Hd v Hv proj Hp).
           pose proof (Hc proj Hp). pose proof (Htg proj Hp).
           rewrite !delta_proj, !positiveUint64Delta_spec in * by done. unfold is_u64 in *.
           rewrite exchange_proj; [| |unfold is_u64| | |]; rewrite ?delta_proj, ?positiveUint64Delta_spec by done; try done; lia.
      * intros proj d Hp Hd Hid. unfold device_amount. destruct (allocatable d) as [v|] eqn:Hv; simpl.
        { by eapply Hfit. }
        pose proof (ok_placed w Hw a Hin) as Hpl. rewrite Forall_forall in Hpl.
        destruct (Hpl _ Hid) as (k & e & v & Hfe & Hve). apply findDevice_lookup in Hfe as [Hk Heq].
        apply list_elem_of_lookup in Hd as [k2 Hk2].
        destruct (NoDup_device _ _ _ _ _ (ok_devices w Hw) Hk Hk2 Heq) as [_ ->]. congruence.
Qed.

Lemma replacement_restores (sameDevice : bool) w1 r1 :
  action_type action = (if sameDevice then ACTION_TYPE_RECREATE else ACTION_TYPE_REBIND) →
  reserveReplacementAction allocationID w plan action affected r now sameDevice = Ok (w1, r1) → restores w1 r1.
Proof.
  intros Ht (a & Ha & H2)%bind_Ok. destruct (action_binding action) as [b|] eqn:Hb in H2; [|done].
  destruct (bi_resources b) as [res|] eqn:Hres; [|done]. destruct (bi_device_ids b) as [|id0 ids0] eqn:Hids0; [done|].
  rewrite <-Hids0 in H2. destruct (negb _) in H2; [done|]. destruct (sameDevice && _) in H2; [done|].
  apply bind_Ok in H2 as (ds & Hds & H2). cbv zeta in H2. case_bool_decide as Hnew; [done|]. injection H2 as <- <-.
  set (nid := allocationID (binding_id b)) in *. destruct Hr as (Hbef & Hids & Hpend).
  assert (Hid : nid ∉ allocation_id <$> allocations w).
  { apply findAllocation_None. destruct (findAllocation (allocations w) nid); [|done]. destruct Hnew. by eexists. }
  split; [right; left; cbn; rewrite length_app; simpl; lia|]. intros w2 (E1 & E2 & E3).
  unfold restoreMutationStateFromBeforeImage. rewrite Hplan, Ht. cbn [pendingUnits allocationIDs beforeSnapshot
    add_allocation_ids rememberDeviceAllocatable set_field].
  assert (Hback : removeAllocationsByID (allocations w2) [nid] = allocations w) by (rewrite E2; by apply remove_new).
  destruct sameDevice.
  - left. eexists. split; [reflexivity|]. cbn. rewrite Hpend, Hids. cbn. injection Hds as <-.
    apply restored_set; cbn; [rewrite E1; apply shifted_refl|done|done].
  - apply bind_Ok in Hds as ([] & Hchk & Hup). apply check_devices_Ok in Hchk as [Hvec Hfits].
    assert (Hrv : rv_ok res) by (apply Hbinding; by rewrite Hb).
    assert (Hfit : ∀ proj d v, proj ∈ integer_resources → d ∈ devices w → device_id d ∈ bi_device_ids b →
      allocatable d = Some v → proj res ≤ proj v).
    { intros proj d v Hp Hd Hin Hv. apply list_elem_of_lookup in Hd as [k Hk].
      apply fits_le; [done|]. by eapply (Hfits k d v Hk Hin (ok_devices w Hw)). }
    assert (Hnd : NoDup (bi_device_ids b)) by (by rewrite Hb in Hdistinct).
    apply (update_devices_shifted _ (λ proj, 0 - proj res)) in Hup; [|by apply (ok_devices w Hw)|done|].
    2:{ intros d v Hd Hin Hv proj Hp. rewrite subtract_proj by done. pose proof (Hfit proj d v Hp Hd Hin Hv).
        pose proof (ok_vectors w Hw) as Hok. rewrite Forall_forall in Hok. pose proof (Hok d Hd v Hv proj Hp).
        pose proof (Hrv proj Hp). rewrite wrap64_id; unfold is_u64 in *; lia. }
    rewrite Hb. cbn [from_option mbind option_bind]. rewrite Hres.
    change (reverseDeviceResourceDelta w2 (bi_device_ids b) (Some res) None)
      with (reverseDeviceResourceDelta w2 (bi_device_ids b) (Some res) (Some zero_resources)).
    assert (Hzero : rv_ok zero_resources).
    { intros proj. revert proj. apply integer_cases; unfold is_u64, two64; simpl; lia. }
    destruct (reverse_shifted w w2 (bi_device_ids b) res zero_resources)
      as [(w3 & -> & Hsh3 & Hw3)|[-> (d & v & Hd & Hv & Hacc)]]; try done.
    + rewrite E1. eapply shifted_ext; [|exact Hup]. intros proj d Hp _. cbv beta.
      case_decide; [|done]. revert proj Hp. by apply integer_cases.
    + intros proj d Hp Hd Hin. unfold device_amount. destruct (allocatable d) as [v|] eqn:Hv; simpl; [by eapply Hfit|].
      rewrite Forall_forall in Hvec. destruct (Hvec _ Hin) as (k & e & v & Hfe & Hve).
      apply findDevice_lookup in Hfe as [Hk Heq]. apply list_elem_of_lookup in Hd as [k2 Hk2].
      destruct (NoDup_device _ _ _ _ _ (ok_devices w Hw) Hk Hk2 Heq) as [_ ->]. congruence.
    + left. cbn [mbind Result_bind]. eexists. split; [reflexivity|]. rewrite Hpend, Hids. cbn.
      apply restored_set; cbn; [done|rewrite Hw3; cbn; done|rewrite Hw3; done].
    + right. split; [done|]. exists d, v, f0. split_and!; [done|done|by left|done].
Qed.

Lemma apply_restores w1 r1 :
  applyMutationReservation allocationID w plan action affected r now = Ok (w1, r1) → restores w1 r1.
Proof.
  unfold applyMutationReservation. destruct (action_type action) eqn:Ht; try done.
  all: first [ by apply lifecycle_restores; rewrite Ht | by apply resize_restores | by apply release_restores
             | by apply (replacement_restores false) | by apply (replacement_restores true) ].
Qed.
End Changes.

(** ** [proto.Equal] of snapshots is reflexive *)

Lemma device_Equal_refl d : device_Equal d d = true.
Proof.
  unfold device_Equal. rewrite bool_decide_eq_true_2 by done.
  rewrite !option_Equal_refl; [done|apply resources_Equal_refl|apply resources_Equal_refl|apply capabilities_Equal_refl].
Qed.

Lemma allocation_Equal_refl a : allocation_Equal a a = true.
Proof.
  unfold allocation_Equal. rewrite !bool_decide_eq_true_2 by done. apply option_Equal_refl, resources_Equal_refl.
Qed.

Lemma pending_Equal_refl u : pending_Equal u u = true.
Proof.
  unfold pending_Equal. rewrite !bool_decide_eq_true_2 by done.
  rewrite !option_Equal_refl; [done|apply resources_Equal_refl|apply capabilities_Equal_refl].
Qed.

Lemma snapshot_Equal_refl w : snapshot_Equal w w = true.
Proof.
  unfold snapshot_Equal. rewrite bool_decide_eq_true_2 by done.
  rewrite !list_Equal_refl; [done|apply pending_Equal_refl|apply allocation_Equal_refl|apply device_Equal_refl].
Qed.

(** ** Whole plans *)

Lemma apply_keeps allocationID w plan action affected r now w1 r1 :
  applyMutationReservation allocationID w plan action affected r now = Ok (w1, r1) →
  res_plan r1 = res_plan r ∧ finalized r1 = finalized r ∧ beforeSnapshot r1 = beforeSnapshot r.
Proof.
  unfold applyMutationReservation, reserveReleaseAction, reserveLifecycleOnlyAction, reserveResizeAction,
    reserveRebindAction, reserveRecreateAction, reserveReplacementAction. intros H.
  repeat match type of H with
         | context [match action_type ?a with _ => _ end] => destruct (action_type a); try done
         | (_ ≫= _) = Ok _ => apply bind_Ok in H as (? & ? & H)
         | (let _ := _ in _) = Ok _ => cbv zeta in H
         | (if ?b then _ else _) = Ok _ => destruct b; try done
         | (match ?x with _ => _ end) = Ok _ => destruct x; try done
         | Ok _ = Ok _ => injection H as <- <-
         end; try done.
  all: by case_decide.
Qed.

Lemma same_state_refl w : same_state w w.
Proof. done. Qed.

Lemma same_state_restored w w1 w2 : same_state w1 w2 → restored w w1 → restored w w2.
Proof. unfold restored. intros (E1 & E2 & E3) (? & ? & ?). rewrite E1, E2, E3. by split_and!. Qed.

Lemma commit_changed_state l now w1 :
  w1 = snapshot l ∨ lists_differ (allocations w1) (allocations (snapshot l)) →
  same_state w1 (snapshot (commit_changed l now w1)).
Proof.
  intros H. unfold commit_changed. destruct (snapshot_Equal w1 (snapshot l)) eqn:E; [|done].
  destruct H as [->|H]; [done|]. apply lists_differ_Equal in H. congruence.
Qed.

Lemma commit_changed_restored l now w w1 w3 :
  w1 = w ∨ lists_differ (allocations w1) (allocations w) → same_state w1 (snapshot l) → restored w w3 →
  restored w (snapshot (commit_changed l now w3)).
Proof.
  intros H (E1 & E2 & E3) Hres. unfold commit_changed. destruct (snapshot_Equal w3 (snapshot l)) eqn:E; [|done].
  destruct H as [->|H].
  - apply restored_set; [rewrite E1; apply shifted_refl|done|done].
  - destruct Hres as (_ & Ha & _). assert (Hd : lists_differ (allocations w3) (allocations (snapshot l))).
    { rewrite Ha, E2. by apply lists_differ_sym. }
    apply lists_differ_Equal in Hd. congruence.
Qed.

Lemma commit_changed_revision l now w : 0 ≤ revision (snapshot l) < max_uint64 →
  revision (snapshot l) ≤ revision (snapshot (commit_changed l now w)) ≤ revision (snapshot l) + 1.
Proof.
  intros H. unfold commit_changed. destruct (snapshot_Equal _ _); [lia|]. simpl.
  rewrite wrap64_id; [lia|]. unfold is_u64, max_uint64, two64 in *. lia.
Qed.

Lemma commit_changed_reservations l now w : reservations (commit_changed l now w) = reservations l.
Proof. unfold commit_changed. by destruct (snapshot_Equal _ _). Qed.

Lemma merge_lifecycle_mergeable affected acts seen seen' :
  merge_lifecycle affected acts seen = Ok seen' →
  forallb (λ a, match a with Some a => mergeableLifecycleAction (action_type a) | None => false end) acts = true.
Proof.
  revert seen. induction acts as [|[a|] acts IH]; intros seen; simpl; [done| |done].
  destruct (mergeableLifecycleAction (action_type a)); [|done]. cbn [negb]. intros (b & _ & H2)%bind_Ok.
  destruct (negb _) in H2; [done|]. by apply IH in H2.
Qed.

Section Plans.
Context (allocationID : string → string).

(** The bindings of the actions of the plan are well formed. *)
Definition action_bindings_ok (plan : PlacementPlan) : Prop :=
  ∀ action, Some action ∈ actions plan →
    (∀ v, action_binding action ≫= bi_resources = Some v → rv_ok v) ∧
    NoDup (from_option bi_device_ids [] (action_binding action)).

(** What reserving a change prepares, and that finalising can restore it. *)
Lemma reserveChangePlan_prepares l now plan l' :
  snapshot_ok (snapshot l) → action_bindings_ok plan → reserveChangePlan allocationID l now plan = Ok l' →
  ∃ w1 r1, l' = add_reservation plan r1 (commit_changed l now w1) ∧ res_plan r1 = plan ∧ finalized r1 = false ∧
    (w1 = snapshot l ∨ lists_differ (allocations w1) (allocations (snapshot l))) ∧ actions plan ≠ [] ∧
    ∀ w2, same_state w1 w2 →
      (∃ w3, restoreMutationStateFromBeforeImage w2 plan r1 = Ok w3 ∧ restored (snapshot l) w3) ∨
      (restoreMutationStateFromBeforeImage w2 plan r1 = Err ErrInsufficientResource ∧
       ∃ action, actions plan = [Some action] ∧ accelerator_stuck (snapshot l) action w2).
Proof.
  intros Hw Hb. unfold reserveChangePlan. destruct (actions plan) as [|[action|] [|a2 acts]] eqn:Hacts; try done.
  - case_bool_decide; [done|]. intros (affected & Haff & H2)%bind_Ok. apply bind_Ok in H2 as ([] & _ & H2).
    destruct (_ =? _); [done|]. apply bind_Ok in H2 as ([w1 r1] & Happ & [= <-]). exists w1, r1. cbn [fst snd].
    pose proof (apply_keeps _ _ _ _ _ _ _ _ _ Happ) as (Hp & Hf & _).
    destruct (Hb action) as [Hb1 Hb2]; [rewrite Hacts; by left|].
    destruct (apply_restores allocationID (snapshot l) plan action (new_reservation l plan) now affected Hw Haff Hacts
      ltac:(by split_and!) Hb1 Hb2 w1 r1 Happ) as [Hd Hres].
    split_and!; [done|done|done|done|done|]. intros w2 Hw2. destruct (Hres w2 Hw2) as [?|[? ?]]; [by left|].
    right. split; [done|]. by exists action.
  - unfold reserveLifecyclePlanLocked. intros (affected & _ & H2)%bind_Ok. apply bind_Ok in H2 as ([] & _ & H2).
    apply bind_Ok in H2 as (seen & Hm & [= <-]). apply merge_lifecycle_mergeable in Hm.
    exists (snapshot l), (add_allocation_ids (sort_strings (fst <$> map_to_list seen)) (new_reservation l plan)).
    split_and!; [|done|done|by left|done|].
    + unfold commit_changed. destruct (snapshot_Equal _ _) eqn:E; [done|].
      exfalso. revert E. apply not_false_iff_true. apply snapshot_Equal_refl.
    + intros w2 Hw2. left. exists w2. unfold restoreMutationStateFromBeforeImage. rewrite Hacts, <-Hacts, Hm.
      split; [done|]. eapply same_state_restored; [exact Hw2|apply restored_refl].
  - unfold reserveLifecyclePlanLocked. intros (affected & _ & H2)%bind_Ok. apply bind_Ok in H2 as ([] & _ & H2).
    apply bind_Ok in H2 as (seen & Hm & _). by rewrite Hacts in Hm.
Qed.

(** The mutation purposes other than preemption. *)
Definition changes_allocations (plan : PlacementPlan) : Prop :=
  isMutationPurpose (purpose plan) = true ∧ purpose plan ≠ PLAN_PURPOSE_PREEMPTION.

Lemma changes_purpose plan : changes_allocations plan → (effectivePlanPurpose plan).1 = purpose plan.
Proof. intros [Hm _]. unfold effectivePlanPurpose. by destruct (purpose plan). Qed.

Lemma ReservePlan_change l now plan l' :
  changes_allocations plan → ReservePlan allocationID l now (Some plan) = Ok l' →
  reserveChangePlan allocationID l now plan = Ok l'.
Proof.
  intros Hc. pose proof (changes_purpose _ Hc) as Hp. destruct Hc as [Hm Hne]. unfold ReservePlan, reservePlanLocked.
  case_bool_decide; [done|]. destruct (reservations l !! plan_id plan); [done|]. intros ([] & _ & H2)%bind_Ok.
  rewrite Hp, Hm in H2. unfold reserveMutationPlanLocked in H2. by rewrite decide_False in H2.
Qed.

(** C1: An aborted mutation leaves no trace.  When a plan that releases, resizes,
    rebinds, recreates or changes the life cycle of allocations was reserved, and its
    execution failed with evidence that confirms restoration, finalising it brings
    back the devices (their integer resources, capacity and health), the allocations
    and the pending units of before, and retains nothing.  The only way this can fail
    is that accelerators which preparing handed back are no longer free. *)
Theorem mutation_abort_restores l now now' plan results l' :
  changes_allocations plan → 0 ≤ revision (snapshot l) < max_uint64 - 1 →
  snapshot_ok (snapshot l) → action_bindings_ok plan →
  ReservePlan allocationID l now (Some plan) = Ok l' → mutationResultConfirmsRestoration plan results = true →
  (∃ l'' r, FinalizePlanResults allocationID l' now' (Some plan) false results = Ok l'' ∧
     restored (snapshot l) (snapshot l'') ∧
     reservations l'' !! plan_id plan = Some r ∧ finalized r = true ∧ retainedAllocationIDs r = []) ∨
  (FinalizePlanResults allocationID l' now' (Some plan) false results = Err ErrInsufficientResource ∧
   ∃ action, actions plan = [Some action] ∧ accelerator_stuck (snapshot l) action (snapshot l')).
Proof.
  intros Hc Hrev Hw Hb Hok Hconf. pose proof (changes_purpose _ Hc) as Hp. apply ReservePlan_change in Hok; [|done].
  destruct Hc as [Hm Hne].
  destruct (reserveChangePlan_prepares _ _ _ _ Hw Hb Hok) as (w1 & r1 & -> & Hplan & Hfin & Hd & Hacts & Hres).
  pose proof (commit_changed_state l now w1 Hd) as Hstate.
  unfold FinalizePlanResults, finalizePlanResultsLocked. cbn [reservations add_reservation set_field].
  rewrite lookup_insert_eq, Hplan, plan_Equal_refl. cbn [negb]. rewrite Hp, decide_False, Hm, Hfin by done.
  unfold finalizeMutationPlanResultsLocked. rewrite bool_decide_eq_false_2 by done.
  unfold mutationOutcome. rewrite Hconf. cbn [restore retainedIDs].
  change (snapshot (add_reservation plan r1 ?x)) with (snapshot x).
  destruct (Hres _ Hstate) as [(w3 & -> & Hw3)|[-> Hstuck]]; [|by right]. left. cbn [mbind Result_bind].
  pose proof (commit_changed_revision l now w1 ltac:(unfold max_uint64 in *; lia)) as Hrev1.
  unfold commit_finalized. change (snapshot (add_reservation plan r1 ?x)) with (snapshot x).
  rewrite (proj2 (Z.eqb_neq _ _)) by (unfold max_uint64 in *; lia). cbn [andb mbind Result_bind].
  eexists _, _. split; [reflexivity|]. split; [|split; [apply lookup_insert_eq|done]].
  cbn [fst add_reservation snapshot set_field]. by apply (commit_changed_restored _ _ _ w1).
Qed.

(** A mutation locks its targets: reserving one succeeds only if no other plan's
    open reservation holds an allocation it affects. *)
Theorem mutation_targets_exclusive l now plan l' id r :
  reserveMutationPlanLocked allocationID l now plan = Ok l' →
  reservations l !! id = Some r → id ≠ plan_id plan → finalized r = false →
  ∀ a, a ∈ affected_allocation_ids plan → a ∉ allocationIDs r.
Proof.
  intros Hok Hr Hid Hf a Ha Hin.
  assert (Hun : ensureMutationTargetsUnlocked (reservations l) (plan_id plan) (affected_allocation_ids plan) = Ok tt).
  { unfold reserveMutationPlanLocked in Hok. case_decide.
    - unfold reservePreemptionPlanLocked in Hok. apply bind_Ok in Hok as (? & _ & Hok).
      apply bind_Ok in Hok as (? & _ & Hok). by apply bind_Ok in Hok as ([] & ? & _).
    - unfold reserveChangePlan in Hok. destruct (actions plan) as [|[action|] [|]]; try done;
        [case_bool_decide; [done|]|unfold reserveLifecyclePlanLocked in Hok..];
        apply bind_Ok in Hok as (? & _ & Hok); by apply bind_Ok in Hok as ([] & ? & _). }
  apply guard_err_Ok in Hun. rewrite forallb_forall in Hun. specialize (Hun a ltac:(by apply list_elem_of_In)).
  apply negb_true_iff, bool_decide_eq_false in Hun. apply Hun. unfold locked_by_others.
  apply list_elem_of_In, in_concat. exists (allocationIDs r). split; [|by apply list_elem_of_In].
  apply list_elem_of_In. apply (list_elem_of_fmap_2 (λ p : string * planReservation, allocationIDs p.2) _ (id, r)).
  apply list_elem_of_filter. split; [done|]. by apply elem_of_map_to_list.
Qed.
End Plans.

(** ** Instances *)

Module MutationWitnesses.
Import ReservationWitnesses.

Definition source : Allocation := mkAllocation "x" "e" "s" 1 "j" "u" ["d"] (Some (rv 2 3)) ALLOCATION_STATE_ACTIVE
  None None "" "" DATA_KIND_LIVE 1 "" "" "" "" None "" "".
Definition device (c m : Z) : Device := mkDevice "d" DEVICE_HEALTH_READY (Some (mkResources 9 9 f1 0 0)) (Some (mkResources c m f1 0 0)) None ∅ Semantics.DEVICE_KIND_GPU.
Definition resize : Action := mkAction "a" ACTION_TYPE_RESIZE "x"
  (Some (mkBinding "b" "u" ["d"] (Some (rv 4 1)) "" 1 "")) f0 None "" 1 "" no_contract.
Definition change : PlacementPlan := mkPlan "p" "e" "s" 1 7 [] [Some resize] None None "" "" "" DATA_KIND_LIVE 1 "" "j"
  PLAN_PURPOSE_REBALANCE ROLLBACK_POLICY_NOT_REQUIRED [] ["x"] "".
Definition before : Ledger :=
  mkLedger (mkSnapshot "" 7 None [device 5 5] [source] [] ∅ "") (intents ledger) ∅.
Definition during : Ledger := match ReservePlan aid before 5 (Some change) with Ok l => l | Err _ => before end.

Lemma before_ok : snapshot_ok (snapshot before).
Proof.
  split; cbn [before snapshot devices allocations].
  - apply (bool_decide_unpack _). by vm_compute.
  - apply (bool_decide_unpack _). by vm_compute.
  - apply Forall_singleton. intros a [= <-]. by apply rv_small.
  - intros proj d Hp ->%list_elem_of_singleton. revert proj Hp. apply integer_cases; unfold device_amount; simpl; lia.
  - intros a r ->%list_elem_of_singleton [= <-]. by apply rv_small.
  - intros a ->%list_elem_of_singleton. apply (bool_decide_unpack _). by vm_compute.
  - intros a ->%list_elem_of_singleton. apply Forall_singleton. by eexists _, _, _.
  - intros a r d proj Hp ->%list_elem_of_singleton [= <-] ->%list_elem_of_singleton _. revert proj Hp.
    apply integer_cases; unfold device_amount; simpl; lia.
Qed.

Lemma mutation_abort_restores_witness :
  ∃ l'', FinalizePlanResults aid during 6 (Some change) false failed = Ok l'' ∧ restored (snapshot before) (snapshot l'').
Proof.
  destruct (mutation_abort_restores aid before 5 6 change failed during) as [(l'' & r & H1 & H2 & _)|[H _]].
  - done.
  - unfold max_uint64. simpl. lia.
  - apply before_ok.
  - intros action [= ->]%list_elem_of_singleton. split; [intros v [= <-]; by apply rv_small|].
    apply (bool_decide_unpack _). by vm_compute.
  - by vm_compute.
  - by vm_compute.
  - by exists l''.
  - by vm_compute in H.
Defined.

Lemma mutation_targets_exclusive_witness :
  is_ok (reserveMutationPlanLocked aid before 5 change) = true ∧
  let r := mkReservation change (snapshot before) ∅ [] ["y"] false false [] in
  let l := before <| reservations := {["q" := r]} |> in
  ∃ l', reserveMutationPlanLocked aid l 5 change = Ok l' ∧ "x" ∉ allocationIDs r.
Proof.
  split; [by vm_compute|]. intros r l.
  destruct (reserveMutationPlanLocked aid l 5 change) as [l'|] eqn:E; [|by vm_compute in E]. exists l'. split; [done|].
  apply (mutation_targets_exclusive aid l 5 change l' "q" r E); [by vm_compute|done|done|by left].
Defined.
End MutationWitnesses.
