(* ===== verification/Transaction.v ===== *)
(** * Placement transactions ([scheduler-go/state/transaction.go])

    A transaction ties a placement plan's reservation to the provider's progress.
    Records carry a compare-and-swap generation, reserve through the ledger of
    [Reservation.v], advance along a fixed state machine and become immutable once
    terminal.  The three string types of the file are strings here too.  Each
    operation runs under the store's lock; it takes the readings of the store's
    clock it makes, in order, and returns the store and the record it hands out. *)

From Stdlib Require Import ZArith Lia.
From S2P Require Import Prelude GoStrings GoTime GoFloat ClusterModel SchedulerState Mutation Preemption Reservation.
From stdpp Require Import options.

Local Open Scope Z_scope.

(** ** Data *)

Abbreviation TransactionState := string (only parsing).
Definition TransactionStateUnknown : TransactionState := "unknown".
Definition TransactionStateProposed : TransactionState := "proposed".
Definition TransactionStateReserved : TransactionState := "reserved".
Definition TransactionStatePrepared : TransactionState := "prepared".
Definition TransactionStateApplying : TransactionState := "applying".
Definition TransactionStateCommitted : TransactionState := "committed".
Definition TransactionStatePrepareFailed : TransactionState := "prepare_failed".
Definition TransactionStateApplyFailed : TransactionState := "apply_failed".
Definition TransactionStateCompensating : TransactionState := "compensating".
Definition TransactionStateAborted : TransactionState := "aborted".
Definition TransactionStateDegraded : TransactionState := "degraded".

Abbreviation EffectStatus := string (only parsing).
Abbreviation FailureClass := string (only parsing).

Record TransactionStep := mkTransactionStep {
  StepIndex : Z;
  ActionID : string;
  IdempotencyKey : string;
  Status : EffectStatus;
  ts_Revision : Z;
  ts_ErrorCode : string;
  ts_ErrorMessage : string;
  CompensationAttempted : bool;
  Compensated : bool;
}.

Record Receipt := mkReceipt {
  Phase : string;
  ObservedRevision : Z;
  Steps : list TransactionStep;
  rc_ErrorCode : string;
  rc_ErrorMessage : string;
  PreparedAt : option Timestamp;
  rc_UpdatedAt : option Timestamp;
}.

Record TransactionRecord := mkTransactionRecord {
  TransactionID : string;
  PlanID : string;
  Plan : PlacementPlan;
  Generation : Z;
  ProviderGeneration : Z;
  State : TransactionState;
  ReservationHeld : bool;
  Terminal : bool;
  tr_FailureClass : FailureClass;
  tr_FailureReason : string;
  AffectedAllocationIDs : list string;
  tr_ProviderReceipt : option Receipt;
  tr_CreatedAt : option Timestamp;
  tr_UpdatedAt : option Timestamp;
  FinalizedAt : option Timestamp;
  FinalizedSucceeded : bool;
  RetainedAllocationIDs : list string;
}.

#[export] Instance eta_TransactionRecord : Eta TransactionRecord := λ r,
  mkTransactionRecord (TransactionID r) (PlanID r) (Plan r) (Generation r) (ProviderGeneration r) (State r)
    (ReservationHeld r) (Terminal r) (tr_FailureClass r) (tr_FailureReason r) (AffectedAllocationIDs r)
    (tr_ProviderReceipt r) (tr_CreatedAt r) (tr_UpdatedAt r) (FinalizedAt r) (FinalizedSucceeded r)
    (RetainedAllocationIDs r).

Record Store := mkStore {
  ledger : Ledger;
  transactions : gmap string TransactionRecord;
}.

#[export] Instance eta_Store : Eta Store := λ s, mkStore (ledger s) (transactions s).

Inductive TransactionError :=
| ErrTransactionNotFound
| ErrTransactionConflict
| ErrTransactionImmutable
| ErrTransactionLocked
| InvalidTransaction (message : string)
| StateFailure (e : StateError).

Definition from_state {A} (r : Result StateError A) : Result TransactionError A :=
  match r with Ok a => Ok a | Err e => Err (StateFailure e) end.

(** ** States *)

Definition isTerminalTransactionState (state : TransactionState) : bool :=
  bool_decide (state = TransactionStateCommitted) || bool_decide (state = TransactionStateAborted) ||
  bool_decide (state = TransactionStateDegraded) || bool_decide (state = TransactionStatePrepareFailed).

Definition terminalLocked (r : TransactionRecord) : bool := Terminal r || isTerminalTransactionState (State r).

(** The case of the [switch] for the state [from]: the states it may move to. *)
Definition successors (from : TransactionState) : list TransactionState :=
  if decide (from = TransactionStateProposed) then
    [TransactionStateReserved; TransactionStatePrepared; TransactionStatePrepareFailed]
  else if decide (from = TransactionStateReserved) then
    [TransactionStatePrepared; TransactionStatePrepareFailed]
  else if decide (from = TransactionStatePrepared) then
    [TransactionStateApplying; TransactionStateCompensating]
  else if decide (from = TransactionStateApplying) then
    [TransactionStateCommitted; TransactionStateApplyFailed; TransactionStateCompensating; TransactionStateDegraded]
  else if decide (from = TransactionStateApplyFailed) then
    [TransactionStateCompensating; TransactionStateDegraded]
  else if decide (from = TransactionStateCompensating) then
    [TransactionStateAborted; TransactionStateDegraded]
  else [].

Definition transactionStateAllowed (from to : TransactionState) : bool :=
  bool_decide (from = to) || bool_decide (to ∈ successors from).

(** ** Records *)

Definition validateTransactionRecord (r : TransactionRecord) : Result TransactionError unit :=
  let invalid message : TransactionError := InvalidTransaction ("state: " +:+ message) in
  _ ← guard_err (negb (bool_decide (TransactionID r = ""))) (invalid "transaction_id is required");
  _ ← guard_err (negb (bool_decide (plan_id (Plan r) = ""))) (invalid "transaction plan is required");
  _ ← guard_err (negb (bool_decide (PlanID r = ""))) (invalid "transaction plan_id is required");
  _ ← guard_err (bool_decide (PlanID r = plan_id (Plan r))) (invalid "transaction plan_id must match plan.plan_id");
  _ ← guard_err (negb (Generation r =? 0)) (invalid "transaction generation must be greater than zero");
  _ ← guard_err (negb (ProviderGeneration r =? 0))
        (invalid "transaction provider_generation must be greater than zero");
  _ ← guard_err (negb (bool_decide (State r = TransactionStateUnknown))) (invalid "transaction state is required");
  guard_err (forallb (λ id, negb (bool_decide (id = ""))) (AffectedAllocationIDs r))
    (invalid "affected allocation IDs must be non-empty").

(** The ids without the empty one, without duplicates, sorted. *)
Definition normalizeAllocationIDs (ids : list string) : list string :=
  sort_strings (elements (list_to_set (filter (λ id, id ≠ "") ids) : gset string)).

Definition overlapsAllocationIDs (left right : list string) : bool :=
  existsb (λ id, bool_decide (id ∈ left)) right.

(** Whether some other record in flight holds a reservation on one of the ids. *)
Definition transactionOverlapLocked (s : Store) (transactionID : string) (ids : list string) : bool :=
  existsb (λ '(id, r), negb (bool_decide (id = transactionID)) && ReservationHeld r && negb (terminalLocked r) &&
             overlapsAllocationIDs (AffectedAllocationIDs r) ids) (map_to_list (transactions s)).

Definition validateTransactionGeneration (actual expected : Z) : Result TransactionError unit :=
  guard_err (actual =? expected) ErrTransactionConflict.

(** [errors.Is(err, ErrPlanAlreadyReserved)]: the ledger the callers go on with. *)
Definition tolerate_reserved (l : Ledger) (r : Result StateError Ledger) : Result StateError Ledger :=
  match r with Err (ErrPlanAlreadyReserved _) => Ok l | r => r end.

Section Transaction.
Context (allocationID : string → string).

Definition affectedAllocationIDsForPlan (plan : PlacementPlan) : list string :=
  normalizeAllocationIDs
    (affected_allocation_ids plan ++
     ((λ b, allocationID (bindingID_of b)) <$> filter (λ b, bindingID_of b ≠ "") (bindings plan))).

Definition newTransactionRecord (plan : PlacementPlan) (generation : Z) (now : Timestamp) : TransactionRecord :=
  mkTransactionRecord (plan_id plan) (plan_id plan) plan generation 1 TransactionStateProposed false false "" ""
    (affectedAllocationIDsForPlan plan) None (Some now) (Some now) None false [].

(** ** Operations *)

Definition Outcome : Type := Result TransactionError (Store * TransactionRecord).

Definition CreateTransaction (s : Store) (now : Z) (plan : option PlacementPlan) (generation : Z) : Outcome :=
  match plan with
  | None => Err (StateFailure ErrInvalidIntent)
  | Some plan =>
      if bool_decide (plan_id plan = "") then Err (StateFailure ErrInvalidIntent) else
      let record := newTransactionRecord plan generation (timestamp_New now) in
      _ ← validateTransactionRecord record;
      match transactions s !! TransactionID record with
      | Some existing =>
          if plan_Equal (Plan existing) (Plan record) && (Generation existing =? generation)
          then Ok (s, existing) else Err ErrTransactionConflict
      | None => Ok (s <| transactions := <[TransactionID record := record]> (transactions s) |>, record)
      end
  end.

(** The reservation is taken; the record moves to [Reserved]. *)
Definition hold_reservation (s : Store) (key : string) (l : Ledger) (now : Z) (record : TransactionRecord) :
    Store * TransactionRecord :=
  let record := record <| ReservationHeld := true |> <| State := TransactionStateReserved |>
                       <| Generation := wrap64 (Generation record + 1) |>
                       <| tr_UpdatedAt := Some (timestamp_New now) |> in
  (mkStore l (<[key := record]> (transactions s)), record).

Definition BeginTransaction (s : Store) (created reserved updated : Z) (plan : option PlacementPlan)
    (generation : Z) : Outcome :=
  match plan with
  | None => Err (StateFailure ErrInvalidIntent)
  | Some plan =>
      if bool_decide (plan_id plan = "") then Err (StateFailure ErrInvalidIntent) else
      let record := newTransactionRecord plan generation (timestamp_New created) in
      _ ← validateTransactionRecord record;
      match transactions s !! TransactionID record with
      | Some existing =>
          if negb (plan_Equal (Plan existing) (Plan record)) then Err ErrTransactionConflict
          else Ok (s, existing)
      | None =>
          l ← from_state (tolerate_reserved (ledger s)
                (reservePlanLocked allocationID (ledger s) reserved (Plan record)));
          Ok (hold_reservation s (TransactionID record) l updated record)
      end
  end.

Definition ReserveTransaction (s : Store) (reserved updated : Z) (transactionID : string)
    (expectedGeneration : Z) : Outcome :=
  match transactions s !! transactionID with
  | None => Err ErrTransactionNotFound
  | Some record =>
      _ ← validateTransactionGeneration (Generation record) expectedGeneration;
      if terminalLocked record then Err ErrTransactionImmutable else
      if ReservationHeld record then Ok (s, record) else
      if negb (bool_decide (State record = TransactionStateProposed)) then Err ErrTransactionConflict else
      if transactionOverlapLocked s transactionID (AffectedAllocationIDs record) then Err ErrTransactionLocked else
      l ← from_state (tolerate_reserved (ledger s)
            (reservePlanLocked allocationID (ledger s) reserved (Plan record)));
      Ok (hold_reservation s transactionID l updated record)
  end.

Record TransactionAdvanceRequest := mkAdvance {
  ad_TransactionID : string;
  ad_ExpectedGeneration : Z;
  NextState : TransactionState;
  ad_FailureClass : FailureClass;
  ad_FailureReason : string;
  ad_ProviderReceipt : option Receipt;
}.

(** The record is already where the request wants it. *)
Definition advance_settled (record : TransactionRecord) (rq : TransactionAdvanceRequest) : bool :=
  bool_decide (State record = NextState rq) && bool_decide (tr_FailureClass record = ad_FailureClass rq) &&
  bool_decide (tr_FailureReason record = ad_FailureReason rq).

Definition advance_record (record : TransactionRecord) (rq : TransactionAdvanceRequest) (now : Z) : TransactionRecord :=
  record <| State := NextState rq |> <| tr_FailureClass := ad_FailureClass rq |>
         <| tr_FailureReason := ad_FailureReason rq |>
         <| tr_ProviderReceipt := match ad_ProviderReceipt rq with Some rc => Some rc | None => tr_ProviderReceipt record end |>
         <| Terminal := isTerminalTransactionState (NextState rq) |>
         <| Generation := wrap64 (Generation record + 1) |> <| tr_UpdatedAt := Some (timestamp_New now) |>.

Definition AdvanceTransaction (s : Store) (now : Z) (rq : TransactionAdvanceRequest) : Outcome :=
  if bool_decide (ad_TransactionID rq = "") then Err (InvalidTransaction "state: transaction_id is required") else
  if bool_decide (NextState rq = TransactionStateUnknown)
  then Err (InvalidTransaction "state: next transaction state is required") else
  match transactions s !! ad_TransactionID rq with
  | None => Err ErrTransactionNotFound
  | Some record =>
      _ ← validateTransactionGeneration (Generation record) (ad_ExpectedGeneration rq);
      if terminalLocked record then
        if advance_settled record rq then Ok (s, record) else Err ErrTransactionImmutable
      else if negb (transactionStateAllowed (State record) (NextState rq)) then Err ErrTransactionConflict
      else if advance_settled record rq && bool_decide (ad_ProviderReceipt rq = None) then Ok (s, record)
      else if ReservationHeld record &&
              transactionOverlapLocked s (ad_TransactionID rq) (AffectedAllocationIDs record)
      then Err ErrTransactionLocked
      else let record := advance_record record rq now in
           Ok (s <| transactions := <[ad_TransactionID rq := record]> (transactions s) |>, record)
  end.

Record TransactionFinalizeRequest := mkFinalize {
  fi_TransactionID : string;
  fi_ExpectedGeneration : Z;
  Succeeded : bool;
  Results : list (option ActionResult);
  FinalState : TransactionState;
  fi_FailureClass : FailureClass;
  fi_FailureReason : string;
  fi_ProviderReceipt : option Receipt;
}.

(** The state a finalised record ends in. *)
Definition final_state (rq : TransactionFinalizeRequest) (retained : list string) : TransactionState :=
  if decide (FinalState rq = TransactionStateUnknown) then
    if Succeeded rq then TransactionStateCommitted
    else match retained with [] => TransactionStateAborted | _ => TransactionStateDegraded end
  else FinalState rq.

Definition finalize_record (record : TransactionRecord) (rq : TransactionFinalizeRequest) (retained : list string)
    (now : Z) : TransactionRecord :=
  let state := final_state rq retained in
  record <| ReservationHeld := false |> <| FinalizedSucceeded := Succeeded rq |>
         <| RetainedAllocationIDs := retained |> <| State := state |>
         <| Terminal := isTerminalTransactionState state |>
         <| tr_FailureClass := fi_FailureClass rq |> <| tr_FailureReason := fi_FailureReason rq |>
         <| tr_ProviderReceipt := match fi_ProviderReceipt rq with Some rc => Some rc | None => tr_ProviderReceipt record end |>
         <| Generation := wrap64 (Generation record + 1) |> <| tr_UpdatedAt := Some (timestamp_New now) |>
         <| FinalizedAt := Some (timestamp_New now) |>.

Definition FinalizeTransaction (s : Store) (converged updated : Z) (rq : TransactionFinalizeRequest) : Outcome :=
  if bool_decide (fi_TransactionID rq = "") then Err (InvalidTransaction "state: transaction_id is required") else
  match transactions s !! fi_TransactionID rq with
  | None => Err ErrTransactionNotFound
  | Some record =>
      _ ← validateTransactionGeneration (Generation record) (fi_ExpectedGeneration rq);
      if terminalLocked record then
        if Bool.eqb (FinalizedSucceeded record) (Succeeded rq) && bool_decide (State record = FinalState rq)
        then Ok (s, record) else Err ErrTransactionImmutable
      else if negb (ReservationHeld record) then Err ErrTransactionConflict
      else if transactionOverlapLocked s (fi_TransactionID rq) (AffectedAllocationIDs record)
      then Err ErrTransactionLocked
      else
        l ← from_state (finalizePlanResultsLocked allocationID (ledger s) converged (Plan record)
              (Succeeded rq) (Results rq));
        let retained := from_option retainedAllocationIDs [] (reservations l !! PlanID record) in
        let record := finalize_record record rq retained updated in
        Ok (mkStore l (<[fi_TransactionID rq := record]> (transactions s)), record)
  end.

Definition GetTransaction (s : Store) (transactionID : string) : option TransactionRecord :=
  transactions s !! transactionID.

(** Keys in order; each key's record. *)
Definition ListInFlightTransactions (s : Store) : list TransactionRecord :=
  let keys := sort_strings (fst <$> filter (λ p, terminalLocked p.2 = false) (map_to_list (transactions s))) in
  omap (λ key, transactions s !! key) keys.

(** ** Traces of operations

    [OpLedger] is any other operation of the store: it may change the ledger, not
    the transactions. *)

Inductive TxOp :=
| OpCreate (now : Z) (plan : option PlacementPlan) (generation : Z)
| OpBegin (created reserved updated : Z) (plan : option PlacementPlan) (generation : Z)
| OpReserve (reserved updated : Z) (id : string) (expected : Z)
| OpAdvance (now : Z) (rq : TransactionAdvanceRequest)
| OpFinalize (converged updated : Z) (rq : TransactionFinalizeRequest)
| OpLedger (l : Ledger).

Definition run (s : Store) (op : TxOp) : Result TransactionError (Store * option TransactionRecord) :=
  let answer (o : Outcome) := match o with Ok (s, r) => Ok (s, Some r) | Err e => Err e end in
  match op with
  | OpCreate now plan g => answer (CreateTransaction s now plan g)
  | OpBegin c r u plan g => answer (BeginTransaction s c r u plan g)
  | OpReserve r u id g => answer (ReserveTransaction s r u id g)
  | OpAdvance now rq => answer (AdvanceTransaction s now rq)
  | OpFinalize c u rq => answer (FinalizeTransaction s c u rq)
  | OpLedger l => Ok (s <| ledger := l |>, None)
  end.

(** A failed operation leaves the store as it was. *)
Definition apply_op (s : Store) (op : TxOp) : Store :=
  match run s op with Ok (s, _) => s | Err _ => s end.

Definition apply_ops : Store → list TxOp → Store := foldl apply_op.

End Transaction.
