(* ===== verification/TransactionProofs.v ===== *)
(** * Placement transactions: properties *)

From Stdlib Require Import ZArith Lia.
From S2P Require Import Prelude GoStrings GoTime GoFloat ClusterModel SchedulerState Mutation Preemption Reservation ReservationProofs Transaction.
From stdpp Require Import options.

Local Open Scope Z_scope.

Section Traces.
Context (allocationID : string → string).

Local Abbreviation run := (Transaction.run allocationID).
Local Abbreviation apply_op := (Transaction.apply_op allocationID).
Local Abbreviation apply_ops := (Transaction.apply_ops allocationID).

(** The record and generation a compare-and-swap operation expects. *)
Definition op_guard (op : TxOp) : option (string * Z) :=
  match op with
  | OpReserve _ _ id g => Some (id, g)
  | OpAdvance _ rq => Some (ad_TransactionID rq, ad_ExpectedGeneration rq)
  | OpFinalize _ _ rq => Some (fi_TransactionID rq, fi_ExpectedGeneration rq)
  | _ => None
  end.

(** How an operation moves a record's state. *)
Definition moves (op : TxOp) (r r' : TransactionRecord) : Prop :=
  match op with
  | OpReserve _ _ _ _ =>
      State r = TransactionStateProposed ∧ ReservationHeld r = false ∧
      State r' = TransactionStateReserved ∧ ReservationHeld r' = true
  | OpAdvance _ rq =>
      transactionStateAllowed (State r) (State r') = true ∧ State r' = NextState rq ∧
      ReservationHeld r' = ReservationHeld r
  | OpFinalize _ _ rq =>
      ReservationHeld r = true ∧ ReservationHeld r' = false ∧ State r' = final_state rq (RetainedAllocationIDs r')
  | _ => False
  end.

(** What never changes in a record. *)
Definition same_transaction (r r' : TransactionRecord) : Prop :=
  TransactionID r' = TransactionID r ∧ PlanID r' = PlanID r ∧ Plan r' = Plan r ∧
  ProviderGeneration r' = ProviderGeneration r ∧ AffectedAllocationIDs r' = AffectedAllocationIDs r ∧
  tr_CreatedAt r' = tr_CreatedAt r.

(** A record's key, plan and flags agree. *)
Definition record_ok (id : string) (r : TransactionRecord) : Prop :=
  TransactionID r = id ∧ PlanID r = id ∧ plan_id (Plan r) = id ∧ id ≠ "" ∧
  ProviderGeneration r = 1 ∧ AffectedAllocationIDs r = affectedAllocationIDsForPlan allocationID (Plan r) ∧
  Terminal r = isTerminalTransactionState (State r) ∧
  (State r = TransactionStateProposed → ReservationHeld r = false).

(** The effect of an operation on the records: none, a new one, or one live record
    moved under its guard. *)
Inductive effect (s : Store) (op : TxOp) (s' : Store) : Prop :=
| effect_none : transactions s' = transactions s → effect s op s'
| effect_new id r :
    transactions s !! id = None → transactions s' = <[id := r]> (transactions s) → op_guard op = None → record_ok id r →
    effect s op s'
| effect_move id r r' :
    op_guard op = Some (id, Generation r) → transactions s !! id = Some r → terminalLocked r = false →
    transactions s' = <[id := r']> (transactions s) →
    Generation r' = wrap64 (Generation r + 1) → same_transaction r r' → moves op r r' →
    Terminal r' = isTerminalTransactionState (State r') → effect s op s'.

Lemma validateTransactionGeneration_Ok a e : validateTransactionGeneration a e = Ok tt → e = a.
Proof. intros ?%guard_err_Ok. lia. Qed.

Lemma run_effect s op s' r : run s op = Ok (s', r) → effect s op s'.
Proof.
  destruct op as [now plan g|c rs u plan g|rs u id g|now rq|c u rq|l]; simpl.
  - unfold CreateTransaction. destruct plan as [plan|]; [|done]. case_bool_decide; [done|].
    destruct (validateTransactionRecord _) as [[]|]; [|done]. cbn [mbind Result_bind].
    destruct (transactions s !! _) eqn:E; [destruct (_ && _); [|done]; intros [= <- _]; by apply effect_none|].
    intros [= <- _]. eapply effect_new; [done|done|done|]. by split_and!.
  - unfold BeginTransaction. destruct plan as [plan|]; [|done]. case_bool_decide; [done|].
    destruct (validateTransactionRecord _) as [[]|]; [|done]. cbn [mbind Result_bind].
    destruct (transactions s !! _) eqn:E; [destruct (negb _); [done|]; intros [= <- _]; by apply effect_none|].
    destruct (from_state _) as [l|]; [|done]. cbn. intros [= <- _]. eapply effect_new; [done|done|done|]. by split_and!.
  - unfold ReserveTransaction. destruct (transactions s !! id) as [rec|] eqn:E; [|done].
    destruct (validateTransactionGeneration _ _) as [[]|] eqn:Hg; [|done]. apply validateTransactionGeneration_Ok in Hg.
    cbn [mbind Result_bind]. destruct (terminalLocked rec) eqn:Ht; [done|].
    destruct (ReservationHeld rec) eqn:Hh; [intros [= <- _]; by apply effect_none|].
    case_bool_decide as Hs; [|done]. cbn [negb]. destruct (transactionOverlapLocked _ _ _); [done|].
    destruct (from_state _) as [l|]; [|done]. cbn. intros [= <- _]. subst g. eapply (effect_move _ _ _ id rec); try done. simpl.
    unfold terminalLocked in Ht. by apply orb_false_iff in Ht as [-> _].
  - unfold AdvanceTransaction. do 2 (case_bool_decide; [done|]).
    destruct (transactions s !! _) as [rec|] eqn:E; [|done].
    destruct (validateTransactionGeneration _ _) as [[]|] eqn:Hg; [|done]. apply validateTransactionGeneration_Ok in Hg.
    cbn [mbind Result_bind]. destruct (terminalLocked rec) eqn:Ht.
    { destruct (advance_settled _ _); [|done]. intros [= <- _]. by apply effect_none. }
    destruct (transactionStateAllowed _ _) eqn:Ha; [|done]. cbn [negb].
    destruct (_ && bool_decide _); [intros [= <- _]; by apply effect_none|]. destruct (_ && transactionOverlapLocked _ _ _); [done|].
    intros [= <- _]. eapply (effect_move _ _ _ _ rec); try done. simpl. by rewrite Hg.
  - unfold FinalizeTransaction. case_bool_decide; [done|].
    destruct (transactions s !! _) as [rec|] eqn:E; [|done].
    destruct (validateTransactionGeneration _ _) as [[]|] eqn:Hg; [|done]. apply validateTransactionGeneration_Ok in Hg.
    cbn [mbind Result_bind]. destruct (terminalLocked rec) eqn:Ht.
    { destruct (_ && _); [|done]. intros [= <- _]. by apply effect_none. }
    destruct (ReservationHeld rec) eqn:Hh; [|done]. cbn [negb]. destruct (transactionOverlapLocked _ _ _); [done|].
    destruct (from_state _) as [l|]; [|done]. cbn [mbind Result_bind]. intros [= <- _].
    eapply (effect_move _ _ _ _ rec); try done. simpl. by rewrite Hg.
  - intros [= <- _]. by apply effect_none.
Qed.

Lemma apply_effect s op : effect s op (apply_op s op).
Proof.
  unfold apply_op. destruct (run s op) as [[s' r]|] eqn:E; [by eapply run_effect|by apply effect_none].
Qed.

(** ** Consequences *)

Lemma effect_lookup s op s' id r :
  effect s op s' → transactions s !! id = Some r →
  transactions s' !! id = Some r ∨
  (op_guard op = Some (id, Generation r) ∧ terminalLocked r = false ∧
   ∃ r', transactions s' !! id = Some r' ∧ Generation r' = wrap64 (Generation r + 1) ∧
     same_transaction r r' ∧ moves op r r').
Proof.
  intros [E|id0 r0 Hn E _ _|id0 r0 r1 Hg H0 Ht E Hgen Hsame Hm _] Hr; rewrite E.
  - by left.
  - left. rewrite lookup_insert_ne; [done|]. by intros ->; rewrite Hn in Hr.
  - destruct (decide (id0 = id)) as [<-|Hne]; [|left; by rewrite lookup_insert_ne].
    right. rewrite H0 in Hr. injection Hr as <-. split_and!; [done|done|]. exists r1. by rewrite lookup_insert_eq.
Qed.

(** Along a trace the generation of a record counts the times it moved. *)
Lemma generation_counts s ops id r :
  transactions s !! id = Some r → is_u64 (Generation r) →
  ∃ r' j, transactions (apply_ops s ops) !! id = Some r' ∧ 0 ≤ j ≤ Z.of_nat (length ops) ∧
    Generation r' = wrap64 (Generation r + j).
Proof.
  revert s r. induction ops as [|op ops IH]; intros s r Hr Hu; simpl.
  { exists r, 0. split_and!; try done. rewrite Z.add_0_r. by rewrite wrap64_id. }
  destruct (effect_lookup _ _ _ id r (apply_effect s op) Hr) as [Hr1|(_ & _ & r1 & Hr1 & Hg & _)].
  - destruct (IH _ _ Hr1 Hu) as (r' & j & H1 & H2 & H3). exists r', j. split_and!; try done; lia.
  - destruct (IH _ _ Hr1) as (r' & j & H1 & H2 & H3); [rewrite Hg; apply wrap64_range|].
    exists r', (j + 1). split_and!; [done|lia|lia|]. rewrite H3, Hg. unfold wrap64.
    rewrite Zplus_mod_idemp_l. f_equal. lia.
Qed.

Lemma guard_mismatch s op id g r :
  op_guard op = Some (id, g) → transactions s !! id = Some r → Generation r ≠ g → is_ok (run s op) = false.
Proof.
  intros Hop Hr Hg. destruct op as [| |rs u i e|now rq|c u rq|]; try done; injection Hop as <- <-; simpl.
  - unfold ReserveTransaction. rewrite Hr. unfold validateTransactionGeneration. by rewrite (proj2 (Z.eqb_neq _ _)).
  - unfold AdvanceTransaction. do 2 (case_bool_decide; [done|]). rewrite Hr. unfold validateTransactionGeneration.
    by rewrite (proj2 (Z.eqb_neq _ _)).
  - unfold FinalizeTransaction. case_bool_decide; [done|]. rewrite Hr. unfold validateTransactionGeneration.
    by rewrite (proj2 (Z.eqb_neq _ _)).
Qed.

(** C36: No update is lost.  If an operation guarded by generation [g] of a record
    succeeds and changes the records, then any operation guarded by the same
    generation is refused afterwards, immediately or after any further trace (of
    fewer than 2^64 - 1 operations, so that the counter cannot come round). *)
Theorem transaction_no_lost_update s op id g s1 r ops op2 :
  op_guard op = Some (id, g) → run s op = Ok (s1, r) → transactions s1 ≠ transactions s → is_u64 g →
  Z.of_nat (length ops) < max_uint64 → op_guard op2 = Some (id, g) →
  is_ok (run (apply_ops s1 ops) op2) = false.
Proof.
  intros Hop Hrun Hch Hu Hlen Hop2.
  destruct (run_effect _ _ _ _ Hrun) as [E|? ? ? _ Hn _|id0 r0 r1 Hg H0 Ht E Hgen Hsame Hm _]; [by destruct Hch|congruence|].
  rewrite Hop in Hg. injection Hg as <- Hg'. subst g.
  destruct (generation_counts s1 ops id r1) as (r' & j & H1 & H2 & H3).
  - by rewrite E, lookup_insert_eq.
  - rewrite Hgen. apply wrap64_range.
  - eapply guard_mismatch; [exact Hop2|exact H1|]. rewrite H3, Hgen. unfold wrap64. rewrite Zplus_mod_idemp_l.
    intros Heq. unfold is_u64, max_uint64, two64 in *.
    assert (Hd : (Generation r0 + 1 + j - Generation r0) mod 18446744073709551616 = 0).
    { rewrite Zminus_mod, Heq, (Z.mod_small (Generation r0)) by lia. by rewrite Z.sub_diag. }
    replace (Generation r0 + 1 + j - Generation r0) with (1 + j) in Hd by lia. rewrite Z.mod_small in Hd by lia. lia.
Qed.

(** A terminal record is immutable: no trace of operations changes it. *)
Theorem terminal_immutable s ops id r :
  transactions s !! id = Some r → terminalLocked r = true → transactions (apply_ops s ops) !! id = Some r.
Proof.
  intros Hr Ht. revert s Hr. induction ops as [|op ops IH]; intros s Hr; simpl; [done|]. apply IH.
  destruct (effect_lookup _ _ _ id r (apply_effect s op) Hr) as [|(_ & Hf & _)]; congruence.
Qed.

(** ** Well-formed stores *)

Definition store_ok (s : Store) : Prop := map_Forall record_ok (transactions s).

(** No record moves back to [Proposed]. *)
Lemma allowed_proposed from : transactionStateAllowed from TransactionStateProposed = true → from = TransactionStateProposed.
Proof.
  intros [H%bool_decide_eq_true|H%bool_decide_eq_true]%orb_true_iff; [done|].
  exfalso. revert H. unfold successors. repeat case_decide; set_solver.
Qed.

Lemma moves_proposed op r r' :
  moves op r r' → (State r = TransactionStateProposed → ReservationHeld r = false) →
  State r' = TransactionStateProposed → ReservationHeld r' = false.
Proof.
  destruct op as [| |rs u i e|now rq|c u rq|]; try done; simpl.
  - by intros (_ & _ & -> & _).
  - intros (Ha & _ & ->) H E. rewrite E in Ha. by apply H, allowed_proposed.
  - by intros (_ & -> & _).
Qed.

Lemma effect_store_ok s op s' : effect s op s' → store_ok s → store_ok s'.
Proof.
  intros [E|id r _ E _ Hr|id r r' _ Hr _ E _ (H1 & H2 & H3 & H4 & H5 & _) Hm Ht] Hok; unfold store_ok; rewrite E.
  - done.
  - by apply map_Forall_insert_2.
  - apply map_Forall_insert_2; [|done]. destruct (Hok id r Hr) as (?&?&?&?&?&?&_&?).
    unfold record_ok. rewrite H1, H2, H3, H4, H5. split_and!; try done. by apply (moves_proposed op r).
Qed.

Lemma apply_ops_ok s ops : store_ok s → store_ok (apply_ops s ops).
Proof.
  revert s. induction ops as [|op ops IH]; intros s Hok; simpl; [done|].
  apply IH. eapply effect_store_ok; [apply apply_effect|done].
Qed.

Lemma same_transaction_refl r : same_transaction r r.
Proof. by split_and!. Qed.

(** The life of a transaction.  After any trace from a well-formed store (in
    particular the empty one) every record is well formed, is never dropped, and the
    next operation either leaves it as it is or moves it, live and under its current
    generation, one step of the machine: [Proposed] to [Reserved] with the
    reservation taken, along [transactionStateAllowed] keeping the reservation, or to
    its final state releasing the reservation.  Its identity, plan and affected
    allocations never change. *)
Theorem transaction_lifecycle s ops op id r :
  store_ok s → transactions (apply_ops s ops) !! id = Some r →
  record_ok id r ∧
  ∃ r', transactions (apply_op (apply_ops s ops) op) !! id = Some r' ∧ same_transaction r r' ∧
    (r' = r ∨
     (op_guard op = Some (id, Generation r) ∧ terminalLocked r = false ∧
      Generation r' = wrap64 (Generation r + 1) ∧ moves op r r')).
Proof.
  intros Hok Hr. split; [by apply (apply_ops_ok s ops Hok)|].
  destruct (effect_lookup _ _ _ id r (apply_effect (apply_ops s ops) op) Hr) as [H|(Hg & Ht & r' & H & Hgen & Hs & Hm)].
  - exists r. split_and!; [done|apply same_transaction_refl|by left].
  - exists r'. split_and!; [done|done|]. right. by split_and!.
Qed.

(** ** The overlap lock *)

Definition in_flight (r : TransactionRecord) : bool := ReservationHeld r && negb (terminalLocked r).

(** No two transactions in flight hold reservations on a common allocation. *)
Definition exclusive (s : Store) : Prop :=
  ∀ id1 id2 r1 r2, id1 ≠ id2 → transactions s !! id1 = Some r1 → transactions s !! id2 = Some r2 →
    in_flight r1 = true → in_flight r2 = true →
    ∀ a, a ∈ AffectedAllocationIDs r1 → a ∉ AffectedAllocationIDs r2.

Lemma overlap_false s id ids id' r a :
  transactionOverlapLocked s id ids = false → transactions s !! id' = Some r → id' ≠ id → in_flight r = true →
  a ∈ AffectedAllocationIDs r → a ∉ ids.
Proof.
  unfold transactionOverlapLocked. intros H Hr Hne Hf Ha Hin.
  apply not_true_iff_false in H. apply H. apply existsb_exists. exists (id', r).
  split; [by apply list_elem_of_In, elem_of_map_to_list|].
  rewrite bool_decide_eq_false_2 by done. unfold in_flight in Hf. apply andb_true_iff in Hf as [-> ->]. simpl.
  apply existsb_exists. exists a. split; [by apply list_elem_of_In|]. by apply bool_decide_eq_true.
Qed.

(** An operation that puts a record in flight took the lock. *)
Lemma run_locks s op s' x id r r' :
  run s op = Ok (s', x) → op_guard op = Some (id, Generation r) → transactions s !! id = Some r →
  transactions s' = <[id := r']> (transactions s) → r' ≠ r → in_flight r' = true →
  transactionOverlapLocked s id (AffectedAllocationIDs r) = false.
Proof.
  intros Hrun Hg Hr E Hne Hf. assert (Hr' : transactions s' !! id = Some r') by (by rewrite E, lookup_insert_eq).
  destruct op as [| |rs u i e|now rq|c u rq|]; try done; injection Hg as <- He; simpl in Hrun.
  - unfold ReserveTransaction in Hrun. rewrite Hr in Hrun. destruct (validateTransactionGeneration _ _) as [[]|]; [|done].
    cbn [mbind Result_bind] in Hrun. destruct (terminalLocked r); [done|]. destruct (ReservationHeld r).
    { injection Hrun as <- _. congruence. }
    destruct (negb _); [done|]. by destruct (transactionOverlapLocked _ _ _).
  - unfold AdvanceTransaction in Hrun. do 2 (case_bool_decide; [done|]). rewrite Hr in Hrun.
    destruct (validateTransactionGeneration _ _) as [[]|]; [|done]. cbn [mbind Result_bind] in Hrun.
    destruct (terminalLocked r). { destruct (advance_settled _ _); [|done]. injection Hrun as <- _. congruence. }
    destruct (negb _); [done|]. destruct (_ && bool_decide _). { injection Hrun as <- _. congruence. }
    destruct (ReservationHeld r) eqn:Hh; [by destruct (transactionOverlapLocked _ _ _)|].
    injection Hrun as <- _. simpl in Hr'. rewrite lookup_insert_eq in Hr'. injection Hr' as <-.
    unfold in_flight in Hf. simpl in Hf. by rewrite Hh in Hf.
  - unfold FinalizeTransaction in Hrun. case_bool_decide; [done|]. rewrite Hr in Hrun.
    destruct (validateTransactionGeneration _ _) as [[]|]; [|done]. cbn [mbind Result_bind] in Hrun.
    destruct (terminalLocked r). { destruct (_ && _); [|done]. injection Hrun as <- _. congruence. }
    destruct (negb _); [done|]. by destruct (transactionOverlapLocked _ _ _).
Qed.

Lemma exclusive_insert s s' id r' :
  exclusive s → transactions s' = <[id := r']> (transactions s) →
  (in_flight r' = true → transactionOverlapLocked s id (AffectedAllocationIDs r') = false) → exclusive s'.
Proof.
  intros Hex E Hlock id1 id2 r1 r2 Hne H1 H2 F1 F2 a Ha Hb. rewrite E in H1, H2.
  apply lookup_insert_Some in H1 as [[<- <-]|[Hn1 H1]]; apply lookup_insert_Some in H2 as [[<- <-]|[Hn2 H2]].
  - done.
  - by apply (overlap_false s id _ id2 r2 a (Hlock F1) H2 (not_eq_sym Hne) F2 Hb).
  - by apply (overlap_false s id _ id1 r1 a (Hlock F2) H1 Hne F1 Ha).
  - by apply (Hex id1 id2 r1 r2 Hne H1 H2 F1 F2 a).
Qed.

Lemma wrap64_succ_ne g : wrap64 (g + 1) ≠ g.
Proof.
  intros E. pose proof (wrap64_range (g + 1)) as H. rewrite E in H. unfold wrap64, is_u64 in *.
  destruct (decide (g = two64 - 1)) as [->|].
  - by vm_compute in E.
  - rewrite Z.mod_small in E by lia. lia.
Qed.

Definition is_begin (op : TxOp) : bool := match op with OpBegin _ _ _ _ _ => true | _ => false end.

Lemma create_not_in_flight s now plan g s' r :
  CreateTransaction allocationID s now plan g = Ok (s', r) → transactions s' ≠ transactions s →
  transactions s' = <[TransactionID r := r]> (transactions s) ∧ in_flight r = false.
Proof.
  unfold CreateTransaction. destruct plan as [plan|]; [|done]. case_bool_decide; [done|].
  destruct (validateTransactionRecord _) as [[]|]; [|done]. cbn [mbind Result_bind].
  destruct (transactions s !! _) eqn:E; [destruct (_ && _); [|done]; intros [= <- _]; by intros []|].
  intros [= <- <-] _. by split.
Qed.

(** The overlap lock works.  From a store in which no two transactions in flight
    hold reservations on a common allocation, no trace of operations other than
    [BeginTransaction] (which does not take the lock) leads to one in which two do. *)
Theorem overlap_lock_exclusive s ops :
  exclusive s → forallb (λ op, negb (is_begin op)) ops = true → exclusive (apply_ops s ops).
Proof.
  revert s. induction ops as [|op ops IH]; intros s Hex Hops; simpl; [done|].
  apply andb_true_iff in Hops as [Hop Hops]. apply IH; [|done].
  unfold apply_op. destruct (run s op) as [[s' x]|] eqn:Hrun; [|done].
  destruct (run_effect _ _ _ _ Hrun) as [E|id r Hn E Hg _|id r r' Hg Hr _ E Hgen Hs _ _].
  - intros id1 id2 r1 r2 Hne H1 H2. rewrite E in H1, H2. by eapply Hex.
  - destruct op as [now plan g| | | | |l]; try done; simpl in Hrun.
    + destruct (CreateTransaction _ _ _ _ _) as [[s1 r1]|] eqn:Hc; [|done]. injection Hrun as -> _.
      destruct (create_not_in_flight _ _ _ _ _ _ Hc) as [E' Hf].
      { rewrite E. intros Heq. rewrite <-Heq, lookup_insert_eq in Hn. done. }
      eapply exclusive_insert; [done|exact E'|]. by rewrite Hf.
    + injection Hrun as <- _. simpl in E. rewrite E, lookup_insert_eq in Hn. done.
  - eapply exclusive_insert; [done|exact E|]. intros Hf.
    destruct Hs as (_ & _ & _ & _ & -> & _). eapply run_locks; try done.
    intros ->. by apply (wrap64_succ_ne (Generation r)).
Qed.

(** ** Finalising *)

Lemma FinalizeTransaction_inv s c u rq s' r' r :
  FinalizeTransaction allocationID s c u rq = Ok (s', r') →
  transactions s !! fi_TransactionID rq = Some r → terminalLocked r = false →
  finalizePlanResultsLocked allocationID (ledger s) c (Plan r) (Succeeded rq) (Results rq) = Ok (ledger s') ∧
  r' = finalize_record r rq (from_option retainedAllocationIDs [] (reservations (ledger s') !! PlanID r)) u.
Proof.
  unfold FinalizeTransaction. case_bool_decide as Hid; [done|]. intros H Hr Ht. rewrite Hr in H.
  destruct (validateTransactionGeneration _ _) as [[]|]; [|done]. cbn [mbind Result_bind] in H. rewrite Ht in H.
  destruct (negb _); [done|]. destruct (transactionOverlapLocked _ _ _); [done|].
  destruct (finalizePlanResultsLocked _ _ _ _ _ _) as [l|]; [|done]. cbn in H. by injection H as <- <-.
Qed.

(** Finalising a live transaction of an admission plan settles the plan and the
    record together: the reservation is finalised with the same outcome and the same
    retained allocations as the record, which are those the evidence leaves; and, when
    the caller names no final state, the record is terminal, [Committed] on success,
    [Aborted] when nothing is retained and [Degraded] otherwise. *)
Theorem FinalizeTransaction_settles s c u rq s' r' r :
  store_ok s → transactions s !! fi_TransactionID rq = Some r → terminalLocked r = false →
  isMutationPurpose (effectivePlanPurpose (Plan r)).1 = false →
  FinalizeTransaction allocationID s c u rq = Ok (s', r') →
  (∃ res, reservations (ledger s') !! PlanID r' = Some res ∧ finalized res = true ∧
     succeeded res = Succeeded rq ∧ FinalizedSucceeded r' = Succeeded rq ∧
     retainedAllocationIDs res = RetainedAllocationIDs r' ∧
     RetainedAllocationIDs r' = sortedSetValues (retainedAllocations allocationID (Plan r) (Succeeded rq) (Results rq)).1) ∧
  (FinalState rq = TransactionStateUnknown →
     terminalLocked r' = true ∧
     State r' = if Succeeded rq then TransactionStateCommitted
                else if decide (RetainedAllocationIDs r' = []) then TransactionStateAborted
                else TransactionStateDegraded).
Proof.
  intros Hok Hr Ht Hp H. destruct (Hok _ _ Hr) as (_ & Hpid & Hplan & _).
  destruct (FinalizeTransaction_inv _ _ _ _ _ _ _ H Hr Ht) as [Hfin ->].
  destruct (finalize_records _ _ _ _ _ _ _ Hp Hfin) as (res & Hres & _ & Hf & Hs & Hret).
  rewrite Hplan, <-Hpid in Hres. rewrite Hres. split.
  - exists res. by split_and!.
  - intros Hu. unfold terminalLocked. simpl. unfold final_state. rewrite Hu.
    rewrite decide_True by done. destruct (Succeeded rq); [done|]. by destruct (retainedAllocationIDs res).
Qed.

(** [BeginTransaction] takes any [ErrPlanAlreadyReserved] for its own
    reservation.  When the plan is refused because its identifier is reserved with
    different content, or because another open reservation holds one of its targets,
    the transaction is still recorded as [Reserved] and holding a reservation, with
    the ledger untouched; and no request can finalise it. *)
Theorem BeginTransaction_phantom_reservation s c t u plan g why :
  plan_id plan ≠ "" → g ≠ 0 → transactions s !! plan_id plan = None → why ≠ SameContent →
  reservePlanLocked allocationID (ledger s) t plan = Err (ErrPlanAlreadyReserved why) →
  ∃ s' r, BeginTransaction allocationID s c t u (Some plan) g = Ok (s', r) ∧
    ledger s' = ledger s ∧ State r = TransactionStateReserved ∧ ReservationHeld r = true ∧
    ∀ c' u' rq, fi_TransactionID rq = plan_id plan → is_ok (FinalizeTransaction allocationID s' c' u' rq) = false.
Proof.
  intros Hid Hg Hnone Hwhy Hres. unfold BeginTransaction. rewrite bool_decide_eq_false_2 by done.
  assert (Hval : validateTransactionRecord (newTransactionRecord allocationID plan g (timestamp_New c)) = Ok tt).
  { unfold validateTransactionRecord. simpl.
    rewrite (bool_decide_eq_false_2 (plan_id plan = "")) by done.
    rewrite (bool_decide_eq_true_2 (plan_id plan = plan_id plan)), (proj2 (Z.eqb_neq _ _)) by done. simpl.
    rewrite (proj2 (forallb_forall _ _)); [done|]. intros x Hx%list_elem_of_In.
    unfold affectedAllocationIDsForPlan, normalizeAllocationIDs, sort_strings in Hx.
    rewrite elem_of_sort_by, elem_of_elements, elem_of_list_to_set in Hx.
    apply list_elem_of_filter in Hx as [Hx _]. by rewrite bool_decide_eq_false_2. }
  rewrite Hval. cbn [mbind Result_bind]. change (TransactionID (newTransactionRecord _ plan _ _)) with (plan_id plan).
  rewrite Hnone. change (Plan (newTransactionRecord _ plan _ _)) with plan. rewrite Hres. simpl.
  eexists _, _. split; [reflexivity|]. split_and!; [done|done|done|].
  intros c' u' rq Hrq. unfold FinalizeTransaction. case_bool_decide; [done|]. simpl. rewrite Hrq, lookup_insert_eq.
  destruct (validateTransactionGeneration _ _) as [[]|]; [|done]. cbn [mbind Result_bind].
  change (terminalLocked _) with false. cbn [negb ReservationHeld].
  destruct (transactionOverlapLocked _ _ _); [done|].
  assert (Hf : finalizePlanResultsLocked allocationID (ledger s) c' plan (Succeeded rq) (Results rq) = Err ErrPlanNotReserved).
  { unfold reservePlanLocked in Hres. unfold finalizePlanResultsLocked.
    destruct (reservations (ledger s) !! plan_id plan) as [ex|]; [|done].
    destruct (plan_Equal (res_plan ex) plan); [|done]. by injection Hres as <-. }
  simpl. by rewrite Hf.
Qed.
End Traces.

(** ** Instances *)

Module TransactionWitnesses.
Import ReservationWitnesses.

Definition advance (g : Z) (st : string) : TransactionAdvanceRequest := mkAdvance "p" g st "" "" None.
Definition finish (g : Z) : TransactionFinalizeRequest :=
  mkFinalize "p" g false failed TransactionStateUnknown "provider" "refused" None.

Definition empty : Store := mkStore ledger ∅.
Definition begun : Store := apply_op aid empty (OpBegin 5 5 5 (Some plan) 1).
Definition prepared : Store := apply_op aid begun (OpAdvance 6 (advance 2 TransactionStatePrepared)).
Definition settled : Store := apply_op aid prepared (OpFinalize 7 7 (finish 3)).

Lemma empty_ok : store_ok aid empty.
Proof. by apply map_Forall_empty. Qed.

Definition record_of (s : Store) : option TransactionRecord := transactions s !! "p".

Lemma transaction_no_lost_update_witness :
  is_ok (run aid (apply_ops aid prepared [OpFinalize 7 7 (finish 3)]) (OpAdvance 8 (advance 2 TransactionStatePrepared))) = false.
Proof.
  destruct (run aid begun (OpAdvance 6 (advance 2 TransactionStatePrepared))) as [[s1 r]|] eqn:E; [|by vm_compute in E].
  assert (s1 = prepared) as ->.
  { unfold prepared, apply_op. by rewrite E. }
  apply (transaction_no_lost_update aid begun (OpAdvance 6 (advance 2 TransactionStatePrepared)) "p" 2 prepared r).
  - done.
  - done.
  - intros Heq. assert (H : (Generation <$> record_of prepared) = (Generation <$> record_of begun)).
    { unfold record_of. by rewrite Heq. }
    by vm_compute in H.
  - unfold is_u64, two64. lia.
  - unfold max_uint64. simpl. lia.
  - done.
Defined.

Lemma terminal_immutable_witness :
  ∃ r, record_of settled = Some r ∧ State r = TransactionStateAborted ∧
    record_of (apply_ops aid settled [OpAdvance 9 (advance 4 TransactionStateCommitted); OpBegin 9 9 9 (Some plan) 1]) = Some r.
Proof.
  assert (H : (λ r, (terminalLocked r, State r)) <$> record_of settled = Some (true, TransactionStateAborted)) by (by vm_compute).
  destruct (record_of settled) as [r|] eqn:E; [|done]. injection H as Ht Hs. exists r. split_and!; [done|done|].
  by apply terminal_immutable.
Defined.

Lemma transaction_lifecycle_witness :
  ∃ r, record_of begun = Some r ∧ record_ok aid "p" r.
Proof.
  destruct (record_of begun) as [r|] eqn:E; [|by vm_compute in E]. exists r. split; [done|].
  apply (transaction_lifecycle aid empty [OpBegin 5 5 5 (Some plan) 1] (OpLedger ledger) "p" r empty_ok). exact E.
Defined.

Lemma empty_exclusive : exclusive empty.
Proof. intros id1 id2 r1 r2 _ H. simpl in H. by rewrite lookup_empty in H. Qed.

Lemma overlap_lock_exclusive_witness :
  exclusive (apply_ops aid empty [OpCreate 5 (Some plan) 1; OpReserve 5 5 "p" 1]).
Proof. apply overlap_lock_exclusive; [apply empty_exclusive|reflexivity]. Defined.

Lemma FinalizeTransaction_settles_witness :
  ∃ r' s', FinalizeTransaction aid prepared 7 7 (finish 3) = Ok (s', r') ∧ terminalLocked r' = true.
Proof.
  assert (H : (λ r, (terminalLocked r, isMutationPurpose (effectivePlanPurpose (Plan r)).1)) <$> record_of prepared =
              Some (false, false)) by (by vm_compute).
  destruct (record_of prepared) as [r|] eqn:E; [|done]. injection H as Ht Hp.
  destruct (FinalizeTransaction aid prepared 7 7 (finish 3)) as [[s' r']|] eqn:F; [|by vm_compute in F].
  exists r', s'. split; [done|].
  refine (proj1 (proj2 (FinalizeTransaction_settles aid prepared 7 7 (finish 3) s' r' r _ E Ht Hp F) _)); [|done].
  apply (apply_ops_ok aid empty [OpBegin 5 5 5 (Some plan) 1; OpAdvance 6 (advance 2 TransactionStatePrepared)]), empty_ok.
Defined.

(** A plan that pauses an allocation another open plan has reserved. *)
Definition alloc : Allocation := mkAllocation "x" "e" "s" 1 "j" "u" ["d"] (Some (rv 2 3)) ALLOCATION_STATE_ACTIVE
  None None "" "" DATA_KIND_LIVE 1 "" "" "" "" None "" "".
Definition pause (id : string) : PlacementPlan := mkPlan id "e" "s" 1 7 []
  [Some (mkAction "a" ACTION_TYPE_PAUSE "x" None f0 None "" 1 "" no_contract)] None None "" "" "" DATA_KIND_LIVE 1 "" "j"
  PLAN_PURPOSE_REBALANCE ROLLBACK_POLICY_NOT_REQUIRED [] ["x"] "".
Definition busy : Store := mkStore
  (mkLedger (mkSnapshot "" 7 None [dev] [alloc] [] ∅ "") (intents ReservationWitnesses.ledger)
     {["q" := mkReservation (pause "q") snap ∅ [] ["x"] false false []]}) ∅.

Lemma BeginTransaction_phantom_reservation_witness :
  ∃ s' r, BeginTransaction aid busy 5 5 5 (Some (pause "p")) 1 = Ok (s', r) ∧ Transaction.ledger s' = Transaction.ledger busy ∧
    State r = TransactionStateReserved ∧ ReservationHeld r = true ∧
    ∀ c' u' rq, fi_TransactionID rq = "p" → is_ok (FinalizeTransaction aid s' c' u' rq) = false.
Proof.
  apply (BeginTransaction_phantom_reservation aid busy 5 5 5 (pause "p") 1 TargetReserved).
  - done.
  - done.
  - by vm_compute.
  - done.
  - by vm_compute.
Defined.
End TransactionWitnesses.
