(* ===== verification/Intents.v ===== *)
(** * The store: intents, snapshots and durable state ([scheduler-go/state]:
      [intent.go], [snapshot.go], [store.go])

    The whole of the store's state, over which the ledger of [SchedulerState.v] and
    the transactions of [Transaction.v] are views; publishing, staging and retiring
    intents; resource mutations; the durable view of the state and its restoration.
    The text of protobuf's validity errors and the SHA-256 identifiers are
    parameters. *)

From Stdlib Require Import ZArith Lia.
From S2P Require Import Prelude GoStrings GoTime GoFloat ClusterModel SchedulerState Mutation Preemption Reservation Transaction.
From stdpp Require Import options.

Local Open Scope Z_scope.

(** ** Messages *)

(** [SchedulingIntent]: what the store reads, the rest carried along. *)
Record SchedulingIntent := mkIntent {
  in_execution_id : string;
  in_stage_id : string;
  in_version : Z;
  valid_until : option Timestamp;
  ttl : option Duration;
  in_idempotency_key : string;
  submitted_at : option Timestamp;
  in_job_id : string;
  resources_per_unit : option ResourceVector;
  unit_count : Z;
  required_capabilities : option CapabilitySet;
  in_priority : Z;
  label_runtime_unit_id : string;
  policy_version : string;
  in_run_id : string;
  in_trace_id : string;
  in_data_kind : DataKind;
  in_carried : string;
}.

Definition intent_Equal (a b : SchedulingIntent) : bool :=
  bool_decide ((in_execution_id a, in_stage_id a, in_version a, valid_until a, ttl a, in_idempotency_key a,
                submitted_at a, in_job_id a, unit_count a) =
               (in_execution_id b, in_stage_id b, in_version b, valid_until b, ttl b, in_idempotency_key b,
                submitted_at b, in_job_id b, unit_count b)) &&
  bool_decide ((in_priority a, label_runtime_unit_id a, policy_version a, in_run_id a,
                in_trace_id a, in_data_kind a, in_carried a) =
               (in_priority b, label_runtime_unit_id b, policy_version b, in_run_id b,
                in_trace_id b, in_data_kind b, in_carried b)) &&
  option_Equal capabilities_Equal (required_capabilities a) (required_capabilities b) &&
  option_Equal resources_Equal (resources_per_unit a) (resources_per_unit b).

Inductive IntentPublishStatus :=
| INTENT_PUBLISH_STATUS_ACCEPTED | INTENT_PUBLISH_STATUS_DEDUPLICATED | INTENT_PUBLISH_STATUS_REJECTED.

Record PublishIntentResponse := mkResponse {
  rs_status : IntentPublishStatus;
  rs_execution_id : string;
  rs_stage_id : string;
  rs_version : Z;
  detail : string;
}.

(** ** The state of the store ([store.go])

    [Pr] is the provider projection, which [Projection.v] models. *)

Definition intentKey : Type := string * string.

Record intentIdentity := mkIdentity {
  id_key : intentKey;
  id_version : Z;
  id_intent : SchedulingIntent;
}.

Section Durable.
Context {Pr : Type}.

Record StoreState := mkStoreState {
  st_snapshot : ClusterSnapshot;
  st_intents : gmap intentKey SchedulingIntent;
  providerProjection : Pr;
  idempotencyKeys : gmap string intentIdentity;
  st_reservations : gmap string planReservation;
  st_transactions : gmap string TransactionRecord;
}.

#[global] Instance eta_StoreState : Eta StoreState := λ s,
  mkStoreState (st_snapshot s) (st_intents s) (providerProjection s) (idempotencyKeys s) (st_reservations s)
    (st_transactions s).

(** What the fences of plans read of an intent. *)
Definition stored_intent (i : SchedulingIntent) : StoredIntent := mkStoredIntent (in_version i) (valid_until i) "".

(** The store of [Transaction.v] as a view of the state, and its way back. *)
Definition store_view (s : StoreState) : Store :=
  mkStore (mkLedger (st_snapshot s) (stored_intent <$> st_intents s) (st_reservations s)) (st_transactions s).

Definition update_view (s : StoreState) (v : Store) : StoreState :=
  s <| st_snapshot := snapshot (ledger v) |> <| st_reservations := reservations (ledger v) |>
    <| st_transactions := transactions v |>.

(** [Store.commitSnapshotLocked] *)
Definition commit_snapshot (s : StoreState) (now : Z) (working : ClusterSnapshot) : StoreState :=
  let rev := wrap64 (revision (st_snapshot s) + 1) in
  s <| st_snapshot := working <| revision := rev |> <| snapshot_id := snapshotID rev |>
                              <| observed_at := Some (timestamp_New now) |> |>.

End Durable.
Arguments StoreState : clear implicits.

(** ** Validation of an intent *)

Inductive IntentError :=
| InvalidIntent (message : string)
| IntentExpiredError (message : string)
| StaleIntent (message : string)
| IntentConflict (message : string)
| IdempotencyConflict (message : string)
| RevisionExhausted.

Definition intent_error_text (e : IntentError) : string :=
  match e with
  | InvalidIntent m => "state: invalid scheduling intent: " +:+ m
  | IntentExpiredError m => "state: scheduling intent expired: " +:+ m
  | StaleIntent m => "state: stale scheduling intent: " +:+ m
  | IntentConflict m => "state: scheduling intent version conflict: " +:+ m
  | IdempotencyConflict m => "state: idempotency key already used: " +:+ m
  | RevisionExhausted => "state: snapshot revision exhausted"
  end.

(** Both parts in range, so the sum of the seconds cannot wrap in [int64]. *)
Definition addTimestampAndDuration (t : Timestamp) (seconds nanos : Z) : Timestamp :=
  let resultSeconds := swrap64 (Seconds t + seconds) in
  let resultNanos := Nanos t + nanos in
  if Second <=? resultNanos then mkTimestamp (swrap64 (resultSeconds + 1)) (swrap32 (resultNanos - Second))
  else mkTimestamp resultSeconds (swrap32 resultNanos).

Section Intents.
Context (unicode_quote : string → string) (timestamp_error : Timestamp → string) (duration_error : Duration → string)
        (stableID : string → list string → string).

Local Abbreviation q := (Quote unicode_quote).

Definition positive_demand (r : ResourceVector) : bool :=
  negb ((cpu_millis r =? 0) && (memory_bytes r =? 0) && feqb (accelerator_units r) f0 &&
        (ephemeral_storage_bytes r =? 0) && (network_bandwidth_bps r =? 0)).

(** A timestamp that must be there and valid. *)
Definition required_timestamp (name : string) (t : option Timestamp) : Result IntentError Timestamp :=
  match t with
  | None => Err (InvalidIntent (name +:+ " is required"))
  | Some t =>
      if Timestamp_valid t then Ok t else Err (InvalidIntent ("invalid " +:+ name +:+ ": " +:+ timestamp_error t))
  end.

Definition required_ttl (d : option Duration) : Result IntentError Duration :=
  match d with
  | None => Err (InvalidIntent "ttl is required")
  | Some d =>
      if negb (Duration_valid d) then Err (InvalidIntent ("invalid ttl: " +:+ duration_error d)) else
      if AsDuration d <=? 0 then Err (InvalidIntent "ttl must be positive") else Ok d
  end.

Definition required_resources (r : option ResourceVector) : Result IntentError unit :=
  match r with
  | None => Err (InvalidIntent "resources_per_unit is required")
  | Some r =>
      _ ← guard_err (positive_demand r) (InvalidIntent "resources_per_unit must contain positive demand");
      guard_err (negb (invalidFloat (accelerator_units r) || fltb (accelerator_units r) f0))
        (InvalidIntent "accelerator_units must be finite and non-negative")
  end.

Definition validateIntentStructure (intent : option SchedulingIntent) : Result IntentError SchedulingIntent :=
  match intent with
  | None => Err (InvalidIntent "intent is nil")
  | Some i =>
      let required v name := guard_err (negb (bool_decide (v = ""))) (InvalidIntent (name +:+ " is required")) in
      _ ← required (in_execution_id i) "execution_id";
      _ ← required (in_stage_id i) "stage_id";
      _ ← guard_err (negb (in_version i =? 0)) (InvalidIntent "version must be greater than zero");
      _ ← required (in_idempotency_key i) "idempotency_key";
      _ ← required (in_job_id i) "job_id";
      _ ← required (policy_version i) "policy_version";
      _ ← guard_err (negb (unit_count i =? 0)) (InvalidIntent "unit_count must be greater than zero");
      _ ← required_resources (resources_per_unit i);
      submitted ← required_timestamp "submitted_at" (submitted_at i);
      life ← required_ttl (ttl i);
      until ← required_timestamp "valid_until" (valid_until i);
      let expected := addTimestampAndDuration submitted (DurSeconds life) (DurNanos life) in
      _ ← guard_err (Timestamp_valid expected)
            (InvalidIntent ("submitted_at + ttl is invalid: " +:+ timestamp_error expected));
      _ ← guard_err (bool_decide (until = expected)) (InvalidIntent "valid_until must equal submitted_at + ttl");
      Ok i
  end.

(** ** Publishing an intent *)

Definition intentResponse (i : option SchedulingIntent) (status : IntentPublishStatus) (detail : string) :
    PublishIntentResponse :=
  match i with
  | Some i => mkResponse status (in_execution_id i) (in_stage_id i) (in_version i) detail
  | None => mkResponse status "" "" 0 detail
  end.

Definition rejectedIntentResponse (i : option SchedulingIntent) (e : IntentError) : PublishIntentResponse :=
  intentResponse i INTENT_PUBLISH_STATUS_REJECTED (intent_error_text e).

Definition pendingUnitID (i : SchedulingIntent) (index : Z) : string :=
  stableID "pending" [in_execution_id i; in_stage_id i; FormatUint (in_version i); FormatUint index].

Definition of_intent_unit (i : SchedulingIntent) (u : PendingUnit) : bool :=
  bool_decide (pu_execution_id u = in_execution_id i) && bool_decide (pu_stage_id u = in_stage_id i).

Definition new_pending_unit (i : SchedulingIntent) (queuedAt index : Z) : PendingUnit :=
  mkPendingUnit (pendingUnitID i index) (in_execution_id i) (in_stage_id i) (in_version i) (in_job_id i)
    (resources_per_unit i) (required_capabilities i) (in_priority i) (Some (timestamp_New queuedAt)) 0
    (in_run_id i) (in_trace_id i) (in_data_kind i) (label_runtime_unit_id i).

Definition replacePendingUnits (existing : list PendingUnit) (i : SchedulingIntent) (count queuedAt : Z) :
    list PendingUnit :=
  sortPendingUnits (filter (λ u, of_intent_unit i u = false) existing ++
                    ((λ index : nat, new_pending_unit i queuedAt (Z.of_nat index)) <$> seq 0 (Z.to_nat count))).

Definition live_state (st : AllocationState) : bool :=
  bool_decide (st = ALLOCATION_STATE_PENDING) || bool_decide (st = ALLOCATION_STATE_ACTIVE).

Definition live_of_key (key : intentKey) (a : Allocation) : bool :=
  bool_decide (al_execution_id a = key.1) && bool_decide (al_stage_id a = key.2) && live_state (al_state a).

Definition intent_key (i : SchedulingIntent) : intentKey := (in_execution_id i, in_stage_id i).

Definition liveAllocationCount (als : list Allocation) (i : SchedulingIntent) : Z :=
  wrap32 (Z.of_nat (length (filter (λ a, live_of_key (intent_key i) a = true) als))).

(** The version and deduplication checks: [Some] response ends the publication. *)
Definition check_current {Pr} (s : StoreState Pr) (i : SchedulingIntent) :
    Result IntentError (option PublishIntentResponse) :=
  let reused := IdempotencyConflict (q (in_idempotency_key i) +:+ " was reused with different content") in
  let previous := idempotencyKeys s !! in_idempotency_key i in
  match st_intents s !! intent_key i with
  | None => Ok None
  | Some current =>
      if in_version i <? in_version current then
        if from_option (λ p, negb (intent_Equal i (id_intent p))) false previous then Err reused
        else Err (StaleIntent ("version " +:+ FormatUint (in_version i) +:+ " is older than current version " +:+
                               FormatUint (in_version current)))
      else if in_version i =? in_version current then
        if intent_Equal i current
        then Ok (Some (intentResponse (Some i) INTENT_PUBLISH_STATUS_DEDUPLICATED "identical intent already accepted"))
        else if bool_decide (is_Some previous) then Err reused
        else Err (IntentConflict ("version " +:+ FormatUint (in_version i) +:+ " is immutable"))
      else Ok None
  end.

(** The state an accepted publication stages. *)
Definition stage_intent {Pr} (s : StoreState Pr) (now : Z) (i : SchedulingIntent) : StoreState Pr :=
  let working := st_snapshot s in
  let working := working <| allocations :=
    (λ a, if live_of_key (intent_key i) a then a <| al_intent_version := in_version i |> else a) <$> allocations working |> in
  let live := liveAllocationCount (allocations working) i in
  let count := if live <? unit_count i then unit_count i - live else 0 in
  let working := working <| pending_units := replacePendingUnits (pending_units working) i count now |> in
  commit_snapshot (s <| st_intents := <[intent_key i := i]> (st_intents s) |>
                     <| idempotencyKeys := <[in_idempotency_key i :=
                          mkIdentity (intent_key i) (in_version i) i]> (idempotencyKeys s) |>) now working.

(** The staged state, if any, and the response or the error. *)
Definition PreparePublishIntent {Pr} (s : StoreState Pr) (now : Z) (intent : option SchedulingIntent) :
    option (StoreState Pr) * PublishIntentResponse * option IntentError :=
  let reject e := (None, rejectedIntentResponse intent e, Some e) in
  match validateIntentStructure intent with
  | Err e => reject e
  | Ok i =>
      match check_current s i with
      | Err e => reject e
      | Ok (Some response) => (None, response, None)
      | Ok None =>
          match idempotencyKeys s !! in_idempotency_key i with
          | Some previous =>
              reject (IdempotencyConflict (q (in_idempotency_key i) +:+ " belongs to " +:+ (id_key previous).1 +:+ "/" +:+
                        (id_key previous).2 +:+ " version " +:+ FormatUint (id_version previous) +:+ " with different content"))
          | None =>
              if negb (now <? AsTime (valid_until i)) then
                reject (IntentExpiredError ("valid_until " +:+ FormatRFC3339Nano (AsTime (valid_until i)) +:+ " is not in the future"))
              else if revision (st_snapshot s) =? max_uint64 then reject RevisionExhausted
              else (Some (stage_intent s now i),
                    intentResponse intent INTENT_PUBLISH_STATUS_ACCEPTED "intent accepted", None)
          end
      end
  end.

(** [PreparedIntentPublication.Commit]: the staged state replaces the store's. *)
Definition Commit {Pr} (staged s : StoreState Pr) : StoreState Pr := staged.

Definition PublishIntent {Pr} (s : StoreState Pr) (now : Z) (intent : option SchedulingIntent) :
    StoreState Pr * PublishIntentResponse * option IntentError :=
  match PreparePublishIntent s now intent with
  | (Some staged, response, _) => (Commit staged s, response, None)
  | (None, response, e) => (s, response, e)
  end.

Definition LatestValidIntent {Pr} (s : StoreState Pr) (now : Z) (executionID stageID : string) : option SchedulingIntent :=
  i ← st_intents s !! (executionID, stageID);
  if now <? AsTime (valid_until i) then Some i else None.

Definition LatestIntent {Pr} (s : StoreState Pr) (executionID stageID : string) : option SchedulingIntent :=
  st_intents s !! (executionID, stageID).

(** Two readings of the clock: the expiry check and the commit. *)
Definition RetireExpiredIntent {Pr} (s : StoreState Pr) (checked committed : Z) (executionID stageID : string)
    (version : Z) : StoreState Pr * bool :=
  let key := (executionID, stageID) in
  match st_intents s !! key with
  | None => (s, false)
  | Some i =>
      if negb (in_version i =? version) || bool_decide (valid_until i = None) || (checked <? AsTime (valid_until i))
      then (s, false)
      else if existsb (live_of_key key) (allocations (st_snapshot s)) then (s, false)
      else
        let working := st_snapshot s in
        let working := working <| pending_units :=
          filter (λ u, ¬ (pu_execution_id u = executionID ∧ pu_stage_id u = stageID)) (pending_units working) |> in
        (commit_snapshot (s <| st_intents := delete key (st_intents s) |>) committed working, true)
  end.

(** ** Snapshots ([snapshot.go]) *)

Inductive MutateError := NilMutation | RevisionConflict (expected current : Z) | MutateExhausted | MutationFailed (e : string).

(** The mutation is the caller's; the clock is read after it. *)
Definition MutateResources {Pr} (s : StoreState Pr) (now expectedRevision : Z)
    (mutate : option (ClusterSnapshot → Result string ClusterSnapshot)) : StoreState Pr * Result MutateError ClusterSnapshot :=
  match mutate with
  | None => (s, Err NilMutation)
  | Some mutate =>
      let current := revision (st_snapshot s) in
      if negb (current =? expectedRevision) then (s, Err (RevisionConflict expectedRevision current)) else
      if current =? max_uint64 then (s, Err MutateExhausted) else
      match mutate (st_snapshot s) with
      | Err e => (s, Err (MutationFailed e))
      | Ok working => let s := commit_snapshot s now working in (s, Ok (st_snapshot s))
      end
  end.

(** One pass of the waiting loop of [GetSnapshot]: the snapshot, or [None] to wait. *)
Definition GetSnapshot {Pr} (s : StoreState Pr) (minimumRevision : Z) (includePendingUnits : bool) : option ClusterSnapshot :=
  if minimumRevision <=? revision (st_snapshot s) then
    Some (if includePendingUnits then st_snapshot s else (st_snapshot s) <| pending_units := [] |>)
  else None.

Definition Revision {Pr} (s : StoreState Pr) : Z := revision (st_snapshot s).

End Intents.
