(* ===== verification/Constraints.v ===== *)
(** * Hard constraints and scores of a placement
      ([scheduler-go/constraints/constraints.go], [scheduler-go/scoring]) *)

From Stdlib Require Import ZArith Lia.
From S2P Require Import Prelude GoStrings GoTime GoFloat ClusterModel SchedulerState Mutation Preemption Reservation Transaction Intents.
From stdpp Require Import options.

Local Open Scope Z_scope.

(** ** Resources *)

Definition ResourceIsZero (r : option ResourceVector) : bool :=
  match r with
  | None => true
  | Some r => (cpu_millis r =? 0) && (memory_bytes r =? 0) && feqb (accelerator_units r) f0 &&
              (ephemeral_storage_bytes r =? 0) && (network_bandwidth_bps r =? 0)
  end.

Definition bad_accelerators (r : ResourceVector) : bool :=
  invalidFloat (accelerator_units r) || fltb (accelerator_units r) f0.

Definition ResourceLessOrEqual (request available : option ResourceVector) : bool :=
  if from_option bad_accelerators false request then false else
  if from_option bad_accelerators false available then false else
  match request, available with
  | None, _ => true
  | Some _, None => ResourceIsZero request
  | Some r, Some a =>
      (cpu_millis r <=? cpu_millis a) && (memory_bytes r <=? memory_bytes a) &&
      fleb (accelerator_units r) (accelerator_units a) &&
      (ephemeral_storage_bytes r <=? ephemeral_storage_bytes a) &&
      (network_bandwidth_bps r <=? network_bandwidth_bps a)
  end.

Definition uintSumFits (left right limit : Z) : bool := (left <=? limit) && (right <=? limit - left).

Definition floatSumFits (left right limit : float64) : bool :=
  if invalidFloat left || invalidFloat right || invalidFloat limit || fltb left f0 || fltb right f0 || fltb limit f0
  then false
  else fleb left limit && fleb right (fsub limit left).

Definition AcceleratorShareFits (used request : float64) : bool := floatSumFits used request f1.

Definition SumFits (used request capacity : option ResourceVector) : bool :=
  let u := default zero_resources used in
  let r := default zero_resources request in
  match capacity with
  | None => ResourceIsZero (Some u) && ResourceIsZero (Some r)
  | Some c =>
      uintSumFits (cpu_millis u) (cpu_millis r) (cpu_millis c) &&
      uintSumFits (memory_bytes u) (memory_bytes r) (memory_bytes c) &&
      floatSumFits (accelerator_units u) (accelerator_units r) (accelerator_units c) &&
      uintSumFits (ephemeral_storage_bytes u) (ephemeral_storage_bytes r) (ephemeral_storage_bytes c) &&
      uintSumFits (network_bandwidth_bps u) (network_bandwidth_bps r) (network_bandwidth_bps c)
  end.

(** ** The order of the units *)

(** Earlier queued first, units without a queue time last. *)
Definition queued_less (a b : PendingUnit) : bool :=
  match queued_at a, queued_at b with
  | Some ta, Some tb => AsTime (Some ta) <? AsTime (Some tb)
  | Some _, None => true
  | None, _ => false
  end.

Definition unit_less : PendingUnit → PendingUnit → bool :=
  lex_less (λ a b, pu_priority b <? pu_priority a)
    (lex_less queued_less (λ a b, str_ltb (pending_unit_id a) (pending_unit_id b))).

(** Nil units last. *)
Definition optional_unit_less (a b : option PendingUnit) : bool :=
  match a, b with
  | Some a, Some b => unit_less a b
  | Some _, None => true
  | None, _ => false
  end.

Definition StableUnitOrder : list (option PendingUnit) → list (option PendingUnit) := sort_by optional_unit_less.

#[export] Instance unit_less_sw : StrictWeak unit_less.
Proof.
  unfold unit_less. apply lex_less_sw; [apply flip_less_sw, (key_less_sw Z.ltb), _|].
  apply lex_less_sw; [|apply (key_less_sw str_ltb), _].
  assert (Hk : StrictWeak (lex_less (λ a b : PendingUnit, from_option (λ _, 0) 1 (queued_at a) <? from_option (λ _, 0) 1 (queued_at b))
                                    (λ a b, AsTime (queued_at a) <? AsTime (queued_at b)))).
  { apply lex_less_sw; [apply (key_less_sw Z.ltb (λ u, from_option (λ _, 0) 1 (queued_at u))), _|
                        apply (key_less_sw Z.ltb (λ u, AsTime (queued_at u))), _]. }
  eapply StrictWeak_ext; [|exact Hk]. intros a b. unfold queued_less, lex_less.
  destruct (queued_at a), (queued_at b); simpl; rewrite ?Z.ltb_irrefl; done.
Qed.

(** ** Scores ([scoring.go]) *)

Section Scoring.
Context (unicode_lower : string → string).

Definition scoring_normalize (v : string) : string := ToLower unicode_lower (TrimSpace v).

(** [strings.Contains] *)
Definition Contains (s substr : string) : bool := match String.index 0 substr s with Some _ => true | None => false end.

Fixpoint match_keys (expected : string) (labels : gmap string string) (exact contains best : float64) (keys : list string) :
    float64 :=
  match keys with
  | [] => best
  | k :: keys =>
      let value := scoring_normalize (default "" (labels !! k)) in
      if bool_decide (value = expected) then exact else
      match_keys expected labels exact contains
        (if negb (bool_decide (value = "")) && Contains value expected then contains else best) keys
  end.

Definition matchLabels (expected : string) (labels : gmap string string) (keys : list string) (exact contains : float64) :
    float64 :=
  if bool_decide (expected = "") then f0 else match_keys expected labels exact contains f0 keys.

Definition TraceAffinity (intent : option SchedulingIntent) (device : option Device) : float64 :=
  match intent, device with
  | Some i, Some d =>
      let traceID := scoring_normalize (in_trace_id i) in
      let jobID := scoring_normalize (in_job_id i) in
      if bool_decide (traceID = "") && bool_decide (jobID = "") then f0 else
      let labels := device_labels d in
      let best := matchLabels traceID labels ["trace"; "trace_id"; "trace-id"] f1 (f_ratio 9 10) in
      fmax best (matchLabels jobID labels ["job"; "job_id"; "job-id"] (f_ratio 6 10) (f_ratio 5 10))
  | _, _ => f0
  end.

End Scoring.

Definition Components (capacityHeadroom shareHeadroom ready traceAffinity : float64) : gmap string float64 :=
  {[ "capacity_headroom" := capacityHeadroom; "share_headroom" := shareHeadroom;
     "ready" := ready; "trace_affinity" := traceAffinity ]}.
