(* ===== verification/Candidates.v ===== *)
(** * Evaluating a unit against a device
      ([scheduler-go/candidates/requirements.go], [resources.go])

    The feasibility and the score of placing one unit on one device, and the ledger
    of the devices they are evaluated against. *)

From Stdlib Require Import ZArith Lia Ascii.
From S2P Require Import Prelude GoStrings GoTime GoFloat ClusterModel SchedulerState Mutation Preemption Reservation Transaction Intents Constraints.
From stdpp Require Import options.

Local Open Scope Z_scope.

(** ** Data *)

Inductive CandidateRejectionReason :=
| CANDIDATE_REJECTION_REASON_UNKNOWN | CANDIDATE_REJECTION_REASON_INSUFFICIENT_RESOURCES
| CANDIDATE_REJECTION_REASON_CAPABILITY_MISMATCH | CANDIDATE_REJECTION_REASON_VALIDITY_RULE
| CANDIDATE_REJECTION_REASON_VERSION_CONSTRAINT | CANDIDATE_REJECTION_REASON_EXPIRED.

Definition reason_number (r : CandidateRejectionReason) : Z :=
  match r with
  | CANDIDATE_REJECTION_REASON_UNKNOWN => 0
  | CANDIDATE_REJECTION_REASON_INSUFFICIENT_RESOURCES => 1
  | CANDIDATE_REJECTION_REASON_CAPABILITY_MISMATCH => 2
  | CANDIDATE_REJECTION_REASON_VALIDITY_RULE => 3
  | CANDIDATE_REJECTION_REASON_VERSION_CONSTRAINT => 4
  | CANDIDATE_REJECTION_REASON_EXPIRED => 5
  end.

Record DecisionMetadata := mkDecision {
  DecisionID : string;
  RequiresSafePoint : bool;
  SafePoint : bool;
}.

Record deviceResources := mkDeviceResources {
  dr_capacity : ResourceVector;
  dr_allocatable : ResourceVector;
  dr_used : ResourceVector;
  overcommitted : bool;
}.

Record scoreValues := mkScore {
  capacityHeadroom : float64;
  shareHeadroom : float64;
  score_ready : float64;
  traceAffinity : float64;
  total : float64;
}.

Definition zero_score : scoreValues := mkScore f0 f0 f0 f0 f0.

Record pairEvaluation := mkPair {
  feasible : bool;
  pair_reason : CandidateRejectionReason;
  pair_detail : string;
  pair_score : scoreValues;
}.

Definition rejected (reason : CandidateRejectionReason) (detail : string) : pairEvaluation :=
  mkPair false reason detail zero_score.

Record deviceState := mkDeviceState {
  ds_device : Device;
  ds_resources : deviceResources;
  ds_evaluation : pairEvaluation;
}.

#[export] Instance eta_deviceResources : Eta deviceResources := λ r,
  mkDeviceResources (dr_capacity r) (dr_allocatable r) (dr_used r) (overcommitted r).
#[export] Instance eta_deviceState : Eta deviceState := λ s,
  mkDeviceState (ds_device s) (ds_resources s) (ds_evaluation s).

(** ** The ledger of the devices *)

Definition saturatingUintAdd (left right : Z) : Z :=
  if max_uint64 - left <? right then max_uint64 else left + right.

Definition saturatingCountAdd (current increment : Z) : Z :=
  if increment <=? 0 then current else saturatingUintAdd current increment.

(** [addResources] of [candidates]: saturating, where the store's wraps. *)
Definition accumulate (target : ResourceVector) (value : option ResourceVector) : ResourceVector :=
  match value with
  | None => target
  | Some v =>
      mkResources (saturatingUintAdd (cpu_millis target) (cpu_millis v))
        (saturatingUintAdd (memory_bytes target) (memory_bytes v))
        (fadd (accelerator_units target) (accelerator_units v))
        (saturatingUintAdd (ephemeral_storage_bytes target) (ephemeral_storage_bytes v))
        (saturatingUintAdd (network_bandwidth_bps target) (network_bandwidth_bps v))
  end.

(** What is left after a unit is placed: the integers were checked to fit. *)
Definition consume (r : deviceResources) (request : option ResourceVector) : deviceResources :=
  match request with
  | None => r
  | Some q =>
      let a := dr_allocatable r in
      r <| dr_allocatable :=
           mkResources (wrap64 (cpu_millis a - cpu_millis q)) (wrap64 (memory_bytes a - memory_bytes q))
             (fmax f0 (fsub (accelerator_units a) (accelerator_units q)))
             (wrap64 (ephemeral_storage_bytes a - ephemeral_storage_bytes q))
             (wrap64 (network_bandwidth_bps a - network_bandwidth_bps q)) |>
        <| dr_used := accumulate (dr_used r) request |>
  end.

Definition initial_state (d : Device) : deviceState :=
  mkDeviceState d
    (mkDeviceResources (default zero_resources (capacity d)) (default zero_resources (allocatable d)) zero_resources false)
    (rejected CANDIDATE_REJECTION_REASON_UNKNOWN "").

Definition on_device (id : string) (f : deviceResources → deviceResources) (s : deviceState) : deviceState :=
  if decide (device_id (ds_device s) = id) then s <| ds_resources := f (ds_resources s) |> else s.

(** One more allocation on a device. *)
Definition charge (a : Allocation) (r : deviceResources) : deviceResources :=
  let fits := SumFits (Some (dr_used r)) (al_resources a) (Some (dr_capacity r)) &&
              AcceleratorShareFits (accelerator_units (dr_used r)) (accelerator_units (default zero_resources (al_resources a))) in
  r <| overcommitted := overcommitted r || negb fits |> <| dr_used := accumulate (dr_used r) (al_resources a) |>.

(** A reclaimed allocation goes back to what its device can allocate. *)
Definition give_back (a : Allocation) (r : deviceResources) : deviceResources :=
  match al_resources a with
  | Some v => r <| dr_allocatable := addResourcesCapped (dr_allocatable r) v (dr_capacity r) |>
  | None => r
  end.

(** [None]: the panic of indexing the devices of a reclaimed allocation that has none. *)
Definition charge_allocation (reclaimed : gset string) (states : list deviceState) (a : Allocation) : option (list deviceState) :=
  if negb (live_state (al_state a)) then Some states else
  if bool_decide (allocation_id a ∈ reclaimed) then
    id ← head (al_device_ids a);
    Some (on_device id (give_back a) <$> states)
  else Some (foldl (λ states id, on_device id (charge a) <$> states) states (al_device_ids a)).

Fixpoint charge_allocations (reclaimed : gset string) (states : list deviceState) (als : list Allocation) :
    option (list deviceState) :=
  match als with
  | [] => Some states
  | a :: als => states ← charge_allocation reclaimed states a; charge_allocations reclaimed states als
  end.

Definition buildDeviceStates (als : list Allocation) (ds : list Device) (reclaimed : gset string) : option (list deviceState) :=
  charge_allocations reclaimed (initial_state <$> ds) (sort_by (λ a b, str_ltb (allocation_id a) (allocation_id b)) als).

(** ** Requirements *)

Section Requirements.
Context (unicode_lower : string → string).

Definition normalizeAction (v : string) : string :=
  replace_byte "-"%char "_"%char (ToLower unicode_lower (TrimSpace v)).

Definition containsNormalized (values : list string) (expected : string) : bool :=
  bool_decide (normalizeAction expected ∈ normalizeAction <$> values).

Definition missingStrings (available required : list string) (normalized : bool) : list string :=
  let f v := if normalized then normalizeAction v else v in
  sort_strings (filter (λ v, f v ∉ f <$> available) required).

Definition isEmptyCapabilityEvidence (e : CapabilityEvidence) : bool :=
  bool_decide (e = mkCapabilityEvidence "" "" 0 None "" "" ∅).

(** What is wrong with one piece of evidence. *)
Definition evidence_mismatch (available : CapabilitySet) (e : option CapabilityEvidence) : option string :=
  match e with
  | None => Some " is nil"
  | Some e =>
      if isEmptyCapabilityEvidence e then Some " is nil" else
      if bool_decide (TrimSpace (evidence_id e) = "") || bool_decide (TrimSpace (ev_source e) = "") ||
         (ev_revision e =? 0) || bool_decide (ev_observed_at e = None) || bool_decide (TrimSpace (collector e) = "")
      then Some " lacks evidence_id, source, revision, observed_at, or collector" else
      if negb (from_option Timestamp_valid false (ev_observed_at e)) then Some " observed_at is invalid" else
      if negb (bool_decide (ev_source e = cap_source available)) then Some " source does not match CapabilitySet source" else
      if ev_revision e <? cap_revision available then Some " revision is older than CapabilitySet revision" else
      if AsTime (ev_observed_at e) <? AsTime (measured_at available)
      then Some " observed_at is older than CapabilitySet measured_at" else None
  end.

Fixpoint first_evidence_mismatch (available : CapabilitySet) (index : Z) (es : list (option CapabilityEvidence)) : string :=
  match es with
  | [] => ""
  | e :: es =>
      match evidence_mismatch available e with
      | Some detail => "capability evidence " +:+ FormatInt index +:+ detail
      | None => first_evidence_mismatch available (index + 1) es
      end
  end.

Definition capabilityEvidenceMismatch (available : CapabilitySet) : string :=
  first_evidence_mismatch available 0 (cap_evidence available).

Definition invalidLimit (v : float64) : bool := invalidFloat v || fltb v f0.

Definition sorted_keys {A} (m : gmap string A) : list string := sort_strings (elements (dom m)).

Definition attribute_mismatch (available required : CapabilitySet) : option string :=
  find (λ key, negb (bool_decide (cap_attributes available !! key = cap_attributes required !! key)))
    (sorted_keys (cap_attributes required)).

Definition limit_mismatch (available required : CapabilitySet) : option string :=
  find (λ key,
    let r := default f0 (limits required !! key) in
    match limits available !! key with
    | None => true
    | Some a => invalidLimit r || invalidLimit a || fltb a r
    end) (sorted_keys (limits required)).

(** What a required set asks for that the available one lacks. *)
Definition requirement_mismatch (available required : CapabilitySet) : string :=
  let missing prefix l rest := if negb (bool_decide (l = [])) then prefix +:+ Join l "," else rest in
  if negb (bool_decide (cap_source required = "")) && negb (bool_decide (cap_source available = cap_source required))
  then "capability source mismatch" else
  if cap_revision available <? cap_revision required then "capability revision is older than required" else
  if negb (from_option Timestamp_valid true (measured_at required)) then "required CapabilitySet measured_at is invalid" else
  if from_option (λ t, AsTime (measured_at available) <? AsTime (Some t)) false (measured_at required)
  then "capability measurement is older than required" else
  missing "missing capability names: " (missingStrings (names available) (names required) false)
  (missing "missing declared algorithm capabilities: " (missingStrings (algorithms available) (algorithms required) false)
  (missing "missing declared rollout capabilities: " (missingStrings (rollout_modes available) (rollout_modes required) false)
  (missing "missing supported actions: " (missingStrings (supported_actions available) (supported_actions required) true)
  (match attribute_mismatch available required with
   | Some key => "capability attribute mismatch: " +:+ key
   | None =>
       match limit_mismatch available required with
       | Some key => "capability limit below requirement: " +:+ key
       | None => ""
       end
   end)))).

Definition capabilityMismatch (available required : option CapabilitySet) : string :=
  match available with
  | None => "device has no measured CapabilitySet"
  | Some a =>
      if bool_decide (TrimSpace (cap_source a) = "") || (cap_revision a =? 0) || bool_decide (measured_at a = None)
      then "device CapabilitySet lacks source, revision, or measured_at evidence" else
      if negb (from_option Timestamp_valid false (measured_at a)) then "device CapabilitySet measured_at is invalid" else
      let detail := capabilityEvidenceMismatch a in
      if negb (bool_decide (detail = "")) then detail else
      if negb (containsNormalized (supported_actions a) "bind") then "device does not advertise the bind action" else
      match required with
      | None => ""
      | Some r => requirement_mismatch a r
      end
  end.

(** ** Scores *)

Definition scorePrecision : float64 := f_of_Z 1000000000.

Definition roundScore (v : float64) : float64 :=
  if invalidFloat v then f0 else fdiv (fround (fmul v scorePrecision)) scorePrecision.

(** The sum of the ratios left and how many there are. *)
Definition add_ratio (acc : float64 * Z) (requested available : Z) : float64 * Z :=
  if (0 <? requested) && (0 <? available)
  then (fadd acc.1 (fdiv (f_of_Z (wrap64 (available - requested))) (f_of_Z available)), acc.2 + 1)
  else acc.

Definition headroom (available request : ResourceVector) : float64 :=
  let acc := add_ratio (f0, 0) (cpu_millis request) (cpu_millis available) in
  let acc := add_ratio acc (memory_bytes request) (memory_bytes available) in
  let acc := add_ratio acc (ephemeral_storage_bytes request) (ephemeral_storage_bytes available) in
  let acc := add_ratio acc (network_bandwidth_bps request) (network_bandwidth_bps available) in
  let r := accelerator_units request in
  let a := accelerator_units available in
  let acc := if fltb f0 r && fltb f0 a then (fadd acc.1 (fdiv (fsub a r) a), acc.2 + 1) else acc in
  if 0 <? acc.2 then fdiv acc.1 (f_of_Z acc.2) else f1.

Definition scorePair (intent : SchedulingIntent) (device : Device) (r : deviceResources) (request : ResourceVector) : scoreValues :=
  let capacity := roundScore (fmul (headroom (dr_allocatable r) request) (f_ratio 70 100)) in
  let share := roundScore (fmul (fmax f0 (fsub (fsub f1 (accelerator_units (dr_used r))) (accelerator_units request)))
                             (f_ratio 20 100)) in
  let ready := f_ratio 10 100 in
  let affinity := roundScore (fmul (TraceAffinity unicode_lower (Some intent) (Some device)) (f_ratio 30 100)) in
  mkScore capacity share ready affinity (roundScore (fadd (fadd (fadd capacity share) ready) affinity)).

Definition score_components (s : scoreValues) : gmap string float64 :=
  Components (capacityHeadroom s) (shareHeadroom s) (score_ready s) (traceAffinity s).

(** ** A unit on a device *)

Definition evaluatePair (intent : SchedulingIntent) (device : Device) (r : deviceResources) (request : option ResourceVector)
    (required : option CapabilitySet) (decision : DecisionMetadata) : pairEvaluation :=
  let validity := rejected CANDIDATE_REJECTION_REASON_VALIDITY_RULE in
  let insufficient := rejected CANDIDATE_REJECTION_REASON_INSUFFICIENT_RESOURCES in
  if negb (bool_decide (health device = DEVICE_HEALTH_READY)) then validity "device is not READY" else
  if RequiresSafePoint decision && negb (SafePoint decision)
  then validity "execution contract requires a safe point not present in the evaluated context" else
  if overcommitted r then insufficient "existing pending or active allocations exceed device capacity or aggregate share" else
  let detail := capabilityMismatch (device_capabilities device) required in
  if negb (bool_decide (detail = "")) then rejected CANDIDATE_REJECTION_REASON_CAPABILITY_MISMATCH detail else
  if negb (ResourceLessOrEqual request (Some (dr_allocatable r))) then insufficient "request exceeds allocatable resources" else
  if negb (AcceleratorShareFits (accelerator_units (dr_used r)) (accelerator_units (default zero_resources request)))
  then insufficient "aggregate pending and active accelerator share plus request exceeds 1" else
  if negb (SumFits (Some (dr_used r)) request (Some (dr_capacity r)))
  then insufficient "pending and active allocations plus request exceed device capacity" else
  mkPair true CANDIDATE_REJECTION_REASON_UNKNOWN "" (scorePair intent device r (default zero_resources request)).

End Requirements.
