(* ===== verification/CandidateEngine.v ===== *)
(** * The candidate engine ([scheduler-go/candidates/candidates.go], [evidence.go])

    Evaluating, ranking, selecting and consuming candidates for the units of a
    request.  The states of the devices are one array, the frontier a heap of
    positions in it, as the pointers of the code; a candidate is identified by its
    unit and device, of which the engine materialises one each.  The caller's
    selection and candidate factory, the SHA-256 of identifiers and the Unicode part
    of quoting and lower-casing are parameters.  The engine keeps no state between
    requests; the capacities of its slices are not modelled. *)

From Stdlib Require Import ZArith Lia.
From S2P Require Import Prelude GoStrings GoTime GoFloat GoHeap ClusterModel SchedulerState Mutation Preemption Reservation Transaction Intents Constraints Candidates.
From stdpp Require Import options.

Local Open Scope Z_scope.

(** ** Data *)

Definition DefaultEvidenceBudget : Z := 4096.

Record Config := mkConfig { TopK : Z; EvidenceBudget : Z }.

Record LedgerAdjustment := mkAdjustment {
  ReclaimAllocationIDs : list string;
  IncludeDeviceIDs : list string;
  ExcludeDeviceIDs : list string;
}.

Record Unit := mkUnit { unit_ID : string; Pending : option PendingUnit }.

Record PlacementCandidate := mkCandidate {
  candidate_id : string;
  cand_plan : option PlacementPlan;
  cand_score : float64;
  component_scores : gmap string float64;
}.

Record CandidateRejection := mkRejection {
  rejection_id : string;
  rejection_reason : CandidateRejectionReason;
  rejection_detail : string;
}.

Record CandidateInput := mkInput {
  ci_Unit : Unit;
  ci_Device : Device;
  ci_RequestedResources : option ResourceVector;
  ci_RequiredCapabilities : option CapabilitySet;
  ci_CandidateID : string;
  ci_Score : float64;
  ci_Components : gmap string float64;
}.

(** What a selection points at: nothing, one of the candidates it was given, or
    something else. *)
Inductive Choice := NoChoice | ChoiceOf (i : nat) | ForeignChoice.

(** The snapshot, the intent and the decision are passed to the callbacks too: they
    are the same throughout a request, so the callbacks are given here with them. *)
Record Request := mkRequest {
  rq_Snapshot : option ClusterSnapshot;
  rq_Intent : option SchedulingIntent;
  rq_Decision : DecisionMetadata;
  rq_Adjustment : LedgerAdjustment;
  rq_Units : list Unit;
  rq_Select : option (string → list PlacementCandidate → Z → Choice * string);
  rq_CandidateID : option (string → string → string);
  rq_BuildCandidate : option (CandidateInput → option PlacementCandidate);
  rq_Config : Config;
}.

Record Option := mkOption { op_Candidate : PlacementCandidate; op_UnitID : string; op_DeviceID : string }.

Record EngineResult := mkResult {
  re_Selected : list Option;
  re_Candidates : list PlacementCandidate;
  re_Rejections : list CandidateRejection;
  FailureUnit : string;
  re_Fallback : string;
  TotalCandidateCount : Z;
  TotalRejectionCount : Z;
  EvidenceTruncated : bool;
}.

Inductive CandidateError :=
| CandidateInvalid (message : string)
| InvalidLedgerAdjustment (message : string)
| CandidatePanic.

#[export] Instance eta_PlacementCandidate : Eta PlacementCandidate := λ c,
  mkCandidate (candidate_id c) (cand_plan c) (cand_score c) (component_scores c).
#[export] Instance eta_Request : Eta Request := λ r,
  mkRequest (rq_Snapshot r) (rq_Intent r) (rq_Decision r) (rq_Adjustment r) (rq_Units r) (rq_Select r) (rq_CandidateID r)
    (rq_BuildCandidate r) (rq_Config r).
#[export] Instance eta_EngineResult : Eta EngineResult := λ r,
  mkResult (re_Selected r) (re_Candidates r) (re_Rejections r) (FailureUnit r) (re_Fallback r) (TotalCandidateCount r)
    (TotalRejectionCount r) (EvidenceTruncated r).

(** ** Ranking ([compareRank]) *)

Definition rank_key : Type := float64 * (string * (string * string)).

(** [compareRank(a, b) < 0] *)
Definition rank_less : rank_key → rank_key → bool :=
  lex_less (λ a b, fltb b.1 a.1)
    (lex_less (λ a b, str_ltb a.2.1 b.2.1)
      (lex_less (λ a b, str_ltb a.2.2.1 b.2.2.1) (λ a b, str_ltb a.2.2.2 b.2.2.2))).

Definition state_key (s : deviceState) : rank_key := (total (pair_score (ds_evaluation s)), (device_id (ds_device s), ("", ""))).

(** The comparison of the frontier's elements, positions in the array of states; they
    are always in range. *)
Definition key_at (states : list deviceState) (i : nat) : rank_key :=
  from_option state_key (f0, ("", ("", ""))) (states !! i).
Definition frontier_less (states : list deviceState) (i j : nat) : bool := rank_less (key_at states i) (key_at states j).

(** ** Evidence ([evidence.go]) *)

Record evidenceEntry := mkEntry {
  en_candidate : option PlacementCandidate;
  en_rejection : option CandidateRejection;
  en_unitID : string;
  en_deviceID : string;
  en_selected : bool;
}.

(** The candidates already recorded, by unit and device. *)
Record evidenceCollector := mkCollector {
  budget : Z;
  entries : list evidenceEntry;
  candidates : gmap (string * string) nat;
}.

#[export] Instance eta_evidenceEntry : Eta evidenceEntry := λ e,
  mkEntry (en_candidate e) (en_rejection e) (en_unitID e) (en_deviceID e) (en_selected e).
#[export] Instance eta_evidenceCollector : Eta evidenceCollector := λ c, mkCollector (budget c) (entries c) (candidates c).

Definition hasRegularCapacity (c : evidenceCollector) : bool := Z.of_nat (length (entries c)) <? budget c.

Definition option_key (o : Option) : string * string := (op_UnitID o, op_DeviceID o).
Definition entry_of (o : Option) (selected : bool) : evidenceEntry :=
  mkEntry (Some (op_Candidate o)) None (op_UnitID o) (op_DeviceID o) selected.

Definition append_entry (c : evidenceCollector) (o : Option) (selected : bool) : evidenceCollector :=
  c <| candidates := <[option_key o := length (entries c)]> (candidates c) |>
    <| entries := entries c ++ [entry_of o selected] |>.

Definition addCandidate (c : evidenceCollector) (o : Option) : evidenceCollector :=
  if negb (hasRegularCapacity c) || bool_decide (is_Some (candidates c !! option_key o)) then c
  else append_entry c o false.

Definition addRejection (c : evidenceCollector) (unitID deviceID : string) (r : CandidateRejection) : evidenceCollector :=
  if negb (hasRegularCapacity c) then c
  else c <| entries := entries c ++ [mkEntry None (Some r) unitID deviceID false] |>.

(** The last entry that is not selected. *)
Fixpoint last_unselected (index : nat) (es : list evidenceEntry) : option (nat * evidenceEntry) :=
  match es with
  | [] => None
  | e :: es =>
      match last_unselected (S index) es with
      | Some r => Some r
      | None => if en_selected e then None else Some (index, e)
      end
  end.

Definition addSelected (c : evidenceCollector) (o : Option) : evidenceCollector :=
  match candidates c !! option_key o with
  | Some index => c <| entries := alter (λ e, e <| en_selected := true |>) index (entries c) |>
  | None =>
      if hasRegularCapacity c then append_entry c o true else
      match last_unselected 0 (entries c) with
      | Some (index, evicted) =>
          let known := match en_candidate evicted with
                       | Some _ => delete (en_unitID evicted, en_deviceID evicted) (candidates c)
                       | None => candidates c
                       end in
          c <| entries := <[index := entry_of o true]> (entries c) |> <| candidates := <[option_key o := index]> known |>
      | None => append_entry c o true
      end
  end.

Definition candidate_key (p : evidenceEntry * PlacementCandidate) : rank_key :=
  (cand_score p.2, (en_deviceID p.1, (en_unitID p.1, candidate_id p.2))).

Definition rejection_less : evidenceEntry * CandidateRejection → evidenceEntry * CandidateRejection → bool :=
  lex_less (λ a b, str_ltb (en_unitID a.1) (en_unitID b.1))
    (lex_less (λ a b, str_ltb (en_deviceID a.1) (en_deviceID b.1))
      (lex_less (λ a b, str_ltb (rejection_id a.2) (rejection_id b.2))
        (lex_less (λ a b, reason_number (rejection_reason a.2) <? reason_number (rejection_reason b.2))
           (λ a b, str_ltb (rejection_detail a.2) (rejection_detail b.2))))).

Definition project (c : evidenceCollector) : list PlacementCandidate * list CandidateRejection :=
  let cs := omap (λ e, (λ p, (e, p)) <$> en_candidate e) (entries c) in
  let rs := omap (λ e, match en_candidate e with None => (λ p, (e, p)) <$> en_rejection e | Some _ => None end) (entries c) in
  (snd <$> sort_by (λ a b, rank_less (candidate_key a) (candidate_key b)) cs, snd <$> sort_by rejection_less rs).

Section Engine.
Context (unicode_quote unicode_lower : string → string) (stableID : string → list string → string).

Local Abbreviation q := (Quote unicode_quote).

(** ** Normalisation *)

Definition normalizeConfig (c : Config) : Config :=
  mkConfig (if TopK c <=? 0 then 1 else TopK c) (if EvidenceBudget c <=? 0 then DefaultEvidenceBudget else EvidenceBudget c).

Definition synthetic_unit (id : string) : PendingUnit :=
  mkPendingUnit id "" "" 0 "" None None 0 None 0 "" "" DATA_KIND_UNKNOWN "".

Fixpoint identify_units (index : Z) (seen : gset string) (us : list Unit) : Result CandidateError (list Unit) :=
  match us with
  | [] => Ok []
  | u :: us =>
      let id := if bool_decide (unit_ID u = "") then from_option pending_unit_id "" (Pending u) else unit_ID u in
      _ ← guard_err (negb (bool_decide (id = ""))) (CandidateInvalid ("candidates: unit " +:+ FormatInt index +:+ " has an empty ID"));
      _ ← guard_err (negb (bool_decide (id ∈ seen))) (CandidateInvalid ("candidates: duplicate unit ID " +:+ q id));
      let pending := from_option pending_unit_id id (Pending u) in
      _ ← guard_err (bool_decide (pending = id))
            (CandidateInvalid ("candidates: unit ID " +:+ q id +:+ " does not match pending unit ID " +:+ q pending));
      us ← identify_units (index + 1) ({[id]} ∪ seen) us;
      Ok (mkUnit id (Pending u) :: us)
  end.

Definition unit_pending (u : Unit) : PendingUnit := default (synthetic_unit (unit_ID u)) (Pending u).

Definition normalizeUnits (us : list Unit) : Result CandidateError (list Unit) :=
  us ← identify_units 0 ∅ us;
  Ok (sort_by (λ a b, unit_less (unit_pending a) (unit_pending b)) us).

Fixpoint identify_devices (index : Z) (seen : gset string) (ds : list Device) : Result CandidateError unit :=
  match ds with
  | [] => Ok tt
  | d :: ds =>
      let id := device_id d in
      _ ← guard_err (negb (bool_decide (id = ""))) (CandidateInvalid ("candidates: device " +:+ FormatInt index +:+ " has an empty ID"));
      _ ← guard_err (negb (bool_decide (id ∈ seen))) (CandidateInvalid ("candidates: duplicate device ID " +:+ q id));
      identify_devices (index + 1) ({[id]} ∪ seen) ds
  end.

Definition normalizeDevices (ds : list Device) : Result CandidateError (list Device) :=
  _ ← identify_devices 0 ∅ ds;
  Ok (sort_by (λ a b, str_ltb (device_id a) (device_id b)) ds).

(** ** Ledger adjustments *)

Record normalizedLedgerAdjustment := mkNormalized {
  reclaimedAllocationIDs : gset string;
  includedDeviceIDs : gset string;
  excludedDeviceIDs : gset string;
}.

Fixpoint unique_sorted (l : list string) : list string :=
  match l with
  | x :: (y :: _) as l' => if decide (x = y) then unique_sorted l' else x :: unique_sorted l'
  | _ => l
  end.

Definition sortedUniqueIDs (l : list string) : list string := unique_sorted (sort_strings l).

(** The first common element of two sorted lists, in one pass. *)
Fixpoint firstSortedIntersection (fuel : nat) (left right : list string) : option string :=
  match fuel, left, right with
  | S fuel, l :: left', r :: right' =>
      if str_ltb l r then firstSortedIntersection fuel left' right
      else if str_ltb r l then firstSortedIntersection fuel left right'
      else Some l
  | _, _, _ => None
  end.

Definition AllocationState_String (st : AllocationState) : string :=
  match st with
  | ALLOCATION_STATE_UNKNOWN => "ALLOCATION_STATE_UNKNOWN"
  | ALLOCATION_STATE_PENDING => "ALLOCATION_STATE_PENDING"
  | ALLOCATION_STATE_ACTIVE => "ALLOCATION_STATE_ACTIVE"
  | ALLOCATION_STATE_RELEASING => "ALLOCATION_STATE_RELEASING"
  | ALLOCATION_STATE_RELEASED => "ALLOCATION_STATE_RELEASED"
  | ALLOCATION_STATE_FAILED => "ALLOCATION_STATE_FAILED"
  | ALLOCATION_STATE_UNNAMED n => FormatInt n
  end.

(** One allocation to reclaim. *)
Definition check_reclaim (knownDevices : gset string) (als : list Allocation) (id : string) : Result CandidateError unit :=
  let fail m := InvalidLedgerAdjustment ("reclaimed allocation " +:+ m) in
  match filter (λ a, allocation_id a = id) als with
  | [] => Err (fail (q id +:+ " does not exist in the snapshot"))
  | [a] =>
      _ ← guard_err (live_state (al_state a))
            (fail (q id +:+ " must be PENDING or ACTIVE, got " +:+ AllocationState_String (al_state a)));
      match al_device_ids a with
      | [d] => guard_err (bool_decide (d ∈ knownDevices)) (fail (q id +:+ " references unknown device " +:+ q d))
      | ds => Err (fail (q id +:+ " must reference exactly one device, got " +:+ FormatInt (Z.of_nat (length ds))))
      end
  | _ => Err (fail ("ID " +:+ q id +:+ " is not unique in the snapshot"))
  end.

Fixpoint check_each {A E} (f : A → Result E unit) (l : list A) : Result E unit :=
  match l with
  | [] => Ok tt
  | x :: l => _ ← f x; check_each f l
  end.

Definition normalizeLedgerAdjustment (input : LedgerAdjustment) (ds : list Device) (als : list Allocation) :
    Result CandidateError normalizedLedgerAdjustment :=
  if bool_decide (ReclaimAllocationIDs input = []) && bool_decide (IncludeDeviceIDs input = []) &&
     bool_decide (ExcludeDeviceIDs input = [])
  then Ok (mkNormalized ∅ ∅ ∅)
  else
    let reclaim := sortedUniqueIDs (ReclaimAllocationIDs input) in
    let include := sortedUniqueIDs (IncludeDeviceIDs input) in
    let exclude := sortedUniqueIDs (ExcludeDeviceIDs input) in
    let known : gset string := list_to_set (device_id <$> ds) in
    let exists_in label id := guard_err (bool_decide (id ∈ known))
      (InvalidLedgerAdjustment (label +:+ " device " +:+ q id +:+ " does not exist in the snapshot")) in
    _ ← match firstSortedIntersection (length include + length exclude) include exclude with
        | Some id => Err (InvalidLedgerAdjustment ("device " +:+ q id +:+ " appears in both include and exclude filters"))
        | None => Ok tt
        end;
    _ ← check_each (exists_in "included") include;
    _ ← check_each (exists_in "excluded") exclude;
    _ ← check_each (check_reclaim known als) reclaim;
    Ok (mkNormalized (list_to_set reclaim) (list_to_set include) (list_to_set exclude)).

Definition filterDevices (ds : list Device) (a : normalizedLedgerAdjustment) : list Device :=
  filter (λ d, (includedDeviceIDs a = ∅ ∨ device_id d ∈ includedDeviceIDs a) ∧ device_id d ∉ excludedDeviceIDs a) ds.

(** ** Candidates *)

Definition requirementsFor (u : Unit) (intent : SchedulingIntent) : option ResourceVector * option CapabilitySet :=
  match Pending u with
  | None => (resources_per_unit intent, required_capabilities intent)
  | Some p =>
      (match requested_resources p with Some r => Some r | None => resources_per_unit intent end,
       match pu_required_capabilities p with Some c => Some c | None => required_capabilities intent end)
  end.

Definition empty_plan (bs : list (option Binding)) : PlacementPlan :=
  mkPlan "" "" "" 0 0 bs [] None None "" "" "" DATA_KIND_UNKNOWN 0 "" "" PLAN_PURPOSE_UNKNOWN ROLLBACK_POLICY_UNKNOWN [] [] "".

Definition defaultCandidateFactory (u : Unit) (d : Device) (requested : option ResourceVector) : PlacementCandidate :=
  mkCandidate ""
    (Some (empty_plan [Some (mkBinding "" (unit_ID u) [device_id d] (Some (default zero_resources requested)) "" 0
                               (from_option pu_runtime_unit_id "" (Pending u)))])) f0 ∅.

Definition validateCandidatePlan (c : PlacementCandidate) (unitID deviceID : string) : Result CandidateError unit :=
  match bindings <$> cand_plan c with
  | Some [b] =>
      guard_err (match b with
                 | Some b => bool_decide (bi_pending_unit_id b = unitID) && bool_decide (bi_device_ids b = [deviceID])
                 | None => false end)
        (CandidateInvalid ("candidates: candidate factory binding does not match unit " +:+ q unitID +:+ " and device " +:+ q deviceID))
  | _ => Err (CandidateInvalid ("candidates: candidate factory must build exactly one binding for unit " +:+ q unitID +:+
                                " and device " +:+ q deviceID))
  end.

(** What the callbacks of a request are. *)
Record Callbacks := mkCallbacks {
  cb_id : string → string → string;
  cb_factory : option (CandidateInput → option PlacementCandidate);
}.

Definition candidateID_for (cb : Callbacks) (unitID deviceID : string) : Result CandidateError string :=
  let id := cb_id cb unitID deviceID in
  if bool_decide (id = "")
  then Err (CandidateInvalid ("candidates: candidate ID is empty for unit " +:+ q unitID +:+ " and device " +:+ q deviceID))
  else Ok id.

Definition materializeCandidate (cb : Callbacks) (u : Unit) (s : deviceState) (resources : option ResourceVector)
    (capabilities : option CapabilitySet) : Result CandidateError PlacementCandidate :=
  let d := ds_device s in
  id ← candidateID_for cb (unit_ID u) (device_id d);
  let score := total (pair_score (ds_evaluation s)) in
  let components := score_components (pair_score (ds_evaluation s)) in
  produced ← match cb_factory cb with
             | None => Ok (defaultCandidateFactory u d resources)
             | Some factory =>
                 match factory (mkInput u d resources capabilities id score components) with
                 | Some c => Ok c
                 | None => Err (CandidateInvalid ("candidates: candidate factory returned nil for unit " +:+ q (unit_ID u) +:+
                                                  " and device " +:+ q (device_id d)))
                 end
             end;
  let c := produced <| candidate_id := id |> <| cand_score := score |> <| component_scores := components |> in
  _ ← validateCandidatePlan c (unit_ID u) (device_id d);
  Ok c.

(** The candidates materialised for the unit, by position; [None] is the nil map. *)
Definition Materialized : Type := option (gmap nat PlacementCandidate).

Definition materialized_at (m : Materialized) (i : nat) : option PlacementCandidate := m ≫= (.!! i).

Fixpoint collect_states (cb : Callbacks) (u : Unit) (resources : option ResourceVector) (capabilities : option CapabilitySet)
    (retainFeasible : bool) (index : nat) (states : list deviceState) (c : evidenceCollector) (m : Materialized) :
    Result CandidateError evidenceCollector :=
  match states with
  | [] => Ok c
  | s :: states =>
      let rest := collect_states cb u resources capabilities retainFeasible (S index) states in
      if negb (hasRegularCapacity c) then Ok c else
      if feasible (ds_evaluation s) then
        if negb retainFeasible then rest c m else
        match materialized_at m index with
        | Some candidate => rest (addCandidate c (mkOption candidate (unit_ID u) (device_id (ds_device s)))) m
        | None =>
            candidate ← materializeCandidate cb u s resources capabilities;
            match m with
            | None => Err CandidatePanic
            | Some known => rest (addCandidate c (mkOption candidate (unit_ID u) (device_id (ds_device s))))
                                 (Some (<[index := candidate]> known))
            end
        end
      else
        id ← candidateID_for cb (unit_ID u) (device_id (ds_device s));
        rest (addRejection c (unit_ID u) (device_id (ds_device s))
                (mkRejection id (pair_reason (ds_evaluation s)) (pair_detail (ds_evaluation s)))) m
  end.

Definition collectUnitEvidence (cb : Callbacks) (u : Unit) (resources : option ResourceVector)
    (capabilities : option CapabilitySet) (retainFeasible : bool) (states : list deviceState) (c : evidenceCollector)
    (m : Materialized) : Result CandidateError evidenceCollector :=
  collect_states cb u resources capabilities retainFeasible 0 states c m.

(** ** The frontier *)

Definition reevaluate (intent : SchedulingIntent) (resources : option ResourceVector) (capabilities : option CapabilitySet)
    (decision : DecisionMetadata) (s : deviceState) : deviceState :=
  s <| ds_evaluation := evaluatePair unicode_lower intent (ds_device s) (ds_resources s) resources capabilities decision |>.

Definition feasible_positions (states : list deviceState) : list nat :=
  filter (λ i, from_option (λ s, feasible (ds_evaluation s)) false (states !! i) = true) (seq 0 (length states)).

Definition rebuildFrontier (states : list deviceState) (intent : SchedulingIntent) (resources : option ResourceVector)
    (capabilities : option CapabilitySet) (decision : DecisionMetadata) : list deviceState * list nat :=
  let states := reevaluate intent resources capabilities decision <$> states in
  (states, heap_Init (frontier_less states) (feasible_positions states)).

(** ** The loop over the units *)

Record EngineState := mkEngine {
  eg_states : list deviceState;
  eg_frontier : option (list nat);
  evaluatedRequest : option ResourceVector;
  evaluatedCapabilities : option CapabilitySet;
  feasibleCount : Z;
  eg_collector : evidenceCollector;
  eg_result : EngineResult;
}.

#[global] Instance eta_EngineState : Eta EngineState := λ e,
  mkEngine (eg_states e) (eg_frontier e) (evaluatedRequest e) (evaluatedCapabilities e) (feasibleCount e) (eg_collector e)
    (eg_result e).

(** What the loop over the units does not change. *)
Record EngineContext := mkContext {
  cx_intent : SchedulingIntent;
  cx_decision : DecisionMetadata;
  cx_callbacks : Callbacks;
  cx_select : option (string → list PlacementCandidate → Z → Choice * string);
  cx_topK : Z;
  cx_retain : bool;
}.

Definition refresh (cx : EngineContext) (e : EngineState) (resources : option ResourceVector)
    (capabilities : option CapabilitySet) : EngineState * list nat :=
  match eg_frontier e with
  | Some frontier =>
      if option_Equal resources_Equal (evaluatedRequest e) resources &&
         option_Equal capabilities_Equal (evaluatedCapabilities e) capabilities
      then (e, frontier)
      else
        let '(states, frontier) := rebuildFrontier (eg_states e) (cx_intent cx) resources capabilities (cx_decision cx) in
        (mkEngine states (Some frontier) resources capabilities (Z.of_nat (length frontier)) (eg_collector e) (eg_result e), frontier)
  | None =>
      let '(states, frontier) := rebuildFrontier (eg_states e) (cx_intent cx) resources capabilities (cx_decision cx) in
      (mkEngine states (Some frontier) resources capabilities (Z.of_nat (length frontier)) (eg_collector e) (eg_result e), frontier)
  end.

(** Pop the [n] best states of the frontier, materialised. *)
Fixpoint shortlist (cx : EngineContext) (u : Unit) (resources : option ResourceVector) (capabilities : option CapabilitySet)
    (states : list deviceState) (n : nat) (frontier : list nat) :
    Result CandidateError (list (nat * PlacementCandidate) * list nat) :=
  match n with
  | O => Ok ([], frontier)
  | S n =>
      match heap_Pop (frontier_less states) frontier with
      | None => Err CandidatePanic
      | Some (i, frontier) =>
          match states !! i with
          | None => Err CandidatePanic
          | Some s =>
              c ← materializeCandidate (cx_callbacks cx) u s resources capabilities;
              p ← shortlist cx u resources capabilities states n frontier;
              Ok ((i, c) :: p.1, p.2)
          end
      end
  end.

(** The outcome of the selection for a unit: the chosen position and candidate, the
    other choices popped, what was materialised; or the fallback. *)
Record Selection := mkSelection {
  sl_choice : option (nat * PlacementCandidate);
  sl_others : list nat;
  sl_materialized : Materialized;
  sl_fallback : string;
}.

Definition choose (cx : EngineContext) (u : Unit) (resources : option ResourceVector) (capabilities : option CapabilitySet)
    (states : list deviceState) (frontier : list nat) : Result CandidateError (Selection * list nat) :=
  match cx_select cx with
  | None =>
      match frontier with
      | [] => Ok (mkSelection None [] None "NO_CANDIDATE", frontier)
      | _ =>
          p ← shortlist cx u resources capabilities states 1 frontier;
          match p.1 with
          | [(i, c)] => Ok (mkSelection (Some (i, c)) [] (if cx_retain cx then Some {[ i := c ]} else None) "", p.2)
          | _ => Err CandidatePanic
          end
      end
  | Some select =>
      p ← shortlist cx u resources capabilities states
            (Z.to_nat (Z.min (cx_topK cx) (Z.of_nat (length frontier)))) frontier;
      let choices := p.1 in
      let materialized := Some (list_to_map choices) in
      if bool_decide (choices = []) then Ok (mkSelection None [] materialized "NO_CANDIDATE", p.2) else
      match select (unit_ID u) (snd <$> choices) (cx_topK cx) with
      | (ChoiceOf k, fallback) =>
          match choices !! k with
          | Some choice => Ok (mkSelection (Some choice) (fst <$> delete k choices) materialized "", p.2)
          | None => Ok (mkSelection None [] materialized "INVALID_SELECTION", p.2)
          end
      | (ForeignChoice, _) => Ok (mkSelection None [] materialized "INVALID_SELECTION", p.2)
      | (NoChoice, fallback) =>
          Ok (mkSelection None [] materialized (if bool_decide (fallback = "") then "NO_CANDIDATE" else fallback), p.2)
      end
  end.

(** The evidence of the unit, unless there is nothing to record. *)
Definition record_evidence (cx : EngineContext) (e : EngineState) (u : Unit) (resources : option ResourceVector)
    (capabilities : option CapabilitySet) (c : evidenceCollector) (m : Materialized) : Result CandidateError evidenceCollector :=
  if cx_retain cx || (feasibleCount e <? Z.of_nat (length (eg_states e)))
  then collectUnitEvidence (cx_callbacks cx) u resources capabilities (cx_retain cx) (eg_states e) c m
  else Ok c.

(** The chosen state consumes the request and is evaluated again. *)
Definition consume_at (cx : EngineContext) (resources : option ResourceVector) (capabilities : option CapabilitySet) (i : nat)
    (states : list deviceState) : list deviceState :=
  alter (λ s, reevaluate (cx_intent cx) resources capabilities (cx_decision cx)
                (s <| ds_resources := consume (ds_resources s) resources |>)) i states.

(** One unit; the flag tells whether the loop stops. *)
Definition evaluate_unit (cx : EngineContext) (e : EngineState) (u : Unit) : Result CandidateError (EngineState * bool) :=
  let '(resources, capabilities) := requirementsFor u (cx_intent cx) in
  let '(e, frontier) := refresh cx e resources capabilities in
  let e := e <| eg_result := (eg_result e)
                <| TotalCandidateCount := saturatingCountAdd (TotalCandidateCount (eg_result e)) (feasibleCount e) |>
                <| TotalRejectionCount := saturatingCountAdd (TotalRejectionCount (eg_result e))
                                            (Z.of_nat (length (eg_states e)) - feasibleCount e) |> |> in
  p ← choose cx u resources capabilities (eg_states e) frontier;
  let '(sel, frontier) := p in
  match sl_choice sel with
  | None =>
      c ← record_evidence cx e u resources capabilities (eg_collector e) (sl_materialized sel);
      Ok (e <| eg_frontier := Some frontier |> <| eg_collector := c |>
            <| eg_result := (eg_result e) <| FailureUnit := unit_ID u |> <| re_Fallback := sl_fallback sel |> |>, true)
  | Some (i, candidate) =>
      match eg_states e !! i with
      | None => Err CandidatePanic
      | Some s =>
          let o := mkOption candidate (unit_ID u) (device_id (ds_device s)) in
          c ← record_evidence cx e u resources capabilities (addSelected (eg_collector e) o) (sl_materialized sel);
          let frontier := foldl (heap_Push (frontier_less (eg_states e))) frontier (sl_others sel) in
          let states := consume_at cx resources capabilities i (eg_states e) in
          let still := from_option (λ s, feasible (ds_evaluation s)) false (states !! i) in
          Ok (e <| eg_states := states |> <| eg_collector := c |>
                <| eg_frontier := Some (if still then heap_Push (frontier_less states) frontier i else frontier) |>
                <| feasibleCount := if still then feasibleCount e else feasibleCount e - 1 |>
                <| eg_result := (eg_result e) <| re_Selected := re_Selected (eg_result e) ++ [o] |> |>, false)
      end
  end.

Fixpoint evaluate_units (cx : EngineContext) (e : EngineState) (us : list Unit) : Result CandidateError EngineState :=
  match us with
  | [] => Ok e
  | u :: us =>
      evaluate_unit cx e u ≫= λ p : EngineState * bool,
        if p.2 then Ok p.1 else evaluate_units cx p.1 us
  end.

Definition pairSurfaceFitsBudget (unitCount deviceCount budget : Z) : bool :=
  if (unitCount <=? 0) || (deviceCount <=? 0) then true else deviceCount <=? budget / unitCount.

Definition empty_result : EngineResult := mkResult [] [] [] "" "" 0 0 false.

Definition defaultCandidateID (snap : ClusterSnapshot) (intent : SchedulingIntent) (unitID deviceID : string) : string :=
  stableID "candidate" [unitID; deviceID; FormatUint (revision snap); FormatUint (in_version intent)].

(** The result, with the evidence projected. *)
Definition finish (e : EngineState) : EngineResult :=
  let '(cs, rs) := project (eg_collector e) in
  let r := eg_result e in
  let recorded := Z.of_nat (length cs) + Z.of_nat (length rs) in
  r <| re_Candidates := cs |> <| re_Rejections := rs |>
    <| EvidenceTruncated := recorded <? saturatingUintAdd (TotalCandidateCount r) (TotalRejectionCount r) |>.

Definition initial_engine (budget : Z) (states : list deviceState) : EngineState :=
  mkEngine states None None None 0 (mkCollector budget [] ∅) empty_result.

Definition Evaluate (request : Request) : Result CandidateError EngineResult :=
  match rq_Snapshot request, rq_Intent request with
  | None, _ => Err (CandidateInvalid "candidates: snapshot must not be nil")
  | _, None => Err (CandidateInvalid "candidates: intent must not be nil")
  | Some snap, Some intent =>
      let config := normalizeConfig (rq_Config request) in
      us ← normalizeUnits (rq_Units request);
      ds ← normalizeDevices (devices snap);
      adjustment ← normalizeLedgerAdjustment (rq_Adjustment request) ds (allocations snap);
      match buildDeviceStates (allocations snap) (filterDevices ds adjustment) (reclaimedAllocationIDs adjustment) with
      | None => Err CandidatePanic
      | Some states =>
          if bool_decide (us = []) then Ok empty_result else
          let retain := bool_decide (is_Some (rq_Select request)) ||
            pairSurfaceFitsBudget (Z.of_nat (length us)) (Z.of_nat (length states)) (EvidenceBudget config) in
          let cb := mkCallbacks (default (defaultCandidateID snap intent) (rq_CandidateID request)) (rq_BuildCandidate request) in
          let cx := mkContext intent (rq_Decision request) cb (rq_Select request) (TopK config) retain in
          e ← evaluate_units cx (initial_engine (EvidenceBudget config) states) us;
          Ok (finish e)
      end
  end.

End Engine.
