(* ===== verification/Projection.v ===== *)
(** * The provider projection ([scheduler-go/state/provider_projection.go],
      [internal/protocolmeta/lifecycle.go], the projection's part of [snapshot.go])

    Events of resource providers and sandboxes projected into the store under
    revision and generation fences, the sandboxes' cursors with the identities they
    have seen, and the repair of the allocation ledger against a provider inventory.
    The zero [time.Time] of a cursor is [GoTime.zero_time]. *)

From Stdlib Require Import ZArith Lia.
From S2P Require Import Prelude GoStrings GoTime GoFloat ClusterModel SchedulerState Mutation Preemption Reservation Transaction Intents.
From stdpp Require Import options.

Local Open Scope Z_scope.

(** ** Messages *)

Inductive RuntimeState :=
| RUNTIME_STATE_UNKNOWN | RUNTIME_STATE_REQUESTED | RUNTIME_STATE_BOUND | RUNTIME_STATE_RUNNING
| RUNTIME_STATE_PAUSED | RUNTIME_STATE_SLEEPING | RUNTIME_STATE_FAILED | RUNTIME_STATE_TERMINATED
| RUNTIME_STATE_VALIDATING | RUNTIME_STATE_COMPILING | RUNTIME_STATE_PREPARING | RUNTIME_STATE_STARTING
| RUNTIME_STATE_PAUSING | RUNTIME_STATE_RESUMING | RUNTIME_STATE_CHECKPOINTING | RUNTIME_STATE_STOPPING
| RUNTIME_STATE_TERMINATING | RUNTIME_STATE_UNNAMED (n : Z).

#[export] Instance RuntimeState_eq_dec : EqDecision RuntimeState.
Proof. solve_decision. Defined.

(** A [SemanticEnvelope]: its attributes, the rest carried along. *)
Record Envelope := mkEnvelope { env_attributes : gmap string string; env_carried : string }.

#[export] Instance Envelope_eq_dec : EqDecision Envelope.
Proof. solve_decision. Defined.

Record Sandbox := mkSandbox {
  sandbox_id : string;
  sb_run_id : string;
  sb_job_id : string;
  sb_trace_id : string;
  sb_state : RuntimeState;
  sb_generation : Z;
  sb_binding : option Binding;
  sb_share : float64;
  sb_priority : Z;
  safe_point : bool;
  offloaded : bool;
  sb_observed_at : option Timestamp;
  sb_data_kind : DataKind;
  semantic_context : option Envelope;
  sb_carried : string;
  state_changed_at : option Timestamp;
  last_confirmed_at : option Timestamp;
}.

#[export] Instance eta_Sandbox : Eta Sandbox := λ s,
  mkSandbox (sandbox_id s) (sb_run_id s) (sb_job_id s) (sb_trace_id s) (sb_state s) (sb_generation s) (sb_binding s)
    (sb_share s) (sb_priority s) (safe_point s) (offloaded s) (sb_observed_at s) (sb_data_kind s) (semantic_context s)
    (sb_carried s) (state_changed_at s) (last_confirmed_at s).

Definition sandbox_Equal (a b : Sandbox) : bool :=
  bool_decide ((sandbox_id a, sb_run_id a, sb_job_id a, sb_trace_id a, sb_state a, sb_generation a, sb_priority a, safe_point a, offloaded a) =
               (sandbox_id b, sb_run_id b, sb_job_id b, sb_trace_id b, sb_state b, sb_generation b, sb_priority b, safe_point b, offloaded b)) &&
  bool_decide ((sb_observed_at a, sb_data_kind a, semantic_context a, sb_carried a, state_changed_at a, last_confirmed_at a) =
               (sb_observed_at b, sb_data_kind b, semantic_context b, sb_carried b, state_changed_at b, last_confirmed_at b)) &&
  option_Equal binding_Equal (sb_binding a) (sb_binding b) && double_Equal (sb_share a) (sb_share b).

(** The optional fields are absent or set. *)
Record SandboxEvent := mkSandboxEvent {
  sv_event_id : string;
  sv_sandbox_id : string;
  sv_run_id : string;
  sv_job_id : string;
  sv_trace_id : string;
  sv_generation : Z;
  sv_state : RuntimeState;
  sv_binding : option Binding;
  sv_safe_point : option bool;
  occurred_at : option Timestamp;
  sv_data_kind : DataKind;
  sv_semantic_context : option Envelope;
  provider_revision : Z;
  sv_idempotency_key : string;
  sv_share : option float64;
  sv_priority : option Z;
  sv_offloaded : option bool;
}.

Inductive ResourceEventType :=
| RESOURCE_EVENT_TYPE_SNAPSHOT_PUBLISHED | RESOURCE_EVENT_TYPE_DEVICE_CHANGED
| RESOURCE_EVENT_TYPE_ALLOCATION_CHANGED | RESOURCE_EVENT_TYPE_PENDING_UNIT_CHANGED
| RESOURCE_EVENT_TYPE_CAPABILITY_REFRESHED | RESOURCE_EVENT_TYPE_UNNAMED (n : Z).

Record ResourceEvent := mkResourceEvent {
  re_event_id : string;
  re_event_type : ResourceEventType;
  re_provider_revision : Z;
  re_provider : string;
  re_snapshot : option ClusterSnapshot;
  re_device : option Device;
  re_allocation : option Allocation;
  re_pending_unit : option PendingUnit;
  re_capabilities : option CapabilitySet;
}.

(** ** The run-retirement attribute ([lifecycle.go]) *)

Definition RunRetirementAttribute : string := "tgsrl.io/run-retirement".

Definition SetRunRetirement (event : SandboxEvent) (retire : bool) : SandboxEvent :=
  let env := default (mkEnvelope ∅ "") (sv_semantic_context event) in
  let env := mkEnvelope (<[RunRetirementAttribute := if retire then "true" else "false"]> (env_attributes env))
               (env_carried env) in
  mkSandboxEvent (sv_event_id event) (sv_sandbox_id event) (sv_run_id event) (sv_job_id event) (sv_trace_id event)
    (sv_generation event) (sv_state event) (sv_binding event) (sv_safe_point event) (occurred_at event)
    (sv_data_kind event) (Some env) (provider_revision event) (sv_idempotency_key event) (sv_share event)
    (sv_priority event) (sv_offloaded event).

Definition EnvelopeRetiresRun (e : option Envelope) : bool :=
  bool_decide (e ≫= (λ e, env_attributes e !! RunRetirementAttribute) = Some "true").

Definition RetiresRun (event : SandboxEvent) : bool := EnvelopeRetiresRun (sv_semantic_context event).

Definition HasRunRetirementDisposition (e : option Envelope) : bool :=
  bool_decide (is_Some (e ≫= (λ e, env_attributes e !! RunRetirementAttribute))).

(** ** Cursors *)

Record providerResourceCursor := mkResourceCursor { rc_revision : Z; rc_eventID : string }.

Record providerSandboxCursor := mkSandboxCursor {
  cu_generation : Z;
  cu_providerRevision : Z;
  cu_eventID : string;
  cu_idempotencyKey : string;
  cu_occurredAt : Z;
  seenEventIDs : gset string;
  seenIdempotency : gset string;
}.

#[export] Instance eta_providerSandboxCursor : Eta providerSandboxCursor := λ c,
  mkSandboxCursor (cu_generation c) (cu_providerRevision c) (cu_eventID c) (cu_idempotencyKey c) (cu_occurredAt c)
    (seenEventIDs c) (seenIdempotency c).

Record providerProjectionState := mkProjection {
  resourceCursors : gmap string providerResourceCursor;
  sandboxes : gmap string Sandbox;
  sandboxCursors : gmap string providerSandboxCursor;
}.

#[export] Instance eta_projection : Eta providerProjectionState := λ p,
  mkProjection (resourceCursors p) (sandboxes p) (sandboxCursors p).

Definition newProviderProjectionState : providerProjectionState := mkProjection ∅ ∅ ∅.

Definition timestampTime (t : option Timestamp) : Z :=
  match t with
  | Some t => if Timestamp_valid t then AsTime (Some t) else zero_time
  | None => zero_time
  end.

Definition acceptResourceCursorLocked (p : providerProjectionState) (provider : string) (revision : Z) (eventID : string) :
    providerProjectionState * bool :=
  let refused := match resourceCursors p !! provider with
                 | Some current =>
                     (revision <? rc_revision current) ||
                     ((revision =? rc_revision current) && negb (bool_decide (eventID = "")) &&
                      bool_decide (eventID = rc_eventID current))
                 | None => false
                 end in
  if refused then (p, false)
  else (p <| resourceCursors := <[provider := mkResourceCursor revision eventID]> (resourceCursors p) |>, true).

Definition duplicateSandboxEvent (c : providerSandboxCursor) (e : SandboxEvent) : bool :=
  if negb (bool_decide (sv_event_id e = ""))
  then bool_decide (sv_event_id e = cu_eventID c) || bool_decide (sv_event_id e ∈ seenEventIDs c)
  else if bool_decide (sv_idempotency_key e = "") then false
  else bool_decide (sv_idempotency_key e = cu_idempotencyKey c) || bool_decide (sv_idempotency_key e ∈ seenIdempotency c).

Definition remember (id : string) (s : gset string) : gset string := if decide (id = "") then s else {[id]} ∪ s.

Definition rememberSandboxCursorIdentity (c : providerSandboxCursor) : providerSandboxCursor :=
  c <| seenEventIDs := remember (cu_eventID c) (seenEventIDs c) |>
    <| seenIdempotency := remember (cu_idempotencyKey c) (seenIdempotency c) |>.

(** The rank of a state in [runtimeStateRegresses]. *)
Definition state_rank (st : RuntimeState) : option Z :=
  match st with
  | RUNTIME_STATE_REQUESTED => Some 1
  | RUNTIME_STATE_BOUND => Some 2
  | RUNTIME_STATE_RUNNING => Some 3
  | RUNTIME_STATE_PAUSED => Some 4
  | RUNTIME_STATE_SLEEPING => Some 5
  | RUNTIME_STATE_FAILED => Some 6
  | RUNTIME_STATE_TERMINATED => Some 7
  | _ => None
  end.

Definition runtimeStateRegresses (current next : RuntimeState) : bool :=
  if decide (current = next) then false
  else if decide ((current = RUNTIME_STATE_PAUSED ∨ current = RUNTIME_STATE_SLEEPING) ∧ next = RUNTIME_STATE_RUNNING)
  then false
  else match state_rank current with
       | Some c => match state_rank next with Some n => n <? c | None => true end
       | None => false
       end.

(** The occurrence advances and the state does not regress. *)
Definition advances (c : providerSandboxCursor) (sandbox : option Sandbox) (incoming : Z) (next : RuntimeState) : bool :=
  if IsZero incoming || negb (cu_occurredAt c <? incoming) then false
  else match sandbox with Some s => negb (runtimeStateRegresses (sb_state s) next) | None => true end.

Definition acceptSameGenerationSandboxEvent (c : providerSandboxCursor) (sandbox : option Sandbox) (e : SandboxEvent) : bool :=
  let rev := provider_revision e in
  if (0 <? rev) && (cu_providerRevision c =? 0) then true
  else if (0 <? rev) && (rev <? cu_providerRevision c) then false
  else if (0 <? rev) && (cu_providerRevision c <? rev) then true
  else advances c sandbox (timestampTime (occurred_at e)) (sv_state e).

Definition acceptSandboxBootstrap (c : providerSandboxCursor) (sandbox : option Sandbox) (incoming : Sandbox) : bool :=
  if sb_generation incoming <? cu_generation c then false
  else if cu_generation c <? sb_generation incoming then true
  else advances c sandbox (timestampTime (sb_observed_at incoming)) (sb_state incoming).

(** The cursor an accepted event leaves. *)
Definition next_cursor (current : option providerSandboxCursor) (e : SandboxEvent) : providerSandboxCursor :=
  let same := match current with
              | Some c => if sv_generation e =? cu_generation c then Some c else None
              | None => None
              end in
  let rev := provider_revision e in
  rememberSandboxCursorIdentity
    (mkSandboxCursor (sv_generation e)
       (if rev =? 0 then from_option cu_providerRevision 0 same else rev)
       (sv_event_id e) (sv_idempotency_key e) (timestampTime (occurred_at e))
       (from_option seenEventIDs ∅ same) (from_option seenIdempotency ∅ same)).

Definition acceptSandboxCursorLocked (p : providerProjectionState) (sandbox : option Sandbox) (e : SandboxEvent) :
    providerProjectionState * bool :=
  let current := sandboxCursors p !! sv_sandbox_id e in
  let refused := match current with
                 | Some c =>
                     (sv_generation e <? cu_generation c) || duplicateSandboxEvent c e ||
                     ((sv_generation e =? cu_generation c) && negb (acceptSameGenerationSandboxEvent c sandbox e))
                 | None => false
                 end in
  if refused then (p, false)
  else (p <| sandboxCursors := <[sv_sandbox_id e := next_cursor current e]> (sandboxCursors p) |>, true).

(** ** Projecting sandboxes *)

Definition effectiveSandboxStateChangedAt (s : Sandbox) : option Timestamp :=
  match state_changed_at s with Some t => Some t | None => sb_observed_at s end.

Definition stampSandboxConfirmation (current : option Sandbox) (next : Sandbox) (confirmedAt : Z) : Sandbox :=
  let stamp := Some (timestamp_New confirmedAt) in
  next <| last_confirmed_at := stamp |>
       <| state_changed_at :=
            match current with
            | Some c =>
                if (sb_generation c =? sb_generation next) && bool_decide (sb_state c = sb_state next)
                then effectiveSandboxStateChangedAt c else stamp
            | None => stamp
            end |>.

Definition terminalRuntimeState (st : RuntimeState) : bool :=
  bool_decide (st = RUNTIME_STATE_TERMINATED) || bool_decide (st = RUNTIME_STATE_FAILED).

Definition mergeDurableSandboxDisposition (current : option Sandbox) (incoming : Sandbox) : Sandbox :=
  match current with
  | Some c =>
      if negb (sb_generation c =? sb_generation incoming) || bool_decide (sb_run_id c = "") ||
         negb (bool_decide (sb_run_id c = sb_run_id incoming)) ||
         negb (terminalRuntimeState (sb_state c)) || negb (terminalRuntimeState (sb_state incoming)) ||
         HasRunRetirementDisposition (semantic_context incoming) ||
         negb (HasRunRetirementDisposition (semantic_context c))
      then incoming
      else
        let env := default (mkEnvelope ∅ "") (semantic_context incoming) in
        let value := default "" (semantic_context c ≫= (λ e, env_attributes e !! RunRetirementAttribute)) in
        incoming <| semantic_context := Some (mkEnvelope (<[RunRetirementAttribute := value]> (env_attributes env))
                                                (env_carried env)) |>
  | None => incoming
  end.

(** The sandbox a first event describes. *)
Definition event_sandbox (e : SandboxEvent) : Sandbox :=
  mkSandbox (sv_sandbox_id e) (sv_run_id e) (sv_job_id e) (sv_trace_id e) (sv_state e) (sv_generation e)
    (sv_binding e) (default f0 (sv_share e)) (default 0 (sv_priority e)) (default false (sv_safe_point e))
    (default false (sv_offloaded e)) (occurred_at e) (sv_data_kind e) (sv_semantic_context e) "" None None.

(** A later event over the sandbox projected so far. *)
Definition merge_event (c : Sandbox) (e : SandboxEvent) : Sandbox :=
  c <| sb_run_id := firstNonEmpty (sv_run_id e) (sb_run_id c) |>
    <| sb_job_id := firstNonEmpty (sv_job_id e) (sb_job_id c) |>
    <| sb_trace_id := firstNonEmpty (sv_trace_id e) (sb_trace_id c) |>
    <| sb_state := sv_state e |> <| sb_generation := sv_generation e |>
    <| sb_binding := match sv_binding e with Some b => Some b | None => sb_binding c end |>
    <| safe_point := default (safe_point c) (sv_safe_point e) |>
    <| sb_share := default (sb_share c) (sv_share e) |>
    <| sb_priority := default (sb_priority c) (sv_priority e) |>
    <| offloaded := default (offloaded c) (sv_offloaded e) |>
    <| sb_observed_at := occurred_at e |> <| sb_data_kind := sv_data_kind e |>
    <| semantic_context :=
         match sv_semantic_context e with
         | Some env => Some env
         | None => if sv_generation e =? sb_generation c then semantic_context c else None
         end |>.

Definition project_event (current : option Sandbox) (e : SandboxEvent) (confirmedAt : Z) : Sandbox :=
  stampSandboxConfirmation current
    (match current with Some c => merge_event c e | None => event_sandbox e end) confirmedAt.
