(* ===== verification/ProviderEvents.v ===== *)
(** * The provider projection: operations of the store
      ([scheduler-go/state/provider_projection.go], [snapshot.go])

    Each operation takes the readings of the clock it may make, in order.  A nil
    [allocatable] of a device an allocation is released to is Go's panic
    ([NilDereference]). *)

From Stdlib Require Import ZArith Lia.
From S2P Require Import Prelude GoStrings GoTime GoFloat ClusterModel SchedulerState Mutation Preemption Reservation Transaction Intents Projection.
From stdpp Require Import options.

Local Open Scope Z_scope.

Definition State : Type := StoreState providerProjectionState.

(** ** Resource events *)

(** A provider's snapshot with the store's own allocations and pending units. *)
Definition with_authority (s : State) (provider : ClusterSnapshot) : ClusterSnapshot :=
  provider <| allocations := allocations (st_snapshot s) |> <| pending_units := pending_units (st_snapshot s) |>.

(** The answer: the snapshot and whether the state changed. *)
Definition commit_if_changed (s : State) (now : Z) (working : ClusterSnapshot) : State * (ClusterSnapshot * bool) :=
  if snapshot_Equal working (st_snapshot s) then (s, (st_snapshot s, false))
  else let s := commit_snapshot s now working in (s, (st_snapshot s, true)).

Definition BootstrapProviderSnapshot (s : State) (now : Z) (provider : string) (snap : option ClusterSnapshot) :
    State * Result string (ClusterSnapshot * bool) :=
  match snap with
  | None => (s, Err "state: provider snapshot is nil")
  | Some snap =>
      match acceptResourceCursorLocked (providerProjection s) provider (revision snap) "bootstrap-snapshot" with
      | (_, false) => (s, Ok (st_snapshot s, false))
      | (p, true) =>
          let '(s, answer) := commit_if_changed (s <| providerProjection := p |>) now (with_authority s snap) in
          (s, Ok answer)
      end
  end.

(** Replace the first element with the key, or append. *)
Fixpoint upsert {A} (key : A → string) (x : A) (l : list A) : list A :=
  match l with
  | [] => [x]
  | y :: l => if decide (key y = key x) then x :: l else y :: upsert key x l
  end.

Definition upsertProjectedDevice (snap : ClusterSnapshot) (d : Device) : ClusterSnapshot :=
  snap <| devices := upsert device_id d (devices snap) |>.
Definition upsertProjectedAllocation (snap : ClusterSnapshot) (a : Allocation) : ClusterSnapshot :=
  snap <| allocations := upsert allocation_id a (allocations snap) |>.
Definition upsertProjectedPendingUnit (snap : ClusterSnapshot) (u : PendingUnit) : ClusterSnapshot :=
  snap <| pending_units := upsert pending_unit_id u (pending_units snap) |>.

Definition with_capabilities (caps : CapabilitySet) (d : Device) : Device := d <| device_capabilities := Some caps |>.

(** The snapshot an event asks for; [None] when its type asks for nothing. *)
Definition event_snapshot (s : State) (e : ResourceEvent) : Result string (option ClusterSnapshot) :=
  let missing {A} (x : option A) message (f : A → ClusterSnapshot) :=
    match x with Some x => Ok (Some (f x)) | None => Err message end in
  let working := st_snapshot s in
  match re_event_type e with
  | RESOURCE_EVENT_TYPE_SNAPSHOT_PUBLISHED =>
      missing (re_snapshot e) "state: snapshot event missing snapshot" (with_authority s)
  | RESOURCE_EVENT_TYPE_DEVICE_CHANGED =>
      missing (re_device e) "state: device event missing device" (upsertProjectedDevice working)
  | RESOURCE_EVENT_TYPE_ALLOCATION_CHANGED =>
      missing (re_allocation e) "state: allocation event missing allocation" (upsertProjectedAllocation working)
  | RESOURCE_EVENT_TYPE_PENDING_UNIT_CHANGED =>
      missing (re_pending_unit e) "state: pending unit event missing pending unit" (upsertProjectedPendingUnit working)
  | RESOURCE_EVENT_TYPE_CAPABILITY_REFRESHED =>
      missing (re_capabilities e) "state: capability event missing capabilities"
        (λ caps, working <| devices := with_capabilities caps <$> devices working |>)
  | RESOURCE_EVENT_TYPE_UNNAMED _ => Ok None
  end.

(** The cursor is advanced before the event is examined, and stays so when it fails. *)
Definition ApplyProviderResourceEvent (s : State) (now : Z) (event : option ResourceEvent) :
    State * Result string (ClusterSnapshot * bool) :=
  match event with
  | None => (s, Err "state: resource event is nil")
  | Some e =>
      match acceptResourceCursorLocked (providerProjection s) (re_provider e) (re_provider_revision e) (re_event_id e) with
      | (_, false) => (s, Ok (st_snapshot s, false))
      | (p, true) =>
          let s := s <| providerProjection := p |> in
          match event_snapshot s e with
          | Err message => (s, Err message)
          | Ok None => (s, Ok (st_snapshot s, false))
          | Ok (Some working) => let '(s, answer) := commit_if_changed s now working in (s, Ok answer)
          end
      end
  end.

(** ** Replacing the sandboxes *)

Definition equalProjectedSandboxes (left right : gmap string Sandbox) : bool :=
  bool_decide (dom left = dom right) &&
  forallb (λ '(id, a), from_option (sandbox_Equal a) false (right !! id)) (map_to_list left).

(** One sandbox of the supplied list, over the sandboxes and cursors gathered so far. *)
Definition replace_sandbox (p : providerProjectionState) (confirmedAt : Z)
    (acc : gmap string Sandbox * gmap string providerSandboxCursor) (sandbox : option Sandbox) :
    Result string (gmap string Sandbox * gmap string providerSandboxCursor) :=
  match sandbox with
  | None => Err "state: sandbox bootstrap requires sandbox_id"
  | Some sb =>
      let id := sandbox_id sb in
      _ ← guard_err (negb (bool_decide (id = ""))) "state: sandbox bootstrap requires sandbox_id";
      _ ← guard_err (from_option Timestamp_valid true (sb_observed_at sb)) "state: sandbox bootstrap has invalid observed_at";
      let current := sandboxes p !! id in
      let cursor := match sandboxCursors p !! id, current with
                    | Some c, _ => Some c
                    | None, Some s => Some (mkSandboxCursor (sb_generation s) 0 "" "" (timestampTime (sb_observed_at s)) ∅ ∅)
                    | None, None => None
                    end in
      if from_option (λ c, negb (acceptSandboxBootstrap c current sb)) false cursor
      then Ok (match current with Some s => <[id := s]> acc.1 | None => acc.1 end, acc.2)
      else
        let next := stampSandboxConfirmation current (mergeDurableSandboxDisposition current sb) confirmedAt in
        let c := match cursor with
                 | Some c => if cu_generation c <? sb_generation sb
                             then mkSandboxCursor (sb_generation sb) 0 "bootstrap-sandbox" "" zero_time ∅ ∅ else c
                 | None => mkSandboxCursor (sb_generation sb) 0 "bootstrap-sandbox" "" zero_time ∅ ∅
                 end in
        let c := rememberSandboxCursorIdentity (c <| cu_occurredAt := timestampTime (sb_observed_at sb) |>) in
        Ok (<[id := next]> acc.1, <[id := c]> acc.2)
  end.

Fixpoint replace_sandboxes (p : providerProjectionState) (confirmedAt : Z)
    (acc : gmap string Sandbox * gmap string providerSandboxCursor) (sbs : list (option Sandbox)) :
    Result string (gmap string Sandbox * gmap string providerSandboxCursor) :=
  match sbs with
  | [] => Ok acc
  | sb :: sbs => acc ← replace_sandbox p confirmedAt acc sb; replace_sandboxes p confirmedAt acc sbs
  end.

Definition ReplaceProjectedSandboxes (s : State) (confirmedAt : Z) (sbs : list (option Sandbox)) :
    State * Result string bool :=
  let p := providerProjection s in
  match replace_sandboxes p confirmedAt (∅, sandboxCursors p) sbs with
  | Err message => (s, Err message)
  | Ok (nextSandboxes, nextCursors) =>
      if equalProjectedSandboxes (sandboxes p) nextSandboxes
      then (s <| providerProjection := p <| sandboxCursors := nextCursors |> |>, Ok false)
      else (s <| providerProjection := p <| sandboxes := nextSandboxes |> <| sandboxCursors := nextCursors |> |>, Ok true)
  end.

(** ** Matching allocations *)

Definition sandboxMatchesAllocation (a : Allocation) (sandbox : option Sandbox) : bool :=
  match sandbox with
  | None => false
  | Some s =>
      if negb (al_generation a =? sb_generation s) then false
      else if negb (bool_decide (al_sandbox_id a = "")) then bool_decide (al_sandbox_id a = sandbox_id s)
      else match sb_binding s with
           | Some b => negb (bool_decide (al_binding_id a = "")) && bool_decide (al_binding_id a = binding_id b)
           | None => false
           end
  end.

(** What the matching reads of an event. *)
Record TerminalEvent := mkTerminalEvent {
  te_run_id : string;
  te_sandbox_id : string;
  te_generation : Z;
  te_binding : option Binding;
}.

Definition terminal_event (e : SandboxEvent) : TerminalEvent :=
  mkTerminalEvent (sv_run_id e) (sv_sandbox_id e) (sv_generation e) (sv_binding e).

Definition allocationMatchesTerminalEvent (a : Allocation) (e : TerminalEvent) : bool :=
  if negb (al_generation a =? te_generation e) then false
  else if negb (bool_decide (al_sandbox_id a = "")) || negb (bool_decide (te_sandbox_id e = ""))
  then negb (bool_decide (al_sandbox_id a = "")) && bool_decide (al_sandbox_id a = te_sandbox_id e)
  else match te_binding e with
       | Some b => negb (bool_decide (al_binding_id a = "")) && bool_decide (al_binding_id a = binding_id b)
       | None => false
       end.

Definition of_run (runID : string) (a : Allocation) : bool := bool_decide (al_run_id a = runID).

(** Every allocation of the event's run matches it or a terminal sandbox; there is one. *)
Definition allRunAllocationsTerminal (als : list Allocation) (observed : gmap string Sandbox) (e : TerminalEvent) : bool :=
  let matched := filter (λ a, of_run (te_run_id e) a = true) als in
  negb (bool_decide (matched = [])) &&
  forallb (λ a,
    allocationMatchesTerminalEvent a e ||
    match observed !! al_sandbox_id a with
    | Some s => sandboxMatchesAllocation a (Some s) && terminalRuntimeState (sb_state s)
    | None => false
    end) matched.

(** Release the allocations for which [release] holds; keep the others. *)
Fixpoint release_where (release : Allocation → bool) (ds : list Device) (als : list Allocation) :
    Result StateError (list Allocation * list Device) :=
  match als with
  | [] => Ok ([], ds)
  | a :: als =>
      if release a then
        ds ← release_devices ds (al_device_ids a) (al_resources a);
        release_where release ds als
      else p ← release_where release ds als; Ok (a :: p.1, p.2)
  end.

(** The run retired: allocations, intents and pending units gone; [None] when it is not. *)
Definition retireRunFromTerminalEventLocked (s : State) (observed : gmap string Sandbox) (event : SandboxEvent) :
    Result StateError (option (State * ClusterSnapshot)) :=
  let working := st_snapshot s in
  let e := terminal_event event in
  if negb (terminalRuntimeState (sv_state event)) || bool_decide (sv_run_id event = "") ||
     bool_decide (sv_sandbox_id event = "") || (sv_generation event =? 0) then Ok None else
  if negb (existsb (λ a, of_run (sv_run_id event) a && allocationMatchesTerminalEvent a e) (allocations working))
  then Ok None else
  if HasRunRetirementDisposition (sv_semantic_context event) && negb (RetiresRun event) then Ok None else
  if negb (allRunAllocationsTerminal (allocations working) observed e) then Ok None else
  p ← release_where (of_run (sv_run_id event)) (devices working) (allocations working);
  let working := working <| allocations := p.1 |> <| devices := p.2 |>
    <| pending_units := filter (λ u, pu_run_id u ≠ sv_run_id event) (pending_units working) |> in
  Ok (Some (s <| st_intents := filter (λ kv, in_run_id kv.2 ≠ sv_run_id event) (st_intents s) |>, working)).

Inductive SandboxEventError := SandboxEventInvalid (message : string) | SandboxEventPanic (e : StateError).

Definition ApplyProviderSandboxEvent (s : State) (confirmed committed : Z) (event : option SandboxEvent) :
    State * Result SandboxEventError (option Sandbox * bool) :=
  match event with
  | None => (s, Err (SandboxEventInvalid "state: sandbox event is nil"))
  | Some e =>
      if bool_decide (sv_sandbox_id e = "") then (s, Err (SandboxEventInvalid "state: sandbox event missing sandbox_id")) else
      if negb (from_option Timestamp_valid true (occurred_at e))
      then (s, Err (SandboxEventInvalid "state: sandbox event has invalid occurred_at")) else
      let current := sandboxes (providerProjection s) !! sv_sandbox_id e in
      match acceptSandboxCursorLocked (providerProjection s) current e with
      | (_, false) => (s, Ok (current, false))
      | (p, true) =>
          let s := s <| providerProjection := p |> in
          let next := project_event current e confirmed in
          match retireRunFromTerminalEventLocked s (sandboxes p) e with
          | Err err => (s, Err (SandboxEventPanic err))
          | Ok retired =>
              if from_option (λ c, sandbox_Equal c next) false current && (match retired with None => true | Some _ => false end)
              then (s, Ok (current, false))
              else
                let '(s, working) := default (s, st_snapshot s) retired in
                let s := s <| providerProjection := p <| sandboxes := <[sv_sandbox_id e := next]> (sandboxes p) |> |> in
                (commit_snapshot s committed working, Ok (Some next, true))
          end
      end
  end.

(** ** Reconciling with a provider inventory *)

(** The inventory by id, the last one winning, and the observed view: the projection
    under the inventory, keeping durable dispositions. *)
Definition observe (view : gmap string Sandbox * gmap string Sandbox) (sandbox : option Sandbox) :
    gmap string Sandbox * gmap string Sandbox :=
  match sandbox with
  | Some s =>
      if bool_decide (sandbox_id s = "") then view else
      (<[sandbox_id s := s]> view.1,
       <[sandbox_id s := mergeDurableSandboxDisposition (view.2 !! sandbox_id s) s]> view.2)
  | None => view
  end.

Definition runs_of (f : Sandbox → bool) (observed : gmap string Sandbox) : gset string :=
  list_to_set (sb_run_id <$> filter (λ s, terminalRuntimeState (sb_state s) && negb (bool_decide (sb_run_id s = "")) && f s = true)
                                    (map_to_list observed).*2).

Definition runAllocationRuns (als : list Allocation) : gset string :=
  list_to_set (filter (λ id, id ≠ "") (al_run_id <$> als)).

Definition allocationExpired (a : Allocation) (now : Z) : bool :=
  match al_expires_at a with
  | Some t => Timestamp_valid t && (AsTime (Some t) <=? now)
  | None => false
  end.

Definition allocationHasExplicitReleaseDisposition (a : Allocation) (observed : gmap string Sandbox) : bool :=
  match observed !! al_sandbox_id a with
  | Some s => sandboxMatchesAllocation a (Some s) && terminalRuntimeState (sb_state s) &&
              HasRunRetirementDisposition (semantic_context s) && negb (EnvelopeRetiresRun (semantic_context s))
  | None => false
  end.

(** The runs retired, and those asking to be. *)
Record Retirement := mkRetirement { retiredRuns : gset string; retirementRequestedRuns : gset string }.

Definition retirement (als : list Allocation) (observed : gmap string Sandbox) : Retirement :=
  let requested := runs_of (λ s, EnvelopeRetiresRun (semantic_context s)) observed in
  let nonRetired := runs_of (λ s, negb (EnvelopeRetiresRun (semantic_context s)) &&
                                  HasRunRetirementDisposition (semantic_context s)) observed in
  mkRetirement
    (filter (λ run, allRunAllocationsTerminal als observed (mkTerminalEvent run "" 0 None) = true ∧
                    (run ∈ requested ∨ run ∉ nonRetired)) (runAllocationRuns als))
    requested.

Definition releases (r : Retirement) (live : gmap string Sandbox) (now : Z) (a : Allocation) : bool :=
  let sandbox := live !! al_sandbox_id a in
  let retire := bool_decide (al_run_id a ∈ retiredRuns r) in
  if bool_decide (al_run_id a ∈ retirementRequestedRuns r) && negb retire then false else
  retire ||
  match sandbox with
  | Some s => sandboxMatchesAllocation a (Some s) && terminalRuntimeState (sb_state s)
  | None => allocationExpired a now
  end.

(** The pending unit an allocation goes back to. *)
Definition requeued_unit (i : SchedulingIntent) (a : Allocation) (now : Z) : PendingUnit :=
  mkPendingUnit (al_pending_unit_id a) (al_execution_id a) (al_stage_id a) (al_intent_version a) (al_job_id a)
    (al_resources a) (required_capabilities i) (default (in_priority i) (al_priority a)) (Some (timestamp_New now)) 0
    (al_run_id a) (al_trace_id a) (al_data_kind a) (al_runtime_unit_id a).

Definition requeueAllocation (intents : gmap intentKey SchedulingIntent) (now : Z) (snap : ClusterSnapshot)
    (a : Allocation) : ClusterSnapshot :=
  match intents !! (al_execution_id a, al_stage_id a) with
  | None => snap
  | Some i =>
      if negb (in_version i =? al_intent_version a) || negb (now <? AsTime (valid_until i)) then snap else
      if existsb (λ u, bool_decide (pending_unit_id u = al_pending_unit_id a)) (pending_units snap) then snap else
      let queued := length (filter (λ u, of_intent_unit i u && (pu_intent_version u =? in_version i) = true)
                                   (pending_units snap)) in
      if unit_count i <=? wrap32 (liveAllocationCount (allocations snap) i + Z.of_nat queued) then snap else
      snap <| pending_units := sortPendingUnits (pending_units snap ++ [requeued_unit i a now]) |>
  end.

Definition ReconcileProviderSandboxes (s : State) (now committed : Z) (sbs : list (option Sandbox)) :
    State * Result StateError bool :=
  let '(live, observed) := foldl observe (∅, sandboxes (providerProjection s)) sbs in
  let snap := st_snapshot s in
  let r := retirement (allocations snap) observed in
  let released := releases r live now in
  match release_where released (devices snap) (allocations snap) with
  | Err e => (s, Err e)
  | Ok (kept, ds) =>
      let gone := filter (λ a, released a = true) (allocations snap) in
      let retry := filter (λ a, bool_decide (al_run_id a ∉ retiredRuns r) &&
                                negb (allocationHasExplicitReleaseDisposition a observed) = true) gone in
      let working := snap <| allocations := kept |> <| devices := ds |> in
      let working := foldl (requeueAllocation (st_intents s) now) working retry in
      let intents := filter (λ kv, in_run_id kv.2 ∉ retiredRuns r) (st_intents s) in
      let keptPending := filter (λ u, pu_run_id u ∉ retiredRuns r) (pending_units working) in
      let changed := negb (Nat.eqb (length gone) 0) || negb (Nat.eqb (size intents) (size (st_intents s))) ||
                     negb (Nat.eqb (length keptPending) (length (pending_units working))) in
      let working := working <| pending_units := keptPending |> in
      let s := s <| st_intents := intents |> in
      (if changed then commit_snapshot s committed working else s, Ok changed)
  end.

(** Sandboxes in the order of their ids. *)
Definition ListProjectedSandboxes (s : State) : list Sandbox :=
  omap (λ id, sandboxes (providerProjection s) !! id)
    (sort_strings (elements (dom (sandboxes (providerProjection s))))).
