(* ===== verification/DurableState.v ===== *)
(** * The store's durable state ([scheduler-go/state/snapshot.go], [store.go],
      [intent.go])

    The persistence view of everything the store owns, and its restoration, which
    replaces the state part by part and stops at the first part that is refused.
    Where the code iterates over a map, an error does not say which entry it found. *)

From Stdlib Require Import ZArith Lia.
From S2P Require Import Prelude GoStrings GoTime GoFloat ClusterModel SchedulerState Mutation Preemption Reservation Transaction Intents Projection ProviderEvents.
From stdpp Require Import options.

Local Open Scope Z_scope.

Record ReservationRecord := mkReservationRecord {
  rr_Plan : option PlacementPlan;
  rr_BeforeSnapshot : ClusterSnapshot;
  rr_DeviceAllocatable : gmap string (option ResourceVector);
  rr_PendingUnits : list PendingUnit;
  rr_AllocationIDs : list string;
  rr_Finalized : bool;
  rr_Succeeded : bool;
  rr_RetainedAllocationIDs : list string;
}.

Record ProviderSandboxCursor := mkPSC {
  ps_Generation : Z;
  ps_ProviderRevision : Z;
  ps_EventID : string;
  ps_IdempotencyKey : string;
  ps_OccurredAt : option Timestamp;
  SeenEventIDs : list string;
  SeenIdempotencyKeys : list string;
}.

Record DurableState := mkDurable {
  du_Snapshot : option ClusterSnapshot;
  du_Intents : list (option SchedulingIntent);
  du_Reservations : list ReservationRecord;
  du_Transactions : list TransactionRecord;
  ProjectedSandboxes : list (option Sandbox);
  ResourceCursors : gmap string providerResourceCursor;
  SandboxCursors : gmap string ProviderSandboxCursor;
}.

(** ** Export *)

(** The values of a map in the order of its keys. *)
Definition values_by {K A} `{Countable K} (less : K → K → bool) (m : gmap K A) : list A :=
  omap (λ k, m !! k) (sort_by less (elements (dom m))).

Definition key_less : intentKey → intentKey → bool :=
  lex_less (λ a b, str_ltb a.1 b.1) (λ a b, str_ltb a.2 b.2).

Definition reservation_record (r : planReservation) : ReservationRecord :=
  mkReservationRecord (Some (res_plan r)) (beforeSnapshot r) (deviceAllocatable r) (pendingUnits r) (allocationIDs r)
    (finalized r) (succeeded r) (retainedAllocationIDs r).

Definition export_cursor (c : providerSandboxCursor) : ProviderSandboxCursor :=
  mkPSC (cu_generation c) (cu_providerRevision c) (cu_eventID c) (cu_idempotencyKey c)
    (if IsZero (cu_occurredAt c) then None else Some (timestamp_New (cu_occurredAt c)))
    (sort_strings (elements (seenEventIDs c))) (sort_strings (elements (seenIdempotency c))).

Definition ExportDurableState (s : State) : DurableState :=
  let p := providerProjection s in
  mkDurable (Some (st_snapshot s)) (Some <$> values_by key_less (st_intents s))
    (reservation_record <$> values_by str_ltb (st_reservations s)) (values_by str_ltb (st_transactions s))
    (Some <$> values_by str_ltb (sandboxes p)) (resourceCursors p) (export_cursor <$> sandboxCursors p).

(** [PreparedIntentPublication.ExportDurableState]: the staged state, exported alike. *)
Definition export_staged (staged : option State) : DurableState :=
  match staged with Some s => ExportDurableState s | None => mkDurable None [] [] [] [] ∅ ∅ end.

(** ** Restore *)

Inductive RestoreError :=
| SnapshotRequired
| SandboxIdRequired
| DuplicateSandbox
| CursorIdRequired
| CursorTimeInvalid
| CursorBehind
| RestoredIntent (e : IntentError)
| PlanIdRequired
| RestoredTransaction (e : TransactionError).

Definition stringSet (l : list string) : gset string := list_to_set (filter (λ v, v ≠ "") l).

Definition restore_cursor (c : ProviderSandboxCursor) : providerSandboxCursor :=
  rememberSandboxCursorIdentity
    (mkSandboxCursor (ps_Generation c) (ps_ProviderRevision c) (ps_EventID c) (ps_IdempotencyKey c)
       (timestampTime (ps_OccurredAt c)) (stringSet (SeenEventIDs c)) (stringSet (SeenIdempotencyKeys c))).

Fixpoint restore_sandboxes (m : gmap string Sandbox) (l : list (option Sandbox)) : Result RestoreError (gmap string Sandbox) :=
  match l with
  | [] => Ok m
  | None :: _ => Err SandboxIdRequired
  | Some s :: l =>
      _ ← guard_err (negb (bool_decide (sandbox_id s = ""))) SandboxIdRequired;
      _ ← guard_err (negb (bool_decide (is_Some (m !! sandbox_id s)))) DuplicateSandbox;
      restore_sandboxes (<[sandbox_id s := s]> m) l
  end.

(** The cursor of a sandbox without one. *)
Definition implied_cursor (s : Sandbox) : providerSandboxCursor :=
  mkSandboxCursor (sb_generation s) 0 "" "" (timestampTime (sb_observed_at s)) ∅ ∅.

Definition validateAndRestoreProviderProjection (d : DurableState) : Result RestoreError providerProjectionState :=
  sbs ← restore_sandboxes ∅ (ProjectedSandboxes d);
  let cursors := SandboxCursors d in
  _ ← guard_err (bool_decide (cursors !! "" = None :> option ProviderSandboxCursor)) CursorIdRequired;
  _ ← guard_err (forallb (λ kv, from_option Timestamp_valid true (ps_OccurredAt kv.2)) (map_to_list cursors)) CursorTimeInvalid;
  let restored := restore_cursor <$> cursors in
  _ ← guard_err (forallb (λ kv, match restored !! kv.1 with
                                | Some c => sb_generation kv.2 <=? cu_generation c
                                | None => true end) (map_to_list sbs)) CursorBehind;
  Ok (mkProjection (ResourceCursors d) sbs (restored ∪ (implied_cursor <$> sbs))).

Section Restore.
Context (timestamp_error : Timestamp → string) (duration_error : Duration → string).

Fixpoint restore_intents (s : State) (l : list (option SchedulingIntent)) : State * option RestoreError :=
  match l with
  | [] => (s, None)
  | i :: l =>
      match validateIntentStructure timestamp_error duration_error i with
      | Err e => (s, Some (RestoredIntent e))
      | Ok i =>
          restore_intents
            (s <| st_intents := <[intent_key i := i]> (st_intents s) |>
               <| idempotencyKeys := <[in_idempotency_key i := mkIdentity (intent_key i) (in_version i) i]> (idempotencyKeys s) |>) l
      end
  end.

Fixpoint restore_reservations (s : State) (l : list ReservationRecord) : State * option RestoreError :=
  match l with
  | [] => (s, None)
  | r :: l =>
      match rr_Plan r with
      | Some plan =>
          if bool_decide (plan_id plan = "") then (s, Some PlanIdRequired) else
          restore_reservations
            (s <| st_reservations := <[plan_id plan :=
               mkReservation plan (rr_BeforeSnapshot r) (rr_DeviceAllocatable r) (rr_PendingUnits r) (rr_AllocationIDs r)
                 (rr_Finalized r) (rr_Succeeded r) (rr_RetainedAllocationIDs r)]> (st_reservations s) |>) l
      | None => (s, Some PlanIdRequired)
      end
  end.

Fixpoint restore_transactions (s : State) (l : list TransactionRecord) : State * option RestoreError :=
  match l with
  | [] => (s, None)
  | r :: l =>
      match validateTransactionRecord r with
      | Err e => (s, Some (RestoredTransaction e))
      | Ok _ => restore_transactions (s <| st_transactions := <[TransactionID r := r]> (st_transactions s) |>) l
      end
  end.

(** The state is left as far as it was restored when a part is refused. *)
Definition Restore (s : State) (d : DurableState) : State * option RestoreError :=
  match du_Snapshot d with
  | None => (s, Some SnapshotRequired)
  | Some snap =>
      match validateAndRestoreProviderProjection d with
      | Err e => (s, Some e)
      | Ok projection =>
          let s := s <| st_snapshot := snap |> <| st_intents := ∅ |> <| providerProjection := projection |>
                     <| idempotencyKeys := ∅ |> in
          match restore_intents s (du_Intents d) with
          | (s, Some e) => (s, Some e)
          | (s, None) =>
              match restore_reservations (s <| st_reservations := ∅ |>) (du_Reservations d) with
              | (s, Some e) => (s, Some e)
              | (s, None) => restore_transactions (s <| st_transactions := ∅ |>) (du_Transactions d)
              end
          end
      end
  end.

End Restore.
