(* ===== verification/PlanExecutor.v ===== *)
(** * The plan executor ([scheduler-go/planexecutor])

    Drives the provider's transaction protocol while the store of [Transaction.v]
    stays the authority: every store operation is followed by a checkpoint, and a
    failed or ambiguous provider call is reconciled, compensated or degraded.

    The provider, the checkpoint, the cancellation of the context and the clock are
    an interface ([Environment]) with a state of its own.  While one of its calls
    runs, other holders of the store may run any operations on it ([Others]).  A
    provider method answers a receipt, an error, or both. *)

From Stdlib Require Import ZArith Lia.
From S2P Require Import Prelude GoStrings GoTime GoFloat ClusterModel SchedulerState Mutation Preemption Reservation Transaction.
From stdpp Require Import options.

Local Open Scope Z_scope.

(** ** Provider receipts ([provider/transaction.go]) *)

Definition TransactionPhaseUnknown : string := "unknown".
Definition TransactionPhasePrepared : string := "prepared".
Definition TransactionPhaseExecuting : string := "executing".
Definition TransactionPhaseCommitted : string := "committed".
Definition TransactionPhaseAborted : string := "aborted".
Definition TransactionPhaseReconciled : string := "reconciled".
Definition TransactionPhaseDegraded : string := "degraded".

(** [provider.EffectStatus] *)
Definition EffectUnknown : string := "unknown".
Definition EffectNotApplied : string := "not_applied".
Definition EffectApplied : string := "applied".
Definition EffectFailed : string := "failed".
Definition EffectCompensated : string := "compensated".
Definition EffectDegraded : string := "degraded".

(** [state.EffectStatus] *)
Definition EffectStatusUnknown : string := "unknown".
Definition EffectStatusPending : string := "pending".
Definition EffectStatusSucceeded : string := "succeeded".
Definition EffectStatusFailed : string := "failed".
Definition EffectStatusRolledBack : string := "rolled_back".
Definition EffectStatusDegraded : string := "degraded".

(** [state.FailureClass] *)
Definition FailureClassUnknown : string := "unknown".
Definition FailureClassProvider : string := "provider".
Definition FailureClassCompensation : string := "compensation".
Definition FailureClassInfrastructure : string := "infrastructure".

Record TransactionEffect := mkEffect {
  ef_StepIndex : Z;
  ef_ActionID : string;
  ef_IdempotencyKey : string;
  ef_Status : string;
  ef_Generation : Z;
  ef_Revision : Z;
  ef_ErrorCode : string;
  ef_ErrorMessage : string;
  ef_CompensationAttempted : bool;
  ef_Compensated : bool;
}.

(** Times are nanoseconds; the zero [time.Time] is [None]. *)
Record TransactionReceipt := mkTransactionReceipt {
  pr_TransactionID : string;
  pr_PlanID : string;
  pr_Generation : Z;
  pr_Phase : string;
  pr_ObservedRevision : Z;
  Effects : list TransactionEffect;
  pr_ErrorCode : string;
  pr_ErrorMessage : string;
  pr_PreparedAt : option Z;
  pr_UpdatedAt : option Z;
}.

(** An error: its text, and whether it is [ErrReconcileRequired]. *)
Record GoError := mkGoError { error_text : string; reconcile_required : bool }.

Definition ErrReconcileRequired : GoError := mkGoError "planexecutor: reconcile required" true.

Inductive ExecutorError :=
| StoreError (e : TransactionError)
| External (e : GoError)
| ReceiptInvalid (message : string)
| PlanInvalid (message : string)
| TransactionMissing
| ErrInvalidTransition
| OutOfFuel.

(** ** Receipts ([receipt.go]) *)

Definition valid_phase (p : string) : bool :=
  bool_decide (p ∈ [TransactionPhaseUnknown; TransactionPhasePrepared; TransactionPhaseExecuting;
    TransactionPhaseCommitted; TransactionPhaseAborted; TransactionPhaseReconciled; TransactionPhaseDegraded]).

Definition valid_effect_status (st : string) : bool :=
  bool_decide (st ∈ [EffectUnknown; EffectNotApplied; EffectApplied; EffectFailed; EffectCompensated; EffectDegraded]).

Section PlanExecutor.
Context (allocationID unicode_quote : string → string).

Local Abbreviation q := (Quote unicode_quote).

Fixpoint validate_effects (index : Z) (effects : list TransactionEffect) : Result string unit :=
  match effects with
  | [] => Ok tt
  | e :: effects =>
      _ ← guard_err ((0 <=? ef_StepIndex e) && negb (bool_decide (ef_ActionID e = "")))
            ("transaction receipt effect " +:+ FormatInt index +:+ " is invalid");
      _ ← guard_err (valid_effect_status (ef_Status e))
            ("transaction receipt effect " +:+ FormatInt index +:+ " status " +:+ q (ef_Status e) +:+ " is invalid");
      validate_effects (index + 1) effects
  end.

Definition ValidateReceipt (receipt : option TransactionReceipt) (providerGeneration : Z) :
    Result string TransactionReceipt :=
  match receipt with
  | None => Err "transaction receipt is required"
  | Some r =>
      _ ← guard_err (negb (bool_decide (pr_TransactionID r = "") || bool_decide (pr_PlanID r = "")))
            "transaction receipt identity is required";
      _ ← guard_err (pr_Generation r =? providerGeneration)
            ("transaction receipt generation " +:+ FormatUint (pr_Generation r) +:+
             " does not match provider generation " +:+ FormatUint providerGeneration);
      _ ← guard_err (valid_phase (pr_Phase r)) ("transaction receipt phase " +:+ q (pr_Phase r) +:+ " is invalid");
      _ ← validate_effects 0 (Effects r);
      Ok r
  end.

(** The loop over the effects: each names an action of the plan, none twice. *)
Fixpoint effects_match (acts : list (option Action)) (effects : list TransactionEffect) (seen : gset Z) :
    Result string unit :=
  match effects with
  | [] => Ok tt
  | e :: effects =>
      let step := "transaction receipt step " +:+ FormatInt (ef_StepIndex e) in
      if negb ((0 <=? ef_StepIndex e) && (ef_StepIndex e <? Z.of_nat (length acts)))
      then Err (step +:+ " is outside plan action range") else
      let mismatch := step +:+ " action " +:+ q (ef_ActionID e) +:+ " does not match plan" in
      match acts !! Z.to_nat (ef_StepIndex e) with
      | Some (Some a) =>
          _ ← guard_err (bool_decide (ef_ActionID e = action_id a)) mismatch;
          _ ← guard_err (negb (bool_decide (ef_StepIndex e ∈ seen)))
                ("transaction receipt duplicates step " +:+ FormatInt (ef_StepIndex e));
          _ ← guard_err (bool_decide (ef_IdempotencyKey e = "") || bool_decide (ef_IdempotencyKey e = idempotency_key a))
                (step +:+ " idempotency key does not match plan");
          effects_match acts effects ({[ef_StepIndex e]} ∪ seen)
      | _ => Err mismatch
      end
  end.

Definition validateReceiptForPlan (receipt : option TransactionReceipt) (providerGeneration : Z)
    (plan : PlacementPlan) : Result string TransactionReceipt :=
  r ← ValidateReceipt receipt providerGeneration;
  _ ← guard_err (bool_decide (pr_TransactionID r = plan_id plan) && bool_decide (pr_PlanID r = plan_id plan))
        "transaction receipt does not match plan identity";
  _ ← effects_match (actions plan) (Effects r) ∅;
  Ok r.

Definition stateEffectStatus (st : string) : string :=
  if decide (st = EffectNotApplied) then EffectStatusPending
  else if decide (st = EffectApplied) then EffectStatusSucceeded
  else if decide (st = EffectFailed) then EffectStatusFailed
  else if decide (st = EffectCompensated) then EffectStatusRolledBack
  else if decide (st = EffectDegraded) then EffectStatusDegraded
  else EffectStatusUnknown.

Definition state_step (e : TransactionEffect) : TransactionStep :=
  mkTransactionStep (ef_StepIndex e) (ef_ActionID e) (ef_IdempotencyKey e) (stateEffectStatus (ef_Status e))
    (ef_Revision e) (ef_ErrorCode e) (ef_ErrorMessage e) (ef_CompensationAttempted e) (ef_Compensated e).

Definition stateReceipt (r : TransactionReceipt) : Receipt :=
  mkReceipt (pr_Phase r) (pr_ObservedRevision r) (state_step <$> Effects r) (pr_ErrorCode r) (pr_ErrorMessage r)
    (timestamp_New <$> pr_PreparedAt r) (timestamp_New <$> pr_UpdatedAt r).

(** The steps by index, the last one winning. *)
Definition steps_by_index (steps : list TransactionStep) : gmap Z TransactionStep :=
  foldl (λ m s, <[StepIndex s := s]> m) ∅ steps.

Definition mergeStateReceipt (previous : option Receipt) (latest : option TransactionReceipt) : option Receipt :=
  match previous, latest with
  | None, _ => stateReceipt <$> latest
  | Some previous, None => Some previous
  | Some previous, Some latest =>
      let incoming := stateReceipt latest in
      Some (mkReceipt (Phase incoming) (ObservedRevision incoming)
        (sort_by (λ a b, StepIndex a <? StepIndex b)
           (snd <$> map_to_list (steps_by_index (Steps previous ++ Steps incoming))))
        (rc_ErrorCode incoming) (rc_ErrorMessage incoming)
        (match PreparedAt incoming with Some t => Some t | None => PreparedAt previous end)
        (match rc_UpdatedAt incoming with Some t => Some t | None => rc_UpdatedAt previous end))
  end.

(** The result of one action, from its step (the zero step when there is none). *)
Definition step_result (plan : PlacementPlan) (transactionState : string) (a : Action)
    (step : option TransactionStep) : ActionResult :=
  let status := from_option Status "" step in
  let attempted := from_option CompensationAttempted false step in
  let rollback := if attempted then ACTION_RESULT_STATUS_FAILED else ACTION_RESULT_STATUS_UNKNOWN in
  let result st attempted rollback :=
    mkActionResult (action_id a) st attempted rollback (from_option ts_ErrorCode "" step)
      (from_option ts_ErrorMessage "" step) (from_option ts_Revision 0 step) (plan_id plan) (idempotency_key a) "" in
  if decide (transactionState = TransactionStatePrepareFailed) then result ACTION_RESULT_STATUS_SKIPPED attempted rollback
  else if decide (status = EffectStatusSucceeded) then result ACTION_RESULT_STATUS_SUCCEEDED attempted rollback
  else if decide (status = EffectStatusRolledBack)
  then result ACTION_RESULT_STATUS_SUCCEEDED true ACTION_RESULT_STATUS_ROLLED_BACK
  else if decide (status = EffectStatusFailed ∨ status = EffectStatusDegraded)
  then result ACTION_RESULT_STATUS_FAILED attempted rollback
  else result ACTION_RESULT_STATUS_UNKNOWN attempted rollback.

Definition transactionResults (plan : PlacementPlan) (transactionState : string) (receipt : option Receipt) :
    list (option ActionResult) :=
  let steps := steps_by_index (from_option Steps [] receipt) in
  omap (λ '(index, a), (λ a, Some (step_result plan transactionState a (steps !! Z.of_nat index))) <$> a)
    (imap (λ i a, (i, a)) (actions plan)).

(** ** Helpers ([executor.go]) *)

Definition effectStatus (receipt : option Receipt) (stepIndex : Z) : string :=
  match receipt with
  | None => EffectStatusUnknown
  | Some r => from_option Status EffectStatusUnknown (find (λ s, StepIndex s =? stepIndex) (Steps r))
  end.

(** The status of a step and whether it is ambiguous. *)
Definition classifyStepReceipt (r : TransactionReceipt) (stepIndex : Z) : string * bool :=
  match find (λ e, ef_StepIndex e =? stepIndex) (Effects r) with
  | Some e =>
      if decide (ef_Status e = EffectApplied) then (EffectStatusSucceeded, false)
      else if decide (ef_Status e = EffectFailed) then (EffectStatusFailed, false)
      else (EffectStatusFailed, true)
  | None => (EffectStatusFailed, true)
  end.

Definition isAmbiguousPhase (phase : string) : bool :=
  bool_decide (phase = TransactionPhaseUnknown) || bool_decide (phase = TransactionPhaseExecuting) ||
  bool_decide (phase = TransactionPhaseReconciled).

Definition settled_effect (st : string) : bool :=
  bool_decide (st ∈ [EffectNotApplied; EffectApplied; EffectCompensated; EffectFailed]).

Fixpoint ambiguous_effects (stepCount : nat) (effects : list TransactionEffect) (seen : gset Z) : bool :=
  match effects with
  | [] => false
  | e :: effects =>
      if negb ((0 <=? ef_StepIndex e) && (ef_StepIndex e <? Z.of_nat stepCount)) then true
      else if bool_decide (ef_StepIndex e ∈ seen) then true
      else if negb (settled_effect (ef_Status e)) then true
      else ambiguous_effects stepCount effects ({[ef_StepIndex e]} ∪ seen)
  end.

Definition receiptHasAmbiguousEffect (r : TransactionReceipt) (stepCount : nat) : bool :=
  negb (Nat.eqb (length (Effects r)) stepCount) || ambiguous_effects stepCount (Effects r) ∅.

Fixpoint validate_actions (index : Z) (acts : list (option Action)) : Result ExecutorError unit :=
  match acts with
  | [] => Ok tt
  | a :: acts =>
      _ ← guard_err (negb (bool_decide (from_option action_id "" a = "")))
            (PlanInvalid ("plan action " +:+ FormatInt index +:+ " is required"));
      validate_actions (index + 1) acts
  end.

Definition validatePlan (plan : option PlacementPlan) : Result ExecutorError PlacementPlan :=
  match plan with
  | None => Err (PlanInvalid "plan_id is required")
  | Some plan =>
      _ ← guard_err (negb (bool_decide (plan_id plan = ""))) (PlanInvalid "plan_id is required");
      _ ← validate_actions 0 (actions plan);
      Ok plan
  end.

(** ** The environment *)

Definition Answer : Type := option TransactionReceipt * option GoError.

(** [provider.TransactionExecutor], [CheckpointFunc], the context, the store's clock
    and the other holders of the store, with the state [E] they keep between calls. *)
Class Environment (E : Type) := {
  PreparePlan : E → string → Z → PlacementPlan → Answer * E;
  ExecuteStep : E → string → Z → Z → Answer * E;
  CommitPlan : E → string → Z → Answer * E;
  AbortPlan : E → string → Z → Answer * E;
  ReconcilePlanTransaction : E → string → Z → Answer * E;
  Checkpoint : E → TransactionRecord → option GoError * E;
  ContextErr : E → option GoError * E;
  Now : E → Z * E;
  Others : E → list TxOp * E;
}.

Inductive ProviderCall := Prepare | ExecStep (index : Z) | Commit | Abort | Reconcile.

(** What the executor did, in order. *)
Inductive Event :=
| Called (c : ProviderCall) (a : Answer)
| Read (r : TransactionRecord)
| Wrote (r : TransactionRecord)
| Checkpointed (r : TransactionRecord) (e : option GoError).

Section Executor.
Context `{Env : Environment E}.

Record World := mkWorld {
  w_store : Store;
  w_env : E;
  w_log : list Event;
}.

(** A computation answers a result, and leaves a world whether it fails or not. *)
Definition M (A : Type) : Type := World → World * Result ExecutorError A.

#[global] Instance M_ret : MRet M := λ A a w, (w, Ok a).
#[global] Instance M_bind : MBind M := λ A B f m w,
  match m w with
  | (w, Ok a) => f a w
  | (w, Err e) => (w, Err e)
  end.

Definition fail {A} (e : ExecutorError) : M A := λ w, (w, Err e).

(** A call of the provider: the answer is recorded. *)
Definition call (f : E → Answer * E) (c : ProviderCall) : M Answer := λ w,
  let '(a, e) := f (w_env w) in (mkWorld (w_store w) e (w_log w ++ [Called c a]), Ok a).

(** What the others did to the store since the executor last looked. *)
Definition interfere (w : World) : World :=
  let '(ops, e) := Others (w_env w) in mkWorld (apply_ops allocationID (w_store w) ops) e (w_log w).

Definition now : M Z := λ w, let '(t, e) := Now (w_env w) in (mkWorld (w_store w) e (w_log w), Ok t).

(** [Store.GetTransaction], as the others left the store. *)
Definition get (transactionID : string) : M (option TransactionRecord) := λ w,
  let w := interfere w in
  let found := GetTransaction (w_store w) transactionID in
  (mkWorld (w_store w) (w_env w) (w_log w ++ from_option (λ r, [Read r]) [] found), Ok found).

(** An operation of the store. *)
Definition write (op : TxOp) : M TransactionRecord := λ w,
  let w := interfere w in
  match run allocationID (w_store w) op with
  | Ok (s, Some r) => (mkWorld s (w_env w) (w_log w ++ [Wrote r]), Ok r)
  | Ok (s, None) => (mkWorld s (w_env w) (w_log w), Err TransactionMissing)
  | Err e => (w, Err (StoreError e))
  end.

Definition contextError : M unit := λ w,
  let '(err, e) := ContextErr (w_env w) in
  (mkWorld (w_store w) e (w_log w), match err with Some err => Err (External err) | None => Ok tt end).

(** ** The executor ([executor.go]) *)

Definition persist (record : TransactionRecord) : M unit := λ w,
  let '(err, e) := Checkpoint (w_env w) record in
  (mkWorld (w_store w) e (w_log w ++ [Checkpointed record err]),
   match err with Some err => Err (External err) | None => Ok tt end).

(** An operation of the store and the checkpoint of the record it answers. *)
Definition saved (op : TxOp) : M TransactionRecord := next ← write op; _ ← persist next; mret next.

Definition advance (record : TransactionRecord) (nextState : TransactionState) (failureClass : FailureClass)
    (reason : string) (receipt : option TransactionReceipt) : M TransactionRecord :=
  t ← now;
  saved (OpAdvance t (mkAdvance (TransactionID record) (Generation record) nextState failureClass reason
           (mergeStateReceipt (tr_ProviderReceipt record) receipt))).

Definition finalize (record : TransactionRecord) (succeeded : bool) (finalState : TransactionState)
    (failureClass : FailureClass) (reason : string) (receipt : option TransactionReceipt) : M TransactionRecord :=
  let merged := mergeStateReceipt (tr_ProviderReceipt record) receipt in
  converged ← now; updated ← now;
  saved (OpFinalize converged updated
           (mkFinalize (TransactionID record) (Generation record) succeeded
              (transactionResults (Plan record) finalState merged) finalState failureClass reason merged)).

(** The receipt, or the text of the error. *)
Definition reconcile (record : TransactionRecord) : M (Result string TransactionReceipt) :=
  a ← call (λ e, ReconcilePlanTransaction e (TransactionID record) (ProviderGeneration record)) Reconcile;
  mret match a with
       | (_, Some err) => Err (error_text err)
       | (receipt, None) => validateReceiptForPlan receipt (ProviderGeneration record) (Plan record)
       end.

(** A record and whether the transaction is over. *)
Definition terminal (m : M TransactionRecord) : M (TransactionRecord * bool) := r ← m; mret (r, true).
Definition resumable (m : M TransactionRecord) : M (TransactionRecord * bool) := r ← m; mret (r, false).

Definition call_prepare (record : TransactionRecord) : M Answer :=
  call (λ e, PreparePlan e (TransactionID record) (ProviderGeneration record) (Plan record)) Prepare.

(** A receipt a call answered without an error. *)
Definition checked (record : TransactionRecord) (receipt : option TransactionReceipt) : M TransactionReceipt :=
  match validateReceiptForPlan receipt (ProviderGeneration record) (Plan record) with
  | Ok r => mret r
  | Err message => fail (ReceiptInvalid message)
  end.

Definition applyReconciledReceipt (record : TransactionRecord) (receipt : TransactionReceipt) :
    M (TransactionRecord * bool) :=
  let phase := pr_Phase receipt in
  if decide (phase = TransactionPhaseCommitted) then
    terminal (finalize record true TransactionStateCommitted FailureClassInfrastructure "" (Some receipt))
  else if decide (phase = TransactionPhaseAborted) then
    terminal (finalize record false TransactionStateAborted FailureClassInfrastructure "" (Some receipt))
  else if decide (phase = TransactionPhaseDegraded ∨ phase = TransactionPhaseUnknown) then
    terminal (finalize record false TransactionStateDegraded FailureClassInfrastructure
      (firstNonEmpty (pr_ErrorMessage receipt) "provider transaction remains ambiguous") (Some receipt))
  else if decide (phase = TransactionPhasePrepared) then mret (record, false)
  else if receiptHasAmbiguousEffect receipt (length (actions (Plan record))) then
    terminal (finalize record false TransactionStateDegraded FailureClassInfrastructure
      "provider transaction contains an unknown effect" (Some receipt))
  else resumable (advance record TransactionStateApplying FailureClassUnknown "" (Some receipt)).

Definition reconciliation_failed (cause : GoError) (message : string) : string :=
  error_text cause +:+ "; provider reconciliation failed: " +:+ message.

(** [receipt], or the reconciled one when there is none. *)
Definition or_reconciled (receipt : option TransactionReceipt) (reconciled : TransactionReceipt) :
    option TransactionReceipt :=
  match receipt with Some r => Some r | None => Some reconciled end.

Definition handleApplyFailure (record : TransactionRecord) (receipt : option TransactionReceipt) (cause : GoError) :
    M (TransactionRecord * bool) :=
  r ← reconcile record;
  match r with
  | Err message =>
      terminal (finalize record false TransactionStateDegraded FailureClassInfrastructure
        (reconciliation_failed cause message) receipt)
  | Ok reconciled =>
      if decide (pr_Phase reconciled = TransactionPhaseCommitted ∨ pr_Phase reconciled = TransactionPhaseAborted)
      then applyReconciledReceipt record reconciled
      else
        let failureClass := if reconcile_required cause then FailureClassInfrastructure else FailureClassProvider in
        resumable (advance record TransactionStateApplyFailed failureClass (error_text cause)
          (or_reconciled receipt reconciled))
  end.

Definition handleCommitFailure (record : TransactionRecord) (receipt : option TransactionReceipt) (cause : GoError) :
    M (TransactionRecord * bool) :=
  r ← reconcile record;
  match r with
  | Err message =>
      terminal (finalize record false TransactionStateDegraded FailureClassInfrastructure
        (reconciliation_failed cause message) receipt)
  | Ok reconciled =>
      if decide (pr_Phase reconciled = TransactionPhaseCommitted) then
        terminal (finalize record true TransactionStateCommitted FailureClassInfrastructure (error_text cause)
          (Some reconciled))
      else handleApplyFailure record receipt cause
  end.

Definition handleAbortFailure (record : TransactionRecord) (receipt : option TransactionReceipt) (cause : GoError) :
    M (TransactionRecord * bool) :=
  r ← reconcile record;
  match r with
  | Err message =>
      terminal (finalize record false TransactionStateDegraded FailureClassCompensation
        (reconciliation_failed cause message) receipt)
  | Ok reconciled =>
      if decide (pr_Phase reconciled = TransactionPhaseAborted) then
        terminal (finalize record false TransactionStateAborted FailureClassCompensation (error_text cause)
          (Some reconciled))
      else terminal (finalize record false TransactionStateDegraded FailureClassCompensation (error_text cause)
             (or_reconciled receipt reconciled))
  end.

Definition degrade (record : TransactionRecord) (message : string) : M (TransactionRecord * bool) :=
  terminal (finalize record false TransactionStateDegraded FailureClassInfrastructure message None).

Definition resumeFromProviderReceipt (record : TransactionRecord) : M (TransactionRecord * bool) :=
  a ← call_prepare record;
  match a with
  | (_, Some err) => degrade record (error_text err)
  | (prepared, None) =>
      match validateReceiptForPlan prepared (ProviderGeneration record) (Plan record) with
      | Err message => degrade record message
      | Ok _ =>
          r ← reconcile record;
          match r with
          | Err message => degrade record message
          | Ok receipt => applyReconciledReceipt record receipt
          end
      end
  end.

Definition ensureProviderPrepared (record : TransactionRecord) : M TransactionRecord :=
  a ← call_prepare record;
  match a with
  | (_, Some err) => fail (External err)
  | (receipt, None) =>
      r ← checked record receipt;
      advance record TransactionStatePrepared FailureClassUnknown "" (Some r)
  end.

Definition prepare (record : TransactionRecord) : M (TransactionRecord * bool) :=
  a ← call_prepare record;
  match a with
  | (_, Some err) =>
      terminal (finalize record false TransactionStatePrepareFailed FailureClassProvider (error_text err) None)
  | (receipt, None) =>
      r ← checked record receipt;
      resumable (advance record TransactionStatePrepared FailureClassUnknown "" (Some r))
  end.

(** The loop over the actions: the record after it, or an early return. *)
Fixpoint apply_steps (current : TransactionRecord) (indices : list Z) :
    M (TransactionRecord + TransactionRecord * bool) :=
  match indices with
  | [] => mret (inl current)
  | index :: indices =>
      if bool_decide (effectStatus (tr_ProviderReceipt current) index = EffectStatusSucceeded)
      then apply_steps current indices else
      a ← call (λ e, ExecuteStep e (TransactionID current) (ProviderGeneration current) index) (ExecStep index);
      match a with
      | (receipt, Some err) => x ← handleApplyFailure current receipt err; mret (inr x)
      | (receipt, None) =>
          r ← checked current receipt;
          let '(status, ambiguous) := classifyStepReceipt r index in
          if ambiguous : bool then x ← handleApplyFailure current (Some r) ErrReconcileRequired; mret (inr x)
          else if bool_decide (status = EffectStatusFailed) then
            failed ← advance current TransactionStateApplyFailed FailureClassProvider
                       (firstNonEmpty (pr_ErrorMessage r) "provider reported an apply failure") (Some r);
            mret (inr (failed, false))
          else
            current ← advance current TransactionStateApplying FailureClassUnknown "" (Some r);
            apply_steps current indices
      end
  end.

Definition commit (current : TransactionRecord) : M (TransactionRecord * bool) :=
  a ← call (λ e, CommitPlan e (TransactionID current) (ProviderGeneration current)) Commit;
  match a with
  | (receipt, Some err) => handleCommitFailure current receipt err
  | (receipt, None) =>
      r ← checked current receipt;
      if isAmbiguousPhase (pr_Phase r) then handleCommitFailure current (Some r) ErrReconcileRequired
      else terminal (finalize current true TransactionStateCommitted FailureClassUnknown "" (Some r))
  end.

Definition plan_indices (plan : PlacementPlan) : list Z := Z.of_nat <$> seq 0 (length (actions plan)).

Definition apply (record : TransactionRecord) : M (TransactionRecord * bool) :=
  current ← if bool_decide (State record = TransactionStatePrepared)
            then advance record TransactionStateApplying FailureClassUnknown "" None
            else mret record;
  x ← apply_steps current (plan_indices (Plan current));
  match x with
  | inr answer => mret answer
  | inl current => commit current
  end.

Definition abort (record : TransactionRecord) : M (TransactionRecord * bool) :=
  current ← if bool_decide (State record = TransactionStateApplyFailed)
            then advance record TransactionStateCompensating (tr_FailureClass record) (tr_FailureReason record) None
            else mret record;
  a ← call (λ e, AbortPlan e (TransactionID current) (ProviderGeneration current)) Abort;
  match a with
  | (receipt, Some err) => handleAbortFailure current receipt err
  | (receipt, None) =>
      r ← checked current receipt;
      if isAmbiguousPhase (pr_Phase r) then handleAbortFailure current (Some r) ErrReconcileRequired
      else terminal (finalize current false TransactionStateAborted (tr_FailureClass current)
             (tr_FailureReason current) (Some r))
  end.

Definition step (record : TransactionRecord) : M (TransactionRecord * bool) :=
  let state := State record in
  if decide (state = TransactionStateProposed) then
    t ← now; u ← now;
    resumable (saved (OpReserve t u (TransactionID record) (Generation record)))
  else if decide (state = TransactionStateReserved) then prepare record
  else if decide (state = TransactionStatePrepared ∨ state = TransactionStateApplying) then apply record
  else if decide (state = TransactionStateApplyFailed ∨ state = TransactionStateCompensating) then abort record
  else fail ErrInvalidTransition.

(** The [for] loop of [Resume], at most [fuel] times. *)
Fixpoint resume_loop (fuel : nat) (record : TransactionRecord) : M TransactionRecord :=
  match fuel with
  | O => fail OutOfFuel
  | S fuel =>
      x ← step record;
      if (x.2 : bool) then mret x.1 else resume_loop fuel x.1
  end.

(** Every outcome [Resume] answers is terminal: the record alone is returned. *)
Definition Resume (fuel : nat) (transactionID : string) : M TransactionRecord :=
  _ ← contextError;
  found ← get transactionID;
  match found with
  | None => fail (StoreError ErrTransactionNotFound)
  | Some record =>
      if terminalLocked record then mret record else
      record ← if bool_decide (State record = TransactionStatePrepared)
               then ensureProviderPrepared record else mret record;
      if bool_decide (State record = TransactionStateApplying) then
        x ← resumeFromProviderReceipt record;
        if (x.2 : bool) then mret x.1 else resume_loop fuel x.1
      else resume_loop fuel record
  end.

Definition Stage (plan : option PlacementPlan) : M TransactionRecord :=
  _ ← contextError;
  match validatePlan plan with
  | Err e => fail e
  | Ok plan =>
      existing ← get (plan_id plan);
      match existing with
      | Some existing =>
          if plan_Equal (Plan existing) plan then mret existing else fail (StoreError ErrTransactionConflict)
      | None =>
          created ← now; reserved ← now; updated ← now;
          write (OpBegin created reserved updated (Some plan) 1)
      end
  end.

Definition Execute (fuel : nat) (plan : option PlacementPlan) : M TransactionRecord :=
  record ← Stage plan;
  _ ← persist record;
  Resume fuel (TransactionID record).

Definition Get (transactionID : string) : M TransactionRecord :=
  _ ← contextError;
  found ← get transactionID;
  match found with None => fail (StoreError ErrTransactionNotFound) | Some r => mret r end.

(** The outcomes so far, and the error that ended the loop. *)
Fixpoint resume_each (fuel : nat) (ids : list string) : World → World * (list TransactionRecord * option ExecutorError) :=
  match ids with
  | [] => λ w, (w, ([], None))
  | id :: ids => λ w,
      match Resume fuel id w with
      | (w, Err e) => (w, ([], Some e))
      | (w, Ok r) => let '(w, (rs, e)) := resume_each fuel ids w in (w, (r :: rs, e))
      end
  end.

Definition ResumeAll (fuel : nat) (w : World) : World * (list TransactionRecord * option ExecutorError) :=
  match contextError w with
  | (w, Err e) => (w, ([], Some e))
  | (w, Ok _) =>
      let w := interfere w in
      resume_each fuel (TransactionID <$> sort_by (λ a b, str_ltb (TransactionID a) (TransactionID b))
                                            (ListInFlightTransactions (w_store w))) w
  end.

End Executor.

(** ** Outcomes ([outcome.go]) *)

Record ExecOutcome := mkExecOutcome { oc_Transaction : option TransactionRecord; oc_Terminal : bool }.

Definition outcome_Results (o : option ExecOutcome) : list (option ActionResult) :=
  match o with
  | Some (mkExecOutcome (Some r) _) => transactionResults (Plan r) (State r) (tr_ProviderReceipt r)
  | _ => []
  end.

Definition outcome_Succeeded (o : option ExecOutcome) : bool :=
  match o with
  | Some (mkExecOutcome (Some r) true) => bool_decide (State r = TransactionStateCommitted)
  | _ => false
  end.

Definition outcome_Degraded (o : option ExecOutcome) : bool :=
  match o with
  | Some (mkExecOutcome (Some r) _) => bool_decide (State r = TransactionStateDegraded)
  | _ => false
  end.

End PlanExecutor.
