(* ===== verification/PlanExecutorProofs.v ===== *)
(** * The plan executor: properties *)

From Stdlib Require Import ZArith Lia.
From S2P Require Import Prelude GoStrings GoTime GoFloat ClusterModel SchedulerState Mutation Preemption Reservation ReservationProofs Transaction TransactionProofs PlanExecutor.
From stdpp Require Import options.

Local Open Scope Z_scope.

(** ** Invariants of a run

    [running] holds of the world as long as the executor goes on; [stopped] of the
    world it leaves when it fails. *)

Section Keeps.
Context {E : Type} (running stopped : World (E:=E) → Prop).

Definition keeps {A} (m : M A) : Prop :=
  ∀ w, running w → match m w with (w', Ok _) => running w' | (w', Err _) => stopped w' end.

Lemma keeps_ret {A} (a : A) : keeps (mret a).
Proof using. by intros w. Qed.

Lemma keeps_bind {A B} (m : M A) (f : A → M B) : keeps m → (∀ a, keeps (f a)) → keeps (a ← m; f a).
Proof using.
  intros Hm Hf w Hw. specialize (Hm w Hw). unfold mbind, M_bind. destruct (m w) as [w1 [a|e]]; [by apply Hf|done].
Qed.

Lemma bind_assoc {A B C} (m : M (E:=E) A) (f : A → M (E:=E) B) (g : B → M (E:=E) C) w :
  (b ← (a ← m; f a); g b) w = (a ← m; b ← f a; g b) w.
Proof using. unfold mbind, M_bind. by destruct (m w) as [w1 [a|e]]. Qed.

Lemma ret_bind {A B} (a : A) (f : A → M (E:=E) B) w : (x ← mret a; f x) w = f a w.
Proof using. done. Qed.

Lemma call_bind {B} f c (g : Answer → M (E:=E) B) w :
  (a ← call f c; g a) w = (let '(a, e) := f (w_env w) in g a (mkWorld (w_store w) e (w_log w ++ [Called c a]))).
Proof using. unfold mbind, M_bind, call. by destruct (f (w_env w)). Qed.

Lemma keeps_assoc {A B C} (m : M A) (f : A → M B) (g : B → M C) :
  keeps (a ← m; b ← f a; g b) → keeps (b ← (a ← m; f a); g b).
Proof using. intros H w Hw. rewrite bind_assoc. by apply H. Qed.

End Keeps.

Create HintDb keeps.

(** The cases a computation distinguishes do not matter. *)
Ltac keeps_cases :=
  repeat first
    [ progress intros
    | match goal with
      | |- keeps _ _ (mbind _ _) => apply keeps_bind
      | |- keeps _ _ (mret _) => apply keeps_ret
      end
    | progress unfold terminal, resumable, degrade, checked
    | match goal with
      | |- context [decide ?c] => destruct (decide c)
      | |- context [match ?x with _ => _ end] => destruct x
      end
    | solve [auto with keeps]
    | solve [match goal with H : _ |- _ => apply H; discriminate end] ].

Section Run.
Context (allocationID unicode_quote : string → string) `{Env : Environment E}.
Context (running stopped : World (E:=E) → Prop).

Local Abbreviation keeps := (keeps running stopped).
Set Default Proof Using "Type*".

Context (running_stopped : ∀ w, running w → stopped w).
Context (keeps_call : ∀ f c, c ≠ Commit → keeps (call f c)) (keeps_now : keeps now) (keeps_contextError : keeps contextError)
        (keeps_get : ∀ id, keeps (get allocationID id)) (keeps_saved : ∀ op, keeps (saved allocationID op)).

#[local] Hint Resolve keeps_call keeps_now keeps_contextError keeps_get keeps_saved : keeps.

Lemma keeps_fail {A} e : keeps (fail e : M A).
Proof. intros w Hw. by apply running_stopped. Qed.
#[local] Hint Resolve keeps_fail : keeps.

Lemma keeps_advance r st fc reason rc : keeps (advance allocationID r st fc reason rc).
Proof. unfold advance. keeps_cases. Qed.

Lemma keeps_finalize r ok st fc reason rc : keeps (finalize allocationID r ok st fc reason rc).
Proof. unfold finalize. keeps_cases. Qed.
#[local] Hint Resolve keeps_advance keeps_finalize : keeps.

Lemma keeps_reconcile r : keeps (reconcile unicode_quote r).
Proof. unfold reconcile. keeps_cases. Qed.
#[local] Hint Resolve keeps_reconcile : keeps.

Lemma keeps_applyReconciledReceipt r rc : keeps (applyReconciledReceipt allocationID r rc).
Proof. unfold applyReconciledReceipt. keeps_cases. Qed.
#[local] Hint Resolve keeps_applyReconciledReceipt : keeps.

Lemma keeps_handleApplyFailure r rc cause : keeps (handleApplyFailure allocationID unicode_quote r rc cause).
Proof. unfold handleApplyFailure. keeps_cases. Qed.
#[local] Hint Resolve keeps_handleApplyFailure : keeps.

Lemma keeps_handleCommitFailure r rc cause : keeps (handleCommitFailure allocationID unicode_quote r rc cause).
Proof. unfold handleCommitFailure. keeps_cases. Qed.

Lemma keeps_handleAbortFailure r rc cause : keeps (handleAbortFailure allocationID unicode_quote r rc cause).
Proof. unfold handleAbortFailure. keeps_cases. Qed.
#[local] Hint Resolve keeps_handleCommitFailure keeps_handleAbortFailure : keeps.

Lemma keeps_apply_steps l r : keeps (apply_steps allocationID unicode_quote r l).
Proof. revert r. induction l as [|i l IH]; intros r; cbn [apply_steps]; keeps_cases. Qed.
#[local] Hint Resolve keeps_apply_steps : keeps.

Context (keeps_call_commit : ∀ f, keeps (call f Commit)).
#[local] Hint Resolve keeps_call_commit : keeps.

Lemma keeps_step r : keeps (step allocationID unicode_quote r).
Proof. unfold step, prepare, call_prepare, apply, commit, abort. keeps_cases. Qed.
#[local] Hint Resolve keeps_step : keeps.

Lemma keeps_resume_loop fuel r : keeps (resume_loop allocationID unicode_quote fuel r).
Proof. revert r. induction fuel as [|fuel IH]; intros r; cbn [resume_loop]; keeps_cases. Qed.
#[local] Hint Resolve keeps_resume_loop : keeps.

Lemma keeps_Resume fuel id : keeps (Resume allocationID unicode_quote fuel id).
Proof. unfold Resume, ensureProviderPrepared, resumeFromProviderReceipt, call_prepare. keeps_cases. Qed.

End Run.

(** *** The store only changes by operations of the store *)

Section Reaches.
Context (allocationID unicode_quote : string → string) `{Env : Environment E}.

Definition reaches (w0 w : World (E:=E)) : Prop :=
  ∃ ops, w_store w = Transaction.apply_ops allocationID (w_store w0) ops.

Lemma reaches_refl w : reaches w w.
Proof using. by exists []. Qed.

Lemma reaches_more w0 w s ops :
  reaches w0 w → s = Transaction.apply_ops allocationID (w_store w) ops →
  ∀ e l, reaches w0 (mkWorld s e l).
Proof using.
  intros [ops0 ->] -> e l. exists (ops0 ++ ops). unfold Transaction.apply_ops. by rewrite foldl_app.
Qed.

Lemma reaches_interfere w0 w : reaches w0 w → reaches w0 (interfere allocationID w).
Proof using. intros H. unfold interfere. destruct (Others _) as [ops e]. by eapply reaches_more. Qed.

Lemma keeps_saved_reaches w0 op : keeps (reaches w0) (reaches w0) (saved allocationID op).
Proof using.
  intros w Hw%reaches_interfere. unfold saved, mbind, M_bind, write, persist, mret, M_ret.
  set (w1 := interfere allocationID w) in *. destruct (run allocationID _ op) as [[s [r|]]|e] eqn:Hrun; [|by eapply reaches_more with (ops := [op]); [|simpl; unfold apply_op; rewrite Hrun]|done].
  assert (H : ∀ e l, reaches w0 (mkWorld s e l)).
  { eapply reaches_more with (ops := [op]); [done|]. simpl. unfold apply_op. by rewrite Hrun. }
  simpl. by destruct (Checkpoint _ r) as [[err|] e].
Qed.

Lemma keeps_Resume_reaches w0 fuel id :
  keeps (reaches w0) (reaches w0) (Resume allocationID unicode_quote fuel id).
Proof using.
  apply keeps_Resume; [done| | | | | |].
  - intros f c _ w Hw. unfold call. by destruct (f _).
  - intros w Hw. unfold now. by destruct (Now _).
  - intros w Hw. unfold contextError. by destruct (ContextErr _) as [[e|] ?].
  - intros i w Hw%reaches_interfere. done.
  - apply keeps_saved_reaches.
  - intros f w Hw. unfold call. by destruct (f _).
Qed.

End Reaches.

(** ** What each call answers

    [answers m Q]: from a well-formed store [m] leaves a well-formed store, what it
    answers satisfies [Q], and it never runs out of fuel. *)

Section Answers.
Context (allocationID unicode_quote : string → string) `{Env : Environment E}.

Local Abbreviation World := (World (E:=E)).
Local Abbreviation store_ok := (store_ok allocationID).
Local Abbreviation apply_ops := (Transaction.apply_ops allocationID).

Definition answers_at {A} (m : M A) (Q : A → World → Prop) (w : World) : Prop :=
  store_ok (w_store (m w).1) ∧ match (m w).2 with Ok a => Q a (m w).1 | Err e => e ≠ OutOfFuel end.

Definition answers {A} (m : M A) (Q : A → World → Prop) : Prop :=
  ∀ w : World, store_ok (w_store w) → answers_at m Q w.

Lemma answers_ret {A} (a : A) (Q : A → World → Prop) : (∀ w, Q a w) → answers (mret a) Q.
Proof. intros HQ w Hw. split; [done|]. apply HQ. Qed.

(** The rest is run in a world where what was answered holds. *)
Lemma answers_bind_at {A B} (m : M A) (f : A → M B) R Q :
  answers m R → (∀ a w, store_ok (w_store w) → R a w → answers_at (f a) Q w) → answers (a ← m; f a) Q.
Proof.
  intros Hm Hf w Hw. destruct (Hm w Hw) as [H1 H2]. unfold answers_at, mbind, M_bind.
  destruct (m w) as [w1 [a|e]]; simpl in *; [|done]. by apply Hf.
Qed.

Lemma answers_bind {A B} (m : M A) (f : A → M B) R Q :
  answers m R → (∀ a, (∃ w, R a w) → answers (f a) Q) → answers (a ← m; f a) Q.
Proof. intros Hm Hf. eapply answers_bind_at; [done|]. intros a w Hw HR. apply Hf; [by exists w|done]. Qed.

Lemma answers_fail {A} e Q : e ≠ OutOfFuel → answers (fail e : M A) Q.
Proof. intros He w Hw. by split. Qed.

Lemma answers_weaken {A} (m : M A) (R Q : A → World → Prop) : answers m R → (∀ a w, R a w → Q a w) → answers m Q.
Proof. intros Hm HQ w Hw. destruct (Hm w Hw) as [H1 H2]. split; [done|]. destruct (m w).2; auto. Qed.

Definition anything {A} (_ : A) (_ : World) : Prop := True.

Lemma answers_call f c : answers (call f c) anything.
Proof. intros w Hw. unfold answers_at, call. destruct (f _). by split. Qed.

Lemma answers_now : answers now anything.
Proof. intros w Hw. unfold answers_at, now. destruct (Now _). by split. Qed.

Lemma interfere_ok w : store_ok (w_store w) → store_ok (w_store (interfere allocationID w)).
Proof. intros Hw. unfold interfere. destruct (Others _). by apply apply_ops_ok. Qed.

Lemma answers_contextError : answers contextError anything.
Proof. intros w Hw. unfold answers_at, contextError. by destruct (ContextErr _) as [[e|] ?]. Qed.

Lemma answers_get id :
  answers (get allocationID id) (λ found w, ∀ r, found = Some r →
    TransactionID r = id ∧ transactions (w_store w) !! id = Some r).
Proof.
  intros w Hw%interfere_ok. unfold answers_at, get. simpl. split; [done|]. intros r Hr. split; [|done]. by apply (Hw id r Hr).
Qed.

(** *** Operations of the store *)

Definition settled (r : TransactionRecord) (w : World) : Prop :=
  transactions (w_store w) !! TransactionID r = Some r ∧ terminalLocked r = true.

Definition saved_ok (op : TxOp) (r : TransactionRecord) (w : World) : Prop :=
  match op with
  | OpReserve _ _ id _ => TransactionID r = id ∧ State r ≠ TransactionStateProposed
  | OpAdvance _ rq => TransactionID r = ad_TransactionID rq ∧ State r = NextState rq
  | OpFinalize _ _ rq =>
      TransactionID r = fi_TransactionID rq ∧ (isTerminalTransactionState (FinalState rq) = true → settled r w)
  | _ => True
  end.

Lemma reserve_answer s rs u id g s' r :
  store_ok s → ReserveTransaction allocationID s rs u id g = Ok (s', r) →
  TransactionID r = id ∧ State r ≠ TransactionStateProposed.
Proof.
  intros Hok. unfold ReserveTransaction. destruct (transactions s !! id) as [rec|] eqn:Hrec; [|done].
  destruct (Hok id rec Hrec) as (Hid & _ & _ & _ & _ & _ & _ & Hp).
  destruct (validateTransactionGeneration _ _); [|done]. cbn [mbind Result_bind].
  destruct (terminalLocked rec); [done|]. destruct (ReservationHeld rec) eqn:Hh.
  { intros [= _ <-]. split; [done|]. intros H%Hp. done. }
  destruct (negb _); [done|]. destruct (transactionOverlapLocked _ _ _); [done|].
  destruct (from_state _); [|done]. intros [= _ <-]. by split.
Qed.

Lemma advance_answer s now rq s' r :
  store_ok s → AdvanceTransaction s now rq = Ok (s', r) → TransactionID r = ad_TransactionID rq ∧ State r = NextState rq.
Proof.
  intros Hok. unfold AdvanceTransaction. do 2 (case_bool_decide; [done|]).
  destruct (transactions s !! _) as [rec|] eqn:Hrec; [|done]. destruct (Hok _ rec Hrec) as (Hid & _).
  destruct (validateTransactionGeneration _ _); [|done]. cbn [mbind Result_bind].
  assert (Hs : advance_settled rec rq = true → State rec = NextState rq).
  { unfold advance_settled. intros Ha. repeat apply andb_true_iff in Ha as [Ha _]. by apply bool_decide_eq_true in Ha. }
  destruct (terminalLocked rec). { destruct (advance_settled _ _); [|done]. intros [= _ <-]. auto. }
  destruct (negb _); [done|]. destruct (advance_settled rec rq && bool_decide _) eqn:Ha.
  { intros [= _ <-]. apply andb_true_iff in Ha as [Ha _]. auto. }
  destruct (_ && transactionOverlapLocked _ _ _); [done|]. by intros [= _ <-].
Qed.

Lemma finalize_answer s c u rq s' r :
  store_ok s → FinalizeTransaction allocationID s c u rq = Ok (s', r) →
  TransactionID r = fi_TransactionID rq ∧ transactions s' !! TransactionID r = Some r ∧
  (isTerminalTransactionState (FinalState rq) = true → terminalLocked r = true).
Proof.
  intros Hok. unfold FinalizeTransaction. case_bool_decide; [done|].
  destruct (transactions s !! _) as [rec|] eqn:Hrec; [|done]. destruct (Hok _ rec Hrec) as (Hid & _).
  destruct (validateTransactionGeneration _ _); [|done]. cbn [mbind Result_bind].
  destruct (terminalLocked rec) eqn:Ht. { destruct (_ && _); [|done]. intros [= <- <-]. by rewrite Hid, Hrec. }
  destruct (negb _); [done|]. destruct (transactionOverlapLocked _ _ _); [done|].
  destruct (from_state _) as [l|]; [|done]. cbn [mbind Result_bind]. intros [= <- <-]. cbn.
  rewrite Hid, lookup_insert_eq. split_and!; [done|done|].
  intros Ht'. unfold terminalLocked. cbn. unfold final_state. case_decide as Hf; [by rewrite Hf in Ht'|]. by rewrite Ht'.
Qed.

Lemma answers_saved op : answers (saved allocationID op) (saved_ok op).
Proof.
  intros w Hw%interfere_ok. unfold answers_at, saved, mbind, M_bind, write, persist, mret, M_ret. simpl.
  destruct (run allocationID _ op) as [[s [r|]]|e] eqn:Hrun; simpl.
  - assert (store_ok s) by (eapply effect_store_ok; [by eapply run_effect|done]).
    destruct (Checkpoint _ r) as [[err|] e]; simpl; (split; [done|]); [done|].
    destruct op; simpl in *; try done.
    + destruct (ReserveTransaction _ _ _ _ _ _) as [[s1 r1]|] eqn:Ha; [|done]. injection Hrun as -> ->.
      by apply (reserve_answer _ _ _ _ _ _ _ Hw Ha).
    + destruct (AdvanceTransaction _ _ _) as [[s1 r1]|] eqn:Ha; [|done]. injection Hrun as -> ->.
      by apply (advance_answer _ _ _ _ _ Hw Ha).
    + destruct (FinalizeTransaction _ _ _ _ _) as [[s1 r1]|] eqn:Ha; [|done]. injection Hrun as -> ->.
      destruct (finalize_answer _ _ _ _ _ _ Hw Ha) as (?&?&?). split; [done|]. intros ?. split; [done|]. auto.
  - split; [|done]. eapply effect_store_ok; [by eapply run_effect|done].
  - by split.
Qed.

(** *** The functions of the executor *)

(** How far a record is from the end of the loop of [Resume]. *)
Definition rank (r : TransactionRecord) : nat :=
  if decide (State r = TransactionStateProposed) then 3%nat
  else if decide (State r = TransactionStateReserved) then 2%nat
  else if decide (State r = TransactionStatePrepared ∨ State r = TransactionStateApplying) then 1%nat else 0%nat.

(** Over, with the record the store keeps, or at most [n] steps away. *)
Definition progress (id : string) (n : nat) (x : TransactionRecord * bool) (w : World) : Prop :=
  TransactionID x.1 = id ∧ if x.2 then settled x.1 w else (rank x.1 < n)%nat.

Definition named (id : string) (st : string) (r : TransactionRecord) (_ : World) : Prop :=
  TransactionID r = id ∧ State r = st.

Definition over (id : string) (r : TransactionRecord) (w : World) : Prop := TransactionID r = id ∧ settled r w.

Lemma answers_advance r st fc reason rc :
  answers (advance allocationID r st fc reason rc) (named (TransactionID r) st).
Proof.
  eapply answers_bind; [apply answers_now|]. intros t _. eapply answers_weaken; [apply answers_saved|]. done.
Qed.

Lemma answers_finalize r ok st fc reason rc :
  isTerminalTransactionState st = true →
  answers (finalize allocationID r ok st fc reason rc) (over (TransactionID r)).
Proof.
  intros Hst. do 2 (eapply answers_bind; [apply answers_now|]; intros ? _).
  eapply answers_weaken; [apply answers_saved|]. intros x w [H1 H2]. split; [done|by apply H2].
Qed.

Lemma answers_terminal m id n : answers m (over id) → answers (terminal m) (progress id n).
Proof.
  intros Hm. eapply answers_bind_at; [done|]. intros r w Hw Hr. by split.
Qed.

Lemma answers_resumable m id st n :
  answers m (named id st) → (∀ r, State r = st → (rank r < n)%nat) → answers (resumable m) (progress id n).
Proof.
  intros Hm Hst. eapply answers_bind; [done|]. intros r [w [<- H]]. apply answers_ret. intros ?. split; [done|]. simpl. auto.
Qed.

Lemma answers_finalized r ok st fc reason rc n :
  isTerminalTransactionState st = true →
  answers (terminal (finalize allocationID r ok st fc reason rc)) (progress (TransactionID r) n).
Proof. intros. by apply answers_terminal, answers_finalize. Qed.

Lemma answers_reconcile r : answers (reconcile unicode_quote r) anything.
Proof. eapply answers_bind; [apply answers_call|]. intros a _. by apply answers_ret. Qed.

Lemma answers_checked r rc : answers (checked unicode_quote r rc) anything.
Proof. unfold checked. destruct (validateReceiptForPlan _ _ _ _); [by apply answers_ret|by apply answers_fail]. Qed.

Ltac rank_of := let r := fresh in let H := fresh in intros r H; unfold rank; rewrite H; vm_compute; lia.

(** Every way a record can be finalised or advanced. *)
Ltac answers_cases :=
  repeat first
    [ apply answers_finalized; reflexivity
    | eapply answers_resumable; [apply answers_advance|rank_of]
    | apply answers_fail; discriminate
    | case_decide | case_bool_decide
    | match goal with |- answers (if ?c then _ else _) _ => destruct c end ].

Lemma answers_applyReconciledReceipt r rc :
  (rank r < 2)%nat → answers (applyReconciledReceipt allocationID r rc) (progress (TransactionID r) 2).
Proof.
  intros Hr. unfold applyReconciledReceipt. answers_cases. apply answers_ret. by split.
Qed.

Lemma answers_handleApplyFailure r rc cause :
  answers (handleApplyFailure allocationID unicode_quote r rc cause) (progress (TransactionID r) 1).
Proof.
  eapply answers_bind; [apply answers_reconcile|]. intros [rec|m] _; [|answers_cases].
  case_decide as Hp; [|answers_cases]. unfold applyReconciledReceipt. destruct Hp as [->| ->]; answers_cases; done.
Qed.

Lemma answers_handleCommitFailure r rc cause :
  answers (handleCommitFailure allocationID unicode_quote r rc cause) (progress (TransactionID r) 1).
Proof.
  eapply answers_bind; [apply answers_reconcile|]. intros [rec|m] _; answers_cases. apply answers_handleApplyFailure.
Qed.

Lemma answers_handleAbortFailure r rc cause n :
  answers (handleAbortFailure allocationID unicode_quote r rc cause) (progress (TransactionID r) n).
Proof. eapply answers_bind; [apply answers_reconcile|]. intros [rec|m] _; answers_cases. Qed.

Lemma answers_prepare r : answers (prepare allocationID unicode_quote r) (progress (TransactionID r) 2).
Proof.
  eapply answers_bind; [apply answers_call|]. intros [rc [err|]] _; [answers_cases|].
  eapply answers_bind; [apply answers_checked|]. intros ? _. answers_cases.
Qed.

(** After the loop: still named so, or an early return. *)
Definition after_steps (id : string) (x : TransactionRecord + TransactionRecord * bool) (w : World) : Prop :=
  match x with inl r => TransactionID r = id | inr x => progress id 1 x w end.

Lemma answers_returned m id : answers m (progress id 1) → answers (x ← m; mret (inr x)) (after_steps id).
Proof.
  intros Hm. eapply answers_bind_at; [done|]. intros x w Hw Hx. by split.
Qed.

Lemma answers_apply_steps l r : answers (apply_steps allocationID unicode_quote r l) (after_steps (TransactionID r)).
Proof.
  revert r. induction l as [|i l IH]; intros r; cbn [apply_steps]; [by apply answers_ret|].
  case_bool_decide; [done|]. eapply answers_bind; [apply answers_call|]. intros [rc [err|]] _.
  { apply answers_returned, answers_handleApplyFailure. }
  eapply answers_bind; [apply answers_checked|]. intros r1 _. destruct (classifyStepReceipt r1 i) as [st [|]].
  { apply answers_returned, answers_handleApplyFailure. }
  case_bool_decide.
  - eapply answers_bind; [apply answers_advance|]. intros r2 [w [<- Hst]]. apply answers_ret. intros ?.
    split; [done|]. simpl. unfold rank. rewrite Hst. vm_compute. lia.
  - eapply answers_bind; [apply answers_advance|]. intros r2 [w [<- Hst]]. apply IH.
Qed.

Lemma answers_commit r : answers (commit allocationID unicode_quote r) (progress (TransactionID r) 1).
Proof.
  eapply answers_bind; [apply answers_call|]. intros [rc [err|]] _; [apply answers_handleCommitFailure|].
  eapply answers_bind; [apply answers_checked|]. intros r1 _.
  destruct (isAmbiguousPhase _); [apply answers_handleCommitFailure|answers_cases].
Qed.

(** The first step of [apply] and of [abort]: an advance from one of the states. *)
Lemma answers_entered r from to fc reason :
  answers (if bool_decide (State r = from) then advance allocationID r to fc reason None else mret r)
    (λ r' _, TransactionID r' = TransactionID r).
Proof.
  case_bool_decide; [|by apply answers_ret]. eapply answers_weaken; [apply answers_advance|]. by intros ?? [].
Qed.

Lemma answers_apply r : answers (apply allocationID unicode_quote r) (progress (TransactionID r) 1).
Proof.
  eapply answers_bind; [apply answers_entered|]. intros r1 [_ <-].
  eapply answers_bind_at; [apply answers_apply_steps|]. intros [r2|x] w Hw Hx; [|by split].
  simpl in Hx. rewrite <-Hx. by apply answers_commit.
Qed.

Lemma answers_abort r n : answers (abort allocationID unicode_quote r) (progress (TransactionID r) n).
Proof.
  eapply answers_bind; [apply answers_entered|]. intros r1 [_ <-].
  eapply answers_bind; [apply answers_call|]. intros [rc [err|]] _; [apply answers_handleAbortFailure|].
  eapply answers_bind; [apply answers_checked|]. intros r2 _.
  destruct (isAmbiguousPhase _); [apply answers_handleAbortFailure|answers_cases].
Qed.

Lemma answers_reserve r t u :
  answers (resumable (saved allocationID (OpReserve t u (TransactionID r) (Generation r)))) (progress (TransactionID r) 3).
Proof.
  eapply answers_bind; [apply answers_saved|]. intros r1 [w [<- Hst]]. apply answers_ret. intros ?. split; [done|].
  simpl. unfold rank. rewrite decide_False by done. repeat case_decide; lia.
Qed.

(** Each iteration of the loop of [Resume] ends it or brings the record nearer the end. *)
Lemma answers_step r : answers (step allocationID unicode_quote r) (progress (TransactionID r) (rank r)).
Proof.
  unfold step, rank. case_decide.
  { do 2 (eapply answers_bind; [apply answers_now|]; intros ? _). apply answers_reserve. }
  case_decide; [apply answers_prepare|]. case_decide; [apply answers_apply|].
  case_decide; [apply answers_abort|by apply answers_fail].
Qed.

Lemma answers_resume_loop fuel r :
  (rank r < fuel)%nat → answers (resume_loop allocationID unicode_quote fuel r) (over (TransactionID r)).
Proof.
  revert r. induction fuel as [|fuel IH]; intros r Hr; [lia|]. cbn [resume_loop].
  eapply answers_bind_at; [apply answers_step|]. intros [r1 [|]] w Hw [<- Hx]; simpl in *; [by split|].
  apply IH; [lia|done].
Qed.

Lemma answers_resumeFromProviderReceipt r :
  (rank r < 2)%nat →
  answers (resumeFromProviderReceipt allocationID unicode_quote r) (progress (TransactionID r) 2).
Proof.
  intros Hr. eapply answers_bind; [apply answers_call|]. intros [rc [err|]] _; [unfold degrade; answers_cases|].
  destruct (validateReceiptForPlan _ _ _ _); [|unfold degrade; answers_cases].
  eapply answers_bind; [apply answers_reconcile|]. intros [rec|m] _; [|unfold degrade; answers_cases].
  by apply answers_applyReconciledReceipt.
Qed.

Lemma rank_bound r : (rank r < 4)%nat.
Proof. unfold rank. repeat case_decide; lia. Qed.

Lemma answers_ensured r :
  answers (if bool_decide (State r = TransactionStatePrepared) then ensureProviderPrepared allocationID unicode_quote r
           else mret r) (λ r' _, TransactionID r' = TransactionID r).
Proof.
  case_bool_decide; [|by apply answers_ret]. eapply answers_bind; [apply answers_call|].
  intros [rc [err|]] _; [by apply answers_fail|]. eapply answers_bind; [apply answers_checked|]. intros ? _.
  eapply answers_weaken; [apply answers_advance|]. by intros ?? [].
Qed.

(** The loop of [Resume], entered from the record read. *)
Lemma answers_resumed fuel r :
  (4 ≤ fuel)%nat →
  answers (if bool_decide (State r = TransactionStateApplying) then
             x ← resumeFromProviderReceipt allocationID unicode_quote r;
             if (x.2 : bool) then mret x.1 else resume_loop allocationID unicode_quote fuel x.1
           else resume_loop allocationID unicode_quote fuel r) (over (TransactionID r)).
Proof.
  intros Hf. case_bool_decide as Hs.
  - assert (Hr : (rank r < 2)%nat) by (unfold rank; rewrite Hs; vm_compute; lia).
    eapply answers_bind_at; [by apply answers_resumeFromProviderReceipt|].
    intros [r1 [|]] w Hw [<- Hx]; simpl in *; [by split|]. apply answers_resume_loop; [lia|done].
  - apply answers_resume_loop. pose proof (rank_bound r). lia.
Qed.

Lemma answers_Resume fuel id :
  (4 ≤ fuel)%nat → answers (Resume allocationID unicode_quote fuel id) (over id).
Proof.
  intros Hf. eapply answers_bind; [apply answers_contextError|]. intros _ _.
  eapply answers_bind_at; [apply answers_get|]. intros [r|] w Hw Hx; [|by split]. destruct (Hx r eq_refl) as [<- Hr].
  destruct (terminalLocked r) eqn:Ht; [split; [done|]; by split|].
  clear Hx Hr. revert w Hw. eapply answers_bind; [apply answers_ensured|]. intros r1 [_ <-]. by apply answers_resumed.
Qed.

(** *** More fuel changes nothing *)

(** Computations that answer alike where [m] does. *)
Lemma bind_agree {A B} (m : M A) (f g : A → M B) R w :
  answers m R → store_ok (w_store w) →
  (∀ a w, store_ok (w_store w) → R a w → f a w = g a w) → (a ← m; f a) w = (a ← m; g a) w.
Proof.
  intros Hm Hw Hf. destruct (Hm w Hw) as [H1 H2]. unfold mbind, M_bind. destruct (m w) as [w1 [a|e]]; simpl in *; auto.
Qed.

Lemma resume_loop_more fuel k r w :
  store_ok (w_store w) → (rank r < fuel)%nat →
  resume_loop allocationID unicode_quote fuel r w = resume_loop allocationID unicode_quote (fuel + k) r w.
Proof.
  revert r w. induction fuel as [|fuel IH]; intros r w Hw Hr; [lia|]. cbn [Nat.add resume_loop].
  eapply bind_agree; [apply answers_step|done|]. intros [r1 [|]] w1 Hw1 [_ Hx]; simpl in *; [done|]. apply IH; [done|lia].
Qed.

Lemma Resume_more k id w :
  store_ok (w_store w) →
  Resume allocationID unicode_quote 4 id w = Resume allocationID unicode_quote (4 + k) id w.
Proof.
  intros Hw. eapply bind_agree; [apply answers_contextError|done|]. intros _ w1 Hw1 _.
  eapply bind_agree; [apply answers_get|done|]. intros [r|] w2 Hw2 _; [|done]. destruct (terminalLocked r); [done|].
  eapply bind_agree; [apply answers_ensured|done|]. intros r1 w3 Hw3 _. case_bool_decide as Hs.
  - eapply bind_agree; [apply answers_resumeFromProviderReceipt|done|].
    { unfold rank. rewrite Hs. vm_compute. lia. }
    intros [r2 [|]] w4 Hw4 [_ Hx]; cbn [fst snd] in *; [done|]. apply (resume_loop_more 4); [done|lia].
  - apply (resume_loop_more 4); [done|]. apply rank_bound.
Qed.

(** ** Termination and outcomes *)

(** C9: [Resume] ends, whatever the provider, the checkpoint, the clock and the other
    holders of the store do: from a well-formed store four iterations of its loop are
    enough, and more change nothing. *)
Theorem Resume_terminates id (w : World) :
  store_ok (w_store w) →
  ∃ w' result, result ≠ Err OutOfFuel ∧
    ∀ fuel, (4 ≤ fuel)%nat → Resume allocationID unicode_quote fuel id w = (w', result).
Proof.
  intros Hw. destruct (answers_Resume 4 id (le_n 4) w Hw) as [_ H].
  destruct (Resume _ _ 4 id w) as [w' result] eqn:Hr. exists w', result. split; [by intros ->|].
  intros fuel Hf. replace fuel with (4 + (fuel - 4))%nat by lia. by rewrite <-Resume_more.
Qed.

(** C5: [Resume] refines the store's machine: what it and the others do to the store is
    a trace of the store's operations, and the outcome it answers is the store's own
    record of that transaction, terminal, which no later trace changes. *)
Theorem Resume_refines fuel id (w : World) :
  store_ok (w_store w) → (4 ≤ fuel)%nat →
  let '(w', result) := Resume allocationID unicode_quote fuel id w in
  (∃ ops, w_store w' = apply_ops (w_store w) ops) ∧
  (∀ r, result = Ok r → ∀ later, transactions (apply_ops (w_store w') later) !! id = Some r ∧ terminalLocked r = true).
Proof.
  intros Hw Hf. destruct (answers_Resume fuel id Hf w Hw) as [_ H].
  assert (Ht : keeps (reaches allocationID w) (reaches allocationID w) (Resume allocationID unicode_quote fuel id)) by apply keeps_Resume_reaches.
  specialize (Ht w (reaches_refl allocationID w)). destruct (Resume _ _ fuel id w) as [w' [r|e]]; simpl in *.
  - split; [exact Ht|]. intros ? [= <-] later. destruct H as [<- [Hr Hterm]]. split; [|done]. by apply terminal_immutable.
  - split; [exact Ht|]. done.
Qed.

End Answers.

(** ** The record is durable before the provider is called *)

(** [dirty] is the record written and not yet checkpointed. *)
Definition after_event (dirty : option TransactionRecord) (ev : Event) : option TransactionRecord :=
  match ev with
  | Wrote r => Some r
  | Checkpointed _ None => None
  | _ => dirty
  end.

Definition event_allowed (dirty : option TransactionRecord) (ev : Event) : Prop :=
  match ev with
  | Called _ _ | Wrote _ => dirty = None
  | Checkpointed r _ => dirty = None ∨ dirty = Some r
  | Read _ => True
  end.

(** Every event of the log is allowed where it happens. *)
Fixpoint write_ahead (dirty : option TransactionRecord) (log : list Event) : Prop :=
  match log with
  | [] => True
  | ev :: log => event_allowed dirty ev ∧ write_ahead (after_event dirty ev) log
  end.

Lemma write_ahead_app dirty log1 log2 :
  write_ahead dirty (log1 ++ log2) ↔ write_ahead dirty log1 ∧ write_ahead (foldl after_event dirty log1) log2.
Proof. revert dirty. induction log1 as [|ev log1 IH]; intros dirty; simpl; [tauto|]. rewrite IH. tauto. Qed.

Section WriteAhead.
Context (allocationID unicode_quote : string → string) `{Env : Environment E}.

Definition logged (w : World (E:=E)) : Prop := write_ahead None (w_log w).
Definition durable (w : World (E:=E)) : Prop := logged w ∧ foldl after_event None (w_log w) = None.

(** An event that leaves a durable world durable. *)
Lemma durable_event w s e ev :
  durable w → event_allowed None ev → after_event None ev = None → durable (mkWorld s e (w_log w ++ [ev])).
Proof using.
  intros [H1 H2] Ha Hn. unfold durable, logged. simpl. rewrite write_ahead_app, foldl_app, H2. simpl. tauto.
Qed.

(** What is written is checkpointed at once; a refused checkpoint stops the run. *)
Lemma write_persist w s e r err :
  durable w →
  let w' := mkWorld s e ((w_log w ++ [Wrote r]) ++ [Checkpointed r err]) in
  match err with None => durable w' | Some _ => logged w' end.
Proof using.
  intros [H1 H2]. destruct err as [err|]; unfold durable, logged; simpl;
    rewrite !write_ahead_app, ?foldl_app, ?H2; simpl; rewrite ?foldl_app; simpl; rewrite ?H2; tauto.
Qed.

Lemma keeps_saved_durable op : keeps durable logged (saved allocationID op).
Proof using.
  intros w Hw. unfold saved, mbind, M_bind, write, persist, mret, M_ret, interfere. destruct (Others _) as [ops e]. simpl.
  destruct (run allocationID _ op) as [[s [r|]]|err]; [|by destruct Hw|by destruct Hw].
  simpl. destruct (Checkpoint e r) as [err e'].
  pose proof (write_persist w s e' r err Hw) as H. by destruct err.
Qed.

Lemma keeps_get_durable id : keeps durable logged (get allocationID id).
Proof using.
  intros w Hw. unfold get, interfere. destruct (Others _) as [ops e]. simpl.
  destruct (GetTransaction _ id) as [r|]; simpl; [by apply durable_event|]. by rewrite app_nil_r.
Qed.

Lemma keeps_call_durable f c : keeps durable logged (call f c).
Proof using. intros w Hw. unfold call. destruct (f _). by apply durable_event. Qed.

Lemma keeps_now_durable : keeps durable logged now.
Proof using. intros w Hw. unfold now. by destruct (Now _). Qed.

Lemma keeps_contextError_durable : keeps durable logged contextError.
Proof using. intros w Hw. unfold contextError. destruct (ContextErr _) as [[e|] ?]; [by destruct Hw|done]. Qed.

(** A record the store already had is checkpointed too. *)
Lemma keeps_persist_durable r : keeps durable logged (persist r).
Proof using.
  intros w Hw. unfold persist. destruct (Checkpoint _ r) as [[err|] e].
  - destruct Hw as [H1 H2]. unfold logged. simpl. rewrite write_ahead_app, H2. simpl. tauto.
  - apply durable_event; simpl; auto.
Qed.

Lemma keeps_Resume_durable fuel id : keeps durable logged (Resume allocationID unicode_quote fuel id).
Proof using.
  apply keeps_Resume.
  - by intros w [].
  - intros f c _. apply keeps_call_durable.
  - apply keeps_now_durable.
  - apply keeps_contextError_durable.
  - apply keeps_get_durable.
  - apply keeps_saved_durable.
  - intros f. apply keeps_call_durable.
Qed.

(** [Stage] with the checkpoint of what it answers. *)
Lemma keeps_staged plan : keeps durable logged (r ← Stage allocationID plan; _ ← persist r; mret r).
Proof using.
  unfold Stage. apply keeps_assoc, keeps_bind; [apply keeps_contextError_durable|]. intros _.
  destruct (validatePlan plan) as [plan'|e]; [|by intros w []]. apply keeps_assoc, keeps_bind; [apply keeps_get_durable|].
  intros [r|].
  - destruct (plan_Equal _ _); [|by intros w []]. apply (keeps_bind _ _ (persist r)); [apply keeps_persist_durable|]. intros _. apply keeps_ret.
  - do 3 (apply keeps_assoc, keeps_bind; [apply keeps_now_durable|]; intros ?). apply keeps_saved_durable.
Qed.

(** C7: Write-ahead.  Whatever the provider, the checkpoint and the other holders of the
    store do, [Execute] checkpoints every record it writes before it writes another or
    calls the provider, and goes no further when a checkpoint is refused. *)
Theorem Execute_write_ahead fuel plan s e :
  write_ahead None (w_log (Execute allocationID unicode_quote fuel plan (mkWorld s e [])).1).
Proof using.
  assert (H : keeps durable logged (Execute allocationID unicode_quote fuel plan)).
  { intros w Hw. pose proof (keeps_bind _ _ _ (λ r, Resume allocationID unicode_quote fuel (TransactionID r))
      (keeps_staged plan) (λ r, keeps_Resume_durable fuel _) w Hw) as H. rewrite bind_assoc in H.
    unfold Execute. revert H. unfold mbind, M_bind, mret, M_ret. destruct (Stage _ _ w) as [w1 [r|]]; [|done].
    by destruct (persist r w1) as [w2 [[]|]]. }
  specialize (H (mkWorld s e [])). destruct (Execute _ _ _ _ _) as [w' [r|err]]; simpl; by apply H.
Qed.

End WriteAhead.

(** ** A plan is committed after every one of its steps *)

(** The log shows that the step was applied: a record that says so, or the provider's
    answer to the step. *)
Definition confirms (i : Z) (ev : Event) : Prop :=
  match ev with
  | Read r | Wrote r => effectStatus (tr_ProviderReceipt r) i = EffectStatusSucceeded
  | Called (ExecStep j) (Some rc, None) => j = i ∧ classifyStepReceipt rc i = (EffectStatusSucceeded, false)
  | _ => False
  end.

Definition is_commit (ev : Event) : bool := match ev with Called Commit _ => true | _ => false end.

Section CommitLast.
Context (allocationID unicode_quote : string → string) `{Env : Environment E}.

Local Abbreviation World := (World (E:=E)).

(** The log grows, without a call of [CommitPlan]. *)
Definition quiet (w0 w : World) : Prop := ∃ new, w_log w = w_log w0 ++ new ∧ Forall (λ ev, is_commit ev = false) new.

Lemma quiet_refl w : quiet w w.
Proof using. exists []. by rewrite app_nil_r. Qed.

Lemma quiet_event w0 w s e ev : quiet w0 w → is_commit ev = false → quiet w0 (mkWorld s e (w_log w ++ [ev])).
Proof using.
  intros (new & H1 & H2) Hev. exists (new ++ [ev]). simpl. rewrite H1, app_assoc. split; [done|].
  apply Forall_app. split; [done|]. by apply Forall_singleton.
Qed.

Lemma quiet_trans w0 w1 w2 : quiet w0 w1 → quiet w1 w2 → quiet w0 w2.
Proof using.
  intros (n1 & H1 & F1) (n2 & H2 & F2). exists (n1 ++ n2). rewrite H2, H1, app_assoc. split; [done|]. by apply Forall_app.
Qed.

Lemma keeps_call_quiet w0 f c : c ≠ Commit → keeps (quiet w0) (quiet w0) (call f c).
Proof using. intros Hc w Hw. unfold call. destruct (f _). apply quiet_event; [done|]. by destruct c. Qed.

Lemma quiet_interfere w0 w : quiet w0 w → quiet w0 (interfere allocationID w).
Proof using. intros H. unfold interfere. by destruct (Others _). Qed.

Lemma keeps_get_quiet w0 id : keeps (quiet w0) (quiet w0) (get allocationID id).
Proof using.
  intros w Hw%quiet_interfere. unfold get. destruct (GetTransaction _ id); [by apply quiet_event|]. simpl. by rewrite app_nil_r.
Qed.

Lemma keeps_saved_quiet w0 op : keeps (quiet w0) (quiet w0) (saved allocationID op).
Proof using.
  intros w Hw%quiet_interfere. unfold saved, mbind, M_bind, write, persist, mret, M_ret.
  destruct (run allocationID _ op) as [[s [r|]]|err]; [|done|done].
  simpl. destruct (Checkpoint _ r) as [[err|] e]; apply (quiet_event _ (mkWorld s e (w_log (interfere allocationID w) ++ [Wrote r]))); auto; by apply quiet_event.
Qed.

Lemma keeps_now_quiet w0 : keeps (quiet w0) (quiet w0) now.
Proof using. intros w Hw. unfold now. by destruct (Now _). Qed.

Lemma keeps_context_quiet w0 : keeps (quiet w0) (quiet w0) contextError.
Proof using. intros w Hw. unfold contextError. by destruct (ContextErr _) as [[e|] ?]. Qed.

(** Nothing but [commit] calls [CommitPlan]. *)
Lemma keeps_handleApplyFailure_quiet w0 r rc cause :
  keeps (quiet w0) (quiet w0) (handleApplyFailure allocationID unicode_quote r rc cause).
Proof using.
  apply keeps_handleApplyFailure; auto using keeps_call_quiet, keeps_now_quiet, keeps_context_quiet, keeps_get_quiet, keeps_saved_quiet.
Qed.

Lemma keeps_handleCommitFailure_quiet w0 r rc cause :
  keeps (quiet w0) (quiet w0) (handleCommitFailure allocationID unicode_quote r rc cause).
Proof using.
  apply keeps_handleCommitFailure; auto using keeps_call_quiet, keeps_now_quiet, keeps_context_quiet, keeps_get_quiet, keeps_saved_quiet.
Qed.

Lemma keeps_advance_quiet w0 r st fc reason rc :
  keeps (quiet w0) (quiet w0) (advance allocationID r st fc reason rc).
Proof using.
  apply keeps_advance; auto using keeps_call_quiet, keeps_now_quiet, keeps_context_quiet, keeps_get_quiet, keeps_saved_quiet.
Qed.

Lemma keeps_finalize_quiet w0 r ok st fc reason rc :
  keeps (quiet w0) (quiet w0) (finalize allocationID r ok st fc reason rc).
Proof using.
  apply keeps_finalize; auto using keeps_call_quiet, keeps_now_quiet, keeps_context_quiet, keeps_get_quiet, keeps_saved_quiet.
Qed.

Lemma keeps_checked_quiet w0 r rc : keeps (quiet w0) (quiet w0) (checked unicode_quote r rc).
Proof using. intros w Hw. unfold checked. by destruct (validateReceiptForPlan _ _ _ _). Qed.

Lemma keeps_at {A} w0 (m : M A) w : keeps (quiet w0) (quiet w0) m → quiet w0 w → quiet w0 (m w).1.
Proof using. intros Hm Hw. specialize (Hm w Hw). by destruct (m w) as [w' [a|e]]. Qed.

Lemma advance_quiet w0 w r st fc reason rc w' res :
  quiet w0 w → advance allocationID r st fc reason rc w = (w', res) → quiet w0 w'.
Proof using. intros Hq Ha. pose proof (keeps_at w0 _ w (keeps_advance_quiet w0 r st fc reason rc) Hq) as H. by rewrite Ha in H. Qed.

(** A step is confirmed by the record the loop began with or by the log since. *)
Definition step_confirmed (base : TransactionRecord) (log : list Event) (i : Z) : Prop :=
  effectStatus (tr_ProviderReceipt base) i = EffectStatusSucceeded ∨ Exists (confirms i) log.

Lemma step_confirmed_more base log log' i : step_confirmed base log i → step_confirmed base (log ++ log') i.
Proof using. intros [H|H]; [by left|]. right. apply Exists_app. by left. Qed.

Definition seen (base : TransactionRecord) (log : list Event) (r : TransactionRecord) : Prop :=
  r = base ∨ Wrote r ∈ log.

Lemma seen_confirmed base log r i :
  seen base log r → effectStatus (tr_ProviderReceipt r) i = EffectStatusSucceeded → step_confirmed base log i.
Proof using.
  intros [->|H] Hi; [by left|]. right. apply Exists_exists. by exists (Wrote r).
Qed.

(** An advanced record is one the log shows. *)
Lemma advance_seen w0 w r st fc reason rc w' r' :
  quiet w0 w → advance allocationID r st fc reason rc w = (w', Ok r') →
  quiet w0 w' ∧ ∃ new, w_log w' = w_log w ++ new ∧ Wrote r' ∈ new.
Proof using.
  intros Hw Ha. pose proof (keeps_advance_quiet w0 r st fc reason rc w Hw) as Hq. rewrite Ha in Hq. split; [done|].
  revert Ha. unfold advance, saved, now, mbind, M_bind, write, persist, mret, M_ret, interfere. destruct (Now _). simpl.
  destruct (Others _). destruct (AdvanceTransaction _ _ _) as [[s1 r1]|]; [|done]. simpl. destruct (Checkpoint _ _) as [[|] ?]; [done|].
  intros [= <- <-]. exists [Wrote r1; Checkpointed r1 None]. simpl. rewrite <-app_assoc. split; [done|]. apply elem_of_cons. by left.
Qed.

(** An early return of the loop: quiet, and not a record to go on with. *)
Lemma returned_quiet w0 (m : M (TransactionRecord * bool)) w w' res :
  keeps (quiet w0) (quiet w0) m → quiet w0 w →
  (x ← m; mret (inr x)) w = (w', res) →
  quiet w0 w' ∧ ∀ r : TransactionRecord, res ≠ Ok (inl r).
Proof using.
  intros Hm Hw. pose proof (Hm w Hw) as H. unfold mbind, M_bind. by destruct (m w) as [w1 [x|e]]; intros [= <- <-].
Qed.

(** The loop leaves the log quiet; when it goes on to commit, every step is confirmed. *)
Definition confirmed_after (w0 : World) (base : TransactionRecord) (l : list Z)
    (w' : World) (res : Result ExecutorError (TransactionRecord + TransactionRecord * bool)) : Prop :=
  quiet w0 w' ∧ ∀ r log, res = Ok (inl r) → w_log w' = w_log w0 ++ log →
    seen base log r ∧ Forall (step_confirmed base log) l.

Lemma confirmed_cons w0 w w2 w' base l i log res :
  quiet w w2 → w_log w2 = w_log w0 ++ log → step_confirmed base log i →
  confirmed_after w0 base l w' res ∧ quiet w2 w' → confirmed_after w0 base (i :: l) w' res ∧ quiet w w'.
Proof using.
  intros Hq Hlog Hi [[H1 H2] H3]. split; [|by eapply quiet_trans]. split; [done|].
  intros r log' Hr Hl. destruct (H2 r log' Hr Hl) as [Ha Hb]. split; [done|]. constructor; [|done].
  destruct H3 as (n & Hn & _). rewrite Hn, Hlog, <-app_assoc in Hl. apply app_inv_head in Hl as <-.
  by apply step_confirmed_more.
Qed.

Lemma confirmed_never w0 w base l w' (res : Result ExecutorError (TransactionRecord + TransactionRecord * bool)) :
  quiet w0 w → quiet w w' → (∀ r, res ≠ Ok (inl r)) → confirmed_after w0 base l w' res ∧ quiet w w'.
Proof using. intros Hq Hq' Hr. split; [|done]. split; [by eapply quiet_trans|]. by intros r log ?%Hr. Qed.

Lemma validateReceiptForPlan_Ok rc g plan r : validateReceiptForPlan unicode_quote rc g plan = Ok r → rc = Some r.
Proof using.
  unfold validateReceiptForPlan, ValidateReceipt. destruct rc as [rc|]; [|done].
  intros (r1 & Hr & H)%bind_Ok. apply bind_Ok in H as (_ & _ & H). apply bind_Ok in H as (_ & _ & [= <-]).
  do 4 (apply bind_Ok in Hr as (_ & _ & Hr)). by injection Hr as ->.
Qed.

Lemma classifyStepReceipt_succeeded rc i st :
  classifyStepReceipt rc i = (st, false) → st ≠ EffectStatusFailed → st = EffectStatusSucceeded.
Proof using.
  unfold classifyStepReceipt. destruct (find _ _); [|done]. repeat case_decide; intros [= <-]; congruence.
Qed.

Lemma apply_steps_confirmed base w0 l cur w log w' res :
  quiet w0 w → w_log w = w_log w0 ++ log → seen base log cur →
  apply_steps allocationID unicode_quote cur l w = (w', res) → confirmed_after w0 base l w' res ∧ quiet w w'.
Proof using.
  revert cur w log. induction l as [|i l IH]; intros cur w log Hq Hlog Hseen; cbn [apply_steps].
  { intros [= <- <-]. split; [|apply quiet_refl]. split; [done|]. intros r log' [= <-] Hl. rewrite Hlog in Hl.
    apply app_inv_head in Hl as <-. by split. }
  case_bool_decide as Hi.
  { intros Hs. eapply confirmed_cons; [apply quiet_refl|done|by eapply seen_confirmed|by eapply IH]. }
  rewrite call_bind. destruct (ExecuteStep _ _ _ _) as [[rc err] e].
  set (w1 := mkWorld _ e _). assert (Hq1 : quiet w w1) by (by apply quiet_event; [apply quiet_refl|]).
  destruct err as [err|].
  { intros Hs. eapply returned_quiet in Hs as [H1 H2]; [|apply keeps_handleApplyFailure_quiet|exact Hq1]. by apply confirmed_never. }
  unfold checked. destruct (validateReceiptForPlan _ rc _ _) as [r1|m] eqn:Hv;
    [|intros [= <- <-]; by apply confirmed_never].
  apply validateReceiptForPlan_Ok in Hv as ->. rewrite ret_bind. destruct (classifyStepReceipt r1 i) as [st []] eqn:Hc.
  { intros Hs. eapply returned_quiet in Hs as [H1 H2]; [|apply keeps_handleApplyFailure_quiet|exact Hq1]. by apply confirmed_never. }
  unfold mbind, M_bind. case_bool_decide as Hst; (destruct (advance _ _ _ _ _ _ w1) as [w2 [r2|err]] eqn:Ha;
    [apply (advance_seen w) in Ha as (Hq2 & new & Hl2 & Hr2); [|done]
    |intros [= <- <-]; apply confirmed_never; [done|by eapply advance_quiet|done]]).
  { intros [= <- <-]. by apply confirmed_never. }
  assert (Hlog2 : w_log w2 = w_log w0 ++ log ++ [Called (ExecStep i) (Some r1, None)] ++ new).
  { rewrite Hl2. simpl. by rewrite Hlog, <-!app_assoc. }
  intros Hs. eapply confirmed_cons; [exact Hq2|exact Hlog2| |].
  - right. apply Exists_app. right. apply Exists_app. left. apply Exists_cons_hd. split; [done|].
    by rewrite Hc, (classifyStepReceipt_succeeded _ _ _ Hc Hst).
  - eapply IH; [by eapply quiet_trans|exact Hlog2| |exact Hs]. right. set_solver.
Qed.

(** [commit] calls [CommitPlan] first, and once. *)
Lemma commit_once r w :
  ∃ a new, w_log (commit allocationID unicode_quote r w).1 = w_log w ++ Called Commit a :: new ∧
    Forall (λ ev, is_commit ev = false) new.
Proof using.
  unfold commit. rewrite call_bind. destruct (CommitPlan _ _ _) as [[rc err] e]. set (w1 := mkWorld _ e _).
  exists (rc, err).
  assert (H : ∀ m : M (TransactionRecord * bool), keeps (quiet w1) (quiet w1) m →
    ∃ new, w_log (m w1).1 = w_log w ++ Called Commit (rc, err) :: new ∧ Forall (λ ev, is_commit ev = false) new).
  { intros m Hm. destruct (keeps_at w1 m w1 Hm (quiet_refl w1)) as (new & Hn & Hf). exists new. split; [|done].
    rewrite Hn. simpl. by rewrite <-app_assoc. }
  destruct err; apply H; [apply keeps_handleCommitFailure_quiet|]. apply keeps_bind; [apply keeps_checked_quiet|].
  intros r1. destruct (isAmbiguousPhase _); [apply keeps_handleCommitFailure_quiet|].
  apply keeps_bind; [apply keeps_finalize_quiet|]. intros ?. apply keeps_ret.
Qed.

(** The record the loop of [apply] starts from. *)
Lemma apply_entered record w w1 r1 :
  (if bool_decide (State record = TransactionStatePrepared)
   then advance allocationID record TransactionStateApplying FailureClassUnknown "" None else mret record) w = (w1, Ok r1) →
  quiet w w1 ∧ ∃ log, w_log w1 = w_log w ++ log ∧ seen record log r1.
Proof using.
  case_bool_decide.
  - intros Ha. apply (advance_seen w) in Ha as (Hq & new & Hl & Hr); [|apply quiet_refl]. split; [done|].
    exists new. split; [done|by right].
  - intros [= <- <-]. split; [apply quiet_refl|]. exists []. rewrite app_nil_r. split; [done|by left].
Qed.

Lemma quiet_no_commit new pre a post :
  Forall (λ ev, is_commit ev = false) new → new ≠ pre ++ Called Commit a :: post.
Proof using. intros H ->. apply Forall_app in H as [_ H]. by apply Forall_cons_1 in H as [H _]. Qed.

Lemma commit_position log1 new pre a a' post :
  Forall (λ ev, is_commit ev = false) log1 → Forall (λ ev, is_commit ev = false) new →
  log1 ++ Called Commit a :: new = pre ++ Called Commit a' :: post → pre = log1.
Proof using.
  intros H1 H2 E0. apply app_eq_inv in E0 as [(k & Hk & Hk')|(k & Hk & Hk')].
  - destruct k as [|x k]; [by rewrite Hk, app_nil_r|]. exfalso. simpl in Hk'. injection Hk' as <- ->.
    rewrite Hk in H1. apply Forall_app in H1 as [_ H1]. by apply Forall_cons_1 in H1 as [H1 _].
  - destruct k as [|x k]; [by rewrite Hk, app_nil_r|]. exfalso. simpl in Hk'. injection Hk' as <- Hn.
    by apply (quiet_no_commit _ _ _ _ H2) in Hn.
Qed.

(** C6: A plan is committed last.  Whatever the provider answers, [apply] calls
    [CommitPlan] only when every action of the plan has been confirmed applied: by the
    receipt of the record it resumed from, of a record written since, or by the
    provider's own answer to the step. *)
Theorem apply_commits_last record w :
  ∃ new, w_log (apply allocationID unicode_quote record w).1 = w_log w ++ new ∧
    ∀ pre a post, new = pre ++ Called Commit a :: post →
      ∃ r, seen record pre r ∧ Forall (step_confirmed record pre) (plan_indices (Plan r)).
Proof using.
  assert (Hquiet : ∀ w', quiet w w' → ∃ new, w_log w' = w_log w ++ new ∧
    ∀ pre a post, new = pre ++ Called Commit a :: post →
      ∃ r, seen record pre r ∧ Forall (step_confirmed record pre) (plan_indices (Plan r))).
  { intros w' (new & Hn & Hf). exists new. split; [done|]. by intros pre a post ?%(quiet_no_commit _ _ _ _ Hf). }
  unfold apply. unfold mbind at 1, M_bind.
  match goal with |- context [(if ?c then ?x else ?y) w] => destruct ((if c then x else y) w) as [w1 [r1|err]] eqn:H1 end.
  2: { apply Hquiet. revert H1. case_bool_decide; [|done]. by apply advance_quiet, quiet_refl. }
  apply apply_entered in H1 as (Hq1 & log1 & Hl1 & Hs1). unfold mbind, M_bind.
  destruct (apply_steps allocationID unicode_quote r1 _ w1) as [w2 res] eqn:H2.
  eapply (apply_steps_confirmed record w) in H2 as [[Hq2 Hc] (n & Hn12 & _)]; [|done|done|done].
  destruct res as [[r2|x]|err]; [|by apply Hquiet|by apply Hquiet]. destruct Hq2 as (log2 & Hl2 & Hf2).
  destruct (Hc r2 log2 eq_refl Hl2) as [Hs2 Hconf]. destruct (commit_once r2 w2) as (a & new & Hn & Hf).
  exists (log2 ++ Called Commit a :: new). rewrite Hn, Hl2, <-app_assoc. split; [done|].
  intros pre a' post E0. apply commit_position in E0 as ->; [|done|done]. exists r1. split; [|done].
  rewrite Hl1, <-app_assoc in Hn12. rewrite Hl2 in Hn12. apply app_inv_head in Hn12 as ->. destruct Hs1 as [->|Hs1]; [by left|].
  right. set_solver.
Qed.

End CommitLast.
