(* ===== verification/PlanExecutorLiveness.v ===== *)
(** * The plan executor: a cooperative environment gets a plan committed *)

From Stdlib Require Import ZArith Lia.
From S2P Require Import Prelude GoStrings GoTime GoFloat ClusterModel SchedulerState Mutation Preemption Reservation ReservationProofs Transaction TransactionProofs PlanExecutor PlanExecutorProofs.
From stdpp Require Import options.

Local Open Scope Z_scope.

Section Settling.
Context (allocationID : string → string).

Definition activate (reserved : gset string) (a : Allocation) : Allocation :=
  if bool_decide (allocation_id a ∉ reserved) then a else a <| al_state := ALLOCATION_STATE_ACTIVE |>.

(** When every reserved allocation is retained, none is released. *)
Lemma converge_retain (reserved retained : gset string) ds als :
  reserved ⊆ retained → converge reserved retained ∅ ds als = Ok (activate reserved <$> als, ds).
Proof.
  intros Hsub. induction als as [|a als IH]; cbn [converge]; [done|]. rewrite fmap_cons. unfold activate at 1.
  case_bool_decide as Ha; [by rewrite IH|]. rewrite bool_decide_true; [|set_solver]. by rewrite IH.
Qed.

(** A reservation just made can be finalised as a success: its allocations become active. *)
Lemma finalize_reserved l t plan l' now results :
  isMutationPurpose (effectivePlanPurpose plan).1 = false → 0 ≤ revision (snapshot l) < max_uint64 - 1 →
  ReservePlan allocationID l t (Some plan) = Ok l' →
  ∃ l'', finalizePlanResultsLocked allocationID l' now plan true results = Ok l'' ∧
    devices (snapshot l'') = devices (snapshot l') ∧
    ∀ b, b ∈ bindings plan → ∃ a, a ∈ allocations (snapshot l'') ∧
      allocation_id a = allocationID (bindingID_of b) ∧ al_state a = ALLOCATION_STATE_ACTIVE.
Proof.
  intros Hp Hrev Hok. apply ReservePlan_inv in Hok as (Hres & Hv & Hmax & st & Hst & ->); [|done].
  pose proof (reserve_bindings_appends _ _ _ _ _ _ Hst) as (news & units & E1 & _ & E3 & E4 & _).
  simpl in E1, E4. assert (Hids : rs_allocationIDs st = (λ b, allocationID (bindingID_of b)) <$> bindings plan) by congruence.
  erewrite finalize_admission; [|done|apply lookup_insert_eq]. cbn [res_plan]. rewrite plan_Equal_refl.
  unfold finalizeAdmissionPlan, retainedAllocations. cbn [finalized allocationIDs].
  rewrite (proj2 (Z.eqb_neq _ _)).
  2: { simpl. unfold wrap64. rewrite Z.mod_small; unfold max_uint64, two64 in *; lia. }
  rewrite converge_retain by (rewrite Hids; unfold retainAllBindings; set_solver).
  eexists. split; [reflexivity|]. split; [done|]. intros b Hb. cbn.
  assert (Hin : allocationID (bindingID_of b) ∈ allocation_id <$> news).
  { rewrite E3. by apply list_elem_of_fmap_2 with (f := λ b, allocationID (bindingID_of b)). }
  apply list_elem_of_fmap in Hin as (a & Ha & Hin). exists (activate (list_to_set (rs_allocationIDs st)) a).
  split; [apply list_elem_of_fmap_2; rewrite E1; set_solver|]. unfold activate. rewrite bool_decide_false; [by split|].
  rewrite Hids, <-Ha. intros Hn. apply Hn, elem_of_list_to_set. by apply list_elem_of_fmap_2 with (f := λ b, allocationID (bindingID_of b)).
Qed.

End Settling.

(** ** The environment

    It answers every call about [plan] with a receipt that is valid for it: a prepared
    plan, the step applied, an unambiguous phase when it commits.  Checkpoints succeed,
    the context stays live and nobody else uses the store. *)
Class Cooperative (unicode_quote : string → string) (E : Type) `{Environment E} (plan : PlacementPlan) := {
  prepares e : ∃ r e', PreparePlan e (plan_id plan) 1 plan = ((Some r, None), e') ∧
    validateReceiptForPlan unicode_quote (Some r) 1 plan = Ok r;
  executes e i : i ∈ plan_indices plan → ∃ r e', ExecuteStep e (plan_id plan) 1 i = ((Some r, None), e') ∧
    validateReceiptForPlan unicode_quote (Some r) 1 plan = Ok r ∧ classifyStepReceipt r i = (EffectStatusSucceeded, false);
  commits e : ∃ r e', CommitPlan e (plan_id plan) 1 = ((Some r, None), e') ∧
    validateReceiptForPlan unicode_quote (Some r) 1 plan = Ok r ∧ isAmbiguousPhase (pr_Phase r) = false;
  checkpoints e r : (Checkpoint e r).1 = None;
  context_live e : (ContextErr e).1 = None;
  alone e : (Others e).1 = [];
}.

Set Default Proof Using "Type*".

Section Liveness.
Context (allocationID unicode_quote : string → string) `{Env : Environment E} (plan : PlacementPlan)
        `{!Cooperative unicode_quote E plan}.

Local Abbreviation World := (World (E:=E)).

(** The record of [plan], held in state [st], free to move, over the ledger [l]. *)
Record held (l : Ledger) (st : TransactionState) (w : World) (r : TransactionRecord) : Prop := {
  held_ledger : ledger (w_store w) = l;
  held_record : transactions (w_store w) !! plan_id plan = Some r;
  held_id : TransactionID r = plan_id plan ∧ PlanID r = plan_id plan ∧ plan_id plan ≠ "";
  held_plan : Plan r = plan ∧ ProviderGeneration r = 1;
  held_state : State r = st;
  held_live : terminalLocked r = false ∧ ReservationHeld r = true;
  held_free : transactionOverlapLocked (w_store w) (plan_id plan) (AffectedAllocationIDs r) = false;
}.

Lemma interfere_alone w : ∃ e, interfere allocationID w = mkWorld (w_store w) e (w_log w).
Proof.
  unfold interfere. pose proof (alone (w_env w)) as H. destruct (Others _) as [ops e]. simpl in H. subst ops. by exists e.
Qed.

(** Only the records of others matter to the overlap lock. *)
Lemma overlap_insert s s' id r ids :
  transactions s' = <[id := r]> (transactions s) →
  transactionOverlapLocked s id ids = false → transactionOverlapLocked s' id ids = false.
Proof using.
  intros E0 H. apply not_true_iff_false. intros H'. apply not_true_iff_false in H. apply H. clear H.
  unfold transactionOverlapLocked in *. apply existsb_exists in H' as ((id' & r') & Hin & Hb).
  apply list_elem_of_In, elem_of_map_to_list in Hin. rewrite E0 in Hin.
  apply lookup_insert_Some in Hin as [[<- <-]|[Hne Hin]]; [by rewrite bool_decide_true in Hb|].
  apply existsb_exists. exists (id', r'). split; [by apply list_elem_of_In, elem_of_map_to_list|done].
Qed.

(** An operation that succeeds is checkpointed, and the run goes on. *)
Lemma saved_alone op w s r :
  run allocationID (w_store w) op = Ok (s, Some r) →
  ∃ e l, saved allocationID op w = (mkWorld s e l, Ok r).
Proof.
  intros Hrun. unfold saved, mbind, M_bind, write, persist, mret, M_ret.
  destruct (interfere_alone w) as [e ->]. cbn [w_store w_log w_env]. rewrite Hrun. simpl.
  pose proof (checkpoints e r) as H. destruct (Checkpoint e r) as [err e']. simpl in H. subst err. eauto.
Qed.

Lemma advance_held l from to w r fc reason rc :
  held l from w r → transactionStateAllowed from to = true → to ≠ TransactionStateUnknown →
  isTerminalTransactionState to = false →
  ∃ w' r', advance allocationID r to fc reason rc w = (w', Ok r') ∧ held l to w' r'.
Proof.
  intros H Ha Hu Ht. destruct (held_id _ _ _ _ H) as (Hid & Hpid & Hne). destruct (held_live _ _ _ _ H) as [Hlive Hheld].
  unfold advance. unfold mbind at 1, M_bind at 1, now. destruct (Now _) as [t e0].
  set (rq := mkAdvance _ _ _ _ _ _).
  assert (Hrun : ∃ s r', AdvanceTransaction (w_store w) t rq = Ok (s, r') ∧ ∀ e l', held l to (mkWorld s e l') r').
  { unfold AdvanceTransaction. simpl. rewrite Hid. rewrite !bool_decide_false by done. rewrite (held_record _ _ _ _ H).
    unfold validateTransactionGeneration. rewrite Z.eqb_refl. cbn [guard_err mbind Result_bind]. rewrite Hlive.
    rewrite (held_state _ _ _ _ H), Ha. cbn [negb]. rewrite Hheld, (held_free _ _ _ _ H). cbn [andb].
    destruct (advance_settled r rq && _) eqn:Hs.
    - exists (w_store w), r. split; [done|]. intros e l'. split; try apply H; simpl; try done.
      apply andb_true_iff in Hs as [Hs _]. unfold advance_settled in Hs. repeat apply andb_true_iff in Hs as [Hs _].
      by apply bool_decide_eq_true in Hs.
    - eexists _, _. split; [done|]. intros e l'.
      split; simpl; try apply H; try done; [by rewrite lookup_insert_eq| |].
      + unfold terminalLocked. simpl. by rewrite Ht.
      + eapply overlap_insert; [done|]. apply H. }
  destruct Hrun as (s & r' & Hrun & Hh). destruct (saved_alone (OpAdvance t rq) (mkWorld (w_store w) e0 (w_log w)) s r') as (e & l' & Hs).
  { simpl. by rewrite Hrun. }
  rewrite Hs. eauto.
Qed.

(** The reservation in the ledger can be finalised as a success. *)
Definition settleable (l : Ledger) : Prop :=
  ∀ now results, ∃ l', finalizePlanResultsLocked allocationID l now plan true results = Ok l' ∧
    ∀ b, b ∈ bindings plan → ∃ a, a ∈ allocations (snapshot l') ∧
      allocation_id a = allocationID (bindingID_of b) ∧ al_state a = ALLOCATION_STATE_ACTIVE.

Definition committed (w : World) (r : TransactionRecord) : Prop :=
  transactions (w_store w) !! plan_id plan = Some r ∧ State r = TransactionStateCommitted ∧
  terminalLocked r = true ∧ FinalizedSucceeded r = true ∧ ReservationHeld r = false ∧
  ∀ b, b ∈ bindings plan → ∃ a, a ∈ allocations (snapshot (ledger (w_store w))) ∧
    allocation_id a = allocationID (bindingID_of b) ∧ al_state a = ALLOCATION_STATE_ACTIVE.

Lemma finalize_held l from w r fc reason rc :
  held l from w r → settleable l →
  ∃ w' r', finalize allocationID r true TransactionStateCommitted fc reason rc w = (w', Ok r') ∧ committed w' r'.
Proof.
  intros H Hset. destruct (held_id _ _ _ _ H) as (Hid & Hpid & Hne). destruct (held_live _ _ _ _ H) as [Hlive Hheld].
  unfold finalize. unfold mbind at 1, M_bind at 1, now at 1. destruct (Now _) as [t e0].
  unfold mbind at 1, M_bind at 1, now at 1. destruct (Now _) as [u e1]. simpl.
  set (rq := mkFinalize _ _ _ _ _ _ _ _).
  assert (Hrun : ∃ s r', FinalizeTransaction allocationID (w_store w) t u rq = Ok (s, r') ∧ ∀ e l', committed (mkWorld s e l') r').
  { unfold FinalizeTransaction. simpl. rewrite Hid. rewrite bool_decide_false by done. rewrite (held_record _ _ _ _ H).
    unfold validateTransactionGeneration. rewrite Z.eqb_refl. cbn [guard_err mbind Result_bind].
    rewrite Hlive, Hheld, (held_free _ _ _ _ H). cbn [negb].
    rewrite (proj1 (held_plan _ _ _ _ H)), (held_ledger _ _ _ _ H).
    destruct (Hset t (transactionResults plan TransactionStateCommitted (mergeStateReceipt (tr_ProviderReceipt r) rc))) as (l' & Hf & Hb).
    unfold rq. simpl. rewrite (proj1 (held_plan _ _ _ _ H)), Hf. cbn [from_state mbind Result_bind].
    eexists _, _. split; [done|]. intros e lg. unfold committed. simpl. rewrite lookup_insert_eq. by split_and!. }
  destruct Hrun as (s & r' & Hrun & Hh).
  destruct (saved_alone (OpFinalize t u rq) (mkWorld (w_store w) e1 (w_log w)) s r') as (e & l' & Hs).
  { simpl. by rewrite Hrun. }
  rewrite Hs. eauto.
Qed.

Lemma checked_valid r receipt :
  Plan r = plan → ProviderGeneration r = 1 →
  validateReceiptForPlan unicode_quote (Some receipt) 1 plan = Ok receipt →
  checked unicode_quote r (Some receipt) = (mret receipt : M (E:=E) TransactionReceipt).
Proof using. intros Hp Hg Hv. unfold checked. by rewrite Hp, Hg, Hv. Qed.

(** The rest of a computation, from where its first part answers. *)
Lemma bind_answer {A B} (m : M A) (f : A → M B) (w w' : World) (a : A) : m w = (w', Ok a) → (x ← m; f x) w = f a w'.
Proof using. intros H. unfold mbind, M_bind. by rewrite H. Qed.

Lemma prepare_held l w r :
  held l TransactionStateReserved w r →
  ∃ w' r', prepare allocationID unicode_quote r w = (w', Ok (r', false)) ∧ held l TransactionStatePrepared w' r'.
Proof.
  intros H. destruct (held_id _ _ _ _ H) as (Hid & Hpid & Hne). destruct (held_plan _ _ _ _ H) as [Hp Hg].
  unfold prepare, call_prepare. rewrite call_bind, Hid, Hg, Hp.
  destruct (prepares (w_env w)) as (rc & e & -> & Hv). rewrite (checked_valid r rc) by done. rewrite ret_bind.
  assert (H1 : held l TransactionStateReserved (mkWorld (w_store w) e (w_log w ++ [Called Prepare (Some rc, None)])) r) by (destruct H; by split).
  destruct (advance_held _ _ TransactionStatePrepared _ _ FailureClassUnknown "" (Some rc) H1) as (w' & r' & Ha & H2); [done..|].
  exists w', r'. split; [|done]. unfold resumable. by rewrite (bind_answer _ _ _ _ _ Ha).
Qed.

Lemma apply_steps_held l inds w r :
  held l TransactionStateApplying w r → Forall (λ i, i ∈ plan_indices plan) inds →
  ∃ w' r', apply_steps allocationID unicode_quote r inds w = (w', Ok (inl r')) ∧ held l TransactionStateApplying w' r'.
Proof.
  revert w r. induction inds as [|i inds IH]; intros w r H His; cbn [apply_steps]; [by exists w, r|].
  apply Forall_cons_1 in His as [Hi His]. case_bool_decide; [by apply IH|].
  destruct (held_id _ _ _ _ H) as (Hid & Hpid & Hne). destruct (held_plan _ _ _ _ H) as [Hp Hg].
  rewrite call_bind, Hid, Hg. destruct (executes (w_env w) i Hi) as (rc & e & -> & Hv & Hc).
  rewrite (checked_valid r rc) by done. rewrite ret_bind, Hc. rewrite bool_decide_false by done.
  match goal with |- context [mbind _ _ ?w1] => assert (H1 : held l TransactionStateApplying w1 r) by (destruct H; by split) end.
  destruct (advance_held _ _ TransactionStateApplying _ _ FailureClassUnknown "" (Some rc) H1) as (w' & r' & Ha & H2); [done..|].
  rewrite (bind_answer _ _ _ _ _ Ha). by apply IH.
Qed.

Lemma apply_held l w r :
  held l TransactionStatePrepared w r → settleable l →
  ∃ w' r', apply allocationID unicode_quote r w = (w', Ok (r', true)) ∧ committed w' r'.
Proof.
  intros H Hset. unfold apply. rewrite (held_state _ _ _ _ H), bool_decide_true by done.
  destruct (advance_held _ _ TransactionStateApplying _ _ FailureClassUnknown "" None H) as (w1 & r1 & Ha & H1); [done..|].
  rewrite (bind_answer _ _ _ _ _ Ha), (proj1 (held_plan _ _ _ _ H1)).
  destruct (apply_steps_held l (plan_indices plan) w1 r1 H1) as (w2 & r2 & Hs & H2); [by apply Forall_forall|].
  rewrite (bind_answer _ _ _ _ _ Hs). unfold commit.
  destruct (held_id _ _ _ _ H2) as (Hid & Hpid & Hne). destruct (held_plan _ _ _ _ H2) as [Hp Hg].
  rewrite call_bind, Hid, Hg. destruct (commits (w_env w2)) as (rc & e & -> & Hv & Hph).
  rewrite (checked_valid r2 rc) by done. rewrite ret_bind, Hph.
  match goal with |- context [terminal _ ?w3] => assert (H3 : held l TransactionStateApplying w3 r2) by (destruct H2; by split) end.
  destruct (finalize_held _ _ _ _ FailureClassUnknown "" (Some rc) H3 Hset) as (w' & r' & Hf & Hc).
  exists w', r'. split; [|done]. unfold terminal. by rewrite (bind_answer _ _ _ _ _ Hf).
Qed.

Lemma resume_loop_S fuel r (w : World) :
  resume_loop allocationID unicode_quote (S fuel) r w =
  (x ← step allocationID unicode_quote r; if (x.2 : bool) then mret x.1 else resume_loop allocationID unicode_quote fuel x.1) w.
Proof using. done. Qed.

Lemma step_reserved r :
  State r = TransactionStateReserved → step allocationID unicode_quote r = prepare allocationID unicode_quote r.
Proof using. intros H. unfold step. by rewrite H. Qed.

Lemma step_prepared r :
  State r = TransactionStatePrepared → step allocationID unicode_quote r = apply allocationID unicode_quote r.
Proof using. intros H. unfold step. by rewrite H. Qed.

(** From [Reserved], [Resume] commits the plan. *)
Lemma Resume_held l w r :
  held l TransactionStateReserved w r → settleable l →
  ∃ w' r', Resume allocationID unicode_quote 4 (plan_id plan) w = (w', Ok r') ∧ committed w' r'.
Proof.
  intros H Hset. unfold Resume. unfold contextError at 1, mbind at 1, M_bind at 1.
  pose proof (context_live (w_env w)) as Hc. destruct (ContextErr (w_env w)) as [err e]. simpl in Hc. subst err.
  unfold get at 1. unfold mbind at 1, M_bind at 1. destruct (interfere_alone (mkWorld (w_store w) e (w_log w))) as [e' ->].
  cbn [w_store w_env w_log]. unfold GetTransaction. rewrite (held_record _ _ _ _ H). cbn [from_option].
  rewrite (proj1 (held_live _ _ _ _ H)), (held_state _ _ _ _ H), bool_decide_false by done. rewrite ret_bind.
  rewrite (held_state _ _ _ _ H), bool_decide_false by done.
  match goal with |- context [resume_loop _ _ _ _ ?w1] => assert (H1 : held l TransactionStateReserved w1 r) by (destruct H; by split) end.
  rewrite resume_loop_S, step_reserved by apply H. destruct (prepare_held _ _ _ H1) as (w2 & r2 & Hp & H2).
  rewrite (bind_answer _ _ _ _ _ Hp). cbn [fst snd]. rewrite resume_loop_S, step_prepared by apply H2.
  destruct (apply_held _ _ _ H2 Hset) as (w3 & r3 & Ha & H3). rewrite (bind_answer _ _ _ _ _ Ha). by exists w3, r3.
Qed.

Lemma now_bind {B} (f : Z → M (E:=E) B) w :
  (t ← now; f t) w = (let '(t, e) := Now (w_env w) in f t (mkWorld (w_store w) e (w_log w))).
Proof using. unfold mbind, M_bind, now. by destruct (Now (w_env w)). Qed.

(** What [Stage] leaves of a new plan. *)
Lemma begin_held s t l' c u :
  transactions s !! plan_id plan = None → plan_id plan ≠ "" →
  transactionOverlapLocked s (plan_id plan) (affectedAllocationIDsForPlan allocationID plan) = false →
  reservePlanLocked allocationID (ledger s) t plan = Ok l' →
  ∃ s' r, BeginTransaction allocationID s c t u (Some plan) 1 = Ok (s', r) ∧
    ∀ e log, held l' TransactionStateReserved (mkWorld s' e log) r.
Proof.
  intros Hn Hid Hfree Hres. unfold BeginTransaction. rewrite bool_decide_false by done.
  unfold validateTransactionRecord. simpl. rewrite !(bool_decide_false (plan_id plan = "")), (bool_decide_true (plan_id plan = plan_id plan)) by done.
  simpl.
  assert (Hids : forallb (λ id, negb (bool_decide (id = ""))) (affectedAllocationIDsForPlan allocationID plan) = true).
  { apply forallb_forall. intros id Hin%list_elem_of_In. unfold affectedAllocationIDsForPlan, normalizeAllocationIDs, sort_strings in Hin.
    rewrite elem_of_sort_by, elem_of_elements, elem_of_list_to_set, list_elem_of_filter in Hin.
    by rewrite bool_decide_false by apply Hin. }
  rewrite Hids. cbn [negb guard_err mbind Result_bind]. rewrite Hn, Hres. cbn [tolerate_reserved from_state mbind Result_bind].
  eexists _, _. split; [done|]. intros e log.
  split; simpl; try done; [by rewrite lookup_insert_eq|]. by eapply overlap_insert.
Qed.

(** C8: Progress.  With a cooperative environment, executing a new, valid admission plan
    whose reservation the ledger grants ends with the transaction [Committed] in the
    store, finalised as a success, and every binding's allocation active. *)
Theorem Execute_commits s e :
  validatePlan (Some plan) = Ok plan → isMutationPurpose (effectivePlanPurpose plan).1 = false →
  transactions s !! plan_id plan = None → 0 ≤ revision (snapshot (ledger s)) < max_uint64 - 1 →
  transactionOverlapLocked s (plan_id plan) (affectedAllocationIDsForPlan allocationID plan) = false →
  (∀ e', is_ok (ReservePlan allocationID (ledger s) (Now e').1 (Some plan)) = true) →
  ∃ w r, Execute allocationID unicode_quote 4 (Some plan) (mkWorld s e []) = (w, Ok r) ∧ committed w r.
Proof.
  intros Hv Hp Hn Hrev Hfree Hres.
  assert (Hid : plan_id plan ≠ "").
  { intros Hid. revert Hv. unfold validatePlan. by rewrite bool_decide_true. }
  assert (Hst : ∃ w1 r l', Stage allocationID (Some plan) (mkWorld s e []) = (w1, Ok r) ∧ held l' TransactionStateReserved w1 r ∧ settleable l').
  { unfold Stage. unfold contextError, mbind at 1, M_bind at 1.
    pose proof (context_live e) as Hc. cbn [w_env]. destruct (ContextErr e) as [err e1]. simpl in Hc. subst err. rewrite Hv.
    unfold get, mbind at 1, M_bind at 1. destruct (interfere_alone (mkWorld (w_store (mkWorld s e [])) e1 (w_log (mkWorld s e [])))) as [e2 ->].
    cbn [w_store w_env w_log]. unfold GetTransaction. rewrite Hn. cbn [from_option].
    rewrite now_bind. destruct (Now _) as [c e3]. rewrite now_bind. cbn [w_env]. specialize (Hres e3).
    destruct (Now e3) as [t e4]. rewrite now_bind. destruct (Now _) as [u e5]. cbn [w_store w_env w_log fst] in *.
    unfold write. match goal with |- context [interfere _ ?w0] => destruct (interfere_alone w0) as [e6 ->] end.
    cbn [w_store w_env w_log].
    destruct (ReservePlan allocationID (ledger s) t (Some plan)) as [l'|] eqn:Hr; [|done].
    destruct (begin_held s t l' c u) as (s' & r & Hb & Hh); [done|done|done| |].
    { unfold ReservePlan in Hr. by rewrite bool_decide_false in Hr. }
    assert (Hrun : run allocationID s (OpBegin c t u (Some plan) 1) = Ok (s', Some r)) by (unfold run; by rewrite Hb).
    rewrite Hrun. eexists _, r, l'. split; [done|]. split; [apply Hh|]. intros now results.
    destruct (finalize_reserved allocationID _ _ _ _ now results Hp Hrev Hr) as (l'' & Hf & _ & Hb'). eauto. }
  destruct Hst as (w1 & r & l' & Hst & Hh & Hset). unfold Execute. rewrite (bind_answer _ _ _ _ _ Hst).
  unfold persist, mbind, M_bind. pose proof (checkpoints (w_env w1) r) as Hc.
  destruct (Checkpoint (w_env w1) r) as [err e']. simpl in Hc. subst err. rewrite (proj1 (held_id _ _ _ _ Hh)).
  apply (Resume_held l' _ r); [|done]. destruct Hh; by split.
Qed.

End Liveness.

(** ** Concrete environments *)

Module PlanExecutorWitnesses.
Import ReservationWitnesses.

Definition quote (s : string) : string := s.

(** The provider's receipt for the one step of [plan], with a phase and a status. *)
Definition receipt (phase status : string) : TransactionReceipt :=
  mkTransactionReceipt "p" "p" 1 phase 8 [mkEffect 0 "a" "" status 1 8 "" "" false false] "" "" (Some 5) (Some 6).

(** An environment without surprises: a clock that stands at [5], nobody else. *)
Definition quietly (step commit : Answer) (reconciled : Answer) : Environment unit := {|
  PreparePlan e _ _ _ := ((Some (receipt TransactionPhasePrepared EffectNotApplied), None), e);
  ExecuteStep e _ _ _ := (step, e);
  CommitPlan e _ _ := (commit, e);
  AbortPlan e _ _ := ((Some (receipt TransactionPhaseAborted EffectCompensated), None), e);
  ReconcilePlanTransaction e _ _ := (reconciled, e);
  Checkpoint e _ := (None, e);
  ContextErr e := (None, e);
  Now e := (5, e);
  Others e := ([], e);
|}.

Definition applied : Answer := (Some (receipt TransactionPhaseExecuting EffectApplied), None).
Definition done_ : Answer := (Some (receipt TransactionPhaseCommitted EffectApplied), None).
Definition refused : Answer := (None, Some (mkGoError "unreachable" false)).

Definition willing : Environment unit := quietly applied done_ refused.
(** The step's outcome is unknown and the provider cannot be reached afterwards. *)
Definition lost : Environment unit :=
  quietly (Some (receipt TransactionPhaseExecuting EffectUnknown), None) done_ refused.

Definition new_store : Store := mkStore ledger ∅.

Lemma new_store_ok : store_ok aid new_store.
Proof. by apply map_Forall_empty. Qed.

Lemma willing_cooperative : @Cooperative quote unit willing plan.
Proof.
  split; intros; try done.
  - eexists _, _. split; [done|]. by vm_compute.
  - assert (i = 0) as -> by (unfold plan_indices in *; simpl in *; set_solver).
    eexists _, _. split; [done|]. split; by vm_compute.
  - eexists _, _. split; [done|]. split; by vm_compute.
Qed.

Lemma Execute_commits_witness :
  ∃ w r, Execute (Env := willing) aid quote 4 (Some plan) (mkWorld new_store () []) = (w, Ok r) ∧
    committed aid plan w r.
Proof.
  apply (Execute_commits aid quote plan (Cooperative0 := willing_cooperative)).
  - by vm_compute.
  - by vm_compute.
  - done.
  - unfold max_uint64. simpl. lia.
  - by vm_compute.
  - intros e'. by vm_compute.
Defined.

(** A store in which the transaction is reserved. *)
Definition reserved_store : Store := apply_op aid new_store (OpBegin 5 5 5 (Some plan) 1).

Lemma reserved_store_ok : store_ok aid reserved_store.
Proof. apply (apply_ops_ok aid new_store [OpBegin 5 5 5 (Some plan) 1]), new_store_ok. Qed.

Lemma Resume_terminates_witness :
  ∃ w' result, result ≠ Err OutOfFuel ∧
    ∀ fuel, (4 ≤ fuel)%nat → Resume (Env := lost) aid quote fuel "p" (mkWorld reserved_store () []) = (w', result).
Proof. apply (Resume_terminates aid quote (Env := lost)), reserved_store_ok. Defined.

Lemma Resume_refines_witness :
  ∃ w' r, Resume (Env := willing) aid quote 4 "p" (mkWorld reserved_store () []) = (w', Ok r) ∧
    State r = TransactionStateCommitted ∧ transactions (w_store w') !! "p" = Some r.
Proof.
  pose proof (Resume_refines aid quote (Env := willing) 4 "p" (mkWorld reserved_store () []) reserved_store_ok (le_n 4)) as H.
  assert (Hs : State <$> (match (Resume (Env := willing) aid quote 4 "p" (mkWorld reserved_store () [])).2 with
                          Ok r => Some r | Err _ => None end) = Some TransactionStateCommitted) by (by vm_compute).
  destruct (Resume _ _ 4 "p" _) as [w' [r|]]; [|done]. exists w', r. split; [done|]. destruct H as [_ H]. split; [by injection Hs|].
  apply (H r eq_refl []).
Defined.

(** An admission plan whose step has an unknown outcome, at a provider that cannot be
    asked again, ends [Degraded] with its reservation released: no allocation is
    retained and the device is whole again, although the step may have taken effect. *)
Theorem unknown_effect_releases :
  match Execute (Env := lost) aid quote 4 (Some plan) (mkWorld new_store () []) with
  | (w, Ok r) =>
      State r = TransactionStateDegraded ∧ RetainedAllocationIDs r = [] ∧
      allocations (snapshot (Transaction.ledger (w_store w))) = [] ∧
      (allocatable <$> devices (snapshot (Transaction.ledger (w_store w)))) = (allocatable <$> devices snap)
  | (_, Err _) => False
  end.
Proof. vm_compute. by split_and!. Qed.

End PlanExecutorWitnesses.
