(* ===== verification/DurableProofs.v ===== *)
(** * The store's durable state: properties *)

From Stdlib Require Import ZArith Lia.
From S2P Require Import Prelude GoStrings GoTime GoFloat ClusterModel SchedulerState Mutation Preemption Reservation ReservationProofs Transaction Intents Projection ProviderEvents DurableState.
From stdpp Require Import options.

Local Open Scope Z_scope.

(** ** Maps rebuilt from their values *)

Section InsertAll.
Context {A B K : Type} `{Countable K} (key : A → K) (f : A → B).

Definition insert_all (m : gmap K B) (l : list A) : gmap K B := foldl (λ m a, <[key a := f a]> m) m l.

(** When the elements agree with one map, the order of insertion does not matter. *)
Lemma insert_all_lookup (M m : gmap K B) l k x :
  (∀ a, a ∈ l → M !! key a = Some (f a)) → m ⊆ M →
  insert_all m l !! k = Some x ↔ m !! k = Some x ∨ ∃ a, a ∈ l ∧ key a = k ∧ f a = x.
Proof using.
  revert m. induction l as [|a l IH]; intros m HM Hsub; simpl; [set_solver|].
  assert (Ha : M !! key a = Some (f a)) by (apply HM; set_solver).
  rewrite IH; [|set_solver|by apply insert_subseteq_l]. rewrite lookup_insert_Some. split.
  - intros [[[<- <-]|[_ Hm]]|(b & Hb & <- & <-)]; [right; exists a|by left|right; exists b]; set_solver.
  - intros [Hm|(b & Hb & <- & <-)].
    + left. destruct (decide (key a = k)) as [<-|Hne]; [|by right]. left. split; [done|].
      eapply lookup_weaken in Hm; [|done]. congruence.
    + apply elem_of_cons in Hb as [->|Hb]; [by left; left|]. right. by exists b.
Qed.

End InsertAll.

Section ValuesBy.
Context {K A : Type} `{Countable K} (less : K → K → bool).

Lemma elem_of_values_by (m : gmap K A) a : a ∈ values_by less m ↔ ∃ k, m !! k = Some a.
Proof using.
  unfold values_by. rewrite list_elem_of_omap. split; [intros (k & _ & Hk); by exists k|]. intros [k Hk]. exists k.
  split; [|done]. rewrite elem_of_sort_by, elem_of_elements, elem_of_dom. by exists a.
Qed.

(** Inserting the values of a map, in whatever order, gives it back. *)
Lemma insert_members (key : A → K) (m : gmap K A) l :
  (∀ a, a ∈ l ↔ ∃ k, m !! k = Some a) → map_Forall (λ k a, key a = k) m → insert_all key (λ a, a) ∅ l = m.
Proof using.
  intros Hl Hm. apply map_eq. intros k. apply option_eq. intros a.
  rewrite (insert_all_lookup _ _ m); [| |apply map_empty_subseteq].
  - rewrite lookup_empty. split.
    + intros [?|(b & [k' Hb]%Hl & <- & <-)]; [done|]. by rewrite (Hm _ _ Hb).
    + intros Ha. right. exists a. split_and!; [apply Hl; by exists k|by apply Hm|done].
  - intros b [k' Hb]%Hl. by rewrite (Hm _ _ Hb).
Qed.

Lemma insert_values (key : A → K) (m : gmap K A) :
  map_Forall (λ k a, key a = k) m → insert_all key (λ a, a) ∅ (values_by less m) = m.
Proof using. apply insert_members. apply elem_of_values_by. Qed.

End ValuesBy.

(** ** Well-formed states *)

(** An instant a cursor can hold: none, or one that survives export. *)
Definition instant_ok (t : Z) : Prop := t = zero_time ∨ Timestamp_valid (timestamp_New t) = true.

Definition cursor_ok (c : providerSandboxCursor) : Prop :=
  instant_ok (cu_occurredAt c) ∧ rememberSandboxCursorIdentity c = c ∧
  ("" ∉ seenEventIDs c) ∧ ("" ∉ seenIdempotency c).

Section WellFormed.
Context (timestamp_error : Timestamp → string) (duration_error : Duration → string).

Record state_ok (s : State) : Prop := {
  ok_intents : map_Forall (λ k i, intent_key i = k ∧
    validateIntentStructure timestamp_error duration_error (Some i) = Ok i) (st_intents s);
  ok_keys : map_Forall (λ _ i, idempotencyKeys s !! in_idempotency_key i =
    Some (mkIdentity (intent_key i) (in_version i) i)) (st_intents s);
  ok_identities : map_Forall (λ k x, in_idempotency_key (id_intent x) = k ∧ id_key x = intent_key (id_intent x) ∧
    id_version x = in_version (id_intent x)) (idempotencyKeys s);
  ok_reservations : map_Forall (λ id r, plan_id (res_plan r) = id ∧ id ≠ "") (st_reservations s);
  ok_transactions : map_Forall (λ id r, TransactionID r = id ∧ validateTransactionRecord r = Ok tt) (st_transactions s);
  ok_sandboxes : map_Forall (λ id sb, sandbox_id sb = id ∧ id ≠ "" ∧
    ∃ c, sandboxCursors (providerProjection s) !! id = Some c ∧ sb_generation sb ≤ cu_generation c)
    (sandboxes (providerProjection s));
  ok_cursors : map_Forall (λ id c, id ≠ "" ∧ cursor_ok c) (sandboxCursors (providerProjection s));
}.

(** ** The round trip *)

Lemma timestampTime_New t : Timestamp_valid (timestamp_New t) = true → timestampTime (Some (timestamp_New t)) = t.
Proof. intros H. unfold timestampTime. rewrite H. apply AsTime_New. Qed.

Lemma stringSet_sorted (s : gset string) : "" ∉ s → stringSet (sort_strings (elements s)) = s.
Proof.
  intros Hs. apply set_eq. intros x. unfold stringSet, sort_strings.
  rewrite elem_of_list_to_set, list_elem_of_filter, elem_of_sort_by, elem_of_elements. split; [by intros [_ H]|].
  intros Hx. split; [|done]. by intros ->.
Qed.

Lemma restore_export_cursor c : cursor_ok c → restore_cursor (export_cursor c) = c.
Proof.
  intros (Ht & Hr & H1 & H2). unfold restore_cursor, export_cursor. cbn [ps_Generation ps_ProviderRevision ps_EventID ps_IdempotencyKey ps_OccurredAt SeenEventIDs SeenIdempotencyKeys].
  rewrite !stringSet_sorted by done.
  assert (E : timestampTime (if IsZero (cu_occurredAt c) then None else Some (timestamp_New (cu_occurredAt c))) = cu_occurredAt c).
  { unfold IsZero. destruct (Z.eqb_spec (cu_occurredAt c) zero_time) as [->|Hne]; [done|].
    destruct Ht as [|Ht]; [done|]. by apply timestampTime_New. }
  rewrite E. destruct c. exact Hr.
Qed.

Lemma restore_sandboxes_all m l :
  Forall (λ s, sandbox_id s ≠ "" ∧ m !! sandbox_id s = None) l → NoDup (sandbox_id <$> l) →
  restore_sandboxes m (Some <$> l) = Ok (insert_all sandbox_id (λ s, s) m l).
Proof.
  revert m. induction l as [|s l IH]; intros m Hl Hnd; simpl; [done|].
  apply Forall_cons_1 in Hl as [[Hne Hn] Hl]. apply NoDup_cons in Hnd as [Hs Hnd].
  rewrite (bool_decide_false (sandbox_id s = "")) by done.
  rewrite (bool_decide_false (is_Some _)) by (rewrite Hn; by intros []). simpl. apply IH; [|done].
  apply Forall_forall. intros s' Hs'. rewrite Forall_forall in Hl. destruct (Hl s' Hs') as [? Hn']. split; [done|].
  rewrite lookup_insert_ne; [done|]. intros E. apply Hs. rewrite E. by apply list_elem_of_fmap_2.
Qed.

Lemma values_by_NoDup {A} (key : A → string) (m : gmap string A) :
  map_Forall (λ k a, key a = k) m → NoDup (key <$> values_by str_ltb m).
Proof.
  intros Hm. unfold values_by. assert (Hnd : NoDup (sort_by str_ltb (elements (dom m)))).
  { rewrite sort_by_perm. apply NoDup_elements. }
  induction Hnd as [|k ks Hk _ IH]; simpl; [constructor|]. destruct (m !! k) as [a|] eqn:Ha; [|done]. simpl.
  constructor; [|done]. rewrite (Hm _ _ Ha). intros (b & Hb & Hin)%list_elem_of_fmap.
  apply list_elem_of_omap in Hin as (k' & Hk' & Hl). rewrite (Hm _ _ Hl) in Hb. by subst k'.
Qed.

Lemma restore_intents_all s l :
  Forall (λ i, validateIntentStructure timestamp_error duration_error (Some i) = Ok i) l →
  restore_intents timestamp_error duration_error s (Some <$> l) =
    (s <| st_intents := insert_all intent_key (λ i, i) (st_intents s) l |>
       <| idempotencyKeys := insert_all in_idempotency_key (λ i, mkIdentity (intent_key i) (in_version i) i) (idempotencyKeys s) l |>, None).
Proof.
  revert s. induction l as [|i l IH]; intros s Hl; [by destruct s|]. apply Forall_cons_1 in Hl as [Hi Hl].
  rewrite fmap_cons. cbn [restore_intents]. rewrite Hi. rewrite IH by done. done.
Qed.

Lemma restore_reservations_all s l :
  Forall (λ r, plan_id (res_plan r) ≠ "") l →
  restore_reservations s (reservation_record <$> l) =
    (s <| st_reservations := insert_all (λ r, plan_id (res_plan r)) (λ r, r) (st_reservations s) l |>, None).
Proof.
  revert s. induction l as [|r l IH]; intros s Hl; [by destruct s|]. apply Forall_cons_1 in Hl as [Hr Hl].
  rewrite fmap_cons. cbn [restore_reservations]. cbn [reservation_record rr_Plan]. rewrite bool_decide_false by done.
  rewrite IH by done. by destruct r.
Qed.

Lemma restore_transactions_all s l :
  Forall (λ r, validateTransactionRecord r = Ok tt) l →
  restore_transactions s l = (s <| st_transactions := insert_all TransactionID (λ r, r) (st_transactions s) l |>, None).
Proof.
  revert s. induction l as [|r l IH]; intros s Hl; [by destruct s|]. apply Forall_cons_1 in Hl as [Hr Hl].
  cbn [restore_transactions]. rewrite Hr, IH by done. done.
Qed.

Lemma values_by_Forall {K A} `{Countable K} (less : K → K → bool) (P : A → Prop) (m : gmap K A) :
  map_Forall (λ _ a, P a) m → Forall P (values_by less m).
Proof. intros Hm. apply Forall_forall. intros a [k Hk]%elem_of_values_by. by apply (Hm k a). Qed.

(** The projection is restored as it was. *)
Lemma restore_projection s :
  state_ok s → validateAndRestoreProviderProjection (ExportDurableState s) = Ok (providerProjection s).
Proof.
  intros Hs. unfold validateAndRestoreProviderProjection, ExportDurableState.
  cbn [ProjectedSandboxes SandboxCursors ResourceCursors]. set (p := providerProjection s).
  assert (Hsb : map_Forall (λ k a, sandbox_id a = k) (sandboxes p)) by (intros k a Ha; by apply (ok_sandboxes s Hs k a)).
  rewrite restore_sandboxes_all; [|apply values_by_Forall; intros k a Ha; rewrite lookup_empty; by split;
    [destruct (ok_sandboxes s Hs k a Ha) as (-> & ? & _)|]|by apply values_by_NoDup].
  rewrite insert_values by done. cbn [mbind Result_bind].
  assert (Hc : restore_cursor <$> (export_cursor <$> sandboxCursors p) = sandboxCursors p).
  { rewrite <-map_fmap_compose. etrans; [|apply map_fmap_id]. apply map_fmap_ext. intros k c Hc.
    apply restore_export_cursor. by apply (ok_cursors s Hs k c). }
  rewrite bool_decide_true.
  2: { apply eq_None_not_Some. rewrite lookup_fmap. intros [c Hl]. apply fmap_Some in Hl as (c' & Hl & _).
       by destruct (ok_cursors s Hs _ _ Hl). }
  cbn [guard_err mbind Result_bind].
  assert (Ht : forallb (λ kv : string * ProviderSandboxCursor, from_option Timestamp_valid true (ps_OccurredAt kv.2))
                 (map_to_list (export_cursor <$> sandboxCursors p)) = true).
  { apply forallb_forall. intros [k c] Hin%list_elem_of_In%elem_of_map_to_list. rewrite lookup_fmap in Hin.
    apply fmap_Some in Hin as (c' & Hl & ->). destruct (ok_cursors s Hs _ _ Hl) as (_ & Hi & _). simpl. unfold IsZero.
    destruct (Z.eqb_spec (cu_occurredAt c') zero_time); [done|]. simpl. by destruct Hi. }
  rewrite Ht, Hc. cbn [guard_err mbind Result_bind].
  assert (Hg : forallb (λ kv : string * Sandbox, match sandboxCursors p !! kv.1 with
                 | Some c => sb_generation kv.2 <=? cu_generation c | None => true end) (map_to_list (sandboxes p)) = true).
  { apply forallb_forall. intros [k sb] Hin%list_elem_of_In%elem_of_map_to_list. simpl.
    destruct (ok_sandboxes s Hs _ _ Hin) as (_ & _ & c & Hk & Hle). unfold p. rewrite Hk. lia. }
  rewrite Hg. cbn [guard_err mbind Result_bind]. f_equal.
  assert (Hu : sandboxCursors p ∪ (implied_cursor <$> sandboxes p) = sandboxCursors p).
  { apply map_eq. intros k. apply option_eq. intros c. rewrite lookup_union_Some_raw. split; [|by left].
    intros [|[Hn Hl]]; [done|]. rewrite lookup_fmap in Hl. apply fmap_Some in Hl as (sb & Hl & _).
    destruct (ok_sandboxes s Hs _ _ Hl) as (_ & _ & c' & Hc' & _). unfold p in Hn. congruence. }
  rewrite Hu. by destruct p.
Qed.

(** The exported state with its intents in another order. *)
Definition with_intents (l : list SchedulingIntent) (d : DurableState) : DurableState :=
  mkDurable (du_Snapshot d) (Some <$> l) (du_Reservations d) (du_Transactions d) (ProjectedSandboxes d) (ResourceCursors d)
    (SandboxCursors d).

Lemma restore_exported s target l :
  state_ok s → (∀ i, i ∈ l ↔ ∃ k, st_intents s !! k = Some i) →
  ∃ keys, Restore timestamp_error duration_error target (with_intents l (ExportDurableState s)) = (s <| idempotencyKeys := keys |>, None) ∧
    ∀ k x, keys !! k = Some x ↔
      idempotencyKeys s !! k = Some x ∧ st_intents s !! id_key x = Some (id_intent x).
Proof.
  intros Hs Hl. eexists. unfold Restore. cbn [du_Snapshot with_intents].
  change (validateAndRestoreProviderProjection (with_intents l (ExportDurableState s)))
    with (validateAndRestoreProviderProjection (ExportDurableState s)).
  rewrite restore_projection by done. cbn [du_Snapshot with_intents ExportDurableState du_Intents du_Reservations du_Transactions].
  rewrite restore_intents_all by (apply Forall_forall; intros i [k Hi]%Hl; by apply (ok_intents s Hs k i)).
  rewrite restore_reservations_all.
  2: { apply values_by_Forall. intros k r Hr. by destruct (ok_reservations s Hs k r Hr) as [-> ?]. }
  rewrite restore_transactions_all by (apply values_by_Forall; intros k r Hr; by apply (ok_transactions s Hs k r)).
  cbn. rewrite !insert_values, (insert_members _ _ _ Hl).
  - split; [by destruct s|]. intros k x. cbn. rewrite (insert_all_lookup _ _ (idempotencyKeys s)); [|intros i [k' Hi]%Hl; by apply (ok_keys s Hs k')|apply map_empty_subseteq].
    rewrite lookup_empty. split.
    + intros [?|(i & [k' Hi]%Hl & <- & <-)]; [done|]. split; [by apply (ok_keys s Hs k')|]. simpl.
      by rewrite (proj1 (ok_intents s Hs k' i Hi)).
    + intros [Hk Hi]. right. destruct (ok_identities s Hs k x Hk) as (Hk1 & Hk2 & Hk3). exists (id_intent x).
      split_and!; [apply Hl; by exists (id_key x)|done|]. rewrite <-Hk2, <-Hk3. by destruct x.
  - intros k i Hi. by apply (ok_intents s Hs k i).
  - intros k r Hr. by apply (ok_transactions s Hs k r).
  - intros k r Hr. by apply (ok_reservations s Hs k r).
Qed.

(** C34: Export and restore.  Whatever store it is restored into, the durable view of a
    well-formed state brings back its snapshot, intents, reservations, transactions and
    provider projection, and the idempotency keys of the intents still stored, but of no
    other publication. *)
Theorem export_restore_roundtrip s target :
  state_ok s →
  ∃ keys, Restore timestamp_error duration_error target (ExportDurableState s) = (s <| idempotencyKeys := keys |>, None) ∧
    ∀ k x, keys !! k = Some x ↔
      idempotencyKeys s !! k = Some x ∧ st_intents s !! id_key x = Some (id_intent x).
Proof.
  intros Hs. destruct (restore_exported s target (values_by key_less (st_intents s)) Hs) as (keys & Hr & Hk); [apply elem_of_values_by|].
  by exists keys.
Qed.

End WellFormed.
