(* ===== verification/ProjectionProofs.v ===== *)
(** * The provider projection: properties *)

From Stdlib Require Import ZArith Lia.
From S2P Require Import Prelude GoStrings GoTime GoFloat ClusterModel SchedulerState Mutation Preemption Reservation ReservationProofs Transaction Intents Projection ProviderEvents DurableState DurableProofs.
From stdpp Require Import options.

Local Open Scope Z_scope.

(** ** Cursors *)

Lemma remember_idemp id s : remember id (remember id s) = remember id s.
Proof. unfold remember. case_decide; [done|]. set_solver. Qed.

Lemma rememberSandboxCursorIdentity_idemp c :
  rememberSandboxCursorIdentity (rememberSandboxCursorIdentity c) = rememberSandboxCursorIdentity c.
Proof. destruct c. unfold rememberSandboxCursorIdentity. simpl. by rewrite !remember_idemp. Qed.

Lemma remember_nonempty id s : "" ∉ s → "" ∉ remember id s.
Proof. unfold remember. case_decide; set_solver. Qed.

Lemma timestamp_New_AsTime t : Timestamp_valid t = true → timestamp_New (AsTime (Some t)) = t.
Proof.
  intros H. unfold Timestamp_valid in H. repeat apply andb_true_iff in H as [H ?]. unfold timestamp_New, AsTime, Second.
  destruct t as [sec ns]; simpl in *.
  f_equal; symmetry; [apply (Z.div_unique _ _ _ ns)|apply (Z.mod_unique _ _ sec)]; lia.
Qed.

Lemma timestampTime_ok t : instant_ok (timestampTime t).
Proof.
  unfold timestampTime. destruct t as [t|]; [|by left]. destruct (Timestamp_valid t) eqn:Ht; [|by left].
  right. by rewrite timestamp_New_AsTime.
Qed.

Lemma remembered_ok c :
  instant_ok (cu_occurredAt c) → "" ∉ seenEventIDs c → "" ∉ seenIdempotency c → cursor_ok (rememberSandboxCursorIdentity c).
Proof.
  intros Ht H1 H2. split_and!; [done|apply rememberSandboxCursorIdentity_idemp| |]; by apply remember_nonempty.
Qed.

Lemma next_cursor_ok current e : (∀ c, current = Some c → cursor_ok c) → cursor_ok (next_cursor current e).
Proof.
  intros Hc. unfold next_cursor. apply remembered_ok; simpl; [apply timestampTime_ok| |];
    (destruct current as [c|]; [|set_solver]; destruct (Hc c eq_refl) as (_ & _ & H1 & H2); by destruct (_ =? _); simpl; try set_solver).
Qed.

Lemma next_cursor_generation current e : cu_generation (next_cursor current e) = sv_generation e.
Proof. done. Qed.

(** ** Replaying an event *)

(** A cursor an event left refuses the event. *)
Lemma next_cursor_refuses current e sandbox :
  let c := next_cursor current e in
  duplicateSandboxEvent c e || ((sv_generation e =? cu_generation c) && negb (acceptSameGenerationSandboxEvent c sandbox e)) = true.
Proof.
  cbn zeta. unfold duplicateSandboxEvent.
  assert (Hid : cu_eventID (next_cursor current e) = sv_event_id e) by done.
  assert (Hkey : cu_idempotencyKey (next_cursor current e) = sv_idempotency_key e) by done.
  rewrite Hid, Hkey. rewrite (bool_decide_true (sv_event_id e = sv_event_id e)), (bool_decide_true (sv_idempotency_key e = sv_idempotency_key e)) by done.
  rewrite !orb_true_l.
  case_bool_decide; [|done]. case_bool_decide; [|done]. cbn [negb orb]. rewrite next_cursor_generation, Z.eqb_refl. cbn [andb].
  unfold acceptSameGenerationSandboxEvent, advances.
  assert (Ht : cu_occurredAt (next_cursor current e) = timestampTime (occurred_at e)) by done.
  rewrite Ht, Z.ltb_irrefl, orb_true_r.
  destruct (Z.ltb_spec 0 (provider_revision e)) as [Hr|Hr]; cbn [andb].
  - assert (Hrev : cu_providerRevision (next_cursor current e) = provider_revision e).
    { unfold next_cursor. simpl. rewrite (proj2 (Z.eqb_neq _ _)); [done|lia]. }
    rewrite Hrev, Z.ltb_irrefl, (proj2 (Z.eqb_neq _ _)) by lia. by rewrite ?orb_true_r.
  - by rewrite ?orb_true_r.
Qed.

Lemma accept_again p p' q sandbox sandbox' e :
  acceptSandboxCursorLocked p sandbox e = (p', true) → sandboxCursors q = sandboxCursors p' →
  acceptSandboxCursorLocked q sandbox' e = (q, false).
Proof.
  unfold acceptSandboxCursorLocked. destruct (match sandboxCursors p !! _ with Some _ => _ | None => _ end); [done|].
  intros [= <-] ->. cbn. rewrite lookup_insert_eq.
  pose proof (next_cursor_refuses (sandboxCursors p !! sv_sandbox_id e) e sandbox') as H. cbn zeta in H.
  rewrite next_cursor_generation, Z.ltb_irrefl. cbn [orb]. rewrite next_cursor_generation in H. by rewrite H.
Qed.

Lemma accept_refused p sandbox e p' : acceptSandboxCursorLocked p sandbox e = (p', false) → p' = p.
Proof. unfold acceptSandboxCursorLocked. destruct (match sandboxCursors p !! _ with Some _ => _ | None => _ end); congruence. Qed.

(** Retiring a run leaves the projection alone. *)
Lemma retire_projection s observed e s' w :
  retireRunFromTerminalEventLocked s observed e = Ok (Some (s', w)) → providerProjection s' = providerProjection s.
Proof.
  unfold retireRunFromTerminalEventLocked. repeat (destruct (_ : bool); [done|]).
  destruct (release_where _ _ _); [|done]. by intros [= <- <-].
Qed.

(** The projection an applied event leaves. *)
Lemma ApplyProviderSandboxEvent_projection s t1 t2 e s' r :
  ApplyProviderSandboxEvent s t1 t2 (Some e) = (s', r) →
  let p := providerProjection s in
  let current := sandboxes p !! sv_sandbox_id e in
  (s' = s ∧ (is_ok r = true → r = Ok (current, false) ∧ sv_sandbox_id e ≠ "" ∧ acceptSandboxCursorLocked p current e = (p, false))) ∨
  ∃ p', acceptSandboxCursorLocked p current e = (p', true) ∧ sv_sandbox_id e ≠ "" ∧
    (providerProjection s' = p' ∨
     providerProjection s' = p' <| sandboxes := <[sv_sandbox_id e := project_event current e t1]> (sandboxes p') |>).
Proof.
  unfold ApplyProviderSandboxEvent. cbv zeta. case_bool_decide as Hid; [intros [= <- <-]; by left|].
  destruct (negb _); [intros [= <- <-]; by left|].
  destruct (acceptSandboxCursorLocked _ _ e) as [p [|]] eqn:Ha.
  - intros H. right. exists p. split; [done|]. split; [done|]. revert H.
    destruct (retireRunFromTerminalEventLocked _ _ _) as [[[s1 w]|]|err] eqn:Hr.
    + rewrite andb_false_r. intros [= <- _]. by right.
    + destruct (_ && true); intros [= <- _]; [by left|by right].
    + intros [= <- _]. by left.
  - intros [= <- <-]. left. split; [done|]. intros _. split; [done|]. split; [done|].
    by rewrite (accept_refused _ _ _ _ Ha).
Qed.

Lemma ApplyProviderSandboxEvent_refused s t1 t2 e :
  sv_sandbox_id e ≠ "" → from_option Timestamp_valid true (occurred_at e) = true →
  acceptSandboxCursorLocked (providerProjection s) (sandboxes (providerProjection s) !! sv_sandbox_id e) e =
    (providerProjection s, false) →
  ApplyProviderSandboxEvent s t1 t2 (Some e) = (s, Ok (sandboxes (providerProjection s) !! sv_sandbox_id e, false)).
Proof.
  intros Hid Ht Ha. unfold ApplyProviderSandboxEvent. rewrite bool_decide_false by done. rewrite Ht. cbv zeta. by rewrite Ha.
Qed.

Lemma ApplyProviderSandboxEvent_valid s t1 t2 e s' r :
  ApplyProviderSandboxEvent s t1 t2 (Some e) = (s', Ok r) → from_option Timestamp_valid true (occurred_at e) = true.
Proof. unfold ApplyProviderSandboxEvent. case_bool_decide; [done|]. by destruct (from_option _ _ _). Qed.

(** Replaying a sandbox event changes nothing.  Whether the event was accepted or not,
    applying it again, at any time, answers that nothing changed and leaves the state as
    it was. *)
Theorem sandbox_event_replay s t1 t2 t1' t2' e s1 r1 :
  ApplyProviderSandboxEvent s t1 t2 (Some e) = (s1, Ok r1) →
  ApplyProviderSandboxEvent s1 t1' t2' (Some e) =
    (s1, Ok (sandboxes (providerProjection s1) !! sv_sandbox_id e, false)).
Proof.
  intros H. pose proof (ApplyProviderSandboxEvent_valid _ _ _ _ _ _ H) as Hv.
  destruct (ApplyProviderSandboxEvent_projection _ _ _ _ _ _ H) as [[-> Hr]|(p' & Ha & Hid & Hp)].
  - destruct (Hr eq_refl) as (_ & Hid & Ha). by apply ApplyProviderSandboxEvent_refused.
  - apply ApplyProviderSandboxEvent_refused; [done|done|]. eapply accept_again; [done|]. by destruct Hp as [->| ->].
Qed.

(** ** Fences *)

(** What one event does to the cursor and the projection of a sandbox. *)
Definition cursor_generation (s : State) (id : string) : Z :=
  from_option cu_generation 0 (sandboxCursors (providerProjection s) !! id).

Lemma accept_generation p sandbox e p' :
  acceptSandboxCursorLocked p sandbox e = (p', true) →
  p' = p <| sandboxCursors := <[sv_sandbox_id e := next_cursor (sandboxCursors p !! sv_sandbox_id e) e]> (sandboxCursors p) |> ∧
  ∀ c, sandboxCursors p !! sv_sandbox_id e = Some c →
    cu_generation c ≤ sv_generation e ∧ duplicateSandboxEvent c e = false ∧
    (sv_generation e = cu_generation c → acceptSameGenerationSandboxEvent c sandbox e = true).
Proof.
  unfold acceptSandboxCursorLocked. destruct (sandboxCursors p !! _) as [c|].
  - destruct (_ || _ || _) eqn:H; [done|]. intros [= <-]. split; [done|]. intros ? [= <-].
    apply orb_false_iff in H as [H H3]. apply orb_false_iff in H as [H1 H2]. split; [lia|]. split; [done|].
    intros Heq. rewrite Heq, Z.eqb_refl in H3. by destruct (acceptSameGenerationSandboxEvent _ _ _).
  - intros [= <-]. by split.
Qed.

(** *** Every operation keeps the state well formed *)

Section Preserved.
Context (timestamp_error : Timestamp → string) (duration_error : Duration → string).

Local Abbreviation state_ok := (state_ok timestamp_error duration_error).

(** The parts of [state_ok] that concern the projection. *)
Definition projection_ok (p : providerProjectionState) : Prop :=
  map_Forall (λ id sb, sandbox_id sb = id ∧ id ≠ "" ∧
    ∃ c, sandboxCursors p !! id = Some c ∧ sb_generation sb ≤ cu_generation c) (sandboxes p) ∧
  map_Forall (λ id c, id ≠ "" ∧ cursor_ok c) (sandboxCursors p).

Lemma state_ok_projection s : state_ok s → projection_ok (providerProjection s).
Proof. intros Hs. split; apply Hs. Qed.

(** Only the projection, the snapshot and which intents are stored may change. *)
Lemma state_ok_update s s' :
  state_ok s → projection_ok (providerProjection s') → st_intents s' ⊆ st_intents s →
  idempotencyKeys s' = idempotencyKeys s → st_reservations s' = st_reservations s →
  st_transactions s' = st_transactions s → state_ok s'.
Proof.
  intros Hs [Hp1 Hp2] Hi Hk Hr Ht. split; [| | | | |done|done].
  - intros k i Hl. apply (ok_intents _ _ s Hs k i). by eapply lookup_weaken.
  - rewrite Hk. intros k i Hl. apply (ok_keys _ _ s Hs k i). by eapply lookup_weaken.
  - rewrite Hk. apply Hs.
  - rewrite Hr. apply Hs.
  - rewrite Ht. apply Hs.
Qed.

Lemma projection_ok_cursor p id c :
  projection_ok p → id ≠ "" → cursor_ok c →
  (∀ c0, sandboxCursors p !! id = Some c0 → cu_generation c0 ≤ cu_generation c) →
  projection_ok (p <| sandboxCursors := <[id := c]> (sandboxCursors p) |>).
Proof.
  intros [H1 H2] Hid Hc Hle. split; simpl.
  - intros k sb Hk. destruct (H1 k sb Hk) as (Ha & Hb & c0 & Hc0 & Hg). split_and!; [done|done|].
    destruct (decide (id = k)) as [<-|Hne]; [exists c|exists c0].
    + rewrite lookup_insert_eq. split; [done|]. specialize (Hle _ Hc0). lia.
    + by rewrite lookup_insert_ne.
  - by apply map_Forall_insert_2.
Qed.

Lemma projection_ok_sandbox p id sb c :
  projection_ok p → sandbox_id sb = id → sandboxCursors p !! id = Some c → sb_generation sb ≤ cu_generation c →
  projection_ok (p <| sandboxes := <[id := sb]> (sandboxes p) |>).
Proof.
  intros [H1 H2] Hid Hc Hle. split; simpl; [|done]. apply map_Forall_insert_2; [|done].
  split_and!; [done|by apply (H2 id c)|]. by exists c.
Qed.

Lemma project_event_id current e t :
  (∀ c, current = Some c → sandbox_id c = sv_sandbox_id e) →
  sandbox_id (project_event current e t) = sv_sandbox_id e ∧ sb_generation (project_event current e t) = sv_generation e.
Proof. intros Hc. destruct current as [c|]; simpl; [|done]. split; [by apply Hc|done]. Qed.

Lemma accepted_ok p sandbox e p' :
  projection_ok p → sv_sandbox_id e ≠ "" → acceptSandboxCursorLocked p sandbox e = (p', true) → projection_ok p'.
Proof.
  intros Hp Hid [-> Hle]%accept_generation. apply projection_ok_cursor; [done|done| |].
  - apply next_cursor_ok. intros c Hc. by apply (proj2 Hp _ c Hc).
  - intros c0 Hc0. by destruct (Hle c0 Hc0).
Qed.

Lemma accepted_cursor p sandbox e p' :
  acceptSandboxCursorLocked p sandbox e = (p', true) →
  sandboxCursors p' !! sv_sandbox_id e = Some (next_cursor (sandboxCursors p !! sv_sandbox_id e) e) ∧ sandboxes p' = sandboxes p.
Proof. intros [-> _]%accept_generation. simpl. by rewrite lookup_insert_eq. Qed.

Lemma projected_ok p e p' t :
  projection_ok p → sv_sandbox_id e ≠ "" → acceptSandboxCursorLocked p (sandboxes p !! sv_sandbox_id e) e = (p', true) →
  projection_ok (p' <| sandboxes := <[sv_sandbox_id e := project_event (sandboxes p !! sv_sandbox_id e) e t]> (sandboxes p') |>).
Proof.
  intros Hp Hid Ha. destruct (accepted_cursor _ _ _ _ Ha) as [Hc _].
  destruct (project_event_id (sandboxes p !! sv_sandbox_id e) e t) as [H1 H2].
  { intros c Hs. by apply (proj1 Hp _ c Hs). }
  eapply projection_ok_sandbox; [by eapply accepted_ok|done|done|]. rewrite H2. simpl. lia.
Qed.

(** What an applied event leaves of the rest of the state. *)
Lemma ApplyProviderSandboxEvent_rest s t1 t2 e s' r :
  ApplyProviderSandboxEvent s t1 t2 e = (s', r) →
  st_intents s' ⊆ st_intents s ∧ idempotencyKeys s' = idempotencyKeys s ∧ st_reservations s' = st_reservations s ∧
  st_transactions s' = st_transactions s.
Proof.
  unfold ApplyProviderSandboxEvent. destruct e as [e|]; [|by intros [= <- _]].
  case_bool_decide; [by intros [= <- _]|]. destruct (negb _); [by intros [= <- _]|]. cbv zeta.
  destruct (acceptSandboxCursorLocked _ _ e) as [p [|]]; [|by intros [= <- _]].
  destruct (retireRunFromTerminalEventLocked _ _ _) as [[[s1 w]|]|err] eqn:Hr; [| |by intros [= <- _]].
  - rewrite andb_false_r. intros [= <- _]. revert Hr. unfold retireRunFromTerminalEventLocked.
    repeat (destruct (_ : bool); [done|]). destruct (release_where _ _ _) as [pr|]; [|done].
    intros [= <- <-]. simpl. split_and!; [apply map_filter_subseteq|done..].
  - destruct (_ && true); by intros [= <- _].
Qed.

Lemma ApplyProviderSandboxEvent_ok s t1 t2 e s' r :
  state_ok s → ApplyProviderSandboxEvent s t1 t2 e = (s', r) → state_ok s'.
Proof.
  intros Hs H. destruct (ApplyProviderSandboxEvent_rest _ _ _ _ _ _ H) as (H1 & H2 & H3 & H4).
  destruct e as [e|]; [|by injection H as <- _].
  apply ApplyProviderSandboxEvent_projection in H as [[-> _]|(p' & Ha & Hid & Hp)]; [done|].
  apply (state_ok_update s); [done| |done..]. pose proof (state_ok_projection s Hs) as Hok.
  destruct Hp as [->| ->]; [by eapply accepted_ok|by apply projected_ok].
Qed.

(** *** Replacing the sandboxes *)

Lemma mergeDurable_same current sb :
  sandbox_id (mergeDurableSandboxDisposition current sb) = sandbox_id sb ∧
  sb_generation (mergeDurableSandboxDisposition current sb) = sb_generation sb.
Proof. unfold mergeDurableSandboxDisposition. destruct current as [c|]; [|done]. by destruct (_ : bool). Qed.

(** What is gathered while the sandboxes are replaced: each sandbox gathered was
    projected before or is not older than its cursor was; cursors only move forward. *)
Record gathered (p : providerProjectionState) (acc : gmap string Sandbox * gmap string providerSandboxCursor) : Prop := {
  ga_ok : projection_ok (mkProjection (resourceCursors p) acc.1 acc.2);
  ga_cursors : ∀ id c, sandboxCursors p !! id = Some c → ∃ c', acc.2 !! id = Some c' ∧ cu_generation c ≤ cu_generation c';
  ga_sandboxes : ∀ id sb, acc.1 !! id = Some sb → sandboxes p !! id = Some sb ∨
    ∀ c, sandboxCursors p !! id = Some c → cu_generation c ≤ sb_generation sb;
}.

Lemma gathered_start p : projection_ok p → gathered p (∅, sandboxCursors p).
Proof.
  intros Hp. split; simpl.
  - split; simpl; [apply map_Forall_empty|apply Hp].
  - intros id c Hc. by exists c.
  - intros id sb Hl. by rewrite lookup_empty in Hl.
Qed.

(** The cursor given to a sandbox that is accepted. *)
Lemma accepted_bootstrap_cursor c0 current sb :
  match c0 with Some c => cursor_ok c ∧ acceptSandboxBootstrap c current sb = true | None => True end →
  let c := match c0 with
           | Some c => if cu_generation c <? sb_generation sb
                       then mkSandboxCursor (sb_generation sb) 0 "bootstrap-sandbox" "" zero_time ∅ ∅ else c
           | None => mkSandboxCursor (sb_generation sb) 0 "bootstrap-sandbox" "" zero_time ∅ ∅
           end in
  let c := rememberSandboxCursorIdentity (c <| cu_occurredAt := timestampTime (sb_observed_at sb) |>) in
  cursor_ok c ∧ cu_generation c = sb_generation sb ∧ ∀ c', c0 = Some c' → cu_generation c' ≤ sb_generation sb.
Proof.
  intros H. cbv zeta.
  assert (Hnew : cursor_ok (rememberSandboxCursorIdentity (mkSandboxCursor (sb_generation sb) 0 "bootstrap-sandbox" ""
                   (timestampTime (sb_observed_at sb)) ∅ ∅))) by (apply remembered_ok; [apply timestampTime_ok|set_solver|set_solver]).
  destruct c0 as [c|]; [|done]. destruct H as [(_ & _ & H1 & H2) Ha]. unfold acceptSandboxBootstrap in Ha.
  destruct (Z.ltb_spec (sb_generation sb) (cu_generation c)); [done|].
  destruct (Z.ltb_spec (cu_generation c) (sb_generation sb)).
  - split_and!; [done|done|]. intros ? [= <-]. lia.
  - split_and!; [by apply remembered_ok; [apply timestampTime_ok|..]|simpl; lia|]. intros ? [= <-]. lia.
Qed.

Lemma replace_sandbox_gathered p t acc sb acc' :
  projection_ok p → gathered p acc → replace_sandbox p t acc sb = Ok acc' → gathered p acc'.
Proof.
  intros Hp Hacc. unfold replace_sandbox. destruct sb as [sb|]; [|done].
  destruct (guard_err (negb (bool_decide (sandbox_id sb = ""))) _) as [[]|] eqn:Hid; [|done]. apply guard_err_Ok, negb_true_iff, bool_decide_eq_false in Hid.
  destruct (guard_err _ _) as [[]|]; [|done]. cbn [mbind Result_bind]. cbv zeta.
  set (id := sandbox_id sb) in *. set (current := sandboxes p !! id).
  assert (Hcur : (match sandboxCursors p !! id, current with
    | Some c, _ => Some c
    | None, Some s => Some (mkSandboxCursor (sb_generation s) 0 "" "" (timestampTime (sb_observed_at s)) ∅ ∅)
    | None, None => None end) = sandboxCursors p !! id).
  { destruct (sandboxCursors p !! id) eqn:E; [done|]. unfold current. destruct (sandboxes p !! id) eqn:Es; [|done].
    destruct (proj1 Hp _ _ Es) as (_ & _ & c & Hc & _). congruence. }
  rewrite Hcur. destruct Hacc as [Hok Hcs Hss].
  destruct (from_option _ false (sandboxCursors p !! id)) eqn:Hacc.
  - intros [= <-]. unfold current. destruct (sandboxes p !! id) as [s0|] eqn:Es; [|by split].
    destruct (proj1 Hp _ _ Es) as (Hs1 & Hs2 & c & Hc & Hle). destruct (Hcs id c Hc) as (c' & Hc' & Hle').
    split; simpl; [|done|].
    + apply (projection_ok_sandbox _ id s0 c' Hok); [done|done|lia].
    + intros k x Hk. apply lookup_insert_Some in Hk as [[<- <-]|[_ Hk]]; [by left|by apply Hss].
  - intros [= <-].
    destruct (accepted_bootstrap_cursor (sandboxCursors p !! id) current sb) as (Hc1 & Hc2 & Hc3).
    { destruct (sandboxCursors p !! id) as [c|] eqn:Ec; [|done]. split; [by apply (proj2 Hp id c)|]. simpl in Hacc.
      by destruct (acceptSandboxBootstrap _ _ _). }
    set (c := rememberSandboxCursorIdentity _) in *. destruct (mergeDurable_same current sb) as [Hm1 Hm2].
    split; simpl.
    + split; simpl; [|by apply map_Forall_insert_2; [split|apply Hok]].
      intros k x Hk. apply lookup_insert_Some in Hk as [[<- <-]|[Hne Hk]].
      * split_and!; [done|done|]. exists c. rewrite lookup_insert_eq. split; [done|]. rewrite Hc2. simpl. by rewrite Hm2.
      * destruct (proj1 Hok k x Hk) as (? & ? & c0 & Hc0 & ?). split_and!; [done|done|]. exists c0. by rewrite lookup_insert_ne.
    + intros k c0 Hk. destruct (decide (id = k)) as [<-|Hne].
      * exists c. rewrite lookup_insert_eq. split; [done|]. rewrite Hc2. by apply Hc3.
      * rewrite lookup_insert_ne by done. by apply Hcs.
    + intros k x Hk. apply lookup_insert_Some in Hk as [[<- <-]|[_ Hk]]; [|by apply Hss].
      right. intros c0 Hk. simpl. rewrite Hm2. by apply Hc3.
Qed.

Lemma replace_sandboxes_gathered p t acc sbs acc' :
  projection_ok p → gathered p acc → replace_sandboxes p t acc sbs = Ok acc' → gathered p acc'.
Proof.
  intros Hp. revert acc. induction sbs as [|sb sbs IH]; intros acc Hacc; simpl; [by intros [= <-]|].
  intros (acc1 & H1 & H2)%bind_Ok. eapply IH; [|done]. by eapply replace_sandbox_gathered.
Qed.

(** *** Any operation *)

Inductive StateOp :=
| DoPublish (now : Z) (intent : option SchedulingIntent)
| DoRetire (checked committed : Z) (executionID stageID : string) (version : Z)
| DoMutate (now expected : Z) (mutate : option (ClusterSnapshot → Result string ClusterSnapshot))
| DoBootstrap (now : Z) (provider : string) (snap : option ClusterSnapshot)
| DoResourceEvent (now : Z) (event : option ResourceEvent)
| DoReplaceSandboxes (confirmed : Z) (sbs : list (option Sandbox))
| DoSandboxEvent (confirmed committed : Z) (event : option SandboxEvent)
| DoReconcile (now committed : Z) (sbs : list (option Sandbox)).

Context (unicode_quote : string → string) (stableID : string → list string → string).

Definition perform (s : State) (op : StateOp) : State :=
  match op with
  | DoPublish now i => (PublishIntent unicode_quote timestamp_error duration_error stableID s now i).1.1
  | DoRetire t u e st v => (RetireExpiredIntent s t u e st v).1
  | DoMutate now e m => (MutateResources s now e m).1
  | DoBootstrap now p snap => (BootstrapProviderSnapshot s now p snap).1
  | DoResourceEvent now e => (ApplyProviderResourceEvent s now e).1
  | DoReplaceSandboxes t sbs => (ReplaceProjectedSandboxes s t sbs).1
  | DoSandboxEvent t u e => (ApplyProviderSandboxEvent s t u e).1
  | DoReconcile now u sbs => (ReconcileProviderSandboxes s now u sbs).1
  end.

Definition perform_all : State → list StateOp → State := foldl perform.

(** What an operation may do to the sandboxes and their cursors. *)
Definition moves_on (p p' : providerProjectionState) : Prop :=
  projection_ok p' ∧
  (∀ id c, sandboxCursors p !! id = Some c → ∃ c', sandboxCursors p' !! id = Some c' ∧ cu_generation c ≤ cu_generation c') ∧
  (∀ id sb, sandboxes p' !! id = Some sb → sandboxes p !! id = Some sb ∨
     ∀ c, sandboxCursors p !! id = Some c → cu_generation c ≤ sb_generation sb).

(** Only the resource cursors may have changed. *)
Lemma moves_on_same p p' :
  projection_ok p → sandboxes p' = sandboxes p → sandboxCursors p' = sandboxCursors p → moves_on p p'.
Proof.
  intros Hp H1 H2. split_and!.
  - unfold projection_ok. rewrite H1, H2. apply Hp.
  - intros id c Hc. exists c. by rewrite H2.
  - intros id sb Hs. left. by rewrite H1 in Hs.
Qed.

Lemma moves_on_event p e p' t p'' :
  projection_ok p → sv_sandbox_id e ≠ "" → acceptSandboxCursorLocked p (sandboxes p !! sv_sandbox_id e) e = (p', true) →
  p'' = p' ∨ p'' = p' <| sandboxes := <[sv_sandbox_id e := project_event (sandboxes p !! sv_sandbox_id e) e t]> (sandboxes p') |> →
  moves_on p p''.
Proof.
  intros Hp Hid Ha Hp''. pose proof (accepted_cursor _ _ _ _ Ha) as [_ Hsb].
  pose proof (accept_generation _ _ _ _ Ha) as [Hp' Hg].
  assert (Hcs : ∀ id c, sandboxCursors p !! id = Some c → ∃ c', sandboxCursors p' !! id = Some c' ∧ cu_generation c ≤ cu_generation c').
  { intros id c Hc. rewrite Hp'. simpl. destruct (decide (sv_sandbox_id e = id)) as [<-|Hne].
    - rewrite lookup_insert_eq. eexists. split; [done|]. by apply Hg.
    - rewrite lookup_insert_ne by done. by exists c. }
  destruct Hp'' as [->| ->].
  - split_and!; [by eapply accepted_ok|done|]. rewrite Hsb. by left.
  - split_and!; [by apply projected_ok|done|]. simpl. intros id sb Hl. rewrite Hsb in Hl.
    apply lookup_insert_Some in Hl as [[<- <-]|[_ Hl]]; [|by left]. right. intros c Hc.
    rewrite (proj2 (project_event_id _ e t (λ c0 Hs, proj1 (proj1 Hp _ c0 Hs)))). by apply Hg.
Qed.

Lemma acceptResource_same p provider rev id :
  sandboxes (acceptResourceCursorLocked p provider rev id).1 = sandboxes p ∧
  sandboxCursors (acceptResourceCursorLocked p provider rev id).1 = sandboxCursors p.
Proof. unfold acceptResourceCursorLocked. by destruct (match _ with Some _ => _ | None => _ end). Qed.

Lemma commit_if_changed_rest s now w :
  let s' := (commit_if_changed s now w).1 in
  providerProjection s' = providerProjection s ∧ st_intents s' = st_intents s ∧ idempotencyKeys s' = idempotencyKeys s ∧
  st_reservations s' = st_reservations s ∧ st_transactions s' = st_transactions s.
Proof. unfold commit_if_changed. by destruct (snapshot_Equal _ _). Qed.

(** The rest of the state, when an operation touches the snapshot and the projection only. *)
Definition rest_same (s s' : State) : Prop :=
  st_intents s' ⊆ st_intents s ∧ idempotencyKeys s' = idempotencyKeys s ∧ st_reservations s' = st_reservations s ∧
  st_transactions s' = st_transactions s.

Lemma rest_same_ok s s' :
  state_ok s → rest_same s s' → moves_on (providerProjection s) (providerProjection s') →
  state_ok s' ∧ moves_on (providerProjection s) (providerProjection s').
Proof. intros Hs (H1 & H2 & H3 & H4) Hm. split; [|done]. apply (state_ok_update s); try done. apply Hm. Qed.

Lemma rest_same_commit s s' now w : rest_same s s' → rest_same s (commit_snapshot s' now w).
Proof. done. Qed.

Lemma resource_event_rest s now e :
  let s' := (ApplyProviderResourceEvent s now e).1 in
  rest_same s s' ∧ sandboxes (providerProjection s') = sandboxes (providerProjection s) ∧
  sandboxCursors (providerProjection s') = sandboxCursors (providerProjection s).
Proof.
  unfold ApplyProviderResourceEvent. destruct e as [e|]; [|by repeat split].
  destruct (acceptResource_same (providerProjection s) (re_provider e) (re_provider_revision e) (re_event_id e)) as [H1 H2].
  destruct (acceptResourceCursorLocked _ _ _ _) as [p [|]]; [|by repeat split]. simpl in H1, H2. cbv zeta.
  destruct (event_snapshot _ e) as [[w|]|m]; simpl; [|by rewrite ?H1, ?H2|by rewrite ?H1, ?H2].
  pose proof (commit_if_changed_rest (s <| providerProjection := p |>) now w) as Hc. cbv zeta in Hc.
  destruct (commit_if_changed _ _ _) as [s1 a]. simpl in *. destruct Hc as (-> & Hi & Hk & Hr & Ht). unfold rest_same.
  by rewrite Hi, Hk, Hr, Ht.
Qed.

Lemma bootstrap_rest s now provider snap :
  let s' := (BootstrapProviderSnapshot s now provider snap).1 in
  rest_same s s' ∧ sandboxes (providerProjection s') = sandboxes (providerProjection s) ∧
  sandboxCursors (providerProjection s') = sandboxCursors (providerProjection s).
Proof.
  unfold BootstrapProviderSnapshot. destruct snap as [snap|]; [|by repeat split].
  destruct (acceptResource_same (providerProjection s) provider (revision snap) "bootstrap-snapshot") as [H1 H2].
  destruct (acceptResourceCursorLocked _ _ _ _) as [p [|]]; [|by repeat split]. simpl in H1, H2.
  pose proof (commit_if_changed_rest (s <| providerProjection := p |>) now (with_authority s snap)) as Hc. cbv zeta in Hc.
  destruct (commit_if_changed _ _ _) as [s1 a]. simpl in *. destruct Hc as (-> & Hi & Hk & Hr & Ht). unfold rest_same.
  by rewrite Hi, Hk, Hr, Ht.
Qed.

Lemma reconcile_rest s now u sbs :
  let s' := (ReconcileProviderSandboxes s now u sbs).1 in
  rest_same s s' ∧ providerProjection s' = providerProjection s.
Proof.
  unfold ReconcileProviderSandboxes. destruct (foldl observe _ sbs) as [live observed]. cbv zeta.
  destruct (release_where _ _ _) as [[kept ds]|e]; [|by repeat split]. simpl.
  assert (Hsub : filter (λ kv, in_run_id kv.2 ∉ retiredRuns (retirement (allocations (st_snapshot s)) observed)) (st_intents s) ⊆ st_intents s)
    by apply map_filter_subseteq.
  by destruct (negb _ || _ || _).
Qed.

(** An accepted publication, and what it requires. *)
Lemma PublishIntent_cases (s : State) now intent :
  let '(s', _, _) := PublishIntent unicode_quote timestamp_error duration_error stableID s now intent in
  s' = s ∨ ∃ i, intent = Some i ∧ validateIntentStructure timestamp_error duration_error (Some i) = Ok i ∧
    idempotencyKeys s !! in_idempotency_key i = None ∧ s' = stage_intent stableID s now i.
Proof.
  unfold PublishIntent, PreparePublishIntent.
  destruct (validateIntentStructure _ _ intent) as [i|e] eqn:Hv; [|by left].
  assert (intent = Some i) as ->.
  { unfold validateIntentStructure in Hv. destruct intent as [i'|]; [|done]. f_equal.
    repeat (apply bind_Ok in Hv as (? & _ & Hv)). by injection Hv. }
  destruct (check_current _ s i) as [[r|]|e]; [by left| |by left].
  destruct (idempotencyKeys s !! in_idempotency_key i) eqn:Hk; [by left|]. destruct (negb _); [by left|].
  destruct (_ =? max_uint64); [by left|]. right. by exists i.
Qed.

Lemma publish_ok (s : State) now i :
  state_ok s → validateIntentStructure timestamp_error duration_error (Some i) = Ok i →
  idempotencyKeys s !! in_idempotency_key i = None → state_ok (stage_intent stableID s now i).
Proof.
  intros Hs Hv Hk. split; simpl; try apply Hs.
  - apply map_Forall_insert_2; [done|apply Hs].
  - intros k x Hx. apply lookup_insert_Some in Hx as [[<- <-]|[Hne Hx]]; [by rewrite lookup_insert_eq|].
    pose proof (ok_keys _ _ s Hs k x Hx) as Hxk. rewrite lookup_insert_ne; [done|]. intros E. rewrite E in Hk. congruence.
  - apply map_Forall_insert_2; [done|apply Hs].
Qed.

Lemma perform_ok s op :
  state_ok s → state_ok (perform s op) ∧ moves_on (providerProjection s) (providerProjection (perform s op)).
Proof.
  intros Hs. pose proof (state_ok_projection s Hs) as Hp.
  assert (Hsame : ∀ s', rest_same s s' → sandboxes (providerProjection s') = sandboxes (providerProjection s) →
    sandboxCursors (providerProjection s') = sandboxCursors (providerProjection s) →
    state_ok s' ∧ moves_on (providerProjection s) (providerProjection s')).
  { intros s' Hr H1 H2. apply rest_same_ok; [done|done|]. by apply moves_on_same. }
  destruct op as [now i|t u e st v|now e m|now p snap|now e|t sbs|t u e|now u sbs]; simpl.
  - pose proof (PublishIntent_cases s now i) as H. destruct (PublishIntent _ _ _ _ s now i) as [[s' r] err]. simpl.
    destruct H as [->|(i' & -> & Hv & Hk & ->)]; [by apply Hsame|]. split; [by apply publish_ok|]. by apply moves_on_same.
  - apply Hsame; unfold RetireExpiredIntent; (destruct (st_intents s !! _) as [i|]; [|done]);
      (destruct (_ || _ || _); [done|]); (destruct (existsb _ _); [done|]); try done. split; [apply delete_subseteq|done].
  - apply Hsame; unfold MutateResources; (destruct m as [m|]; [|done]); (destruct (negb _); [done|]);
      (destruct (_ =? max_uint64); [done|]); by destruct (m _).
  - destruct (bootstrap_rest s now p snap) as (H1 & H2 & H3). by apply Hsame.
  - destruct (resource_event_rest s now e) as (H1 & H2 & H3). by apply Hsame.
  - unfold ReplaceProjectedSandboxes. destruct (replace_sandboxes _ _ _ _) as [[ss cs]|m] eqn:Hr; [|by apply Hsame].
    pose proof (replace_sandboxes_gathered _ _ _ _ _ Hp (gathered_start _ Hp) Hr) as [Hok Hcs Hss]. simpl in *.
    destruct (equalProjectedSandboxes _ _).
    + simpl. apply rest_same_ok; [done|done|]. split_and!; simpl; [|done|by left]. split; simpl; [|apply Hok].
      intros id sb Hl. destruct (proj1 Hp id sb Hl) as (Ha & Hb & c & Hc & Hle). destruct (Hcs id c Hc) as (c' & Hc' & Hle').
      split_and!; [done|done|]. exists c'. split; [done|lia].
    + simpl. apply rest_same_ok; [done|done|]. by split_and!.
  - destruct (ApplyProviderSandboxEvent s t u e) as [s' r] eqn:H. simpl. split; [by eapply ApplyProviderSandboxEvent_ok|].
    destruct e as [e|]; [|injection H as <- _; by apply moves_on_same].
    apply ApplyProviderSandboxEvent_projection in H as [[-> _]|(p' & Ha & Hid & Hp')]; [by apply moves_on_same|].
    by eapply moves_on_event.
  - destruct (reconcile_rest s now u sbs) as [H1 H2]. apply Hsame; [done|by rewrite H2|by rewrite H2].
Qed.


Lemma moves_on_trans p1 p2 p3 : moves_on p1 p2 → moves_on p2 p3 → moves_on p1 p3.
Proof.
  intros (_ & C1 & S1) (H2 & C2 & S2). split_and!; [done| |].
  - intros id c Hc. destruct (C1 id c Hc) as (c2 & Hc2 & ?). destruct (C2 id c2 Hc2) as (c3 & Hc3 & ?). exists c3. split; [done|lia].
  - intros id sb Hs. destruct (S2 id sb Hs) as [Hs2|Hle].
    + by apply S1.
    + right. intros c Hc. destruct (C1 id c Hc) as (c2 & Hc2 & ?). specialize (Hle c2 Hc2). lia.
Qed.

Lemma perform_all_moves s ops :
  state_ok s → moves_on (providerProjection s) (providerProjection (perform_all s ops)).
Proof.
  revert s. induction ops as [|op ops IH]; intros s Hs; simpl; [by apply moves_on_same; [apply state_ok_projection|..]|].
  destruct (perform_ok s op Hs) as [Hok Hm]. eapply moves_on_trans; [done|]. by apply IH.
Qed.

(** No sandbox goes back.  After any sequence of operations a sandbox projected before
    is not projected with an older generation, even when it was dropped in between, and
    its cursor still refuses any event of a generation older than the one it had. *)
Theorem sandbox_never_goes_back s ops id sb :
  state_ok s → sandboxes (providerProjection s) !! id = Some sb →
  (∀ sb', sandboxes (providerProjection (perform_all s ops)) !! id = Some sb' → sb_generation sb ≤ sb_generation sb') ∧
  ∀ e t u, sv_sandbox_id e = id → sv_generation e < sb_generation sb →
    (ApplyProviderSandboxEvent (perform_all s ops) t u (Some e)).1 = perform_all s ops.
Proof.
  intros Hs Hsb. destruct (ok_sandboxes _ _ s Hs id sb Hsb) as (_ & Hid & c & Hc & Hle).
  destruct (perform_all_moves s ops Hs) as (_ & Hcs & Hss). split.
  - intros sb' Hsb'. destruct (Hss id sb' Hsb') as [Hsame|Hnew]; [|specialize (Hnew c Hc); lia].
    rewrite Hsb in Hsame. injection Hsame as <-. lia.
  - intros e t u <- Hg. destruct (Hcs _ c Hc) as (c' & Hc' & Hle').
    destruct (ApplyProviderSandboxEvent _ t u (Some e)) as [s' r] eqn:H. simpl.
    apply ApplyProviderSandboxEvent_projection in H as [[-> _]|(p' & Ha & _)]; [done|].
    apply accept_generation in Ha as [_ Ha]. destruct (Ha c' Hc') as [? _]. lia.
Qed.

End Preserved.
