(* ===== verification/ReconcileProofs.v ===== *)
(** * Reconciling the allocation ledger with a provider inventory: properties *)

From Stdlib Require Import ZArith Lia.
From S2P Require Import Prelude GoStrings GoTime GoFloat ClusterModel SchedulerState Mutation Preemption Reservation ReservationProofs Transaction Intents Projection ProviderEvents DurableState DurableProofs ProjectionProofs.
From stdpp Require Import options.

Local Open Scope Z_scope.

(** ** Releasing some of the allocations *)

Definition demands (als : list Allocation) : list Demand := allocation_demand <$> als.

Definition released_by (f : Allocation → bool) (als : list Allocation) : list Allocation := filter (λ a, f a = true) als.
Definition kept_by (f : Allocation → bool) (als : list Allocation) : list Allocation := filter (λ a, f a = false) als.

Lemma kept_cons f a als : kept_by f (a :: als) = if f a then kept_by f als else a :: kept_by f als.
Proof. unfold kept_by. rewrite filter_cons. by destruct (f a). Qed.

Lemma released_cons f a als : released_by f (a :: als) = if f a then a :: released_by f als else released_by f als.
Proof. unfold released_by. rewrite filter_cons. by destruct (f a). Qed.

Lemma kept_all f als : released_by f als = [] → kept_by f als = als.
Proof.
  induction als as [|a als IH]; [done|]. rewrite kept_cons, released_cons. destruct (f a); [done|]. intros H. by rewrite IH.
Qed.

Lemma load_split f proj id als :
  load proj id (demands als) = load proj id (demands (released_by f als)) + load proj id (demands (kept_by f als)).
Proof.
  unfold demands. induction als as [|a als IH]; [done|]. rewrite kept_cons, released_cons, fmap_cons, load_cons, IH.
  destruct (f a); rewrite fmap_cons, load_cons; lia.
Qed.

(** A ledger the devices back: one device per allocation, room for everything allocated. *)
Record ledger_backed (ds : list Device) (als : list Allocation) : Prop := {
  lb_ids : NoDup (device_id <$> ds);
  lb_demands : Forall demand_ok (demands als);
  lb_devices : Forall (backed ds) (demands als);
  lb_room : room ds (demands als);
}.

Lemma backed_tail ds a als : ledger_backed ds (a :: als) → ledger_backed ds als.
Proof.
  intros [H1 H2 H3 H4]. unfold demands in *. rewrite fmap_cons in *. apply Forall_cons in H2 as [[_ (r & Hr & Hok)] H2]. apply Forall_cons in H3 as [_ H3].
  split; try done. intros proj d Hp Hd. specialize (H4 proj d Hp Hd). rewrite load_cons in H4.
  unfold load1 in H4. rewrite Hr in H4. specialize (Hok proj Hp). unfold is_u64 in Hok. simpl in H4. case_decide; unfold demands; lia.
Qed.

Lemma release_where_spec f ds als :
  ledger_backed ds als →
  ∃ ds', release_where f ds als = Ok (kept_by f als, ds') ∧
    shifted (λ proj id, load proj id (demands (released_by f als))) ds ds'.
Proof.
  revert ds. induction als as [|a als IH]; intros ds Hb; cbn [release_where]; [exists ds; split; [done|apply shifted_refl]|].
  rewrite kept_cons, released_cons. destruct (f a).
  - pose proof Hb as [Hnd Hok Hba Hroom]. unfold demands in Hok, Hba, Hroom. rewrite fmap_cons in Hok, Hba, Hroom.
    apply Forall_cons in Hok as [Ha Hok]. apply Forall_cons in Hba as [Hb' Hba].
    pose proof (release_devices_total ds (allocation_demand a) Hnd Ha Hb') as Hrel.
    change (al_device_ids a) with (allocation_demand a).1. change (al_resources a) with (allocation_demand a).2.
    destruct (release_devices ds _ _) as [ds1|] eqn:H1; [|done]. cbn [mbind Result_bind].
    apply release_devices_shifted in H1; [|done|done|by eapply room_cons].
    assert (Hsh : shifted (λ proj id, load proj id [allocation_demand a]) ds ds1).
    { eapply shifted_ext; [|exact H1]. intros proj d Hp Hd. cbv beta. rewrite decide_True; [done|]. by apply list_elem_of_fmap_2. }
    destruct (IH ds1) as (ds' & -> & Hsh2).
    { split; [by rewrite (shifted_ids _ _ _ Hsh)|done| |by eapply room_next].
      eapply Forall_impl; [exact Hba|]. intros dem. by apply (backed_shifted _ _ _ _ Hsh). }
    exists ds'. split; [done|]. eapply shifted_ext; [|exact (shifted_trans _ _ _ _ _ Hsh Hsh2)].
    intros proj d _ _. cbv beta. unfold demands. rewrite fmap_cons, !load_cons. change (load proj (device_id d) []) with 0. lia.
  - destruct (IH ds (backed_tail _ _ _ Hb)) as (ds' & -> & Hsh). by exists ds'.
Qed.

(** What is kept is still backed. *)
Lemma release_where_backed f ds ds' als :
  ledger_backed ds als → shifted (λ proj id, load proj id (demands (released_by f als))) ds ds' →
  ledger_backed ds' (kept_by f als).
Proof.
  intros [H1 H2 H3 H4] Hsh.
  assert (Hsub : ∀ P : Demand → Prop, Forall P (demands als) → Forall P (demands (kept_by f als))).
  { intros P HP. unfold demands in *. rewrite Forall_forall in HP |- *. intros dem Hd. apply HP.
    apply list_elem_of_fmap in Hd as (a & -> & Ha). apply list_elem_of_filter in Ha as [_ Ha]. by apply list_elem_of_fmap_2. }
  split; [by rewrite (shifted_ids _ _ _ Hsh)|by apply Hsub| |].
  - eapply Forall_impl; [by apply Hsub|]. intros dem. by apply (backed_shifted _ _ _ _ Hsh).
  - intros proj d' Hp Hd'. destruct Hsh as [Hlen Hsh]. apply list_elem_of_lookup in Hd' as [j Hj].
    destruct (lookup_lt_is_Some_2 ds j) as [d Hd]; [rewrite <-Hlen; by apply lookup_lt_Some in Hj|].
    destruct (Hsh j d Hd) as (d2 & Hj2 & Hid & _ & Hcap & _ & _ & Ham). rewrite Hj in Hj2. injection Hj2 as <-.
    rewrite Hid, Hcap, Ham by done. pose proof (H4 proj d Hp ltac:(by apply list_elem_of_lookup_2 in Hd)) as Hr.
    rewrite (load_split f) in Hr. lia.
Qed.

(** ** The inventory *)

(** The view a reconciliation takes: the inventory, and the projection under it. *)
Definition view (s : State) (sbs : list (option Sandbox)) : gmap string Sandbox * gmap string Sandbox :=
  foldl observe (∅, sandboxes (providerProjection s)) sbs.

Definition same_life (a b : Sandbox) : Prop :=
  sandbox_id a = sandbox_id b ∧ sb_generation a = sb_generation b ∧ sb_state a = sb_state b ∧ sb_binding a = sb_binding b.

Lemma mergeDurable_life current sb : same_life (mergeDurableSandboxDisposition current sb) sb.
Proof. unfold mergeDurableSandboxDisposition. destruct current as [c|]; [|by split_and!]. by destruct (_ : bool). Qed.

(** The observed view has every sandbox of the inventory, as far as matching goes. *)
Lemma observe_live v sbs :
  (∀ id sb, v.1 !! id = Some sb → ∃ sb', v.2 !! id = Some sb' ∧ same_life sb' sb) →
  ∀ id sb, (foldl observe v sbs).1 !! id = Some sb → ∃ sb', (foldl observe v sbs).2 !! id = Some sb' ∧ same_life sb' sb.
Proof.
  revert v. induction sbs as [|[sb|] sbs IH]; intros v Hv; simpl; [done| |by apply IH].
  apply IH. case_bool_decide; [done|]. simpl. intros id sb' Hl.
  apply lookup_insert_Some in Hl as [[<- <-]|[Hne Hl]].
  - rewrite lookup_insert_eq. eexists. split; [done|apply mergeDurable_life].
  - rewrite lookup_insert_ne by done. by apply Hv.
Qed.

Lemma sandboxMatches_life a x y : same_life x y → sandboxMatchesAllocation a (Some x) = sandboxMatchesAllocation a (Some y).
Proof. intros (H1 & H2 & _ & H4). unfold sandboxMatchesAllocation. by rewrite H1, H2, H4. Qed.

(** Why an allocation may be released. *)
Definition evidence (s : State) (sbs : list (option Sandbox)) (now : Z) (a : Allocation) : Prop :=
  (∃ sb, (view s sbs).2 !! al_sandbox_id a = Some sb ∧ sandboxMatchesAllocation a (Some sb) = true ∧
     terminalRuntimeState (sb_state sb) = true) ∨
  ((view s sbs).1 !! al_sandbox_id a = None ∧ allocationExpired a now = true).

Lemma releases_evidence s sbs now a :
  a ∈ allocations (st_snapshot s) →
  releases (retirement (allocations (st_snapshot s)) (view s sbs).2) (view s sbs).1 now a = true → evidence s sbs now a.
Proof.
  intros Ha. unfold releases. destruct (bool_decide (_ ∈ retirementRequestedRuns _) && _); [done|].
  intros [Hr|Hr]%orb_true_iff.
  - left. apply bool_decide_eq_true in Hr. unfold retirement in Hr. cbn [retiredRuns] in Hr.
    apply elem_of_filter in Hr as [[Hr _] _]. unfold allRunAllocationsTerminal in Hr. apply andb_true_iff in Hr as [_ Hr].
    rewrite forallb_forall in Hr. specialize (Hr a). cbn [te_run_id] in Hr.
    assert (Hin : In a (filter (λ a0, of_run (al_run_id a) a0 = true) (allocations (st_snapshot s)))).
    { apply list_elem_of_In, list_elem_of_filter. split; [|done]. by apply bool_decide_eq_true. }
    specialize (Hr Hin). apply orb_true_iff in Hr as [Hr|Hr].
    + exfalso. revert Hr. unfold allocationMatchesTerminalEvent. cbn. destruct (negb _); [done|].
      rewrite orb_false_r. by case_bool_decide.
    + destruct ((view s sbs).2 !! al_sandbox_id a) as [sb|]; [|done]. exists sb. split; [done|]. by apply andb_true_iff.
  - destruct ((view s sbs).1 !! al_sandbox_id a) as [sb|] eqn:Hl; [|by right]. left.
    destruct (observe_live (∅, sandboxes (providerProjection s)) sbs) with (id := al_sandbox_id a) (sb := sb) as (sb' & Hl' & Hlife).
    { intros id x Hx. simpl in Hx. by rewrite lookup_empty in Hx. }
    { exact Hl. }
    exists sb'. split; [exact Hl'|]. apply andb_true_iff in Hr as [Hr1 Hr2]. rewrite (sandboxMatches_life _ _ _ Hlife).
    destruct Hlife as (_ & _ & -> & _). by split.
Qed.

Lemma requeue_same intents now snap a :
  allocations (requeueAllocation intents now snap a) = allocations snap ∧
  devices (requeueAllocation intents now snap a) = devices snap.
Proof.
  unfold requeueAllocation. destruct (intents !! _) as [i|]; [|done]. repeat (destruct (_ : bool); [done|]). done.
Qed.

Lemma requeue_all_same intents now snap als :
  allocations (foldl (requeueAllocation intents now) snap als) = allocations snap ∧
  devices (foldl (requeueAllocation intents now) snap als) = devices snap.
Proof.
  revert snap. induction als as [|a als IH]; intros snap; simpl; [done|].
  destruct (IH (requeueAllocation intents now snap a)) as [-> ->]. apply requeue_same.
Qed.

(** C33: Reconciling conserves resources.  On a ledger its devices back, reconciling with
    an inventory never fails; it releases only allocations whose sandbox was observed
    terminal in the same generation, or that expired with no sandbox in the inventory; it
    gives each device exactly the (integer) resources of what was released on it; and the
    ledger it leaves is backed again. *)
Theorem Reconcile_conserves s now committed sbs :
  ledger_backed (devices (st_snapshot s)) (allocations (st_snapshot s)) →
  ∃ s' changed gone, ReconcileProviderSandboxes s now committed sbs = (s', Ok changed) ∧
    (∃ f, gone = released_by f (allocations (st_snapshot s)) ∧
          allocations (st_snapshot s') = kept_by f (allocations (st_snapshot s))) ∧
    Forall (evidence s sbs now) gone ∧
    shifted (λ proj id, load proj id (demands gone)) (devices (st_snapshot s)) (devices (st_snapshot s')) ∧
    ledger_backed (devices (st_snapshot s')) (allocations (st_snapshot s')).
Proof.
  intros Hb. unfold ReconcileProviderSandboxes. fold (view s sbs). pose proof (releases_evidence s sbs now) as Hev.
  destruct (view s sbs) as [live observed]. cbn [fst snd] in Hev. cbv zeta.
  set (f := releases (retirement (allocations (st_snapshot s)) observed) live now) in *.
  destruct (release_where_spec f _ _ Hb) as (ds & -> & Hsh). pose proof (release_where_backed _ _ _ _ Hb Hsh) as Hb'.
  eexists _, _, (released_by f (allocations (st_snapshot s))). split; [reflexivity|].
  match goal with |- context [foldl (requeueAllocation _ _) ?w ?l] =>
    destruct (requeue_all_same (st_intents s) now w l) as [Hals Hds]; set (final := foldl (requeueAllocation (st_intents s) now) w l) in * end.
  clearbody final. cbn in Hals, Hds.
  assert (Hgone : Forall (evidence s sbs now) (released_by f (allocations (st_snapshot s)))).
  { apply Forall_forall. intros a Ha. unfold released_by in Ha. apply list_elem_of_filter in Ha as [Hf Ha]. by apply Hev. }
  match goal with |- context [if ?c then _ else _] => destruct c eqn:Hch end; cbn.
  - rewrite Hals, Hds. split; [by exists f|]. split_and!; done.
  - apply orb_false_iff in Hch as [Hch _]. apply orb_false_iff in Hch as [Hch _].
    assert (Hnil : released_by f (allocations (st_snapshot s)) = []).
    { apply length_zero_iff_nil. apply negb_false_iff, Nat.eqb_eq in Hch. exact Hch. }
    assert (Hkept : kept_by f (allocations (st_snapshot s)) = allocations (st_snapshot s)).
    { by apply kept_all. }
    rewrite Hnil in *. split; [exists f; by rewrite Hkept|]. split_and!; [done|apply shifted_refl|done].
Qed.

(** ** Resource events *)

Lemma acceptResource_twice p provider rev id p' :
  id ≠ "" → acceptResourceCursorLocked p provider rev id = (p', true) → acceptResourceCursorLocked p' provider rev id = (p', false).
Proof.
  intros Hid. unfold acceptResourceCursorLocked. destruct (match resourceCursors p !! provider with Some _ => _ | None => _ end); [done|].
  intros [= <-]. simpl. rewrite lookup_insert_eq. simpl. by rewrite Z.ltb_irrefl, Z.eqb_refl, !bool_decide_false, bool_decide_true by done.
Qed.

(** A resource event is consumed even when it is refused for lacking its payload: the
    error leaves everything but the provider's cursor as it was, and the event delivered
    again with its payload, under the same revision and identifier, is then taken for a
    duplicate and never applied. *)
Theorem failed_resource_event_consumed s now now' e e' s' message :
  re_event_id e ≠ "" → re_event_id e' = re_event_id e → re_provider e' = re_provider e →
  re_provider_revision e' = re_provider_revision e →
  ApplyProviderResourceEvent s now (Some e) = (s', Err message) →
  s' = s <| providerProjection := providerProjection s' |> ∧
  ApplyProviderResourceEvent s' now' (Some e') = (s', Ok (st_snapshot s, false)).
Proof.
  intros Hid E1 E2 E3. unfold ApplyProviderResourceEvent. rewrite E1, E2, E3.
  destruct (acceptResourceCursorLocked (providerProjection s) _ _ _) as [p [|]] eqn:Ha; [|done].
  destruct (event_snapshot _ e) as [[w|]|m]; [by destruct (commit_if_changed _ _ _)|done|].
  intros [= <- _]. cbn [providerProjection]. split; [by destruct s|]. simpl. by rewrite (acceptResource_twice _ _ _ _ _ Hid Ha).
Qed.
