(* ===== verification/PublishProofs.v ===== *)
(** * Publishing intents: properties *)

From Stdlib Require Import ZArith Lia.
From S2P Require Import Prelude GoStrings GoTime GoFloat ClusterModel SchedulerState Mutation Preemption Reservation ReservationProofs Transaction Intents Projection ProviderEvents.
From stdpp Require Import options.

Local Open Scope Z_scope.

(** ** Equality of intents is reflexive *)

Lemma intent_Equal_refl i : intent_Equal i i = true.
Proof.
  unfold intent_Equal. rewrite !bool_decide_true by done.
  rewrite !option_Equal_refl; [done|apply resources_Equal_refl|apply capabilities_Equal_refl].
Qed.

(** ** Counting *)

(** The units of an intent among the pending ones, and the live allocations it already has. *)
Definition units_of (i : SchedulingIntent) (us : list PendingUnit) : list PendingUnit := filter (λ u, of_intent_unit i u = true) us.
Definition others_of (i : SchedulingIntent) (us : list PendingUnit) : list PendingUnit := filter (λ u, of_intent_unit i u = false) us.
Definition live_of (i : SchedulingIntent) (als : list Allocation) : list Allocation :=
  filter (λ a, live_of_key (intent_key i) a = true) als.

Definition adopt (i : SchedulingIntent) (a : Allocation) : Allocation :=
  if live_of_key (intent_key i) a then a <| al_intent_version := in_version i |> else a.

Lemma adopt_live i a : live_of_key (intent_key i) (adopt i a) = live_of_key (intent_key i) a.
Proof. unfold adopt. by destruct (live_of_key (intent_key i) a) eqn:H. Qed.

Lemma live_of_adopt i als : length (live_of i (adopt i <$> als)) = length (live_of i als).
Proof.
  unfold live_of. induction als as [|a als IH]; [done|]. rewrite fmap_cons, !filter_cons, adopt_live.
  by destruct (decide _); simpl; rewrite IH.
Qed.

Lemma of_others i us : units_of i (others_of i us) = [] ∧ others_of i (others_of i us) = others_of i us.
Proof.
  unfold units_of, others_of. induction us as [|u us [IH1 IH2]]; [done|]. rewrite !(filter_cons _ u us).
  case_decide as Hu; [|done]. by rewrite filter_cons_False, filter_cons_True, IH1, IH2 by (rewrite ?Hu; done).
Qed.

Lemma of_new i us : Forall (λ u, of_intent_unit i u = true) us → units_of i us = us ∧ others_of i us = [].
Proof.
  unfold units_of, others_of. induction 1 as [|u us Hu Hus [IH1 IH2]]; [done|].
  by rewrite filter_cons_True, filter_cons_False, IH1, IH2 by (rewrite ?Hu; done).
Qed.

Section Publish.
Context (unicode_quote : string → string) (timestamp_error : Timestamp → string) (duration_error : Duration → string)
        (stableID : string → list string → string).

Definition new_units (i : SchedulingIntent) (now count : Z) : list PendingUnit :=
  (λ index : nat, new_pending_unit stableID i now (Z.of_nat index)) <$> seq 0 (Z.to_nat count).

Lemma replace_units us i count now :
  let us' := replacePendingUnits stableID us i count now in
  units_of i us' ≡ₚ new_units i now count ∧ others_of i us' ≡ₚ others_of i us.
Proof.
  cbv zeta. unfold replacePendingUnits, sortPendingUnits. fold (others_of i us) (new_units i now count).
  destruct (of_others i us) as [H1 H2]. destruct (of_new i (new_units i now count)) as [H3 H4].
  { apply Forall_fmap, Forall_forall. intros n _. unfold of_intent_unit. simpl. by rewrite !bool_decide_true. }
  unfold units_of, others_of in *. rewrite !sort_by_perm, !filter_app, H1, H2, H3, H4, app_nil_r. done.
Qed.

Local Abbreviation publish := (PublishIntent unicode_quote timestamp_error duration_error stableID).

Lemma validated i i' : validateIntentStructure timestamp_error duration_error i = Ok i' → i = Some i'.
Proof.
  unfold validateIntentStructure. destruct i as [i|]; [|done]. intros Hv. f_equal.
  repeat (apply bind_Ok in Hv as (? & _ & Hv)). by injection Hv.
Qed.

(** An intent no longer alive, stale or already known never gets past these checks. *)
Record publishable (s : State) (now : Z) (i : SchedulingIntent) : Prop := {
  pb_valid : validateIntentStructure timestamp_error duration_error (Some i) = Ok i;
  pb_newer : ∀ c, st_intents s !! intent_key i = Some c → in_version c < in_version i;
  pb_fresh : idempotencyKeys s !! in_idempotency_key i = None;
  pb_alive : now < AsTime (valid_until i);
  pb_room : revision (st_snapshot s) ≠ max_uint64;
}.

Lemma check_current_None (s : State) i :
  check_current unicode_quote s i = Ok None → ∀ c, st_intents s !! intent_key i = Some c → in_version c < in_version i.
Proof.
  unfold check_current. intros H c Hc. rewrite Hc in H. destruct (Z.ltb_spec (in_version i) (in_version c)).
  { by destruct (from_option _ _ _). }
  destruct (Z.eqb_spec (in_version i) (in_version c)); [|lia].
  destruct (intent_Equal _ _); [done|]. by destruct (bool_decide _).
Qed.

Lemma check_current_newer (s : State) i :
  (∀ c, st_intents s !! intent_key i = Some c → in_version c < in_version i) → check_current unicode_quote s i = Ok None.
Proof.
  unfold check_current. intros H. destruct (st_intents s !! _) as [c|]; [|done]. specialize (H c eq_refl).
  destruct (Z.ltb_spec (in_version i) (in_version c)); [lia|]. destruct (Z.eqb_spec (in_version i) (in_version c)); [lia|done].
Qed.

Lemma check_current_response (s : State) i r :
  check_current unicode_quote s i = Ok (Some r) →
  rs_status r = INTENT_PUBLISH_STATUS_DEDUPLICATED ∧
  ∃ c, st_intents s !! intent_key i = Some c ∧ in_version c = in_version i ∧ intent_Equal i c = true.
Proof.
  unfold check_current. destruct (st_intents s !! _) as [c|]; [|done].
  destruct (in_version i <? in_version c); [by destruct (from_option _ _ _)|].
  destruct (Z.eqb_spec (in_version i) (in_version c)) as [Hv|]; [|done].
  destruct (intent_Equal i c) eqn:He; [|by destruct (bool_decide _)]. intros [= <-]. split; [done|]. by exists c.
Qed.

(** A publishable intent is accepted. *)
Lemma publish_publishable (s : State) now i :
  publishable s now i →
  publish s now (Some i) = (stage_intent stableID s now i, intentResponse (Some i) INTENT_PUBLISH_STATUS_ACCEPTED "intent accepted", None).
Proof.
  intros [H1 H2 H3 H4 H5]. unfold PublishIntent, PreparePublishIntent. rewrite H1, (check_current_newer s i H2), H3.
  by rewrite (proj2 (Z.ltb_lt _ _) H4), (proj2 (Z.eqb_neq _ _) H5).
Qed.

(** The three outcomes. *)
Inductive published (s : State) (now : Z) : option SchedulingIntent → State * PublishIntentResponse * option IntentError → Prop :=
| published_accepted i : publishable s now i →
    published s now (Some i) (stage_intent stableID s now i, intentResponse (Some i) INTENT_PUBLISH_STATUS_ACCEPTED "intent accepted", None)
| published_again i r c : rs_status r = INTENT_PUBLISH_STATUS_DEDUPLICATED →
    st_intents s !! intent_key i = Some c → in_version c = in_version i → intent_Equal i c = true →
    published s now (Some i) (s, r, None)
| published_rejected i r e : rs_status r = INTENT_PUBLISH_STATUS_REJECTED → published s now i (s, r, Some e).

Lemma reject_status i e : rs_status (rejectedIntentResponse i e) = INTENT_PUBLISH_STATUS_REJECTED.
Proof. by destruct i. Qed.

Lemma publish_published (s : State) now i : published s now i (publish s now i).
Proof.
  unfold PublishIntent, PreparePublishIntent.
  destruct (validateIntentStructure _ _ i) as [i'|e] eqn:Hv; [|apply published_rejected, reject_status].
  pose proof (validated i i' Hv) as ->.
  destruct (check_current _ s i') as [[r|]|e] eqn:Hc; [|  |apply published_rejected, reject_status].
  - apply check_current_response in Hc as (Hr & c & H1 & H2 & H3). by eapply published_again.
  - destruct (idempotencyKeys s !! _) eqn:Hk; [apply published_rejected, reject_status|].
    destruct (Z.ltb_spec now (AsTime (valid_until i'))); [|apply published_rejected, reject_status].
    destruct (Z.eqb_spec (revision (st_snapshot s)) max_uint64); [apply published_rejected, reject_status|].
    apply published_accepted. split; try done. by apply check_current_None.
Qed.

(** Adopting the version does not change how many are live. *)
Lemma live_of_length i als :
  Z.of_nat (length als) < two32 → liveAllocationCount (adopt i <$> als) i = Z.of_nat (length (live_of i als)).
Proof.
  intros Hl. unfold liveAllocationCount. fold (live_of i (adopt i <$> als)). rewrite live_of_adopt.
  assert (length (live_of i als) ≤ length als)%nat by apply length_filter.
  unfold wrap32. rewrite Z.mod_small; [done|lia].
Qed.

(** Publishing.  A rejected or repeated publication leaves the store as it was.  An
    accepted one was valid, alive, strictly newer than the stage's intent and under an
    unused key; it becomes the stage's intent one revision later, the live allocations of
    the stage adopt its version, and the pending units of the stage are exactly as many new
    ones as are missing to its unit count, every other unit staying. *)
Theorem PublishIntent_effect (s : State) now intent (s' : State) r e :
  is_u64 (revision (st_snapshot s)) → Z.of_nat (length (allocations (st_snapshot s))) < two32 →
  publish s now intent = (s', r, e) →
  match rs_status r with
  | INTENT_PUBLISH_STATUS_ACCEPTED => e = None ∧ ∃ i, intent = Some i ∧ publishable s now i ∧
      let missing := Z.max 0 (unit_count i - Z.of_nat (length (live_of i (allocations (st_snapshot s))))) in
      LatestIntent s' (in_execution_id i) (in_stage_id i) = Some i ∧
      revision (st_snapshot s') = revision (st_snapshot s) + 1 ∧
      devices (st_snapshot s') = devices (st_snapshot s) ∧
      allocations (st_snapshot s') = adopt i <$> allocations (st_snapshot s) ∧
      units_of i (pending_units (st_snapshot s')) ≡ₚ new_units i now missing ∧
      others_of i (pending_units (st_snapshot s')) ≡ₚ others_of i (pending_units (st_snapshot s))
  | INTENT_PUBLISH_STATUS_DEDUPLICATED => s' = s ∧ e = None
  | INTENT_PUBLISH_STATUS_REJECTED => s' = s ∧ e ≠ None
  end.
Proof.
  intros Hu Hl H. pose proof (publish_published s now intent) as Hp. rewrite H in Hp.
  inversion Hp as [i Hpb|i ? c Hr|? ? err Hr]; subst; [|by rewrite Hr|by rewrite Hr].
  cbn [rs_status intentResponse]. split; [done|]. exists i. split; [done|]. split; [done|]. cbv zeta.
  pose proof (pb_room _ _ _ Hpb) as Hroom. unfold is_u64, two64, max_uint64 in *.
  set (als := allocations (st_snapshot s)) in *.
  split; [unfold LatestIntent; cbn; by rewrite lookup_insert_eq|].
  split; [cbn; unfold wrap64, two64; rewrite Z.mod_small; [done|lia]|]. split; [done|]. split; [done|].
  change (pending_units (st_snapshot (stage_intent stableID s now i))) with
    (replacePendingUnits stableID (pending_units (st_snapshot s)) i
       (if liveAllocationCount (adopt i <$> als) i <? unit_count i
        then unit_count i - liveAllocationCount (adopt i <$> als) i else 0) now).
  rewrite live_of_length by done.
  set (n := Z.of_nat (length _)).
  replace (if n <? unit_count i then unit_count i - n else 0) with (Z.max 0 (unit_count i - n)) by (destruct (Z.ltb_spec n (unit_count i)); lia).
  apply replace_units.
Qed.

(** A retried publication is recognised.  Publishing an accepted intent again, at any
    later time and even after it expired, answers that it was deduplicated, without an
    error, and changes nothing. *)
Theorem publish_retry (s : State) now now' intent (s' : State) r e :
  publish s now intent = (s', r, e) → e = None →
  ∃ r', publish s' now' intent = (s', r', None) ∧ rs_status r' = INTENT_PUBLISH_STATUS_DEDUPLICATED.
Proof.
  intros H He. pose proof (publish_published s now intent) as Hp. rewrite H in Hp.
  assert (Hgo : ∀ i c, intent = Some i → validateIntentStructure timestamp_error duration_error (Some i) = Ok i →
    st_intents s' !! intent_key i = Some c → in_version c = in_version i → intent_Equal i c = true →
    ∃ r', publish s' now' intent = (s', r', None) ∧ rs_status r' = INTENT_PUBLISH_STATUS_DEDUPLICATED).
  { intros i c -> Hv Hc Hver Heq. unfold PublishIntent, PreparePublishIntent. rewrite Hv. unfold check_current.
    rewrite Hc, Hver, Z.ltb_irrefl, Z.eqb_refl, Heq. eauto. }
  inversion Hp as [i Hpb|i ? c Hr Hc Hver Heq|? ? err Hr]; subst; [| |done].
  - apply (Hgo i i); [done|apply Hpb| |done|apply intent_Equal_refl]. unfold stage_intent. simpl. by rewrite lookup_insert_eq.
  - apply (Hgo i c); try done. revert H. unfold PublishIntent, PreparePublishIntent.
    destruct (validateIntentStructure _ _ (Some i)) as [i'|] eqn:Hv; [|done]. by pose proof (validated _ _ Hv) as [= ->].
Qed.

End Publish.
