(* ===== verification/StoreWitnesses.v ===== *)
(** * The store's theorems at a concrete state *)

From Stdlib Require Import ZArith Lia.
From S2P Require Import Prelude GoStrings GoTime GoFloat ClusterModel SchedulerState Mutation Preemption Reservation ReservationProofs Transaction Intents Projection ProviderEvents DurableState DurableProofs ProjectionProofs ReconcileProofs PublishProofs.
From stdpp Require Import options.

Local Open Scope Z_scope.

Module StoreWitnesses.
Definition uq (s : string) : string := s.
Definition te (t : Timestamp) : string := "".
Definition de (d : Duration) : string := "".
Definition sid (prefix : string) (parts : list string) : string := foldr (λ p acc, p +:+ "/" +:+ acc) prefix parts.

Definition rv (c m : Z) : ResourceVector := mkResources c m f1 0 0.
Definition dev : Device := mkDevice "d" DEVICE_HEALTH_READY (Some (mkResources 8 8 (fadd f1 f1) 0 0)) (Some (mkResources 6 5 f1 0 0)) None ∅ Semantics.DEVICE_KIND_GPU.
Definition al : Allocation :=
  mkAllocation "a" "e" "s" 1 "j" "u" ["d"] (Some (rv 2 3)) ALLOCATION_STATE_ACTIVE None (Some (mkTimestamp 9 0)) "r" "t"
    DATA_KIND_LIVE 1 "" "" "p" "" None "x" "b".
Definition unit_of_other : PendingUnit :=
  mkPendingUnit "o" "other" "s" 1 "j" (Some (rv 1 1)) None 0 None 0 "" "" DATA_KIND_LIVE "".
Definition snap : ClusterSnapshot := mkSnapshot "" 7 None [dev] [al] [unit_of_other] ∅ "".
Definition s0 : State := mkStoreState snap ∅ newProviderProjectionState ∅ ∅ ∅.

Definition seconds (n : Z) : Z := n * Second.
Definition intent : SchedulingIntent :=
  mkIntent "e" "s" 1 (Some (mkTimestamp 11 0)) (Some (mkDuration 10 0)) "key" (Some (mkTimestamp 1 0)) "j" (Some (rv 1 1)) 3
    None 0 "" "policy" "r" "t" DATA_KIND_LIVE "".
Definition running : SandboxEvent :=
  mkSandboxEvent "ev1" "x" "r" "j" "t" 1 RUNTIME_STATE_RUNNING None None (Some (mkTimestamp 2 0)) DATA_KIND_LIVE None 3 "" None None None.
Definition published_s : State := (PublishIntent uq te de sid s0 (seconds 2) (Some intent)).1.1.
Definition s1 : State := (ApplyProviderSandboxEvent published_s (seconds 3) (seconds 3) (Some running)).1.
Definition ended : Sandbox :=
  mkSandbox "x" "r" "j" "t" RUNTIME_STATE_TERMINATED 1 None f0 0 false false (Some (mkTimestamp 4 0)) DATA_KIND_LIVE None "" None None.

Lemma s0_ok : state_ok te de s0.
Proof. split; simpl; apply map_Forall_empty. Qed.

Lemma s1_ok : state_ok te de s1.
Proof.
  change s1 with (perform te de uq sid (perform te de uq sid s0 (DoPublish (seconds 2) (Some intent)))
                    (DoSandboxEvent (seconds 3) (seconds 3) (Some running))).
  by apply perform_ok, perform_ok, s0_ok.
Qed.

Lemma export_restore_roundtrip_witness :
  size (st_intents s1) = 1%nat ∧ size (sandboxes (providerProjection s1)) = 1%nat ∧
  ∃ keys, Restore te de s0 (ExportDurableState s1) = (s1 <| idempotencyKeys := keys |>, None) ∧ is_Some (keys !! "key").
Proof.
  split; [by vm_compute|]. split; [by vm_compute|].
  destruct (export_restore_roundtrip te de s1 s0 s1_ok) as (keys & H & Hk). exists keys. split; [done|].
  exists (mkIdentity ("e", "s") 1 intent). apply Hk. split; by vm_compute.
Defined.

Lemma sandbox_event_replay_witness :
  sb_state <$> (sandboxes (providerProjection s1) !! "x") = Some RUNTIME_STATE_RUNNING ∧
  ApplyProviderSandboxEvent s1 (seconds 8) (seconds 8) (Some running) = (s1, Ok (sandboxes (providerProjection s1) !! "x", false)).
Proof.
  split; [by vm_compute|].
  destruct (ApplyProviderSandboxEvent published_s (seconds 3) (seconds 3) (Some running)) as [s' [r|]] eqn:H.
  - assert (s1 = s') as -> by (unfold s1; by rewrite H).
    exact (sandbox_event_replay published_s _ _ (seconds 8) (seconds 8) _ _ _ H).
  - apply (f_equal (λ x, is_ok x.2)) in H. by vm_compute in H.
Defined.


Lemma sandbox_never_goes_back_witness :
  let s := perform_all te de uq sid s1 [DoReplaceSandboxes (seconds 5) []] in
  sandboxes (providerProjection s) !! "x" = None ∧
  ∀ sb', sandboxes (providerProjection s) !! "x" = Some sb' → 1 ≤ sb_generation sb'.
Proof.
  cbv zeta. split; [by vm_compute|]. destruct (sandboxes (providerProjection s1) !! "x") as [sb|] eqn:H.
  - assert (sb_generation sb = 1) as <-.
    { apply (f_equal (fmap sb_generation)) in H. vm_compute in H. by injection H. }
    exact (proj1 (sandbox_never_goes_back te de uq sid s1 _ "x" sb s1_ok H)).
  - apply (f_equal (fmap sb_generation)) in H. by vm_compute in H.
Defined.

Lemma al_backed : ledger_backed [dev] [al].
Proof.
  assert (Hr : rv_ok (rv 2 3)) by (intros proj; revert proj; apply integer_cases; unfold is_u64, two64; simpl; lia).
  split.
  - by apply NoDup_singleton.
  - apply Forall_singleton. split; [by exists "d"|]. by exists (rv 2 3).
  - apply Forall_singleton. intros d [->|[]%elem_of_nil]%elem_of_cons _. by eexists.
  - intros proj d Hp Hd. apply list_elem_of_singleton in Hd as ->. revert proj Hp.
    apply integer_cases; vm_compute; intuition congruence.
Qed.

Lemma Reconcile_conserves_witness :
  ∃ s' changed gone, ReconcileProviderSandboxes s1 (seconds 5) (seconds 5) [Some ended] = (s', Ok changed) ∧
    changed = true ∧ allocations (st_snapshot s') = [] ∧
    shifted (λ proj id, load proj id (demands gone)) (devices (st_snapshot s1)) (devices (st_snapshot s')).
Proof.
  assert (Hb : ledger_backed (devices (st_snapshot s1)) (allocations (st_snapshot s1))).
  { replace (devices (st_snapshot s1)) with [dev] by (by vm_compute).
    replace (allocations (st_snapshot s1)) with [al] by (by vm_compute). exact al_backed. }
  assert (Hc : match (ReconcileProviderSandboxes s1 (seconds 5) (seconds 5) [Some ended]).2 with Ok c => c | Err _ => false end = true) by (by vm_compute).
  assert (Ha : length (allocations (st_snapshot (ReconcileProviderSandboxes s1 (seconds 5) (seconds 5) [Some ended]).1)) = 0%nat) by (by vm_compute).
  destruct (Reconcile_conserves s1 (seconds 5) (seconds 5) [Some ended] Hb) as (s' & changed & gone & H & _ & _ & Hsh & _).
  rewrite H in Hc, Ha. exists s', changed, gone. split; [done|]. split; [done|]. split; [by apply length_zero_iff_nil|done].
Defined.

(** An event that lost its device, and the same event with it. *)
Definition lost_event (d : option Device) : ResourceEvent :=
  mkResourceEvent "rev" RESOURCE_EVENT_TYPE_DEVICE_CHANGED 4 "provider" None d None None None.

Lemma failed_resource_event_consumed_witness :
  ∃ s' message, ApplyProviderResourceEvent s1 0 (Some (lost_event None)) = (s', Err message) ∧
    ApplyProviderResourceEvent s' 1 (Some (lost_event (Some dev))) = (s', Ok (st_snapshot s1, false)).
Proof.
  destruct (ApplyProviderResourceEvent s1 0 (Some (lost_event None))) as [s' [r|message]] eqn:H.
  - apply (f_equal (λ x, is_ok x.2)) in H. by vm_compute in H.
  - exists s', message. split; [done|].
    exact (proj2 (failed_resource_event_consumed s1 0 1 (lost_event None) (lost_event (Some dev)) s' message
                    ltac:(done) ltac:(done) ltac:(done) ltac:(done) H)).
Defined.

Lemma PublishIntent_effect_witness :
  ∃ (s' : State) r e, PublishIntent uq te de sid s0 (seconds 2) (Some intent) = (s', r, e) ∧
    rs_status r = INTENT_PUBLISH_STATUS_ACCEPTED ∧ revision (st_snapshot s') = 7 + 1 ∧
    units_of intent (pending_units (st_snapshot s')) ≡ₚ new_units sid intent (seconds 2) 2.
Proof.
  destruct (PublishIntent uq te de sid s0 (seconds 2) (Some intent)) as [[s' r] e] eqn:H. exists s', r, e. split; [done|].
  assert (Hr : rs_status r = INTENT_PUBLISH_STATUS_ACCEPTED) by (apply (f_equal (λ x, rs_status x.1.2)) in H; by vm_compute in H).
  pose proof (PublishIntent_effect uq te de sid s0 (seconds 2) (Some intent) s' r e
    ltac:(unfold is_u64, two64; simpl; lia) ltac:(by vm_compute) H) as He.
  rewrite Hr in He. destruct He as (_ & i & [= <-] & _ & _ & Hrev & _ & _ & Hu & _). by split_and!.
Defined.

Lemma publish_retry_witness :
  ∃ r', PublishIntent uq te de sid published_s (seconds 99) (Some intent) = (published_s, r', None) ∧
    rs_status r' = INTENT_PUBLISH_STATUS_DEDUPLICATED.
Proof.
  destruct (PublishIntent uq te de sid s0 (seconds 2) (Some intent)) as [[s' r] e] eqn:H.
  assert (He : e = None).
  { apply (f_equal snd) in H. vm_compute in H. by subst. }
  assert (published_s = s') as -> by (unfold published_s; by rewrite H).
  exact (publish_retry uq te de sid s0 (seconds 2) (seconds 99) (Some intent) s' r e H He).
Defined.
End StoreWitnesses.
