(* ===== verification/CandidateProofs.v ===== *)
(** * The candidate engine: properties *)

From Stdlib Require Import ZArith Lia.
From Stdlib Require Import Floats.SpecFloat.
From S2P Require Import Prelude GoStrings GoTime GoFloat GoHeap ClusterModel SchedulerState Mutation Preemption Reservation ReservationProofs Transaction Intents Constraints Candidates CandidateEngine.
From stdpp Require Import options.

Local Open Scope Z_scope.

(** ** Scores are numbers *)

Lemma shr_1_nonneg r : 0 ≤ shr_m r → 0 ≤ shr_m (shr_1 r).
Proof. destruct r as [m b c]. unfold shr_1. simpl. destruct m as [|[p|p|]|p]; simpl; lia. Qed.

Lemma shr_nonneg r e n : 0 ≤ shr_m r → 0 ≤ shr_m (shr r e n).1.
Proof.
  intros Hr. unfold shr. destruct n as [|p|p]; simpl; [done| |done].
  assert (Hi : ∀ p r, 0 ≤ shr_m r → 0 ≤ shr_m (SpecFloat.iter_pos shr_1 p r)).
  { clear. induction p as [p IH|p IH|]; intros r Hr; simpl; auto using shr_1_nonneg. }
  by apply Hi.
Qed.

Lemma shr_fexp_nonneg m e l : 0 ≤ m → 0 ≤ shr_m (shr_fexp 53 1024 m e l).1.
Proof. intros Hm. unfold shr_fexp. apply shr_nonneg. destruct l as [|[]]; done. Qed.

Lemma round_even_nonneg m l : 0 ≤ m → 0 ≤ round_nearest_even m l.
Proof. intros Hm. destruct l as [|[]]; simpl; [lia| |lia|lia]. destruct (Z.even m); lia. Qed.

Lemma binary_round_aux_number s m e l : 0 ≤ m → IsNaN (binary_round_aux 53 1024 s m e l) = false.
Proof.
  intros Hm. unfold binary_round_aux.
  pose proof (shr_fexp_nonneg m e l Hm) as H1. destruct (shr_fexp 53 1024 m e l) as [r1 e1]. simpl in H1.
  pose proof (shr_fexp_nonneg (round_nearest_even (shr_m r1) (loc_of_shr_record r1)) e1 loc_Exact (round_even_nonneg _ _ H1)) as H2.
  destruct (shr_fexp 53 1024 _ e1 loc_Exact) as [r2 e2]. simpl in H2.
  destruct (shr_m r2) as [|p|p]; [done| |lia]. by destruct (_ <=? _).
Qed.

Lemma binary_normalize_number m e s : IsNaN (binary_normalize 53 1024 m e s) = false.
Proof.
  unfold binary_normalize, binary_round. destruct m as [|p|p]; [done| |].
  all: destruct (shl_align _ _ _) as [mz ez]; by apply binary_round_aux_number.
Qed.

Lemma fmul_number v w : invalidFloat v = false → invalidFloat w = false → IsNaN (fmul v w) = false.
Proof. intros Hv Hw. destruct v as [|[]| |], w as [|[]| |]; try done. by apply binary_round_aux_number. Qed.

Lemma fround_number v : IsNaN v = false → IsNaN (fround v) = false.
Proof.
  destruct v as [| | |s m e]; try done. intros _. unfold fround. destruct (0 <=? e); [done|].
  cbv zeta. destruct (_ =? 0); [done|]. apply binary_normalize_number.
Qed.

(** Division by a finite number other than zero. *)
Lemma fdiv_number v s m e : IsNaN v = false → IsNaN (fdiv v (S754_finite s m e)) = false.
Proof.
  destruct v as [| | |sv mv ev]; try done. intros _. unfold fdiv, SFdiv.
  destruct (SFdiv_core_binary 53 1024 (Zpos mv) ev (Zpos m) e) as [[mz ez] lz] eqn:Hd.
  apply binary_round_aux_number. revert Hd. unfold SFdiv_core_binary. cbv zeta.
  match goal with |- (let '(_, _) := Z.div_eucl ?a ?b in _) = _ → _ =>
    pose proof (Z_div_pos a b) as Hp; unfold Z.div in Hp; destruct (Z.div_eucl a b) as [quo r] end.
  intros [= <- _ _]. apply Hp; [lia|]. case_match; [lia| |lia]. apply Z.shiftl_nonneg. lia.
Qed.

Lemma roundScore_number v : IsNaN (roundScore v) = false.
Proof.
  unfold roundScore. destruct (invalidFloat v) eqn:Hv; [done|].
  assert (∃ s m e, scorePrecision = S754_finite s m e) as (s & m & e & Hp) by (vm_compute; by repeat eexists).
  rewrite Hp at 2. apply fdiv_number, fround_number, fmul_number; [done|]. by rewrite Hp.
Qed.

(** ** The frontier *)

Lemma heap_ext {A} (less less' : A → A → bool) l :
  (∀ x y, x ∈ l → y ∈ l → less x y = less' x y) → heap less l → heap less' l.
Proof.
  intros H Hl p c Hc Hcn. specialize (Hl p c Hc Hcn). unfold ordered, less_at in *.
  destruct (l !! c) as [y|] eqn:Hy; [|done]. destruct (l !! p) as [x|] eqn:Hx; [|done].
  rewrite <-H; [done|by eapply list_elem_of_lookup_2..].
Qed.

Definition number_at (s : deviceState) : Prop := IsNaN (total (pair_score (ds_evaluation s))) = false.

#[local] Instance frontier_less_sw states : Forall number_at states → StrictWeak (frontier_less states).
Proof.
  intros Hn. assert (Hk : ∀ i, IsNaN (key_at states i).1 = false).
  { intros i. unfold key_at. destruct (states !! i) as [s|] eqn:Hs; [|done]. exact (Forall_lookup_1 _ _ _ _ Hn Hs). }
  eapply (StrictWeak_ext _
    (lex_less (λ i j, key_ltb (fkey (key_at states j).1) (fkey (key_at states i).1))
       (λ i j, lex_less (λ a b : rank_key, str_ltb a.2.1 b.2.1)
                 (lex_less (λ a b, str_ltb a.2.2.1 b.2.2.1) (λ a b, str_ltb a.2.2.2 b.2.2.2)) (key_at states i) (key_at states j)))).
  - intros i j. unfold frontier_less, rank_less, lex_less. by rewrite !fltb_key by apply Hk.
  - apply lex_less_sw.
    + apply flip_less_sw. apply (key_less_sw key_ltb (λ i, fkey (key_at states i).1)), _.
    + apply (key_less_sw _ (key_at states)). apply lex_less_sw; [apply (key_less_sw str_ltb), _|].
      apply lex_less_sw; apply (key_less_sw str_ltb); apply _.
Qed.

(** Two positions neither of which is better have the same device. *)
Lemma rank_tie a b : rank_less a b = false → rank_less b a = false → a.2 = b.2.
Proof.
  unfold rank_less, lex_less. intros H1 H2.
  destruct (fltb b.1 a.1) eqn:E1; [done|]. destruct (fltb a.1 b.1) eqn:E2; [done|].
  destruct (str_ltb a.2.1 b.2.1) eqn:E3; [done|]. destruct (str_ltb b.2.1 a.2.1) eqn:E4; [done|].
  destruct (str_ltb a.2.2.1 b.2.2.1) eqn:E5; [done|]. destruct (str_ltb b.2.2.1 a.2.2.1) eqn:E6; [done|].
  destruct a as [a1 (a2 & a3 & a4)], b as [b1 (b2 & b3 & b4)]. simpl in *.
  by rewrite (str_ltb_total _ _ E3 E4), (str_ltb_total _ _ E5 E6), (str_ltb_total _ _ H1 H2).
Qed.

Definition state_ids (states : list deviceState) : list string := device_id ∘ ds_device <$> states.

Lemma frontier_tie states i j :
  NoDup (state_ids states) → is_Some (states !! i) → is_Some (states !! j) →
  frontier_less states i j = false → frontier_less states j i = false → i = j.
Proof.
  intros Hnd [s Hi] [t Hj] H1 H2. pose proof (rank_tie _ _ H1 H2) as Ht. unfold key_at in Ht. rewrite Hi, Hj in Ht.
  cbn in Ht. injection Ht as Ht. eapply NoDup_lookup; [exact Hnd| |]; unfold state_ids; rewrite list_lookup_fmap.
  - by rewrite Hi.
  - rewrite Hj. simpl. by rewrite Ht.
Qed.

Definition feasible_at (states : list deviceState) (i : nat) : bool :=
  from_option (λ s, feasible (ds_evaluation s)) false (states !! i).

Lemma feasible_positions_iff states i : i ∈ feasible_positions states ↔ feasible_at states i = true.
Proof.
  unfold feasible_positions. rewrite list_elem_of_filter, elem_of_seq. fold (feasible_at states i). split; [by intros [? _]|].
  intros H. split; [done|]. split; [lia|]. unfold feasible_at in H. destruct (states !! i) eqn:Hi; [|done].
  apply lookup_lt_Some in Hi. lia.
Qed.

Lemma feasible_positions_NoDup states : NoDup (feasible_positions states).
Proof. apply NoDup_filter, NoDup_seq. Qed.

(** Changing one feasible state. *)
Lemma feasible_positions_alter states f i l :
  feasible_positions states ≡ₚ i :: l →
  feasible_positions (alter f i states) ≡ₚ (if feasible_at (alter f i states) i then i :: l else l).
Proof.
  intros Hp. pose proof (feasible_positions_NoDup states) as Hnd. rewrite Hp in Hnd. apply NoDup_cons in Hnd as [Hi Hl].
  assert (Hin : ∀ k, feasible_at states k = true ↔ k = i ∨ k ∈ l).
  { intros k. rewrite <-feasible_positions_iff, Hp. by rewrite elem_of_cons. }
  apply NoDup_Permutation; [apply feasible_positions_NoDup|destruct (feasible_at _ i); by try constructor|].
  intros k. rewrite feasible_positions_iff. destruct (decide (k = i)) as [->|Hne].
  - destruct (feasible_at (alter f i states) i); [|naive_solver]. split; [by left|done].
  - assert (feasible_at (alter f i states) k = feasible_at states k) as ->.
    { unfold feasible_at. by rewrite list_lookup_alter_ne. }
    rewrite Hin. destruct (feasible_at (alter f i states) i); rewrite ?elem_of_cons; naive_solver.
Qed.

(** The frontier is a heap of the positions that are feasible. *)
Definition frontier_ok (states : list deviceState) (frontier : list nat) : Prop :=
  heap (frontier_less states) frontier ∧ frontier ≡ₚ feasible_positions states.

Lemma push_all_ok states frontier others :
  Forall number_at states → heap (frontier_less states) frontier →
  heap (frontier_less states) (foldl (heap_Push (frontier_less states)) frontier others) ∧
  foldl (heap_Push (frontier_less states)) frontier others ≡ₚ others ++ frontier.
Proof.
  intros Hn. pose proof (frontier_less_sw states Hn) as Hsw. revert frontier.
  induction others as [|i others IH]; intros frontier Hf; simpl; [done|].
  destruct (IH (heap_Push (frontier_less states) frontier i)) as [H1 H2]; [by apply heap_Push_heap|].
  split; [done|]. rewrite H2, heap_Push_perm. by rewrite Permutation_middle.
Qed.

(** The chosen state is taken out, changed, and put back when it is still feasible. *)
Lemma frontier_ok_alter states f i l frontier :
  let states' := alter f i states in
  Forall number_at states' → feasible_positions states ≡ₚ i :: l →
  heap (frontier_less states) frontier → frontier ≡ₚ l →
  frontier_ok states' (if feasible_at states' i then heap_Push (frontier_less states') frontier i else frontier).
Proof.
  cbv zeta. intros Hn Hp Hh Hf. pose proof (feasible_positions_NoDup states) as Hnd. rewrite Hp in Hnd.
  apply NoDup_cons in Hnd as [Hi _].
  assert (Hh' : heap (frontier_less (alter f i states)) frontier).
  { eapply heap_ext; [|exact Hh]. intros x y Hx Hy. unfold frontier_less, key_at.
    rewrite Hf in Hx, Hy. rewrite !list_lookup_alter_ne by (intros ->; contradiction). done. }
  pose proof (feasible_positions_alter states f i l Hp) as Hp'. split.
  - destruct (feasible_at _ i); [|done]. apply heap_Push_heap; [by apply frontier_less_sw|done].
  - rewrite Hp'. destruct (feasible_at _ i); [|done]. by rewrite heap_Push_perm, Hf.
Qed.

(** No two units' requirements are equal for [proto.Equal] without being the same, as
    those that differ in the sign of a zero. *)
Definition canonical (intent : SchedulingIntent) (us : list Unit) : Prop :=
  ∀ u v, u ∈ us → v ∈ us →
    (option_Equal resources_Equal (requirementsFor u intent).1 (requirementsFor v intent).1 = true →
     (requirementsFor u intent).1 = (requirementsFor v intent).1) ∧
    (option_Equal capabilities_Equal (requirementsFor u intent).2 (requirementsFor v intent).2 = true →
     (requirementsFor u intent).2 = (requirementsFor v intent).2).

(** The demands of what was selected, the n-th for the n-th unit. *)
Definition placements (intent : SchedulingIntent) (us : list Unit) (os : list Option) : list Demand :=
  zip_with (λ u o, ([op_DeviceID o], (requirementsFor u intent).1)) us os.

(** ** Evaluations *)

Section Engine.
Context (unicode_quote unicode_lower : string → string) (stableID : string → list string → string).

Local Abbreviation evaluatePair := (evaluatePair unicode_lower).

Lemma evaluatePair_number intent d r req caps dec : IsNaN (total (pair_score (evaluatePair intent d r req caps dec))) = false.
Proof.
  unfold Candidates.evaluatePair. cbv zeta. repeat (case_match; [done|]). apply roundScore_number.
Qed.

Lemma evaluatePair_fits intent d r req caps dec :
  feasible (evaluatePair intent d r req caps dec) = true →
  ResourceLessOrEqual req (Some (dr_allocatable r)) = true ∧ SumFits (Some (dr_used r)) req (Some (dr_capacity r)) = true.
Proof.
  unfold Candidates.evaluatePair. cbv zeta. repeat (case_match; [done|]). intros _.
  repeat match goal with H : negb _ = false |- _ => apply negb_false_iff in H end. by split.
Qed.

Lemma evaluatePair_ready intent d r req caps dec :
  feasible (evaluatePair intent d r req caps dec) = true → overcommitted r = false ∧ health d = DEVICE_HEALTH_READY.
Proof.
  unfold Candidates.evaluatePair. cbv zeta. repeat (case_match; [done|]). intros _. bool_props.
  by split.
Qed.

Section Loop.
Context (cx : EngineContext).

Local Abbreviation intent := (cx_intent cx).
Local Abbreviation needs u := (requirementsFor u intent).

Definition reeval (r : option ResourceVector) (c : option CapabilitySet) : deviceState → deviceState :=
  reevaluate unicode_lower intent r c (cx_decision cx).

Definition fresh (states : list deviceState) (r : option ResourceVector) (c : option CapabilitySet) : Prop :=
  Forall (λ s, ds_evaluation s = evaluatePair intent (ds_device s) (ds_resources s) r c (cx_decision cx)) states.

Lemma reeval_fresh states r c : fresh (reeval r c <$> states) r c.
Proof. unfold fresh. apply Forall_fmap, Forall_forall. done. Qed.

Lemma fresh_reeval states r c : fresh states r c → reeval r c <$> states = states.
Proof.
  intros Hf. rewrite <-(list_fmap_id states) at 2. apply list_fmap_ext. intros i s Hs.
  eapply Forall_lookup_1 in Hf; [|done]. unfold reeval, reevaluate. cbn. rewrite <-Hf. by destruct s.
Qed.

Lemma fresh_numbers states r c : fresh states r c → Forall number_at states.
Proof. intros Hf. eapply Forall_impl; [exact Hf|]. intros s Hs. unfold number_at. rewrite Hs. apply evaluatePair_number. Qed.

Lemma fresh_consume states r c i : fresh states r c → fresh (consume_at unicode_lower cx r c i states) r c.
Proof. intros Hf. unfold consume_at. apply Forall_alter; [done|]. by intros s _ _. Qed.

Lemma reeval_ids states r c : state_ids (reeval r c <$> states) = state_ids states.
Proof. unfold state_ids. by rewrite <-list_fmap_compose. Qed.

Lemma consume_ids states r c i : state_ids (consume_at unicode_lower cx r c i states) = state_ids states.
Proof.
  unfold state_ids, consume_at. rewrite (list_fmap_alter _ _ (λ x, x)); [by apply list_alter_id|]. by apply Forall_forall.
Qed.

(** ** Refreshing *)

(** The engine between two units: what the frontier was built for is still what the
    states are evaluated for. *)
Record engine_ok (e : EngineState) : Prop := {
  eo_ids : NoDup (state_ids (eg_states e));
  eo_frontier : ∀ f, eg_frontier e = Some f →
    fresh (eg_states e) (evaluatedRequest e) (evaluatedCapabilities e) ∧ frontier_ok (eg_states e) f ∧
    feasibleCount e = Z.of_nat (length f);
}.

Definition cached (e : EngineState) (us : list Unit) : Prop :=
  eg_frontier e = None ∨ ∃ u, u ∈ us ∧ needs u = (evaluatedRequest e, evaluatedCapabilities e).

Lemma rebuild_ok states r c :
  NoDup (state_ids states) →
  let '(states', f) := rebuildFrontier unicode_lower states intent r c (cx_decision cx) in
  states' = reeval r c <$> states ∧ frontier_ok states' f.
Proof.
  intros Hnd. unfold rebuildFrontier. fold (reeval r c). split; [done|].
  pose proof (frontier_less_sw _ (fresh_numbers _ _ _ (reeval_fresh states r c))) as Hsw.
  split; [by apply heap_Init_heap|apply heap_Init_perm].
Qed.

(** After refreshing, the states are what evaluating each of them anew gives. *)
Lemma refresh_ok e us u :
  engine_ok e → cached e us → canonical intent us → u ∈ us →
  let '(e', f) := refresh unicode_lower cx e (needs u).1 (needs u).2 in
  eg_states e' = reeval (needs u).1 (needs u).2 <$> eg_states e ∧ frontier_ok (eg_states e') f ∧
  feasibleCount e' = Z.of_nat (length f) ∧ (evaluatedRequest e', evaluatedCapabilities e') = needs u ∧
  eg_collector e' = eg_collector e ∧ eg_result e' = eg_result e.
Proof.
  intros He Hc Hcan Hu. unfold refresh.
  pose proof (rebuild_ok (eg_states e) (needs u).1 (needs u).2 (eo_ids e He)) as Hb.
  destruct (rebuildFrontier _ _ _ _ _ _) as [states' f'] eqn:Hr.
  destruct (eg_frontier e) as [f|] eqn:Hf; [|cbn; destruct Hb as [-> ?]; by destruct (needs u)].
  destruct (_ && _) eqn:Heq; [|cbn; destruct Hb as [-> ?]; by destruct (needs u)].
  destruct (eo_frontier e He f Hf) as (Hfr & Hok & Hn).
  destruct Hc as [Hc|(v & Hv & Hvn)]; [congruence|]. apply andb_true_iff in Heq as [E1 E2].
  assert (Hsame : needs v = needs u).
  { destruct (Hcan v u Hv Hu) as [C1 C2]. rewrite Hvn in C1, C2. cbn in C1, C2. rewrite Hvn, (C1 E1), (C2 E2). by destruct (needs u). }
  rewrite <-Hsame, Hvn. cbn. split; [by rewrite fresh_reeval|]. split_and!; try done.
Qed.

(** ** Choosing *)

Lemma shortlist_ok u r c states n f choices f' :
  Forall number_at states → heap (frontier_less states) f →
  shortlist unicode_quote cx u r c states n f = Ok (choices, f') →
  heap (frontier_less states) f' ∧ (fst <$> choices) ++ f' ≡ₚ f ∧
  Forall (λ p, ∃ s, states !! p.1 = Some s ∧ materializeCandidate unicode_quote (cx_callbacks cx) u s r c = Ok p.2) choices ∧
  ∀ i cs, choices = (i, cs) :: tail choices → Forall (λ j, frontier_less states j i = false) ((fst <$> tail choices) ++ f').
Proof.
  intros Hn. pose proof (frontier_less_sw states Hn) as Hsw. revert f choices f'.
  induction n as [|n IH]; intros f choices f' Hh; simpl; [intros [= <- <-]; by split_and!|].
  destruct f as [|i0 f0] eqn:Ef; [by rewrite heap_Pop_nil|]. rewrite <-Ef in *.
  destruct (heap_Pop_spec (frontier_less states) f Hh) as (i & rest & -> & Hp & Hh' & Hleast); [by rewrite Ef|].
  destruct (states !! i) as [s|] eqn:Hs; [|done]. intros (cd & Hm & H)%bind_Ok. apply bind_Ok in H as ([cs f1] & Hsh & [= <- <-]).
  destruct (IH _ _ _ Hh' Hsh) as (H1 & H2 & H3 & _). split_and!; [done| | |].
  - simpl. by rewrite H2.
  - constructor; [|done]. by exists s.
  - intros i' cs' [= <- <-]. simpl. by rewrite H2.
Qed.

(** What the selection for a unit leaves: the chosen position was in the frontier, the
    other choices still have to go back into it. *)
Lemma choose_ok u r c states f sel f' :
  fresh states r c → frontier_ok states f → choose unicode_quote cx u r c states f = Ok (sel, f') →
  match sl_choice sel with
  | Some (i, cd) => heap (frontier_less states) f' ∧ i :: sl_others sel ++ f' ≡ₚ feasible_positions states ∧
      (∃ s, states !! i = Some s ∧ materializeCandidate unicode_quote (cx_callbacks cx) u s r c = Ok cd) ∧
      (cx_select cx = None → sl_others sel = [] ∧ Forall (λ j, frontier_less states j i = false) f')
  | None => cx_select cx = None → feasible_positions states = []
  end.
Proof.
  intros Hfr [Hh Hp]. pose proof (fresh_numbers _ _ _ Hfr) as Hn. unfold choose. destruct (cx_select cx) as [select|].
  - intros ([choices f1] & Hsh & H)%bind_Ok. cbn [fst snd] in H.
    destruct (shortlist_ok _ _ _ _ _ _ _ _ Hn Hh Hsh) as (H1 & H2 & H3 & _). case_bool_decide; [by injection H as <- <-|].
    destruct (select _ _ _) as [[|k|] fallback]; [by injection H as <- <-| |by injection H as <- <-].
    destruct (choices !! k) as [[i cd]|] eqn:Hk; injection H as <- <-; [|done]. cbn [sl_choice sl_others].
    split; [done|]. split; [|split; [|done]].
    + rewrite <-Hp, <-H2. rewrite (delete_Permutation _ _ _ Hk) at 2. done.
    + eapply Forall_lookup_1 in H3; [|done]. exact H3.
  - destruct f as [|i0 f0] eqn:Ef.
    { intros [= <- <-]. cbn. intros _. symmetry; by apply Permutation_nil_l. }
    rewrite <-Ef in *. intros ([choices f1] & Hsh & H)%bind_Ok. cbn [fst snd] in H.
    destruct (shortlist_ok _ _ _ _ _ _ _ _ Hn Hh Hsh) as (H1 & H2 & H3 & H4).
    destruct choices as [|[i cd] [|]]; [done| |done]. injection H as <- <-. cbn [sl_choice sl_others].
    split; [done|]. split; [by rewrite <-Hp, <-H2|]. split; [by apply Forall_cons_1 in H3 as [H3 _]|]. intros _. split; [done|].
    by specialize (H4 i cd eq_refl).
Qed.

(** ** Placements *)

(** What a run of the loop places, one unit after the other, on states evaluated anew
    for each unit: [rule] tells how a position is chosen, [stuck] when the loop stops. *)
Inductive placed (rule : list deviceState → nat → Prop) (stuck : list deviceState → Prop) :
    list deviceState → list Unit → list Option → option string → Prop :=
| placed_all states : placed rule stuck states [] [] None
| placed_stuck states u us : stuck (reeval (needs u).1 (needs u).2 <$> states) →
    placed rule stuck states (u :: us) [] (Some (unit_ID u))
| placed_one states u us i s cd os fl :
    (reeval (needs u).1 (needs u).2 <$> states) !! i = Some s → feasible (ds_evaluation s) = true →
    materializeCandidate unicode_quote (cx_callbacks cx) u s (needs u).1 (needs u).2 = Ok cd →
    rule (reeval (needs u).1 (needs u).2 <$> states) i →
    placed rule stuck (consume_at unicode_lower cx (needs u).1 (needs u).2 i (reeval (needs u).1 (needs u).2 <$> states)) us os fl →
    placed rule stuck states (u :: us) (mkOption cd (unit_ID u) (device_id (ds_device s)) :: os) fl.

Definition any_rule (states : list deviceState) (i : nat) : Prop := True.
Definition any_stuck (states : list deviceState) : Prop := True.

(** The best: no feasible position ranks before it. *)
Definition best_rule (states : list deviceState) (i : nat) : Prop :=
  cx_select cx = None → Forall (λ j, frontier_less states j i = false) (feasible_positions states).
Definition none_stuck (states : list deviceState) : Prop := cx_select cx = None → feasible_positions states = [].

Lemma evaluate_unit_ok e us u e' stop :
  engine_ok e → cached e us → canonical intent us → u ∈ us →
  evaluate_unit unicode_quote unicode_lower cx e u = Ok (e', stop) →
  let states := reeval (needs u).1 (needs u).2 <$> eg_states e in
  if stop then none_stuck states ∧ re_Selected (eg_result e') = re_Selected (eg_result e) ∧ FailureUnit (eg_result e') = unit_ID u
  else engine_ok e' ∧ cached e' us ∧ FailureUnit (eg_result e') = FailureUnit (eg_result e) ∧
    ∃ i s cd, states !! i = Some s ∧ feasible (ds_evaluation s) = true ∧
      materializeCandidate unicode_quote (cx_callbacks cx) u s (needs u).1 (needs u).2 = Ok cd ∧ best_rule states i ∧
      eg_states e' = consume_at unicode_lower cx (needs u).1 (needs u).2 i states ∧
      re_Selected (eg_result e') = re_Selected (eg_result e) ++ [mkOption cd (unit_ID u) (device_id (ds_device s))].
Proof.
  intros He Hc Hcan Hu. unfold evaluate_unit. pose proof (refresh_ok e us u He Hc Hcan Hu) as Hr.
  destruct (needs u) as [r c] eqn:Hneeds. cbn [fst snd] in *.
  destruct (refresh unicode_lower cx e r c) as [e1 f]. destruct Hr as (Hst & Hfo & Hn & Hev & Hcol & Hres).
  assert (Hfr : fresh (eg_states e1) r c) by (rewrite Hst; apply reeval_fresh).
  intros ([sel f'] & Hch & H)%bind_Ok. cbn [eg_states set_field] in Hch.
  pose proof (choose_ok u r c (eg_states e1) f sel f' Hfr Hfo Hch) as Hsel.
  destruct (sl_choice sel) as [[i cd]|].
  - destruct Hsel as (Hh & Hperm & (s & Hs & Hmat) & Hbest). cbn -[heap_Push consume_at] in H. rewrite Hs in H.
    apply bind_Ok in H as (col & _ & [= <- <-]). cbn -[heap_Push consume_at].
    set (states' := consume_at unicode_lower cx r c i (eg_states e1)).
    assert (Hfr' : fresh states' r c) by (by apply fresh_consume).
    assert (Hfs : feasible (ds_evaluation s) = true).
    { assert (i ∈ feasible_positions (eg_states e1)) as Hi by (rewrite <-Hperm; by left).
      apply feasible_positions_iff in Hi. unfold feasible_at in Hi. by rewrite Hs in Hi. }
    pose proof (push_all_ok (eg_states e1) f' (sl_others sel) (fresh_numbers _ _ _ Hfr) Hh) as [Hh2 Hp2].
    pose proof (frontier_ok_alter (eg_states e1) _ i _ _ (fresh_numbers _ _ _ Hfr') (symmetry Hperm) Hh2 Hp2) as Hfo'.
    cbv zeta in Hfo'. fold (consume_at unicode_lower cx r c i (eg_states e1)) in Hfo'. fold states' in Hfo'.
    assert (Hlen : length f = S (length (sl_others sel ++ f'))).
    { destruct Hfo as [_ ->]. by rewrite <-Hperm. }
    split; [|split; [|split; [by rewrite Hres|]]].
    + split; cbn -[heap_Push consume_at].
      * unfold states'. rewrite consume_ids, Hst, reeval_ids. apply He.
      * intros g [= <-]. injection Hev as -> ->. split; [done|]. split; [exact Hfo'|].
        fold (feasible_at states' i). destruct (feasible_at states' i).
        -- rewrite (Permutation_length (heap_Push_perm _ _ _)). simpl. rewrite Hp2, Hn, Hlen. lia.
        -- rewrite Hp2, Hn, Hlen. lia.
    + right. exists u. split; [done|]. rewrite Hneeds; symmetry; exact Hev.
    + exists i, s, cd. rewrite <-Hst, Hres. split_and!; try done. intros Hnone. destruct (Hbest Hnone) as [Ho Hall].
      rewrite <-Hperm, Ho. constructor; [|done]. pose proof (frontier_less_sw _ (fresh_numbers _ _ _ Hfr)). by apply sw_irrefl.
  - apply bind_Ok in H as (col & _ & [= <- <-]). cbn. rewrite <-Hst, Hres. by split_and!.
Qed.

Lemma evaluate_units_placed e U us e' :
  engine_ok e → cached e U → canonical intent U → us ⊆ U →
  evaluate_units unicode_quote unicode_lower cx e us = Ok e' →
  ∃ os fl, placed best_rule none_stuck (eg_states e) us os fl ∧
    re_Selected (eg_result e') = re_Selected (eg_result e) ++ os ∧
    FailureUnit (eg_result e') = default (FailureUnit (eg_result e)) fl.
Proof.
  intros He Hc Hcan. revert e He Hc. induction us as [|u us IH]; intros e He Hc Hsub H.
  - injection H as <-. exists [], None. rewrite app_nil_r. split_and!; try done. constructor.
  - cbn [evaluate_units] in H. apply bind_Ok in H as ([e1 stop] & Hu & H).
    pose proof (evaluate_unit_ok e U u e1 stop He Hc Hcan ltac:(set_solver) Hu) as Hok. cbn [fst snd] in H.
    destruct stop.
    + injection H as <-. destruct Hok as (Hstuck & Hs & Hfu). exists [], (Some (unit_ID u)). rewrite app_nil_r.
      split_and!; [by constructor|done|done].
    + destruct Hok as (He1 & Hc1 & Hfu & i & s & cd & Hi & Hf & Hmat & Hb & Hst & Hsel).
      destruct (IH e1 He1 Hc1 ltac:(set_solver) H) as (os & fl & Hp & Hs2 & Hfu2).
      exists (mkOption cd (unit_ID u) (device_id (ds_device s)) :: os), fl. split_and!.
      * econstructor; [done|done|done|done|]. by rewrite <-Hst.
      * by rewrite Hs2, Hsel, <-app_assoc.
      * by rewrite Hfu2, Hfu.
Qed.

(** *** Placements fit *)

(** The amounts of a state are machine integers. *)
Definition amounts_ok (s : deviceState) : Prop :=
  rv_ok (dr_allocatable (ds_resources s)) ∧ rv_ok (dr_used (ds_resources s)) ∧ rv_ok (dr_capacity (ds_resources s)).

Definition request_ok (r : option ResourceVector) : Prop := ∀ q, r = Some q → rv_ok q.
Definition amount (proj : ResourceVector → Z) (r : option ResourceVector) : Z := from_option proj 0 r.

Lemma SumFits_le proj u r c :
  proj ∈ integer_resources → SumFits (Some u) r (Some c) = true → proj u + amount proj r ≤ proj c.
Proof.
  intros Hp H. replace (amount proj r) with (proj (default zero_resources r)) by (destruct r; [done|]; revert proj Hp; by apply integer_cases).
  unfold SumFits, uintSumFits in H. change (default zero_resources (Some u)) with u in H. bool_props.
  revert proj Hp. apply integer_cases; cbv beta; lia.
Qed.

Lemma LessOrEqual_le proj r a :
  proj ∈ integer_resources → 0 ≤ proj a → ResourceLessOrEqual r (Some a) = true → amount proj r ≤ proj a.
Proof.
  intros Hp Ha H. destruct r as [q|]; [|done]. unfold ResourceLessOrEqual in H. cbn [from_option] in H.
  destruct (bad_accelerators q); [done|]. destruct (bad_accelerators a); [done|]. bool_props. cbn [amount from_option].
  clear Ha. revert proj Hp. by apply integer_cases.
Qed.

Lemma saturating_exact u v w : v ≤ w - u → w < two64 → saturatingUintAdd u v = u + v.
Proof. intros ??. unfold saturatingUintAdd. destruct (Z.ltb_spec (max_uint64 - u) v); [|done]. unfold max_uint64, two64 in *. lia. Qed.

Lemma consume_amounts s r proj :
  amounts_ok s → request_ok r → proj ∈ integer_resources →
  ResourceLessOrEqual r (Some (dr_allocatable (ds_resources s))) = true →
  SumFits (Some (dr_used (ds_resources s))) r (Some (dr_capacity (ds_resources s))) = true →
  let d := ds_resources s in let d' := consume d r in
  proj (dr_allocatable d') = proj (dr_allocatable d) - amount proj r ∧ proj (dr_used d') = proj (dr_used d) + amount proj r ∧
  proj (dr_capacity d') = proj (dr_capacity d) ∧
  0 ≤ amount proj r ≤ proj (dr_allocatable d) ∧ proj (dr_used d) + amount proj r ≤ proj (dr_capacity d).
Proof.
  intros (Ha & Hu & Hc) Hr Hp Hle Hsum. cbv zeta. pose proof (SumFits_le proj _ _ _ Hp Hsum) as Hs.
  specialize (Ha proj Hp). specialize (Hu proj Hp). specialize (Hc proj Hp). unfold is_u64 in *.
  pose proof (LessOrEqual_le proj r (dr_allocatable (ds_resources s)) Hp ltac:(lia) Hle) as Hl.
  destruct r as [q|]; cbn [consume amount from_option]; [|change (amount proj None) with 0 in *; split_and!; lia].
  specialize (Hr q eq_refl proj Hp). unfold is_u64 in Hr. cbn [amount from_option] in Hs, Hl.
  split; [|split; [|split; [done|lia]]].
  - assert (E : wrap64 (proj (dr_allocatable (ds_resources s)) - proj q) = proj (dr_allocatable (ds_resources s)) - proj q)
      by (apply wrap64_id; unfold is_u64; lia).
    clear -Hp E. revert proj Hp E. by refine (integer_cases _ _ _ _ _).
  - assert (E : saturatingUintAdd (proj (dr_used (ds_resources s))) (proj q) = proj (dr_used (ds_resources s)) + proj q)
      by (apply (saturating_exact _ _ (proj (dr_capacity (ds_resources s)))); lia).
    clear -Hp E. revert proj Hp E. by refine (integer_cases _ _ _ _ _).
Qed.

Lemma consume_ok s r :
  amounts_ok s → request_ok r → ResourceLessOrEqual r (Some (dr_allocatable (ds_resources s))) = true →
  SumFits (Some (dr_used (ds_resources s))) r (Some (dr_capacity (ds_resources s))) = true →
  amounts_ok (s <| ds_resources := consume (ds_resources s) r |>).
Proof.
  intros Hs Hr Hle Hsum. destruct Hs as (Ha & Hu & Hc).
  split_and!; intros proj Hp; pose proof (consume_amounts s r proj (conj Ha (conj Hu Hc)) Hr Hp Hle Hsum) as Hca; cbv zeta in Hca;
    specialize (Ha proj Hp); specialize (Hu proj Hp); specialize (Hc proj Hp); unfold is_u64 in *;
    cbn [ds_resources set_field]; cbn -[consume]; lia.
Qed.

Lemma load_absent proj id us os : id ∉ op_DeviceID <$> os → load proj id (placements intent us os) = 0.
Proof.
  revert us. induction os as [|o os IH]; intros [|u us] Hout; try done. unfold placements. cbn [zip_with]. rewrite load_cons.
  fold (placements intent us os). rewrite fmap_cons, not_elem_of_cons in Hout. destruct Hout as [Hne Hout]. rewrite IH by done.
  unfold load1. rewrite decide_False; [done|]. cbn. intros [= E]. by apply Hne.
Qed.

Lemma placed_fits rule stuck states us os fl :
  placed rule stuck states us os fl → NoDup (state_ids states) → Forall amounts_ok states →
  Forall (λ u, request_ok (needs u).1) us →
  op_UnitID <$> os = take (length os) (unit_ID <$> us) ∧
  ∀ s proj, s ∈ states → proj ∈ integer_resources →
    load proj (device_id (ds_device s)) (placements intent us os) ≤ proj (dr_allocatable (ds_resources s)) ∧
    (device_id (ds_device s) ∈ op_DeviceID <$> os →
      proj (dr_used (ds_resources s)) + load proj (device_id (ds_device s)) (placements intent us os) ≤ proj (dr_capacity (ds_resources s))).
Proof.
  assert (Hnone : ∀ states, Forall amounts_ok states → ∀ s proj, s ∈ states → proj ∈ integer_resources → 0 ≤ proj (dr_allocatable (ds_resources s))).
  { intros st Hst s proj Hs Hp. rewrite Forall_forall in Hst. destruct (Hst s Hs) as (Ha & _). specialize (Ha proj Hp). unfold is_u64 in Ha. lia. }
  induction 1 as [states|states u us Hst|states u us i s cd os fl Hi Hf Hmat Hrule Hpl IH]; intros Hnd Hok Hreq.
  - split; [done|]. intros s proj Hs Hp. split; [by eapply Hnone|]. intros []%elem_of_nil.
  - split; [done|]. intros s proj Hs Hp. split; [by eapply Hnone|]. intros []%elem_of_nil.
  - apply Forall_cons_1 in Hreq as [Hr Hreq]. set (r := (needs u).1) in *. set (c := (needs u).2) in *.
    set (st := reeval r c <$> states) in *.
    assert (Hok' : Forall amounts_ok st) by (apply Forall_fmap; exact Hok).
    assert (Hsok : amounts_ok s) by (by eapply Forall_lookup_1 in Hok').
    assert (Heval : ds_evaluation s = evaluatePair intent (ds_device s) (ds_resources s) r c (cx_decision cx)).
    { pose proof (reeval_fresh states r c) as Hfr. by eapply Forall_lookup_1 in Hfr. }
    rewrite Heval in Hf. apply evaluatePair_fits in Hf as [Hle Hsum].
    destruct IH as [IH1 IH2].
    { rewrite consume_ids. unfold st. by rewrite reeval_ids. }
    { unfold consume_at. apply Forall_alter; [done|]. intros s' Hs' _. rewrite Hi in Hs'. injection Hs' as <-.
      exact (consume_ok s r Hsok Hr Hle Hsum). }
    { done. }
    split; [cbn; by rewrite IH1|]. intros x proj Hx Hp. unfold placements. cbn [zip_with]. rewrite load_cons.
    fold (placements intent us os). cbn [op_DeviceID]. unfold load1. cbn [fst snd].
    (* the state of [x] among the evaluated ones *)
    apply list_elem_of_lookup in Hx as [k Hk]. assert (Hk' : st !! k = Some (reeval r c x)) by (unfold st; by rewrite list_lookup_fmap, Hk).
    destruct (decide (k = i)) as [->|Hne].
    + rewrite Hi in Hk'. injection Hk' as ->. rewrite decide_True by done.
      pose proof (consume_amounts (reeval r c x) r proj Hsok Hr Hp Hle Hsum) as Hca. cbv zeta in Hca. cbn [ds_resources reeval reevaluate set_field] in Hca.
      set (x' := reeval r c (reeval r c x <| ds_resources := consume (ds_resources (reeval r c x)) r |>)).
      assert (Hx' : x' ∈ consume_at unicode_lower cx r c i st).
      { apply list_elem_of_lookup. exists i. unfold consume_at. by rewrite list_lookup_alter_eq, Hi. }
      specialize (IH2 x' proj Hx' Hp). cbn -[consume load placements] in IH2. unfold amount in Hca. cbn -[consume load placements]. cbn -[consume] in Hca.
      change (needs u).1 with r. split; [lia|]. intros _. destruct IH2 as [IH2 IH3]. destruct Hca as (Q1 & Q2 & Q3 & Q4 & Q5).
      destruct (decide (device_id (ds_device x) ∈ op_DeviceID <$> os)) as [Hin|Hout]; [specialize (IH3 Hin); lia|].
      rewrite load_absent by done. lia.
    + assert (Hids : device_id (ds_device x) ≠ device_id (ds_device s)).
      { intros E. apply Hne. eapply NoDup_lookup; [exact Hnd| |]; unfold state_ids; rewrite list_lookup_fmap.
        - by rewrite Hk.
        - assert (∃ y, states !! i = Some y ∧ ds_device y = ds_device s) as (y & -> & Hy).
          { unfold st in Hi. rewrite list_lookup_fmap in Hi. destruct (states !! i) as [y|]; [|done]. injection Hi as <-. by exists y. }
          cbn. by rewrite Hy, E. }
      rewrite decide_False by congruence.
      assert (Hx' : reeval r c x ∈ consume_at unicode_lower cx r c i st).
      { apply list_elem_of_lookup. exists k. unfold consume_at. by rewrite list_lookup_alter_ne. }
      specialize (IH2 _ proj Hx' Hp). cbn -[load placements] in IH2. split; [lia|]. intros Hin.
      rewrite fmap_cons, elem_of_cons in Hin. destruct Hin as [E|Hin]; [done|]. destruct IH2 as [_ IH2]. specialize (IH2 Hin). lia.
Qed.

(** *** The reference *)

(** The best of the feasible positions, by one pass over them. *)
Definition best_position (states : list deviceState) : option nat :=
  foldl (λ acc i, match acc with Some j => if frontier_less states i j then Some i else Some j | None => Some i end) None
    (feasible_positions states).

(** Scheduling without heap, cache or evidence: for each unit evaluate every device anew
    and take the best feasible one. *)
Fixpoint reference (states : list deviceState) (us : list Unit) : list (string * string) * option string :=
  match us with
  | [] => ([], None)
  | u :: us =>
      let states := reeval (needs u).1 (needs u).2 <$> states in
      match best_position states with
      | None => ([], Some (unit_ID u))
      | Some i =>
          let rest := reference (consume_at unicode_lower cx (needs u).1 (needs u).2 i states) us in
          ((unit_ID u, from_option (λ s, device_id (ds_device s)) "" (states !! i)) :: rest.1, rest.2)
      end
  end.

Lemma best_from_spec states l acc :
  Forall number_at states →
  let best := foldl (λ acc i, match acc with Some j => if frontier_less states i j then Some i else Some j | None => Some i end) acc l in
  match best with
  | Some b => (b ∈ l ∨ acc = Some b) ∧ Forall (λ j, frontier_less states j b = false) l ∧
              (∀ j, acc = Some j → frontier_less states j b = false)
  | None => l = [] ∧ acc = None
  end.
Proof.
  intros Hn. pose proof (frontier_less_sw states Hn) as Hsw. revert acc. induction l as [|i l IH]; intros acc; simpl.
  - destruct acc as [b|]; [|done]. split_and!; [by right|done|]. intros j [= <-]. by apply sw_irrefl.
  - specialize (IH (match acc with Some j => if frontier_less states i j then Some i else Some j | None => Some i end)).
    destruct (foldl _ _ l) as [b|].
    + destruct IH as (H1 & H2 & H3). destruct acc as [j|].
      * destruct (frontier_less states i j) eqn:Hij.
        -- specialize (H3 i eq_refl). split_and!; [set_solver|by constructor|].
           intros ? [= <-]. eapply sw_neg_trans; [exact H3|]. by apply sw_asym.
        -- specialize (H3 j eq_refl). split_and!; [set_solver| |by intros ? [= <-]]. constructor; [|done].
           by eapply sw_neg_trans.
      * specialize (H3 i eq_refl). split_and!; [set_solver|by constructor|done].
    + destruct IH as [_ IH]. destruct acc as [j|]; [destruct (frontier_less states i j)|]; done.
Qed.

Lemma best_position_unique states i :
  Forall number_at states → NoDup (state_ids states) → feasible_at states i = true →
  Forall (λ j, frontier_less states j i = false) (feasible_positions states) → best_position states = Some i.
Proof.
  intros Hn Hnd Hi Hleast. pose proof (best_from_spec states (feasible_positions states) None Hn) as Hb. cbv zeta in Hb.
  fold (best_position states) in Hb. apply feasible_positions_iff in Hi as Hi'. destruct (best_position states) as [b|].
  - destruct Hb as ([Hb|?] & Hall & _); [|done]. f_equal. rewrite Forall_forall in Hleast, Hall.
    apply (frontier_tie states); [done| | |by apply Hleast|by apply Hall].
    + apply feasible_positions_iff in Hb. unfold feasible_at in Hb. by destruct (states !! b).
    + unfold feasible_at in Hi. by destruct (states !! i).
  - destruct Hb as [Hb _]. rewrite Hb in Hi'. by apply elem_of_nil in Hi'.
Qed.

Lemma placed_reference states us os fl :
  cx_select cx = None → NoDup (state_ids states) → placed best_rule none_stuck states us os fl →
  reference states us = ((λ o, (op_UnitID o, op_DeviceID o)) <$> os, fl).
Proof.
  intros Hsel Hnd H. induction H as [states|states u us Hst|states u us i s cd os fl Hi Hf Hmat Hrule Hpl IH]; cbn [reference]; [done| |].
  - unfold best_position. by rewrite (Hst Hsel).
  - pose proof (fresh_numbers _ _ _ (reeval_fresh states (needs u).1 (needs u).2)) as Hn.
    rewrite (best_position_unique _ i Hn); [|by rewrite reeval_ids|by unfold feasible_at; rewrite Hi|by apply Hrule].
    rewrite Hi, IH by (by rewrite consume_ids, reeval_ids). done.
Qed.

(** *** Nothing fails without an injected factory *)

Record plain : Prop := {
  pl_select : cx_select cx = None;
  pl_factory : cb_factory (cx_callbacks cx) = None;
  pl_id : ∀ a b, cb_id (cx_callbacks cx) a b ≠ "";
}.

Lemma materialize_total u s r c : plain → ∃ cd, materializeCandidate unicode_quote (cx_callbacks cx) u s r c = Ok cd.
Proof.
  intros Hp. unfold materializeCandidate, candidateID_for. rewrite (pl_factory Hp), bool_decide_false by apply (pl_id Hp). cbn.
  eexists. unfold validateCandidatePlan. cbn. by rewrite !bool_decide_true.
Qed.

Lemma collect_total u r c retain index states col m :
  plain → (m = None → retain = false ∨ Forall (λ s, feasible (ds_evaluation s) = false) states) →
  ∃ col', collect_states unicode_quote (cx_callbacks cx) u r c retain index states col m = Ok col'.
Proof.
  intros Hp. revert index col m. induction states as [|s states IH]; intros index col m Hm; cbn [collect_states]; [eauto|].
  assert (Hm' : m = None → retain = false ∨ Forall (λ s, feasible (ds_evaluation s) = false) states).
  { intros E. destruct (Hm E) as [?|Hall]; [by left|]. right. by apply Forall_cons_1 in Hall as [_ ?]. }
  destruct (negb _); [eauto|]. destruct (feasible (ds_evaluation s)) eqn:Hf.
  - destruct retain; cbn [negb]; [|by apply IH]. destruct (materialized_at m index) as [cd|]; [by apply IH|].
    destruct (materialize_total u s r c Hp) as [cd ->]. cbn [mbind Result_bind]. destruct m as [known|]; [by apply IH|].
    destruct (Hm eq_refl) as [|Hall]; [done|]. apply Forall_cons_1 in Hall as [Hall _]. congruence.
  - unfold candidateID_for. rewrite bool_decide_false by apply (pl_id Hp). cbn [mbind Result_bind]. by apply IH.
Qed.

Lemma record_total e u r c col m :
  plain → (m = None → cx_retain cx = false ∨ Forall (λ s, feasible (ds_evaluation s) = false) (eg_states e)) →
  ∃ col', record_evidence unicode_quote cx e u r c col m = Ok col'.
Proof.
  intros Hp Hm. unfold record_evidence. destruct (_ || _); [|eauto]. by apply collect_total.
Qed.

Lemma infeasible_states states : feasible_positions states = [] → Forall (λ s, feasible (ds_evaluation s) = false) states.
Proof.
  intros H. apply Forall_lookup_2. intros i s Hs. destruct (feasible (ds_evaluation s)) eqn:Hf; [|done].
  assert (i ∈ feasible_positions states) as Hi by (apply feasible_positions_iff; unfold feasible_at; by rewrite Hs).
  rewrite H in Hi. by apply elem_of_nil in Hi.
Qed.

Lemma evaluate_unit_total e us u :
  plain → engine_ok e → cached e us → canonical intent us → u ∈ us → ∃ p, evaluate_unit unicode_quote unicode_lower cx e u = Ok p.
Proof.
  intros Hp He Hc Hcan Hu. unfold evaluate_unit. pose proof (refresh_ok e us u He Hc Hcan Hu) as Hr.
  destruct (needs u) as [r c] eqn:Hneeds. cbn [fst snd] in *.
  destruct (refresh unicode_lower cx e r c) as [e1 f]. destruct Hr as (Hst & Hfo & Hn & Hev & Hcol & Hres).
  assert (Hfr : fresh (eg_states e1) r c) by (rewrite Hst; apply reeval_fresh).
  cbn -[choose heap_Push consume_at record_evidence].
  set (e2 := mkEngine _ _ _ _ _ _ _). unfold choose. rewrite (pl_select Hp).
  destruct f as [|i0 f0] eqn:Ef.
  - cbn -[record_evidence]. destruct (record_total e2 u r c (eg_collector e1) None Hp) as [col ->]; [|cbn; eauto].
    intros _. right. apply infeasible_states. destruct Hfo as [_ Hperm]. symmetry. by apply Permutation_nil_l.
  - rewrite <-Ef in *. destruct Hfo as [Hh Hperm]. pose proof (frontier_less_sw _ (fresh_numbers _ _ _ Hfr)) as Hsw.
    destruct (heap_Pop_spec (frontier_less (eg_states e1)) f Hh) as (i & rest & Hpop & Hpp & _); [by rewrite Ef|].
    assert (Hi : feasible_at (eg_states e1) i = true) by (apply feasible_positions_iff; rewrite <-Hperm, <-Hpp; by left).
    unfold feasible_at in Hi. destruct (eg_states e1 !! i) as [s|] eqn:Hs; [|done].
    destruct (materialize_total u s r c Hp) as [cd Hcd]. cbn [shortlist]. rewrite Hpop, Hs, Hcd. cbn -[record_evidence heap_Push consume_at].
    rewrite Hs.
    match goal with |- context [record_evidence ?q ?cx ?e ?u ?r ?c ?col ?m] => destruct (record_total e u r c col m Hp) as [col' ->] end;
      [|cbn -[heap_Push consume_at]; eauto].
    intros Hm. left. by destruct (cx_retain cx).
Qed.

Lemma evaluate_units_total e U us :
  plain → engine_ok e → cached e U → canonical intent U → us ⊆ U → ∃ e', evaluate_units unicode_quote unicode_lower cx e us = Ok e'.
Proof.
  intros Hp He Hc Hcan. revert e He Hc. induction us as [|u us IH]; intros e He Hc Hsub; [cbn; eauto|]. cbn [evaluate_units].
  destruct (evaluate_unit_total e U u Hp He Hc Hcan ltac:(set_solver)) as [[e1 stop] Hu]. rewrite Hu. cbn.
  pose proof (evaluate_unit_ok e U u e1 stop He Hc Hcan ltac:(set_solver) Hu) as Hok. cbv zeta in Hok.
  destruct stop; [eauto|]. destruct Hok as (He1 & Hc1 & _). apply IH; [done|done|set_solver].
Qed.

End Loop.
End Engine.
