(* ===== verification/CandidateResults.v ===== *)
(** * The candidate engine: what [Evaluate] returns

    The selection of a whole request: it never over-commits a device, it is what
    scheduling without heap, cache and evidence selects, it does not depend on the
    order of its inputs, and its evidence is bounded and names every selection. *)

From Stdlib Require Import ZArith Lia.
From S2P Require Import Prelude GoStrings GoTime GoFloat GoHeap ClusterModel SchedulerState Mutation Preemption Reservation ReservationProofs Transaction Intents Constraints Candidates CandidateEngine CandidateProofs.
From stdpp Require Import options.

Local Open Scope Z_scope.

(** ** The ledger of the devices *)

Lemma charge_allocations_device reclaimed (P : Device → Prop) states als states' :
  charge_allocations reclaimed states als = Some states' → ds_device <$> states' = ds_device <$> states.
Proof.
  assert (Hon : ∀ id f (l : list deviceState), ds_device <$> (on_device id f <$> l) = ds_device <$> l).
  { intros id f l. rewrite <-list_fmap_compose. apply list_fmap_ext. intros i s _. unfold on_device. cbn. by case_decide. }
  revert states. induction als as [|a als IH]; intros states; cbn [charge_allocations]; [by intros [= <-]|].
  intros (st & Ha & H)%bind_Some. rewrite (IH st H). revert Ha. unfold charge_allocation.
  destruct (negb _); [by intros [= <-]|]. case_bool_decide.
  - intros (id & _ & [= <-])%bind_Some. apply Hon.
  - intros [= <-]. generalize (al_device_ids a). intros ids. clear -Hon. revert states.
    induction ids as [|id ids IH]; intros states; cbn [foldl]; [done|]. by rewrite IH, Hon.
Qed.

Lemma buildDeviceStates_devices als ds reclaimed states :
  buildDeviceStates als ds reclaimed = Some states → ds_device <$> states = ds.
Proof.
  intros H. unfold buildDeviceStates in H. rewrite (charge_allocations_device _ (λ _, True) _ _ _ H), <-list_fmap_compose.
  by apply list_fmap_id.
Qed.

Definition occurrences (id : string) (ids : list string) : Z := Z.of_nat (length (filter (λ x, x = id) ids)).

(** What the live allocations that are not reclaimed occupy on a device, and what the
    reclaimed ones give back to it. *)
Definition occupied (proj : ResourceVector → Z) (reclaimed : gset string) (id : string) (als : list Allocation) : Z :=
  foldr (λ a acc, (if live_state (al_state a) && negb (bool_decide (allocation_id a ∈ reclaimed))
                   then occurrences id (al_device_ids a) * amount proj (al_resources a) else 0) + acc) 0 als.

Definition returned (proj : ResourceVector → Z) (reclaimed : gset string) (id : string) (als : list Allocation) : Z :=
  foldr (λ a acc, (if live_state (al_state a) && bool_decide (allocation_id a ∈ reclaimed) &&
                      bool_decide (head (al_device_ids a) = Some id)
                   then amount proj (al_resources a) else 0) + acc) 0 als.

Arguments occupied : simpl never.
Arguments returned : simpl never.

Lemma occupied_perm proj reclaimed id als als' : als ≡ₚ als' → occupied proj reclaimed id als = occupied proj reclaimed id als'.
Proof. unfold occupied. induction 1; cbn [foldr]; lia. Qed.
Lemma returned_perm proj reclaimed id als als' : als ≡ₚ als' → returned proj reclaimed id als = returned proj reclaimed id als'.
Proof. unfold returned. induction 1; cbn [foldr]; lia. Qed.

(** A state on which [used] is occupied and to which at most [back] was returned. *)
Definition ledger_ok (proj : ResourceVector → Z) (s : deviceState) (used back : Z) : Prop :=
  proj (dr_capacity (ds_resources s)) = proj (default zero_resources (capacity (ds_device s))) ∧
  is_u64 (proj (dr_allocatable (ds_resources s))) ∧ is_u64 (proj (dr_used (ds_resources s))) ∧
  is_u64 (proj (dr_capacity (ds_resources s))) ∧
  proj (dr_allocatable (ds_resources s)) ≤ proj (default zero_resources (allocatable (ds_device s))) + back ∧
  (overcommitted (ds_resources s) = false → proj (dr_used (ds_resources s)) = used).

Lemma accumulate_proj proj t v :
  proj ∈ integer_resources → is_u64 (proj t) → request_ok v → is_u64 (proj (accumulate t v)) ∧
  (proj t + amount proj v < two64 → proj (accumulate t v) = proj t + amount proj v).
Proof.
  intros Hp Ht Hv. destruct v as [q|]; cbn [accumulate amount from_option]; [|split; [done|lia]].
  specialize (Hv q eq_refl proj Hp). revert proj Hp Ht Hv. refine (integer_cases _ _ _ _ _); cbn;
    unfold saturatingUintAdd, is_u64, two64, max_uint64; intros;
    match goal with |- context [Z.ltb ?a ?b] => destruct (Z.ltb_spec a b) end; split; intros; lia.
Qed.

Lemma charge_ok proj a s used back :
  proj ∈ integer_resources → request_ok (al_resources a) → ledger_ok proj s used back →
  ledger_ok proj (s <| ds_resources := charge a (ds_resources s) |>) (used + amount proj (al_resources a)) back.
Proof.
  intros Hp Ha (Hc & Hal & Hus & Hcu & Hle & Hu). unfold ledger_ok. cbn -[accumulate SumFits AcceleratorShareFits].
  destruct (accumulate_proj proj (dr_used (ds_resources s)) (al_resources a) Hp Hus Ha) as [H1 H2].
  split_and!; try done. intros Ho. bool_props. pose proof (SumFits_le proj _ _ _ Hp ltac:(eassumption)) as Hs.
  rewrite H2, Hu by (done || unfold is_u64 in *; lia). done.
Qed.

Lemma give_back_ok proj a s used back :
  proj ∈ integer_resources → request_ok (al_resources a) → ledger_ok proj s used back →
  ledger_ok proj (s <| ds_resources := give_back a (ds_resources s) |>) used (back + amount proj (al_resources a)).
Proof.
  intros Hp Ha (Hc & Hal & Hus & Hcu & Hle & Hu). unfold give_back, ledger_ok.
  destruct (al_resources a) as [v|]; cbn [amount from_option]; [|destruct s; cbn in *; split_and!; try done; lia].
  cbn -[addResourcesCapped]. rewrite add_proj by done. specialize (Ha v eq_refl proj Hp). unfold cappedAdd, is_u64 in *.
  split_and!; try done; try lia; destruct (Z.leb_spec (proj (dr_capacity (ds_resources s))) (proj (dr_allocatable (ds_resources s))));
    cbn [orb]; try lia; destruct (Z.ltb_spec (proj (dr_capacity (ds_resources s)) - proj (dr_allocatable (ds_resources s))) (proj v)); lia.
Qed.

Lemma on_device_ids id f s : device_id (ds_device (on_device id f s)) = device_id (ds_device s).
Proof. unfold on_device. by case_decide. Qed.

Lemma on_device_ok proj id f s used back used' back' :
  ledger_ok proj s used back →
  (device_id (ds_device s) = id → ledger_ok proj (s <| ds_resources := f (ds_resources s) |>) used' back') →
  (device_id (ds_device s) ≠ id → used' = used ∧ back' = back) → ledger_ok proj (on_device id f s) used' back'.
Proof. intros H1 H2 H3. unfold on_device. case_decide as E; [by apply H2|]. by destruct (H3 E) as [-> ->]. Qed.

(** The ledger of a device after a list of allocations. *)
Lemma charge_each_ok proj a ids states (used : string → Z) back :
  proj ∈ integer_resources → request_ok (al_resources a) →
  Forall (λ s, ledger_ok proj s (used (device_id (ds_device s))) (back (device_id (ds_device s)))) states →
  Forall (λ s, ledger_ok proj s (used (device_id (ds_device s)) + occurrences (device_id (ds_device s)) ids * amount proj (al_resources a))
                 (back (device_id (ds_device s))))
    (foldl (λ states id, on_device id (charge a) <$> states) states ids).
Proof.
  intros Hp Ha. revert states used. induction ids as [|id ids IH]; intros states used Hst; cbn [foldl].
  - eapply Forall_impl; [exact Hst|]. intros s Hs. unfold occurrences. cbn. by rewrite Z.add_0_r.
  - eapply Forall_impl.
    + apply (IH _ (λ i, used i + (if decide (i = id) then amount proj (al_resources a) else 0))).
      apply Forall_fmap. eapply Forall_impl; [exact Hst|]. intros s Hs. cbn beta in Hs |- *. cbv [compose]. rewrite on_device_ids.
      eapply on_device_ok; [exact Hs|intros E; rewrite decide_True by done; by apply charge_ok|].
      intros E. rewrite decide_False by done. lia.
    + intros s Hs. cbn beta in Hs. unfold occurrences in *. rewrite filter_cons. destruct (decide (device_id (ds_device s) = id)) as [E|E].
      * rewrite (decide_True (P := id = _)) by done. cbn [length].
        replace (used _ + _) with (used (device_id (ds_device s)) + amount proj (al_resources a) +
          Z.of_nat (length (filter (λ x, x = device_id (ds_device s)) ids)) * amount proj (al_resources a)) by lia. done.
      * rewrite (decide_False (P := id = _)) by done. by rewrite Z.add_0_r in Hs.
Qed.

Lemma charge_allocations_ok proj reclaimed als states states' (used back : string → Z) :
  proj ∈ integer_resources → Forall (λ a, request_ok (al_resources a)) als →
  Forall (λ s, ledger_ok proj s (used (device_id (ds_device s))) (back (device_id (ds_device s)))) states →
  charge_allocations reclaimed states als = Some states' →
  Forall (λ s, ledger_ok proj s (used (device_id (ds_device s)) + occupied proj reclaimed (device_id (ds_device s)) als)
                 (back (device_id (ds_device s)) + returned proj reclaimed (device_id (ds_device s)) als)) states'.
Proof.
  intros Hp Hals. revert states used back. induction Hals as [|a als Ha Hals IH]; intros states used back Hst; cbn [charge_allocations].
  - intros [= <-]. eapply Forall_impl; [exact Hst|]. intros s Hs. unfold occupied, returned. cbn [foldr]. by rewrite !Z.add_0_r.
  - intros (st & Hc & H)%bind_Some. unfold charge_allocation in Hc.
    assert (Hgoal : ∀ used1 back1, Forall (λ s, ledger_ok proj s (used1 (device_id (ds_device s))) (back1 (device_id (ds_device s)))) st →
      (∀ id, used1 id = used id + (if live_state (al_state a) && negb (bool_decide (allocation_id a ∈ reclaimed))
                   then occurrences id (al_device_ids a) * amount proj (al_resources a) else 0)) →
      (∀ id, back1 id = back id + (if live_state (al_state a) && bool_decide (allocation_id a ∈ reclaimed) &&
                      bool_decide (head (al_device_ids a) = Some id) then amount proj (al_resources a) else 0)) →
      Forall (λ s, ledger_ok proj s (used (device_id (ds_device s)) + occupied proj reclaimed (device_id (ds_device s)) (a :: als))
                 (back (device_id (ds_device s)) + returned proj reclaimed (device_id (ds_device s)) (a :: als))) states').
    { intros used1 back1 H1 Hu Hb. eapply Forall_impl; [exact (IH st used1 back1 H1 H)|]. intros s Hs. cbn beta in Hs.
      rewrite Hu, Hb, <-!Z.add_assoc in Hs. exact Hs. }
    destruct (live_state (al_state a)) eqn:Hl; cbn [negb andb] in *.
    + case_bool_decide as Hr; cbn [negb andb] in *.
      * apply bind_Some in Hc as (id & Hid & [= <-]).
        apply (Hgoal used (λ i, back i + if bool_decide (head (al_device_ids a) = Some i) then amount proj (al_resources a) else 0)).
        -- apply Forall_fmap. eapply Forall_impl; [exact Hst|]. intros s Hs. cbn beta in Hs |- *. cbv [compose]. rewrite on_device_ids, Hid.
           eapply on_device_ok; [exact Hs|intros E; rewrite bool_decide_true by (by rewrite E); by apply give_back_ok|].
           intros E. rewrite bool_decide_false by congruence. lia.
        -- intros id'. lia.
        -- done.
      * injection Hc as <-. apply (Hgoal (λ i, used i + occurrences i (al_device_ids a) * amount proj (al_resources a)) back);
          [by eapply charge_each_ok|done|intros id'; lia].
    + injection Hc as <-. apply (Hgoal used back); [done|intros id'; lia..].
Qed.

Lemma buildDeviceStates_ok proj als ds reclaimed states :
  proj ∈ integer_resources → Forall (λ a, request_ok (al_resources a)) als →
  Forall (λ d, rv_ok (default zero_resources (capacity d)) ∧ rv_ok (default zero_resources (allocatable d))) ds →
  buildDeviceStates als ds reclaimed = Some states →
  Forall (λ s, ledger_ok proj s (occupied proj reclaimed (device_id (ds_device s)) als)
                 (returned proj reclaimed (device_id (ds_device s)) als)) states.
Proof.
  intros Hp Hals Hds H. unfold buildDeviceStates in H. set (sorted := sort_by _ als) in *.
  assert (Hperm : sorted ≡ₚ als) by apply sort_by_perm.
  eapply (charge_allocations_ok proj reclaimed sorted _ _ (λ _, 0) (λ _, 0)) in H.
  - eapply Forall_impl; [exact H|]. intros s Hs. cbn beta in Hs.
    by rewrite !Z.add_0_l, (occupied_perm _ _ _ _ _ Hperm), (returned_perm _ _ _ _ _ Hperm) in Hs.
  - done.
  - by rewrite Hperm.
  - apply Forall_fmap. eapply Forall_impl; [exact Hds|]. intros d [Hc Ha]. unfold ledger_ok. cbn.
    specialize (Hc proj Hp). specialize (Ha proj Hp). split_and!; try done; [by revert proj Hp Hc Ha; refine (integer_cases _ _ _ _ _)|lia|].
    intros _. by revert proj Hp Hc Ha; refine (integer_cases _ _ _ _ _).
Qed.

(** ** Normal forms *)

Lemma NoDup_fmap_inj {A B} (f : A → B) l x y : NoDup (f <$> l) → x ∈ l → y ∈ l → f x = f y → x = y.
Proof.
  intros Hnd [i Hi]%list_elem_of_lookup [j Hj]%list_elem_of_lookup E.
  assert (i = j) as -> by (eapply NoDup_lookup; [exact Hnd| |]; rewrite list_lookup_fmap; [by rewrite Hi|by rewrite Hj, E]).
  congruence.
Qed.

(** Sorting by a key no two elements share. *)
Lemma sort_by_key_unique {A} (key : A → string) l1 l2 :
  NoDup (key <$> l1) → l1 ≡ₚ l2 → sort_by (λ a b, str_ltb (key a) (key b)) l1 = sort_by (λ a b, str_ltb (key a) (key b)) l2.
Proof.
  intros Hnd Hp. apply sort_by_unique; [apply (key_less_sw str_ltb), _| |done].
  intros a b Ha Hb H1 H2. eapply NoDup_fmap_inj; [exact Hnd|done|done|by apply str_ltb_total].
Qed.

(** ** Evidence *)

Definition selected_count (es : list evidenceEntry) : nat := length (filter (λ e, en_selected e = true) es).

Lemma selected_count_app es es' : selected_count (es ++ es') = (selected_count es + selected_count es')%nat.
Proof. unfold selected_count. by rewrite filter_app, length_app. Qed.

Lemma last_unselected_spec n es :
  match last_unselected n es with
  | Some (i, e) => ∃ k, i = (n + k)%nat ∧ es !! k = Some e ∧ en_selected e = false
  | None => selected_count es = length es
  end.
Proof.
  revert n. induction es as [|e es IH]; intros n; cbn [last_unselected]; [done|]. specialize (IH (S n)).
  destruct (last_unselected (S n) es) as [[i e']|].
  - destruct IH as (k & -> & Hk & He). exists (S k). split_and!; [lia|done|done].
  - destruct (en_selected e) eqn:He.
    + change (e :: es) with ([e] ++ es). rewrite selected_count_app, IH. unfold selected_count. rewrite filter_cons, decide_True by done. done.
    + exists 0%nat. split_and!; [lia|done|done].
Qed.

Lemma selected_count_insert es i e e' :
  es !! i = Some e → en_selected e = false → (selected_count (<[i:=e']> es) ≤ S (selected_count es))%nat.
Proof.
  intros Hi He. assert (Hcons : ∀ x l, selected_count (x :: l) = ((if en_selected x then 1 else 0) + selected_count l)%nat).
  { intros x l. unfold selected_count. rewrite filter_cons. destruct (en_selected x) eqn:E; [by rewrite decide_True|by rewrite decide_False]. }
  assert (Hes : selected_count es = (selected_count (take i es) + selected_count (drop (S i) es))%nat).
  { rewrite <-(take_drop_middle _ _ _ Hi) at 1. by rewrite selected_count_app, Hcons, He. }
  rewrite (insert_take_drop _ i) by (by eapply lookup_lt_Some). rewrite selected_count_app, Hcons, Hes. destruct (en_selected e'); lia.
Qed.

(** The evidence after the units with the IDs [seen], of which [os] were selected. *)
Record evidence_ok (limit : Z) (seen : gset string) (os : list Option) (c : evidenceCollector) : Prop := {
  ev_budget : budget c = limit;
  ev_count : (selected_count (entries c) ≤ length os)%nat;
  ev_bound : Z.of_nat (length (entries c)) ≤ Z.max limit (Z.of_nat (length os));
  ev_seen : ∀ key i, candidates c !! key = Some i → key.1 ∈ seen;
  ev_chosen : ∀ o, o ∈ os → ∃ e, e ∈ entries c ∧ en_selected e = true ∧ en_candidate e = Some (op_Candidate o);
}.

Lemma evidence_ok_app limit seen os c e seen' candidates' :
  evidence_ok limit seen os c → hasRegularCapacity c = true → en_selected e = false → seen ⊆ seen' →
  (∀ key i, candidates' !! key = Some i → key.1 ∈ seen') →
  evidence_ok limit seen' os (c <| candidates := candidates' |> <| entries := entries c ++ [e] |>).
Proof.
  intros [H1 H2 H3 H4 H5] Hc He Hs Hcs. unfold hasRegularCapacity in Hc. bool_props. split; cbn -[selected_count]; [done| | |done|].
  - rewrite selected_count_app. unfold selected_count at 2. rewrite filter_cons, decide_False by congruence. cbn. lia.
  - rewrite length_app. cbn. lia.
  - intros o Ho. destruct (H5 o Ho) as (e' & Hin & ? & ?). exists e'. split; [|done]. set_solver.
Qed.

Lemma addCandidate_ok limit seen os c o :
  evidence_ok limit seen os c → op_UnitID o ∈ seen → evidence_ok limit seen os (addCandidate c o).
Proof.
  intros Hc Ho. unfold addCandidate. destruct (hasRegularCapacity c) eqn:Hr; [|done]. cbn [negb orb].
  case_bool_decide; [done|]. apply (evidence_ok_app _ seen); [done..|].
  intros key i [[<- _]|[_ Hk]]%lookup_insert_Some; [done|]. by eapply ev_seen.
Qed.

Lemma addRejection_ok limit seen os c u d r :
  evidence_ok limit seen os c → evidence_ok limit seen os (addRejection c u d r).
Proof.
  intros Hc. unfold addRejection. destruct (hasRegularCapacity c) eqn:Hr; [|done]. cbn [negb].
  pose proof (evidence_ok_app limit seen os c (mkEntry None (Some r) u d false) seen (candidates c) Hc Hr eq_refl ltac:(done) (ev_seen _ _ _ _ Hc)) as H.
  by destruct c.
Qed.

Lemma addSelected_ok limit seen os c o :
  evidence_ok limit seen os c → op_UnitID o ∉ seen → evidence_ok limit ({[op_UnitID o]} ∪ seen) (os ++ [o]) (addSelected c o).
Proof.
  intros [H1 H2 H3 H4 H5] Ho. unfold addSelected.
  destruct (candidates c !! option_key o) as [i|] eqn:Hk; [by apply H4 in Hk|].
  assert (Happ : selected_count (entries c) = length (entries c) ∨ Z.of_nat (length (entries c)) < limit →
    evidence_ok limit ({[op_UnitID o]} ∪ seen) (os ++ [o]) (append_entry c o true)).
  { intros Hroom. split; cbn -[selected_count]; [done|..].
    - rewrite selected_count_app, length_app. unfold selected_count at 2. rewrite filter_cons, decide_True by done. cbn. lia.
    - rewrite !length_app. cbn. lia.
    - intros key i [[<- _]|[_ Hi]]%lookup_insert_Some; [set_solver|]. apply H4 in Hi. set_solver.
    - intros o' [Ho'|Ho']%elem_of_app; [destruct (H5 o' Ho') as (e & ? & ?); exists e; set_solver|].
      apply list_elem_of_singleton in Ho' as ->. exists (entry_of o true). split_and!; [set_solver|done|done]. }
  destruct (hasRegularCapacity c) eqn:Hr; [apply Happ; right; unfold hasRegularCapacity in Hr; bool_props; lia|].
  pose proof (last_unselected_spec 0 (entries c)) as Hlast. destruct (last_unselected 0 (entries c)) as [[i evicted]|];
    [|apply Happ; by left].
  destruct Hlast as (k & -> & Hi & He). cbn [Nat.add]. pose proof (lookup_lt_Some _ _ _ Hi) as Hlt. split; cbn -[selected_count]; [done|..].
  - rewrite length_app. cbn. pose proof (selected_count_insert (entries c) k evicted (entry_of o true) Hi He). lia.
  - rewrite length_insert, length_app. cbn. lia.
  - intros key j [[<- _]|[_ Hj]]%lookup_insert_Some; [set_solver|]. apply elem_of_union_r. apply (H4 key j).
    destruct (en_candidate evicted); [|done]. by apply lookup_delete_Some in Hj as [_ Hj].
  - intros o' [Ho'|Ho']%elem_of_app.
    + destruct (H5 o' Ho') as (e & [j Hj]%list_elem_of_lookup & Hs & Hc). exists e. split; [|done]. apply list_elem_of_lookup. exists j.
      rewrite list_lookup_insert_ne; [done|]. intros ->. congruence.
    + apply list_elem_of_singleton in Ho' as ->. exists (entry_of o true). split_and!; [|done|done].
      apply list_elem_of_lookup. exists k. by apply list_lookup_insert_eq.
Qed.

Section Engine.
Context (unicode_quote unicode_lower : string → string) (stableID : string → list string → string).

Local Abbreviation Evaluate := (Evaluate unicode_quote unicode_lower stableID).
Local Abbreviation normalizeUnits := (normalizeUnits unicode_quote).
Local Abbreviation normalizeDevices := (normalizeDevices unicode_quote).
Local Abbreviation normalizeLedgerAdjustment := (normalizeLedgerAdjustment unicode_quote).

Definition identified (u : Unit) : Unit :=
  mkUnit (if bool_decide (unit_ID u = "") then from_option pending_unit_id "" (Pending u) else unit_ID u) (Pending u).

Lemma identify_units_Ok index seen us us' :
  identify_units unicode_quote index seen us = Ok us' ↔
  (us' = (identified <$> us)) ∧ NoDup (unit_ID <$> us') ∧
  Forall (λ u, unit_ID u ≠ "" ∧ (unit_ID u ∉ seen) ∧ from_option pending_unit_id (unit_ID u) (Pending u) = unit_ID u) us'.
Proof.
  revert index seen us'. induction us as [|u us IH]; intros index seen us'; cbn [identify_units].
  { split; [intros [= <-]; split_and!; constructor|by intros (-> & _)]. }
  cbv zeta. set (id := if bool_decide _ then _ else _). rewrite fmap_cons.
  change (identified u) with (mkUnit id (Pending u)). split.
  - intros ([] & H1%guard_err_Ok & H)%bind_Ok. apply bind_Ok in H as ([] & H2%guard_err_Ok & H).
    apply bind_Ok in H as ([] & H3%guard_err_Ok & H). apply bind_Ok in H as (l & Hl & [= <-]).
    bool_props. apply IH in Hl as (-> & Hnd & Hall). split; [done|]. rewrite fmap_cons. cbn [unit_ID]. split.
    + constructor; [|done]. rewrite list_elem_of_fmap. intros (v & Hv & Hin). rewrite Forall_forall in Hall.
      destruct (Hall v Hin) as (_ & Hns & _). set_solver.
    + constructor; [by split_and!|]. eapply Forall_impl; [exact Hall|]. cbn beta. set_solver.
  - intros (-> & Hnd & Hall). rewrite fmap_cons in Hnd. apply NoDup_cons in Hnd as [Hid Hnd].
    apply Forall_cons_1 in Hall as [(G1 & G2 & G3) Hall]. cbn [unit_ID Pending] in *.
    rewrite (bool_decide_false _ G1), (bool_decide_false _ G2), (bool_decide_true _ G3). cbn [negb guard_err mbind Result_bind].
    assert (Hrest : identify_units unicode_quote (index + 1) ({[id]} ∪ seen) us = Ok (identified <$> us)).
    { apply IH. split_and!; [done|done|]. rewrite Forall_forall in Hall |- *. intros v Hv. specialize (Hall v Hv).
      split_and!; [apply Hall| |apply Hall]. assert (unit_ID v ≠ id) by (intros E; apply Hid; rewrite <-E; by apply list_elem_of_fmap_2).
      set_solver. }
    by rewrite Hrest.
Qed.

Lemma identify_devices_Ok index seen ds :
  identify_devices unicode_quote index seen ds = Ok tt ↔
  NoDup (device_id <$> ds) ∧ Forall (λ d, device_id d ≠ "" ∧ device_id d ∉ seen) ds.
Proof.
  revert index seen. induction ds as [|d ds IH]; intros index seen; cbn [identify_devices].
  { split; [intros _; split; constructor|done]. }
  cbv zeta. rewrite fmap_cons. split.
  - intros ([] & H1%guard_err_Ok & H)%bind_Ok. apply bind_Ok in H as ([] & H2%guard_err_Ok & H).
    bool_props. apply IH in H as (Hnd & Hall). split.
    + constructor; [|done]. rewrite list_elem_of_fmap. intros (v & Hv & Hin). rewrite Forall_forall in Hall.
      destruct (Hall v Hin) as (_ & Hns). set_solver.
    + constructor; [by split|]. eapply Forall_impl; [exact Hall|]. cbn beta. set_solver.
  - intros (Hnd & Hall). apply NoDup_cons in Hnd as [Hid Hnd]. apply Forall_cons_1 in Hall as [(G1 & G2) Hall].
    rewrite (bool_decide_false _ G1), (bool_decide_false _ G2). cbn [negb guard_err mbind Result_bind].
    apply IH. split; [done|]. rewrite Forall_forall in Hall |- *. intros v Hv. specialize (Hall v Hv). split; [apply Hall|].
    assert (device_id v ≠ device_id d) by (intros E; apply Hid; rewrite <-E; by apply list_elem_of_fmap_2). set_solver.
Qed.

Lemma normalizeUnits_Ok us us' :
  normalizeUnits us = Ok us' →
  us' ≡ₚ (identified <$> us) ∧ NoDup (unit_ID <$> us') ∧
  (∀ v, v ≡ₚ us → normalizeUnits v = Ok us').
Proof.
  unfold CandidateEngine.normalizeUnits. intros (l & Hl & [= <-])%bind_Ok. apply identify_units_Ok in Hl as (-> & Hnd & Hall).
  set (l := identified <$> us) in *. pose proof (sort_by_perm (λ a b, unit_less (unit_pending a) (unit_pending b)) l) as Hp.
  split; [done|]. split; [by rewrite Hp|]. intros v Hv.
  assert (Hvp : identified <$> v ≡ₚ l) by (unfold l; by rewrite Hv).
  assert (identify_units unicode_quote 0 ∅ v = Ok (identified <$> v)) as ->.
  { apply identify_units_Ok. split; [done|]. by rewrite Hvp. }
  cbn [mbind Result_bind]. f_equal. symmetry. apply sort_by_unique; [apply (key_less_sw unit_less), _| |done].
  intros a b Ha Hb H1 H2. rewrite Forall_forall in Hall. eapply NoDup_fmap_inj; [exact Hnd|done|done|].
  assert (Hid : ∀ x, x ∈ l → pending_unit_id (unit_pending x) = unit_ID x).
  { intros x Hx. destruct (Hall x Hx) as (_ & _ & Hid). unfold unit_pending. by destruct (Pending x). }
  rewrite <-!Hid by done. unfold unit_less in H1, H2.
  destruct (lex_less_tie _ _ _ _ H1 H2) as (_ & H3 & H4). destruct (lex_less_tie _ _ _ _ H3 H4) as (_ & H5 & H6).
  by apply str_ltb_total.
Qed.

Lemma normalizeDevices_Ok ds ds' :
  normalizeDevices ds = Ok ds' → ds' ≡ₚ ds ∧ NoDup (device_id <$> ds') ∧ (∀ v, v ≡ₚ ds → normalizeDevices v = Ok ds').
Proof.
  unfold CandidateEngine.normalizeDevices. intros ([] & Hl & [= <-])%bind_Ok. apply identify_devices_Ok in Hl as Hl'.
  destruct Hl' as [Hnd Hall]. pose proof (sort_by_perm (λ a b, str_ltb (device_id a) (device_id b)) ds) as Hp.
  split; [done|]. split; [by rewrite Hp|]. intros v Hv.
  assert (identify_devices unicode_quote 0 ∅ v = Ok tt) as -> by (apply identify_devices_Ok; by rewrite Hv).
  cbn [mbind Result_bind]. f_equal. symmetry. by apply sort_by_key_unique.
Qed.

(** ** A request, taken apart *)

Definition context_of (request : Request) (snap : ClusterSnapshot) (intent : SchedulingIntent) (us : list Unit)
    (states : list deviceState) : EngineContext :=
  mkContext intent (rq_Decision request)
    (mkCallbacks (default (defaultCandidateID stableID snap intent) (rq_CandidateID request)) (rq_BuildCandidate request))
    (rq_Select request) (TopK (normalizeConfig (rq_Config request)))
    (bool_decide (is_Some (rq_Select request)) ||
     pairSurfaceFitsBudget (Z.of_nat (length us)) (Z.of_nat (length states)) (EvidenceBudget (normalizeConfig (rq_Config request)))).

(** What [Evaluate] normalises a request to before its loop. *)
Definition prepare (request : Request) :
    Result CandidateError (ClusterSnapshot * SchedulingIntent * list Unit * normalizedLedgerAdjustment * list deviceState) :=
  match rq_Snapshot request, rq_Intent request with
  | None, _ => Err (CandidateInvalid "candidates: snapshot must not be nil")
  | _, None => Err (CandidateInvalid "candidates: intent must not be nil")
  | Some snap, Some intent =>
      us ← normalizeUnits (rq_Units request);
      ds ← normalizeDevices (devices snap);
      adjustment ← normalizeLedgerAdjustment (rq_Adjustment request) ds (allocations snap);
      match buildDeviceStates (allocations snap) (filterDevices ds adjustment) (reclaimedAllocationIDs adjustment) with
      | None => Err CandidatePanic
      | Some states => Ok (snap, intent, us, adjustment, states)
      end
  end.

Record prepared (request : Request) (snap : ClusterSnapshot) (intent : SchedulingIntent) (us : list Unit)
    (adjustment : normalizedLedgerAdjustment) (states : list deviceState) : Prop := {
  pr_snapshot : rq_Snapshot request = Some snap;
  pr_intent : rq_Intent request = Some intent;
  pr_units : normalizeUnits (rq_Units request) = Ok us;
  pr_states : ∃ ds, normalizeDevices (devices snap) = Ok ds ∧
    normalizeLedgerAdjustment (rq_Adjustment request) ds (allocations snap) = Ok adjustment ∧
    buildDeviceStates (allocations snap) (filterDevices ds adjustment) (reclaimedAllocationIDs adjustment) = Some states;
}.

Lemma prepare_Ok request snap intent us adjustment states :
  prepare request = Ok (snap, intent, us, adjustment, states) ↔ prepared request snap intent us adjustment states.
Proof.
  unfold prepare. split.
  - destruct (rq_Snapshot request) as [snap0|] eqn:E1; [|done]. destruct (rq_Intent request) as [intent0|] eqn:E2; [|done].
    intros (us0 & E3 & (ds & E4 & (adj & E5 & H)%bind_Ok)%bind_Ok)%bind_Ok.
    destruct (buildDeviceStates _ _ _) as [states0|] eqn:E6; [|done]. injection H as <- <- <- <- <-. split; [done..|by exists ds].
  - intros [-> -> -> (ds & H4 & H5 & H6)]. cbn. rewrite H4. cbn. rewrite H5. cbn. by rewrite H6.
Qed.

Definition run_loop (request : Request) (snap : ClusterSnapshot) (intent : SchedulingIntent) (us : list Unit)
    (states : list deviceState) : Result CandidateError EngineState :=
  evaluate_units unicode_quote unicode_lower (context_of request snap intent us states)
    (initial_engine (EvidenceBudget (normalizeConfig (rq_Config request))) states) us.

Lemma Evaluate_prepare request :
  Evaluate request = prepare request ≫= λ '(snap, intent, us, _, states), finish <$> run_loop request snap intent us states.
Proof.
  unfold CandidateEngine.Evaluate, prepare. destruct (rq_Snapshot request) as [snap|]; [|done].
  destruct (rq_Intent request) as [intent|]; [|done]. cbv zeta.
  destruct (normalizeUnits _) as [us|]; [|done]. cbn [mbind Result_bind].
  destruct (normalizeDevices _) as [ds|]; [|done]. cbn [mbind Result_bind].
  destruct (normalizeLedgerAdjustment _ _ _) as [adj|]; [|done]. cbn [mbind Result_bind].
  destruct (buildDeviceStates _ _ _) as [states|]; [|done].
  case_bool_decide as Hus; [by subst us|cbn [mbind Result_bind]; unfold run_loop, context_of; by destruct (evaluate_units _ _ _ _ _)].
Qed.

Lemma Evaluate_prepared request snap intent us adjustment states :
  prepared request snap intent us adjustment states →
  Evaluate request = (finish <$> run_loop request snap intent us states).
Proof. intros Hp%prepare_Ok. by rewrite Evaluate_prepare, Hp. Qed.

Lemma Evaluate_Ok request r :
  Evaluate request = Ok r →
  ∃ snap intent us adjustment states e, prepared request snap intent us adjustment states ∧
    run_loop request snap intent us states = Ok e ∧ r = finish e.
Proof.
  rewrite Evaluate_prepare. intros ([[[[snap intent] us] adj] states] & Hp%prepare_Ok & H)%bind_Ok.
  destruct (run_loop request snap intent us states) as [e|] eqn:E; [|done]. injection H as <-.
  by exists snap, intent, us, adj, states, e.
Qed.

(** The loop starts in good order. *)
Lemma prepared_ids request snap intent us adjustment states :
  prepared request snap intent us adjustment states →
  NoDup (state_ids states) ∧ ds_device <$> states ⊆ devices snap ∧
  (∀ d, d ∈ devices snap → device_id d ∈ state_ids states → d ∈ ds_device <$> states).
Proof.
  intros [_ _ _ (ds & H4 & H5 & H6)]. apply buildDeviceStates_devices in H6. apply normalizeDevices_Ok in H4 as (Hp & Hnd & _).
  assert (Hids : state_ids states = device_id <$> filterDevices ds adjustment).
  { unfold state_ids. by rewrite <-H6, <-list_fmap_compose. }
  assert (Hsub : filterDevices ds adjustment ⊆ ds) by (intros x; unfold filterDevices; rewrite list_elem_of_filter; by intros [_ ?]).
  rewrite Hids, H6. split_and!.
  - unfold filterDevices. eapply sublist_NoDup; [exact Hnd|]. apply fmap_sublist, sublist_filter.
  - intros x Hx. rewrite <-Hp. by apply Hsub.
  - intros d Hd (d' & E & Hd')%list_elem_of_fmap. rewrite <-Hp in Hd. by rewrite (NoDup_fmap_inj device_id ds d d' Hnd Hd (Hsub _ Hd') E).
Qed.

Lemma canonical_units intent us us' : canonical intent us → normalizeUnits us = Ok us' → canonical intent us'.
Proof.
  intros Hcan Hn. apply normalizeUnits_Ok in Hn as (Hp & _). intros u v Hu Hv. rewrite Hp in Hu, Hv.
  apply list_elem_of_fmap in Hu as (u0 & -> & Hu), Hv as (v0 & -> & Hv). exact (Hcan u0 v0 Hu Hv).
Qed.

(** What the loop of a request selects. *)
Lemma run_loop_placed request snap intent us adjustment states e :
  prepared request snap intent us adjustment states → canonical intent (rq_Units request) →
  run_loop request snap intent us states = Ok e →
  let cx := context_of request snap intent us states in
  ∃ fl, placed unicode_quote unicode_lower cx (best_rule cx) (none_stuck cx) states us (re_Selected (finish e)) fl ∧
    FailureUnit (finish e) = default "" fl.
Proof.
  intros Hp Hcan H. cbv zeta. destruct (prepared_ids _ _ _ _ _ _ Hp) as (Hnd & _ & _).
  assert (Hcan' : canonical (cx_intent (context_of request snap intent us states)) us).
  { eapply canonical_units; [exact Hcan|]. apply (pr_units _ _ _ _ _ _ Hp). }
  unfold run_loop in H. eapply evaluate_units_placed in H as (os & fl & Hpl & Hs & Hf); [|by split|by left|exact Hcan'|done].
  exists fl. unfold finish. destruct (project (eg_collector e)) as [cs rs]. cbn in Hs, Hf |- *. rewrite Hs, Hf. by split.
Qed.

(** ** No device is over-committed *)

(** What is placed on a device was feasible there. *)
Lemma placed_feasible cx rule stuck states us os fl :
  placed unicode_quote unicode_lower cx rule stuck states us os fl → ∀ o, o ∈ os →
  ∃ s, s ∈ states ∧ device_id (ds_device s) = op_DeviceID o ∧ overcommitted (ds_resources s) = false ∧
    health (ds_device s) = DEVICE_HEALTH_READY.
Proof.
  induction 1 as [states|states u us Hst|states u us i s cd os fl Hi Hf Hmat Hrule Hpl IH]; intros o Ho; [by apply elem_of_nil in Ho..|].
  assert (Hback : ∀ x, x ∈ reeval unicode_lower cx (requirementsFor u (cx_intent cx)).1 (requirementsFor u (cx_intent cx)).2 <$> states →
    ∃ y, y ∈ states ∧ ds_device x = ds_device y ∧ ds_resources x = ds_resources y).
  { intros x (y & -> & Hy)%list_elem_of_fmap. by exists y. }
  assert (Hs : s ∈ reeval unicode_lower cx (requirementsFor u (cx_intent cx)).1 (requirementsFor u (cx_intent cx)).2 <$> states)
    by (by eapply list_elem_of_lookup_2).
  apply elem_of_cons in Ho as [->|Ho].
  - pose proof (reeval_fresh unicode_lower cx states (requirementsFor u (cx_intent cx)).1 (requirementsFor u (cx_intent cx)).2) as Hfr.
    unfold fresh in Hfr. rewrite Forall_forall in Hfr. rewrite (Hfr s Hs) in Hf. apply evaluatePair_ready in Hf as [Hf1 Hf2].
    destruct (Hback s Hs) as (y & Hy & Ed & Er). exists y. rewrite <-Ed, <-Er. by split_and!.
  - destruct (IH o Ho) as (x & Hx & Ex & Eo & Eh). apply list_elem_of_lookup in Hx as [k Hk]. unfold consume_at in Hk.
    destruct (decide (k = i)) as [->|Hne].
    + rewrite list_lookup_alter_eq, Hi in Hk. injection Hk as <-. destruct (Hback s Hs) as (y & Hy & Ed & Er). exists y.
      cbn -[consume] in Ex, Eo, Eh. rewrite <-Ed, <-Er. split_and!; try done.
      destruct (requirementsFor u (cx_intent cx)).1; exact Eo.
    + rewrite list_lookup_alter_ne in Hk by done. apply list_elem_of_lookup_2 in Hk. destruct (Hback x Hk) as (y & Hy & Ed & Er).
      exists y. rewrite <-Ed, <-Er. by split_and!.
Qed.

(** What each selected option is: the n-th unit's candidate on its device. *)
Lemma placed_options cx rule stuck states us os fl :
  placed unicode_quote unicode_lower cx rule stuck states us os fl → ∀ n o, os !! n = Some o →
  ∃ u s, us !! n = Some u ∧ op_UnitID o = unit_ID u ∧ op_DeviceID o = device_id (ds_device s) ∧
    materializeCandidate unicode_quote (cx_callbacks cx) u s (requirementsFor u (cx_intent cx)).1 (requirementsFor u (cx_intent cx)).2 =
      Ok (op_Candidate o).
Proof.
  induction 1 as [states|states u us Hst|states u us i s cd os fl Hi Hf Hmat Hrule Hpl IH]; intros n o Ho; [done|done|].
  destruct n as [|n]; [|by apply IH]. injection Ho as <-. by exists u, s.
Qed.

Lemma materialize_default cb u s r c cd :
  cb_factory cb = None → materializeCandidate unicode_quote cb u s r c = Ok cd →
  cand_plan cd = Some (empty_plan [Some (mkBinding "" (unit_ID u) [device_id (ds_device s)] (Some (default zero_resources r)) "" 0
                                           (from_option pu_runtime_unit_id "" (Pending u)))]).
Proof.
  intros Hcb (id & _ & H)%bind_Ok. rewrite Hcb in H. cbn -[validateCandidatePlan] in H. by apply bind_Ok in H as (_ & _ & [= <-]).
Qed.

(** The engine over-commits no device; see [Evaluate_no_overcommit]. *)
Lemma selection_fits request snap intent us adjustment states r :
  prepared request snap intent us adjustment states → canonical intent (rq_Units request) →
  Forall (λ d, rv_ok (default zero_resources (capacity d)) ∧ rv_ok (default zero_resources (allocatable d))) (devices snap) →
  Forall (λ a, request_ok (al_resources a)) (allocations snap) →
  Forall (λ u, request_ok (requirementsFor u intent).1) us →
  Evaluate request = Ok r →
  op_UnitID <$> re_Selected r = take (length (re_Selected r)) (unit_ID <$> us) ∧
  (∀ o, o ∈ re_Selected r → ∃ d, d ∈ devices snap ∧ device_id d = op_DeviceID o ∧ health d = DEVICE_HEALTH_READY) ∧
  ∀ d proj, d ∈ devices snap → device_id d ∈ op_DeviceID <$> re_Selected r → proj ∈ integer_resources →
    let reclaimed := reclaimedAllocationIDs adjustment in
    let placed_load := load proj (device_id d) (placements intent us (re_Selected r)) in
    occupied proj reclaimed (device_id d) (allocations snap) + placed_load ≤ proj (default zero_resources (capacity d)) ∧
    placed_load ≤ proj (default zero_resources (allocatable d)) + returned proj reclaimed (device_id d) (allocations snap).
Proof.
  intros Hp Hcan Hds Hals Hus H. rewrite (Evaluate_prepared _ _ _ _ _ _ Hp) in H.
  destruct (run_loop request snap intent us states) as [e|] eqn:He; [|done]. injection H as <-.
  destruct (run_loop_placed _ _ _ _ _ _ _ Hp Hcan He) as (fl & Hpl & _). destruct (prepared_ids _ _ _ _ _ _ Hp) as (Hnd & Hsub & Hback).
  set (cx := context_of request snap intent us states) in *. set (os := re_Selected (finish e)) in *.
  assert (Hledger : ∀ proj, proj ∈ integer_resources →
    Forall (λ s, ledger_ok proj s (occupied proj (reclaimedAllocationIDs adjustment) (device_id (ds_device s)) (allocations snap))
                   (returned proj (reclaimedAllocationIDs adjustment) (device_id (ds_device s)) (allocations snap))) states).
  { intros proj Hproj. destruct Hp as [_ _ _ (ds & H4 & H5 & H6)]. eapply buildDeviceStates_ok; [done|done| |exact H6].
    apply normalizeDevices_Ok in H4 as (Hperm & _). rewrite Forall_forall in Hds |- *. intros d Hd. apply Hds. rewrite <-Hperm.
    unfold filterDevices in Hd. by apply list_elem_of_filter in Hd as [_ ?]. }
  assert (Hok : Forall amounts_ok states).
  { rewrite Forall_forall. intros s Hs. split_and!; intros proj Hproj; specialize (Hledger proj Hproj); rewrite Forall_forall in Hledger;
      destruct (Hledger s Hs) as (? & ? & ? & ? & _); done. }
  destruct (placed_fits unicode_quote unicode_lower cx _ _ _ _ _ _ Hpl Hnd Hok Hus) as [Hprefix Hfits].
  pose proof (placed_feasible cx _ _ _ _ _ _ Hpl) as Hfeas. split; [exact Hprefix|]. split.
  - intros o Ho. destruct (Hfeas o Ho) as (s & Hs & Es & _ & Hh). exists (ds_device s). split_and!; [|done|done].
    apply Hsub. by apply list_elem_of_fmap_2.
  - intros d proj Hd Hsel Hproj. cbv zeta. pose proof Hsel as (o & Eo & Ho)%list_elem_of_fmap. destruct (Hfeas o Ho) as (s & Hs & Es & Hover & _).
    assert (ds_device s = d) as Ed.
    { assert (d ∈ ds_device <$> states) as (s' & E' & Hs')%list_elem_of_fmap.
      { apply Hback; [done|]. rewrite Eo, <-Es. unfold state_ids. apply list_elem_of_fmap. by exists s. }
      rewrite E'. f_equal. eapply (NoDup_fmap_inj (device_id ∘ ds_device) states); [exact Hnd|done|done|]. cbn. congruence. }
    destruct (Hfits s proj Hs Hproj) as [F1 F2]. specialize (Hledger proj Hproj). rewrite Forall_forall in Hledger.
    destruct (Hledger s Hs) as (L1 & _ & _ & _ & L5 & L6). rewrite Ed in *. specialize (F2 Hsel). rewrite L1, (L6 Hover) in F2.
    change (placements intent us os) with (placements (cx_intent cx) us os). lia.
Qed.

(** C30: A successful [Evaluate] selects READY devices for a prefix of the ordered units,
    one each, and over-commits none of them: the integer resources of what it places on
    a device fit, with the live allocations that are not reclaimed, within the device's
    capacity, and fit within what the device can allocate plus what it reclaims there. *)
Theorem Evaluate_no_overcommit request snap intent us adjustment states r :
  prepared request snap intent us adjustment states → canonical intent (rq_Units request) →
  Forall (λ d, rv_ok (default zero_resources (capacity d)) ∧ rv_ok (default zero_resources (allocatable d))) (devices snap) →
  Forall (λ a, request_ok (al_resources a)) (allocations snap) →
  Forall (λ u, request_ok (requirementsFor u intent).1) us →
  Evaluate request = Ok r →
  op_UnitID <$> re_Selected r = take (length (re_Selected r)) (unit_ID <$> us) ∧
  (∀ o, o ∈ re_Selected r → ∃ d, d ∈ devices snap ∧ device_id d = op_DeviceID o ∧ health d = DEVICE_HEALTH_READY) ∧
  ∀ d proj, d ∈ devices snap → device_id d ∈ op_DeviceID <$> re_Selected r → proj ∈ integer_resources →
    let reclaimed := reclaimedAllocationIDs adjustment in
    let placed_load := load proj (device_id d) (placements intent us (re_Selected r)) in
    occupied proj reclaimed (device_id d) (allocations snap) + placed_load ≤ proj (default zero_resources (capacity d)) ∧
    placed_load ≤ proj (default zero_resources (allocatable d)) + returned proj reclaimed (device_id d) (allocations snap).
Proof. exact (selection_fits request snap intent us adjustment states r). Qed.

(** ** The reference *)

(** Scheduling a request without heap, cache and evidence. *)
Definition reference_Evaluate (request : Request) : Result CandidateError (list (string * string) * string) :=
  '(snap, intent, us, _, states) ← prepare request;
  let placed := reference unicode_lower (context_of request snap intent us states) states us in
  Ok (placed.1, default "" placed.2).

Definition choices_of (r : EngineResult) : list (string * string) * string := (option_key <$> re_Selected r, FailureUnit r).

(** C31: Without a caller's selection and factory, [Evaluate] fails exactly when the
    reference does, with its error, and otherwise places the units the reference places,
    on the same devices, and stops at the same unit. *)
Theorem Evaluate_reference request :
  rq_Select request = None → rq_BuildCandidate request = None →
  (∀ f a b, rq_CandidateID request = Some f → f a b ≠ "") → (∀ kind parts, stableID kind parts ≠ "") →
  (∀ intent, rq_Intent request = Some intent → canonical intent (rq_Units request)) →
  choices_of <$> Evaluate request = reference_Evaluate request.
Proof.
  intros Hsel Hb Hid Hst Hcan. unfold reference_Evaluate. rewrite Evaluate_prepare.
  destruct (prepare request) as [[[[[snap intent] us] adj] states]|] eqn:Hprep; [|done]. cbn [mbind Result_bind].
  apply prepare_Ok in Hprep as Hp. destruct (prepared_ids _ _ _ _ _ _ Hp) as (Hnd & _ & _).
  set (cx := context_of request snap intent us states).
  assert (Hplain : plain cx).
  { split; [exact Hsel|exact Hb|]. intros a b. cbn. destruct (rq_CandidateID request) as [f|] eqn:Ef; [by apply Hid|by apply Hst]. }
  assert (Hcan' : canonical (cx_intent cx) us) by (eapply canonical_units; [apply Hcan; apply Hp|apply Hp]).
  destruct (evaluate_units_total unicode_quote unicode_lower cx
    (initial_engine (EvidenceBudget (normalizeConfig (rq_Config request))) states) us us Hplain) as [e He]; [by split|by left|done..|].
  assert (Hrun : run_loop request snap intent us states = Ok e) by exact He. rewrite Hrun.
  destruct (run_loop_placed _ _ _ _ _ _ _ Hp (Hcan _ (pr_intent _ _ _ _ _ _ Hp)) Hrun) as (fl & Hpl & Hf).
  cbv zeta. rewrite (placed_reference unicode_quote unicode_lower cx _ _ _ _ Hsel Hnd Hpl). cbn -[finish]. unfold choices_of. by rewrite Hf.
Qed.

(** ** The order of the inputs *)

Lemma check_reclaim_perm known als als' id : als ≡ₚ als' → check_reclaim unicode_quote known als id = check_reclaim unicode_quote known als' id.
Proof.
  intros Hp. unfold check_reclaim. cbv zeta. assert (Hf : filter (λ a, allocation_id a = id) als ≡ₚ filter (λ a, allocation_id a = id) als') by (by rewrite Hp).
  destruct (filter (λ a, allocation_id a = id) als) as [|a [|b l]].
  - by apply Permutation_nil in Hf as ->.
  - by apply Permutation_length_1_inv in Hf as ->.
  - apply Permutation_length in Hf. by destruct (filter (λ a, allocation_id a = id) als') as [|a' [|b' l']].
Qed.

Lemma check_each_ext {A E} (f g : A → Result E unit) l : (∀ x, f x = g x) → check_each f l = check_each g l.
Proof. intros H. induction l as [|x l IH]; cbn [check_each]; [done|]. by rewrite H, IH. Qed.

(** The result depends neither on the order of the units nor on that of the
    snapshot's devices and allocations. *)
Theorem Evaluate_input_order request snap us' ds' als' r :
  rq_Snapshot request = Some snap → us' ≡ₚ rq_Units request → ds' ≡ₚ devices snap → als' ≡ₚ allocations snap →
  NoDup (allocation_id <$> allocations snap) →
  Evaluate request = Ok r →
  Evaluate (request <| rq_Units := us' |> <| rq_Snapshot := Some (snap <| devices := ds' |> <| allocations := als' |>) |>) = Ok r.
Proof.
  intros Hsnap Hu Hd Ha Hnd H. apply Evaluate_Ok in H as (snap0 & intent & us & adj & states & e & Hp & He & ->).
  destruct Hp as [H1 H2 H3 (ds & H4 & H5 & H6)]. rewrite Hsnap in H1. injection H1 as <-.
  set (request' := _ <| rq_Snapshot := _ |>).
  assert (Hp' : prepared request' (snap <| devices := ds' |> <| allocations := als' |>) intent us adj states).
  { split; [done|exact H2| |].
    - apply normalizeUnits_Ok in H3 as (_ & _ & Hall). by apply Hall.
    - exists ds. split; [apply normalizeDevices_Ok in H4 as (_ & _ & Hall); by apply Hall|]. split.
      + rewrite <-H5. unfold CandidateEngine.normalizeLedgerAdjustment. cbn. destruct (_ && _ && _); [done|]. cbv zeta.
        by rewrite (check_each_ext _ (check_reclaim unicode_quote (list_to_set (device_id <$> ds)) (allocations snap)) _
                     (λ id, check_reclaim_perm _ _ _ id Ha)).
      + rewrite <-H6. unfold buildDeviceStates. cbn. by rewrite (sort_by_key_unique allocation_id als' (allocations snap)) by (by rewrite ?Ha). }
  rewrite (Evaluate_prepared _ _ _ _ _ _ Hp').
  assert (Hrun : run_loop request' (snap <| devices := ds' |> <| allocations := als' |>) intent us states = run_loop request snap intent us states) by done.
  by rewrite Hrun, He.
Qed.

(** ** The evidence of a run *)

Lemma collect_states_ok limit seen os cb u r caps retain index states c m c' :
  evidence_ok limit seen os c → unit_ID u ∈ seen →
  collect_states unicode_quote cb u r caps retain index states c m = Ok c' → evidence_ok limit seen os c'.
Proof.
  intros Hc Hu. revert index c m Hc. induction states as [|s states IH]; intros index c m Hc; cbn [collect_states]; [by intros [= <-]|].
  destruct (negb (hasRegularCapacity c)); [by intros [= <-]|]. destruct (feasible (ds_evaluation s)).
  - destruct (negb retain); [by apply IH|]. destruct (materialized_at m index) as [cd|]; [apply IH; by apply addCandidate_ok|].
    intros (cd & _ & H)%bind_Ok. destruct m; [|done]. revert H. apply IH. by apply addCandidate_ok.
  - intros (id & _ & H)%bind_Ok. revert H. apply IH. by apply addRejection_ok.
Qed.

Lemma record_evidence_ok limit seen os cx e u r caps c m c' :
  evidence_ok limit seen os c → unit_ID u ∈ seen →
  record_evidence unicode_quote cx e u r caps c m = Ok c' → evidence_ok limit seen os c'.
Proof.
  intros Hc Hu. unfold record_evidence. destruct (_ || _); [|by intros [= <-]]. by apply collect_states_ok.
Qed.

Lemma evidence_ok_seen limit seen seen' os c : evidence_ok limit seen os c → seen ⊆ seen' → evidence_ok limit seen' os c.
Proof. intros [H1 H2 H3 H4 H5] Hs. split; try done. intros key i Hk. apply Hs. by eapply H4. Qed.

Lemma evaluate_unit_evidence limit seen cx e u e' stop :
  evidence_ok limit seen (re_Selected (eg_result e)) (eg_collector e) → unit_ID u ∉ seen →
  evaluate_unit unicode_quote unicode_lower cx e u = Ok (e', stop) →
  evidence_ok limit ({[unit_ID u]} ∪ seen) (re_Selected (eg_result e')) (eg_collector e').
Proof.
  clear stableID. intros Hc Hu. unfold evaluate_unit. destruct (requirementsFor u (cx_intent cx)) as [r caps].
  destruct (refresh unicode_lower cx e r caps) as [e1 f] eqn:Hr.
  assert (eg_collector e1 = eg_collector e ∧ eg_result e1 = eg_result e) as [Ec Er].
  { revert Hr. unfold refresh. destruct (rebuildFrontier _ _ _ _ _ _) as [st fr]. destruct (eg_frontier e);
      [destruct (_ && _)|]; intros [= <- _]; done. }
  rewrite <-Ec, <-Er in Hc. intros ([sel f'] & _ & H)%bind_Ok. cbn -[heap_Push consume_at record_evidence] in H.
  destruct (sl_choice sel) as [[i cd]|].
  - destruct (eg_states e1 !! i) as [s|]; [|done]. apply bind_Ok in H as (c & Hrec & [= <- _]).
    cbn -[heap_Push consume_at]. eapply (record_evidence_ok _ _ _ _ _ u); [|set_solver|exact Hrec].
    exact (addSelected_ok limit seen _ _ (mkOption cd (unit_ID u) _) Hc Hu).
  - apply bind_Ok in H as (c & Hrec & [= <- _]). cbn. eapply (record_evidence_ok _ _ _ _ _ u); [|set_solver|exact Hrec].
    eapply evidence_ok_seen; [exact Hc|set_solver].
Qed.

Lemma evaluate_units_evidence limit seen cx e us e' :
  evidence_ok limit seen (re_Selected (eg_result e)) (eg_collector e) → NoDup (unit_ID <$> us) →
  (∀ u, u ∈ us → unit_ID u ∉ seen) → evaluate_units unicode_quote unicode_lower cx e us = Ok e' →
  ∃ seen', evidence_ok limit seen' (re_Selected (eg_result e')) (eg_collector e').
Proof.
  clear stableID. revert seen e. induction us as [|u us IH]; intros seen e Hc Hnd Hseen H; cbn [evaluate_units] in H; [injection H as <-; eauto|].
  apply bind_Ok in H as ([e1 stop] & Hu & H). cbn [fst snd] in H.
  pose proof (evaluate_unit_evidence limit seen cx e u e1 stop Hc (Hseen u ltac:(by left)) Hu) as Hc1.
  destruct stop; [injection H as <-; eauto|]. rewrite fmap_cons in Hnd. apply NoDup_cons in Hnd as [Hnu Hnd].
  eapply IH; [exact Hc1|done| |exact H]. intros v Hv. assert (unit_ID v ≠ unit_ID u) by (intros E; apply Hnu; rewrite <-E; by apply list_elem_of_fmap_2).
  specialize (Hseen v ltac:(by right)). set_solver.
Qed.


End Engine.
