(* ===== verification/CandidateWitnesses.v ===== *)
(** * The candidate engine's theorems at a concrete request *)

From Stdlib Require Import ZArith Lia.
From S2P Require Import Prelude GoStrings GoTime GoFloat GoHeap ClusterModel SchedulerState Mutation Preemption Reservation ReservationProofs Transaction Intents Constraints Candidates CandidateEngine CandidateProofs CandidateResults.
From stdpp Require Import options.

Local Open Scope Z_scope.

Module CandidateWitnesses.

(** One goal for each element of a concrete list. *)
Ltac each_element H :=
  vm_compute in H; repeat (apply elem_of_cons in H as [->|H]); [..|by apply elem_of_nil in H].

Definition uq (s : string) : string := s.
Definition ul (s : string) : string := s.
Definition sid (prefix : string) (parts : list string) : string := "#" +:+ prefix +:+ String.concat "/" parts.

Definition quarter : float64 := f_ratio 1 4.
Definition rv (c m : Z) : ResourceVector := mkResources c m quarter 0 0.
Definition caps : CapabilitySet :=
  mkCapabilities [] ∅ [] [] "probe" 1 (Some (mkTimestamp 1 0)) ["Bind"] ∅ [] [].
Definition dev (id : string) (c m : Z) : Device :=
  mkDevice id DEVICE_HEALTH_READY (Some (mkResources c m f1 0 0)) (Some (mkResources (c - 1) m f1 0 0)) (Some caps) ∅ Semantics.DEVICE_KIND_GPU.
Definition al (id device : string) : Allocation :=
  mkAllocation id "e" "s" 1 "j" "w" [device] (Some (rv 1 2)) ALLOCATION_STATE_ACTIVE None (Some (mkTimestamp 9 0)) "r" "t"
    DATA_KIND_LIVE 1 "" "" "p" "" None "x" "b".
Definition snap : ClusterSnapshot := mkSnapshot "" 7 None [dev "d2" 8 8; dev "d1" 6 9] [al "a2" "d2"; al "a1" "d1"] [] ∅ "".
Definition intent : SchedulingIntent :=
  mkIntent "e" "s" 1 (Some (mkTimestamp 11 0)) None "key" (Some (mkTimestamp 1 0)) "j" (Some (rv 2 3)) 3
    None 0 "" "policy" "r" "t" DATA_KIND_LIVE "".
Definition pu (id : string) (priority : Z) (r : option ResourceVector) : PendingUnit :=
  mkPendingUnit id "e" "s" 1 "j" r None priority None 0 "" "" DATA_KIND_LIVE "".
Definition units : list Unit := [mkUnit "" (Some (pu "u1" 0 None)); mkUnit "u2" None; mkUnit "u3" (Some (pu "u3" 5 (Some (rv 1 1))))].
Definition request : Request :=
  mkRequest (Some snap) (Some intent) (mkDecision "dec" false false) (mkAdjustment ["a1"] [] []) units None None None (mkConfig 2 3).

Definition result : EngineResult :=
  match Evaluate uq ul sid request with Ok r => r | Err _ => empty_result end.

Lemma Evaluate_result : Evaluate uq ul sid request = Ok result.
Proof.
  unfold result. destruct (Evaluate uq ul sid request) as [r|] eqn:E; [done|]. apply (f_equal is_ok) in E. by vm_compute in E.
Qed.

Lemma units_canonical : canonical intent units.
Proof.
  intros u v Hu Hv. unfold units in Hu, Hv.
  repeat (apply elem_of_cons in Hu as [->|Hu]; [|try by apply elem_of_nil in Hu]);
    repeat (apply elem_of_cons in Hv as [->|Hv]; [|try by apply elem_of_nil in Hv]); split; intros H; (done || by vm_compute in H).
Qed.

Definition prepared_request : ClusterSnapshot * SchedulingIntent * list Unit * normalizedLedgerAdjustment * list deviceState :=
  match prepare uq request with Ok p => p | Err _ => (snap, intent, [], mkNormalized ∅ ∅ ∅, []) end.
Definition us : list Unit := prepared_request.1.1.2.
Definition adjustment : normalizedLedgerAdjustment := prepared_request.1.2.
Definition states : list deviceState := prepared_request.2.

Lemma request_prepared : prepared uq request snap intent us adjustment states.
Proof.
  apply prepare_Ok. unfold us, adjustment, states, prepared_request. destruct (prepare uq request) as [[[[[sn i] u] a] st]|] eqn:E.
  - pose proof (f_equal (λ r, match r with Ok p => Ok p.1.1.1 | Err e => Err e end) E) as E1. vm_compute in E1. by injection E1 as <- <-.
  - apply (f_equal is_ok) in E. by vm_compute in E.
Qed.

Lemma small (v : ResourceVector) : forallb (λ proj : ResourceVector → Z, (0 <=? proj v) && (proj v <? two64)) integer_resources = true → rv_ok v.
Proof.
  intros H proj Hp. rewrite forallb_forall in H. specialize (H proj (proj1 (list_elem_of_In _ _) Hp)). bool_props. by split.
Qed.

Lemma Evaluate_no_overcommit_witness :
  choices_of result = ([("u3", "d1"); ("u1", "d2"); ("u2", "d1")], "") ∧
  returned cpu_millis (reclaimedAllocationIDs adjustment) "d1" (allocations snap) = 1 ∧
  ∀ proj, proj ∈ integer_resources →
    load proj "d1" (placements intent us (re_Selected result)) ≤
      proj (mkResources 5 9 f1 0 0) + returned proj (reclaimedAllocationIDs adjustment) "d1" (allocations snap).
Proof.
  split; [by vm_compute|]. split; [by vm_compute|]. intros proj Hp.
  refine (proj2 (proj2 (proj2 (Evaluate_no_overcommit uq ul sid request snap intent us adjustment states result
    request_prepared units_canonical _ _ _ Evaluate_result)) (dev "d1" 6 9) proj _ _ Hp)).
  - apply Forall_forall. intros d Hd. each_element Hd; split; apply small; by vm_compute.
  - apply Forall_forall. intros a Ha q Hq. each_element Ha; injection Hq as <-; apply small; by vm_compute.
  - apply Forall_forall. intros u Hu q Hq. each_element Hu; injection Hq as <-; apply small; by vm_compute.
  - vm_compute. right. left.
  - vm_compute. left.
Defined.

Lemma Evaluate_reference_witness :
  is_ok (Evaluate uq ul sid request) = true ∧ choices_of <$> Evaluate uq ul sid request = reference_Evaluate uq ul sid request.
Proof.
  split; [by vm_compute|]. apply Evaluate_reference; try done.

  - intros i [= <-]. exact units_canonical.
Defined.

Lemma Evaluate_input_order_witness :
  Evaluate uq ul sid (request <| rq_Units := rev units |> <| rq_Snapshot :=
    Some (snap <| devices := rev (devices snap) |> <| allocations := rev (allocations snap) |>) |>) = Ok result.
Proof.
  apply Evaluate_input_order; [done|symmetry; apply Permutation_rev..| |exact Evaluate_result].
  apply (bool_decide_unpack _). by vm_compute.
Defined.

End CandidateWitnesses.
