(* ===== verification/Policies.v ===== *)
(** * Selection policies and preemption strategies
      ([scheduler-go/policy/policy.go], [scheduler-go/preemption/preemption.go])

    A policy chooses one candidate of a unit's shortlist; a preemption strategy lists
    the allocations that may be released for a unit.  A chosen candidate is given with
    its position in the shortlist, which is what the candidate engine identifies it by. *)

From Stdlib Require Import ZArith Lia.
From S2P Require Import Prelude GoStrings GoFloat ClusterModel SchedulerState Mutation Preemption Reservation Transaction Intents Constraints Candidates CandidateEngine.
From stdpp Require Import options.

Local Open Scope Z_scope.

(** ** Policies *)

Record SelectionInput := mkSelectionInput {
  si_UnitID : string;
  si_Candidates : list (option PlacementCandidate);
  si_TopK : Z;
}.

Definition Strategy : Type := string.
Definition StrategyScoreFirst : Strategy := "score_first".
Definition StrategyBinpack : Strategy := "binpack".
Definition StrategyTraceAware : Strategy := "trace_aware".
Definition StrategyNoOp : Strategy := "noop".
Definition StrategyStatic : Strategy := "static".

Record Bundle := mkBundle {
  bu_ID : string;
  bu_Version : string;
  bu_Strategy : Strategy;
  bu_TopK : Z;
  AllowPreemption : bool;
  PreemptionPolicy : string;
  RequireSafePoint : bool;
}.

Inductive Policy := NoOp | Static | Binpack | TraceAware | ScoreFirst.

Definition policy_Name (p : Policy) : string :=
  match p with
  | NoOp => "noop" | Static => "static" | Binpack => "binpack" | TraceAware => "trace_aware" | ScoreFirst => "score_first"
  end.

Section Bundles.
Context (unicode_quote : string → string).

(** [None]: the bundle is valid. *)
Definition Bundle_Validate (b : Bundle) : option string :=
  if bool_decide (TrimSpace (bu_ID b) = "") || bool_decide (TrimSpace (bu_Version b) = "")
  then Some "policy: id and version are required" else
  if bu_TopK b <? 1 then Some "policy: top_k must be at least 1" else
  if negb (bool_decide (bu_Strategy b ∈
       [StrategyScoreFirst; StrategyBinpack; StrategyTraceAware; StrategyNoOp; StrategyStatic]))
  then Some ("policy: unsupported strategy " +:+ Quote unicode_quote (bu_Strategy b)) else
  if AllowPreemption b && negb (bool_decide (PreemptionPolicy b = "low_priority_first"))
  then Some ("policy: unsupported preemption policy " +:+ Quote unicode_quote (PreemptionPolicy b)) else None.

Definition policy_New (b : Bundle) : Result string Policy :=
  match Bundle_Validate b with
  | Some e => Err e
  | None =>
      if bool_decide (bu_Strategy b = StrategyScoreFirst) then Ok ScoreFirst
      else if bool_decide (bu_Strategy b = StrategyBinpack) then Ok Binpack
      else if bool_decide (bu_Strategy b = StrategyTraceAware) then Ok TraceAware
      else if bool_decide (bu_Strategy b = StrategyNoOp) then Ok NoOp
      else if bool_decide (bu_Strategy b = StrategyStatic) then Ok Static
      else Err ("policy: unsupported strategy " +:+ Quote unicode_quote (bu_Strategy b))
  end.

End Bundles.

(** ** Choosing *)

Definition invalidSelectionInput : string := "INVALID_SELECTION_INPUT".

Definition candidate_bindings (c : PlacementCandidate) : list (option Binding) := from_option bindings [] (cand_plan c).

Definition finite (v : float64) : bool := negb (invalidFloat v).

Definition validCandidateForUnit (candidate : option PlacementCandidate) (unitID requiredComponent : string) : bool :=
  match candidate with
  | None => false
  | Some c =>
      if bool_decide (TrimSpace (candidate_id c) = "") || invalidFloat (cand_score c) || bool_decide (cand_plan c = None) ||
         negb (bool_decide (length (candidate_bindings c) = 1%nat)) then false else
      if negb (bool_decide (requiredComponent = "")) && negb (from_option finite false (component_scores c !! requiredComponent))
      then false else
      match candidate_bindings c with
      | Some b :: _ =>
          bool_decide (bi_pending_unit_id b = unitID) && bool_decide (length (bi_device_ids b) = 1%nat) &&
          negb (bool_decide (TrimSpace (default "" (bi_device_ids b !! 0%nat)) = ""))
      | _ => false
      end
  end.

(** The candidates with their positions. *)
Fixpoint check_candidates (unitID requiredComponent : string) (seen : gset string) (index : nat)
    (cs : list (option PlacementCandidate)) : option (list (nat * PlacementCandidate)) :=
  match cs with
  | [] => Some []
  | candidate :: cs =>
      if negb (validCandidateForUnit candidate unitID requiredComponent) then None else
      match candidate with
      | None => None
      | Some c =>
          if bool_decide (candidate_id c ∈ seen) then None else
          rest ← check_candidates unitID requiredComponent ({[candidate_id c]} ∪ seen) (S index) cs;
          Some ((index, c) :: rest)
      end
  end.

Definition eligibleCandidates (input : SelectionInput) (requiredComponent : string) : option (list (nat * PlacementCandidate)) :=
  let unitID := TrimSpace (si_UnitID input) in
  if bool_decide (unitID = "") || (si_TopK input <? 1) || (si_TopK input <? Z.of_nat (length (si_Candidates input)))
  then None
  else check_candidates unitID requiredComponent ∅ 0 (si_Candidates input).

Definition compareFloat (left right : float64) (ascending : bool) : Z :=
  if IsNaN left && IsNaN right then 0
  else if IsNaN left then 1
  else if IsNaN right then -1
  else if feqb left right then 0
  else if (ascending && fltb left right) || (negb ascending && fltb right left) then -1
  else 1.

(** The keys of a candidate that has a binding with a device. *)
Definition stablePlacementKeys (c : PlacementCandidate) : string * (string * string) :=
  match candidate_bindings c with
  | Some b :: _ => (default "" (bi_device_ids b !! 0%nat), (bi_pending_unit_id b, binding_id b))
  | _ => ("", ("", ""))
  end.

Definition stableCandidateLess : PlacementCandidate → PlacementCandidate → bool :=
  lex_less (λ a b, str_ltb (stablePlacementKeys a).1 (stablePlacementKeys b).1)
    (lex_less (λ a b, str_ltb (stablePlacementKeys a).2.1 (stablePlacementKeys b).2.1)
      (lex_less (λ a b, str_ltb (candidate_id a) (candidate_id b))
        (lex_less (λ a b, str_ltb (from_option plan_id "" (cand_plan a)) (from_option plan_id "" (cand_plan b)))
          (λ a b, str_ltb (stablePlacementKeys a).2.2 (stablePlacementKeys b).2.2)))).

Definition component (name : string) (c : PlacementCandidate) : float64 := default f0 (component_scores c !! name).

(** [if compared := compareFloat(...); compared != 0 { return compared < 0 }] *)
Definition by_float (key : PlacementCandidate → float64) (ascending : bool) (rest : PlacementCandidate → PlacementCandidate → bool)
    (a b : PlacementCandidate) : bool :=
  let compared := compareFloat (key a) (key b) ascending in
  if negb (compared =? 0) then compared <? 0 else rest a b.

Definition policy_less (p : Policy) : PlacementCandidate → PlacementCandidate → bool :=
  let by_score := by_float cand_score false stableCandidateLess in
  match p with
  | Binpack => by_float (component "capacity_headroom") true by_score
  | TraceAware => by_float (component "trace_affinity") false by_score
  | _ => by_score
  end.

Definition required_component (p : Policy) : string :=
  match p with Binpack => "capacity_headroom" | TraceAware => "trace_affinity" | _ => "" end.

Definition choose_first (p : Policy) (input : SelectionInput) : option (nat * PlacementCandidate) * string :=
  match eligibleCandidates input (required_component p) with
  | None => (None, invalidSelectionInput)
  | Some eligible =>
      match sort_by (λ a b, policy_less p a.2 b.2) eligible with
      | [] => (None, "NO_CANDIDATE")
      | c :: _ => (Some c, "")
      end
  end.

Definition Choose (p : Policy) (snapshot : option ClusterSnapshot) (input : SelectionInput) :
    option (nat * PlacementCandidate) * string :=
  match p with
  | NoOp => (None, "NO_OP_POLICY")
  | Static => if bool_decide (from_option allocations [] snapshot = []) then (None, "STATIC_EMPTY") else (None, "STATIC")
  | _ => choose_first p input
  end.

(** The policy as the candidate engine calls it
    ([scheduler.EvaluateWithContext], [selectCandidate]). *)
Definition selectCandidate (p : Policy) (snapshot : ClusterSnapshot) (unitID : string) (input : list PlacementCandidate) (topK : Z) :
    Choice * string :=
  match Choose p (Some snapshot) (mkSelectionInput unitID (Some <$> input) topK) with
  | (Some (i, _), fallback) => (ChoiceOf i, fallback)
  | (None, fallback) => (NoChoice, fallback)
  end.

(** ** Preemption *)

Definition FallbackDisabled : string := "PREEMPTION_DISABLED".
Definition FallbackUnsafe : string := "PREEMPTION_UNSAFE".
Definition FallbackNotExpressible : string := "PREEMPTION_NOT_EXPRESSIBLE".
Definition FallbackInsufficient : string := "PREEMPTION_INSUFFICIENT".

Record Victim := mkVictim { victim_Allocation : option Allocation; Pressure : float64 }.

(** The comparison of two sorted lists of device IDs: the first difference decides,
    then the length. *)
Fixpoint ids_less (l r : list string) : option bool :=
  match l, r with
  | [], [] => None
  | [], _ => Some true
  | _, [] => Some false
  | x :: l, y :: r => if decide (x = y) then ids_less l r else Some (str_ltb x y)
  end.

Definition victim_devices (v : Victim) : list string := from_option al_device_ids [] (victim_Allocation v).

Definition victim_less (a b : Victim) : bool :=
  if negb (feqb (Pressure a) (Pressure b)) then fltb (Pressure a) (Pressure b) else
  match ids_less (sort_strings (victim_devices a)) (sort_strings (victim_devices b)) with
  | Some r => r
  | None => str_ltb (from_option allocation_id "" (victim_Allocation a)) (from_option allocation_id "" (victim_Allocation b))
  end.

(** One allocation of the snapshot as a victim for a unit of a priority. *)
Definition victim_of (priority : Z) (a : Allocation) : option Victim :=
  match al_state a, al_priority a with
  | ALLOCATION_STATE_ACTIVE, Some p => if priority <=? p then None else Some (mkVictim (Some a) (f_of_Z p))
  | _, _ => None
  end.

Definition Pick (snapshot : option ClusterSnapshot) (u : option PendingUnit) : list Victim :=
  match snapshot, u with
  | Some s, Some u => sort_by victim_less (omap (victim_of (pu_priority u)) (allocations s))
  | _, _ => []
  end.

Definition supportsRelease (c : option CapabilitySet) : bool :=
  from_option (λ c, bool_decide ("release" ∈ supported_actions c)) false c.

(** [None]: the victim can be released. *)
Definition CanRelease (s : ClusterSnapshot) (v : Victim) (safePoint : bool) : option string :=
  if negb safePoint then Some FallbackUnsafe else
  match victim_Allocation v with
  | None => Some FallbackNotExpressible
  | Some a =>
      if bool_decide (al_priority a = None) || bool_decide (allocation_id a = "") || bool_decide (al_pending_unit_id a = "") ||
         bool_decide (al_runtime_unit_id a = "") || bool_decide (al_sandbox_id a = "") || bool_decide (al_binding_id a = "") ||
         (al_generation a =? 0) then Some FallbackNotExpressible else
      match al_device_ids a with
      | [d] =>
          if existsb (λ device, bool_decide (device_id device = d) && supportsRelease (device_capabilities device)) (devices s)
          then None else Some FallbackNotExpressible
      | _ => Some FallbackNotExpressible
      end
  end.

(** ** The chosen candidate *)

Lemma sort_by_ext {A} (less less' : A → A → bool) l :
  (∀ a b, a ∈ l → b ∈ l → less a b = less' a b) → sort_by less l = sort_by less' l.
Proof.
  induction l as [|x l IH]; intros H; [done|]. cbn [sort_by]. rewrite IH by (intros; apply H; by right).
  assert (Hx : ∀ y, y ∈ sort_by less' l → less y x = less' y x) by (intros y Hy; apply H; [right; by apply elem_of_sort_by in Hy|by left]).
  clear H IH. induction (sort_by less' l) as [|y k IHk]; [done|]. cbn [insert_by]. rewrite Hx by (by left).
  destruct (less' y x); [|done]. rewrite IHk; [done|]. intros z Hz. apply Hx. by right.
Qed.

(** The policies' comparison on numbers. *)
Definition float_less (key : PlacementCandidate → float64) (ascending : bool) (a b : PlacementCandidate) : bool :=
  if ascending then key_ltb (fkey (key a)) (fkey (key b)) else key_ltb (fkey (key b)) (fkey (key a)).

#[export] Instance float_less_sw key ascending : StrictWeak (float_less key ascending).
Proof.
  unfold float_less. destruct ascending; [apply (key_less_sw key_ltb (λ c, fkey (key c))), _|].
  apply flip_less_sw, (key_less_sw key_ltb (λ c, fkey (key c))), _.
Qed.

Lemma by_float_less key ascending rest a b :
  IsNaN (key a) = false → IsNaN (key b) = false →
  by_float key ascending rest a b = lex_less (float_less key ascending) rest a b.
Proof.
  intros Ha Hb. unfold by_float, compareFloat, lex_less, float_less. rewrite Ha, Hb. cbn [andb]. rewrite feqb_fltb by done.
  rewrite <-!fltb_key by done. pose proof (fltb_asym (key a) (key b)). pose proof (fltb_asym (key b) (key a)).
  destruct (fltb (key a) (key b)), (fltb (key b) (key a)), ascending; cbn; naive_solver.
Qed.

#[export] Instance stableCandidateLess_sw : StrictWeak stableCandidateLess.
Proof.
  unfold stableCandidateLess. apply lex_less_sw; [apply (key_less_sw str_ltb (λ c, (stablePlacementKeys c).1)), _|].
  apply lex_less_sw; [apply (key_less_sw str_ltb (λ c, (stablePlacementKeys c).2.1)), _|].
  apply lex_less_sw; [apply (key_less_sw str_ltb candidate_id), _|].
  apply lex_less_sw; [apply (key_less_sw str_ltb (λ c, from_option plan_id "" (cand_plan c))), _|].
  apply (key_less_sw str_ltb (λ c, (stablePlacementKeys c).2.2)), _.
Qed.

Definition ideal_less (p : Policy) : PlacementCandidate → PlacementCandidate → bool :=
  let by_score := lex_less (float_less cand_score false) stableCandidateLess in
  match p with
  | Binpack => lex_less (float_less (component "capacity_headroom") true) by_score
  | TraceAware => lex_less (float_less (component "trace_affinity") false) by_score
  | _ => by_score
  end.

#[export] Instance ideal_less_sw p : StrictWeak (ideal_less p).
Proof. unfold ideal_less. destruct p; apply _. Qed.

(** Two candidates neither of which comes before the other have the same ID. *)
Lemma stable_tie a b : stableCandidateLess a b = false → stableCandidateLess b a = false → candidate_id a = candidate_id b.
Proof.
  unfold stableCandidateLess, lex_less. intros H1 H2. repeat case_match; simplify_eq/=. by apply str_ltb_total.
Qed.

Lemma ideal_tie p a b : ideal_less p a b = false → ideal_less p b a = false → candidate_id a = candidate_id b.
Proof.
  assert (Hlex : ∀ l1 l2 : PlacementCandidate → PlacementCandidate → bool, lex_less l1 l2 a b = false → lex_less l1 l2 b a = false →
    l2 a b = false ∧ l2 b a = false) by (intros l1 l2; unfold lex_less; destruct (l1 a b), (l1 b a); naive_solver).
  unfold ideal_less. intros H1 H2.
  destruct p; repeat match goal with H : lex_less _ _ a b = false, H' : lex_less _ _ b a = false |- _ => destruct (Hlex _ _ H H'); clear H H' end;
    by apply stable_tie.
Qed.

(** A candidate a policy may rank. *)
Definition rankable (p : Policy) (unitID : string) (c : PlacementCandidate) : Prop :=
  validCandidateForUnit (Some c) unitID (required_component p) = true.

Lemma rankable_less p unitID a b : rankable p unitID a → rankable p unitID b → policy_less p a b = ideal_less p a b.
Proof.
  assert (Hn : ∀ c, rankable p unitID c → IsNaN (cand_score c) = false ∧ (required_component p ≠ "" → IsNaN (component (required_component p) c) = false)).
  { intros c Hc. unfold rankable, validCandidateForUnit in Hc.
    destruct (_ || _ || _ || _) eqn:E1; [done|]. destruct (negb (bool_decide (required_component p = "")) && _) eqn:E2; [done|]. bool_props.
    split; [by unfold invalidFloat in *; bool_props|]. intros Hr. rewrite bool_decide_false in E2 by done. cbn [negb andb] in E2. bool_props.
    unfold component. destruct (component_scores c !! required_component p) as [v|]; [|done]. cbn in *. unfold finite, invalidFloat in *.
    bool_props. by bool_props. }
  intros [Ha1 Ha2]%Hn [Hb1 Hb2]%Hn. unfold policy_less, ideal_less. clear Hn.
  destruct p; cbn [required_component] in *; try (by apply by_float_less).
  all: rewrite by_float_less by (by auto); unfold lex_less; by rewrite by_float_less by done.
Qed.

(** What the eligible candidates are: all of the input, each valid, no two with one ID. *)
Lemma check_candidates_iff p unitID seen index cs l :
  check_candidates unitID (required_component p) seen index cs = Some l ↔
  cs = (Some ∘ snd <$> l) ∧ (fst <$> l = seq index (length l)) ∧ Forall (rankable p unitID) (snd <$> l) ∧
  NoDup (candidate_id <$> (snd <$> l)) ∧ Forall (λ c, candidate_id c ∉ seen) (snd <$> l).
Proof.
  revert seen index l. induction cs as [|[c|] cs IH]; intros seen index l; cbn [check_candidates].
  - split; [intros [= <-]; split_and!; constructor|]. intros (H & _). by destruct l.
  - destruct (validCandidateForUnit (Some c) unitID (required_component p)) eqn:Hv; cbn [negb].
    + case_bool_decide as Hs.
      * split; [done|]. intros (H & _ & _ & _ & Hall). destruct l as [|[i c'] l]; [done|]. injection H as <- _.
        apply Forall_cons_1 in Hall as [Hall _]. done.
      * rewrite bind_Some. split.
        -- intros (rest & Hr & [= <-]). apply IH in Hr as (-> & E & Hall & Hnd & Hns). cbn. rewrite E. split_and!; [done|done| | |].
           ++ by constructor.
           ++ constructor; [|done]. rewrite list_elem_of_fmap. intros (x & Ex & Hx). rewrite Forall_forall in Hns. apply (Hns x Hx). set_solver.
           ++ constructor; [done|]. eapply Forall_impl; [exact Hns|]. cbn beta. set_solver.
        -- intros (H & E & Hall & Hnd & Hns). destruct l as [|[i c'] l]; [done|]. cbn in *. injection H as <- ->. injection E as -> E.
           apply Forall_cons_1 in Hall as [_ Hall], Hns as [_ Hns]. apply NoDup_cons in Hnd as [Hid Hnd].
           exists l. split; [|done]. apply IH. split_and!; [done|done|done|done|]. rewrite Forall_forall in Hns |- *. intros x Hx.
           specialize (Hns x Hx). assert (candidate_id x ≠ candidate_id c) by (intros Ex; apply Hid; rewrite <-Ex; by apply list_elem_of_fmap_2).
           set_solver.
    + split; [done|]. intros (H & _ & Hall & _). destruct l as [|[i c'] l]; [done|]. injection H as <- _.
      apply Forall_cons_1 in Hall as [Hall _]. unfold rankable in Hall. cbn [snd] in Hall. congruence.
  - split; [done|]. intros (H & _). by destruct l as [|[i c'] l].
Qed.

Lemma eligibleCandidates_iff p input l :
  eligibleCandidates input (required_component p) = Some l ↔
  TrimSpace (si_UnitID input) ≠ "" ∧ Z.of_nat (length (si_Candidates input)) ≤ si_TopK input ∧ 1 ≤ si_TopK input ∧
  si_Candidates input = (Some ∘ snd <$> l) ∧ (fst <$> l = seq 0 (length l)) ∧
  Forall (rankable p (TrimSpace (si_UnitID input))) (snd <$> l) ∧ NoDup (candidate_id <$> (snd <$> l)).
Proof.
  unfold eligibleCandidates. cbv zeta. destruct (_ || _ || _) eqn:E.
  - split; [done|]. intros (H1 & H2 & H3 & _). rewrite bool_decide_false in E by done. cbn [orb] in E.
    apply orb_true_iff in E as [E|E]; apply Z.ltb_lt in E; lia.
  - bool_props. rewrite check_candidates_iff. split; [by intros (? & ? & ? & ? & _)|]. intros (_ & _ & _ & ? & ? & ? & ?).
    split_and!; try done. apply Forall_forall. set_solver.
Qed.

(** The policies that rank: what they answer, up to the position of the choice. *)
Lemma choose_first_ranked p input l :
  eligibleCandidates input (required_component p) = Some l →
  prod_map (fmap snd) id (choose_first p input) =
    match sort_by (ideal_less p) (snd <$> l) with [] => (None, "NO_CANDIDATE") | c :: _ => (Some c, "") end.
Proof.
  intros Hl. unfold choose_first. rewrite Hl. apply eligibleCandidates_iff in Hl as (_ & _ & _ & _ & _ & Hr & _).
  rewrite (sort_by_ext _ (λ a b : nat * PlacementCandidate, ideal_less p a.2 b.2)).
  2:{ intros a b Ha Hb. rewrite Forall_fmap, Forall_forall in Hr. eapply rankable_less; by apply Hr. }
  assert (Hs : snd <$> sort_by (λ a b : nat * PlacementCandidate, ideal_less p a.2 b.2) l = sort_by (ideal_less p) (snd <$> l)).
  { clear. induction l as [|x l IH]; [done|]. cbn [sort_by]. rewrite fmap_cons. cbn [sort_by]. rewrite <-IH. clear IH.
    induction (sort_by _ l) as [|y k IHk]; [done|]. cbn [insert_by]. rewrite fmap_cons. cbn [insert_by].
    destruct (ideal_less p y.2 x.2); [|done]. by rewrite fmap_cons, IHk. }
  rewrite <-Hs. by destruct (sort_by _ l) as [|[i c] k].
Qed.

(** The input is one a policy accepts: a unit, no more candidates than asked for, each
    valid for the unit, no two with one ID. *)
Definition acceptable (p : Policy) (input : SelectionInput) : Prop :=
  TrimSpace (si_UnitID input) ≠ "" ∧ 1 ≤ si_TopK input ∧ Z.of_nat (length (si_Candidates input)) ≤ si_TopK input ∧
  ∃ cs, si_Candidates input = (Some <$> cs) ∧ Forall (rankable p (TrimSpace (si_UnitID input))) cs ∧ NoDup (candidate_id <$> cs).

Lemma eligible_acceptable p input : is_Some (eligibleCandidates input (required_component p)) ↔ acceptable p input.
Proof.
  split.
  - intros [l (H1 & H2 & H3 & H4 & H5 & H6 & H7)%eligibleCandidates_iff]. split_and!; try done. exists (snd <$> l).
    rewrite <-list_fmap_compose. by split_and!.
  - intros (H1 & H2 & H3 & cs & H4 & H5 & H6). exists (imap pair cs). apply eligibleCandidates_iff.
    assert (E1 : snd <$> imap pair cs = cs) by (apply list_eq; intros i; rewrite list_lookup_fmap, list_lookup_imap; by destruct (cs !! i)).
    rewrite list_fmap_compose, E1. split_and!; try done. rewrite fmap_imap, length_imap.
    apply list_eq. intros i. rewrite list_lookup_imap. cbn. destruct (cs !! i) as [c|] eqn:E.
    + cbn. symmetry. apply lookup_seq. split; [lia|by eapply lookup_lt_Some].
    + cbn. symmetry. apply lookup_seq_ge. by apply lookup_ge_None.
Qed.

Lemma Choose_ranks p snapshot input : p ∈ [Binpack; TraceAware; ScoreFirst] → Choose p snapshot input = choose_first p input.
Proof. set_solver. Qed.

(** The choice stands in the shortlist at its position and nothing comes before it. *)
Lemma choose_first_least p input l :
  eligibleCandidates input (required_component p) = Some l →
  match choose_first p input with
  | (None, fallback) => fallback = "NO_CANDIDATE" ∧ si_Candidates input = []
  | (Some (i, c), fallback) => fallback = "" ∧ si_Candidates input !! i = Some (Some c) ∧
      ∀ c', Some c' ∈ si_Candidates input → policy_less p c' c = false
  end.
Proof.
  intros Hl. pose proof (choose_first_ranked p input l Hl) as Hr.
  pose proof Hl as (_ & _ & _ & H4 & H5 & H6 & _)%eligibleCandidates_iff.
  unfold choose_first in *. rewrite Hl in *. destruct (sort_by _ l) as [|[i c] k] eqn:Hs.
  - split; [done|]. destruct l as [|x l]; [done|]. apply (f_equal length) in Hs. by rewrite sort_by_length in Hs.
  - cbn in Hr. pose proof (sort_by_sorted (ideal_less p) (snd <$> l)) as Hsorted.
    destruct (sort_by (ideal_less p) (snd <$> l)) as [|c0 k0] eqn:Hs0; [done|]. injection Hr as <-.
    assert (Hin : (i, c) ∈ l) by (apply (elem_of_sort_by (λ a b : nat * PlacementCandidate, policy_less p a.2 b.2)); rewrite Hs; by left).
    assert (Hci : c ∈ snd <$> l) by (by apply (list_elem_of_fmap_2 snd l (i, c))).
    split; [done|]. split.
    + apply list_elem_of_lookup in Hin as [j Hj]. assert (j = i) as ->.
      { assert ((fst <$> l) !! j = Some i) as E by (by rewrite list_lookup_fmap, Hj). rewrite H5 in E. by apply lookup_seq in E as [-> _]. }
      by rewrite H4, list_lookup_fmap, Hj.
    + intros c' Hc'. rewrite H4, list_fmap_compose in Hc'. apply list_elem_of_fmap in Hc' as (x & [= <-] & Hx).
      rewrite Forall_forall in H6. rewrite (rankable_less p _ c' c (H6 _ Hx) (H6 _ Hci)).
      rewrite <-(elem_of_sort_by (ideal_less p)), Hs0 in Hx. apply elem_of_cons in Hx as [->|Hx]; [apply sw_irrefl, _|].
      inversion Hsorted as [|? ? _ Hall]; subst. rewrite Forall_forall in Hall. by apply Hall.
Qed.

(** Which candidate is chosen does not depend on the order of the shortlist. *)
Lemma choose_first_order p input cs :
  acceptable p input → cs ≡ₚ si_Candidates input →
  prod_map (fmap snd) id (choose_first p (mkSelectionInput (si_UnitID input) cs (si_TopK input))) =
  prod_map (fmap snd) id (choose_first p input).
Proof.
  intros Ha Hcs. pose proof (proj2 (eligible_acceptable p input) Ha) as [l Hl]. rewrite (choose_first_ranked p input l Hl).
  pose proof Hl as (H1 & H2 & H3 & H4 & _ & H6 & H7)%eligibleCandidates_iff.
  assert (Hperm : ∃ cs', cs = (Some <$> cs') ∧ cs' ≡ₚ snd <$> l).
  { rewrite H4, list_fmap_compose in Hcs. apply Permutation_map_inv in Hcs. destruct Hcs as (cs' & -> & Hp'). by exists cs'. }
  destruct Hperm as (cs' & -> & Hperm). set (input' := mkSelectionInput _ _ _).
  assert (Ha' : acceptable p input').
  { split_and!; cbn; [done|done|by rewrite length_fmap, Hperm, length_fmap, <-(length_fmap (Some ∘ snd)), <-H4|].
    exists cs'. split; [done|]. by rewrite Hperm. }
  apply eligible_acceptable in Ha' as [l' Hl']. rewrite (choose_first_ranked p input' l' Hl').
  apply eligibleCandidates_iff in Hl' as (_ & _ & _ & H4' & _). cbn in H4'. rewrite list_fmap_compose in H4'.
  apply (inj (fmap Some)) in H4'. rewrite <-H4'. rewrite (sort_by_unique _ cs' (snd <$> l)); [done| |done].
  intros x y Hx Hy Hxy Hyx. rewrite Hperm in Hx, Hy. apply list_elem_of_lookup in Hx as [i Hi], Hy as [j Hj].
  assert (i = j) as ->; [|congruence].
  eapply NoDup_lookup; [exact H7| |]; rewrite list_lookup_fmap; [by rewrite Hi|]. rewrite Hj. cbn. by rewrite (ideal_tie _ _ _ Hxy Hyx).
Qed.

(** A ranking policy refuses exactly the inputs that are not acceptable; on an
    acceptable one it chooses a candidate of the shortlist that none comes before, unless
    the shortlist is empty, and which one does not depend on the order of the shortlist. *)
Theorem Choose_least p snapshot input :
  p ∈ [Binpack; TraceAware; ScoreFirst] →
  (¬ acceptable p input → Choose p snapshot input = (None, invalidSelectionInput)) ∧
  (acceptable p input →
   match Choose p snapshot input with
   | (None, fallback) => fallback = "NO_CANDIDATE" ∧ si_Candidates input = []
   | (Some (i, c), fallback) => fallback = "" ∧ si_Candidates input !! i = Some (Some c) ∧
       ∀ c', Some c' ∈ si_Candidates input → policy_less p c' c = false
   end ∧
   ∀ cs, cs ≡ₚ si_Candidates input →
     prod_map (fmap snd) id (Choose p snapshot (mkSelectionInput (si_UnitID input) cs (si_TopK input))) =
     prod_map (fmap snd) id (Choose p snapshot input)).
Proof.
  intros Hp. rewrite (Choose_ranks p snapshot input Hp). split.
  - intros Hn. unfold choose_first. destruct (eligibleCandidates _ _) as [l|] eqn:E; [|done]. exfalso. apply Hn, eligible_acceptable. by exists l.
  - intros Ha. destruct (proj2 (eligible_acceptable p input) Ha) as [l Hl]. split; [by apply (choose_first_least p input l)|].
    intros cs Hcs. rewrite (Choose_ranks p snapshot _ Hp). by apply choose_first_order.
Qed.

(** ** The chosen candidate of a concrete shortlist *)

Module PolicyWitnesses.
Definition plan_of (device : string) : PlacementPlan :=
  mkPlan ("plan-" +:+ device) "e" "s" 1 7 [Some (mkBinding ("b-" +:+ device) "u" [device] None "" 0 "")] [] None None "dec" "r" "t"
    DATA_KIND_LIVE 1 "" "j" PLAN_PURPOSE_ADMISSION ROLLBACK_POLICY_NOT_REQUIRED [] [] "".
Definition candidate (device : string) (score headroom : float64) : PlacementCandidate :=
  mkCandidate ("c-" +:+ device) (Some (plan_of device)) score {[ "capacity_headroom" := headroom ]}.
Definition wide : PlacementCandidate := candidate "d1" f1 (f_ratio 3 4).
Definition tight : PlacementCandidate := candidate "d2" f0 (f_ratio 1 4).
Definition shortlist : SelectionInput := mkSelectionInput " u " [Some wide; Some tight] 2.

Lemma shortlist_acceptable : acceptable Binpack shortlist.
Proof. apply eligible_acceptable. eexists. by vm_compute. Qed.

(** Binpack takes the device with the smaller headroom, whatever the scores. *)
Lemma Choose_least_witness :
  (Choose Binpack None shortlist).2 = "" ∧ fmap fst (Choose Binpack None shortlist).1 = Some 1%nat ∧
  prod_map (fmap snd) id (Choose Binpack None (mkSelectionInput " u " [Some tight; Some wide] 2)) =
  prod_map (fmap snd) id (Choose Binpack None shortlist).
Proof.
  destruct (Choose_least Binpack None shortlist ltac:(by left)) as [_ H]. destruct (H shortlist_acceptable) as [_ Ho].
  split; [by vm_compute|]. split; [by vm_compute|]. apply Ho. apply Permutation_swap.
Defined.
End PolicyWitnesses.
