(* ===== verification/PhaseGraph.v ===== *)
(** * The phase graph of an execution contract
      ([scheduler-go/scheduler/validation.go], [validateExecutionContract])

    The checks of the graph of phases, with the sort of Kahn that decides whether it
    is acyclic.  The order in which Go iterates over the set of entries is a parameter:
    the queue starts with some permutation of it. *)

From Stdlib Require Import ZArith Lia Ascii.
From S2P Require Import Prelude GoStrings ComponentRegistry.
From stdpp Require Import options.

Local Open Scope Z_scope.

(** ** Data *)

Record ValidationError := mkInvalid { Field : string; Reason : string }.

(** [invalid] *)
Definition invalid {A} (field reason : string) : Result ValidationError A := Err (mkInvalid field reason).

Definition check (b : bool) (field reason : string) : Result ValidationError unit := guard_err b (mkInvalid field reason).

Inductive PhaseKind :=
| PHASE_KIND_UNKNOWN | PHASE_KIND_PREFILL | PHASE_KIND_DECODE | PHASE_KIND_TOOL_WAIT | PHASE_KIND_KV_RESTORE
| PHASE_KIND_REFERENCE | PHASE_KIND_REWARD | PHASE_KIND_ACTOR | PHASE_KIND_OPTIMIZER | PHASE_KIND_WEIGHT_SYNC
| PHASE_KIND_IDLE | PHASE_KIND_UNNAMED (n : Z).

#[export] Instance PhaseKind_eq_dec : EqDecision PhaseKind.
Proof. solve_decision. Defined.

Record Phase := mkPhase {
  phase_id : string;
  phase_display_name : string;
  phase_kind : PhaseKind;
  parallelism : Z;
  max_attempts : Z;
  phase_labels : gmap string string;
}.

Record PhaseEdge := mkEdge { from_phase_id : string; to_phase_id : string; edge_condition : string }.

Record PhaseGraph := mkGraph {
  phases : list (option Phase);
  edges : list (option PhaseEdge);
  entry_phase_ids : list string;
}.

Definition canonicalNonEmpty (value : string) : bool :=
  negb (bool_decide (value = "")) && bool_decide (value = TrimSpace value).

Definition phase_kind_known (k : PhaseKind) : bool :=
  match k with PHASE_KIND_UNKNOWN | PHASE_KIND_UNNAMED _ => false | _ => true end.

(** ** The checks *)

Definition graph_field : string := "intent.execution_contract.phase_graph".

Definition valid_phase (p : Phase) : bool :=
  canonicalNonEmpty (phase_id p) && negb (bool_decide (TrimSpace (phase_display_name p) = "")) &&
  phase_kind_known (phase_kind p) && negb (parallelism p =? 0) && negb (max_attempts p =? 0).

Definition canonical_keys (m : gmap string string) : bool := forallb canonicalNonEmpty (elements (dom m)).

Fixpoint check_phases (seen : gmap string Phase) (ps : list (option Phase)) : Result ValidationError (gmap string Phase) :=
  match ps with
  | [] => Ok seen
  | None :: _ => invalid graph_field "contains an invalid phase"
  | Some p :: ps =>
      _ ← check (valid_phase p) graph_field "contains an invalid phase";
      _ ← check (canonical_keys (phase_labels p)) graph_field
            "phase label keys must be non-empty and have no surrounding whitespace";
      _ ← check (negb (bool_decide (is_Some (seen !! phase_id p)))) graph_field "phase IDs must be unique";
      check_phases (<[phase_id p := p]> seen) ps
  end.

(** The adjacency lists and the in-degrees. *)
Definition Links : Type := gmap string (list string) * gmap string Z.

Definition add_edge (l : Links) (e : string * string) : Links :=
  (<[e.1 := default [] (l.1 !! e.1) ++ [e.2]]> l.1, <[e.2 := default 0 (l.2 !! e.2) + 1]> l.2).

Fixpoint check_edges (known : gmap string Phase) (l : Links) (es : list (option PhaseEdge)) : Result ValidationError Links :=
  match es with
  | [] => Ok l
  | None :: _ => invalid graph_field "contains an invalid edge"
  | Some e :: es =>
      _ ← check (bool_decide (is_Some (known !! from_phase_id e)) && bool_decide (is_Some (known !! to_phase_id e)) &&
                 negb (bool_decide (from_phase_id e = to_phase_id e))) graph_field "contains an invalid edge";
      check_edges known (add_edge l (from_phase_id e, to_phase_id e)) es
  end.

Definition NUL : string := String (ascii_of_N 0) "".

Definition edge_key (e : PhaseEdge) : string := from_phase_id e +:+ NUL +:+ to_phase_id e.

Fixpoint unique_keys (seen : gset string) (keys : list string) : bool :=
  match keys with
  | [] => true
  | k :: keys => negb (bool_decide (k ∈ seen)) && unique_keys ({[k]} ∪ seen) keys
  end.

Definition entries_field : string := "intent.execution_contract.phase_graph.entry_phase_ids".

Fixpoint check_entries (known : gmap string Phase) (indegree : gmap string Z) (seen : gset string) (entries : list string) :
    Result ValidationError (gset string) :=
  match entries with
  | [] => Ok seen
  | entry :: entries =>
      _ ← check (canonicalNonEmpty entry && bool_decide (is_Some (known !! entry)) &&
                 (default 0 (indegree !! entry) =? 0)) entries_field "must identify graph roots";
      _ ← check (negb (bool_decide (entry ∈ seen))) entries_field "must be unique";
      check_entries known indegree ({[entry]} ∪ seen) entries
  end.

(** The successors of a visited phase lose an edge; those with none left are queued. *)
Fixpoint relax (nexts : list string) (indegree : gmap string Z) (queue : list string) : gmap string Z * list string :=
  match nexts with
  | [] => (indegree, queue)
  | next :: nexts =>
      let degree := default 0 (indegree !! next) - 1 in
      relax nexts (<[next := degree]> indegree) (if degree =? 0 then queue ++ [next] else queue)
  end.

(** The number of phases visited; [None]: out of fuel. *)
Fixpoint visit (fuel : nat) (adjacency : gmap string (list string)) (indegree : gmap string Z) (queue : list string)
    (visited : Z) : option Z :=
  match queue with
  | [] => Some visited
  | current :: queue =>
      match fuel with
      | O => None
      | S fuel =>
          let '(indegree, queue) := relax (default [] (adjacency !! current)) indegree queue in
          visit fuel adjacency indegree queue (visited + 1)
      end
  end.

Definition no_edges (known : gmap string Phase) : Links := (∅, (λ _, 0) <$> known).

Definition validatePhaseGraph (order : gset string → list string) (g : PhaseGraph) : Result ValidationError (gmap string Phase) :=
  known ← check_phases ∅ (phases g);
  _ ← check (negb (bool_decide (known = ∅))) graph_field "must contain phases";
  links ← check_edges known (no_edges known) (edges g);
  _ ← check (unique_keys ∅ (edge_key <$> omap id (edges g))) graph_field "edges must be unique";
  entries ← check_entries known links.2 ∅ (entry_phase_ids g);
  _ ← check (negb (bool_decide (entries = ∅))) entries_field "must not be empty";
  _ ← check (forallb (λ p : string * Z, Bool.eqb (p.2 =? 0) (bool_decide (p.1 ∈ entries))) (map_to_list links.2)) entries_field
        "must exactly identify graph roots";
  _ ← check (bool_decide (visit (size known) links.1 links.2 (order entries) 0 = Some (Z.of_nat (size known)))) graph_field
        "must be acyclic and reachable";
  Ok known.

(** ** Chains and cycles *)

Section Cycles.
Context {A : Type} `{EqDecision A} (R : relation A).

(** Each element of a chain has the next one before it. *)
Fixpoint chain (l : list A) : Prop :=
  match l with
  | x :: (y :: _) as l' => R y x ∧ chain l'
  | _ => True
  end.

Lemma chain_tl x l : chain (x :: l) → chain l.
Proof. destruct l; [done|]. by intros [_ ?]. Qed.

Lemma chain_tc x l y : chain (x :: l) → y ∈ l → tc R y x.
Proof.
  revert x. induction l as [|z l IH]; intros x Hc Hy; [by apply elem_of_nil in Hy|]. destruct Hc as [Hzx Hc].
  apply elem_of_cons in Hy as [->|Hy]; [by apply tc_once|]. eapply tc_r; [by apply IH|done].
Qed.

Lemma chain_repeats l : chain l → ¬ NoDup l → ∃ x, tc R x x.
Proof using Type*.
  induction l as [|x l IH]; intros Hc Hn; [destruct Hn; constructor|]. destruct (decide (x ∈ l)) as [Hx|Hx].
  - exists x. by apply (chain_tc x l).
  - apply IH; [by eapply chain_tl|]. intros Hnd. apply Hn. by constructor.
Qed.

(** Where everything has a predecessor there is a cycle. *)
Lemma predecessors_cycle (S : list A) :
  S ≠ [] → (∀ v, v ∈ S → ∃ u, u ∈ S ∧ R u v) → ∃ x, tc R x x.
Proof using Type*.
  intros Hne Hpred.
  assert (Hch : ∀ n, ∃ l, length l = Datatypes.S n ∧ l ⊆ S ∧ chain (reverse l)).
  { intros n. assert (∀ n, ∃ l v, v ∈ S ∧ length l = n ∧ l ⊆ S ∧ chain (l ++ [v])) as Hgo; [|
      destruct (Hgo n) as (l & v & Hv & Hl & Hs & Hc); exists (reverse (l ++ [v])); rewrite reverse_involutive, length_reverse, length_app; cbn;
      split_and!; [lia| |done]; intros x Hx; rewrite elem_of_reverse in Hx; set_solver].
    clear n. induction n as [|n (l & v & Hv & Hl & Hs & Hc)].
    - destruct S as [|v S']; [done|]. exists [], v. split_and!; [by left|done|set_solver|done].
    - destruct (Hpred v Hv) as (u & Hu & Hr). exists (l ++ [v]), u. rewrite length_app. cbn. split_and!; [done|lia|set_solver|].
      clear -Hc Hr. induction l as [|x l IH]; [by split|]. pose proof (chain_tl _ _ Hc) as Hc'. specialize (IH Hc').
      destruct l as [|y l]; cbn in *; [by destruct Hc|]. by destruct Hc. }
  destruct (Hch (length S)) as (l & Hl & Hs & Hc). eapply chain_repeats; [exact Hc|]. rewrite reverse_Permutation. intros Hnd.
  pose proof (submseteq_length _ _ (NoDup_submseteq _ _ Hnd Hs)). lia.
Qed.

(** Every predecessor of an element comes later in the list. *)
Fixpoint topological (l : list A) : Prop :=
  match l with [] => True | x :: l => (∀ u, R u x → u ∈ l) ∧ topological l end.

Lemma topological_tc l u v : tc R u v → topological l → ∀ l1 l2, l = l1 ++ v :: l2 → u ∈ l2.
Proof.
  induction 1 as [u v Huv|u w v Huw Hwv IH]; intros Ht l1 l2 ->.
  - assert (Ht2 : topological (v :: l2)) by (clear -Ht; induction l1 as [|x l1 IHl]; [done|by apply IHl, Ht]). by apply Ht2.
  - pose proof (IH Ht l1 l2 eq_refl) as Hw. apply list_elem_of_split in Hw as (a & b & ->).
    assert (Ht2 : topological (w :: b)).
    { clear -Ht. induction l1 as [|x l1 IHl]; [|by apply IHl, Ht]. destruct Ht as [_ Ht]. clear v.
      induction a as [|x a IHa]; [done|by apply IHa, Ht]. }
    destruct Ht2 as [Ht2 _]. specialize (Ht2 u Huw). set_solver.
Qed.

Lemma topological_acyclic l v : topological l → NoDup l → v ∈ l → ¬ tc R v v.
Proof.
  intros Ht Hnd Hv Htc. apply list_elem_of_split in Hv as (l1 & l2 & ->).
  pose proof (topological_tc _ _ _ Htc Ht l1 l2 eq_refl) as Hin. apply NoDup_app in Hnd as (_ & _ & Hnd). by apply NoDup_cons in Hnd as [? _].
Qed.
End Cycles.

(** ** The sort *)

Section Kahn.
Context (es : list (string * string)).

Definition edge (u v : string) : Prop := (u, v) ∈ es.

(** The edges into a phase that do not come from [done]. *)
Definition open_edges (visited : list string) (v : string) : Z :=
  Z.of_nat (length (filter (λ e : string * string, e.2 = v ∧ e.1 ∉ visited) es)).

Definition successors (u : string) : list string := snd <$> filter (λ e : string * string, e.1 = u) es.

Definition times (v : string) (l : list string) : Z := Z.of_nat (length (filter (λ x, x = v) l)).

Lemma times_cons v x l : times v (x :: l) = (if decide (x = v) then 1 else 0) + times v l.
Proof. unfold times. rewrite filter_cons. case_decide; cbn [length]; lia. Qed.

Lemma open_edges_visit visited u v :
  u ∉ visited → open_edges (u :: visited) v + times v (successors u) = open_edges visited v.
Proof.
  intros Hu. unfold open_edges, successors. induction es as [|[a b] l IH]; [done|]. rewrite !filter_cons. cbn [fst snd].
  destruct (decide (a = u)) as [->|Ha].
  - rewrite (decide_False (P := b = v ∧ u ∉ u :: visited)) by set_solver. rewrite fmap_cons, times_cons. cbn [snd].
    destruct (decide (b = v)) as [->|Hb].
    + rewrite (decide_True (P := v = v ∧ u ∉ visited)) by done. cbn [length]. lia.
    + rewrite (decide_False (P := b = v ∧ u ∉ visited)) by naive_solver. lia.
  - destruct (decide (b = v ∧ a ∉ visited)) as [[-> Hv]|Hv].
    + rewrite decide_True by set_solver. cbn [length]. lia.
    + rewrite decide_False by set_solver. lia.
Qed.

Lemma open_edges_zero visited v : open_edges visited v = 0 ↔ ∀ u, edge u v → u ∈ visited.
Proof.
  unfold open_edges, edge. split.
  - intros H u Hu. destruct (decide (u ∈ visited)) as [?|Hn]; [done|]. exfalso.
    assert (Hin : (u, v) ∈ filter (λ e : string * string, e.2 = v ∧ e.1 ∉ visited) es) by (by apply list_elem_of_filter).
    destruct (filter _ es); [by apply elem_of_nil in Hin|]. cbn in H. lia.
  - intros H. destruct (filter _ es) as [|[u w] l] eqn:E; [done|]. exfalso.
    assert (Hin : (u, w) ∈ filter (λ e : string * string, e.2 = v ∧ e.1 ∉ visited) es) by (rewrite E; by left).
    apply list_elem_of_filter in Hin as [[Hw Hn] Hin]. cbn in Hw. subst w. by apply Hn, H.
Qed.

(** The state of the sort: [pending] are successors of the last visited phase whose
    edge is still counted. *)
Record sorting (nodes : list string) (visited pending queue : list string) (indegree : gmap string Z) : Prop := {
  so_nodup : NoDup (visited ++ queue);
  so_nodes : visited ++ queue ⊆ nodes;
  so_degree : ∀ v, v ∈ nodes → indegree !! v = Some (open_edges visited v + times v pending);
  so_queue : ∀ v, v ∈ nodes → v ∈ visited ++ queue ↔ open_edges visited v + times v pending = 0;
  so_order : topological edge visited;
}.

Lemma relax_sorting nodes visited pending queue indegree :
  pending ⊆ nodes → sorting nodes visited pending queue indegree →
  let r := relax pending indegree queue in sorting nodes visited [] r.2 r.1.
Proof.
  revert queue indegree. induction pending as [|w pending IH]; intros queue indegree Hsub Hs; [done|]. cbn [relax]. cbv zeta.
  assert (Hw : w ∈ nodes) by set_solver.
  assert (Hd : default 0 (indegree !! w) = open_edges visited w + 1 + times w pending).
  { rewrite (so_degree _ _ _ _ _ Hs w Hw), times_cons, decide_True by done. cbn. lia. }
  assert (Hpos : 0 ≤ open_edges visited w ∧ 0 ≤ times w pending) by (unfold open_edges, times; lia).
  assert (Hout : w ∉ visited ++ queue).
  { intros Hin. apply (so_queue _ _ _ _ _ Hs w Hw) in Hin. rewrite times_cons, decide_True in Hin by done. lia. }
  apply IH; [set_solver|]. rewrite Hd. destruct Hs as [H1 H2 H3 H4 H5].
  assert (Hdeg : ∀ v, v ∈ nodes → <[w:=open_edges visited w + 1 + times w pending - 1]> indegree !! v = Some (open_edges visited v + times v pending)).
  { intros v Hv. destruct (decide (v = w)) as [->|Hne]; [rewrite lookup_insert_eq; f_equal; lia|].
    rewrite lookup_insert_ne by done. rewrite (H3 v Hv), times_cons, decide_False by done. f_equal; lia. }
  destruct (Z.eqb_spec (open_edges visited w + 1 + times w pending - 1) 0) as [Hz|Hz].
  - split; [|set_solver|done| |done].
    + rewrite (assoc_L (++)). apply NoDup_app. split_and!; [done|set_solver|apply NoDup_singleton].
    + intros v Hv. rewrite (assoc_L (++)), elem_of_app, list_elem_of_singleton, (H4 v Hv), times_cons. case_decide as Hwv.
      * subst v. pose proof Hz. split; [intros _; lia|by right].
      * rewrite Z.add_0_l. naive_solver.
  - split; [done|done|done| |done]. intros v Hv. rewrite (H4 v Hv), times_cons. case_decide as Hwv; [subst v; lia|]. by rewrite Z.add_0_l.
Qed.

(** The loop visits every phase that has no cycle before it, in order. *)
Lemma visit_sorting nodes adjacency fuel visited queue indegree :
  NoDup nodes → (∀ u v, edge u v → v ∈ nodes) → (∀ u, u ∈ nodes → default [] (adjacency !! u) = successors u) →
  sorting nodes visited [] queue indegree → (length nodes ≤ fuel + length visited)%nat →
  ∃ all indegree', visit fuel adjacency indegree queue (Z.of_nat (length visited)) = Some (Z.of_nat (length all)) ∧
    sorting nodes all [] [] indegree'.
Proof.
  intros Hnd Hes Hadj. revert visited queue indegree. induction fuel as [|fuel IH]; intros visited queue indegree Hs Hfuel.
  - destruct queue as [|c queue]; [by exists visited, indegree|]. exfalso. destruct Hs as [H1 H2 _ _ _].
    pose proof (submseteq_length _ _ (NoDup_submseteq _ _ H1 H2)) as Hl. rewrite length_app in Hl. cbn in Hl. lia.
  - destruct queue as [|c queue]; [by exists visited, indegree|]. cbn [visit].
    assert (Hc : c ∈ nodes) by (apply (so_nodes _ _ _ _ _ Hs); set_solver).
    assert (Hcv : c ∉ visited).
    { pose proof (so_nodup _ _ _ _ _ Hs) as H. apply NoDup_app in H as (_ & H & _). intros Hin. apply (H c Hin). by left. }
    rewrite (Hadj c Hc).
    assert (Hpre : sorting nodes (c :: visited) (successors c) queue indegree).
    { pose proof (open_edges_visit visited c) as Hoe. destruct Hs as [H1 H2 H3 H4 H5]. split.
      - by rewrite <-(Permutation_middle visited queue c) in H1.
      - set_solver.
      - intros v Hv. rewrite (H3 v Hv), Hoe by done. unfold times. cbn. f_equal. lia.
      - intros v Hv. rewrite Hoe by done. pose proof (H4 v Hv) as H. unfold times in H. cbn in H. rewrite Z.add_0_r in H. rewrite <-H. set_solver.
      - split; [|done]. apply open_edges_zero. assert (Hq : c ∈ visited ++ c :: queue) by set_solver.
        apply (H4 c Hc) in Hq. unfold times in Hq. cbn in Hq. lia. }
    assert (Hsub : successors c ⊆ nodes).
    { intros v Hv. apply list_elem_of_fmap in Hv as ([a b] & -> & Hv). apply list_elem_of_filter in Hv as [_ Hv]. by apply (Hes a b). }
    pose proof (relax_sorting nodes (c :: visited) (successors c) queue indegree Hsub Hpre) as Hr. cbv zeta in Hr.
    destruct (relax (successors c) indegree queue) as [indegree' queue']. cbn [fst snd] in Hr.
    replace (Z.of_nat (length visited) + 1) with (Z.of_nat (length (c :: visited))) by (cbn [length]; lia).
    apply (IH (c :: visited) queue' indegree' Hr). cbn [length]. lia.
Qed.

End Kahn.

(** ** What the checks accept *)

Lemma check_Ok b field reason : check b field reason = Ok tt ↔ b = true.
Proof. apply guard_err_Ok. Qed.

Definition phase_ok (p : Phase) : Prop := valid_phase p = true ∧ canonical_keys (phase_labels p) = true.

Definition by_id (ps : list Phase) : gmap string Phase := list_to_map ((λ p, (phase_id p, p)) <$> ps).

Lemma by_id_lookup_None ps id : by_id ps !! id = None ↔ id ∉ phase_id <$> ps.
Proof.
  unfold by_id. rewrite <-not_elem_of_list_to_map. by rewrite <-list_fmap_compose.
Qed.

Lemma check_phases_Ok seen ps known :
  check_phases seen ps = Ok known ↔
  ∃ l, ps = (Some <$> l) ∧ Forall phase_ok l ∧ NoDup (phase_id <$> l) ∧ (∀ p, p ∈ l → seen !! phase_id p = None) ∧
    known = by_id l ∪ seen.
Proof.
  revert seen. induction ps as [|[p|] ps IH]; intros seen; cbn [check_phases].
  - split.
    + intros [= <-]. exists []. split_and!; [done|constructor|constructor|set_solver|]. unfold by_id. cbn. by rewrite (left_id_L ∅ (∪)).
    + intros (l & Hl & _ & _ & _ & ->). destruct l; [|done]. unfold by_id. cbn. by rewrite (left_id_L ∅ (∪)).
  - split.
    + intros ([] & H1%check_Ok & H)%bind_Ok. apply bind_Ok in H as ([] & H2%check_Ok & H). apply bind_Ok in H as ([] & H3%check_Ok & H).
      bool_props. apply IH in H as (l & -> & Hall & Hnd & Hs & ->).
      assert (Hn : phase_id p ∉ phase_id <$> l).
      { intros (p' & E & Hp')%list_elem_of_fmap. specialize (Hs p' Hp'). by rewrite <-E, lookup_insert_eq in Hs. }
      exists (p :: l). split_and!; [done|by constructor|by constructor| |].
      * intros p' [->|Hp']%elem_of_cons; [by apply eq_None_not_Some|]. specialize (Hs p' Hp'). by apply lookup_insert_None in Hs as [? _].
      * unfold by_id. cbn. rewrite <-insert_union_l, <-insert_union_r by (by apply by_id_lookup_None). done.
    + intros (l & Hl & Hall & Hnd & Hs & ->). destruct l as [|p' l]; [done|]. injection Hl as <- ->.
      apply Forall_cons_1 in Hall as [[H1 H2] Hall]. rewrite fmap_cons in Hnd. apply NoDup_cons in Hnd as [Hn Hnd].
      rewrite H1, H2. cbn [check guard_err mbind Result_bind]. rewrite bool_decide_false by (rewrite (Hs p); [by intros []|by left]).
      cbn [negb guard_err mbind Result_bind]. apply IH. exists l. split_and!; [done|done|done| |].
      * intros p' Hp'. rewrite lookup_insert_ne; [by apply Hs; right|]. intros E. apply Hn. rewrite E. by apply list_elem_of_fmap_2.
      * unfold by_id. cbn. rewrite <-insert_union_l, <-insert_union_r by (by apply by_id_lookup_None). done.
  - split; [done|]. intros (l & Hl & _). by destruct l.
Qed.

Definition pair_of (e : PhaseEdge) : string * string := (from_phase_id e, to_phase_id e).

Definition edge_ok (known : gmap string Phase) (e : PhaseEdge) : Prop :=
  is_Some (known !! from_phase_id e) ∧ is_Some (known !! to_phase_id e) ∧ from_phase_id e ≠ to_phase_id e.

Lemma check_edges_Ok known l es l' :
  check_edges known l es = Ok l' ↔ ∃ l0, es = (Some <$> l0) ∧ Forall (edge_ok known) l0 ∧ l' = foldl add_edge l (pair_of <$> l0).
Proof.
  revert l. induction es as [|[e|] es IH]; intros l; cbn [check_edges].
  - split; [intros [= <-]; by exists []|]. intros (l0 & Hl & _ & ->). by destruct l0.
  - split.
    + intros ([] & H1%check_Ok & H)%bind_Ok. bool_props. apply IH in H as (l0 & -> & Hall & ->). exists (e :: l0). by repeat constructor.
    + intros (l0 & Hl & Hall & ->). destruct l0 as [|e' l0]; [done|]. injection Hl as <- ->. apply Forall_cons_1 in Hall as [(H1 & H2 & H3) Hall].
      rewrite !bool_decide_true, bool_decide_false by done. cbn [andb negb check guard_err mbind Result_bind]. apply IH. by exists l0.
  - split; [done|]. intros (l0 & Hl & _). by destruct l0.
Qed.

Lemma links_spec es (l : Links) :
  let l' := foldl add_edge l es in
  (∀ u, default [] (l'.1 !! u) = default [] (l.1 !! u) ++ successors es u) ∧
  (∀ v, default 0 (l'.2 !! v) = default 0 (l.2 !! v) + open_edges es [] v) ∧
  dom l'.2 = dom l.2 ∪ list_to_set (snd <$> es).
Proof.
  revert l. induction es as [|[a b] es IH]; intros l; cbn [foldl].
  - split_and!; [intros; unfold successors; cbn; by rewrite app_nil_r|intros; unfold open_edges; cbn; lia|cbn; set_solver].
  - specialize (IH (add_edge l (a, b))) as (H1 & H2 & H3). cbv zeta in *. split_and!.
    + intros u. rewrite H1. unfold add_edge, successors. cbn [fst snd]. rewrite filter_cons. cbn [fst]. destruct (decide (a = u)) as [->|Hu].
      * rewrite lookup_insert_eq. cbn. by rewrite <-(assoc_L (++)).
      * by rewrite lookup_insert_ne.
    + intros v. rewrite H2. unfold add_edge, open_edges. cbn [fst snd]. rewrite filter_cons. cbn [fst snd]. destruct (decide (b = v)) as [->|Hv].
      * rewrite lookup_insert_eq, (decide_True (P := v = v ∧ a ∉ [])) by (split; [done|apply not_elem_of_nil]). cbn [default from_option length]. unfold id. lia.
      * rewrite lookup_insert_ne, (decide_False (P := b = v ∧ a ∉ [])) by naive_solver. done.
    + rewrite H3. unfold add_edge. cbn [fst snd]. rewrite dom_insert_L. cbn. set_solver.
Qed.

Lemma unique_keys_iff seen keys : unique_keys seen keys = true ↔ NoDup keys ∧ ∀ k, k ∈ keys → k ∉ seen.
Proof.
  revert seen. induction keys as [|k keys IH]; intros seen; cbn [unique_keys]; [split; [intros _; split; [constructor|set_solver]|done]|].
  rewrite andb_true_iff, negb_true_iff, bool_decide_eq_false, IH, NoDup_cons. set_solver.
Qed.

Lemma check_entries_Ok known indegree seen entries entries' :
  check_entries known indegree seen entries = Ok entries' ↔
  Forall (λ v, canonicalNonEmpty v = true ∧ is_Some (known !! v) ∧ default 0 (indegree !! v) = 0) entries ∧
  NoDup entries ∧ (∀ v, v ∈ entries → v ∉ seen) ∧ entries' = list_to_set entries ∪ seen.
Proof.
  revert seen. induction entries as [|v entries IH]; intros seen; cbn [check_entries].
  - split; [intros [= <-]; split_and!; [constructor|constructor|set_solver|set_solver]|]. intros (_ & _ & _ & ->). f_equal. set_solver.
  - split.
    + intros ([] & H1%check_Ok & H)%bind_Ok. apply bind_Ok in H as ([] & H2%check_Ok & H). bool_props.
      apply IH in H as (Hall & Hnd & Hs & ->). split_and!; [by constructor|constructor; [set_solver|done]|set_solver|set_solver].
    + intros (Hall & Hnd & Hs & ->). apply Forall_cons_1 in Hall as [(H1 & H2 & H3) Hall]. apply NoDup_cons in Hnd as [Hn Hnd].
      rewrite H1, (bool_decide_true _ H2), H3. cbn [andb Z.eqb check guard_err mbind Result_bind].
      rewrite bool_decide_false by set_solver. cbn [negb guard_err mbind Result_bind]. apply IH. split_and!; [done|done|set_solver|set_solver].
Qed.

(** A well-formed graph of the phases [known]: its edges join different phases, no edge
    is given twice, and the entries are the phases without an edge into them. *)
Record graph_ok (g : PhaseGraph) (known : gmap string Phase) : Prop := {
  go_phases : ∃ ps, phases g = (Some <$> ps) ∧ ps ≠ [] ∧ Forall phase_ok ps ∧ NoDup (phase_id <$> ps) ∧ known = by_id ps;
  go_edges : ∃ es, edges g = (Some <$> es) ∧ Forall (edge_ok known) es;
  go_unique : NoDup (edge_key <$> omap id (edges g));
  go_entries : entry_phase_ids g ≠ [] ∧ NoDup (entry_phase_ids g) ∧
    ∀ v, v ∈ entry_phase_ids g ↔ is_Some (known !! v) ∧ ∀ u, ¬ edge (pair_of <$> omap id (edges g)) u v;
}.

Definition acyclic (g : PhaseGraph) : Prop := ∀ v, ¬ tc (edge (pair_of <$> omap id (edges g))) v v.

Lemma some_edges (l : list PhaseEdge) : omap id (Some <$> l) = l.
Proof. induction l as [|x l IH]; [done|]. cbn. by f_equal. Qed.

(** The phases no edge leads to are those of in-degree zero. *)
Lemma links_root known es v :
  default 0 ((foldl add_edge (no_edges known) es).2 !! v) = 0 ↔ ∀ u, ¬ edge es u v.
Proof.
  destruct (links_spec es (no_edges known)) as (_ & L2 & _). rewrite L2.
  assert (default 0 ((no_edges known).2 !! v) = 0) as -> by (cbn; rewrite lookup_fmap; by destruct (known !! v)).
  rewrite Z.add_0_l, open_edges_zero. set_solver.
Qed.

Lemma links_dom known l v :
  Forall (edge_ok known) l →
  is_Some ((foldl add_edge (no_edges known) (pair_of <$> l)).2 !! v) ↔ is_Some (known !! v).
Proof.
  intros Hl. destruct (links_spec (pair_of <$> l) (no_edges known)) as (_ & _ & L3).
  rewrite <-elem_of_dom, L3, elem_of_union, elem_of_list_to_set. cbn. rewrite dom_fmap_L, elem_of_dom. split; [|by left].
  intros [Hv|Hv]; [done|]. rewrite <-list_fmap_compose in Hv. apply list_elem_of_fmap in Hv as (e & -> & He).
  rewrite Forall_forall in Hl. by destruct (Hl e He) as (_ & ? & _).
Qed.

(** The sort on a well-formed graph. *)
Lemma visit_graph g known (order : gset string → list string) :
  graph_ok g known → (∀ s, order s ≡ₚ elements s) →
  let es := pair_of <$> omap id (edges g) in
  let links := foldl add_edge (no_edges known) es in
  ∃ all, visit (size known) links.1 links.2 (order (list_to_set (entry_phase_ids g))) 0 = Some (Z.of_nat (length all)) ∧
    NoDup all ∧ all ⊆ elements (dom known) ∧ topological (edge es) all ∧
    (∀ v, v ∈ elements (dom known) → v ∈ all ↔ ∀ u, edge es u v → u ∈ all).
Proof.
  intros [Hph Hed _ (_ & Hnd & Hroots)] Hord. cbv zeta. set (es := pair_of <$> omap id (edges g)).
  set (nodes := elements (dom known)). set (links := foldl add_edge _ es).
  destruct (links_spec es (no_edges known)) as (L1 & L2 & L3). fold links in L1, L2, L3. cbn [fst snd] in *.
  assert (Hes : ∀ u v, edge es u v → u ∈ nodes ∧ v ∈ nodes).
  { intros u v Huv. destruct Hed as (l & Hl & Hall). unfold edge, es in Huv. rewrite Hl in Huv.
    rewrite some_edges in Huv.
    apply list_elem_of_fmap in Huv as (e & [= -> ->] & He). rewrite Forall_forall in Hall. destruct (Hall e He) as (Ha & Hb & _).
    unfold nodes. rewrite !elem_of_elements, !elem_of_dom. done. }
  assert (Hz : ∀ v, default 0 (((λ _ : Phase, 0) <$> known) !! v) = 0) by (intros v; rewrite lookup_fmap; by destruct (known !! v)).
  assert (Hdeg : ∀ v, v ∈ nodes → links.2 !! v = Some (open_edges es [] v)).
  { intros v Hv. specialize (L2 v). rewrite Hz in L2. assert (Hd : v ∈ dom links.2).
    { rewrite L3. unfold no_edges. cbn [snd]. rewrite dom_fmap_L. unfold nodes in Hv. rewrite elem_of_elements in Hv. set_solver. }
    apply elem_of_dom in Hd as [d Hd]. rewrite Hd in L2 |- *. cbn in L2. unfold id in L2. f_equal. lia. }
  assert (Hstart : sorting es nodes [] [] (order (list_to_set (entry_phase_ids g))) links.2).
  { assert (Hq : ∀ v, v ∈ order (list_to_set (entry_phase_ids g)) ↔ v ∈ entry_phase_ids g).
    { intros v. rewrite Hord, elem_of_elements, elem_of_list_to_set. done. }
    split; cbn [app].
    - rewrite Hord. apply NoDup_elements.
    - intros v Hv. rewrite Hq, Hroots in Hv. unfold nodes. rewrite elem_of_elements, elem_of_dom. apply Hv.
    - intros v Hv. rewrite (Hdeg v Hv). unfold times. cbn. f_equal. lia.
    - intros v Hv. rewrite Hq, Hroots. unfold times. cbn. rewrite Z.add_0_r, open_edges_zero. unfold nodes in Hv.
      rewrite elem_of_elements, elem_of_dom in Hv. split; [intros [_ H] u Hu; by destruct (H u)|]. intros H. split; [done|].
      intros u Hu. by apply H, elem_of_nil in Hu.
    - done. }
  destruct (visit_sorting es nodes links.1 (size known) [] _ _ (NoDup_elements _) ltac:(intros u v Huv; by apply (Hes u v)) ltac:(intros u _; by rewrite L1) Hstart)
    as (all & indegree' & Hv & Hs).
  { unfold nodes. rewrite <-size_dom. unfold size, set_size. cbn. lia. }
  exists all. destruct Hs as [S1 S2 _ S4 S5]. rewrite app_nil_r in S1, S2. split_and!; [done|done|done|done|].
  intros v Hvn. specialize (S4 v Hvn). rewrite app_nil_r in S4. unfold times in S4. cbn in S4. by rewrite Z.add_0_r, open_edges_zero in S4.
Qed.

(** The checks before the sort accept exactly the well-formed graphs. *)
Lemma validatePhaseGraph_sound order g known :
  validatePhaseGraph order g = Ok known →
  let links := foldl add_edge (no_edges known) (pair_of <$> omap id (edges g)) in
  graph_ok g known ∧ visit (size known) links.1 links.2 (order (list_to_set (entry_phase_ids g))) 0 = Some (Z.of_nat (size known)).
Proof.
  unfold validatePhaseGraph. intros (known' & Hph & H)%bind_Ok. apply bind_Ok in H as ([] & Hne%check_Ok & H).
  apply bind_Ok in H as (links' & Hed & H). apply bind_Ok in H as ([] & Huk%check_Ok & H). apply bind_Ok in H as (en & Hen & H).
  apply bind_Ok in H as ([] & Hene%check_Ok & H). apply bind_Ok in H as ([] & Hroot%check_Ok & H).
  apply bind_Ok in H as ([] & Hvis%check_Ok & [= ->]). bool_props.
  apply check_phases_Ok in Hph as (ps & Hps & Hall & Hnd & _ & Hk). rewrite (right_id_L ∅ (∪)) in Hk.
  apply check_edges_Ok in Hed as (l & Hl & Hel & ->). apply check_entries_Ok in Hen as (He1 & He2 & _ & ->).
  rewrite (right_id_L ∅ (∪)) in *. rewrite Hl, some_edges. cbv zeta. split; [|done]. split.
  - exists ps. split_and!; try done. intros ->. apply Hne. by rewrite Hk.
  - by exists l.
  - by apply unique_keys_iff in Huk as [Huk _].
  - split; [intros E; apply Hene; by rewrite E|]. split; [done|]. intros v. rewrite Hl, some_edges, <-(links_root known). split.
    + intros Hv. rewrite Forall_forall in He1. by destruct (He1 v Hv) as (_ & ? & ?).
    + intros [[d Hd]%(links_dom known l v Hel) Hz]. rewrite forallb_forall in Hroot. specialize (Hroot (v, d)).
      rewrite <-list_elem_of_In, elem_of_map_to_list in Hroot. specialize (Hroot Hd). cbn [fst snd] in Hroot. rewrite Hd in Hz. cbn in Hz.
      unfold id in Hz. subst d. apply Bool.eqb_prop in Hroot. symmetry in Hroot. cbn in Hroot. by apply bool_decide_eq_true, elem_of_list_to_set in Hroot.
Qed.

Lemma validatePhaseGraph_complete order g known :
  graph_ok g known →
  let links := foldl add_edge (no_edges known) (pair_of <$> omap id (edges g)) in
  visit (size known) links.1 links.2 (order (list_to_set (entry_phase_ids g))) 0 = Some (Z.of_nat (size known)) →
  validatePhaseGraph order g = Ok known.
Proof.
  intros [(ps & Hps & Hpne & Hall & Hnd & Hk) (l & Hl & Hel) Huk (He1 & He2 & He3)]. cbv zeta. unfold validatePhaseGraph.
  rewrite Hl, some_edges in *. set (links := foldl add_edge _ _). intros Hvis.
  assert (Hph : check_phases ∅ (phases g) = Ok known).
  { apply check_phases_Ok. exists ps. rewrite (right_id_L ∅ (∪)). split_and!; try done. }
  rewrite Hph. cbn [mbind Result_bind]. rewrite (bool_decide_false (known = ∅)).
  2:{ intros E. destruct ps as [|p ps]; [done|]. rewrite Hk in E. unfold by_id in E. cbn in E. by apply insert_non_empty in E. }
  cbn [negb check guard_err mbind Result_bind].
  rewrite (proj2 (check_edges_Ok known (no_edges known) (Some <$> l) links)) by (by exists l). cbn [mbind Result_bind].
  rewrite (proj2 (unique_keys_iff ∅ _)) by (split; [done|set_solver]). cbn [check guard_err mbind Result_bind].
  rewrite (proj2 (check_entries_Ok known links.2 ∅ (entry_phase_ids g) (list_to_set (entry_phase_ids g)))).
  2:{ rewrite (right_id_L ∅ (∪)). split_and!; [|done|set_solver|done]. apply Forall_forall. intros v Hv.
      apply He3 in Hv as [Hkv Hn]. split_and!; [|done|by apply links_root]. rewrite Hk in Hkv. destruct Hkv as [p Hp].
      unfold by_id in Hp. apply elem_of_list_to_map_2, list_elem_of_fmap in Hp as (p' & [= -> ->] & Hp). rewrite Forall_forall in Hall.
      destruct (Hall p' Hp) as [Hvp _]. unfold valid_phase in Hvp. by bool_props. }
  cbn [mbind Result_bind]. rewrite (bool_decide_false (_ = ∅)) by (destruct (entry_phase_ids g) as [|v vs]; [done|set_solver]).
  cbn [negb check guard_err mbind Result_bind].
  rewrite (proj2 (forallb_forall _ _)).
  2:{ intros [v d] Hvd. apply list_elem_of_In, elem_of_map_to_list in Hvd. cbn [fst snd]. apply eqb_true_iff, Bool.eq_iff_eq_true.
      rewrite bool_decide_eq_true, Z.eqb_eq, elem_of_list_to_set, He3, <-(links_root known), <-(links_dom known l v Hel). fold links.
      rewrite Hvd. cbn. unfold id. naive_solver. }
  cbn [check guard_err mbind Result_bind]. by rewrite bool_decide_true.
Qed.

Lemma edge_known g known u v :
  graph_ok g known → edge (pair_of <$> omap id (edges g)) u v → is_Some (known !! u) ∧ is_Some (known !! v).
Proof.
  intros Hg Huv. destruct (go_edges g known Hg) as (l & Hl & Hel). unfold edge in Huv. rewrite Hl, some_edges in Huv.
  apply list_elem_of_fmap in Huv as (e & [= -> ->] & He). rewrite Forall_forall in Hel. by destruct (Hel e He) as (? & ? & _).
Qed.

(** What the sort leaves out has a cycle. *)
Lemma unvisited_cycle es (nodes all : list string) :
  (∀ u v, edge es u v → u ∈ nodes) → (∀ v, v ∈ nodes → v ∈ all ↔ ∀ u, edge es u v → u ∈ all) →
  (∀ v, ¬ tc (edge es) v v) → nodes ⊆ all.
Proof.
  intros Hes Hclosed Hac v Hv. destruct (decide (v ∈ all)) as [?|Hout]; [done|]. exfalso.
  destruct (predecessors_cycle (edge es) (filter (λ v, v ∉ all) nodes)) as [x Hx]; [| |by apply (Hac x)].
  - intros E. assert (Hin : v ∈ filter (λ v, v ∉ all) nodes) by (by apply list_elem_of_filter). rewrite E in Hin. by apply elem_of_nil in Hin.
  - intros w [Hw Hwn]%list_elem_of_filter. destruct (decide (Forall (λ e : string * string, e.2 = w → e.1 ∈ all) es)) as [Hf|Hf].
    + exfalso. apply Hw, (Hclosed w Hwn). intros u Hu. rewrite Forall_forall in Hf. exact (Hf _ Hu eq_refl).
    + apply not_Forall_Exists in Hf; [|apply _]. apply Exists_exists in Hf as ([a b] & Hab & Hn). cbn in Hn.
      assert (b = w ∧ a ∉ all) as [-> Ha] by (destruct (decide (b = w)), (decide (a ∈ all)); naive_solver).
      exists a. split; [|done]. apply list_elem_of_filter. split; [done|]. by apply (Hes a w).
Qed.

(** Following edges backwards in a topological list ends at an entry. *)
Lemma topological_reachable g known all v :
  graph_ok g known → topological (edge (pair_of <$> omap id (edges g))) all → (∀ v, v ∈ all → is_Some (known !! v)) → v ∈ all →
  ∃ entry, entry ∈ entry_phase_ids g ∧ rtc (edge (pair_of <$> omap id (edges g))) entry v.
Proof.
  intros Hg Ht. set (es := pair_of <$> omap id (edges g)) in *. revert v Ht.
  induction all as [|x all IH]; intros v Ht Hsub Hv; [by apply elem_of_nil in Hv|]. destruct Ht as [Hx Ht].
  apply elem_of_cons in Hv as [->|Hv]; [|by apply IH; [|set_solver|]].
  destruct (decide (Forall (λ e : string * string, e.2 ≠ x) es)) as [Hf|Hf].
  - exists x. split; [|done]. apply (go_entries g known Hg). fold es. split; [set_solver|]. intros u Hu. rewrite Forall_forall in Hf. by apply (Hf _ Hu).
  - apply not_Forall_Exists in Hf; [|apply _]. apply Exists_exists in Hf as ([a b] & Hab & Hn). cbn in Hn. apply dec_stable in Hn. subst b.
    destruct (IH a Ht ltac:(set_solver) (Hx a Hab)) as (en & Hen & Hr). exists en. split; [done|]. eapply rtc_r; [exact Hr|exact Hab].
Qed.

(** C32: [validateExecutionContract] accepts a phase graph exactly when it is well formed
    and has no cycle, whatever the order of the set of entries; every phase of an accepted
    graph can be reached from an entry. *)
Theorem validatePhaseGraph_acyclic (order : gset string → list string) g known :
  (∀ s, order s ≡ₚ elements s) →
  (validatePhaseGraph order g = Ok known ↔ graph_ok g known ∧ acyclic g) ∧
  (validatePhaseGraph order g = Ok known → ∀ v, is_Some (known !! v) →
     ∃ entry, entry ∈ entry_phase_ids g ∧ rtc (edge (pair_of <$> omap id (edges g))) entry v).
Proof.
  intros Hord. set (es := pair_of <$> omap id (edges g)).
  assert (Hsize : size known = length (elements (dom known))) by (rewrite <-size_dom; unfold size at 1, set_size; done).
  assert (Hmem : ∀ v, v ∈ elements (dom known) ↔ is_Some (known !! v)) by (intros v; by rewrite elem_of_elements, elem_of_dom).
  assert (Hall : validatePhaseGraph order g = Ok known → ∃ all, NoDup all ∧ topological (edge es) all ∧ graph_ok g known ∧
    (∀ v, is_Some (known !! v) ↔ v ∈ all)).
  { intros H. destruct (validatePhaseGraph_sound order g known H) as [Hg Hv].
    destruct (visit_graph g known order Hg Hord) as (all & Hv' & Hnd & Hsub & Ht & _). fold es in Hv, Hv', Ht. rewrite Hv in Hv'.
    injection Hv' as Hlen. exists all. split_and!; [done|done|done|]. intros v. rewrite <-Hmem. split; [|by apply Hsub]. intros Hin.
    assert (Hp : all ≡ₚ elements (dom known)); [|by rewrite Hp].
    apply submseteq_length_Permutation; [by apply NoDup_submseteq|lia]. }
  split; [split|].
  - intros H. destruct (Hall H) as (all & Hnd & Ht & Hg & Hin). split; [done|]. intros v Hc.
    apply (topological_acyclic (edge es) all v); [done|done| |done]. apply Hin.
    assert (∃ u, edge es u v) as [u Hu] by (clear -Hc; induction Hc; eauto). by apply (edge_known g known u v).
  - intros [Hg Hac]. apply validatePhaseGraph_complete; [done|]. cbv zeta.
    destruct (visit_graph g known order Hg Hord) as (all & Hv & Hnd & Hsub & _ & Hclosed). fold es in Hv, Hclosed |- *. rewrite Hv. do 2 f_equal.
    rewrite Hsize. apply Permutation_length, submseteq_length_Permutation; [by apply NoDup_submseteq|].
    apply submseteq_length, NoDup_submseteq; [apply NoDup_elements|]. apply (unvisited_cycle es); [|done|done].
    intros u v Huv. apply Hmem. by apply (edge_known g known u v).
  - intros H v Hv. destruct (Hall H) as (all & Hnd & Ht & Hg & Hin). apply (topological_reachable g known all); [done|done| |by apply Hin].
    intros w. by apply Hin.
Qed.

Module PhaseGraphWitnesses.
Definition ph (id : string) : option Phase := Some (mkPhase id "phase" PHASE_KIND_ACTOR 1 1 {[ "k" := "v" ]}).
Definition diamond : PhaseGraph :=
  mkGraph [ph "a"; ph "b"; ph "c"; ph "d"]
    [Some (mkEdge "a" "b" ""); Some (mkEdge "a" "c" ""); Some (mkEdge "b" "d" ""); Some (mkEdge "c" "d" "")] ["a"].

Definition diamond_phases : gmap string Phase :=
  match validatePhaseGraph elements diamond with Ok known => known | Err _ => ∅ end.

Lemma validatePhaseGraph_acyclic_witness :
  validatePhaseGraph elements diamond = Ok diamond_phases ∧ acyclic diamond ∧
  ∃ entry, entry ∈ ["a"] ∧ rtc (edge [("a", "b"); ("a", "c"); ("b", "d"); ("c", "d")]) entry "d".
Proof.
  destruct (validatePhaseGraph_acyclic elements diamond diamond_phases (λ _, reflexivity _)) as [H1 H2].
  assert (H : validatePhaseGraph elements diamond = Ok diamond_phases) by (by vm_compute).
  split; [done|]. split; [exact (proj2 (proj1 H1 H))|]. apply (H2 H). apply (bool_decide_unpack _). by vm_compute.
Defined.
End PhaseGraphWitnesses.
