(* ===== verification/Validation.v ===== *)
(** * Validation of snapshots and intents ([scheduler-go/scheduler/validation.go])

    The messages of an intent as the wire carries them, and the checks the scheduler makes
    before it evaluates one.  The phase graph of a contract is in [PhaseGraph]; SHA-256,
    the wire encoding of a contract, Unicode case mapping and the texts of the errors of
    protobuf's [CheckValid] are parameters. *)

From Stdlib Require Import ZArith Lia Ascii.
From S2P Require Import Prelude GoStrings GoTime GoFloat SemVer Semantics ComponentRegistry ClusterModel SchedulerState Mutation Preemption Reservation Transaction Intents Constraints Candidates PhaseGraph.
From stdpp Require Import options.

Local Open Scope Z_scope.

(** ** Messages *)

Inductive CommitMode :=
| COMMIT_MODE_UNKNOWN | COMMIT_MODE_ALL_OR_NOTHING | COMMIT_MODE_QUORUM | COMMIT_MODE_BEST_EFFORT
| COMMIT_MODE_UNNAMED (n : Z).

Inductive SafePointTrigger :=
| SAFE_POINT_TRIGGER_UNKNOWN | SAFE_POINT_TRIGGER_PHASE_BOUNDARY | SAFE_POINT_TRIGGER_INTERVAL
| SAFE_POINT_TRIGGER_BUFFER_THRESHOLD | SAFE_POINT_TRIGGER_EXPLICIT | SAFE_POINT_TRIGGER_UNNAMED (n : Z).

Inductive RolloutMode :=
| ROLLOUT_MODE_UNKNOWN | ROLLOUT_MODE_SYNC | ROLLOUT_MODE_PARTIALLY_ASYNC | ROLLOUT_MODE_FULLY_ASYNC
| ROLLOUT_MODE_UNNAMED (n : Z).

#[export] Instance SafePointTrigger_eq_dec : EqDecision SafePointTrigger.
Proof. solve_decision. Defined.

Record CommitPolicy := mkCommitPolicy {
  cp_mode : CommitMode;
  minimum_successful_units : Z;
  max_retries : Z;
  commit_timeout : option Duration;
  cp_require_safe_point : bool;
}.

Record SafePointPolicy := mkSafePointPolicy {
  sp_enabled : bool;
  sp_trigger : SafePointTrigger;
  sp_interval : option Duration;
  sp_maximum_wait : option Duration;
  required_phase_ids : list string;
}.

(** What the runtime of a contract must be capable of. *)
Record Capabilities := mkContractCapabilities {
  elastic_parallelism : bool;
  deterministic_replay : bool;
  transactional_commits : bool;
  checkpoint_restore : bool;
  policy_hot_swap : bool;
  extensions : list string;
}.

(** An execution contract with everything the wire carries. *)
Record ContractMessage := mkContractMessage {
  cm_contract_id : string;
  cm_version : string;
  phase_graph : option PhaseGraph;
  cm_validity_rules : list (option ValidityRule);
  cm_version_constraints : list (option VersionConstraint);
  commit_policy : option CommitPolicy;
  cm_backpressure_policy : option BackpressurePolicy;
  safe_point_policy : option SafePointPolicy;
  contract_capabilities : option Capabilities;
  cm_conditions : list (option Condition);
  cm_critical_fact_policies : list (option CriticalFactPolicy);
}.

(** What the evaluator reads of it. *)
Definition core_contract (c : ContractMessage) : ExecutionContract :=
  mkExecutionContract (cm_contract_id c) (cm_version c) (cm_validity_rules c) (cm_version_constraints c)
    (cp_require_safe_point <$> commit_policy c) (cm_backpressure_policy c) (sp_enabled <$> safe_point_policy c)
    (cm_conditions c) (cm_critical_fact_policies c).

(** A scheduling intent with everything the wire carries: what the store keeps of it
    ([im_core]) and the rest.  The label the store reads is one of [im_labels]. *)
Record IntentMessage := mkIntentMessage {
  im_core : SchedulingIntent;
  im_contract : option ContractMessage;
  im_queue : string;
  im_labels : gmap string string;
  im_rollout_mode : RolloutMode;
  im_phase_kind : PhaseKind;
  deterministic_seed : Z;
  preferences : gmap string float64;
  semantic_context : string;
  in_generation : Z;
  in_cursor : string;
  im_observation : option ContractObservation;
}.

Section Validation.
Context (unicode_lower : string → string).
Context (timestamp_error : Timestamp → string) (duration_error : Duration → string).
Context (sha256_hex : string → string) (contract_wire : ContractMessage → Result string string).
Context (order : gset string → list string).

Definition ok : Result ValidationError unit := Ok tt.

(** [CheckValid] of a timestamp that is present, of one that may be nil, of a duration. *)
Definition check_timestamp (field : string) (t : Timestamp) : Result ValidationError unit :=
  check (Timestamp_valid t) field (timestamp_error t).

Definition check_present (field : string) (t : option Timestamp) : Result ValidationError unit :=
  from_option (check_timestamp field) ok t.

Definition check_duration (field : string) (d : Duration) : Result ValidationError unit :=
  check (Duration_valid d) field (duration_error d).

(** A range over a list with its index. *)
Fixpoint for_each {S A} (f : nat → S → A → Result ValidationError S) (index : nat) (s : S) (l : list A) : Result ValidationError S :=
  match l with
  | [] => Ok s
  | x :: l => s ← f index s x; for_each f (Datatypes.S index) s l
  end.

Definition indexed (field : string) (index : nat) : string := field +:+ "[" +:+ FormatInt (Z.of_nat index) +:+ "]".

(** [strconv.ParseUint(value, 10, 64)] *)
Definition ParseUint64 (value : string) : option Z :=
  let ds := chars value in
  if negb (bool_decide (ds = [])) && forallb is_digit ds && (digits_value ds <? two64) then Some (digits_value ds) else None.

(** ** Shapes *)

Definition uniqueNonEmpty (field : string) (values : list string) : Result ValidationError unit :=
  _ ← for_each (λ _ (seen : gset string) value,
        let value := TrimSpace value in
        _ ← check (negb (bool_decide (value = ""))) field "values must be non-empty";
        _ ← check (negb (bool_decide (value ∈ seen))) field "values must be unique";
        Ok ({[value]} ∪ seen)) 0 ∅ values;
  ok.

Definition validateResourceVector (field : string) (resources : option ResourceVector) : Result ValidationError unit :=
  match resources with
  | None => invalid field "must be present"
  | Some r => check (negb (bad_accelerators r)) (field +:+ ".accelerator_units") "must be finite and non-negative"
  end.

Definition componentKindAliases : list (string * ComponentKind) :=
  [("protocol", COMPONENT_KIND_PROTOCOL); ("scheduler", COMPONENT_KIND_SCHEDULER); ("runtime", COMPONENT_KIND_RUNTIME);
   ("operator", COMPONENT_KIND_OPERATOR); ("provider", COMPONENT_KIND_PROVIDER);
   ("framework_adapter", COMPONENT_KIND_FRAMEWORK_ADAPTER); ("rollout_engine", COMPONENT_KIND_ROLLOUT_ENGINE);
   ("trainer", COMPONENT_KIND_TRAINER); ("cuda_driver", COMPONENT_KIND_CUDA_DRIVER);
   ("execution_backend", COMPONENT_KIND_EXECUTION_BACKEND)].

Definition componentKindForAlias (value : string) : option ComponentKind :=
  let canonical := replace_byte "-"%char "_"%char (ToLower unicode_lower value) in
  snd <$> find (λ p, bool_decide (p.1 = canonical)) componentKindAliases.

Definition componentKindAlias (kind : ComponentKind) : string :=
  from_option fst "" (find (λ p, bool_decide (p.2 = kind)) componentKindAliases).

Definition versionConstraintIdentity (constraint : VersionConstraint) : Result string (componentIdentity * bool) :=
  if negb (canonicalNonEmpty (component constraint)) then Err "component must be non-empty and canonical" else
  let name := ToLower unicode_lower (component constraint) in
  let alias := componentKindForAlias name in
  let kind := component_kind constraint in
  match kind with
  | COMPONENT_KIND_UNKNOWN =>
      match alias with
      | None => Err "legacy component must use a recognized canonical alias"
      | Some aliasKind => Ok ((aliasKind, componentKindAlias aliasKind), true)
      end
  | COMPONENT_KIND_UNNAMED _ => Err "component_kind must be recognized"
  | _ =>
      match alias with
      | Some aliasKind =>
          if decide (aliasKind = kind) then Ok ((kind, componentKindAlias kind), false)
          else Err "component alias conflicts with component_kind"
      | None => Ok ((kind, name), false)
      end
  end.

Definition observedComponentIdentity (kind : ComponentKind) (name : string) : Result string componentIdentity :=
  let canonicalName := ToLower unicode_lower name in
  match componentKindForAlias canonicalName with
  | Some aliasKind =>
      if decide (aliasKind = kind) then Ok (kind, componentKindAlias kind) else Err "component alias conflicts with kind"
  | None => Ok (kind, canonicalName)
  end.

Definition lift_text {A} (field : string) (r : Result string A) : Result ValidationError A :=
  match r with Ok a => Ok a | Err e => invalid field e end.

Definition validate_component_version (field : string) (version : ComponentVersion) : Result ValidationError unit :=
  _ ← check (kind_known (comp_kind version)) (field +:+ ".kind") "must be recognized and non-UNKNOWN";
  _ ← check (canonicalNonEmpty (comp_name version)) (field +:+ ".name") "must be non-empty and canonical";
  _ ← check (canonicalNonEmpty (comp_version version)) (field +:+ ".version") "must be non-empty and canonical";
  _ ← match comp_observed_at version with
      | None => invalid (field +:+ ".observed_at") "must be present"
      | Some t => check_timestamp (field +:+ ".observed_at") t
      end;
  _ ← check (canonicalNonEmpty (comp_source version)) (field +:+ ".source") "must be non-empty and canonical";
  check (forallb (λ p : string * string, canonicalNonEmpty p.1 && canonicalNonEmpty p.2) (comp_attributes version))
    (field +:+ ".attributes") "keys and values must be non-empty and canonical".

Definition validateComponentVersions (field : string) (versions : list (option ComponentVersion)) : Result ValidationError unit :=
  _ ← for_each (λ index (seen : list componentIdentity) version,
        let versionField := indexed field index in
        match version with
        | None => invalid versionField "must not be nil"
        | Some version =>
            _ ← validate_component_version versionField version;
            identity ← lift_text (versionField +:+ ".name") (observedComponentIdentity (comp_kind version) (comp_name version));
            _ ← check (negb (bool_decide (identity ∈ seen))) versionField "kind and name identity must be unique ignoring ASCII case";
            Ok (identity :: seen)
        end) 0 [] versions;
  ok.

Definition nonempty_entry (p : string * string) : bool :=
  negb (bool_decide (TrimSpace p.1 = "")) && negb (bool_decide (TrimSpace p.2 = "")).

Definition finite_limit (p : string * float64) : bool :=
  negb (bool_decide (TrimSpace p.1 = "")) && negb (invalidFloat p.2) && negb (fltb p.2 f0).

Definition validateCapabilityShape (field : string) (capabilities : option CapabilitySet) : Result ValidationError unit :=
  match capabilities with
  | None => ok
  | Some c =>
      _ ← uniqueNonEmpty (field +:+ ".names") (names c);
      _ ← uniqueNonEmpty (field +:+ ".algorithms") (algorithms c);
      _ ← uniqueNonEmpty (field +:+ ".rollout_modes") (rollout_modes c);
      _ ← uniqueNonEmpty (field +:+ ".supported_actions") (supported_actions c);
      _ ← check (forallb nonempty_entry (map_to_list (cap_attributes c))) (field +:+ ".attributes") "keys and values must be non-empty";
      _ ← check (forallb finite_limit (map_to_list (limits c))) (field +:+ ".limits")
            "keys must be non-empty and values finite and non-negative";
      _ ← check_present (field +:+ ".measured_at") (measured_at c);
      validateComponentVersions (field +:+ ".component_versions") (cap_component_versions c)
  end.

(** ** Snapshots *)

Definition revision_annotations : list string := ["snapshot_revision"; "tgsrl.io/snapshot-revision"].

Definition check_annotation (snapshot : ClusterSnapshot) (key : string) : Result ValidationError unit :=
  match annotations snapshot !! key with
  | None => ok
  | Some raw => check (bool_decide (ParseUint64 (TrimSpace raw) = Some (revision snapshot)))
                  ("snapshot.annotations[" +:+ key +:+ "]") "must equal snapshot.revision"
  end.

Definition validate_device (index : nat) (seen : gset string) (device : Device) : Result ValidationError (gset string) :=
  let prefix := indexed "snapshot.devices" index in
  let id := TrimSpace (device_id device) in
  _ ← check (negb (bool_decide (id = ""))) (prefix +:+ ".device_id") "must not be empty";
  _ ← check (negb (bool_decide (id ∈ seen))) (prefix +:+ ".device_id") "must be unique";
  _ ← validateResourceVector (prefix +:+ ".capacity") (capacity device);
  _ ← validateResourceVector (prefix +:+ ".allocatable") (allocatable device);
  _ ← check (ResourceLessOrEqual (allocatable device) (capacity device)) (prefix +:+ ".allocatable")
        "must not exceed capacity in any dimension";
  _ ← validateCapabilityShape (prefix +:+ ".capabilities") (device_capabilities device);
  Ok ({[id]} ∪ seen).

(** The devices of an active allocation. *)
Definition check_device_ids (prefix : string) (known : gset string) (ids : list string) : Result ValidationError unit :=
  _ ← for_each (λ _ (seen : gset string) deviceID,
        _ ← check (bool_decide (deviceID ∈ known)) (prefix +:+ ".device_ids") "active allocation references an unknown device";
        _ ← check (negb (bool_decide (deviceID ∈ seen))) (prefix +:+ ".device_ids") "must not contain duplicates";
        Ok ({[deviceID]} ∪ seen)) 0 ∅ ids;
  ok.

Definition validate_allocation (known : gset string) (index : nat) (seen : gset string) (allocation : Allocation) :
    Result ValidationError (gset string) :=
  let prefix := indexed "snapshot.allocations" index in
  _ ← check (negb (bool_decide (TrimSpace (allocation_id allocation) = ""))) (prefix +:+ ".allocation_id") "must not be empty";
  _ ← check (negb (bool_decide (allocation_id allocation ∈ seen))) (prefix +:+ ".allocation_id") "must be unique";
  _ ← validateResourceVector (prefix +:+ ".resources") (al_resources allocation);
  _ ← (if bool_decide (al_state allocation = ALLOCATION_STATE_ACTIVE) then
         _ ← check (negb (al_intent_version allocation =? 0)) (prefix +:+ ".intent_version")
               "active allocation version must be greater than zero";
         _ ← check (negb (bool_decide (al_device_ids allocation = []))) (prefix +:+ ".device_ids")
               "active allocation must reference at least one device";
         check_device_ids prefix known (al_device_ids allocation)
       else ok);
  Ok ({[allocation_id allocation]} ∪ seen).

Definition validate_pending (index : nat) (seen : gset string) (unit : PendingUnit) : Result ValidationError (gset string) :=
  let prefix := indexed "snapshot.pending_units" index in
  _ ← check (negb (bool_decide (TrimSpace (pending_unit_id unit) = ""))) (prefix +:+ ".pending_unit_id") "must not be empty";
  _ ← check (negb (bool_decide (pending_unit_id unit ∈ seen))) (prefix +:+ ".pending_unit_id") "must be unique";
  _ ← check (negb (bool_decide (TrimSpace (pu_execution_id unit) = "") || bool_decide (TrimSpace (pu_stage_id unit) = ""))) prefix
        "execution_id and stage_id must not be empty";
  _ ← check (negb (pu_intent_version unit =? 0)) (prefix +:+ ".intent_version") "must be greater than zero";
  _ ← validateResourceVector (prefix +:+ ".requested_resources") (requested_resources unit);
  _ ← validateCapabilityShape (prefix +:+ ".required_capabilities") (pu_required_capabilities unit);
  Ok ({[pending_unit_id unit]} ∪ seen).

(** The messages a snapshot holds are never nil in the model. *)
Definition validateSnapshot (snapshot : ClusterSnapshot) : Result ValidationError unit :=
  _ ← check (negb (bool_decide (TrimSpace (snapshot_id snapshot) = ""))) "snapshot.snapshot_id" "must not be empty";
  _ ← check (negb (revision snapshot =? 0)) "snapshot.revision" "must be greater than zero";
  _ ← check_present "snapshot.observed_at" (observed_at snapshot);
  _ ← for_each (λ _ _ key, check_annotation snapshot key) 0 tt revision_annotations;
  deviceIDs ← for_each validate_device 0 ∅ (devices snapshot);
  _ ← for_each (validate_allocation deviceIDs) 0 ∅ (allocations snapshot);
  _ ← for_each validate_pending 0 ∅ (pending_units snapshot);
  ok.
(** ** Contracts *)

Definition all_of (f : ascii → bool) (l : list ascii) : bool := negb (bool_decide (l = [])) && forallb f l.

(** The longest prefix of characters that satisfy [f], and the rest. *)
Fixpoint span (f : ascii → bool) (l : list ascii) : list ascii * list ascii :=
  match l with
  | [] => ([], [])
  | c :: l' => if f c then let '(a, b) := span f l' in (c :: a, b) else ([], l)
  end.

Definition is_alnum (c : ascii) : bool := is_digit c || is_upper c || is_lower c.

(** [^1\.[0-9]+\.[0-9]+(?:-[0-9A-Za-z.-]+)?$] *)
Definition contractVersionPattern (value : string) : bool :=
  match chars value with
  | one :: point :: l =>
      Ascii.eqb one "1" && Ascii.eqb point "." &&
      (let '(minor, l) := span is_digit l in
       negb (bool_decide (minor = [])) &&
       match l with
       | c :: l =>
           Ascii.eqb c "." &&
           (let '(patch, l) := span is_digit l in
            negb (bool_decide (patch = [])) &&
            match l with
            | [] => true
            | c :: l => Ascii.eqb c "-" && all_of (λ c, is_alnum c || Ascii.eqb c "." || Ascii.eqb c "-") l
            end)
       | [] => false
       end)
  | _ => false
  end.

(** A segment: a lower-case letter, then lower-case letters, digits and underscores. *)
Definition fact_segment (segment : string) : bool :=
  match chars segment with
  | c :: l => is_lower c && forallb (λ c, is_lower c || is_digit c || Ascii.eqb c "_") l
  | [] => false
  end.

(** The pattern of a fact path: at least two segments between dots. *)
Definition factPathPattern (value : string) : bool :=
  let segments := Split value "." in
  (2 <=? length segments)%nat && forallb fact_segment segments.

Definition canonicalFactPath (value : string) : bool := canonicalNonEmpty value && factPathPattern value.

Definition VersionError_message (e : VersionError) : string :=
  match e with
  | VersionNotCanonical => "version must be non-empty and canonical"
  | BuildInvalid => "version build metadata is invalid"
  | ComponentCount => "version must have 2 or 3 numeric components"
  | ComponentInvalid => "version components must be canonical uint32 values"
  | PrereleaseInvalid => "version prerelease is invalid"
  end.

Definition normalizeVersion (value : string) : Result string string :=
  match NormalizeSemanticVersion value with Ok v => Ok v | Err e => Err (VersionError_message e) end.

Definition positiveDuration (duration : option Duration) : bool :=
  from_option (λ d, Duration_valid d && (0 <? AsDuration d)) false duration.

Definition validateObservationPolicy (field : string) (policy : option ObservationPolicy) : Result ValidationError unit :=
  match policy with
  | None => invalid field "must be present"
  | Some p =>
      _ ← match maximum_age p with
          | None => ok
          | Some age =>
              _ ← check_duration (field +:+ ".maximum_age") age;
              check (0 <? AsDuration age) (field +:+ ".maximum_age") "must be positive when present"
          end;
      _ ← check (disposition_known (missing p)) (field +:+ ".missing") "must be recognized and non-UNKNOWN";
      check (disposition_known (stale p)) (field +:+ ".stale") "must be recognized and non-UNKNOWN"
  end.

Definition failure_mode_known (m : ValidityFailureMode) : bool :=
  match m with VALIDITY_FAILURE_MODE_UNKNOWN | VALIDITY_FAILURE_MODE_UNNAMED _ => false | _ => true end.

Definition contract_field (name : string) : string := "intent.execution_contract" +:+ name.

Definition check_rules (rules : list (option ValidityRule)) : Result ValidationError unit :=
  _ ← for_each (λ _ (seen : gset string) rule,
        match rule with
        | None => invalid (contract_field ".validity_rules") "contains an invalid rule"
        | Some r =>
            _ ← check (canonicalNonEmpty (rule_id r) && negb (bool_decide (TrimSpace (rule_description r) = "")) &&
                       negb (bool_decide (TrimSpace (rule_expression r) = "")) && failure_mode_known (rule_failure_mode r))
                  (contract_field ".validity_rules") "contains an invalid rule";
            _ ← check (negb (bool_decide (rule_id r ∈ seen))) (contract_field ".validity_rules") "rule IDs must be unique";
            Ok ({[rule_id r]} ∪ seen)
        end) 0 ∅ rules;
  ok.

Definition check_commit (c : CommitPolicy) : Result ValidationError unit :=
  check (match cp_mode c with COMMIT_MODE_UNNAMED _ => false | _ => true end && negb (minimum_successful_units c =? 0) &&
         positiveDuration (commit_timeout c)) (contract_field ".commit_policy") "requires minimum units and a positive timeout".

Definition check_backpressure (b : BackpressurePolicy) : Result ValidationError unit :=
  check (match bp_mode b with BACKPRESSURE_MODE_UNNAMED _ => false | _ => true end && positiveDuration (stall_timeout b) &&
         (low_watermark b <=? high_watermark b) && (high_watermark b <=? maximum_buffer_level b))
    (contract_field ".backpressure_policy") "has invalid watermarks or timeout".

(** The three policies are set. *)
Definition policies_set (rules : list (option ValidityRule)) (c : CommitPolicy) (b : BackpressurePolicy) : bool :=
  negb (bool_decide (rules = [])) && match cp_mode c with COMMIT_MODE_UNKNOWN => false | _ => true end &&
  match bp_mode b with BACKPRESSURE_MODE_UNKNOWN => false | _ => true end && negb (maximum_buffer_level b =? 0).

Definition safe_point_field : string := contract_field ".safe_point_policy".

Definition trigger_known (t : SafePointTrigger) : bool :=
  match t with SAFE_POINT_TRIGGER_UNKNOWN | SAFE_POINT_TRIGGER_UNNAMED _ => false | _ => true end.

Definition check_interval (p : SafePointPolicy) : Result ValidationError unit :=
  if bool_decide (sp_trigger p = SAFE_POINT_TRIGGER_INTERVAL)
  then check (positiveDuration (sp_interval p)) (safe_point_field +:+ ".interval") "must be positive for interval trigger"
  else match sp_interval p with
       | None => ok
       | Some d =>
           _ ← check_duration (safe_point_field +:+ ".interval") d;
           check (AsDuration d =? 0) (safe_point_field +:+ ".interval") "may only be set for interval trigger"
       end.

Definition check_safe_point (known : gmap string Phase) (c : CommitPolicy) (p : SafePointPolicy) : Result ValidationError unit :=
  _ ← check (negb (cp_require_safe_point c && negb (sp_enabled p))) safe_point_field "must be enabled when commit requires it";
  if sp_enabled p then
    _ ← check (trigger_known (sp_trigger p) && positiveDuration (sp_maximum_wait p)) safe_point_field
          "requires trigger and positive maximum_wait";
    _ ← for_each (λ _ (seen : gset string) phaseID,
          _ ← check (canonicalNonEmpty phaseID && bool_decide (is_Some (known !! phaseID)))
                (safe_point_field +:+ ".required_phase_ids") "references an unknown phase";
          _ ← check (negb (bool_decide (phaseID ∈ seen))) (safe_point_field +:+ ".required_phase_ids") "must be unique";
          Ok ({[phaseID]} ∪ seen)) 0 ∅ (required_phase_ids p);
    check_interval p
  else
    check (bool_decide (sp_trigger p = SAFE_POINT_TRIGGER_UNKNOWN) && bool_decide (sp_interval p = None) &&
           bool_decide (sp_maximum_wait p = None) && bool_decide (required_phase_ids p = []))
      safe_point_field "disabled policy must not carry active fields".

Definition operator_known (o : VersionOperator) : bool :=
  match o with VERSION_OPERATOR_UNKNOWN | VERSION_OPERATOR_UNNAMED _ => false | _ => true end.

(** The identity of a constraint, and whether it may go without an observation policy. *)
Definition check_constraint (field : string) (constraint : VersionConstraint) : Result ValidationError (componentIdentity * bool) :=
  _ ← check (operator_known (vc_operator constraint)) (field +:+ ".operator") "must not be UNKNOWN";
  _ ← (if bool_decide (vc_operator constraint = VERSION_OPERATOR_EXACT)
       then check (canonicalNonEmpty (vc_version constraint)) (field +:+ ".version") "must be non-empty and canonical"
       else _ ← lift_text (field +:+ ".version") (normalizeVersion (vc_version constraint)); ok);
  _ ← check (bool_decide (vc_source constraint = "") || canonicalNonEmpty (vc_source constraint)) (field +:+ ".source")
        "must be canonical when present";
  lift_text (field +:+ ".component") (versionConstraintIdentity constraint).

(** The identities seen. *)
Definition check_constraints (constraints : list (option VersionConstraint)) : Result ValidationError (list componentIdentity) :=
  for_each (λ index (seen : list componentIdentity) constraint,
    let field := indexed (contract_field ".version_constraints") index in
    match constraint with
    | None => invalid field "must not be nil"
    | Some constraint =>
        '(identity, legacy) ← check_constraint field constraint;
        _ ← check (negb (bool_decide (identity ∈ seen))) (field +:+ ".component")
              "kind and name identity must be unique ignoring ASCII case";
        _ ← match vc_observation_policy constraint with
            | Some policy => validateObservationPolicy (field +:+ ".observation_policy") (Some policy)
            | None => check (legacy && bool_decide (identity.1 = COMPONENT_KIND_PROTOCOL)) (field +:+ ".observation_policy")
                        "must be present for typed or non-protocol constraints"
            end;
        Ok (identity :: seen)
    end) 0 [] constraints.

Definition check_critical_facts (policies : list (option CriticalFactPolicy)) : Result ValidationError unit :=
  _ ← for_each (λ index (seen : gset string) critical,
        let field := indexed (contract_field ".critical_fact_policies") index in
        match critical with
        | None => invalid field "must not be nil"
        | Some critical =>
            let path := critical_fact_path critical in
            _ ← check (canonicalFactPath path) (field +:+ ".fact_path") "must use canonical dotted syntax without surrounding whitespace";
            _ ← check (negb (bool_decide (path ∈ seen))) (field +:+ ".fact_path") "must be unique";
            _ ← validateObservationPolicy (field +:+ ".observation_policy") (critical_observation_policy critical);
            Ok ({[path]} ∪ seen)
        end) 0 ∅ policies;
  ok.

Definition check_extensions (extensions : list string) : Result ValidationError unit :=
  _ ← for_each (λ _ (seen : gset string) extension,
        _ ← check (canonicalNonEmpty extension) (contract_field ".capabilities.extensions")
              "must be non-empty and have no surrounding whitespace";
        _ ← check (negb (bool_decide (extension ∈ seen))) (contract_field ".capabilities.extensions") "must be unique";
        Ok ({[extension]} ∪ seen)) 0 ∅ extensions;
  ok.

(** The canonical ID of a contract: the hash of everything but the ID. *)
Definition CanonicalContractID (contract : ContractMessage) : Result string string :=
  wire ← contract_wire (mkContractMessage "" (cm_version contract) (phase_graph contract) (cm_validity_rules contract)
           (cm_version_constraints contract) (commit_policy contract) (cm_backpressure_policy contract)
           (safe_point_policy contract) (contract_capabilities contract) (cm_conditions contract) (cm_critical_fact_policies contract));
  Ok ("contract-sha256-" +:+ sha256_hex wire).

Definition validateExecutionContract (contract : option ContractMessage) : Result ValidationError unit :=
  match contract with
  | None => invalid (contract_field "") "must be present"
  | Some c =>
      _ ← check (negb (bool_decide (TrimSpace (cm_contract_id c) = ""))) (contract_field ".contract_id") "must not be empty";
      _ ← check (contractVersionPattern (cm_version c)) (contract_field ".version")
            "must use supported major version 1 as major.minor.patch";
      match phase_graph c, commit_policy c, cm_backpressure_policy c, safe_point_policy c, contract_capabilities c with
      | Some graph, Some commit, Some backpressure, Some safePoint, Some capabilities =>
          phases ← validatePhaseGraph order graph;
          _ ← check (policies_set (cm_validity_rules c) commit backpressure) (contract_field "")
                "requires validity, commit, and backpressure policies";
          _ ← check_rules (cm_validity_rules c);
          _ ← check_commit commit;
          _ ← check_backpressure backpressure;
          _ ← check_safe_point phases commit safePoint;
          components ← check_constraints (cm_version_constraints c);
          _ ← check (bool_decide (COMPONENT_KIND_PROTOCOL ∈ components.*1)) (contract_field ".version_constraints")
                "protocol constraint is required";
          _ ← check_critical_facts (cm_critical_fact_policies c);
          _ ← check_extensions (extensions capabilities);
          wantID ← lift_text (contract_field ".contract_id") (CanonicalContractID c);
          check (bool_decide (cm_contract_id c = wantID)) (contract_field ".contract_id") "does not match canonical contract content"
      | _, _, _, _, _ => invalid (contract_field "") "required policy and capability messages are missing"
      end
  end.

(** ** Observations *)

(** The scheduler's own check also looks into the fields of an object. *)
Fixpoint finiteSemanticValue (v : SemanticValue) : bool :=
  let finite_ptr o := match o with Some v => finiteSemanticValue v | None => false end in
  match v with
  | NoKind => false
  | DoubleValue f => negb (invalidFloat f)
  | ObjectValue fields =>
      forallb (λ p : string * option SemanticValue, canonicalNonEmpty p.1 && finite_ptr p.2) fields &&
      unique_keys ∅ fields.*1
  | ListValue values => forallb finite_ptr values
  | _ => true
  end.

Definition validateSemanticFact (field : string) (fact : option SemanticField) : Result ValidationError unit :=
  match fact with
  | None => invalid field "must not be nil"
  | Some f =>
      _ ← check (canonicalFactPath (field_key f)) (field +:+ ".key") "must use canonical dotted syntax without surrounding whitespace";
      match field_value f with
      | None | Some NoKind => invalid (field +:+ ".value") "must set a typed value"
      | Some v => check (finiteSemanticValue v) (field +:+ ".value") "must contain only finite numeric values"
      end
  end.

Definition canonical_or_empty (field value : string) : Result ValidationError unit :=
  check (bool_decide (value = "") || canonicalNonEmpty value) field "must be canonical when present".

Definition check_fact_observations (field : string) (facts : list (option ObservedFact)) : Result ValidationError unit :=
  _ ← for_each (λ index (seen : gset string) observed,
        let factField := indexed (field +:+ ".fact_observations") index in
        match observed with
        | None => invalid factField "must not be nil"
        | Some o =>
            _ ← validateSemanticFact (factField +:+ ".fact") (fact o);
            _ ← match of_observed_at o with
                | None => invalid (factField +:+ ".observed_at") "must be present"
                | Some t => check_timestamp (factField +:+ ".observed_at") t
                end;
            _ ← check (canonicalNonEmpty (of_source o)) (factField +:+ ".source") "must be non-empty and canonical";
            let key := from_option field_key "" (fact o) in
            _ ← check (negb (bool_decide (key ∈ seen))) (factField +:+ ".fact.key") "must be unique";
            Ok ({[key]} ∪ seen)
        end) 0 ∅ facts;
  ok.

Definition validateContractObservation (field : string) (observation : option ContractObservation) : Result ValidationError unit :=
  match observation with
  | None => ok
  | Some o =>
      _ ← canonical_or_empty (field +:+ ".source") (obs_source o);
      _ ← canonical_or_empty (field +:+ ".event_id") (obs_event_id o);
      _ ← canonical_or_empty (field +:+ ".phase_id") (obs_phase_id o);
      _ ← canonical_or_empty (field +:+ ".policy_version") (obs_policy_version o);
      _ ← check_present (field +:+ ".observed_at") (obs_observed_at o);
      _ ← check_present (field +:+ ".oldest_sample_at") (oldest_sample_at o);
      _ ← check_present (field +:+ ".backpressure_started_at") (backpressure_started_at o);
      _ ← check_fact_observations field (fact_observations o);
      validateComponentVersions (field +:+ ".component_versions") (component_versions o)
  end.

(** ** Intents *)

Definition IntentIdempotencyKey (executionID stageID : string) (version : Z) : string :=
  "intent-sha256-" +:+ sha256_hex (executionID +:+ NUL +:+ stageID +:+ NUL +:+ FormatUint version).

Definition required_strings (i : IntentMessage) : list (string * string) :=
  [("intent.execution_id", in_execution_id (im_core i)); ("intent.stage_id", in_stage_id (im_core i));
   ("intent.job_id", in_job_id (im_core i)); ("intent.idempotency_key", in_idempotency_key (im_core i));
   ("intent.policy_version", policy_version (im_core i)); ("intent.queue", im_queue i)].

(** [submitted_at], [valid_until] and [ttl]. *)
Definition check_validity (i : SchedulingIntent) : Result ValidationError unit :=
  match submitted_at i, valid_until i, ttl i with
  | Some submitted, Some until, Some ttl =>
      _ ← check_timestamp "intent.submitted_at" submitted;
      _ ← check_timestamp "intent.valid_until" until;
      _ ← check_duration "intent.ttl" ttl;
      _ ← check (0 <? AsDuration ttl) "intent.ttl" "must be positive";
      check (AsTime (Some submitted) + AsDuration ttl =? AsTime (Some until)) "intent.valid_until" "must equal submitted_at plus ttl"
  | _, _, _ => invalid "intent.validity" "submitted_at, valid_until, and ttl are required"
  end.

Definition contract_stage (i : IntentMessage) : option Phase :=
  find (λ p, bool_decide (phase_id p = in_stage_id (im_core i)))
    (omap id (from_option phases [] (im_contract i ≫= phase_graph))).

Definition device_selectors : list string := ["device_id"; "device_ids"; "physical_device_id"].

Definition check_identity (i : IntentMessage) : Result ValidationError unit :=
  match contract_stage i with
  | None => invalid "intent.stage_id" "must reference an execution-contract phase"
  | Some stage =>
      _ ← check (bool_decide (phase_kind stage = im_phase_kind i)) "intent.phase_kind" "must match the execution-contract phase";
      _ ← check (forallb (λ p : string * float64, negb (bool_decide (TrimSpace p.1 = "")) && negb (invalidFloat p.2))
                   (map_to_list (preferences i))) "intent.preferences" "keys must be non-empty and values finite";
      _ ← check (forallb (λ p : string * string, negb (bool_decide (ToLower unicode_lower (TrimSpace p.1) ∈ device_selectors)))
                   (map_to_list (im_labels i))) "intent.labels" "physical device selectors are forbidden";
      check (bool_decide (in_idempotency_key (im_core i) =
               IntentIdempotencyKey (in_execution_id (im_core i)) (in_stage_id (im_core i)) (in_version (im_core i))))
        "intent.idempotency_key" "does not match intent identity"
  end.

Definition validateIntent (i : IntentMessage) : Result ValidationError unit :=
  let core := im_core i in
  _ ← for_each (λ _ _ (p : string * string), check (negb (bool_decide (TrimSpace p.2 = ""))) p.1 "must not be empty") 0 tt
        (required_strings i);
  _ ← check (negb (in_version core =? 0)) "intent.version" "must be greater than zero";
  _ ← check (negb (unit_count core =? 0)) "intent.unit_count" "must be greater than zero";
  _ ← check (match im_rollout_mode i with ROLLOUT_MODE_UNKNOWN | ROLLOUT_MODE_UNNAMED _ => false | _ => true end)
        "intent.rollout_mode" "must not be UNKNOWN";
  _ ← check (phase_kind_known (im_phase_kind i)) "intent.phase_kind" "must not be UNKNOWN";
  _ ← check_validity core;
  _ ← validateResourceVector "intent.resources_per_unit" (resources_per_unit core);
  _ ← check (negb (ResourceIsZero (resources_per_unit core))) "intent.resources_per_unit" "at least one dimension must be positive";
  _ ← validateCapabilityShape "intent.required_capabilities" (required_capabilities core);
  _ ← validateExecutionContract (im_contract i);
  _ ← validateContractObservation "intent.contract_observation" (im_observation i);
  check_identity i.

Definition ValidateIntent (intent : option IntentMessage) : Result ValidationError unit :=
  match intent with None => invalid "intent" "must not be nil" | Some i => validateIntent i end.

End Validation.
