(* ===== verification/ActionPolicy.v ===== *)
(** * The policy of actions ([scheduler-go/actionpolicy/policy.go])

    What each action may do, when it may run and how it is undone, and the checks a plan
    passes before it is handed to the executor.  Quoting of text that is not ASCII and
    Unicode case mapping are parameters. *)

From Stdlib Require Import ZArith Lia Ascii.
From S2P Require Import Prelude GoStrings GoTime GoFloat Semantics ClusterModel PhaseGraph.
From stdpp Require Import options.

Local Open Scope Z_scope.

(** ** Numbers and names of the schema's enumerations *)

Definition ActionType_String (t : ActionType) : string :=
  match t with
  | ACTION_TYPE_UNNAMED n => FormatInt n
  | ACTION_TYPE_UNKNOWN => "ACTION_TYPE_UNKNOWN" | ACTION_TYPE_SET_SHARE => "ACTION_TYPE_SET_SHARE"
  | ACTION_TYPE_SET_PRIORITY => "ACTION_TYPE_SET_PRIORITY" | ACTION_TYPE_PAUSE => "ACTION_TYPE_PAUSE"
  | ACTION_TYPE_RESUME => "ACTION_TYPE_RESUME" | ACTION_TYPE_SLEEP => "ACTION_TYPE_SLEEP"
  | ACTION_TYPE_OFFLOAD => "ACTION_TYPE_OFFLOAD" | ACTION_TYPE_REBIND => "ACTION_TYPE_REBIND"
  | ACTION_TYPE_RECREATE => "ACTION_TYPE_RECREATE" | ACTION_TYPE_BIND => "ACTION_TYPE_BIND"
  | ACTION_TYPE_RELEASE => "ACTION_TYPE_RELEASE" | ACTION_TYPE_RESIZE => "ACTION_TYPE_RESIZE"
  end.

Definition ActionLevel_number (l : ActionLevel) : Z :=
  match l with
  | ACTION_LEVEL_UNKNOWN => 0 | ACTION_LEVEL_L1 => 1 | ACTION_LEVEL_L2 => 2 | ACTION_LEVEL_L3 => 3 | ACTION_LEVEL_L4 => 4
  | ACTION_LEVEL_UNNAMED n => n
  end.

Definition ActionLevel_String (l : ActionLevel) : string :=
  match l with
  | ACTION_LEVEL_UNNAMED n => FormatInt n
  | ACTION_LEVEL_UNKNOWN => "ACTION_LEVEL_UNKNOWN" | ACTION_LEVEL_L1 => "ACTION_LEVEL_L1" | ACTION_LEVEL_L2 => "ACTION_LEVEL_L2"
  | ACTION_LEVEL_L3 => "ACTION_LEVEL_L3" | ACTION_LEVEL_L4 => "ACTION_LEVEL_L4"
  end.

Definition PlanPurpose_number (p : PlanPurpose) : Z :=
  match p with
  | PLAN_PURPOSE_UNKNOWN => 0 | PLAN_PURPOSE_ADMISSION => 1 | PLAN_PURPOSE_REBALANCE => 2 | PLAN_PURPOSE_PREEMPTION => 3
  | PLAN_PURPOSE_RECOVERY => 4 | PLAN_PURPOSE_RECONCILIATION => 5 | PLAN_PURPOSE_UNNAMED n => n
  end.

Definition PlanPurpose_String (p : PlanPurpose) : string :=
  match p with
  | PLAN_PURPOSE_UNNAMED n => FormatInt n
  | PLAN_PURPOSE_UNKNOWN => "PLAN_PURPOSE_UNKNOWN" | PLAN_PURPOSE_ADMISSION => "PLAN_PURPOSE_ADMISSION"
  | PLAN_PURPOSE_REBALANCE => "PLAN_PURPOSE_REBALANCE" | PLAN_PURPOSE_PREEMPTION => "PLAN_PURPOSE_PREEMPTION"
  | PLAN_PURPOSE_RECOVERY => "PLAN_PURPOSE_RECOVERY" | PLAN_PURPOSE_RECONCILIATION => "PLAN_PURPOSE_RECONCILIATION"
  end.

Definition ActionPrecondition_number (p : ActionPrecondition) : Z :=
  match p with
  | ACTION_PRECONDITION_UNKNOWN => 0 | ACTION_PRECONDITION_SNAPSHOT_REVISION_MATCH => 1
  | ACTION_PRECONDITION_TARGET_GENERATION_MATCH => 2 | ACTION_PRECONDITION_SAFE_POINT_REACHED => 3
  | ACTION_PRECONDITION_AFFECTED_ALLOCATIONS_ACTIVE => 4 | ACTION_PRECONDITION_UNNAMED n => n
  end.

Definition CapabilityRequirementKind_number (k : CapabilityRequirementKind) : Z :=
  match k with
  | CAPABILITY_REQUIREMENT_KIND_UNKNOWN => 0 | CAPABILITY_REQUIREMENT_KIND_ORDERED_ACTION_EXECUTION => 1
  | CAPABILITY_REQUIREMENT_KIND_COMPENSATING_ROLLBACK => 2 | CAPABILITY_REQUIREMENT_KIND_TRANSACTIONAL_PLAN_EXECUTION => 3
  | CAPABILITY_REQUIREMENT_KIND_ATOMIC_REPLACEMENT => 4 | CAPABILITY_REQUIREMENT_KIND_PROVIDER_CAPABILITY => 5
  | CAPABILITY_REQUIREMENT_KIND_UNNAMED n => n
  end.

Definition CapabilityRequirementKind_String (k : CapabilityRequirementKind) : string :=
  match k with
  | CAPABILITY_REQUIREMENT_KIND_UNNAMED n => FormatInt n
  | CAPABILITY_REQUIREMENT_KIND_UNKNOWN => "CAPABILITY_REQUIREMENT_KIND_UNKNOWN"
  | CAPABILITY_REQUIREMENT_KIND_ORDERED_ACTION_EXECUTION => "CAPABILITY_REQUIREMENT_KIND_ORDERED_ACTION_EXECUTION"
  | CAPABILITY_REQUIREMENT_KIND_COMPENSATING_ROLLBACK => "CAPABILITY_REQUIREMENT_KIND_COMPENSATING_ROLLBACK"
  | CAPABILITY_REQUIREMENT_KIND_TRANSACTIONAL_PLAN_EXECUTION => "CAPABILITY_REQUIREMENT_KIND_TRANSACTIONAL_PLAN_EXECUTION"
  | CAPABILITY_REQUIREMENT_KIND_ATOMIC_REPLACEMENT => "CAPABILITY_REQUIREMENT_KIND_ATOMIC_REPLACEMENT"
  | CAPABILITY_REQUIREMENT_KIND_PROVIDER_CAPABILITY => "CAPABILITY_REQUIREMENT_KIND_PROVIDER_CAPABILITY"
  end.

(** ** Errors *)

Inductive ViolationKind :=
| ViolationInvalidArgument | ViolationUnknownAction | ViolationLevelMismatch | ViolationUnknownTick | ViolationTickMismatch
| ViolationTickExceedsCeiling | ViolationUnknownPurpose | ViolationPurposeMismatch | ViolationPrecondition
| ViolationExpectedImpact | ViolationRollbackPolicy | ViolationCapabilityRequirement.

Record PolicyError := mkPolicyError {
  Kind : ViolationKind;
  Message : string;
  ActionID : string;
  err_ActionType : ActionType;
  DeclaredLevel : ActionLevel;
  ExpectedLevel : ActionLevel;
  err_TickKind : TickKind;
  ExpectedTick : TickKind;
  Ceiling : ActionLevel;
  Purpose : PlanPurpose;
  err_CapabilityRequirement : CapabilityRequirementKind;
}.

#[export] Instance eta_PolicyError : Eta PolicyError := λ e,
  mkPolicyError (Kind e) (Message e) (ActionID e) (err_ActionType e) (DeclaredLevel e) (ExpectedLevel e) (err_TickKind e)
    (ExpectedTick e) (Ceiling e) (Purpose e) (err_CapabilityRequirement e).

Definition plain_error (kind : ViolationKind) (message : string) : PolicyError :=
  mkPolicyError kind message "" ACTION_TYPE_UNKNOWN ACTION_LEVEL_UNKNOWN ACTION_LEVEL_UNKNOWN TICK_KIND_UNKNOWN TICK_KIND_UNKNOWN
    ACTION_LEVEL_UNKNOWN PLAN_PURPOSE_UNKNOWN CAPABILITY_REQUIREMENT_KIND_UNKNOWN.

Definition actionError (kind : ViolationKind) (action : Action) (message : string) : PolicyError :=
  mkPolicyError kind message (action_id action) (action_type action) (level (action_contract action)) ACTION_LEVEL_UNKNOWN
    (ac_tick_kind (action_contract action)) TICK_KIND_UNKNOWN ACTION_LEVEL_UNKNOWN PLAN_PURPOSE_UNKNOWN
    CAPABILITY_REQUIREMENT_KIND_UNKNOWN.

(** An error that names the purpose, and one that also names a capability. *)
Definition plan_error (kind : ViolationKind) (message : string) (purpose : PlanPurpose) : PolicyError :=
  (plain_error kind message) <| Purpose := purpose |>.

Definition capability_error (message : string) (purpose : PlanPurpose) (k : CapabilityRequirementKind) : PolicyError :=
  (plan_error ViolationCapabilityRequirement message purpose) <| err_CapabilityRequirement := k |>.

(** ** What actions do *)

Record ActionDefinition := mkDefinition {
  def_Level : ActionLevel;
  CapabilityName : string;
  CompensationType : ActionType;
  CompensationNeedsBinding : bool;
  def_ExpectedImpacts : list ExpectedImpact;
}.

Definition DefinitionForAction (t : ActionType) : option ActionDefinition :=
  let runtimeImpact := [EXPECTED_IMPACT_RUNTIME_STATE_CHANGED] in
  match t with
  | ACTION_TYPE_SET_SHARE => Some (mkDefinition ACTION_LEVEL_L1 "set_share" t false runtimeImpact)
  | ACTION_TYPE_SET_PRIORITY => Some (mkDefinition ACTION_LEVEL_L1 "set_priority" t false runtimeImpact)
  | ACTION_TYPE_RESIZE => Some (mkDefinition ACTION_LEVEL_L1 "resize" t true runtimeImpact)
  | ACTION_TYPE_BIND => Some (mkDefinition ACTION_LEVEL_L1 "bind" ACTION_TYPE_RELEASE false
      [EXPECTED_IMPACT_ALLOCATION_CREATED; EXPECTED_IMPACT_CAPACITY_RESERVED])
  | ACTION_TYPE_RELEASE => Some (mkDefinition ACTION_LEVEL_L1 "release" ACTION_TYPE_BIND true
      [EXPECTED_IMPACT_ALLOCATION_RELEASED; EXPECTED_IMPACT_CAPACITY_RELEASED])
  | ACTION_TYPE_PAUSE => Some (mkDefinition ACTION_LEVEL_L2 "pause" ACTION_TYPE_RESUME false runtimeImpact)
  | ACTION_TYPE_RESUME => Some (mkDefinition ACTION_LEVEL_L2 "resume" ACTION_TYPE_PAUSE false runtimeImpact)
  | ACTION_TYPE_SLEEP => Some (mkDefinition ACTION_LEVEL_L3 "sleep" ACTION_TYPE_RESUME false runtimeImpact)
  | ACTION_TYPE_OFFLOAD => Some (mkDefinition ACTION_LEVEL_L3 "offload" ACTION_TYPE_RESUME false runtimeImpact)
  | ACTION_TYPE_REBIND => Some (mkDefinition ACTION_LEVEL_L4 "rebind" t true runtimeImpact)
  | ACTION_TYPE_RECREATE => Some (mkDefinition ACTION_LEVEL_L4 "recreate" t true runtimeImpact)
  | _ => None
  end.

Definition zero_definition : ActionDefinition := mkDefinition ACTION_LEVEL_UNKNOWN "" ACTION_TYPE_UNKNOWN false [].

Definition LevelForAction (t : ActionType) : option ActionLevel := def_Level <$> DefinitionForAction t.

Definition CeilingForTick (tick : TickKind) : option ActionLevel :=
  match tick with
  | TICK_KIND_FAST => Some ACTION_LEVEL_L1
  | TICK_KIND_MEDIUM => Some ACTION_LEVEL_L3
  | TICK_KIND_SLOW => Some ACTION_LEVEL_L4
  | _ => None
  end.

Definition RequiredPreconditions (actionType : ActionType) (requiresSafePoint affected : bool) : list ActionPrecondition :=
  let bind := bool_decide (actionType = ACTION_TYPE_BIND) in
  [ACTION_PRECONDITION_SNAPSHOT_REVISION_MATCH] ++
  (if negb bind then [ACTION_PRECONDITION_TARGET_GENERATION_MATCH] else []) ++
  (if requiresSafePoint then [ACTION_PRECONDITION_SAFE_POINT_REACHED] else []) ++
  (if affected && negb bind then [ACTION_PRECONDITION_AFFECTED_ALLOCATIONS_ACTIVE] else []).

(** ** Capability requirements *)

(** [%010d] of an [int32], then the name and the version. *)
Definition capabilityKey (r : CapabilityRequirement) : string :=
  let n := CapabilityRequirementKind_number (requirement_kind r) in
  (if n <? 0 then "-" +:+ FormatPadded 9 (- n) else FormatPadded 10 n) +:+ NUL +:+ requirement_name r +:+ NUL +:+ min_version r.

Fixpoint distinct_requirements (seen : gset string) (rs : list CapabilityRequirement) : list CapabilityRequirement :=
  match rs with
  | [] => []
  | r :: rs => if bool_decide (capabilityKey r ∈ seen) then distinct_requirements seen rs
               else r :: distinct_requirements ({[capabilityKey r]} ∪ seen) rs
  end.

Definition StableCapabilityRequirements (values : list CapabilityRequirement) : list CapabilityRequirement :=
  sort_by (λ a b, str_ltb (capabilityKey a) (capabilityKey b)) (distinct_requirements ∅ values).

Definition NewCapabilityRequirement (kind : CapabilityRequirementKind) : CapabilityRequirement := mkRequirement kind "" "" true.

Definition containsCapabilityRequirement (values : list (option CapabilityRequirement)) (expected : CapabilityRequirementKind) : bool :=
  existsb (λ v, from_option (λ r, bool_decide (requirement_kind r = expected) && required r) false v) values.

Definition check_policy (b : bool) (e : PolicyError) : Result PolicyError unit := guard_err b e.

Fixpoint requirements_from (previousKey : string) (values : list (option CapabilityRequirement)) : Result PolicyError unit :=
  match values with
  | [] => Ok tt
  | None :: _ => Err (plain_error ViolationCapabilityRequirement "capability requirements must use a known kind")
  | Some r :: values =>
      let n := CapabilityRequirementKind_number (requirement_kind r) in
      _ ← check_policy ((1 <=? n) && (n <=? 5)) (plain_error ViolationCapabilityRequirement "capability requirements must use a known kind");
      _ ← (if bool_decide (requirement_kind r = CAPABILITY_REQUIREMENT_KIND_PROVIDER_CAPABILITY)
           then check_policy (negb (bool_decide (TrimSpace (requirement_name r) = "")))
                  (plain_error ViolationCapabilityRequirement "provider capability requirement requires name")
           else check_policy (bool_decide (requirement_name r = ""))
                  (plain_error ViolationCapabilityRequirement "built-in capability requirements must not use name"));
      let key := capabilityKey r in
      _ ← check_policy (bool_decide (previousKey = "") || str_ltb previousKey key)
            (plain_error ViolationCapabilityRequirement "capability requirements must be unique and stably ordered");
      requirements_from key values
  end.

Definition validateCapabilityRequirements : list (option CapabilityRequirement) → Result PolicyError unit := requirements_from "".

Fixpoint affected_from (previous : option string) (values : list string) : bool :=
  match values with
  | [] => true
  | v :: values =>
      negb (bool_decide (TrimSpace v = "")) && from_option (λ p, str_ltb p v) true previous && affected_from (Some v) values
  end.

Definition validateAffectedAllocationIDs (values : list string) : Result PolicyError unit :=
  check_policy (affected_from None values)
    (plain_error ViolationInvalidArgument "affected allocation IDs must be nonblank, unique, and sorted").

(** Each number is greater than the one before and names a precondition. *)
Fixpoint preconditions_from (previous : Z) (values : list ActionPrecondition) : bool :=
  match values with
  | [] => true
  | v :: values =>
      let n := ActionPrecondition_number v in
      (1 <=? n) && (n <=? 4) && (previous <? n) && preconditions_from n values
  end.

Definition validatePreconditions (values : list ActionPrecondition) : bool := preconditions_from 0 values.

(** ** Actions *)

Section Policy.
Context (unicode_lower unicode_quote : string → string).

Definition quoted : string → string := Quote unicode_quote.

Definition normalizeName (v : string) : string := ToLower unicode_lower (replace_byte "-"%char "_"%char (TrimSpace v)).

Definition containsNormalized (values : list string) (expected : string) : bool :=
  bool_decide (normalizeName expected ∈ normalizeName <$> values).

Definition describe (a : Action) : string := "action " +:+ quoted (action_id a).

Definition validateSuppliedActionMetadata (action : Action) (definition : ActionDefinition) : Result PolicyError unit :=
  let c := action_contract action in
  _ ← check_policy (bool_decide (preconditions c = []) || validatePreconditions (preconditions c))
        (actionError ViolationPrecondition action "preconditions must be known, unique, and sorted");
  check_policy (bool_decide (expected_impacts c = []) || bool_decide (expected_impacts c = def_ExpectedImpacts definition))
    (actionError ViolationExpectedImpact action
       (describe action +:+ " expected_impacts do not match " +:+ ActionType_String (action_type action))).

(** [AllowLegacyUnknownTickL1] is the one option. *)
Definition ValidateAction (action : Action) (expectedTick : TickKind) (allowLegacy : bool) : Result PolicyError unit :=
  let c := action_contract action in
  match DefinitionForAction (action_type action) with
  | None => Err (actionError ViolationUnknownAction action
                   (describe action +:+ " has unsupported action_type " +:+ ActionType_String (action_type action)))
  | Some definition =>
      _ ← check_policy (bool_decide (level c = def_Level definition))
            ((actionError ViolationLevelMismatch action
               (describe action +:+ " declares level " +:+ ActionLevel_String (level c) +:+ ", want " +:+
                ActionLevel_String (def_Level definition) +:+ " for " +:+ ActionType_String (action_type action)))
               <| ExpectedLevel := def_Level definition |>);
      if bool_decide (ac_tick_kind c = TICK_KIND_UNKNOWN) then
        if allowLegacy && bool_decide (def_Level definition = ACTION_LEVEL_L1)
        then validateSuppliedActionMetadata action definition
        else Err ((actionError ViolationUnknownTick action
                    (describe action +:+ " uses unknown tick_kind for level " +:+ ActionLevel_String (level c)))
                    <| ExpectedTick := expectedTick |>)
      else
      _ ← check_policy (bool_decide (expectedTick = TICK_KIND_UNKNOWN) || bool_decide (ac_tick_kind c = expectedTick))
            ((actionError ViolationTickMismatch action
               (describe action +:+ " tick_kind " +:+ TickKind_String (ac_tick_kind c) +:+ " does not match expected tick " +:+
                TickKind_String expectedTick)) <| ExpectedTick := expectedTick |>);
      match CeilingForTick (ac_tick_kind c) with
      | None => Err (actionError ViolationUnknownTick action
                       (describe action +:+ " uses unsupported tick_kind " +:+ TickKind_String (ac_tick_kind c)))
      | Some ceiling =>
          _ ← check_policy (ActionLevel_number (level c) <=? ActionLevel_number ceiling)
                ((actionError ViolationTickExceedsCeiling action
                   (describe action +:+ " level " +:+ ActionLevel_String (level c) +:+ " exceeds tick " +:+
                    TickKind_String (ac_tick_kind c) +:+ " ceiling " +:+ ActionLevel_String ceiling)) <| Ceiling := ceiling |>);
          validateSuppliedActionMetadata action definition
      end
  end.

Definition ValidateRollback (action : Action) : Result PolicyError unit :=
  match DefinitionForAction (action_type action) with
  | None => Err (actionError ViolationUnknownAction action "unsupported action rollback")
  | Some definition =>
      let undeclared := actionError ViolationRollbackPolicy action
        (describe action +:+ " does not declare " +:+ ActionType_String (CompensationType definition) +:+ " compensation") in
      match action_rollback action with
      | None => Err undeclared
      | Some rollback =>
          _ ← check_policy (bool_decide (rb_action_type rollback = CompensationType definition)) undeclared;
          let sandboxID := if bool_decide (ac_sandbox_id action = "") then from_option bi_sandbox_id "" (action_binding action)
                           else ac_sandbox_id action in
          let sandboxID := if bool_decide (sandboxID = "") then target_id action else sandboxID in
          let wantTarget := if bool_decide (action_type action = ACTION_TYPE_BIND)
                            then from_option binding_id "" (action_binding action) else sandboxID in
          _ ← check_policy (negb (bool_decide (wantTarget = "")) && bool_decide (rb_target_id rollback = wantTarget))
                (actionError ViolationRollbackPolicy action
                   (describe action +:+ " rollback target " +:+ quoted (rb_target_id rollback) +:+ " does not match " +:+ quoted wantTarget));
          check_policy (Bool.eqb (CompensationNeedsBinding definition) (bool_decide (is_Some (restore_binding rollback))))
            (actionError ViolationRollbackPolicy action
               (describe action +:+ " rollback restore_binding does not match compensation contract"))
      end
  end.

(** ** Plans *)

Definition legacy_bind (a : option Action) : bool :=
  match a with
  | None => false
  | Some a =>
      bool_decide (action_type a = ACTION_TYPE_BIND) && bool_decide (level (action_contract a) = ACTION_LEVEL_L1) &&
      from_option (λ r, bool_decide (rb_action_type r = ACTION_TYPE_RELEASE)) false (action_rollback a) &&
      bool_decide (preconditions (action_contract a) = []) && bool_decide (expected_impacts (action_contract a) = [])
  end.

Definition isLegacyBindOnlyPlan (plan : PlacementPlan) : bool :=
  negb (bool_decide (actions plan = [])) && bool_decide (rollback_policy plan = ROLLBACK_POLICY_UNKNOWN) &&
  bool_decide (capability_requirements plan = []) && bool_decide (affected_allocation_ids plan = []) &&
  forallb legacy_bind (actions plan).

Definition plan_text (prefix : string) (plan : PlacementPlan) : string := prefix +:+ "plan " +:+ quoted (plan_id plan).

(** The purpose, and whether the plan is a legacy one. *)
Definition EffectivePurpose (plan : PlacementPlan) : Result PolicyError (PlanPurpose * bool) :=
  match purpose plan with
  | PLAN_PURPOSE_UNKNOWN =>
      if isLegacyBindOnlyPlan plan then Ok (PLAN_PURPOSE_ADMISSION, true)
      else Err (plain_error ViolationUnknownPurpose (plan_text "" plan +:+ " has unknown purpose and is not a legacy bind-only plan"))
  | PLAN_PURPOSE_UNNAMED n =>
      Err (plan_error ViolationUnknownPurpose (plan_text "" plan +:+ " has unsupported purpose " +:+ FormatInt n) (purpose plan))
  | p => Ok (p, false)
  end.

Fixpoint require_kinds (plan : PlacementPlan) (p : PlanPurpose) (prefix : string) (kinds : list CapabilityRequirementKind) :
    Result PolicyError unit :=
  match kinds with
  | [] => Ok tt
  | k :: kinds =>
      _ ← check_policy (containsCapabilityRequirement (capability_requirements plan) k)
            (capability_error (plan_text prefix plan +:+ " omits required capability " +:+ CapabilityRequirementKind_String k) p k);
      require_kinds plan p prefix kinds
  end.

Definition of_type (t : ActionType) (a : option Action) : bool := from_option (λ a, bool_decide (action_type a = t)) false a.

Definition release_targets (plan : PlacementPlan) : list string :=
  target_id <$> filter (λ a, action_type a = ACTION_TYPE_RELEASE) (omap id (actions plan)).

Definition multi_action_kinds : list CapabilityRequirementKind :=
  [CAPABILITY_REQUIREMENT_KIND_ORDERED_ACTION_EXECUTION; CAPABILITY_REQUIREMENT_KIND_COMPENSATING_ROLLBACK].

Definition preemption_kinds : list CapabilityRequirementKind :=
  multi_action_kinds ++ [CAPABILITY_REQUIREMENT_KIND_TRANSACTIONAL_PLAN_EXECUTION; CAPABILITY_REQUIREMENT_KIND_ATOMIC_REPLACEMENT].

(** What a preemption declares. *)
Definition validatePreemptionContract (plan : PlacementPlan) : Result PolicyError unit :=
  let p := PLAN_PURPOSE_PREEMPTION in
  _ ← check_policy (bool_decide (rollback_policy plan = ROLLBACK_POLICY_REQUIRED_COMPENSATION))
        (plan_error ViolationRollbackPolicy (plan_text "preemption " plan +:+ " must require rollback compensation") p);
  _ ← require_kinds plan p "preemption " preemption_kinds;
  _ ← check_policy (existsb (of_type ACTION_TYPE_RELEASE) (actions plan) && existsb (of_type ACTION_TYPE_BIND) (actions plan))
        (plan_error ViolationPurposeMismatch (plan_text "preemption " plan +:+ " requires release and replacement bind actions") p);
  check_policy (bool_decide (sort_strings (release_targets plan) = affected_allocation_ids plan))
    (plan_error ViolationPurposeMismatch (plan_text "preemption " plan +:+ " affected allocations do not match release targets") p).

Definition validatePlanContract (plan : PlacementPlan) (p : PlanPurpose) : Result PolicyError unit :=
  if bool_decide (actions plan = []) then
    check_policy (bool_decide (rollback_policy plan = ROLLBACK_POLICY_NOT_REQUIRED) &&
                  bool_decide (capability_requirements plan = []) && bool_decide (affected_allocation_ids plan = []))
      (plan_error ViolationRollbackPolicy
         ("empty " +:+ plan_text "" plan +:+ " must declare rollback not required and no mutation requirements") p)
  else
  let many := (1 <? length (actions plan))%nat in
  let compensated := bool_decide (rollback_policy plan = ROLLBACK_POLICY_REQUIRED_COMPENSATION) in
  _ ← check_policy (negb (bool_decide (rollback_policy plan = ROLLBACK_POLICY_UNKNOWN)))
        (plan_error ViolationRollbackPolicy (plan_text "" plan +:+ " has unknown rollback policy") p);
  _ ← check_policy (negb compensated ||
                    containsCapabilityRequirement (capability_requirements plan) CAPABILITY_REQUIREMENT_KIND_COMPENSATING_ROLLBACK)
        (capability_error (plan_text "" plan +:+ " requires compensation without declaring its capability") p
           CAPABILITY_REQUIREMENT_KIND_COMPENSATING_ROLLBACK);
  _ ← check_policy (negb many || compensated)
        (plan_error ViolationRollbackPolicy (plan_text "multi-action " plan +:+ " must require compensation") p);
  _ ← validateCapabilityRequirements (capability_requirements plan);
  _ ← (if many then require_kinds plan p "" multi_action_kinds else Ok tt);
  _ ← validateAffectedAllocationIDs (affected_allocation_ids plan);
  _ ← check_policy (negb (bool_decide (p = PLAN_PURPOSE_ADMISSION)) || bool_decide (affected_allocation_ids plan = []))
        (plan_error ViolationPurposeMismatch (plan_text "admission " plan +:+ " must not affect existing allocations") p);
  _ ← check_policy (negb (bool_decide (p = PLAN_PURPOSE_REBALANCE)) || negb (bool_decide (affected_allocation_ids plan = [])))
        (plan_error ViolationPurposeMismatch (plan_text "rebalance " plan +:+ " must identify affected allocations") p);
  if bool_decide (p = PLAN_PURPOSE_PREEMPTION) then validatePreemptionContract plan else Ok tt.

Fixpoint order_from (index : Z) (as_ : list (option Action)) : Result PolicyError unit :=
  match as_ with
  | [] => Ok tt
  | a :: as_ =>
      _ ← match a with
          | None => Ok tt
          | Some a => check_policy (order (action_contract a) =? (index + 1) mod two32)
                        (actionError ViolationInvalidArgument a
                           (describe a +:+ " order is " +:+ FormatUint (order (action_contract a)) +:+ ", want " +:+ FormatInt (index + 1)))
          end;
      order_from (index + 1) as_
  end.

Definition validateActionOrder (plan : PlacementPlan) : Result PolicyError unit := order_from 0 (actions plan).

Definition validatePreemptionActionContract (action : Action) : Result PolicyError unit :=
  let err what := actionError ViolationPrecondition action what in
  match action_type action with
  | ACTION_TYPE_RELEASE =>
      let name := "preemption release " +:+ quoted (action_id action) in
      _ ← check_policy (negb (bool_decide (TrimSpace (ac_sandbox_id action) = ""))) (err (name +:+ " must declare sandbox_id"));
      check_policy (requires_safe_point (action_contract action)) (err (name +:+ " must require a safe point fence"))
  | ACTION_TYPE_BIND =>
      let name := "preemption bind " +:+ quoted (action_id action) in
      match action_binding action with
      | None => Err (err (name +:+ " must declare replacement binding identity"))
      | Some b =>
          _ ← check_policy (negb (bool_decide (TrimSpace (binding_id b) = ""))) (err (name +:+ " must declare replacement binding_id"));
          _ ← check_policy (negb (bool_decide (TrimSpace (bi_pending_unit_id b) = ""))) (err (name +:+ " must declare replacement pending_unit_id"));
          _ ← check_policy (negb (bool_decide (TrimSpace (bi_sandbox_id b) = ""))) (err (name +:+ " must declare replacement sandbox_id"));
          _ ← check_policy (negb (bool_decide (TrimSpace (bi_runtime_unit_id b) = ""))) (err (name +:+ " must declare replacement runtime_unit_id"));
          _ ← check_policy (negb (bi_generation b =? 0)) (err (name +:+ " must declare replacement generation"));
          check_policy (bool_decide (ac_sandbox_id action = "") || bool_decide (ac_sandbox_id action = bi_sandbox_id b))
            (err (name +:+ " sandbox_id " +:+ quoted (ac_sandbox_id action) +:+ " does not match replacement sandbox_id " +:+
                  quoted (bi_sandbox_id b)))
      end
  | _ => Ok tt
  end.

Definition purposeActionError (plan : PlacementPlan) (action : Action) (p : PlanPurpose) (detail : string) : PolicyError :=
  (actionError ViolationPurposeMismatch action
     (plan_text "" plan +:+ " purpose " +:+ PlanPurpose_String p +:+ " rejects " +:+ describe action +:+ ": " +:+ detail))
    <| Purpose := p |>.

Definition validatePurposeAction (plan : PlacementPlan) (p : PlanPurpose) (action : Action) : Result PolicyError unit :=
  let t := action_type action in
  let among l := bool_decide (t ∈ l) in
  match p with
  | PLAN_PURPOSE_ADMISSION =>
      check_policy (among [ACTION_TYPE_BIND]) (purposeActionError plan action p "admission plans may contain only bind actions")
  | PLAN_PURPOSE_REBALANCE =>
      check_policy (negb (among [ACTION_TYPE_BIND; ACTION_TYPE_RELEASE]))
        (purposeActionError plan action p "rebalance must not disguise migration as bind/release")
  | PLAN_PURPOSE_PREEMPTION =>
      _ ← check_policy (among [ACTION_TYPE_BIND; ACTION_TYPE_RELEASE])
            (purposeActionError plan action p "preemption plans allow only release and replacement bind");
      match validatePreemptionActionContract action with
      | Ok _ => Ok tt
      | Err e => Err (e <| Purpose := p |>)
      end
  | PLAN_PURPOSE_RECOVERY =>
      check_policy (among [ACTION_TYPE_RESUME; ACTION_TYPE_REBIND; ACTION_TYPE_RECREATE])
        (purposeActionError plan action p "recovery plans allow only resume, rebind, or recreate")
  | _ => Ok tt
  end.

Definition validateExplicitActionContract (plan : PlacementPlan) (action : Action) (definition : ActionDefinition) :
    Result PolicyError unit :=
  let c := action_contract action in
  let bind := bool_decide (action_type action = ACTION_TYPE_BIND) in
  let affected := bool_decide (target_id action ∈ affected_allocation_ids plan) in
  _ ← check_policy (negb (snapshot_revision plan =? 0) && negb (expected_snapshot_revision c =? 0) &&
                    (expected_snapshot_revision c =? snapshot_revision plan))
        (actionError ViolationPrecondition action (describe action +:+ " must carry the plan snapshot revision fence"));
  _ ← check_policy (bind || negb (expected_generation action =? 0))
        (actionError ViolationPrecondition action (describe action +:+ " must carry a target generation fence"));
  _ ← check_policy (bool_decide (affected_allocation_ids plan = []) || bind || affected)
        (actionError ViolationPrecondition action
           (describe action +:+ " target " +:+ quoted (target_id action) +:+ " is not an affected allocation"));
  _ ← check_policy (from_option (λ r, containsNormalized (supported_actions r) (CapabilityName definition)) false (ac_required_capabilities c))
        (actionError ViolationCapabilityRequirement action
           (describe action +:+ " must require provider capability " +:+ quoted (CapabilityName definition)));
  _ ← check_policy (bool_decide (preconditions c = RequiredPreconditions (action_type action) (requires_safe_point c) affected))
        (actionError ViolationPrecondition action (describe action +:+ " preconditions are incomplete or not stably ordered"));
  check_policy (bool_decide (expected_impacts c = def_ExpectedImpacts definition))
    (actionError ViolationExpectedImpact action
       (describe action +:+ " expected_impacts do not match " +:+ ActionType_String (action_type action))).

Definition derivePlanTick (plan : PlacementPlan) : TickKind :=
  from_option (λ a, ac_tick_kind (action_contract a)) TICK_KIND_UNKNOWN
    (find (λ a, negb (bool_decide (ac_tick_kind (action_contract a) = TICK_KIND_UNKNOWN))) (omap id (actions plan))).

(** One action of a plan. *)
Definition validate_plan_action (plan : PlacementPlan) (p : PlanPurpose) (legacy : bool) (tick : TickKind) (allowLegacy : bool)
    (action : Action) : Result PolicyError unit :=
  _ ← ValidateAction action tick allowLegacy;
  if legacy then Ok tt else
  _ ← validatePurposeAction plan p action;
  _ ← (if bool_decide (rollback_policy plan = ROLLBACK_POLICY_REQUIRED_COMPENSATION) then ValidateRollback action else Ok tt);
  validateExplicitActionContract plan action (default zero_definition (DefinitionForAction (action_type action))).

Fixpoint validate_actions (plan : PlacementPlan) (p : PlanPurpose) (legacy : bool) (tick : TickKind) (allowLegacy : bool)
    (index : Z) (as_ : list (option Action)) : Result PolicyError unit :=
  match as_ with
  | [] => Ok tt
  | None :: _ => Err (plan_error ViolationInvalidArgument (plan_text "" plan +:+ " contains nil action at index " +:+ FormatInt index) p)
  | Some action :: as_ =>
      _ ← validate_plan_action plan p legacy tick allowLegacy action;
      validate_actions plan p legacy tick allowLegacy (index + 1) as_
  end.

Definition ValidatePlan (plan : option PlacementPlan) (expectedTick : TickKind) (allowLegacy : bool) : Result PolicyError unit :=
  match plan with
  | None => Err (plain_error ViolationInvalidArgument "plan is required")
  | Some plan =>
      r ← EffectivePurpose plan;
      let '(p, legacy) := r in
      let tick := if bool_decide (expectedTick = TICK_KIND_UNKNOWN) then derivePlanTick plan else expectedTick in
      _ ← (if legacy : bool then Ok tt else _ ← validatePlanContract plan p; validateActionOrder plan);
      validate_actions plan p legacy tick allowLegacy 0 (actions plan)
  end.

End Policy.
