(* ===== verification/ActionPolicyProofs.v ===== *)
(** * What an accepted plan guarantees ([scheduler-go/actionpolicy/policy.go]) *)

From Stdlib Require Import ZArith Lia Ascii.
From S2P Require Import Prelude GoStrings GoTime GoFloat Semantics ClusterModel SchedulerState PhaseGraph ActionPolicy.
From stdpp Require Import options.

Local Open Scope Z_scope.

(** ** The guarantees *)

(** The action may run in a tick: at the level of its type, below the tick's ceiling; an
    action without a tick is one of the first level. *)
Definition permitted (allowLegacy : bool) (tick : TickKind) (a : Action) : Prop :=
  let c := action_contract a in
  LevelForAction (action_type a) = Some (level c) ∧
  match ac_tick_kind c with
  | TICK_KIND_UNKNOWN => allowLegacy = true ∧ level c = ACTION_LEVEL_L1
  | t => (tick = TICK_KIND_UNKNOWN ∨ t = tick) ∧
      ∃ ceiling, CeilingForTick t = Some ceiling ∧ ActionLevel_number (level c) ≤ ActionLevel_number ceiling
  end.

(** Its rollback undoes it. *)
Definition compensated (a : Action) : Prop :=
  ∃ d r, DefinitionForAction (action_type a) = Some d ∧ action_rollback a = Some r ∧ rb_action_type r = CompensationType d ∧
    rb_target_id r ≠ "" ∧ (is_Some (restore_binding r) ↔ CompensationNeedsBinding d = true).

(** It runs on the state the plan was made for. *)
Definition fenced (plan : PlacementPlan) (a : Action) : Prop :=
  snapshot_revision plan ≠ 0 ∧ expected_snapshot_revision (action_contract a) = snapshot_revision plan ∧
  (action_type a = ACTION_TYPE_BIND ∨ expected_generation a ≠ 0) ∧
  (affected_allocation_ids plan = [] ∨ action_type a = ACTION_TYPE_BIND ∨ target_id a ∈ affected_allocation_ids plan).

(** The types of action a purpose admits. *)
Definition admits (p : PlanPurpose) (t : ActionType) : Prop :=
  match p with
  | PLAN_PURPOSE_ADMISSION => t = ACTION_TYPE_BIND
  | PLAN_PURPOSE_REBALANCE => t ≠ ACTION_TYPE_BIND ∧ t ≠ ACTION_TYPE_RELEASE
  | PLAN_PURPOSE_PREEMPTION => t = ACTION_TYPE_BIND ∨ t = ACTION_TYPE_RELEASE
  | PLAN_PURPOSE_RECOVERY => t = ACTION_TYPE_RESUME ∨ t = ACTION_TYPE_REBIND ∨ t = ACTION_TYPE_RECREATE
  | _ => True
  end.

(** What a plan that names its purpose guarantees. *)
Record sound_plan (plan : PlacementPlan) (as_ : list Action) : Prop := {
  sp_orders : ∀ n a, as_ !! n = Some a → order (action_contract a) = (Z.of_nat n + 1) mod two32;
  sp_compensation : (1 < length as_)%nat → rollback_policy plan = ROLLBACK_POLICY_REQUIRED_COMPENSATION;
  sp_undone : rollback_policy plan = ROLLBACK_POLICY_REQUIRED_COMPENSATION → Forall compensated as_;
  sp_types : Forall (λ a, admits (purpose plan) (action_type a)) as_;
  sp_fences : Forall (fenced plan) as_;
  sp_admission : purpose plan = PLAN_PURPOSE_ADMISSION → affected_allocation_ids plan = [];
  sp_preemption : purpose plan = PLAN_PURPOSE_PREEMPTION → as_ ≠ [] →
    affected_allocation_ids plan = sort_strings (release_targets plan) ∧
    ∃ a, a ∈ as_ ∧ action_type a = ACTION_TYPE_BIND;
}.

(** What the policy of actions takes for a legacy plan, with a release as the rollback of
    each action, the store never does: there a legacy plan has no rollbacks. *)
Lemma legacy_plans_disjoint plan : ActionPolicy.isLegacyBindOnlyPlan plan = true → SchedulerState.isLegacyBindOnlyPlan plan = false.
Proof.
  unfold ActionPolicy.isLegacyBindOnlyPlan, SchedulerState.isLegacyBindOnlyPlan. intros H. bool_props.
  destruct (actions plan) as [|a as_]; [done|]. cbn [forallb] in *. bool_props. unfold legacy_bind in *. destruct a as [a|]; [|done]. bool_props.
  apply andb_false_intro2. cbn [forallb]. apply andb_false_intro1, andb_false_intro2. by destruct (action_rollback a).
Qed.

Lemma check_policy_Ok b e : check_policy b e = Ok tt ↔ b = true.
Proof. apply guard_err_Ok. Qed.

(** Undo one check of a hypothesis. *)
Ltac step_check H :=
  let Hc := fresh "C" in apply bind_Ok in H as ([] & Hc & H); try apply check_policy_Ok in Hc.

Section Policy.
Context (unicode_lower unicode_quote : string → string).

Local Abbreviation ValidateAction := (ValidateAction unicode_quote).
Local Abbreviation ValidatePlan := (ValidatePlan unicode_lower unicode_quote).

Lemma ValidateAction_permitted a tick allow : ValidateAction a tick allow = Ok tt → permitted allow tick a.
Proof.
  unfold ActionPolicy.ValidateAction, permitted, LevelForAction. destruct (DefinitionForAction (action_type a)) as [d|]; [|done].
  intros H. step_check H. bool_props. cbn [fmap option_fmap option_map]. rewrite C. split; [done|].
  case_bool_decide as Ht.
  - rewrite Ht. destruct allow; [|done]. cbn [andb] in H. case_bool_decide; [|done]. by rewrite <-C in *.
  - step_check H. apply orb_true_iff in C0. rewrite !bool_decide_eq_true in C0.
    destruct (CeilingForTick (ac_tick_kind (action_contract a))) as [ceiling|] eqn:Hce; [|done]. step_check H.
    rewrite <-C in *. apply Z.leb_le in C1. destruct (ac_tick_kind (action_contract a)) eqn:E; try done; split; [tauto|by eexists|tauto|by eexists|tauto|by eexists].
Qed.

Lemma ValidateRollback_compensated a : ValidateRollback unicode_quote a = Ok tt → compensated a.
Proof.
  unfold ValidateRollback, compensated. destruct (DefinitionForAction (action_type a)) as [d|]; [|done].
  destruct (action_rollback a) as [r|]; [|done]. intros H. step_check H. step_check H. apply check_policy_Ok in H.
  bool_props. exists d, r. split_and!; try done; [congruence|]. apply eqb_prop in H. rewrite H. by rewrite bool_decide_eq_true.
Qed.

Lemma validatePurposeAction_admits plan p a : validatePurposeAction unicode_quote plan p a = Ok tt → admits p (action_type a).
Proof.
  unfold validatePurposeAction, admits. destruct p; try done; intros H; [| |step_check H; clear H; rename C into H|];
    try apply check_policy_Ok in H; bool_props; revert H; destruct (action_type a); set_solver.
Qed.

Lemma validateExplicitActionContract_fenced plan a d :
  validateExplicitActionContract unicode_lower unicode_quote plan a d = Ok tt → fenced plan a.
Proof.
  unfold validateExplicitActionContract, fenced. intros H. step_check H. step_check H. step_check H. bool_props. clear H.
  rewrite !orb_true_iff, !bool_decide_eq_true in C1. rewrite orb_true_iff, bool_decide_eq_true, negb_true_iff, Z.eqb_neq in C0. tauto.
Qed.

Lemma validate_actions_Ok plan p legacy tick allow index as_ :
  validate_actions unicode_lower unicode_quote plan p legacy tick allow index as_ = Ok tt →
  ∃ as', as_ = Some <$> as' ∧ Forall (λ a, validate_plan_action unicode_lower unicode_quote plan p legacy tick allow a = Ok tt) as'.
Proof.
  revert index. induction as_ as [|[a|] as_ IH]; intros index H; [by exists []| |done].
  cbn [validate_actions] in H. apply bind_Ok in H as ([] & Ha & (as' & -> & Has)%IH). exists (a :: as'). split; [done|by constructor].
Qed.

Lemma order_from_Ok index as_ :
  order_from unicode_quote index (Some <$> as_) = Ok tt →
  ∀ n a, as_ !! n = Some a → order (action_contract a) = (index + Z.of_nat n + 1) mod two32.
Proof.
  revert index. induction as_ as [|a as_ IH]; intros index H n x Hx; [done|].
  cbn [fmap list_fmap order_from] in H. step_check H. apply Z.eqb_eq in C. destruct n as [|n].
  - injection Hx as <-. rewrite C. f_equal. lia.
  - rewrite (IH _ H n x Hx). f_equal. lia.
Qed.

(** An action of a plan that is not a legacy one. *)
Lemma validate_plan_action_sound plan p tick allow a :
  validate_plan_action unicode_lower unicode_quote plan p false tick allow a = Ok tt →
  permitted allow tick a ∧ admits p (action_type a) ∧ fenced plan a ∧
  (rollback_policy plan = ROLLBACK_POLICY_REQUIRED_COMPENSATION → compensated a).
Proof.
  intros H. unfold validate_plan_action in H. step_check H. step_check H. apply bind_Ok in H as ([] & Hr & H). split_and!.
  - by apply ValidateAction_permitted.
  - by eapply validatePurposeAction_admits.
  - by eapply validateExplicitActionContract_fenced.
  - intros E. rewrite (bool_decide_true _ E) in Hr. by apply ValidateRollback_compensated.
Qed.

(** The contract of a plan with actions. *)
Lemma validatePlanContract_sound plan p :
  validatePlanContract unicode_quote plan p = Ok tt → actions plan ≠ [] →
  ((1 < length (actions plan))%nat → rollback_policy plan = ROLLBACK_POLICY_REQUIRED_COMPENSATION) ∧
  (p = PLAN_PURPOSE_ADMISSION → affected_allocation_ids plan = []) ∧
  (p = PLAN_PURPOSE_PREEMPTION → affected_allocation_ids plan = sort_strings (release_targets plan) ∧
     existsb (of_type ACTION_TYPE_BIND) (actions plan) = true).
Proof.
  intros H Hne. unfold validatePlanContract in H. rewrite (bool_decide_false _ Hne) in H.
  step_check H. step_check H. step_check H. step_check H. apply bind_Ok in H as (_ & _ & H). step_check H. step_check H. step_check H. split_and!.
  - intros Hl. apply Nat.ltb_lt in Hl. rewrite Hl in C1. cbn in C1. by bool_props.
  - intros ->. rewrite (bool_decide_true (_ = _) eq_refl) in C4. cbn [negb orb] in C4. by bool_props.
  - intros ->. rewrite bool_decide_true in H by done. unfold validatePreemptionContract in H.
    step_check H. apply bind_Ok in H as (_ & _ & H). step_check H. apply check_policy_Ok in H. bool_props. by split.
Qed.

Lemma existsb_of_type t as_ : existsb (of_type t) (Some <$> as_) = true → ∃ a, a ∈ as_ ∧ action_type a = t.
Proof.
  intros (x & Hx & Ht)%existsb_exists. apply list_elem_of_In, list_elem_of_fmap in Hx as (a & -> & Ha). exists a. cbn in Ht. by bool_props.
Qed.

(** What [ValidatePlan] establishes, purpose by purpose. *)
Lemma ValidatePlan_accepts plan tick allow :
  ValidatePlan (Some plan) tick allow = Ok tt →
  ∃ as_, actions plan = Some <$> as_ ∧ (purpose plan = PLAN_PURPOSE_UNKNOWN → isLegacyBindOnlyPlan plan = true) ∧
    Forall (permitted allow (if bool_decide (tick = TICK_KIND_UNKNOWN) then derivePlanTick plan else tick)) as_ ∧
    (purpose plan ≠ PLAN_PURPOSE_UNKNOWN → sound_plan plan as_).
Proof.
  unfold ActionPolicy.ValidatePlan. set (t := if bool_decide _ then _ else _). intros ([p legacy] & He & H)%bind_Ok. cbv beta zeta in H.
  apply bind_Ok in H as ([] & Hc & (as_ & Has & Hall)%validate_actions_Ok). exists as_. split; [done|].
  assert (Hp : (p = purpose plan ∧ legacy = false ∧ purpose plan ≠ PLAN_PURPOSE_UNKNOWN) ∨
               (purpose plan = PLAN_PURPOSE_UNKNOWN ∧ isLegacyBindOnlyPlan plan = true)).
  { unfold EffectivePurpose in He. destruct (purpose plan); try (injection He as <- <-; by left); [|done].
    destruct (isLegacyBindOnlyPlan plan); [by right|done]. }
  split; [by destruct Hp as [(_ & _ & ?)|(_ & ?)]|]. split.
  { eapply Forall_impl; [exact Hall|]. intros a Ha. unfold validate_plan_action in Ha. apply bind_Ok in Ha as ([] & Ha & _).
    by apply ValidateAction_permitted. }
  intros Hk. destruct Hp as [(-> & -> & _)|(? & _)]; [|done]. cbn [mbind Result_bind] in Hc. apply bind_Ok in Hc as ([] & Hc & Ho).
  assert (Hsound : Forall (λ a, permitted allow t a ∧ admits (purpose plan) (action_type a) ∧ fenced plan a ∧
    (rollback_policy plan = ROLLBACK_POLICY_REQUIRED_COMPENSATION → compensated a)) as_).
  { eapply Forall_impl; [exact Hall|]. intros a. apply validate_plan_action_sound. }
  assert (Hempty : as_ = [] → actions plan = []) by (intros ->; done).
  split.
  - intros n a Hn. unfold validateActionOrder in Ho. rewrite Has in Ho. by rewrite (order_from_Ok 0 as_ Ho n a Hn).
  - intros Hl. apply (validatePlanContract_sound plan _ Hc); rewrite Has; [destruct as_; cbn in Hl; [lia|done]|by rewrite length_fmap].
  - intros Hr. eapply Forall_impl; [exact Hsound|]. cbn. tauto.
  - eapply Forall_impl; [exact Hsound|]. cbn. tauto.
  - eapply Forall_impl; [exact Hsound|]. cbn. tauto.
  - intros Hadm. destruct (decide (actions plan = [])) as [E|E].
    + unfold validatePlanContract in Hc. rewrite (bool_decide_true _ E) in Hc. apply check_policy_Ok in Hc. by bool_props.
    + by apply (validatePlanContract_sound plan _ Hc).
  - intros Hpre Hne. destruct (validatePlanContract_sound plan _ Hc) as (_ & _ & Hf); [by rewrite Has; destruct as_|].
    destruct (Hf Hpre) as [Hf1 Hf2]. split; [done|]. rewrite Has in Hf2. by apply existsb_of_type.
Qed.


End Policy.
