(* ===== verification/SchedulerCore.v ===== *)
(** * The scheduling decision ([scheduler-go/scheduler])

    From a snapshot and an intent to a placement plan and the record of the decision
    ([scheduler.go], [planner.go], [decision_helpers.go], [requirements.go], [resources.go],
    [evaluation_context.go], [integration.go], [preemption_validation.go], [config.go]).
    The scheduler's one mutable part is the protection guard, which an evaluation takes and
    gives back; the readings of its clocks and the next number of its sequence are
    arguments.  Protobuf clones are values.  An error that wraps one of the evaluator or of
    the candidate engine keeps that error instead of its text. *)

From Stdlib Require Import ZArith Lia Ascii.
From S2P Require Import Prelude GoStrings GoTime GoFloat Protection SemVer Semantics ComponentRegistry Evaluator ClusterModel SchedulerState Mutation Preemption Reservation Transaction Intents Constraints Candidates CandidateEngine Policies PhaseGraph Validation ActionPolicy.
From stdpp Require Import options.

Local Open Scope Z_scope.

(** ** Messages *)

(** A rejection as the record of a decision holds it. *)
Record RecordedRejection := mkRecorded { rec_rejection : CandidateRejection; rec_evaluation : option ContractEvaluation }.

Inductive PlannerKind :=
| PLANNER_KIND_UNKNOWN | PLANNER_KIND_ADMISSION | PLANNER_KIND_FAST_MUTATION | PLANNER_KIND_MEDIUM_LIFECYCLE
| PLANNER_KIND_SLOW_RECONFIGURATION.

Inductive PlannerDisposition :=
| PLANNER_DISPOSITION_UNKNOWN | PLANNER_DISPOSITION_SELECTED | PLANNER_DISPOSITION_REJECTED | PLANNER_DISPOSITION_DEFERRED.

#[export] Instance PlannerKind_eq_dec : EqDecision PlannerKind.
Proof. solve_decision. Defined.
#[export] Instance PlannerDisposition_eq_dec : EqDecision PlannerDisposition.
Proof. solve_decision. Defined.

(** What an adaptive planner proposed, and what became of it. *)
Record PlannerEvidence := mkEvidence {
  proposal_id : string;
  planner : PlannerKind;
  pe_purpose : PlanPurpose;
  pe_action_type : ActionType;
  pe_target_id : string;
  utility_nanos : Z;
  disposition : PlannerDisposition;
  pe_reason : string;
  pe_inputs : list SemanticField;
}.

#[export] Instance eta_PlannerEvidence : Eta PlannerEvidence := λ e,
  mkEvidence (proposal_id e) (planner e) (pe_purpose e) (pe_action_type e) (pe_target_id e) (utility_nanos e) (disposition e)
    (pe_reason e) (pe_inputs e).

(** The record of a decision.  The results of its actions are the executor's, the evidence
    of planners the adaptive coordinator's: a new record has none. *)
Record DecisionRecord := mkRecord {
  decision_id : string;
  sequence : Z;
  dr_execution_id : string;
  dr_stage_id : string;
  dr_intent_version : Z;
  dr_snapshot_revision : Z;
  dr_candidates : list PlacementCandidate;
  rejected_candidates : list RecordedRejection;
  selected_plan : option PlacementPlan;
  dr_score : float64;
  fallback : bool;
  fallback_reason : string;
  dr_data_kind : DataKind;
  code_revision : string;
  decided_at : option Timestamp;
  dr_policy_version : string;
  dr_deterministic_seed : Z;
  config_revision : string;
  dr_run_id : string;
  dr_trace_id : string;
  dr_semantic_context : string;
  dr_generation : Z;
  dr_cursor : string;
  dr_job_id : string;
  dr_tick_kind : TickKind;
  evaluation_context : EvaluationContext;
  contract_evaluations : list ContractEvaluation;
  total_candidate_count : Z;
  total_rejected_candidate_count : Z;
  evidence_truncated : bool;
  action_results : list (option ActionResult);
  planner_evidence : list PlannerEvidence;
  total_planner_proposal_count : Z;
  planner_evidence_truncated : bool;
}.

#[export] Instance eta_DecisionRecord : Eta DecisionRecord := λ r,
  mkRecord (decision_id r) (sequence r) (dr_execution_id r) (dr_stage_id r) (dr_intent_version r) (dr_snapshot_revision r)
    (dr_candidates r) (rejected_candidates r) (selected_plan r) (dr_score r) (fallback r) (fallback_reason r) (dr_data_kind r)
    (code_revision r) (decided_at r) (dr_policy_version r) (dr_deterministic_seed r) (config_revision r) (dr_run_id r)
    (dr_trace_id r) (dr_semantic_context r) (dr_generation r) (dr_cursor r) (dr_job_id r) (dr_tick_kind r)
    (evaluation_context r) (contract_evaluations r) (total_candidate_count r) (total_rejected_candidate_count r)
    (evidence_truncated r) (action_results r) (planner_evidence r) (total_planner_proposal_count r)
    (planner_evidence_truncated r).

#[export] Instance eta_Binding : Eta Binding := λ b,
  mkBinding (binding_id b) (bi_pending_unit_id b) (bi_device_ids b) (bi_resources b) (bi_sandbox_id b) (bi_generation b)
    (bi_runtime_unit_id b).

#[export] Instance eta_PlacementPlan : Eta PlacementPlan := λ p,
  mkPlan (plan_id p) (pl_execution_id p) (pl_stage_id p) (pl_intent_version p) (snapshot_revision p) (bindings p) (actions p)
    (pl_created_at p) (pl_expires_at p) (pl_decision_id p) (pl_run_id p) (pl_trace_id p) (pl_data_kind p) (pl_generation p)
    (pl_cursor p) (pl_job_id p) (purpose p) (rollback_policy p) (capability_requirements p) (affected_allocation_ids p)
    (pl_carried p).

#[export] Instance eta_EvaluationContext : Eta EvaluationContext := λ c,
  mkEvaluationContext (tick_kind c) (evaluation_time c) (decision_sequence c) (cause c) (observed_revision c)
    (ctx_contract_observation c) (compatibility_defaults_applied c).

(** ** Configuration *)

Inductive FallbackMode := FallbackNoOp | FallbackStatic.

Definition FallbackMode_text (m : FallbackMode) : string := match m with FallbackNoOp => "NO_OP" | FallbackStatic => "STATIC" end.

Inductive PreemptionStrategy := PreemptionNoOp | LowPriorityFirst.

(** The configuration before its defaults; the clock and the sequence are arguments of
    each evaluation, the planners' settings belong to the adaptive coordinator. *)
Record SchedulerConfig := mkSchedulerConfig {
  cfg_Fallback : string;
  cfg_CodeRevision : string;
  cfg_ConfigRevision : string;
  cfg_DataKind : DataKind;
  cfg_SafePointAnnotation : string;
  cfg_Policy : Bundle;
  cfg_Guard : option Guard;
  cfg_Preemption : option PreemptionStrategy;
}.

Record Scheduler := mkScheduler {
  sc_fallback : FallbackMode;
  sc_codeRevision : string;
  sc_configRevision : string;
  sc_dataKind : DataKind;
  safePointKey : string;
  policyBundle : Bundle;
  sc_policy : Policy;
  sc_guard : Guard;
  sc_preemption : PreemptionStrategy;
}.

Inductive SchedulerError :=
| Invalid (e : ValidationError)
| InvalidContract (e : EvaluateError)
| InvalidCandidates (e : CandidateError).

Definition defaultCodeRevision : string := "scheduler-go/v1".
Definition defaultConfigurationRevision : string := "default".
Definition SafePointAnnotation : string := "tgsrl.io/safe-point".

Definition or_default (value def : string) : string := if bool_decide (value = "") then def else value.

Definition parse_fallback (value : string) : option FallbackMode :=
  if bool_decide (value = "NO_OP") then Some FallbackNoOp
  else if bool_decide (value = "STATIC") then Some FallbackStatic else None.

Definition default_bundle (configRevision : string) : Bundle :=
  mkBundle "default" configRevision StrategyScoreFirst 1 false "noop" true.

Definition configured_bundle (configRevision : string) (b : Bundle) : Bundle :=
  let b := if bool_decide (bu_ID b = "") then default_bundle configRevision else b in
  if bu_TopK b =? 0
  then mkBundle (bu_ID b) (bu_Version b) (bu_Strategy b) 1 (AllowPreemption b) (PreemptionPolicy b) (RequireSafePoint b) else b.

Definition disabled_guard : Guard := NewGuard (Protection.mkConfig false 0 f0 0 0 0 0).

Section Scheduler.
Context (unicode_quote unicode_quote_ascii unicode_lower : string → string).
Context (timestamp_error : Timestamp → string) (duration_error : Duration → string).
Context (sha256_hex : string → string) (contract_wire : ContractMessage → Result string string).
Context (order_of : gset string → list string).
Context (ValueString : SemanticValue → string) (digest : string → ContractEvaluation → string).

Definition New (config : SchedulerConfig) : Result ValidationError Scheduler :=
  match parse_fallback (or_default (cfg_Fallback config) "NO_OP") with
  | None => invalid "config.fallback" "must be NO_OP or STATIC"
  | Some mode =>
      let configRevision := or_default (cfg_ConfigRevision config) defaultConfigurationRevision in
      match cfg_DataKind config with
      | DATA_KIND_UNNAMED _ => invalid "config.data_kind" "unknown enum value"
      | kind =>
          let bundle := configured_bundle configRevision (cfg_Policy config) in
          p ← lift_text "config.policy" (policy_New unicode_quote bundle);
          Ok (mkScheduler mode (or_default (cfg_CodeRevision config) defaultCodeRevision) configRevision kind
                (or_default (cfg_SafePointAnnotation config) SafePointAnnotation) bundle p
                (default disabled_guard (cfg_Guard config)) (default PreemptionNoOp (cfg_Preemption config)))
      end
  end.

(** ** Identifiers *)

(** Each part is preceded by its length, so that the parts can be read back. *)
Definition framed (parts : list string) : string :=
  String.concat "" ((λ part, FormatUint (Z.of_nat (String.length part)) +:+ ":" +:+ part) <$> parts).

Definition stableID (prefix : string) (parts : list string) : string :=
  prefix +:+ "-" +:+ String.substring 0 24 (sha256_hex (framed parts)).

(** ** Plans ([planner.go]) *)

Definition runtime_unit_label (intent : IntentMessage) : string := default "" (im_labels intent !! "runtime_unit_id").

(** A binding has one device here: the engine checks it. *)
Definition first_device (b : Binding) : string := default "" (bi_device_ids b !! 0%nat).

Definition populateBindingMetadata (decisionID : string) (intent : IntentMessage) (b : Binding) : Binding :=
  let runtimeUnitID := runtime_unit_label intent in
  mkBinding (stableID "binding" [decisionID; bi_pending_unit_id b; first_device b]) (bi_pending_unit_id b) (bi_device_ids b)
    (bi_resources b) (stableID "sandbox" [decisionID; bi_pending_unit_id b])
    (if in_generation intent =? 0 then 1 else in_generation intent)
    (if bool_decide (runtimeUnitID = "") then bi_runtime_unit_id b else runtimeUnitID).

Definition makeBinding (decisionID pendingUnitID runtimeUnitID deviceID : string) (resources : option ResourceVector) : Binding :=
  mkBinding (stableID "binding" [decisionID; pendingUnitID; deviceID]) pendingUnitID [deviceID]
    (Some (default zero_resources resources)) (stableID "sandbox" [decisionID; pendingUnitID]) 1 runtimeUnitID.

Definition stableBindings : list Binding → list Binding :=
  sort_by (lex_less (λ a b, str_ltb (bi_pending_unit_id a) (bi_pending_unit_id b))
            (lex_less (λ a b, str_ltb (first_device a) (first_device b)) (λ a b, str_ltb (binding_id a) (binding_id b)))).

Definition no_capabilities : CapabilitySet := mkCapabilities [] ∅ [] [] "" 0 None [] ∅ [] [].

Definition actionCapabilities (capabilities : option CapabilitySet) (action : string) : CapabilitySet :=
  let c := default no_capabilities capabilities in
  let supported := if Candidates.containsNormalized unicode_lower (supported_actions c) action then supported_actions c
                   else supported_actions c ++ [action] in
  c <| supported_actions := sort_strings supported |>.

(** What a plan takes from its intent; no bindings and no actions yet. *)
Definition blank_plan (decisionID planID : string) (snapshot : ClusterSnapshot) (intent : IntentMessage) (created : option Timestamp)
    (p : PlanPurpose) (r : RollbackPolicy) : PlacementPlan :=
  let i := im_core intent in
  mkPlan planID (in_execution_id i) (in_stage_id i) (in_version i) (revision snapshot) [] [] created (valid_until i) decisionID
    (in_run_id i) (in_trace_id i) (in_data_kind i) (Validation.in_generation intent) (in_cursor intent) (in_job_id i) p r [] []
    (semantic_context intent).

Definition impacts_of (t : ActionType) : list ExpectedImpact := def_ExpectedImpacts (default zero_definition (DefinitionForAction t)).
Definition level_of (t : ActionType) : ActionLevel := def_Level (default zero_definition (DefinitionForAction t)).

Definition share_of (r : option ResourceVector) : float64 := from_option accelerator_units f0 r.

(** The action that binds the [order]-th binding of an admission. *)
Definition bind_action (planID : string) (snapshot : ClusterSnapshot) (intent : IntentMessage) (requiresSafePoint : bool)
    (tick : TickKind) (order : Z) (b : Binding) : Action :=
  let i := im_core intent in
  mkAction (stableID "action" [planID; binding_id b; FormatUint order]) ACTION_TYPE_BIND (bi_pending_unit_id b) (Some b)
    (share_of (bi_resources b))
    (Some (mkRollback ACTION_TYPE_RELEASE (binding_id b) None "compensate bind if plan application fails"))
    (bi_sandbox_id b) (bi_generation b)
    (stableID "action-idempotency" [in_idempotency_key i; bi_pending_unit_id b; FormatUint order])
    (mkContract ACTION_LEVEL_L1 (in_priority i) order planID (revision snapshot)
       (Some (actionCapabilities (required_capabilities i) "bind")) requiresSafePoint (valid_until i) tick
       ([ACTION_PRECONDITION_SNAPSHOT_REVISION_MATCH] ++ (if requiresSafePoint then [ACTION_PRECONDITION_SAFE_POINT_REACHED] else []))
       (impacts_of ACTION_TYPE_BIND)).

(** [uint32(index + 1)] *)
Definition order_at (index : nat) : Z := Z.of_nat (index + 1) mod two32.

Definition makePlan (decisionID planID : string) (snapshot : ClusterSnapshot) (intent : IntentMessage) (now : Z) (bs : list Binding)
    (requiresSafePoint : bool) (tick : TickKind) : PlacementPlan :=
  let bs := stableBindings bs in
  let acts := imap (λ index b, bind_action planID snapshot intent requiresSafePoint tick (order_at index) b) bs in
  let many := (1 <? length acts)%nat in
  (blank_plan decisionID planID snapshot intent (Some (timestamp_New now)) PLAN_PURPOSE_ADMISSION
    (if many then ROLLBACK_POLICY_REQUIRED_COMPENSATION else ROLLBACK_POLICY_NOT_REQUIRED))
    <| bindings := Some <$> bs |> <| actions := Some <$> acts |>
    <| capability_requirements :=
         if many then Some <$> StableCapabilityRequirements (NewCapabilityRequirement <$> multi_action_kinds) else [] |>.

(** The plan of a candidate, completed. *)
Definition populateCandidatePlanMetadata (candidateID decisionID : string) (snapshot : ClusterSnapshot) (intent : IntentMessage) (now : Z)
    (requiresSafePoint : bool) (tick : TickKind) (plan : PlacementPlan) : PlacementPlan :=
  match bindings plan with
  | [Some b] => makePlan decisionID (stableID "candidate-plan" [candidateID]) snapshot intent now [b] requiresSafePoint tick
  | _ => plan
  end.

Definition populate_candidate (decisionID : string) (snapshot : ClusterSnapshot) (intent : IntentMessage) (now : Z)
    (requiresSafePoint : bool) (tick : TickKind) (c : PlacementCandidate) : PlacementCandidate :=
  match cand_plan c with
  | None => c
  | Some plan =>
      let populated := plan <| bindings := match bindings plan with
                                           | [Some b] => [Some (populateBindingMetadata decisionID intent b)]
                                           | bs => bs
                                           end |> in
      mkCandidate (candidate_id c)
        (Some (populateCandidatePlanMetadata (candidate_id c) decisionID snapshot intent now requiresSafePoint tick populated))
        (cand_score c) (component_scores c)
  end.

(** ** Units of work ([requirements.go]) *)

Record workUnit := mkWorkUnit { wu_id : string; wu_pending : option PendingUnit }.

Definition FallbackReasonIntentExpired : string := "INTENT_EXPIRED".
Definition FallbackReasonNoCandidate : string := "NO_CANDIDATE".
Definition FallbackReasonStaleIntent : string := "STALE_INTENT".
Definition FallbackReasonSafePoint : string := "SAFE_POINT_REQUIRED".
Definition FallbackReasonRevision : string := "REVISION_MISMATCH".
Definition FallbackReasonPendingCount : string := "PENDING_UNIT_COUNT_MISMATCH".

Definition sorted_capabilities (c : option CapabilitySet) : CapabilitySet :=
  let c := default no_capabilities c in
  c <| names := sort_strings (names c) |> <| algorithms := sort_strings (algorithms c) |>
    <| rollout_modes := sort_strings (rollout_modes c) |> <| supported_actions := sort_strings (supported_actions c) |>.

Definition capabilityRequirementEqual (l r : option CapabilitySet) : bool :=
  capabilities_Equal (sorted_capabilities l) (sorted_capabilities r).

Definition same_stage (i : SchedulingIntent) (u : PendingUnit) : bool :=
  bool_decide (pu_execution_id u = in_execution_id i) && bool_decide (pu_stage_id u = in_stage_id i).

(** The least newer version, 0 for none; the greatest older one. *)
Definition newer_version (i : SchedulingIntent) (us : list PendingUnit) : Z :=
  foldl (λ newer u, if (in_version i <? pu_intent_version u) && ((newer =? 0) || (pu_intent_version u <? newer))
                    then pu_intent_version u else newer) 0 (filter (λ u, same_stage i u = true) us).

Definition older_version (i : SchedulingIntent) (us : list PendingUnit) : Z :=
  foldl (λ older u, if (pu_intent_version u <? in_version i) && (older <? pu_intent_version u)
                    then pu_intent_version u else older) 0 (filter (λ u, same_stage i u = true) us).

Definition unit_matches (i : SchedulingIntent) (u : PendingUnit) : bool :=
  same_stage i u && (pu_intent_version u =? in_version i) &&
  (bool_decide (pu_job_id u = "") || bool_decide (pu_job_id u = in_job_id i)).

Definition matching_units (i : SchedulingIntent) (us : list PendingUnit) : list PendingUnit :=
  sort_by (λ a b, str_ltb (pending_unit_id a) (pending_unit_id b)) (filter (λ u, unit_matches i u = true) us).

Definition is_committed (i : SchedulingIntent) (a : Allocation) : bool :=
  bool_decide (al_execution_id a = in_execution_id i) && bool_decide (al_stage_id a = in_stage_id i) &&
  bool_decide (al_state a ∈ [ALLOCATION_STATE_PENDING; ALLOCATION_STATE_ACTIVE]).

(** [uint32] count *)
Definition committed_count (i : SchedulingIntent) (als : list Allocation) : Z :=
  Z.of_nat (length (filter (λ a, is_committed i a = true) als)) mod two32.

Definition version_text (v : Z) : string := FormatUint v.

(** The units, or the reason and the detail of a fallback. *)
Fixpoint work_of (i : SchedulingIntent) (us : list PendingUnit) : Result (string * string) (list workUnit) :=
  match us with
  | [] => Ok []
  | u :: us =>
      let mismatch what := "pending unit " +:+ pending_unit_id u +:+ " " +:+ what +:+ " do not match intent version " +:+ version_text (in_version i) in
      _ ← guard_err (option_Equal resources_Equal (requested_resources u) (resources_per_unit i)) (FallbackReasonRevision, mismatch "resources");
      _ ← guard_err (capabilityRequirementEqual (pu_required_capabilities u) (required_capabilities i))
            (FallbackReasonRevision, mismatch "capabilities");
      rest ← work_of i us;
      Ok (mkWorkUnit (pending_unit_id u) (Some u) :: rest)
  end.

Definition fresh_unit (i : SchedulingIntent) (index : nat) : workUnit :=
  mkWorkUnit (stableID "pending" [in_execution_id i; in_stage_id i; FormatUint (in_version i); FormatUint (Z.of_nat index)]) None.

Definition workUnits (snapshot : ClusterSnapshot) (i : SchedulingIntent) : Result (string * string) (list workUnit) :=
  let newer := newer_version i (pending_units snapshot) in
  let older := older_version i (pending_units snapshot) in
  let matching := matching_units i (pending_units snapshot) in
  let committed := committed_count i (allocations snapshot) in
  let pending := Z.of_nat (length matching) in
  let remaining := (unit_count i - committed) mod two32 in
  _ ← guard_err (newer =? 0) (FallbackReasonStaleIntent,
        "pending unit version " +:+ version_text newer +:+ " is newer than intent version " +:+ version_text (in_version i));
  _ ← guard_err (older =? 0) (FallbackReasonRevision,
        "pending unit version " +:+ version_text older +:+ " is older than intent version " +:+ version_text (in_version i));
  _ ← guard_err (negb ((unit_count i <? committed) || (unit_count i <? wrap64 (committed + pending)))) (FallbackReasonPendingCount,
        "committed (" +:+ FormatUint committed +:+ ") plus pending (" +:+ FormatUint pending +:+ ") exceeds unit_count (" +:+
        FormatUint (unit_count i) +:+ ")");
  _ ← guard_err (bool_decide (matching = []) || (pending mod two32 =? remaining)) (FallbackReasonPendingCount,
        "pending count " +:+ FormatUint pending +:+ " does not equal remaining unit_count " +:+ FormatUint remaining);
  if bool_decide (matching = []) then Ok (fresh_unit i <$> seq 0 (Z.to_nat remaining)) else work_of i matching.
(** ** The evaluation context ([evaluation_context.go]) *)

(** What one evaluation reads of its surroundings: the clock, the guard's clock, and the
    number its sequence gives. *)
Record Readings := mkReadings { rd_clock : Z; rd_guard : Z; rd_sequence : Z }.

Definition empty_context : EvaluationContext := mkEvaluationContext TICK_KIND_UNKNOWN None 0 "" 0 None false.

Definition context_time_field : string := "evaluation_context.evaluation_time".

(** The time of the evaluation, and whether the clock was read. *)
Definition context_time (readings : Readings) (ctx : EvaluationContext) : Result ValidationError (Timestamp * Z * bool) :=
  match evaluation_time ctx with
  | Some t =>
      _ ← check_timestamp timestamp_error context_time_field t;
      Ok (t, AsTime (Some t), false)
  | None =>
      let now := rd_clock readings in
      _ ← check (negb (IsZero now)) "clock" "returned zero time";
      _ ← check_timestamp timestamp_error context_time_field (timestamp_New now);
      Ok (timestamp_New now, now, true)
  end.

Definition normalizeEvaluationContext (readings : Readings) (input : option EvaluationContext) :
    Result ValidationError (EvaluationContext * Z * Z) :=
  let ctx := default empty_context input in
  r ← context_time readings ctx;
  let '(time, now, clocked) := r in
  let numbered := decision_sequence ctx =? 0 in
  let sequence := if numbered then rd_sequence readings else decision_sequence ctx in
  _ ← check (negb (sequence =? 0)) "evaluation_context.decision_sequence" "must not be zero";
  let ticked := bool_decide (tick_kind ctx = TICK_KIND_UNKNOWN) in
  _ ← validateContractObservation unicode_lower timestamp_error "evaluation_context.contract_observation" (ctx_contract_observation ctx);
  Ok (mkEvaluationContext (if ticked then TICK_KIND_FAST else tick_kind ctx) (Some time) sequence (cause ctx) (observed_revision ctx)
        (ctx_contract_observation ctx)
        (compatibility_defaults_applied ctx || bool_decide (input = None) || clocked || numbered || ticked), now, sequence).

(** What the evaluator reads of a snapshot and of an intent. *)
Definition device_view (d : Device) : option DeviceView :=
  Some (mkDeviceView (dev_kind d) (from_option cap_component_versions [] (device_capabilities d))).

Definition snapshot_view (s : ClusterSnapshot) : SnapshotView := mkSnapshotView (revision s) (annotations s) (device_view <$> devices s).

Definition intent_view (i : IntentMessage) : IntentView :=
  mkIntentView (in_version (im_core i)) (in_execution_id (im_core i)) (in_stage_id (im_core i)) (im_observation i).

Definition evaluateContract (snapshot : ClusterSnapshot) (intent : IntentMessage) (ctx : EvaluationContext)
    (safePoint : SafePointResolution) : Result EvaluateError (list ContractEvaluation * AggregateResult) :=
  match im_contract intent with
  | None => Ok ([], mkAggregate false ACTION_UNKNOWN "" "")
  | Some contract =>
      Evaluator.Evaluate ValueString digest unicode_lower unicode_quote (Some (core_contract contract)) (Some (intent_view intent))
        (Some (snapshot_view snapshot)) (Some ctx) (Some safePoint)
  end.

Definition semanticsBlocking (e : ContractEvaluation) : bool :=
  match observation_disposition e with
  | OBSERVATION_DISPOSITION_BLOCK | OBSERVATION_DISPOSITION_HOLD => true
  | OBSERVATION_DISPOSITION_DEGRADE | OBSERVATION_DISPOSITION_NOT_APPLICABLE => false
  | _ =>
      match recommended_action e with
      | ACTION_UNKNOWN | ACTION_ALLOW => false
      | _ => true
      end
  end.

Definition contractRejectionReason (e : ContractEvaluation) : CandidateRejectionReason :=
  match clause_kind e with
  | CLAUSE_KIND_VERSION_CONSTRAINT => CANDIDATE_REJECTION_REASON_VERSION_CONSTRAINT
  | _ => CANDIDATE_REJECTION_REASON_VALIDITY_RULE
  end.

Definition contractRejectionDetail (e : ContractEvaluation) : string :=
  Join ((if bool_decide (clause_kind e = CLAUSE_KIND_UNKNOWN) then [] else [ClauseKind_String (clause_kind e)]) ++
        (if bool_decide (TrimSpace (clause_id e) = "") then [] else [clause_id e]) ++
        (if bool_decide (TrimSpace (Semantics.detail e) = "") then [] else [Semantics.detail e])) ": ".

Definition blocking_rejection (decisionID : string) (e : ContractEvaluation) : RecordedRejection :=
  mkRecorded (mkRejection
    (stableID "contract" [decisionID; ClauseKind_String (clause_kind e); clause_id e; Status_String (eval_status e)])
    (contractRejectionReason e) (contractRejectionDetail e)) (Some e).

Definition appendBlockingContractRejections (evals : list ContractEvaluation) (r : DecisionRecord) : DecisionRecord :=
  r <| rejected_candidates := rejected_candidates r ++
         (blocking_rejection (decision_id r) <$> filter (λ e, semanticsBlocking e = true) evals) |>.

(** The name of an action without the prefix of the enumeration. *)
Definition DecisionAction_name (a : ContractDecisionAction) : string :=
  match a with
  | ACTION_UNKNOWN => "UNKNOWN" | ACTION_ALLOW => "ALLOW" | ACTION_REJECT => "REJECT" | ACTION_PAUSE_REQUIRED => "PAUSE_REQUIRED"
  | ACTION_ABORT_REQUIRED => "ABORT_REQUIRED" | ACTION_BLOCK_PRODUCER_REQUIRED => "BLOCK_PRODUCER_REQUIRED"
  | ACTION_SHED_OLDEST_REQUIRED => "SHED_OLDEST_REQUIRED" | ACTION_SHED_NEWEST_REQUIRED => "SHED_NEWEST_REQUIRED"
  | ACTION_SCALE_OUT_REQUESTED => "SCALE_OUT_REQUESTED" | ACTION_WAIT_FOR_SAFE_POINT => "WAIT_FOR_SAFE_POINT"
  end.

Definition contractFallbackReason (a : AggregateResult) : string :=
  match Evaluator.Action a with
  | ACTION_WAIT_FOR_SAFE_POINT => FallbackReasonSafePoint
  | ACTION_UNKNOWN => "CONTRACT_BLOCKED"
  | action => "CONTRACT_" +:+ DecisionAction_name action
  end.

Definition validateActionPlan (plan : PlacementPlan) (ctx : EvaluationContext) : Result string unit :=
  match ValidatePlan unicode_lower unicode_quote (Some plan) (tick_kind ctx) (compatibility_defaults_applied ctx) with
  | Ok _ => Ok tt
  | Err e => Err (Message e)
  end.

(** ** Preemption ([integration.go], [preemption_validation.go]) *)

Definition tickForValidation (ctx : EvaluationContext) : TickKind :=
  if bool_decide (tick_kind ctx = TICK_KIND_UNKNOWN) then TICK_KIND_SLOW else tick_kind ctx.

Definition policy_text {A} (r : Result PolicyError A) : Result string A := match r with Ok a => Ok a | Err e => Err (Message e) end.

(** The actions in order: the targets released and the number of bindings. *)
Fixpoint preemption_actions (tick : TickKind) (index : nat) (as_ : list (option Action)) : Result string (list string * Z) :=
  match as_ with
  | [] => Ok ([], 0)
  | None :: _ => Err "preemption action order is invalid"
  | Some a :: as_ =>
      _ ← guard_err (order (action_contract a) =? order_at index) "preemption action order is invalid";
      _ ← guard_err (bool_decide (action_type a ∈ [ACTION_TYPE_RELEASE; ACTION_TYPE_BIND]))
            "preemption plan allows only release and bind actions";
      _ ← policy_text (ValidateAction unicode_quote a tick false);
      _ ← policy_text (ValidateRollback unicode_quote a);
      rest ← preemption_actions tick (Datatypes.S index) as_;
      Ok (if bool_decide (action_type a = ACTION_TYPE_RELEASE) then (target_id a :: rest.1, rest.2) else (rest.1, rest.2 + 1))
  end.

Fixpoint require_preemption_kinds (plan : PlacementPlan) (kinds : list CapabilityRequirementKind) : Result string unit :=
  match kinds with
  | [] => Ok tt
  | k :: kinds =>
      _ ← guard_err (containsCapabilityRequirement (capability_requirements plan) k)
            ("preemption plan omits required capability " +:+ CapabilityRequirementKind_String k);
      require_preemption_kinds plan kinds
  end.

Definition validatePreemptionPlan (plan : PlacementPlan) (ctx : EvaluationContext) : Result string unit :=
  _ ← guard_err (bool_decide (purpose plan = PLAN_PURPOSE_PREEMPTION)) "preemption validator requires preemption purpose";
  _ ← guard_err (bool_decide (rollback_policy plan = ROLLBACK_POLICY_REQUIRED_COMPENSATION)) "preemption plan must require compensation";
  _ ← require_preemption_kinds plan preemption_kinds;
  _ ← guard_err (2 <=? length (actions plan))%nat "preemption plan requires release victims and one replacement bind";
  r ← preemption_actions (tickForValidation ctx) 0 (actions plan);
  _ ← guard_err ((r.2 =? 1) && negb (bool_decide (r.1 = [])))
        "preemption plan requires one replacement bind and at least one release victim";
  guard_err (bool_decide (sort_strings r.1 = affected_allocation_ids plan)) "preemption affected allocations must match release targets".

Definition validateAuthoritativePlan (plan : PlacementPlan) (ctx : EvaluationContext) : Result string unit :=
  if bool_decide (purpose plan = PLAN_PURPOSE_PREEMPTION) then validatePreemptionPlan plan ctx else validateActionPlan plan ctx.

Definition findPendingUnit (snapshot : ClusterSnapshot) (unitID : string) (intent : IntentMessage) : PendingUnit :=
  let i := im_core intent in
  match find (λ u, bool_decide (pending_unit_id u = unitID)) (pending_units snapshot) with
  | Some u => u
  | None =>
      mkPendingUnit unitID (in_execution_id i) (in_stage_id i) (in_version i) (in_job_id i)
        (Some (default zero_resources (resources_per_unit i))) (Some (default no_capabilities (required_capabilities i))) (in_priority i)
        None 0 (in_run_id i) (in_trace_id i) (in_data_kind i) (runtime_unit_label intent)
  end.

Definition joinStrings (values : list string) : string := Join values "|".

(** [strconv.QuoteToASCII] *)
Definition QuoteToASCII : string → string := Quote unicode_quote_ascii.

Definition joinedVictimIDs (victims : list Allocation) : string := QuoteToASCII (joinStrings (sort_strings (allocation_id <$> victims))).

Definition derivedVictimSandboxID (a : Allocation) : option string :=
  if bool_decide (al_sandbox_id a = "") || bool_decide (al_binding_id a = "") || bool_decide (al_pending_unit_id a = "") ||
     bool_decide (al_runtime_unit_id a = "") then None else Some (al_sandbox_id a).

Definition restoredVictimBinding (a : Allocation) : option Binding :=
  sandboxID ← derivedVictimSandboxID a;
  Some (mkBinding (al_binding_id a) (al_pending_unit_id a) (sort_strings (al_device_ids a))
          (Some (default zero_resources (al_resources a))) sandboxID (al_generation a) (al_runtime_unit_id a)).

(** The candidate engine places the unit on the device once the victims are gone. *)
Definition preemptionTargetFits (snapshot : ClusterSnapshot) (intent : IntentMessage) (decisionID : string) (pending : PendingUnit)
    (deviceID : string) (victims : list Allocation) : bool :=
  match CandidateEngine.Evaluate unicode_quote unicode_lower stableID
          (mkRequest (Some snapshot) (Some (im_core intent)) (mkDecision decisionID false false)
             (mkAdjustment (allocation_id <$> victims) [deviceID] []) [mkUnit (pending_unit_id pending) (Some pending)] None None None
             (CandidateEngine.mkConfig 1 1)) with
  | Ok result => match re_Selected result with [o] => bool_decide (op_DeviceID o = deviceID) | _ => false end
  | Err _ => false
  end.

(** An action of a preemption: the release of a victim or the binding that replaces it. *)
Definition preemption_action (planID : string) (snapshot : ClusterSnapshot) (intent : IntentMessage) (tick : TickKind) (safePoint : bool)
    (order : Z) (t : ActionType) (word target key : string) (b : Binding) (priority : Z) (rb : Rollback) (affected : bool) : Action :=
  let i := im_core intent in
  mkAction (stableID "preemption-action" [planID; word; key; FormatUint order]) t target (Some b) (share_of (bi_resources b)) (Some rb)
    (bi_sandbox_id b) (bi_generation b)
    (stableID "preemption-idempotency" [in_idempotency_key i; target; word; FormatUint order])
    (mkContract (level_of t) priority order planID (revision snapshot) (Some (actionCapabilities (required_capabilities i) word)) safePoint
       (valid_until i) tick (RequiredPreconditions t safePoint affected) (impacts_of t)).

Definition release_action (planID : string) (snapshot : ClusterSnapshot) (intent : IntentMessage) (tick : TickKind) (safePoint : bool)
    (order : Z) (a : Allocation) (b : Binding) : Action :=
  preemption_action planID snapshot intent tick safePoint order ACTION_TYPE_RELEASE "release" (allocation_id a) (allocation_id a) b
    (default 0 (al_priority a))
    (mkRollback ACTION_TYPE_BIND (bi_sandbox_id b) (Some b) "restore released victim if replacement cannot commit") true.

Definition replacement_action (planID : string) (snapshot : ClusterSnapshot) (intent : IntentMessage) (tick : TickKind) (safePoint : bool)
    (order : Z) (b : Binding) : Action :=
  preemption_action planID snapshot intent tick safePoint order ACTION_TYPE_BIND "bind" (bi_pending_unit_id b) (binding_id b) b
    (in_priority (im_core intent))
    (mkRollback ACTION_TYPE_RELEASE (binding_id b) None "compensate replacement bind if preemption sequence fails") false.

Definition buildPreemptionPlan (snapshot : ClusterSnapshot) (intent : IntentMessage) (now : Z) (decisionID : string) (tick : TickKind)
    (pending : PendingUnit) (selected : list Allocation) (replacementDeviceID : string) (safePoint : bool) : option PlacementPlan :=
  let planID := stableID "preemption-plan" [decisionID; snapshot_id snapshot; replacementDeviceID; joinedVictimIDs selected] in
  let replacement := populateBindingMetadata decisionID intent
    (makeBinding decisionID (pending_unit_id pending) (pu_runtime_unit_id pending) replacementDeviceID (requested_resources pending)) in
  restored ← mapM restoredVictimBinding selected;
  let releases := imap (λ index p, release_action planID snapshot intent tick safePoint (order_at index) p.1 p.2) (zip selected restored) in
  Some ((blank_plan decisionID planID snapshot intent (Some (timestamp_New now)) PLAN_PURPOSE_PREEMPTION ROLLBACK_POLICY_REQUIRED_COMPENSATION)
    <| bindings := [Some replacement] |>
    <| actions := Some <$> releases ++ [replacement_action planID snapshot intent tick safePoint (order_at (length releases)) replacement] |>
    <| affected_allocation_ids := sort_strings (allocation_id <$> selected) |>
    <| capability_requirements := Some <$> StableCapabilityRequirements (NewCapabilityRequirement <$> preemption_kinds) |>).

(** The victims of one device are gathered until the unit fits there. *)
Fixpoint pick_victims (snapshot : ClusterSnapshot) (intent : IntentMessage) (now : Z) (decisionID : string) (tick : TickKind)
    (pending : PendingUnit) (safePoint : bool) (selectedByDevice : gmap string (list Allocation)) (seen : gset string)
    (inexpressible : bool) (victims : list Victim) : Result string PlacementPlan :=
  match victims with
  | [] => Err (if inexpressible then FallbackNotExpressible else FallbackInsufficient)
  | v :: victims =>
      match CanRelease snapshot v safePoint, victim_Allocation v with
      | None, Some a =>
          if bool_decide (allocation_id a ∈ seen) then
            pick_victims snapshot intent now decisionID tick pending safePoint selectedByDevice seen inexpressible victims
          else
          let deviceID := default "" (al_device_ids a !! 0%nat) in
          let selected := default [] (selectedByDevice !! deviceID) ++ [a] in
          if preemptionTargetFits snapshot intent decisionID pending deviceID selected then
            from_option Ok (Err FallbackNotExpressible)
              (buildPreemptionPlan snapshot intent now decisionID tick pending selected deviceID safePoint)
          else pick_victims snapshot intent now decisionID tick pending safePoint (<[deviceID := selected]> selectedByDevice)
                 ({[allocation_id a]} ∪ seen) inexpressible victims
      | Some reason, _ =>
          if bool_decide (reason = FallbackUnsafe) then Err reason
          else pick_victims snapshot intent now decisionID tick pending safePoint selectedByDevice seen true victims
      | None, None => pick_victims snapshot intent now decisionID tick pending safePoint selectedByDevice seen true victims
      end
  end.

(** A plan, or the reason why there is none ("" when preemption is off). *)
Definition preemptionPlan (s : Scheduler) (snapshot : ClusterSnapshot) (intent : IntentMessage) (now : Z) (decisionID : string)
    (tick : TickKind) (unit : workUnit) (safePoint : bool) : Result string PlacementPlan :=
  if negb (AllowPreemption (policyBundle s)) then Err "" else
  match sc_preemption s with
  | PreemptionNoOp => Err FallbackDisabled
  | LowPriorityFirst =>
      let pending := findPendingUnit snapshot (wu_id unit) intent in
      let victims := Pick (Some snapshot) (Some pending) in
      if bool_decide (victims = []) then Err FallbackInsufficient else
      if RequireSafePoint (policyBundle s) && negb safePoint then Err FallbackUnsafe else
      pick_victims snapshot intent now decisionID tick pending safePoint ∅ ∅ false victims
  end.
(** ** The decision ([scheduler.go], [decision_helpers.go]) *)

(** The active allocations of the intent, as bindings. *)
Definition staticBindings (decisionID : string) (snapshot : ClusterSnapshot) (i : SchedulingIntent) : list Binding :=
  let held a := bool_decide (al_state a = ALLOCATION_STATE_ACTIVE) && bool_decide (al_execution_id a = in_execution_id i) &&
                bool_decide (al_stage_id a = in_stage_id i) && (al_intent_version a =? in_version i) in
  (λ a, mkBinding (stableID "static-binding" [decisionID; allocation_id a]) (al_pending_unit_id a) (sort_strings (al_device_ids a))
          (Some (default zero_resources (al_resources a))) "" 0 "") <$>
  filter (λ a, held a = true) (sort_by (λ a b, str_ltb (allocation_id a) (allocation_id b)) (allocations snapshot)).

Definition rejection_order : RecordedRejection → RecordedRejection → bool :=
  lex_less (λ a b, str_ltb (rejection_id (rec_rejection a)) (rejection_id (rec_rejection b)))
    (lex_less (λ a b, reason_number (rejection_reason (rec_rejection a)) <? reason_number (rejection_reason (rec_rejection b)))
      (λ a b, str_ltb (rejection_detail (rec_rejection a)) (rejection_detail (rec_rejection b)))).

Definition sortDecisionSurface (r : DecisionRecord) : DecisionRecord :=
  r <| rejected_candidates := sort_by rejection_order (rejected_candidates r) |>.

Definition expired (intent : IntentMessage) (now : Z) : bool := AsTime (valid_until (im_core intent)) <=? now.

(** The plan of a fallback describes what is held and has no action. *)
Definition fallback_plan (s : Scheduler) (snapshot : ClusterSnapshot) (intent : IntentMessage) (now : Z) (decisionID : string)
    (tick : TickKind) (reason : string) : PlacementPlan :=
  let planID := stableID "fallback-plan" [decisionID; FallbackMode_text (sc_fallback s); reason] in
  let bs := match sc_fallback s with FallbackStatic => staticBindings decisionID snapshot (im_core intent) | FallbackNoOp => [] end in
  let plan := (makePlan decisionID planID snapshot intent now bs false tick) <| actions := [] |> in
  if expired intent now then plan <| pl_expires_at := Some (timestamp_New now) |> else plan.

Definition fallbackResult (s : Scheduler) (snapshot : ClusterSnapshot) (intent : IntentMessage) (now : Z) (r : DecisionRecord)
    (reason : string) : PlacementPlan * DecisionRecord :=
  let plan := fallback_plan s snapshot intent now (decision_id r) (dr_tick_kind r) reason in
  let r := r <| fallback := true |> <| fallback_reason := reason |> <| dr_score := f0 |> in
  let r := if (total_candidate_count r =? 0) && (total_rejected_candidate_count r =? 0)
           then r <| total_candidate_count := Z.of_nat (length (dr_candidates r)) |>
                  <| total_rejected_candidate_count := Z.of_nat (length (rejected_candidates r)) |> else r in
  (plan, sortDecisionSurface (r <| selected_plan := Some plan |>)).

(** The candidates selected have a score each; their mean, rounded. *)
Definition recordCandidateScore (selected : list CandidateEngine.Option) : float64 :=
  if bool_decide (selected = []) then f0
  else roundScore (fdiv (foldl fadd f0 ((λ o, cand_score (op_Candidate o)) <$> selected)) (f_of_Z (Z.of_nat (length selected)))).

Definition resolveDataKind (s : Scheduler) (snapshot : ClusterSnapshot) (intent : IntentMessage) : DataKind :=
  if negb (bool_decide (sc_dataKind s = DATA_KIND_UNKNOWN)) then sc_dataKind s else
  let value := default "" (im_labels intent !! "data_kind") in
  let value := if bool_decide (value = "") then default "" (annotations snapshot !! "data_kind") else value in
  let kind := ToLower unicode_lower (replace_byte "-"%char "_"%char (TrimSpace value)) in
  if bool_decide (kind = "synthetic") then DATA_KIND_SYNTHETIC
  else if bool_decide (kind = "replay") then DATA_KIND_REPLAY
  else if bool_decide (kind = "live") then DATA_KIND_LIVE else DATA_KIND_UNKNOWN.

Definition initial_record (s : Scheduler) (snapshot : ClusterSnapshot) (intent : IntentMessage) (ctx : EvaluationContext) (now sequence : Z)
    (decisionID : string) : DecisionRecord :=
  let i := im_core intent in
  mkRecord decisionID sequence (in_execution_id i) (in_stage_id i) (in_version i) (revision snapshot) [] [] None f0 false ""
    (resolveDataKind s snapshot intent) (sc_codeRevision s) (Some (timestamp_New now)) (Intents.policy_version i) (deterministic_seed intent)
    (sc_configRevision s) (in_run_id i) (in_trace_id i) (semantic_context intent) (Validation.in_generation intent) (in_cursor intent)
    (in_job_id i) (tick_kind ctx) ctx [] 0 0 false [] [] 0 false.

Definition contractRequiresSafePoint (c : option ContractMessage) : bool :=
  from_option cp_require_safe_point false (c ≫= commit_policy).

Definition makeConvergedPlan (decisionID : string) (snapshot : ClusterSnapshot) (intent : IntentMessage) (ctx : EvaluationContext) :
    PlacementPlan :=
  blank_plan decisionID (stableID "converged-plan" [decisionID; snapshot_id snapshot; FormatUint (revision snapshot)]) snapshot intent
    (evaluation_time ctx) PLAN_PURPOSE_RECONCILIATION ROLLBACK_POLICY_NOT_REQUIRED.

Definition single_rejection (id : string) (reason : CandidateRejectionReason) (detail : string) : list RecordedRejection :=
  [mkRecorded (mkRejection id reason detail) None].

(** What every branch of an evaluation shares. *)
Record Evaluation := mkEvaluation {
  ev_snapshot : ClusterSnapshot;
  ev_intent : IntentMessage;
  ev_context : EvaluationContext;
  ev_now : Z;
  ev_decision : string;
  ev_safe_point : bool;
}.

Definition Outcome : Type := PlacementPlan * DecisionRecord * Guard.

(** A fallback with the guard as it is. *)
Definition fall_back (s : Scheduler) (e : Evaluation) (r : DecisionRecord) (reason : string) : Outcome :=
  (fallbackResult s (ev_snapshot e) (ev_intent e) (ev_now e) r reason, sc_guard s).

Definition guard_key (intent : IntentMessage) : string :=
  in_execution_id (im_core intent) +:+ "/" +:+ in_stage_id (im_core intent).

Definition Reason_text (r : Protection.Reason) : string :=
  match r with
  | EMPTY_KEY => "EMPTY_KEY" | EMPTY_ACTION_SET => "EMPTY_ACTION_SET" | CIRCUIT_OPEN => "CIRCUIT_OPEN" | COOLDOWN => "COOLDOWN"
  | HYSTERESIS => "HYSTERESIS" | BUDGET_EXHAUSTED => "BUDGET_EXHAUSTED"
  end.

(** The guard is asked before a plan is given out. *)
Definition guarded (s : Scheduler) (readings : Readings) (e : Evaluation) (r : DecisionRecord) (score : float64) (plan : PlacementPlan)
    (granted : DecisionRecord) : Outcome :=
  match CheckN (sc_guard s) (rd_guard readings) (guard_key (ev_intent e)) score (Z.of_nat (length (actions plan))) with
  | Denied reason => fall_back s e r ("PROTECTION_" +:+ Reason_text reason)
  | Allowed => (plan, granted, sc_guard s)
  end.

Definition engine_request (s : Scheduler) (e : Evaluation) (units : list workUnit) : Request :=
  let snapshot := ev_snapshot e in
  let i := im_core (ev_intent e) in
  mkRequest (Some snapshot) (Some i)
    (mkDecision (ev_decision e) (contractRequiresSafePoint (im_contract (ev_intent e))) (ev_safe_point e)) (mkAdjustment [] [] [])
    ((λ u, mkUnit (wu_id u) (wu_pending u)) <$> units)
    (if bool_decide (policy_Name (sc_policy s) = "score_first") then None else Some (selectCandidate (sc_policy s) snapshot))
    (Some (λ unitID deviceID, stableID "candidate" [unitID; deviceID; FormatUint (revision snapshot); FormatUint (in_version i)]))
    None (CandidateEngine.mkConfig (bu_TopK (policyBundle s)) DefaultEvidenceBudget).

(** The record with what the engine found. *)
Definition record_candidates (e : Evaluation) (r : DecisionRecord) (result : EngineResult) : DecisionRecord :=
  r <| dr_candidates := populate_candidate (ev_decision e) (ev_snapshot e) (ev_intent e) (ev_now e)
                          (contractRequiresSafePoint (im_contract (ev_intent e))) (dr_tick_kind r) <$> re_Candidates result |>
    <| rejected_candidates := rejected_candidates r ++ ((λ x, mkRecorded x None) <$> re_Rejections result) |>
    <| total_candidate_count := TotalCandidateCount result |>
    <| total_rejected_candidate_count := wrap64 (total_rejected_candidate_count r + TotalRejectionCount result) |>
    <| evidence_truncated := EvidenceTruncated result |>.

(** Why nothing was placed; the guard counts the rejection. *)
Definition rejected_outcome (s : Scheduler) (readings : Readings) (e : Evaluation) (r : DecisionRecord) (result : EngineResult) : Outcome :=
  let reason :=
    if bool_decide (re_Fallback result = "") || bool_decide (re_Fallback result = "NO_CANDIDATE") then
      if contractRequiresSafePoint (im_contract (ev_intent e)) && negb (ev_safe_point e) then FallbackReasonSafePoint
      else FallbackReasonNoCandidate
    else "POLICY_" +:+ re_Fallback result in
  (fallbackResult s (ev_snapshot e) (ev_intent e) (ev_now e) r reason, Reject (sc_guard s) (rd_guard readings) (guard_key (ev_intent e))).

(** Not every unit was placed: one unit alone may preempt. *)
Definition unplaced_outcome (s : Scheduler) (readings : Readings) (e : Evaluation) (r : DecisionRecord) (units : list workUnit)
    (result : EngineResult) : Outcome :=
  match re_Selected result, units with
  | [], [unit] =>
      match preemptionPlan s (ev_snapshot e) (ev_intent e) (ev_now e) (decision_id r) (dr_tick_kind r) unit (ev_safe_point e) with
      | Ok plan =>
          match validateAuthoritativePlan plan (ev_context e) with
          | Err text => fall_back s e r ("ACTION_POLICY_" +:+ text)
          | Ok _ => guarded s readings e r f0 plan (r <| selected_plan := Some plan |>)
          end
      | Err reason => if bool_decide (reason = "") then rejected_outcome s readings e r result else fall_back s e r reason
      end
  | _, _ => rejected_outcome s readings e r result
  end.

Definition selected_bindings (e : Evaluation) (result : EngineResult) : list Binding :=
  populateBindingMetadata (ev_decision e) (ev_intent e) <$>
  omap id ((λ o : CandidateEngine.Option, default None (head (candidate_bindings (op_Candidate o)))) <$> re_Selected result).

(** Every unit was placed: the admission. *)
Definition placed_outcome (s : Scheduler) (readings : Readings) (e : Evaluation) (r : DecisionRecord) (result : EngineResult) : Outcome :=
  let i := im_core (ev_intent e) in
  let planID := stableID "plan" [ev_decision e; snapshot_id (ev_snapshot e); FormatUint (revision (ev_snapshot e)); in_idempotency_key i] in
  let plan := makePlan (ev_decision e) planID (ev_snapshot e) (ev_intent e) (ev_now e) (selected_bindings e result)
                (contractRequiresSafePoint (im_contract (ev_intent e))) (dr_tick_kind r) in
  match validateActionPlan plan (ev_context e) with
  | Err text => fall_back s e r ("ACTION_POLICY_" +:+ text)
  | Ok _ =>
      let score := recordCandidateScore (re_Selected result) in
      guarded s readings e r score plan (r <| selected_plan := Some plan |> <| dr_score := score |>)
  end.

(** From the units of work on. *)
Definition place_units (s : Scheduler) (readings : Readings) (e : Evaluation) (r : DecisionRecord) (units : list workUnit) :
    Result SchedulerError Outcome :=
  match CandidateEngine.Evaluate unicode_quote unicode_lower stableID (engine_request s e units) with
  | Err err => Err (InvalidCandidates err)
  | Ok result =>
      let r := record_candidates e r result in
      Ok (if bool_decide (length (re_Selected result) = length units) then placed_outcome s readings e r result
          else unplaced_outcome s readings e r units result)
  end.

(** From the contract's evaluation on. *)
Definition decide_on (s : Scheduler) (readings : Readings) (e : Evaluation) (r : DecisionRecord) (evals : list ContractEvaluation)
    (aggregate : AggregateResult) : Result SchedulerError Outcome :=
  let i := im_core (ev_intent e) in
  if expired (ev_intent e) (ev_now e) then
    Ok (fall_back s e (r <| rejected_candidates :=
          single_rejection (stableID "expired" [in_execution_id i; in_stage_id i; FormatUint (in_version i)])
            CANDIDATE_REJECTION_REASON_EXPIRED "intent valid_until is not after evaluation time" |>) FallbackReasonIntentExpired)
  else if Blocking aggregate then
    Ok (fall_back s e (appendBlockingContractRejections evals r) (contractFallbackReason aggregate))
  else
  match workUnits (ev_snapshot e) i with
  | Err (reason, detail) =>
      Ok (fall_back s e (r <| rejected_candidates :=
            single_rejection (stableID "pending-version" [in_execution_id i; in_stage_id i])
              CANDIDATE_REJECTION_REASON_VERSION_CONSTRAINT detail |>) reason)
  | Ok [] =>
      let plan := makeConvergedPlan (ev_decision e) (ev_snapshot e) (ev_intent e) (ev_context e) in
      Ok (plan, r <| selected_plan := Some plan |>, sc_guard s)
  | Ok units =>
      match sc_policy s with
      | NoOp | Static => Ok (fall_back s e r ("POLICY_" +:+ (Choose (sc_policy s) (Some (ev_snapshot e)) (mkSelectionInput "" [] 0)).2))
      | _ => place_units s readings e r units
      end
  end.

Definition lift_invalid {A} (r : Result ValidationError A) : Result SchedulerError A :=
  match r with Ok a => Ok a | Err e => Err (Invalid e) end.

Definition EvaluateWithContext (s : Scheduler) (readings : Readings) (snapshot : option ClusterSnapshot) (intent : option IntentMessage)
    (evaluationContext : option EvaluationContext) : Result SchedulerError Outcome :=
  match snapshot, intent with
  | None, _ => Err (Invalid (mkInvalid "snapshot" "must not be nil"))
  | _, None => Err (Invalid (mkInvalid "intent" "must not be nil"))
  | Some snapshot, Some intent =>
      n ← lift_invalid (normalizeEvaluationContext readings evaluationContext);
      let '(ctx, now, sequence) := n in
      _ ← lift_invalid (validateSnapshot unicode_lower timestamp_error snapshot);
      _ ← lift_invalid (validateIntent unicode_lower timestamp_error duration_error sha256_hex contract_wire order_of intent);
      let i := im_core intent in
      let decisionID := stableID "decision" [snapshot_id snapshot; FormatUint (revision snapshot); in_execution_id i; in_stage_id i;
                                             FormatUint (in_version i); FormatUint sequence] in
      let r := initial_record s snapshot intent ctx now sequence decisionID in
      let resolution := ResolveSafePoint (Some (snapshot_view snapshot)) (Some (intent_view intent)) (Some ctx) (safePointKey s) in
      match evaluateContract snapshot intent ctx resolution with
      | Err err => Err (InvalidContract err)
      | Ok (evals, aggregate) =>
          let e := mkEvaluation snapshot intent ctx now decisionID (sp_present resolution && sp_value resolution) in
          decide_on s readings e (r <| contract_evaluations := evals |>) evals aggregate
      end
  end.

(** Without a context of its own. *)
Definition Evaluate (s : Scheduler) (readings : Readings) (snapshot : option ClusterSnapshot) (intent : option IntentMessage) :
    Result SchedulerError Outcome := EvaluateWithContext s readings snapshot intent None.

End Scheduler.
