(* ===== verification/AdaptiveModel.v ===== *)
(** * The data of adaptive planning ([scheduler-go/scheduler/adaptive_types.go])

    What the adaptive planners read, the directives and the signals they are given, the
    proposals they make and the budget the arbitration keeps.  A value with a [Present]
    flag is an [option]: the flag is tested before every use.  Snapshot, intent and context
    are there: [Coordinator.Plan] refuses an input without one.  Sandboxes and decisions
    that are nil are skipped wherever they are read, so the lists have none.  Clones are
    values. *)

From Stdlib Require Import ZArith Lia Ascii.
From S2P Require Import Prelude GoStrings GoTime GoFloat Protection Semantics Evaluator ClusterModel SchedulerState Mutation Preemption Reservation Transaction Intents Projection PhaseGraph Validation ActionPolicy SchedulerCore.
From stdpp Require Import options.

Local Open Scope Z_scope.

(** ** Defaults *)

Definition DefaultPlannerEvidenceBudget : Z := 256.
Definition DefaultPlannerActionBudget : Z := 1.
Definition DefaultPlannerIdleSleepAfter : Z := 5 * Minute.
Definition DefaultPlannerIdleOffloadAfter : Z := 30 * Minute.
Definition DefaultPlannerFastSandboxMaximumAge : Z := 5 * Second.
Definition DefaultPlannerMediumSandboxMaximumAge : Z := 30 * Second.
Definition DefaultPlannerSlowSandboxMaximumAge : Z := 2 * Minute.
Definition DefaultPlannerSandboxMaximumAge : Z := DefaultPlannerSlowSandboxMaximumAge.
Definition DefaultPlannerSandboxFutureSkew : Z := Second.
(** 0.10, 0.02 and 0.50, the nearest doubles. *)
Definition DefaultPlannerShareStep : float64 := f_ratio 1 10.
Definition DefaultPlannerShareHysteresis : float64 := f_ratio 1 50.
Definition DefaultPlannerPolicyLagLimit : Z := 2.
Definition DefaultPlannerESSRatioFloor : float64 := f_ratio 1 2.
Definition DefaultPlannerObservationWindow : Z := 5 * Second.

(** ** Signals and directives *)

(** A [uint8]: an ordered class of pressure. *)
Definition BufferPressureUnknown : Z := 0.
Definition BufferPressureLow : Z := 1.
Definition BufferPressureNormal : Z := 2.
Definition BufferPressureHigh : Z := 3.
Definition BufferPressureCritical : Z := 4.

Definition BufferPressure_String (p : Z) : string :=
  if p =? BufferPressureLow then "LOW" else if p =? BufferPressureNormal then "NORMAL"
  else if p =? BufferPressureHigh then "HIGH" else if p =? BufferPressureCritical then "CRITICAL" else "UNKNOWN".

Record PlanningSignals := mkSignals {
  sg_BufferPressure : option Z;
  sg_BufferLevel : option Z;
  sg_PolicyLag : option Z;
  sg_SampleStaleness : option bool;
  sg_ESSRatio : option float64;
  sg_CheckpointCapable : option bool;
  sg_BufferBelowWatermark : option bool;
  sg_RecoveryCostNanos : option Z;
  sg_RecoveryCostNanosByTarget : gmap string Z;
  sg_MinimumResidency : option Z;
  sg_ActionInFlight : option bool;
  sg_PerTickActionBudget : option Z;
}.

#[export] Instance eta_PlanningSignals : Eta PlanningSignals := λ s,
  mkSignals (sg_BufferPressure s) (sg_BufferLevel s) (sg_PolicyLag s) (sg_SampleStaleness s) (sg_ESSRatio s) (sg_CheckpointCapable s)
    (sg_BufferBelowWatermark s) (sg_RecoveryCostNanos s) (sg_RecoveryCostNanosByTarget s) (sg_MinimumResidency s)
    (sg_ActionInFlight s) (sg_PerTickActionBudget s).

Record Directives := mkDirectives {
  TargetShare : option float64;
  TargetPriority : option Z;
  TargetResources : option ResourceVector;
  ResizeResources : gmap string ResourceVector;
  ReplacementBindings : gmap string Binding;
  SandboxByAllocation : gmap string string;
  TargetSandboxIDs : list string;
  DesiredState : RuntimeState;
  AllowPause : bool;
  AllowResume : bool;
  AllowSleep : bool;
  AllowOffload : bool;
  SleepAfter : Z;
  OffloadAfter : Z;
  AllowResize : bool;
  AllowScaleIn : bool;
  AllowRebind : bool;
  AllowRecreate : bool;
  MinimumUtilityNanos : Z;
}.

#[export] Instance eta_Directives : Eta Directives := λ d,
  mkDirectives (TargetShare d) (TargetPriority d) (TargetResources d) (ResizeResources d) (ReplacementBindings d)
    (SandboxByAllocation d) (TargetSandboxIDs d) (DesiredState d) (AllowPause d) (AllowResume d) (AllowSleep d) (AllowOffload d)
    (SleepAfter d) (OffloadAfter d) (AllowResize d) (AllowScaleIn d) (AllowRebind d) (AllowRecreate d) (MinimumUtilityNanos d).

Definition no_directives : Directives :=
  mkDirectives None None None ∅ ∅ ∅ [] RUNTIME_STATE_UNKNOWN false false false false 0 0 false false false false 0.

(** Clones are values; the one thing a clone changes is the order of the filter. *)
Definition cloneDirectives (d : Directives) : Directives := d <| TargetSandboxIDs := sort_strings (TargetSandboxIDs d) |>.

Record DirectionalTarget := mkDirectional {
  dt_CurrentValue : float64;
  dt_TargetValue : float64;
  dt_Delta : float64;
  dt_Reason : string;
  ExpectedBenefitNanos : Z;
  dt_RecoveryCostNanos : Z;
  ObservationWindow : Z;
}.

#[export] Instance eta_DirectionalTarget : Eta DirectionalTarget := λ d,
  mkDirectional (dt_CurrentValue d) (dt_TargetValue d) (dt_Delta d) (dt_Reason d) (ExpectedBenefitNanos d) (dt_RecoveryCostNanos d)
    (ObservationWindow d).

(** ** The input of planning *)

(** A sandbox with the fields of its semantic context: the typed ones, then the payload's. *)
Record ObservedSandbox := mkObserved { os_sandbox : Sandbox; os_fields : list (option SemanticField) }.

Record PlanningInput := mkPlanning {
  pi_Snapshot : ClusterSnapshot;
  pi_Intent : IntentMessage;
  pi_Context : EvaluationContext;
  pi_Sandboxes : list ObservedSandbox;
  pi_RecentDecisions : list DecisionRecord;
  pi_SafePoint : SafePointResolution;
  ContractAggregate : AggregateResult;
  pi_Directives : Directives;
  pi_Signals : PlanningSignals;
  sandboxMaximumAge : Z;
  sandboxFutureSkew : Z;
  AdmissionPlan : option PlacementPlan;
  pi_DecisionID : string;
}.

#[export] Instance eta_PlanningInput : Eta PlanningInput := λ i,
  mkPlanning (pi_Snapshot i) (pi_Intent i) (pi_Context i) (pi_Sandboxes i) (pi_RecentDecisions i) (pi_SafePoint i)
    (ContractAggregate i) (pi_Directives i) (pi_Signals i) (sandboxMaximumAge i) (sandboxFutureSkew i) (AdmissionPlan i)
    (pi_DecisionID i).

Definition clonePlanningInput (i : PlanningInput) : PlanningInput := i <| pi_Directives := cloneDirectives (pi_Directives i) |>.

(** What every planner reads of the intent. *)
Definition core (i : PlanningInput) : SchedulingIntent := im_core (pi_Intent i).
Definition tick (i : PlanningInput) : TickKind := tick_kind (pi_Context i).

(** The safe point is resolved and reached. *)
Definition at_safe_point (i : PlanningInput) : bool := sp_present (pi_SafePoint i) && sp_value (pi_SafePoint i).

(** ** Proposals and results *)

(** Every planner attaches evidence to what it proposes. *)
Record PlannerProposal := mkProposal { pp_Plan : option PlacementPlan; pp_Evidence : PlannerEvidence }.

#[export] Instance eta_PlannerProposal : Eta PlannerProposal := λ p, mkProposal (pp_Plan p) (pp_Evidence p).

Record PlannerResult := mkPlannerResult {
  res_Plan : option PlacementPlan;
  res_Evidence : list PlannerEvidence;
  TotalProposalCount : Z;
  res_EvidenceTruncated : bool;
  res_FallbackReason : string;
}.

(** ** Budgets and utilities *)

Record PlannerBudgetConfig := mkBudget {
  MaxActions : Z;
  MaxAffectedSandboxes : Z;
  MaxGPUReconfigurations : Z;
  MaxRecoveryCostNanos : Z;
  DisableL4 : bool;
}.

#[export] Instance eta_PlannerBudgetConfig : Eta PlannerBudgetConfig := λ b,
  mkBudget (MaxActions b) (MaxAffectedSandboxes b) (MaxGPUReconfigurations b) (MaxRecoveryCostNanos b) (DisableL4 b).

Definition normalizePlannerBudget (value : PlannerBudgetConfig) (maxActions : Z) : PlannerBudgetConfig :=
  let maxActions := if maxActions <=? 0 then DefaultPlannerActionBudget else maxActions in
  mkBudget (if (MaxActions value <=? 0) || (maxActions <? MaxActions value) then maxActions else MaxActions value)
    (if MaxAffectedSandboxes value <=? 0 then maxActions else MaxAffectedSandboxes value)
    (if MaxGPUReconfigurations value <=? 0 then 1 else MaxGPUReconfigurations value)
    (if MaxRecoveryCostNanos value <=? 0 then max_int64 else MaxRecoveryCostNanos value)
    (DisableL4 value).

Record PlannerUtilityConfig := mkUtility {
  ut_Bind : Z;
  ut_SetShare : Z;
  ut_SetPriority : Z;
  ut_Resize : Z;
  ut_Release : Z;
  ut_Pause : Z;
  ut_Resume : Z;
  ut_Sleep : Z;
  ut_Offload : Z;
  ut_Rebind : Z;
  ut_Recreate : Z;
  FastSignalStep : Z;
  SlowBenefit : Z;
  SlowRisk : Z;
}.

#[export] Instance PlannerUtilityConfig_eq_dec : EqDecision PlannerUtilityConfig.
Proof. solve_decision. Defined.

#[export] Instance eta_PlannerUtilityConfig : Eta PlannerUtilityConfig := λ u,
  mkUtility (ut_Bind u) (ut_SetShare u) (ut_SetPriority u) (ut_Resize u) (ut_Release u) (ut_Pause u) (ut_Resume u) (ut_Sleep u)
    (ut_Offload u) (ut_Rebind u) (ut_Recreate u) (FastSignalStep u) (SlowBenefit u) (SlowRisk u).

Definition zero_utility : PlannerUtilityConfig := mkUtility 0 0 0 0 0 0 0 0 0 0 0 0 0 0.

Definition DefaultPlannerUtilityConfig : PlannerUtilityConfig :=
  mkUtility 1000000000 900000000 850000000 800000000 780000000 700000000 950000000 650000000 620000000 550000000 500000000
    25000000 1000000000 100000000.

Definition normalizePlannerUtilityConfig (value : PlannerUtilityConfig) : PlannerUtilityConfig :=
  let or_else v d := if v =? 0 then d else v in
  if bool_decide (value = zero_utility) then DefaultPlannerUtilityConfig
  else value <| FastSignalStep := or_else (FastSignalStep value) (FastSignalStep DefaultPlannerUtilityConfig) |>
             <| SlowBenefit := or_else (SlowBenefit value) (SlowBenefit DefaultPlannerUtilityConfig) |>
             <| SlowRisk := or_else (SlowRisk value) (SlowRisk DefaultPlannerUtilityConfig) |>.

(** ** Saturating [int64] arithmetic ([adaptive_planners.go]) *)

Definition saturatingUtilityAdd (left right : Z) : Z :=
  if (0 <? right) && (swrap64 (max_int64 - right) <? left) then max_int64
  else if (right <? 0) && (left <? swrap64 (min_int64 - right)) then min_int64
  else swrap64 (left + right).

Definition saturatingSubtract (left right : Z) : Z :=
  if right =? min_int64 then if 0 <=? left then max_int64 else swrap64 (left - right)
  else saturatingUtilityAdd left (swrap64 (- right)).
