(* ===== verification/AdaptiveSignals.v ===== *)
(** * Planning signals ([scheduler-go/scheduler/adaptive_signals.go])

    The signals a planner reads: what the caller gave, and for what is missing the
    observation of the contract, typed facts, the sandboxes' semantic fields and the recent
    decisions.  Case mapping and quoting of text that is not ASCII are parameters.  A Go map
    is iterated where its keys cannot interfere: the aliases of the facts are disjoint, and
    the errors of the map of costs do not name a key. *)

From Stdlib Require Import ZArith Lia Ascii.
From S2P Require Import Prelude GoStrings GoTime GoFloat Semantics Evaluator ClusterModel Intents Projection Validation SchedulerCore AdaptiveModel.
From stdpp Require Import options.

Local Open Scope Z_scope.

Definition factBufferPressure : string := "planner.buffer_pressure".
Definition factCheckpointCapable : string := "planner.checkpoint_capable".
Definition factBufferBelowWatermark : string := "planner.buffer_below_watermark".
Definition factRecoveryCostNanos : string := "planner.recovery_cost_nanos".
Definition factMinimumResidencyNano : string := "planner.minimum_residency_nanos".
Definition factActionInFlight : string := "planner.action_in_flight".
Definition factPerTickActionBudget : string := "planner.per_tick_action_budget".

Definition adaptiveFactAliases : list (string * list string) :=
  [(factBufferPressure, [factBufferPressure; "buffer.pressure"]);
   (factCheckpointCapable, [factCheckpointCapable; "checkpoint.capable"; "runtime.checkpoint_capable"]);
   (factBufferBelowWatermark, [factBufferBelowWatermark; "buffer.below_watermark"]);
   (factRecoveryCostNanos, [factRecoveryCostNanos; "recovery.cost_nanos"]);
   (factMinimumResidencyNano, [factMinimumResidencyNano; "runtime.minimum_residency_nanos"]);
   (factActionInFlight, [factActionInFlight; "action.in_flight"]);
   (factPerTickActionBudget, [factPerTickActionBudget; "planner.action_budget"])].

Definition canonicalAdaptiveFact (key : string) : option string :=
  fst <$> find (λ entry, bool_decide (key ∈ entry.2)) adaptiveFactAliases.

(** ** Reading values *)

Definition as_string (v : SemanticValue) : option string := match v with StringValue s => Some s | _ => None end.
Definition as_bool (v : SemanticValue) : option bool := match v with BoolValue b => Some b | _ => None end.
Definition as_uint (v : SemanticValue) : option Z := match v with Uint64Value z => Some z | _ => None end.
Definition as_double (v : SemanticValue) : option float64 := match v with DoubleValue f => Some f | _ => None end.

Definition semanticInt64 (v : SemanticValue) : option Z :=
  match v with
  | Int64Value z => Some z
  | Uint64Value z => if z <=? max_int64 then Some z else None
  | _ => None
  end.

Definition factString (facts : gmap string SemanticValue) (key : string) : option string := (facts !! key) ≫= as_string.
Definition factBool (facts : gmap string SemanticValue) (key : string) : option bool := (facts !! key) ≫= as_bool.
Definition factUint64 (facts : gmap string SemanticValue) (key : string) : option Z := (facts !! key) ≫= as_uint.
Definition factInt64 (facts : gmap string SemanticValue) (key : string) : option Z := (facts !! key) ≫= semanticInt64.

(** The value of a field with this key. *)
Definition valued (key : string) (f : option SemanticField) : option SemanticValue :=
  match f with
  | Some f => if bool_decide (field_key f = key) then field_value f else None
  | None => None
  end.

Definition observationSemanticValues (observation : option ContractObservation) (key : string) : list SemanticValue :=
  match observation with
  | None => []
  | Some o => omap (valued key) (typed_facts o) ++ omap (λ f, f ≫= λ f, valued key (fact f)) (fact_observations o)
  end.

(** All the values have one type and agree. *)
Fixpoint agreed {A} (read : SemanticValue → option A) (same : A → A → bool) (result : option A) (values : list SemanticValue) : option A :=
  match values with
  | [] => result
  | v :: values =>
      a ← read v;
      if from_option (λ r, same r a) true result then agreed read same (Some a) values else None
  end.

Definition genericFactUint64 (o : option ContractObservation) (key : string) : option Z :=
  agreed as_uint Z.eqb None (observationSemanticValues o key).
Definition genericFactBool (o : option ContractObservation) (key : string) : option bool :=
  agreed as_bool Bool.eqb None (observationSemanticValues o key).
Definition genericFactFloat64 (o : option ContractObservation) (key : string) : option float64 :=
  agreed as_double feqb None (observationSemanticValues o key).

(** What is given wins over what is derived. *)
Definition or_given {A} (given derived : option A) : option A := match given with Some a => Some a | None => derived end.

Definition bufferPressureForLevel (level : Z) (policy : BackpressurePolicy) : Z :=
  if level <=? low_watermark policy then BufferPressureLow
  else if (0 <? maximum_buffer_level policy) && (maximum_buffer_level policy <? level) then BufferPressureCritical
  else if high_watermark policy <=? level then BufferPressureHigh else BufferPressureNormal.

(** The latest decision with actions decides: it is in flight while a result is missing. *)
Definition unfinished (r : option ActionResult) : bool :=
  match r with None => true | Some r => bool_decide (ar_status r = ACTION_RESULT_STATUS_UNKNOWN) end.

Definition has_actions (d : DecisionRecord) : bool := from_option (λ p, negb (bool_decide (length (actions p) = 0%nat))) false (selected_plan d).

Definition recentActionInFlight (decisions : list DecisionRecord) : option bool :=
  (λ d, bool_decide (length (action_results d) = 0%nat) || existsb unfinished (action_results d)) <$>
  find has_actions (sort_by (λ a b, sequence b <? sequence a) decisions).

Section Signals.
Context (unicode_upper unicode_quote : string → string).

Definition parseBufferPressure (value : string) : option Z :=
  let v := ToUpper unicode_upper (TrimSpace value) in
  if bool_decide (v = "LOW") then Some BufferPressureLow else if bool_decide (v = "NORMAL") then Some BufferPressureNormal
  else if bool_decide (v = "HIGH") then Some BufferPressureHigh else if bool_decide (v = "CRITICAL") then Some BufferPressureCritical
  else None.

(** ** Collecting facts *)

Definition recovery_fact (f : option SemanticField) : bool :=
  bool_decide (canonicalAdaptiveFact (from_option field_key "" f) = Some factRecoveryCostNanos).

Fixpoint collect_fields (facts : gmap string SemanticValue) (fields : list (option SemanticField)) :
    Result string (gmap string SemanticValue) :=
  match fields with
  | [] => Ok facts
  | f :: fields =>
      match f ≫= field_value, canonicalAdaptiveFact (from_option field_key "" f) with
      | Some v, Some canonical =>
          _ ← guard_err (from_option (λ existing, Equal existing v) true (facts !! canonical))
                ("typed fact " +:+ Quote unicode_quote canonical +:+ " conflicts across sources");
          collect_fields (<[canonical := v]> facts) fields
      | _, _ => collect_fields facts fields
      end
  end.

(** The cost of recovering a sandbox is its own: it is no fact of the whole. *)
Definition collectAdaptiveFacts (sandboxes : list ObservedSandbox) (observation : option ContractObservation) :
    Result string (gmap string SemanticValue) :=
  let observed := from_option (λ o, typed_facts o ++ (fact <$> omap id (fact_observations o))) [] observation in
  collect_fields ∅ (observed ++ concat ((λ s, filter (λ f, recovery_fact f = false) (os_fields s)) <$> sandboxes)).

Fixpoint sandbox_costs (id : string) (costs : gmap string Z) (fields : list (option SemanticField)) : Result string (gmap string Z) :=
  match fields with
  | [] => Ok costs
  | f :: fields =>
      if recovery_fact f then
        match (f ≫= field_value) ≫= semanticInt64 with
        | Some cost =>
            _ ← guard_err (0 <=? cost) (factRecoveryCostNanos +:+ " for sandbox " +:+ Quote unicode_quote id +:+ " must be a non-negative integer");
            _ ← guard_err (from_option (λ previous, previous =? cost) true (costs !! id))
                  (factRecoveryCostNanos +:+ " conflicts for sandbox " +:+ Quote unicode_quote id);
            sandbox_costs id (<[id := cost]> costs) fields
        | None => Err (factRecoveryCostNanos +:+ " for sandbox " +:+ Quote unicode_quote id +:+ " must be a non-negative integer")
        end
      else sandbox_costs id costs fields
  end.

Fixpoint target_costs (costs : gmap string Z) (sandboxes : list ObservedSandbox) : Result string (gmap string Z) :=
  match sandboxes with
  | [] => Ok costs
  | s :: sandboxes =>
      let id := sandbox_id (os_sandbox s) in
      if bool_decide (TrimSpace id = "") then target_costs costs sandboxes
      else costs ← sandbox_costs id costs (os_fields s); target_costs costs sandboxes
  end.

Definition collectTargetRecoveryCosts : list ObservedSandbox → Result string (gmap string Z) := target_costs ∅.

(** ** Filling in *)

(** From the fields of the observation. *)
Definition ess_of (o : ContractObservation) : option float64 :=
  match effective_sample_size_ratio o with
  | Some r => Some r
  | None =>
      size ← effective_sample_size o;
      count ← sample_count o;
      if 0 <? count then Some (fdiv size (f_of_Z count)) else None
  end.

Definition observed_signals (observation : option ContractObservation) (s : PlanningSignals) : PlanningSignals :=
  match observation with
  | None => s
  | Some o =>
      s <| sg_BufferLevel := or_given (sg_BufferLevel s) (buffer_level o) |>
        <| sg_PolicyLag := or_given (sg_PolicyLag s) (policy_lag o) |>
        <| sg_SampleStaleness := or_given (sg_SampleStaleness s) (sample_stale o) |>
        <| sg_ESSRatio := or_given (sg_ESSRatio s) (ess_of o) |>
  end.

(** A cost every target shares: there is one target. *)
Definition only_cost (costs : gmap string Z) : option Z :=
  match map_to_list costs with [(_, cost)] => Some cost | _ => None end.

Definition pressure_fact (facts : gmap string SemanticValue) : Result string (option Z) :=
  match factString facts factBufferPressure with
  | None => Ok None
  | Some text =>
      match parseBufferPressure text with
      | Some p => Ok (Some p)
      | None => Err (factBufferPressure +:+ " must be LOW, NORMAL, HIGH, or CRITICAL")
      end
  end.

(** A signal that is given is kept; [derive] is not even looked at. *)
Definition given_or {A} (given : option A) (derive : Result string (option A)) : Result string (option A) :=
  match given with Some a => Ok (Some a) | None => derive end.

(** From the facts and the recent decisions. *)
Definition fact_signals (facts : gmap string SemanticValue) (observation : option ContractObservation) (recent : list DecisionRecord)
    (defaultActionBudget : Z) (s : PlanningSignals) : Result string PlanningSignals :=
  pressure ← given_or (sg_BufferPressure s) (pressure_fact facts);
  residency ← given_or (sg_MinimumResidency s)
    (match factInt64 facts factMinimumResidencyNano with
     | Some v => if v <? 0 then Err (factMinimumResidencyNano +:+ " must be non-negative") else Ok (Some v)
     | None => Ok None
     end);
  budget ← given_or (sg_PerTickActionBudget s)
    (match factUint64 facts factPerTickActionBudget with
     | Some v => if max_int64 <? v then Err (factPerTickActionBudget +:+ " exceeds int capacity") else Ok (Some v)
     | None => Ok (Some defaultActionBudget)
     end);
  Ok (s <| sg_BufferPressure := pressure |>
        <| sg_BufferLevel := or_given (sg_BufferLevel s) (genericFactUint64 observation "buffer.level.current") |>
        <| sg_PolicyLag := or_given (sg_PolicyLag s) (genericFactUint64 observation "sample.policy_lag") |>
        <| sg_SampleStaleness := or_given (sg_SampleStaleness s) (genericFactBool observation "sample.stale") |>
        <| sg_ESSRatio := or_given (sg_ESSRatio s) (genericFactFloat64 observation "batch.effective_sample_size_ratio") |>
        <| sg_CheckpointCapable := or_given (sg_CheckpointCapable s) (factBool facts factCheckpointCapable) |>
        <| sg_BufferBelowWatermark := or_given (sg_BufferBelowWatermark s) (factBool facts factBufferBelowWatermark) |>
        <| sg_RecoveryCostNanos := or_given (sg_RecoveryCostNanos s) (factInt64 facts factRecoveryCostNanos) |>
        <| sg_MinimumResidency := residency |>
        <| sg_ActionInFlight := or_given (sg_ActionInFlight s) (or_given (factBool facts factActionInFlight) (recentActionInFlight recent)) |>
        <| sg_PerTickActionBudget := budget |>).

(** From the contract: the watermarks give a pressure to a level; that a checkpoint can be
    restored says so, that it cannot says nothing. *)
Definition contract_signals (contract : option ContractMessage) (s : PlanningSignals) : PlanningSignals :=
  let policy := contract ≫= cm_backpressure_policy in
  let from_level {A} (f : Z → BackpressurePolicy → A) : option A := level ← sg_BufferLevel s; p ← policy; Some (f level p) in
  let capable := from_option checkpoint_restore false (contract ≫= contract_capabilities) in
  s <| sg_BufferBelowWatermark := or_given (sg_BufferBelowWatermark s) (from_level (λ level p, level <=? low_watermark p)) |>
    <| sg_BufferPressure := or_given (sg_BufferPressure s) (from_level bufferPressureForLevel) |>
    <| sg_CheckpointCapable := or_given (sg_CheckpointCapable s) (if capable then Some true else None) |>.

Definition check_signals (s : PlanningSignals) : Result string unit :=
  _ ← guard_err (from_option (λ p, p <=? BufferPressureCritical) true (sg_BufferPressure s)) "buffer pressure is invalid";
  _ ← guard_err (from_option (λ r, negb (IsNaN r || IsInf r || fltb r f0)) true (sg_ESSRatio s)) "ESS ratio must be finite and non-negative";
  _ ← guard_err (from_option (λ c, 0 <=? c) true (sg_RecoveryCostNanos s)) "recovery cost must be non-negative";
  _ ← guard_err (forallb (λ kv, negb (bool_decide (TrimSpace kv.1 = "")) && (0 <=? kv.2)) (map_to_list (sg_RecoveryCostNanosByTarget s)))
        "target recovery costs require non-empty targets and non-negative values";
  _ ← guard_err (from_option (λ r, 0 <=? r) true (sg_MinimumResidency s)) "minimum residency must be non-negative";
  guard_err (from_option (λ b, 1 <=? b) false (sg_PerTickActionBudget s)) "per-tick action budget must be positive".

Definition observation_of (i : PlanningInput) : option ContractObservation :=
  or_given (ctx_contract_observation (pi_Context i)) (im_observation (pi_Intent i)).

Definition normalizePlanningSignals (i : PlanningInput) (defaultActionBudget : Z) : Result string PlanningInput :=
  let observation := observation_of i in
  let s := observed_signals observation (pi_Signals i) in
  facts ← collectAdaptiveFacts (pi_Sandboxes i) observation;
  costs ← collectTargetRecoveryCosts (pi_Sandboxes i);
  let by_target := sg_RecoveryCostNanosByTarget s ∪ costs in
  let s := s <| sg_RecoveryCostNanosByTarget := by_target |>
             <| sg_RecoveryCostNanos := or_given (sg_RecoveryCostNanos s) (only_cost by_target) |> in
  s ← fact_signals facts observation (pi_RecentDecisions i) defaultActionBudget s;
  let s := contract_signals (im_contract (pi_Intent i)) s in
  _ ← check_signals s;
  Ok (i <| pi_Signals := s |>).

End Signals.

(** ** Evidence *)

Definition semanticStringField (key value : string) : SemanticField := mkField key (semanticString value).
Definition semanticIntField (key : string) (value : Z) : SemanticField := mkField key (semanticInt value).
Definition semanticUintField (key : string) (value : Z) : SemanticField := mkField key (semanticUint value).
Definition semanticBoolField (key : string) (value : bool) : SemanticField := mkField key (semanticBool value).
Definition semanticDoubleField (key : string) (value : float64) : SemanticField := mkField key (semanticDouble value).

Definition is_given {A} (o : option A) : bool := bool_decide (is_Some o).
Definition given_field {A} (field : A → SemanticField) (o : option A) : list SemanticField := from_option (λ a, [field a]) [] o.

Definition planningSignalEvidence (s : PlanningSignals) : list SemanticField :=
  [semanticBoolField "planner.signal.buffer_pressure_present" (is_given (sg_BufferPressure s));
   semanticBoolField "planner.signal.buffer_level_present" (is_given (sg_BufferLevel s));
   semanticBoolField "planner.signal.policy_lag_present" (is_given (sg_PolicyLag s));
   semanticBoolField "planner.signal.sample_staleness_present" (is_given (sg_SampleStaleness s));
   semanticBoolField "planner.signal.ess_ratio_present" (is_given (sg_ESSRatio s));
   semanticBoolField "planner.signal.checkpoint_capable_present" (is_given (sg_CheckpointCapable s));
   semanticBoolField "planner.signal.buffer_below_watermark_present" (is_given (sg_BufferBelowWatermark s));
   semanticBoolField "planner.signal.recovery_cost_present" (is_given (sg_RecoveryCostNanos s));
   semanticBoolField "planner.signal.minimum_residency_present" (is_given (sg_MinimumResidency s));
   semanticBoolField "planner.signal.action_in_flight_present" (is_given (sg_ActionInFlight s));
   semanticUintField "planner.per_tick_action_budget" (wrap64 (default 0 (sg_PerTickActionBudget s)))] ++
  given_field (λ p, semanticStringField "planner.signal.buffer_pressure" (BufferPressure_String p)) (sg_BufferPressure s) ++
  given_field (semanticUintField "planner.signal.buffer_level") (sg_BufferLevel s) ++
  given_field (semanticUintField "planner.signal.policy_lag") (sg_PolicyLag s) ++
  given_field (semanticBoolField "planner.signal.sample_staleness") (sg_SampleStaleness s) ++
  given_field (semanticDoubleField "planner.signal.ess_ratio") (sg_ESSRatio s) ++
  given_field (semanticBoolField "planner.signal.checkpoint_capable") (sg_CheckpointCapable s) ++
  given_field (semanticBoolField "planner.signal.buffer_below_watermark") (sg_BufferBelowWatermark s) ++
  given_field (semanticIntField "planner.signal.recovery_cost_nanos") (sg_RecoveryCostNanos s) ++
  given_field (semanticIntField "planner.signal.minimum_residency_nanos") (sg_MinimumResidency s) ++
  given_field (semanticBoolField "planner.signal.action_in_flight") (sg_ActionInFlight s).
