(* ===== verification/AdaptiveTargets.v ===== *)
(** * Targets and actions of adaptive planning ([scheduler-go/scheduler/adaptive_action_builder.go], [adaptive_targets.go])

    Which allocations a planner may act on, the share a controller steers towards, the
    evidence of a proposal and the plan of an action.  SHA-256, the deterministic encoding
    of a binding and of a list of fields, the shortest text of a double and Unicode case
    mapping are parameters. *)

From Stdlib Require Import ZArith Lia Ascii.
From S2P Require Import Prelude GoStrings GoTime GoFloat Semantics Evaluator ClusterModel SchedulerState Mutation Preemption Reservation Transaction Intents Candidates Projection PhaseGraph Validation ActionPolicy SchedulerCore AdaptiveModel AdaptiveSignals.
From stdpp Require Import options.

Local Open Scope Z_scope.

#[export] Instance eta_ActionContract : Eta ActionContract := λ c,
  mkContract (level c) (ac_priority c) (order c) (ac_plan_id c) (expected_snapshot_revision c) (ac_required_capabilities c)
    (requires_safe_point c) (deadline c) (ac_tick_kind c) (preconditions c) (expected_impacts c).

#[export] Instance eta_Action : Eta Action := λ a,
  mkAction (action_id a) (action_type a) (target_id a) (action_binding a) (share a) (action_rollback a) (ac_sandbox_id a)
    (expected_generation a) (idempotency_key a) (action_contract a).

(** An action given its place in a plan. *)
Definition at_place (planID : string) (number : Z) (a : Action) : Action :=
  a <| action_contract := (action_contract a) <| order := number |> <| ac_plan_id := planID |> |>.

(** ** Names and numbers of the schema *)

Definition PlannerKind_String (k : PlannerKind) : string :=
  match k with
  | PLANNER_KIND_UNKNOWN => "PLANNER_KIND_UNKNOWN" | PLANNER_KIND_ADMISSION => "PLANNER_KIND_ADMISSION"
  | PLANNER_KIND_FAST_MUTATION => "PLANNER_KIND_FAST_MUTATION" | PLANNER_KIND_MEDIUM_LIFECYCLE => "PLANNER_KIND_MEDIUM_LIFECYCLE"
  | PLANNER_KIND_SLOW_RECONFIGURATION => "PLANNER_KIND_SLOW_RECONFIGURATION"
  end.

Definition ActionType_number (t : ActionType) : Z :=
  match t with
  | ACTION_TYPE_UNKNOWN => 0 | ACTION_TYPE_SET_SHARE => 1 | ACTION_TYPE_SET_PRIORITY => 2 | ACTION_TYPE_PAUSE => 3
  | ACTION_TYPE_RESUME => 4 | ACTION_TYPE_SLEEP => 5 | ACTION_TYPE_OFFLOAD => 6 | ACTION_TYPE_REBIND => 7
  | ACTION_TYPE_RECREATE => 8 | ACTION_TYPE_BIND => 9 | ACTION_TYPE_RELEASE => 10 | ACTION_TYPE_RESIZE => 11
  | ACTION_TYPE_UNNAMED n => n
  end.

Definition TickKind_number (t : TickKind) : Z :=
  match t with
  | TICK_KIND_UNKNOWN => 0 | TICK_KIND_FAST => 1 | TICK_KIND_MEDIUM => 2 | TICK_KIND_SLOW => 3 | TICK_KIND_UNNAMED n => n
  end.

(** ** Matching sandboxes to allocations *)

Record adaptiveTarget := mkTarget { tg_allocation : Allocation; tg_sandbox : Sandbox }.

(** The active allocations of the intent's stage and version. *)
Definition active_for (i : PlanningInput) (a : Allocation) : bool :=
  bool_decide (al_state a = ALLOCATION_STATE_ACTIVE) && bool_decide (al_execution_id a = in_execution_id (core i)) &&
  bool_decide (al_stage_id a = in_stage_id (core i)) && (al_intent_version a =? in_version (core i)).

Definition active_allocations (i : PlanningInput) : list Allocation :=
  filter (λ a, active_for i a = true) (allocations (pi_Snapshot i)).

Definition activeAllocationCount (i : PlanningInput) : Z := Z.of_nat (length (active_allocations i)).

Definition sandboxMatchesAllocation (s : Sandbox) (a : Allocation) : bool :=
  match sb_binding s with
  | None => false
  | Some b =>
      (sb_generation s =? al_generation a) &&
      negb (bool_decide (al_pending_unit_id a = "")) && bool_decide (bi_pending_unit_id b = al_pending_unit_id a) &&
      (bool_decide (al_runtime_unit_id a = "") || bool_decide (bi_runtime_unit_id b = al_runtime_unit_id a)) &&
      bool_decide (sort_strings (bi_device_ids b) = sort_strings (al_device_ids a))
  end.

Definition uniquelyMatchingSandbox (a : Allocation) (sandboxes : list Sandbox) : option Sandbox :=
  match filter (λ s, sandboxMatchesAllocation s a = true) sandboxes with [s] => Some s | _ => None end.

(** The sandbox with this identity, unless several have it. *)
Definition sandbox_by_id (sandboxes : list Sandbox) (id : string) : option Sandbox :=
  match filter (λ s, sandbox_id s = id) sandboxes with [s] => Some s | _ => None end.

Definition effectiveSandboxLastConfirmedAt (s : Sandbox) : option Timestamp := or_given (last_confirmed_at s) (sb_observed_at s).
Definition effectiveSandboxStateChangedAt (s : Sandbox) : option Timestamp := or_given (state_changed_at s) (sb_observed_at s).

Definition defaultSandboxMaximumAge (t : TickKind) : Z :=
  match t with
  | TICK_KIND_FAST => DefaultPlannerFastSandboxMaximumAge
  | TICK_KIND_MEDIUM => DefaultPlannerMediumSandboxMaximumAge
  | TICK_KIND_SLOW => DefaultPlannerSlowSandboxMaximumAge
  | _ => DefaultPlannerSandboxMaximumAge
  end.

Definition positive_or (value def : Z) : Z := if value <=? 0 then def else value.

(** Why an observation cannot be relied on; "" when it can. *)
Definition sandboxFreshnessReason (i : PlanningInput) (s : Sandbox) : string :=
  match effectiveSandboxLastConfirmedAt s with
  | None => "MISSING_SANDBOX_CONFIRMATION_TIME"
  | Some confirmedAt =>
      if negb (Timestamp_valid confirmedAt) then "MISSING_SANDBOX_CONFIRMATION_TIME" else
      match evaluation_time (pi_Context i) with
      | None => "MISSING_EVALUATION_TIME"
      | Some time =>
          let age := time_Sub (AsTime (Some time)) (AsTime (Some confirmedAt)) in
          if age <? - positive_or (sandboxFutureSkew i) DefaultPlannerSandboxFutureSkew then "SANDBOX_OBSERVATION_FROM_FUTURE"
          else if positive_or (sandboxMaximumAge i) (defaultSandboxMaximumAge (tick i)) <? Z.max 0 age then "STALE_SANDBOX_OBSERVATION"
          else ""
      end
  end.

(** What an allocation turns out to be: no sandbox of it is observed, its observation is
    stale, the filter leaves it out, or it is a target. *)
Inductive Matched := NotObserved | Stale (reason : string) | Excluded | Target (t : adaptiveTarget).

Definition match_target (i : PlanningInput) (enforceFreshness : bool) (a : Allocation) : Matched :=
  let sandboxes := os_sandbox <$> pi_Sandboxes i in
  let sandboxID := default "" (SandboxByAllocation (pi_Directives i) !! allocation_id a) in
  let wanted := TargetSandboxIDs (pi_Directives i) in
  match (if bool_decide (sandboxID = "") then uniquelyMatchingSandbox a sandboxes else sandbox_by_id sandboxes sandboxID) with
  | None => NotObserved
  | Some s =>
      if (sb_generation s =? 0) || negb (sandboxMatchesAllocation s a) then NotObserved
      else if enforceFreshness && negb (bool_decide (sandboxFreshnessReason i s = "")) then Stale (sandboxFreshnessReason i s)
      else if negb (bool_decide (wanted = [])) && negb (bool_decide (sandbox_id s ∈ wanted)) then Excluded
      else Target (mkTarget a s)
  end.

Definition target_of (m : Allocation * Matched) : option adaptiveTarget := match m.2 with Target t => Some t | _ => None end.
Definition missing_of (m : Allocation * Matched) : option string := match m.2 with NotObserved => Some (allocation_id m.1) | _ => None end.
Definition stale_of (m : Allocation * Matched) : option (string * string) :=
  match m.2 with Stale reason => Some (allocation_id m.1, reason) | _ => None end.

(** The targets in the order of their allocations, what is missing, and what is stale. *)
Definition adaptiveTargets (i : PlanningInput) (enforceFreshness : bool) :
    list adaptiveTarget * list string * gmap string string :=
  let sorted := sort_by (λ a b, str_ltb (allocation_id a) (allocation_id b)) (active_allocations i) in
  let matches := (λ a, (a, match_target i enforceFreshness a)) <$> sorted in
  let targets := omap target_of matches in
  let unmatched := filter (λ id, id ∉ (λ t, sandbox_id (tg_sandbox t)) <$> targets) (TargetSandboxIDs (pi_Directives i)) in
  (targets, sort_strings (omap missing_of matches ++ unmatched), list_to_map (omap stale_of matches)).

Definition activeAdaptiveTargets (i : PlanningInput) : list adaptiveTarget := (adaptiveTargets i false).1.1.
Definition activeAdaptiveTargetsWithFreshness (i : PlanningInput) : list adaptiveTarget * list string * gmap string string :=
  adaptiveTargets i true.

(** ** Directional control ([adaptive_targets.go]) *)

Definition producerPhase (k : PhaseKind) : bool :=
  match k with PHASE_KIND_PREFILL | PHASE_KIND_DECODE | PHASE_KIND_TOOL_WAIT | PHASE_KIND_KV_RESTORE => true | _ => false end.
Definition consumerPhase (k : PhaseKind) : bool :=
  match k with PHASE_KIND_ACTOR | PHASE_KIND_OPTIMIZER => true | _ => false end.

Definition clampShare (value : float64) : float64 := fmax f0 (fmin f1 value).

(** What the signals say, each an absent signal saying no. *)
Definition low_ess (s : PlanningSignals) : bool := from_option (λ r, fltb r DefaultPlannerESSRatioFloor) false (sg_ESSRatio s).
Definition stale_samples (s : PlanningSignals) : bool := default false (sg_SampleStaleness s).
Definition lagging (s : PlanningSignals) : bool := from_option (λ l, DefaultPlannerPolicyLagLimit <? l) false (sg_PolicyLag s).
Definition under_pressure (s : PlanningSignals) : bool := from_option (λ p, BufferPressureHigh <=? p) false (sg_BufferPressure s).
Definition headroom (s : PlanningSignals) : bool :=
  from_option (λ p, p =? BufferPressureLow) false (sg_BufferPressure s) && negb (stale_samples s) &&
  from_option (λ l, l =? 0) true (sg_PolicyLag s).

(** The direction of the share and its reason. *)
Definition share_direction (i : PlanningInput) : option (Z * string) :=
  let s := pi_Signals i in
  let producer := producerPhase (im_phase_kind (pi_Intent i)) in
  if negb producer && negb (consumerPhase (im_phase_kind (pi_Intent i))) then None
  else if producer && low_ess s then Some (-1, "LOW_ESS_REDUCE_PRODUCTION")
  else if producer && stale_samples s then Some (-1, "SAMPLE_STALENESS_REDUCE_PRODUCTION")
  else if lagging s then Some (if producer then (-1, "POLICY_LAG_REDUCE_PRODUCTION") else (1, "POLICY_LAG_INCREASE_CONSUMPTION"))
  else if under_pressure s then
    Some (if producer then (-1, "BUFFER_PRESSURE_REDUCE_PRODUCTION") else (1, "BUFFER_PRESSURE_INCREASE_CONSUMPTION"))
  else if producer && headroom s then Some (1, "BUFFER_HEADROOM_INCREASE_PRODUCTION")
  else None.

Definition directionalShareSignalPresent (i : PlanningInput) : bool :=
  let s := pi_Signals i in
  let producer := producerPhase (im_phase_kind (pi_Intent i)) in
  if negb producer && negb (consumerPhase (im_phase_kind (pi_Intent i))) then false
  else producer && low_ess s || producer && stale_samples s || lagging s || under_pressure s || producer && headroom s.

Definition directional_field (f : SemanticField) : bool :=
  bool_decide (field_key f = "planner.directional.reason") && bool_decide (is_Some (field_value f ≫= as_string)).

Definition directional_evidence (targetID : string) (e : PlannerEvidence) : bool :=
  bool_decide (disposition e = PLANNER_DISPOSITION_SELECTED) && bool_decide (pe_action_type e = ACTION_TYPE_SET_SHARE) &&
  (bool_decide (targetID = "") || bool_decide (pe_target_id e = targetID)) && existsb directional_field (pe_inputs e).

Definition recent_decision (now : Z) (d : DecisionRecord) : bool :=
  match decided_at d with
  | Some t =>
      let age := time_Sub now (AsTime (Some t)) in
      Timestamp_valid t && (0 <=? age) && (age <? DefaultPlannerObservationWindow)
  | None => false
  end.

(** No share of the target was steered within the window. *)
Definition directionalObservationWindowElapsed (i : PlanningInput) (targetID : string) : bool :=
  match evaluation_time (pi_Context i) with
  | None => false
  | Some t =>
      negb (existsb (λ d, recent_decision (AsTime (Some t)) d && existsb (directional_evidence targetID) (planner_evidence d))
              (pi_RecentDecisions i))
  end.

Definition generateDirectionalShareTarget (i : PlanningInput) (current : float64) (targetID : string) : option DirectionalTarget :=
  if IsNaN current || IsInf current then None else
  match share_direction i with
  | None => None
  | Some (direction, why) =>
      let target := clampShare (fadd current (fmul (f_of_Z direction) DefaultPlannerShareStep)) in
      let delta := fsub target current in
      if fltb (SpecFloat.SFabs delta) DefaultPlannerShareHysteresis || negb (directionalObservationWindowElapsed i targetID) then None
      else Some (mkDirectional current target delta why 0 0 DefaultPlannerObservationWindow)
  end.

Definition directionalTargetForAdaptiveTarget (i : PlanningInput) (t : adaptiveTarget) : option DirectionalTarget :=
  generateDirectionalShareTarget i (sb_share (tg_sandbox t)) (allocation_id (tg_allocation t)).

Definition directionalTargetEvidence (target : option DirectionalTarget) : list SemanticField :=
  match target with
  | None => []
  | Some t =>
      [semanticDoubleField "planner.directional.current_value" (dt_CurrentValue t);
       semanticDoubleField "planner.directional.target_value" (dt_TargetValue t);
       semanticDoubleField "planner.directional.delta" (dt_Delta t);
       semanticStringField "planner.directional.reason" (dt_Reason t);
       semanticIntField "planner.directional.expected_benefit_nanos" (ExpectedBenefitNanos t);
       semanticIntField "planner.directional.recovery_cost_nanos" (dt_RecoveryCostNanos t);
       semanticIntField "planner.directional.observation_window_nanos" (ObservationWindow t)]
  end.

(** ** Evidence and plans *)

Record adaptiveActionSpec := mkSpec {
  as_type : ActionType;
  as_target : adaptiveTarget;
  as_binding : option Binding;
  as_share : float64;
  as_priority : Z;
  as_requiresSafePoint : bool;
}.

Definition spec_id (s : adaptiveActionSpec) : string := allocation_id (tg_allocation (as_target s)).
Definition spec_sandbox (s : adaptiveActionSpec) : Sandbox := tg_sandbox (as_target s).

Definition sort_fields : list SemanticField → list SemanticField := sort_by (λ a b, str_ltb (field_key a) (field_key b)).

(** [AsTime().UnixNano()] *)
Definition UnixNano (t : Timestamp) : Z := swrap64 (AsTime (Some t)).

Section Building.
Context (unicode_lower sha256_hex : string → string).
Context (binding_wire : Binding → string) (fields_wire : list SemanticField → string) (FormatFloat : float64 → string).

Local Abbreviation stableID := (SchedulerCore.stableID sha256_hex).

Definition bindingIdentity (b : option Binding) : string := from_option binding_wire "" b.

Definition base_evidence (i : PlanningInput) (utility : Z) : list SemanticField :=
  let c := pi_Context i in
  [semanticUintField "planner.snapshot_revision" (revision (pi_Snapshot i));
   semanticUintField "planner.deterministic_seed" (deterministic_seed (pi_Intent i));
   semanticUintField "planner.decision_sequence" (decision_sequence c);
   semanticUintField "planner.observed_revision" (observed_revision c);
   semanticUintField "planner.recent_decision_count" (Z.of_nat (length (pi_RecentDecisions i)));
   semanticIntField "planner.tick_kind" (TickKind_number (tick i));
   semanticStringField "planner.trigger_cause" (cause c);
   semanticBoolField "planner.safe_point_present" (sp_present (pi_SafePoint i));
   semanticBoolField "planner.safe_point" (sp_value (pi_SafePoint i));
   semanticBoolField "planner.contract_blocking" (Blocking (ContractAggregate i));
   semanticIntField "planner.utility_nanos" utility] ++
  planningSignalEvidence (pi_Signals i) ++
  given_field (λ t, semanticIntField "planner.evaluation_time_unix_nanos" (UnixNano t)) (evaluation_time c).

Definition plannerEvidence (i : PlanningInput) (kind : PlannerKind) (p : PlanPurpose) (t : ActionType) (target : string) (utility : Z)
    (d : PlannerDisposition) (why : string) (fields : list SemanticField) : PlannerEvidence :=
  let base := sort_fields (base_evidence i utility ++ fields) in
  mkEvidence
    (stableID "proposal" [pi_DecisionID i; PlannerKind_String kind; PlanPurpose_String p; ActionType_String t; target; FormatInt utility;
                          FormatUint (revision (pi_Snapshot i)); FormatUint (decision_sequence (pi_Context i));
                          FormatUint (deterministic_seed (pi_Intent i)); fields_wire base])
    kind p t target utility d why base.

(** Whether every device of the allocation advertises the action, or why not. *)
Definition device_map (s : ClusterSnapshot) : gmap string Device := foldl (λ m d, <[device_id d := d]> m) ∅ (devices s).

Fixpoint devices_support (ds : gmap string Device) (capability : string) (ids : list string) : option string :=
  match ids with
  | [] => None
  | id :: ids =>
      match ds !! id with
      | None => Some "MISSING_DEVICE_EVIDENCE"
      | Some d =>
          if Candidates.containsNormalized unicode_lower (from_option supported_actions [] (device_capabilities d)) capability
          then devices_support ds capability ids else Some "CAPABILITY_NOT_ADVERTISED"
      end
  end.

Definition providerSupports (i : PlanningInput) (a : Allocation) (t : ActionType) : option string :=
  match DefinitionForAction t with
  | None => Some "UNKNOWN_ACTION"
  | Some definition =>
      if bool_decide (al_device_ids a = []) then Some "MISSING_DEVICE_EVIDENCE"
      else devices_support (device_map (pi_Snapshot i)) (CapabilityName definition) (al_device_ids a)
  end.

Definition spec_order : adaptiveActionSpec → adaptiveActionSpec → bool :=
  lex_less (λ a b, str_ltb (spec_id a) (spec_id b)) (λ a b, ActionType_number (as_type a) <? ActionType_number (as_type b)).

Definition spec_identity (s : adaptiveActionSpec) : list string :=
  [ActionType_String (as_type s); spec_id s; sandbox_id (spec_sandbox s); FormatUint (sb_generation (spec_sandbox s));
   FormatFloat (as_share s); FormatInt (as_priority s); bindingIdentity (as_binding s)].

Definition sortedAffectedIDs (specs : list adaptiveActionSpec) : list string :=
  sort_strings (elements (list_to_set (C := gset string) (spec_id <$> specs))).

Definition compensationFor (s : adaptiveActionSpec) (definition : ActionDefinition) : Rollback :=
  mkRollback (CompensationType definition) (sandbox_id (spec_sandbox s))
    (if CompensationNeedsBinding definition then sb_binding (spec_sandbox s) else None) "restore the observed sandbox before-image".

Definition adaptive_action (i : PlanningInput) (planID : string) (definition : ActionDefinition) (order : Z) (s : adaptiveActionSpec) :
    Action :=
  let t := as_type s in
  mkAction (stableID "adaptive-action" [planID; ActionType_String t; spec_id s; FormatUint order]) t (spec_id s) (as_binding s) (as_share s)
    (Some (compensationFor s definition)) (sandbox_id (spec_sandbox s)) (sb_generation (spec_sandbox s))
    (stableID "adaptive-action-idempotency" [in_idempotency_key (core i); planID; ActionType_String t; spec_id s; FormatUint order])
    (mkContract (def_Level definition) (as_priority s) order planID (revision (pi_Snapshot i))
       (Some (actionCapabilities unicode_lower (required_capabilities (core i)) (CapabilityName definition))) (as_requiresSafePoint s)
       (valid_until (core i)) (tick i) (RequiredPreconditions t (as_requiresSafePoint s) true) (def_ExpectedImpacts definition)).

(** The actions in order, or why one of them cannot be had. *)
Fixpoint adaptive_actions (i : PlanningInput) (planID : string) (index : nat) (specs : list adaptiveActionSpec) :
    Result string (list Action) :=
  match specs with
  | [] => Ok []
  | s :: specs =>
      _ ← guard_err (negb (sb_generation (spec_sandbox s) =? 0)) "MISSING_TARGET_STATE";
      match DefinitionForAction (as_type s) with
      | None => Err "UNKNOWN_ACTION"
      | Some definition =>
          rest ← adaptive_actions i planID (Datatypes.S index) specs;
          Ok (adaptive_action i planID definition (order_at index) s :: rest)
      end
  end.

(** The bindings a plan carries are those the workload is to have. *)
Definition workload_binding (s : adaptiveActionSpec) : option Binding :=
  if bool_decide (as_type s ∈ [ACTION_TYPE_REBIND; ACTION_TYPE_RECREATE]) then as_binding s else None.

Definition adaptive_requirements (many : bool) : list CapabilityRequirement :=
  let compensating := StableCapabilityRequirements [NewCapabilityRequirement CAPABILITY_REQUIREMENT_KIND_COMPENSATING_ROLLBACK] in
  if many then StableCapabilityRequirements
    (compensating ++ [NewCapabilityRequirement CAPABILITY_REQUIREMENT_KIND_ORDERED_ACTION_EXECUTION])
  else compensating.

Definition buildAdaptivePlan (i : PlanningInput) (kind : PlannerKind) (p : PlanPurpose) (specs : list adaptiveActionSpec) :
    Result string PlacementPlan :=
  _ ← guard_err (negb (bool_decide (length specs = 0%nat))) "INCOMPLETE_PLANNING_INPUT";
  _ ← guard_err (negb ((revision (pi_Snapshot i) =? 0) || bool_decide (tick i = TICK_KIND_UNKNOWN))) "MISSING_FENCE";
  let ordered := sort_by spec_order specs in
  let planID := stableID "adaptive-plan"
    ([pi_DecisionID i; PlannerKind_String kind; PlanPurpose_String p; FormatUint (revision (pi_Snapshot i));
      FormatUint (decision_sequence (pi_Context i)); FormatUint (deterministic_seed (pi_Intent i))] ++ concat (spec_identity <$> ordered)) in
  _ ← guard_err (bool_decide (is_Some (evaluation_time (pi_Context i))) && bool_decide (is_Some (valid_until (core i)))) "MISSING_DEADLINE";
  acts ← adaptive_actions i planID 0 ordered;
  Ok ((blank_plan (pi_DecisionID i) planID (pi_Snapshot i) (pi_Intent i) (evaluation_time (pi_Context i)) p
         ROLLBACK_POLICY_REQUIRED_COMPENSATION)
        <| bindings := Some <$> omap workload_binding ordered |>
        <| actions := Some <$> acts |>
        <| capability_requirements := Some <$> adaptive_requirements (1 <? length ordered)%nat |>
        <| affected_allocation_ids := sortedAffectedIDs ordered |>).

End Building.

Definition formatResourceVector (FormatFloat : float64 → string) (r : option ResourceVector) : string :=
  match r with
  | None => ""
  | Some r =>
      "cpu=" +:+ FormatUint (cpu_millis r) +:+ ",memory=" +:+ FormatUint (memory_bytes r) +:+ ",accelerator=" +:+
      FormatFloat (accelerator_units r) +:+ ",storage=" +:+ FormatUint (ephemeral_storage_bytes r) +:+ ",network=" +:+
      FormatUint (network_bandwidth_bps r)
  end.
