(* ===== verification/AdaptivePlanners.v ===== *)
(** * The adaptive planners ([scheduler-go/scheduler/adaptive_planners.go])

    The planner of admissions and the three of the ticks: fast mutations, lifecycle on the
    medium tick, reconfiguration on the slow one.  Each turns an input into proposals; the
    parameters are those of the candidate engine and of [AdaptiveTargets]. *)

From Stdlib Require Import ZArith Lia Ascii.
From S2P Require Import Prelude GoStrings GoTime GoFloat Semantics Evaluator ClusterModel SchedulerState Mutation Preemption Reservation Transaction Intents Constraints Candidates CandidateEngine Projection PhaseGraph Validation ActionPolicy SchedulerCore AdaptiveModel AdaptiveSignals AdaptiveTargets.
From stdpp Require Import options.

Local Open Scope Z_scope.

(** ** What is seen of the targets *)

Definition hasObservedScaleIn (i : PlanningInput) : bool :=
  unit_count (core i) <? Z.of_nat (length (activeAdaptiveTargets i)).

Definition hasResourceDrift (i : PlanningInput) : bool :=
  existsb (λ t, negb (option_Equal resources_Equal (al_resources (tg_allocation t)) (resources_per_unit (core i)))) (activeAdaptiveTargets i).

Definition hasPriorityDrift (i : PlanningInput) (desired : Z) : bool :=
  existsb (λ t, negb (sb_priority (tg_sandbox t) =? desired)) (activeAdaptiveTargets i).

Definition hasFailedSandbox (i : PlanningInput) : bool :=
  existsb (λ t, bool_decide (sb_state (tg_sandbox t) = RUNTIME_STATE_FAILED)) (activeAdaptiveTargets i).

Definition suspends (t : ActionType) : bool := bool_decide (t ∈ [ACTION_TYPE_PAUSE; ACTION_TYPE_SLEEP; ACTION_TYPE_OFFLOAD]).

Definition selected_actions (d : DecisionRecord) : list Action := from_option (λ p, omap id (actions p)) [] (selected_plan d).

Definition hasRecentSchedulerSuspension (i : PlanningInput) : bool :=
  existsb (λ d, existsb (λ a, suspends (action_type a)) (selected_actions d)) (pi_RecentDecisions i).

Definition recentSchedulerSuspension (i : PlanningInput) (t : adaptiveTarget) : bool :=
  negb (Blocking (ContractAggregate i)) &&
  bool_decide (sb_state (tg_sandbox t) ∈ [RUNTIME_STATE_PAUSED; RUNTIME_STATE_SLEEPING]) &&
  existsb (λ d, existsb (λ a, bool_decide (target_id a = allocation_id (tg_allocation t)) &&
                              (expected_generation a =? sb_generation (tg_sandbox t)) && suspends (action_type a))
                  (selected_actions d)) (pi_RecentDecisions i).

(** A device that is not in the snapshot is not ready. *)
Definition unready (ds : gmap string Device) (id : string) : bool :=
  negb (bool_decide (health <$> ds !! id = Some DEVICE_HEALTH_READY)).

Definition hasUnhealthyBoundDevice (i : PlanningInput) : bool :=
  existsb (λ a, existsb (unready (device_map (pi_Snapshot i))) (al_device_ids a)) (active_allocations i).

Definition targetHasUnhealthyDevice (i : PlanningInput) (t : adaptiveTarget) : bool :=
  existsb (unready (device_map (pi_Snapshot i))) (al_device_ids (tg_allocation t)).

(** ** Ages *)

Definition oldEnough (i : PlanningInput) (s : Sandbox) (threshold : Z) : bool :=
  match effectiveSandboxStateChangedAt s, evaluation_time (pi_Context i) with
  | Some changed, Some now => Timestamp_valid changed && (AsTime (Some changed) + threshold <=? AsTime (Some now))
  | _, _ => false
  end.

(** -1 when it is not known. *)
Definition sandboxResidencyNanos (i : PlanningInput) (s : Sandbox) : Z :=
  match effectiveSandboxStateChangedAt s, evaluation_time (pi_Context i) with
  | Some changed, Some now =>
      let residency := time_Sub (AsTime (Some now)) (AsTime (Some changed)) in
      if negb (Timestamp_valid changed) || (residency <? 0) then -1 else residency
  | _, _ => -1
  end.

(** ** Purposes *)

Definition rebindPurpose (i : PlanningInput) (t : adaptiveTarget) : PlanPurpose :=
  if targetHasUnhealthyDevice i t then PLAN_PURPOSE_RECOVERY else PLAN_PURPOSE_REBALANCE.

Definition lifecyclePurpose (t : ActionType) : PlanPurpose :=
  if bool_decide (t = ACTION_TYPE_RESUME) then PLAN_PURPOSE_RECOVERY else PLAN_PURPOSE_RECONCILIATION.

Definition wrongTickPurpose (t : ActionType) : PlanPurpose :=
  match t with
  | ACTION_TYPE_RESIZE | ACTION_TYPE_REBIND => PLAN_PURPOSE_REBALANCE
  | ACTION_TYPE_RESUME | ACTION_TYPE_RECREATE => PLAN_PURPOSE_RECOVERY
  | _ => PLAN_PURPOSE_RECONCILIATION
  end.

(** ** Eligibility of a lifecycle action *)

Definition ELIGIBLE : string := "ELIGIBLE".

Definition among (s : RuntimeState) (l : list RuntimeState) : bool := bool_decide (s ∈ l).

Definition lifecycleEligibility (i : PlanningInput) (s : Sandbox) (t : ActionType) : string :=
  let state := sb_state s in
  let too_young after := (0 <? after) && negb (oldEnough i s after) in
  match t with
  | ACTION_TYPE_PAUSE =>
      if among state [RUNTIME_STATE_PAUSED] then "ALREADY_SATISFIED"
      else if negb (among state [RUNTIME_STATE_RUNNING]) then "INVALID_STATE_TRANSITION" else ELIGIBLE
  | ACTION_TYPE_RESUME =>
      if among state [RUNTIME_STATE_RUNNING] then "ALREADY_SATISFIED"
      else if negb (among state [RUNTIME_STATE_PAUSED; RUNTIME_STATE_SLEEPING]) then "INVALID_STATE_TRANSITION" else ELIGIBLE
  | ACTION_TYPE_SLEEP =>
      if among state [RUNTIME_STATE_SLEEPING] && negb (offloaded s) then "ALREADY_SATISFIED"
      else if negb (among state [RUNTIME_STATE_RUNNING; RUNTIME_STATE_PAUSED]) then "INVALID_STATE_TRANSITION"
      else if too_young (SleepAfter (pi_Directives i)) then "AGE_THRESHOLD_NOT_REACHED" else ELIGIBLE
  | ACTION_TYPE_OFFLOAD =>
      if offloaded s then "ALREADY_SATISFIED"
      else if negb (among state [RUNTIME_STATE_RUNNING; RUNTIME_STATE_PAUSED; RUNTIME_STATE_SLEEPING]) then "INVALID_STATE_TRANSITION"
      else if too_young (OffloadAfter (pi_Directives i)) then "AGE_THRESHOLD_NOT_REACHED" else ELIGIBLE
  | _ => ELIGIBLE
  end.

Definition mediumSignalEligibility (i : PlanningInput) (s : Sandbox) (t : ActionType) : string :=
  let sg := pi_Signals i in
  if bool_decide (t = ACTION_TYPE_RESUME) then
    if default false (sg_ActionInFlight sg) then "ACTION_IN_FLIGHT" else ELIGIBLE
  else
  match sg_CheckpointCapable sg with
  | None => "CHECKPOINT_CAPABILITY_UNKNOWN"
  | Some false => "CHECKPOINT_CAPABILITY_REQUIRED"
  | Some true =>
      match sg_BufferBelowWatermark sg with
      | None => "BUFFER_WATERMARK_UNKNOWN"
      | Some false => "BUFFER_ABOVE_WATERMARK"
      | Some true =>
          match sg_MinimumResidency sg with
          | None => "MINIMUM_RESIDENCY_UNKNOWN"
          | Some minimum =>
              let residency := sandboxResidencyNanos i s in
              if residency <? 0 then "MINIMUM_RESIDENCY_UNKNOWN"
              else if residency <? minimum then "MINIMUM_RESIDENCY_NOT_MET"
              else match sg_ActionInFlight sg with
                   | None => "ACTION_IN_FLIGHT_UNKNOWN"
                   | Some true => "ACTION_IN_FLIGHT"
                   | Some false => ELIGIBLE
                   end
          end
      end
  end.

(** ** Utilities *)

Definition directionalSignalUtility (i : PlanningInput) (step : Z) : Z :=
  let s := pi_Signals i in
  let producer := producerPhase (im_phase_kind (pi_Intent i)) in
  foldl (λ adjustment (condition : bool), if condition then saturatingUtilityAdd adjustment step else adjustment) 0
    [under_pressure s; from_option (λ l, 0 <? l) false (sg_PolicyLag s); producer && stale_samples s; producer && low_ess s].

Definition recoveryCostForTarget (s : PlanningSignals) (t : adaptiveTarget) : Z :=
  default (default 0 (sg_RecoveryCostNanos s))
    (or_given (sg_RecoveryCostNanosByTarget s !! allocation_id (tg_allocation t))
       (sg_RecoveryCostNanosByTarget s !! sandbox_id (tg_sandbox t))).

(** Benefit, cost, risk, and what remains. *)
Definition slowUtility (i : PlanningInput) (t : adaptiveTarget) (action : ActionType) (base : Z) (config : PlannerUtilityConfig) :
    Z * Z * Z * Z :=
  let benefit := if bool_decide (action = ACTION_TYPE_RECREATE) && bool_decide (sb_state (tg_sandbox t) = RUNTIME_STATE_FAILED)
                 then saturatingUtilityAdd base (SlowBenefit config) else base in
  let benefit := if bool_decide (action = ACTION_TYPE_REBIND) && targetHasUnhealthyDevice i t
                 then saturatingUtilityAdd benefit (SlowBenefit config) else benefit in
  let cost := recoveryCostForTarget (pi_Signals i) t in
  let risk := if default false (sg_CheckpointCapable (pi_Signals i)) then 0 else SlowRisk config in
  (benefit, cost, risk, saturatingSubtract (saturatingSubtract benefit cost) risk).

(** ** Bindings *)

Definition cloneAdaptiveBinding (b : option Binding) (resources : option ResourceVector) (generation : Z) : option Binding :=
  b ← b;
  Some (b <| bi_resources := or_given resources (bi_resources b) |> <| bi_generation := generation |>).

Definition resizeWithinAllocation (current desired : option ResourceVector) : bool :=
  match current, desired with Some _, Some _ => ResourceLessOrEqual desired current | _, _ => false end.

Definition stableRecreateCandidate (t : adaptiveTarget) : option Binding :=
  b ← sb_binding (tg_sandbox t);
  Some (b <| bi_generation := wrap64 (sb_generation (tg_sandbox t) + 1) |>).

Definition empty_or_is (value expected : string) : bool := bool_decide (value = "") || bool_decide (value = expected).

(** ** What the directives ask for *)

Definition when {A} (b : bool) (a : A) : list A := if b then [a] else [].

Definition resizes (d : Directives) : bool :=
  AllowResize d || is_given (TargetResources d) || negb (bool_decide (ResizeResources d = ∅)).

Definition requestedFastActions (d : Directives) : list ActionType :=
  when (is_given (TargetShare d)) ACTION_TYPE_SET_SHARE ++ when (is_given (TargetPriority d)) ACTION_TYPE_SET_PRIORITY ++
  when (resizes d) ACTION_TYPE_RESIZE ++ when (AllowScaleIn d) ACTION_TYPE_RELEASE.

Definition RuntimeState_number (s : RuntimeState) : Z :=
  match s with
  | RUNTIME_STATE_UNKNOWN => 0 | RUNTIME_STATE_REQUESTED => 1 | RUNTIME_STATE_BOUND => 2 | RUNTIME_STATE_RUNNING => 3
  | RUNTIME_STATE_PAUSED => 4 | RUNTIME_STATE_SLEEPING => 5 | RUNTIME_STATE_FAILED => 6 | RUNTIME_STATE_TERMINATED => 7
  | RUNTIME_STATE_VALIDATING => 8 | RUNTIME_STATE_COMPILING => 9 | RUNTIME_STATE_PREPARING => 10 | RUNTIME_STATE_STARTING => 11
  | RUNTIME_STATE_PAUSING => 12 | RUNTIME_STATE_RESUMING => 13 | RUNTIME_STATE_CHECKPOINTING => 14 | RUNTIME_STATE_STOPPING => 15
  | RUNTIME_STATE_TERMINATING => 16 | RUNTIME_STATE_UNNAMED n => n
  end.

Definition desires (d : Directives) (s : RuntimeState) : bool := bool_decide (DesiredState d = s).

Definition requestedMediumActions (d : Directives) : list ActionType :=
  when (AllowPause d || desires d RUNTIME_STATE_PAUSED) ACTION_TYPE_PAUSE ++
  when (AllowResume d || desires d RUNTIME_STATE_RUNNING) ACTION_TYPE_RESUME ++
  when (AllowSleep d || (0 <? SleepAfter d) || desires d RUNTIME_STATE_SLEEPING) ACTION_TYPE_SLEEP ++
  when (AllowOffload d || (0 <? OffloadAfter d)) ACTION_TYPE_OFFLOAD.

Definition requestedSlowActions (d : Directives) : list ActionType :=
  when (AllowRebind d) ACTION_TYPE_REBIND ++ when (AllowRecreate d) ACTION_TYPE_RECREATE.

(** ** Proposals *)

Section Planners.
Context (unicode_quote unicode_lower sha256_hex : string → string).
Context (binding_wire : Binding → string) (fields_wire : list SemanticField → string) (FormatFloat : float64 → string).

Local Abbreviation stableID := (SchedulerCore.stableID sha256_hex).
Local Abbreviation plannerEvidence := (AdaptiveTargets.plannerEvidence sha256_hex fields_wire).
Local Abbreviation buildAdaptivePlan := (AdaptiveTargets.buildAdaptivePlan unicode_lower sha256_hex binding_wire FormatFloat).

(** Only a pause that a blocking contract asks for passes it. *)
Definition contract_allows (i : PlanningInput) (t : ActionType) : bool :=
  negb (Blocking (ContractAggregate i)) ||
  bool_decide (Evaluator.Action (ContractAggregate i) = ACTION_PAUSE_REQUIRED) && bool_decide (t = ACTION_TYPE_PAUSE).

Definition actionEligibility (i : PlanningInput) (s : adaptiveActionSpec) : string :=
  let t := as_type s in
  let reconfigures := bool_decide (t ∈ [ACTION_TYPE_REBIND; ACTION_TYPE_RECREATE]) in
  if negb (contract_allows i t) then "CONTRACT_BLOCKED"
  else if negb (bool_decide (t = ACTION_TYPE_RESUME)) && as_requiresSafePoint s && negb (at_safe_point i && safe_point (spec_sandbox s))
  then "SAFE_POINT_REQUIRED"
  else match CeilingForTick (tick i) with
       | None => "UNKNOWN_TICK"
       | Some ceiling =>
           if ActionLevel_number ceiling <? ActionLevel_number (level_of t) then "TICK_NOT_ELIGIBLE"
           else if reconfigures then ELIGIBLE
           else default ELIGIBLE (providerSupports unicode_lower i (tg_allocation (as_target s)) t)
       end.

(** The plan of an action that is eligible and useful enough, or why there is none. *)
Definition proposed_plan (i : PlanningInput) (kind : PlannerKind) (p : PlanPurpose) (s : adaptiveActionSpec) (utility : Z) (why : string) :
    Result string PlacementPlan :=
  let why := if bool_decide (why = ELIGIBLE) then actionEligibility i s else why in
  if negb (bool_decide (why = ELIGIBLE)) then Err why
  else if utility <? MinimumUtilityNanos (pi_Directives i) then Err "UTILITY_BELOW_THRESHOLD"
  else buildAdaptivePlan i kind p [s].

Definition observation_fields (s : adaptiveActionSpec) : list SemanticField :=
  let sandbox := spec_sandbox s in
  [semanticUintField "planner.target_generation" (sb_generation sandbox);
   semanticIntField "planner.action_level" (ActionLevel_number (level_of (as_type s)))] ++
  given_field (λ t, semanticIntField "planner.sandbox_observed_at_unix_nanos" (UnixNano t)) (sb_observed_at sandbox) ++
  given_field (λ t, semanticIntField "planner.sandbox_last_confirmed_at_unix_nanos" (UnixNano t)) (effectiveSandboxLastConfirmedAt sandbox) ++
  given_field (λ t, semanticIntField "planner.sandbox_state_changed_at_unix_nanos" (UnixNano t)) (effectiveSandboxStateChangedAt sandbox).

Definition actionProposal (i : PlanningInput) (kind : PlannerKind) (p : PlanPurpose) (s : adaptiveActionSpec) (utility : Z) (why : string)
    (fields : list SemanticField) : PlannerProposal :=
  let evidence d why := plannerEvidence i kind p (as_type s) (spec_id s) utility d why (fields ++ observation_fields s) in
  match proposed_plan i kind p s utility why with
  | Ok plan => mkProposal (Some plan) (evidence PLANNER_DISPOSITION_DEFERRED ELIGIBLE)
  | Err why => mkProposal None (evidence PLANNER_DISPOSITION_REJECTED why)
  end.

Definition rejected_proposal (i : PlanningInput) (kind : PlannerKind) (id why : string) (fields : list SemanticField) : PlannerProposal :=
  mkProposal None (plannerEvidence i kind PLAN_PURPOSE_RECONCILIATION ACTION_TYPE_UNKNOWN id 0 PLANNER_DISPOSITION_REJECTED why fields).

Definition missingTargetEvidence (i : PlanningInput) (kind : PlannerKind) (ids : list string) : list PlannerProposal :=
  (λ id, rejected_proposal i kind id "MISSING_SANDBOX_OBSERVATION" []) <$> ids.

Definition staleTargetEvidence (i : PlanningInput) (kind : PlannerKind) (targets : gmap string string) : list PlannerProposal :=
  (λ entry, rejected_proposal i kind entry.1 entry.2 [semanticIntField "planner.sandbox_maximum_age_nanos" (sandboxMaximumAge i)]) <$>
  sort_by (λ a b, str_ltb a.1 b.1) (map_to_list targets).

Definition wrongTickDirectiveEvidence (i : PlanningInput) (kind : PlannerKind) (types : list ActionType) : list PlannerProposal :=
  (λ t, mkProposal None (plannerEvidence i kind (wrongTickPurpose t) t "" 0 PLANNER_DISPOSITION_DEFERRED "TICK_NOT_ELIGIBLE" [])) <$> types.

(** The evidence of targets that cannot be acted on. *)
Definition unusable_targets (i : PlanningInput) (kind : PlannerKind) (found : list adaptiveTarget * list string * gmap string string) :
    list PlannerProposal :=
  missingTargetEvidence i kind found.1.2 ++ staleTargetEvidence i kind found.2.

(** *** Admission *)

Definition admissionActionPlan (source : PlacementPlan) (sourceAction : option Action) : Result string PlacementPlan :=
  match sourceAction ≫= λ a, b ← action_binding a; if bool_decide (action_type a = ACTION_TYPE_BIND) then Some (a, b) else None with
  | None => Err "INVALID_ADMISSION_ACTION"
  | Some (a, b) =>
      match find (λ c, bool_decide (binding_id c = binding_id b)) (omap id (bindings source)) with
      | None => Err "MISSING_ADMISSION_BINDING"
      | Some binding =>
          let planID := stableID "admission-action-plan" [plan_id source; action_id a] in
          let action := (at_place planID 1 a) <| action_id := stableID "admission-action" [planID; action_id a] |>
                          <| idempotency_key := stableID "admission-action-idempotency" [idempotency_key a; planID] |> in
          Ok (source <| plan_id := planID |> <| bindings := [Some binding] |> <| actions := [Some action] |>
                     <| rollback_policy := ROLLBACK_POLICY_NOT_REQUIRED |> <| capability_requirements := [] |>)
      end
  end.

(** The getters of an action that may be nil. *)
Definition action_type_of (a : option Action) : ActionType := from_option action_type ACTION_TYPE_UNKNOWN a.
Definition target_id_of (a : option Action) : string := from_option target_id "" a.

Definition admission_proposal (i : PlanningInput) (plan : PlacementPlan) (utility : Z) (index : nat) (a : option Action) : PlannerProposal :=
  let target := if bool_decide (target_id_of a = "") then from_option bi_pending_unit_id "" (a ≫= action_binding) else target_id_of a in
  let evidence d why :=
    plannerEvidence i PLANNER_KIND_ADMISSION PLAN_PURPOSE_ADMISSION (action_type_of a) target utility d why
      [semanticUintField "planner.admission_action_index" (Z.of_nat index);
       semanticUintField "planner.admission_action_count" (Z.of_nat (length (actions plan)))] in
  (* the identity of the proposal is made before the plan is known: its disposition and its reason are not part of it *)
  if Blocking (ContractAggregate i) then mkProposal None (evidence PLANNER_DISPOSITION_REJECTED "CONTRACT_BLOCKED")
  else match admissionActionPlan plan a with
       | Ok own => mkProposal (Some own) (evidence PLANNER_DISPOSITION_DEFERRED ELIGIBLE)
       | Err why => mkProposal None (evidence PLANNER_DISPOSITION_REJECTED why)
       end.

(** A plan of another purpose is proposed whole. *)
Definition existingPlanProposal (i : PlanningInput) (plan : PlacementPlan) (config : PlannerUtilityConfig) : list PlannerProposal :=
  match actions plan with
  | [] => []
  | first :: _ =>
      let config := normalizePlannerUtilityConfig config in
      let utility := foldl (λ u a, match action_type_of a with
                                   | ACTION_TYPE_BIND => saturatingUtilityAdd u (ut_Bind config)
                                   | ACTION_TYPE_RELEASE => saturatingUtilityAdd u (ut_Release config)
                                   | _ => u
                                   end) 0 (actions plan) in
      let evidence d why :=
        plannerEvidence i PLANNER_KIND_ADMISSION (purpose plan) (action_type_of first) (target_id_of first) utility d why
          [semanticUintField "planner.action_count" (Z.of_nat (length (actions plan)))] in
      if Blocking (ContractAggregate i) && negb (bool_decide (purpose plan = PLAN_PURPOSE_RECOVERY))
      then [mkProposal None (evidence PLANNER_DISPOSITION_REJECTED "CONTRACT_BLOCKED")]
      else [mkProposal (Some plan) (evidence PLANNER_DISPOSITION_DEFERRED ELIGIBLE)]
  end.

Definition AdmissionPlanner_Propose (utility : PlannerUtilityConfig) (i : PlanningInput) : list PlannerProposal :=
  match AdmissionPlan i with
  | None => []
  | Some plan =>
      if negb (bool_decide (purpose plan = PLAN_PURPOSE_ADMISSION)) then existingPlanProposal i plan utility
      else if bool_decide (length (actions plan) = 0%nat) then
        [mkProposal None (plannerEvidence i PLANNER_KIND_ADMISSION PLAN_PURPOSE_ADMISSION ACTION_TYPE_BIND "" 0
                            PLANNER_DISPOSITION_REJECTED "ADMISSION_NO_ACTION" [])]
      else imap (admission_proposal i plan (ut_Bind (normalizePlannerUtilityConfig utility))) (actions plan)
  end.

(** *** The fast tick *)

(** A directive for the fast tick leaves nothing to its own judgement. *)
Definition explicitFast (d : Directives) : bool :=
  is_given (TargetShare d) || is_given (TargetPriority d) || AllowScaleIn d || resizes d.

(** The share a target is to have: the directive's, the controller's, or the intent's. *)
Definition wanted_share (i : PlanningInput) (t : adaptiveTarget) : option float64 * option DirectionalTarget :=
  match TargetShare (pi_Directives i) with
  | Some s => (Some s, None)
  | None =>
      if explicitFast (pi_Directives i) then (None, None) else
      match directionalTargetForAdaptiveTarget i t with
      | Some d => (Some (dt_TargetValue d), Some d)
      | None =>
          let value := share_of (resources_per_unit (core i)) in
          (if negb (directionalShareSignalPresent i) && fleb f0 value && fleb value f1 && negb (feqb (sb_share (tg_sandbox t)) value)
           then Some value else None, None)
      end
  end.

(** A controller's target with its benefit and cost. *)
Definition priced (i : PlanningInput) (utility : PlannerUtilityConfig) (d : DirectionalTarget) : DirectionalTarget :=
  d <| ExpectedBenefitNanos := saturatingUtilityAdd (ut_SetShare utility) (directionalSignalUtility i (FastSignalStep utility)) |>
    <| dt_RecoveryCostNanos := default 0 (sg_RecoveryCostNanos (pi_Signals i)) |>.

Definition share_proposals (i : PlanningInput) (utility : PlannerUtilityConfig) (t : adaptiveTarget) : list PlannerProposal :=
  match wanted_share i t with
  | (None, _) => []
  | (Some desired, directional) =>
      let current := sb_share (tg_sandbox t) in
      let directional := priced i utility <$> directional in
      let shareUtility := from_option (λ d, saturatingSubtract (ExpectedBenefitNanos d) (dt_RecoveryCostNanos d)) (ut_SetShare utility)
                            directional in
      let why := if IsNaN desired || IsInf desired || fltb desired f0 || fltb f1 desired then "INVALID_TARGET_SHARE"
                 else if feqb current desired then "ALREADY_SATISFIED" else ELIGIBLE in
      [actionProposal i PLANNER_KIND_FAST_MUTATION PLAN_PURPOSE_RECONCILIATION
         (mkSpec ACTION_TYPE_SET_SHARE t None desired 0 false) shareUtility why
         ([semanticDoubleField "planner.current_share" current; semanticDoubleField "planner.target_share" desired] ++
          directionalTargetEvidence directional)]
  end.

Definition priority_proposals (i : PlanningInput) (utility : PlannerUtilityConfig) (targetPriority : option Z) (t : adaptiveTarget) :
    list PlannerProposal :=
  match targetPriority with
  | None => []
  | Some desired =>
      let current := sb_priority (tg_sandbox t) in
      [actionProposal i PLANNER_KIND_FAST_MUTATION PLAN_PURPOSE_RECONCILIATION
         (mkSpec ACTION_TYPE_SET_PRIORITY t None f0 desired false) (ut_SetPriority utility)
         (if current =? desired then "ALREADY_SATISFIED" else ELIGIBLE)
         [semanticIntField "planner.current_priority" current; semanticIntField "planner.target_priority" desired]]
  end.

(** A unit of its own for the candidate engine: this much, on a device that can do this. *)
Definition probe (i : PlanningInput) (t : adaptiveTarget) (safePoint : bool) (resources : option ResourceVector) (capabilities : CapabilitySet)
    (included excluded : list string) : Result CandidateError EngineResult :=
  let a := tg_allocation t in
  CandidateEngine.Evaluate unicode_quote unicode_lower stableID
    (mkRequest (Some (pi_Snapshot i)) (Some (core i)) (mkDecision (pi_DecisionID i) false safePoint)
       (mkAdjustment [allocation_id a] included excluded)
       [mkUnit (al_pending_unit_id a)
          (Some (mkPendingUnit (al_pending_unit_id a) "" "" 0 "" (Some (default zero_resources resources)) (Some capabilities) 0 None 0 "" ""
                   DATA_KIND_UNKNOWN ""))] None None None (CandidateEngine.mkConfig 1 1)).

(** The capabilities the intent requires, and one action more. *)
Definition required_with (i : PlanningInput) (actions : list string) : CapabilitySet :=
  let c := default no_capabilities (required_capabilities (core i)) in
  c <| supported_actions := supported_actions c ++ actions |>.

Definition resizeGrowthEligibility (i : PlanningInput) (t : adaptiveTarget) (desired : option ResourceVector) : string :=
  let devices := al_device_ids (tg_allocation t) in
  if negb (bool_decide (length devices = 1%nat)) || bool_decide (desired = None) then "RESIZE_FEASIBILITY_UNKNOWN" else
  match probe i t (sp_value (pi_SafePoint i)) desired (required_with i []) devices [] with
  | Err _ => "RESIZE_FEASIBILITY_ERROR"
  | Ok result => if bool_decide (length (re_Selected result) = 1%nat) then ELIGIBLE else "RESIZE_INSUFFICIENT_RESOURCES"
  end.

Definition resize_proposals (i : PlanningInput) (utility : PlannerUtilityConfig) (autoResize : bool) (t : adaptiveTarget) :
    list PlannerProposal :=
  let d := pi_Directives i in
  if negb (AllowResize d || autoResize) then [] else
  let held := al_resources (tg_allocation t) in
  let desired := or_given (ResizeResources d !! allocation_id (tg_allocation t))
                   (or_given (TargetResources d) (if autoResize then resources_per_unit (core i) else None)) in
  let why := if bool_decide (desired = None) then "MISSING_TARGET_RESOURCES"
             else if option_Equal resources_Equal desired held then "ALREADY_SATISFIED"
             else if resizeWithinAllocation held desired then ELIGIBLE
             else resizeGrowthEligibility i t desired in
  [actionProposal i PLANNER_KIND_FAST_MUTATION PLAN_PURPOSE_REBALANCE
     (mkSpec ACTION_TYPE_RESIZE t (cloneAdaptiveBinding (sb_binding (tg_sandbox t)) desired (sb_generation (tg_sandbox t))) f0 0 false)
     (ut_Resize utility) why [semanticStringField "planner.target_resources" (formatResourceVector FormatFloat desired)]].

(** One target is released, the last. *)
Definition scale_in_proposals (i : PlanningInput) (utility : PlannerUtilityConfig) (targets : list adaptiveTarget) : list PlannerProposal :=
  let count := Z.of_nat (length targets) in
  match last targets with
  | Some t =>
      if unit_count (core i) <? count mod two32 then
        [actionProposal i PLANNER_KIND_FAST_MUTATION PLAN_PURPOSE_RECONCILIATION
           (mkSpec ACTION_TYPE_RELEASE t None f0 0 true) (ut_Release utility) ELIGIBLE
           [semanticUintField "planner.desired_units" (unit_count (core i)); semanticUintField "planner.active_units" count;
            semanticUintField "planner.remaining_release_count" (wrap64 (count - unit_count (core i)))]]
      else []
  | None => []
  end.

Definition FastMutationPlanner_Propose (config : PlannerUtilityConfig) (i : PlanningInput) : list PlannerProposal :=
  let d := pi_Directives i in
  let kind := PLANNER_KIND_FAST_MUTATION in
  if negb (bool_decide (tick i = TICK_KIND_FAST)) then wrongTickDirectiveEvidence i kind (requestedFastActions d) else
  let explicit := explicitFast d in
  let targetPriority := or_given (TargetPriority d)
                          (if negb explicit && hasPriorityDrift i (in_priority (core i)) then Some (in_priority (core i)) else None) in
  let autoScaleIn := negb explicit && hasObservedScaleIn i in
  let autoResize := negb explicit && hasResourceDrift i in
  if negb (is_given (TargetShare d) || is_given targetPriority || autoResize || autoScaleIn || AllowResize d || AllowScaleIn d ||
           directionalShareSignalPresent i) then [] else
  let utility := normalizePlannerUtilityConfig config in
  let found := activeAdaptiveTargetsWithFreshness i in
  unusable_targets i kind found ++
  concat ((λ t, share_proposals i utility t ++ priority_proposals i utility targetPriority t ++ resize_proposals i utility autoResize t)
            <$> found.1.1) ++
  (if AllowScaleIn d || autoScaleIn then scale_in_proposals i utility found.1.1 else []).

(** *** The medium tick *)

Definition lifecycle_proposal (i : PlanningInput) (t : adaptiveTarget) (option : bool * ActionType * Z) : list PlannerProposal :=
  let '(enabled, action, score) := option in
  let s := tg_sandbox t in
  let why := lifecycleEligibility i s action in
  let why := if bool_decide (why = ELIGIBLE) then mediumSignalEligibility i s action else why in
  when enabled
    (actionProposal i PLANNER_KIND_MEDIUM_LIFECYCLE (lifecyclePurpose action)
       (mkSpec action t None f0 0 (negb (bool_decide (action = ACTION_TYPE_RESUME)))) score why
       [semanticIntField "planner.current_runtime_state" (RuntimeState_number (sb_state s));
        semanticIntField "planner.sandbox_residency_nanos" (sandboxResidencyNanos i s)]).

Definition lifecycle_options (i : PlanningInput) (utility : PlannerUtilityConfig) (contractPause autoResume : bool) (t : adaptiveTarget) :
    list (bool * ActionType * Z) :=
  let d := pi_Directives i in
  let s := tg_sandbox t in
  let autoOffload := (0 <? OffloadAfter d) && oldEnough i s (OffloadAfter d) in
  let autoSleep := (0 <? SleepAfter d) && oldEnough i s (SleepAfter d) && negb autoOffload in
  [(contractPause || AllowPause d || desires d RUNTIME_STATE_PAUSED, ACTION_TYPE_PAUSE, ut_Pause utility);
   (autoResume && recentSchedulerSuspension i t || AllowResume d || desires d RUNTIME_STATE_RUNNING, ACTION_TYPE_RESUME, ut_Resume utility);
   (AllowSleep d || autoSleep || desires d RUNTIME_STATE_SLEEPING, ACTION_TYPE_SLEEP, ut_Sleep utility);
   (AllowOffload d || autoOffload, ACTION_TYPE_OFFLOAD, ut_Offload utility)].

(** A pause a contract requires concerns every active allocation, whatever the filter. *)
Definition without_filter (i : PlanningInput) : PlanningInput := i <| pi_Directives := (pi_Directives i) <| TargetSandboxIDs := [] |> |>.

Definition MediumLifecyclePlanner_Propose (config : PlannerUtilityConfig) (i : PlanningInput) : list PlannerProposal :=
  let d := pi_Directives i in
  let kind := PLANNER_KIND_MEDIUM_LIFECYCLE in
  if negb (bool_decide (tick i = TICK_KIND_MEDIUM)) then wrongTickDirectiveEvidence i kind (requestedMediumActions d) else
  let contractPause := bool_decide (Evaluator.Action (ContractAggregate i) = ACTION_PAUSE_REQUIRED) in
  let autoResume := hasRecentSchedulerSuspension i in
  if negb (contractPause || autoResume || AllowPause d || AllowResume d || AllowSleep d || AllowOffload d || negb (SleepAfter d =? 0) ||
           negb (OffloadAfter d =? 0) || negb (desires d RUNTIME_STATE_UNKNOWN)) then [] else
  let utility := normalizePlannerUtilityConfig config in
  let found := activeAdaptiveTargetsWithFreshness (if contractPause then without_filter i else i) in
  unusable_targets i kind found ++
  concat ((λ t, concat (lifecycle_proposal i t <$> lifecycle_options i utility contractPause autoResume t)) <$> found.1.1).

(** *** The slow tick *)

Definition stableRebindCandidate (i : PlanningInput) (t : adaptiveTarget) : option Binding :=
  b ← sb_binding (tg_sandbox t);
  match probe i t false (al_resources (tg_allocation t)) (required_with i ["rebind"]) [] (al_device_ids (tg_allocation t)) with
  | Ok result =>
      match re_Selected result with
      | [o] => Some (b <| bi_device_ids := [op_DeviceID o] |> <| bi_generation := wrap64 (sb_generation (tg_sandbox t) + 1) |>)
      | _ => None
      end
  | Err _ => None
  end.

(** The observed binding is the identity of what runs; a replacement may only change its
    device and its resources. *)
Definition known_binding (t : adaptiveTarget) (current : Binding) : bool :=
  let a := tg_allocation t in
  let s := tg_sandbox t in
  negb (bool_decide (binding_id current = "") || bool_decide (sandbox_id s = "") || bool_decide (al_pending_unit_id a = "") ||
        bool_decide (al_runtime_unit_id a = "")) &&
  bool_decide (bi_pending_unit_id current = al_pending_unit_id a) && bool_decide (bi_sandbox_id current = sandbox_id s) &&
  bool_decide (bi_runtime_unit_id current = al_runtime_unit_id a) && (bi_generation current =? sb_generation s).

Definition completeReplacementBinding (i : PlanningInput) (t : adaptiveTarget) (override : Binding) (action : ActionType) :
    Result string Binding :=
  let a := tg_allocation t in
  let s := tg_sandbox t in
  match sb_binding s with
  | None => Err "INVALID_REPLACEMENT_BINDING"
  | Some current =>
      let next := wrap64 (sb_generation s + 1) in
      _ ← guard_err (known_binding t current) "INVALID_CURRENT_BINDING_IDENTITY";
      _ ← guard_err (empty_or_is (bi_pending_unit_id override) (al_pending_unit_id a) && empty_or_is (bi_sandbox_id override) (sandbox_id s) &&
                     empty_or_is (bi_runtime_unit_id override) (al_runtime_unit_id a)) "REPLACEMENT_IDENTITY_MISMATCH";
      _ ← guard_err ((bi_generation override =? 0) || (bi_generation override =? next)) "REPLACEMENT_GENERATION_MISMATCH";
      let replacement :=
        mkBinding "" (al_pending_unit_id a)
          (if bool_decide (bi_device_ids override = []) then bi_device_ids current else sort_strings (bi_device_ids override))
          (or_given (bi_resources override) (bi_resources current)) (sandbox_id s) next (al_runtime_unit_id a) in
      let id := stableID "replacement-binding" [pi_DecisionID i; ActionType_String action; allocation_id a; binding_id current;
                                                bindingIdentity binding_wire (Some replacement)] in
      _ ← guard_err (negb (bool_decide (id = "") || bool_decide (id = binding_id current))) "INVALID_REPLACEMENT_BINDING";
      Ok (replacement <| binding_id := id |>)
  end.

(** "" when the replacement may stand in. *)
Definition validateReplacementBinding (i : PlanningInput) (t : adaptiveTarget) (r : Binding) (action : ActionType) : string :=
  let a := tg_allocation t in
  let s := tg_sandbox t in
  if bool_decide ("" ∈ [binding_id r; bi_pending_unit_id r; bi_sandbox_id r; bi_runtime_unit_id r]) ||
     negb (bool_decide (length (bi_device_ids r) = 1%nat)) || bool_decide (bi_resources r = None) then "INVALID_REPLACEMENT_BINDING"
  else if bool_decide (binding_id r = from_option binding_id "" (sb_binding s)) || negb (bool_decide (bi_sandbox_id r = sandbox_id s))
  then "REPLACEMENT_IDENTITY_MISMATCH"
  else if negb (bool_decide (bi_pending_unit_id r = al_pending_unit_id a)) then "REPLACEMENT_IDENTITY_MISMATCH"
  else if negb (bool_decide (bi_runtime_unit_id r = al_runtime_unit_id a)) then "REPLACEMENT_IDENTITY_MISMATCH"
  else if negb (bi_generation r =? wrap64 (sb_generation s + 1)) then "REPLACEMENT_GENERATION_MISMATCH"
  else if negb (option_Equal resources_Equal (bi_resources r) (al_resources a)) then "REPLACEMENT_RESOURCE_MISMATCH"
  else if bool_decide (action = ACTION_TYPE_RECREATE) && negb (bool_decide (bi_device_ids r = al_device_ids a))
  then "REPLACEMENT_DEVICE_MISMATCH"
  else
  let capability := CapabilityName (default zero_definition (DefinitionForAction action)) in
  match probe i t false (bi_resources r) (required_with i [capability]) (bi_device_ids r) [] with
  | Err _ => "REPLACEMENT_FEASIBILITY_ERROR"
  | Ok result =>
      if negb (bool_decide (length (re_Selected result) = 1%nat)) then "REPLACEMENT_INFEASIBLE"
      else if bool_decide (action = ACTION_TYPE_REBIND) && bool_decide (bi_device_ids r = from_option bi_device_ids [] (sb_binding s))
      then "ALREADY_SATISFIED" else ""
  end.

(** The directive's replacement, or one found for the action. *)
Definition offered_replacement (i : PlanningInput) (t : adaptiveTarget) (action : ActionType) : option Binding :=
  or_given (ReplacementBindings (pi_Directives i) !! allocation_id (tg_allocation t))
    (if bool_decide (action = ACTION_TYPE_REBIND) then stableRebindCandidate i t
     else if bool_decide (action = ACTION_TYPE_RECREATE) && among (sb_state (tg_sandbox t)) [RUNTIME_STATE_FAILED]
     then stableRecreateCandidate t else None).

(** The replacement and why it cannot be used. *)
Definition replacement_for (i : PlanningInput) (t : adaptiveTarget) (action : ActionType) : option Binding * string :=
  match offered_replacement i t action with
  | None => (None, "MISSING_REPLACEMENT_BINDING")
  | Some override =>
      match completeReplacementBinding i t override action with
      | Err why => (None, why)
      | Ok r =>
          let why := validateReplacementBinding i t r action in
          (Some r, if negb (bool_decide (why = "")) then why
                   else if negb (at_safe_point i && safe_point (tg_sandbox t)) then "SAFE_POINT_REQUIRED" else ELIGIBLE)
      end
  end.

Definition reconfiguration_proposal (i : PlanningInput) (utility : PlannerUtilityConfig) (t : adaptiveTarget)
    (option : bool * ActionType * Z * PlanPurpose) : list PlannerProposal :=
  let '(enabled, action, base, p) := option in
  if negb enabled then [] else
  let '(replacement, why) := replacement_for i t action in
  let '(benefit, cost, risk, score) := slowUtility i t action base utility in
  [actionProposal i PLANNER_KIND_SLOW_RECONFIGURATION p (mkSpec action t replacement f0 0 true) score why
     [semanticIntField "planner.benefit_base_nanos" benefit; semanticIntField "planner.cost_recovery_nanos" cost;
      semanticIntField "planner.risk_reconfiguration_nanos" risk]].

Definition SlowReconfigurationPlanner_Propose (config : PlannerUtilityConfig) (i : PlanningInput) : list PlannerProposal :=
  let d := pi_Directives i in
  let kind := PLANNER_KIND_SLOW_RECONFIGURATION in
  if negb (bool_decide (tick i = TICK_KIND_SLOW)) then wrongTickDirectiveEvidence i kind (requestedSlowActions d) else
  let autoRebind := hasUnhealthyBoundDevice i in
  let autoRecreate := hasFailedSandbox i in
  if negb (autoRebind || autoRecreate || AllowRebind d || AllowRecreate d) then [] else
  let utility := normalizePlannerUtilityConfig config in
  let found := activeAdaptiveTargetsWithFreshness i in
  unusable_targets i kind found ++
  concat ((λ t, concat (reconfiguration_proposal i utility t <$>
    [(targetHasUnhealthyDevice i t || AllowRebind d, ACTION_TYPE_REBIND, ut_Rebind utility, rebindPurpose i t);
     (autoRecreate && among (sb_state (tg_sandbox t)) [RUNTIME_STATE_FAILED] || AllowRecreate d, ACTION_TYPE_RECREATE, ut_Recreate utility,
      PLAN_PURPOSE_RECOVERY)])) <$> found.1.1).

End Planners.
