(* ===== verification/AdaptiveArbitration.v ===== *)
(** * Arbitration and coordination ([scheduler-go/scheduler/adaptive_arbitration.go], [adaptive_coordinator.go])

    The coordinator runs the planners of the tick, the arbitration chooses compatible
    proposals within the budget and merges their plans.  The proposals are an array that
    the arbitration marks as it goes; a proposal is named by its index.  The pointers of an
    input are not nil: [EvaluateAdaptive] has checked them. *)

From Stdlib Require Import ZArith Lia Ascii.
From S2P Require Import Prelude GoStrings GoTime GoFloat Semantics Evaluator ClusterModel SchedulerState Mutation Preemption Reservation Transaction Intents Projection PhaseGraph Validation ActionPolicy SchedulerCore AdaptiveModel AdaptiveSignals AdaptiveTargets AdaptivePlanners.
From stdpp Require Import options.

Local Open Scope Z_scope.

(** ** The budget in the evidence *)

Definition budget_fields (b : PlannerBudgetConfig) : list SemanticField :=
  [semanticIntField "planner.budget.max_actions" (MaxActions b);
   semanticIntField "planner.budget.max_affected_sandboxes" (MaxAffectedSandboxes b);
   semanticIntField "planner.budget.max_gpu_reconfigurations" (MaxGPUReconfigurations b);
   semanticIntField "planner.budget.max_recovery_cost_nanos" (MaxRecoveryCostNanos b);
   semanticBoolField "planner.budget.l4_disabled" (DisableL4 b)].

Definition annotateArbitrationBudget (b : PlannerBudgetConfig) (proposals : list PlannerProposal) : list PlannerProposal :=
  (λ p, p <| pp_Evidence := (pp_Evidence p) <| pe_inputs := sort_fields (pe_inputs (pp_Evidence p) ++ budget_fields b) |> |>) <$> proposals.

(** ** The order of the proposals *)

(** A pause that a blocking contract asks for. *)
Definition blocking_field (f : SemanticField) : bool :=
  bool_decide (field_key f = "planner.contract_blocking") && default false (field_value f ≫= as_bool).

Definition plannerPriority (p : PlannerProposal) : Z :=
  let e := pp_Evidence p in
  if bool_decide (pe_action_type e = ACTION_TYPE_PAUSE) && existsb blocking_field (pe_inputs e) then 0 else
  match from_option purpose PLAN_PURPOSE_UNKNOWN (pp_Plan p) with
  | PLAN_PURPOSE_RECOVERY => 1
  | PLAN_PURPOSE_PREEMPTION => 2
  | PLAN_PURPOSE_ADMISSION => 3
  | PLAN_PURPOSE_REBALANCE => 4
  | _ => 5
  end.

Definition PlannerKind_number (k : PlannerKind) : Z :=
  match k with
  | PLANNER_KIND_UNKNOWN => 0 | PLANNER_KIND_ADMISSION => 1 | PLANNER_KIND_FAST_MUTATION => 2 | PLANNER_KIND_MEDIUM_LIFECYCLE => 3
  | PLANNER_KIND_SLOW_RECONFIGURATION => 4
  end.

Definition by_evidence {A} (less : A → A → bool) (f : PlannerEvidence → A) (a b : PlannerProposal) : bool :=
  less (f (pp_Evidence a)) (f (pp_Evidence b)).

Definition proposal_less : PlannerProposal → PlannerProposal → bool :=
  lex_less (λ a b, plannerPriority a <? plannerPriority b)
    (lex_less (by_evidence (λ u v, v <? u) utility_nanos)
      (lex_less (by_evidence Z.ltb (λ e, PlannerKind_number (planner e)))
        (lex_less (by_evidence Z.ltb (λ e, ActionType_number (pe_action_type e)))
          (lex_less (by_evidence str_ltb pe_target_id) (by_evidence str_ltb proposal_id))))).

(** The indices in order, each with its proposal. *)
Definition ordered_proposals (proposals : list PlannerProposal) : list (nat * PlannerProposal) :=
  sort_by (λ a b, proposal_less a.2 b.2) (imap pair proposals).

(** ** What a proposal costs and touches *)

Inductive planMergeClass := planMergeUnknown | planMergeAdmission | planMergeLifecycle | planMergeExclusive.

#[export] Instance planMergeClass_eq_dec : EqDecision planMergeClass.
Proof. solve_decision. Defined.

Definition merges_with_others (t : ActionType) : bool :=
  bool_decide (t ∈ [ACTION_TYPE_SET_SHARE; ACTION_TYPE_SET_PRIORITY; ACTION_TYPE_PAUSE; ACTION_TYPE_RESUME; ACTION_TYPE_SLEEP;
                    ACTION_TYPE_OFFLOAD]).

Definition classifyPlanMerge (plan : PlacementPlan) : planMergeClass :=
  if bool_decide (length (actions plan) = 0%nat) then planMergeUnknown
  else if bool_decide (purpose plan = PLAN_PURPOSE_ADMISSION) then planMergeAdmission
  else if forallb (λ a, merges_with_others (action_type_of a)) (actions plan) then planMergeLifecycle else planMergeExclusive.

Record proposalBudgetCost := mkCost { cost_actions : Z; gpuReconfigurations : Z; recoveryCost : Z; containsL4 : bool }.

Definition is_L4 (a : option Action) : bool := bool_decide (level_of (action_type_of a) = ACTION_LEVEL_L4).

(** The last positive cost among the inputs. *)
Definition recovery_cost_of (inputs : list SemanticField) : Z :=
  foldl (λ cost f, if bool_decide (field_key f = "planner.cost_recovery_nanos")
                   then match field_value f with Some (Int64Value v) => if 0 <? v then v else cost | _ => cost end
                   else cost) 0 inputs.

Definition proposalCost (plan : PlacementPlan) (e : PlannerEvidence) : proposalBudgetCost :=
  mkCost (Z.of_nat (length (actions plan))) (Z.of_nat (length (filter (λ a, is_L4 a = true) (actions plan))))
    (recovery_cost_of (pe_inputs e)) (existsb is_L4 (actions plan)).

Definition actionTarget (a : option Action) : string :=
  match a with
  | Some a => if bool_decide (ac_sandbox_id a = "") then target_id a else ac_sandbox_id a
  | None => ""
  end.

Definition proposal_targets (plan : PlacementPlan) : gset string := list_to_set (actionTarget <$> actions plan) ∖ {[ "" ]}.

Definition countNewTargets (plan : PlacementPlan) (selected : gset string) : Z := Z.of_nat (size (proposal_targets plan ∖ selected)).

Definition compatibleSameTargetActions (l r : ActionType) : bool :=
  bool_decide (l = ACTION_TYPE_SET_SHARE) && bool_decide (r = ACTION_TYPE_SET_PRIORITY) ||
  bool_decide (l = ACTION_TYPE_SET_PRIORITY) && bool_decide (r = ACTION_TYPE_SET_SHARE).

Definition actions_conflict (a b : option Action) : bool :=
  bool_decide (actionTarget a = actionTarget b) && negb (compatibleSameTargetActions (action_type_of a) (action_type_of b)).

Definition plans_conflict (plan existing : PlacementPlan) : bool :=
  existsb (λ a, existsb (actions_conflict a) (actions existing)) (actions plan).

(** ** Arbitration *)

(** What has been selected: the indices with their plans, and what they add up to. *)
Record Selection := mkSelection {
  selected : list (nat * PlacementPlan);
  selectedPurpose : PlanPurpose;
  selectedClass : planMergeClass;
  sel_targets : gset string;
  sel_actions : Z;
  sel_reconfigurations : Z;
  sel_cost : Z;
}.

Definition no_selection : Selection := mkSelection [] PLAN_PURPOSE_UNKNOWN planMergeUnknown ∅ 0 0 0.

(** Why a proposal has to wait. *)
Definition deferral (b : PlannerBudgetConfig) (st : Selection) (plan : PlacementPlan) (cost : proposalBudgetCost) : option string :=
  if negb (bool_decide (selectedPurpose st = PLAN_PURPOSE_UNKNOWN)) && negb (bool_decide (purpose plan = selectedPurpose st))
  then Some "INCOMPATIBLE_PLAN_PURPOSE"
  else if MaxActions b <? sel_actions st + cost_actions cost then Some "PER_TICK_ACTION_BUDGET"
  else if MaxAffectedSandboxes b <? Z.of_nat (size (sel_targets st)) + countNewTargets plan (sel_targets st) then Some "AFFECTED_SANDBOX_BUDGET"
  else if MaxGPUReconfigurations b <? sel_reconfigurations st + gpuReconfigurations cost then Some "GPU_RECONFIGURATION_BUDGET"
  else if containsL4 cost && DisableL4 b then Some "L4_DISABLED_BY_BUDGET"
  else if (MaxRecoveryCostNanos b <? sel_cost st) || (MaxRecoveryCostNanos b - sel_cost st <? recoveryCost cost) then Some "RECOVERY_COST_BUDGET"
  else if negb (bool_decide (length (selected st) = 0%nat)) &&
          (bool_decide (selectedClass st = planMergeExclusive) || negb (bool_decide (classifyPlanMerge plan = selectedClass st)))
  then Some "INCOMPATIBLE_TRANSACTION_SHAPE"
  else if existsb (λ s, plans_conflict plan s.2) (selected st) then Some "TARGET_CONFLICT"
  else None.

Definition select_plan (index : nat) (plan : PlacementPlan) (cost : proposalBudgetCost) (st : Selection) : Selection :=
  mkSelection (selected st ++ [(index, plan)]) (purpose plan) (classifyPlanMerge plan) (sel_targets st ∪ proposal_targets plan)
    (sel_actions st + cost_actions cost) (sel_reconfigurations st + gpuReconfigurations cost) (sel_cost st + recoveryCost cost).

Definition deferProposal (why : string) (p : PlannerProposal) : PlannerProposal :=
  mkProposal None ((pp_Evidence p) <| disposition := PLANNER_DISPOSITION_DEFERRED |> <| pe_reason := why |>).

Definition mark_selected (p : PlannerProposal) : PlannerProposal :=
  p <| pp_Evidence := (pp_Evidence p) <| disposition := PLANNER_DISPOSITION_SELECTED |> <| pe_reason := "SELECTED_BY_PRIORITY_AND_BUDGET" |> |>.

(** The plan of a proposal that may be selected. *)
Definition eligible_plan (p : PlannerProposal) : option PlacementPlan :=
  if bool_decide (disposition (pp_Evidence p) = PLANNER_DISPOSITION_REJECTED) then None else pp_Plan p.

Definition arbitrate_one (b : PlannerBudgetConfig) (st : Selection * list PlannerProposal) (entry : nat * PlannerProposal) :
    Selection * list PlannerProposal :=
  let '(index, p) := entry in
  match eligible_plan p with
  | None => st
  | Some plan =>
      let cost := proposalCost plan (pp_Evidence p) in
      match deferral b st.1 plan cost with
      | Some why => (st.1, alter (deferProposal why) index st.2)
      | None => (select_plan index plan cost st.1, alter mark_selected index st.2)
      end
  end.

(** The proposals in their order, one after the other. *)
Definition arbitrate_all (b : PlannerBudgetConfig) (proposals : list PlannerProposal) : Selection * list PlannerProposal :=
  foldl (arbitrate_one b) (no_selection, proposals) (ordered_proposals proposals).

(** Every active allocation of the stage is observed paused, or one of the actions pauses it. *)
Definition contractPauseActionsComplete (i : PlanningInput) (acts : list (option Action)) : bool :=
  let paused := (λ t, allocation_id (tg_allocation t)) <$>
    filter (λ t, sb_state (tg_sandbox t) = RUNTIME_STATE_PAUSED) (activeAdaptiveTargetsWithFreshness (without_filter i)).1.1 in
  let pausing := target_id_of <$> filter (λ a, action_type_of a = ACTION_TYPE_PAUSE) acts in
  negb (bool_decide (length (active_allocations i) = 0%nat)) &&
  forallb (λ a, bool_decide (allocation_id a ∈ paused ++ pausing)) (active_allocations i).

Definition pause_required (a : AggregateResult) : bool := Blocking a && bool_decide (Evaluator.Action a = ACTION_PAUSE_REQUIRED).

Definition contractActionSetComplete (i : PlanningInput) (plans : list PlacementPlan) : bool :=
  negb (pause_required (ContractAggregate i)) || contractPauseActionsComplete i (concat (actions <$> plans)).

(** ** Merging *)

Section Arbitration.
Context (sha256_hex : string → string).

Local Abbreviation stableID := (SchedulerCore.stableID sha256_hex).

(** An action in a merged plan: an action of another plan gets identifiers of its own. *)
Definition merged_action (planID : string) (index : nat) (a : Action) : Action :=
  let number := order_at index in
  let moved := at_place planID number a in
  if bool_decide (ac_plan_id (action_contract a) = planID) then moved
  else moved <| action_id := stableID "arbitrated-action" [planID; action_id a; FormatUint number] |>
             <| idempotency_key := stableID "arbitrated-action-idempotency" [idempotency_key a; planID; FormatUint number] |>.

Fixpoint uniqueStrings (values : list string) : list string :=
  match values with
  | a :: (b :: _) as rest => if bool_decide (a = b) then uniqueStrings rest else a :: uniqueStrings rest
  | _ => values
  end.

(** The plans have no nil actions: one would make a plan exclusive. *)
Definition mergeSelectedPlans (i : PlanningInput) (plans : list PlacementPlan) : option PlacementPlan :=
  match plans with
  | [] => None
  | base :: others =>
      let whole := match AdmissionPlan i with
                   | Some admission =>
                       if bool_decide (purpose admission = PLAN_PURPOSE_ADMISSION) &&
                          bool_decide (length plans = length (actions admission)) &&
                          forallb (λ p, bool_decide (purpose p = PLAN_PURPOSE_ADMISSION)) plans then Some admission else None
                   | None => None
                   end in
      match whole, others with
      | Some admission, _ => Some admission
      | None, [] => Some base
      | None, _ =>
          let shared := forallb (λ p, bool_decide (plan_id p = plan_id base)) others && negb (bool_decide (plan_id base = "")) in
          let planID := if shared then plan_id base
                        else stableID "arbitrated-plan" [pi_DecisionID i; FormatUint (revision (pi_Snapshot i))] in
          let acts := imap (merged_action planID) (omap id (concat (actions <$> plans))) in
          let requirements := StableCapabilityRequirements (omap id (concat (capability_requirements <$> plans))) in
          let many := (1 <? length acts)%nat in
          Some (base <| plan_id := planID |>
                     <| bindings := concat (bindings <$> plans) |>
                     <| actions := Some <$> acts |>
                     <| affected_allocation_ids := uniqueStrings (sort_strings (concat (affected_allocation_ids <$> plans))) |>
                     <| capability_requirements := Some <$>
                          (if many then StableCapabilityRequirements (requirements ++ (NewCapabilityRequirement <$> multi_action_kinds))
                           else requirements) |>
                     <| rollback_policy := if many then ROLLBACK_POLICY_REQUIRED_COMPENSATION else ROLLBACK_POLICY_NOT_REQUIRED |>)
      end
  end.

(** The indices selected, the merged plan, and the proposals as they are marked. *)
Definition arbitrateProposals (i : PlanningInput) (proposals : list PlannerProposal) (b : PlannerBudgetConfig) :
    list nat * option PlacementPlan * list PlannerProposal :=
  let '(st, marked) := arbitrate_all b proposals in
  if negb (bool_decide (length (selected st) = 0%nat)) && negb (contractActionSetComplete i (selected st).*2) then
    ([], None, foldl (λ ps index, alter (deferProposal "CONTRACT_ACTION_SET_INCOMPLETE") index ps) marked (selected st).*1)
  else ((selected st).*1, mergeSelectedPlans i (selected st).*2, marked).

End Arbitration.
