(* ===== verification/AdaptiveCoordinator.v ===== *)
(** * The coordinator and the adaptive evaluation ([scheduler-go/scheduler/adaptive_coordinator.go], [adaptive_integration.go])

    One planning round, and the evaluation that runs the placement engine, the contract,
    the round, the policy of actions and the guard one after the other.  [strconv.ParseFloat]
    and [time.ParseDuration] of a label are parameters, besides those of the parts. *)

From Stdlib Require Import ZArith Lia Ascii.
From S2P Require Import Prelude GoStrings GoTime GoFloat Protection Semantics Evaluator ClusterModel SchedulerState Mutation Preemption Reservation Transaction Intents Candidates CandidateEngine Projection PhaseGraph Validation ActionPolicy SchedulerCore AdaptiveModel AdaptiveSignals AdaptiveTargets AdaptivePlanners AdaptiveArbitration.
From stdpp Require Import options.

Local Open Scope Z_scope.

#[export] Instance eta_Scheduler : Eta Scheduler := λ s,
  mkScheduler (sc_fallback s) (sc_codeRevision s) (sc_configRevision s) (sc_dataKind s) (safePointKey s) (policyBundle s) (sc_policy s)
    (sc_guard s) (sc_preemption s).

(** ** The coordinator *)

(** The planners' part of the configuration. *)
Record PlannerConfig := mkPlannerConfig {
  PlannerEvidenceBudget : Z;
  PlannerPerTickActionBudget : Z;
  PlannerBudget : PlannerBudgetConfig;
  PlannerUtility : PlannerUtilityConfig;
  PlannerIdleSleepAfter : Z;
  PlannerIdleOffloadAfter : Z;
  PlannerSandboxMaximumAge : Z;
}.

Record Coordinator := mkCoordinator {
  evidenceBudget : Z;
  actionBudget : Z;
  co_budget : PlannerBudgetConfig;
  co_utility : PlannerUtilityConfig;
  idleSleepAfter : Z;
  idleOffloadAfter : Z;
  co_sandboxMaximumAge : Z;
}.

Definition NewCoordinator (config : PlannerConfig) : Coordinator :=
  mkCoordinator (positive_or (PlannerEvidenceBudget config) DefaultPlannerEvidenceBudget)
    (if 0 <? MaxActions (PlannerBudget config) then MaxActions (PlannerBudget config)
     else positive_or (PlannerPerTickActionBudget config) DefaultPlannerActionBudget)
    (PlannerBudget config) (normalizePlannerUtilityConfig (PlannerUtility config))
    (positive_or (PlannerIdleSleepAfter config) DefaultPlannerIdleSleepAfter)
    (positive_or (PlannerIdleOffloadAfter config) DefaultPlannerIdleOffloadAfter)
    (PlannerSandboxMaximumAge config).

Definition plannerKindForTick (t : TickKind) : PlannerKind :=
  match t with
  | TICK_KIND_FAST => PLANNER_KIND_FAST_MUTATION
  | TICK_KIND_MEDIUM => PLANNER_KIND_MEDIUM_LIFECYCLE
  | TICK_KIND_SLOW => PLANNER_KIND_SLOW_RECONFIGURATION
  | _ => PLANNER_KIND_UNKNOWN
  end.

(** All the selected proposals, then others while the budget lasts, in the order of their
    identifiers. *)
Definition projected_indices (count : nat) (budget : Z) (selected : list nat) : list nat :=
  let others := filter (λ index, index ∉ selected) (seq 0 count) in
  selected ++ take (Z.to_nat (budget - Z.of_nat (length selected))) others.

Definition projectPlannerEvidence (proposals : list PlannerProposal) (budget : Z) (selected : list nat) : list PlannerEvidence :=
  sort_by (λ a b, str_ltb (proposal_id a) (proposal_id b))
    (omap (λ index, pp_Evidence <$> proposals !! index)
       (projected_indices (length proposals) (positive_or budget DefaultPlannerEvidenceBudget) selected)).

Definition settled (p : PlannerProposal) : bool :=
  bool_decide (pe_reason (pp_Evidence p) ∈ ["ALREADY_SATISFIED"; "TICK_NOT_ELIGIBLE"]).

(** On an idle phase the thresholds have defaults. *)
Definition idle_directives (c : Coordinator) (i : PlanningInput) : PlanningInput :=
  let d := pi_Directives i in
  if bool_decide (im_phase_kind (pi_Intent i) = PHASE_KIND_IDLE) then
    i <| pi_Directives := d <| SleepAfter := if SleepAfter d =? 0 then idleSleepAfter c else SleepAfter d |>
                            <| OffloadAfter := if OffloadAfter d =? 0 then idleOffloadAfter c else OffloadAfter d |> |>
  else i.

Section Coordination.
Context (unicode_upper unicode_quote unicode_lower sha256_hex : string → string).
Context (binding_wire : Binding → string) (fields_wire : list SemanticField → string) (FormatFloat : float64 → string).

Local Abbreviation stableID := (SchedulerCore.stableID sha256_hex).

Definition named_decision (i : PlanningInput) : PlanningInput :=
  if bool_decide (TrimSpace (pi_DecisionID i) = "") then
    i <| pi_DecisionID := stableID "planner-decision"
           [snapshot_id (pi_Snapshot i); FormatUint (revision (pi_Snapshot i)); in_execution_id (core i); in_stage_id (core i);
            FormatUint (decision_sequence (pi_Context i)); FormatUint (deterministic_seed (pi_Intent i))] |>
  else i.

(** The input the planners are given. *)
Definition prepare (c : Coordinator) (i : PlanningInput) : Result ValidationError PlanningInput :=
  let ctx := pi_Context i in
  _ ← check (bool_decide (is_Some (evaluation_time ctx)) && negb (decision_sequence ctx =? 0) &&
             negb (bool_decide (tick_kind ctx = TICK_KIND_UNKNOWN)))
        "planning_input.evaluation_context" "requires evaluation_time, decision_sequence, and tick_kind";
  let i := (clonePlanningInput i) <| sandboxMaximumAge := positive_or (co_sandboxMaximumAge c) (defaultSandboxMaximumAge (tick_kind ctx)) |>
                                  <| sandboxFutureSkew := DefaultPlannerSandboxFutureSkew |> in
  i ← lift_text "planning_input.signals" (normalizePlanningSignals unicode_upper unicode_quote i (actionBudget c));
  Ok (named_decision (idle_directives c i)).

(** What the planners of the tick propose. *)
Definition tick_proposals (c : Coordinator) (i : PlanningInput) : list PlannerProposal :=
  let u := co_utility c in
  AdmissionPlanner_Propose sha256_hex fields_wire u i ++
  match tick i with
  | TICK_KIND_FAST => FastMutationPlanner_Propose unicode_quote unicode_lower sha256_hex binding_wire fields_wire FormatFloat u i
  | TICK_KIND_MEDIUM => MediumLifecyclePlanner_Propose unicode_lower sha256_hex binding_wire fields_wire FormatFloat u i
  | TICK_KIND_SLOW => SlowReconfigurationPlanner_Propose unicode_quote unicode_lower sha256_hex binding_wire fields_wire FormatFloat u i
  | _ => []
  end.

Definition round_budget (c : Coordinator) (i : PlanningInput) : PlannerBudgetConfig :=
  normalizePlannerBudget (co_budget c) (default 0 (sg_PerTickActionBudget (pi_Signals i))).

(** The result of a round; a round without a proposal leaves evidence that nothing was asked. *)
Definition concluded (c : Coordinator) (i : PlanningInput) (proposals : list PlannerProposal)
    (arbitrated : list nat * option PlacementPlan * list PlannerProposal) : PlannerResult :=
  let '(selected, plan, marked) := arbitrated in
  let count := Z.of_nat (length proposals) in
  let shown := if bool_decide (length proposals = 0%nat) then
                 [mkProposal None (plannerEvidence sha256_hex fields_wire i (plannerKindForTick (tick i)) PLAN_PURPOSE_RECONCILIATION
                                     ACTION_TYPE_UNKNOWN "" 0 PLANNER_DISPOSITION_DEFERRED "CONVERGED_NO_TRIGGER" [])]
               else marked in
  let evidence := projectPlannerEvidence shown (evidenceBudget c) selected in
  mkPlannerResult (if bool_decide (length selected = 0%nat) then None else plan) evidence count
    (Z.of_nat (length evidence) <? count)
    (if bool_decide (length selected = 0%nat) && negb (bool_decide (length proposals = 0%nat)) && negb (forallb settled proposals)
     then "NO_ELIGIBLE_PLANNER_PROPOSAL" else "").

Definition Plan (c : Coordinator) (i : PlanningInput) : Result ValidationError PlannerResult :=
  i ← prepare c i;
  let budget := round_budget c i in
  let proposals := annotateArbitrationBudget budget (tick_proposals c i) in
  Ok (concluded c i proposals (arbitrateProposals sha256_hex i proposals budget)).

End Coordination.

(** ** Directives in labels *)

Section Labels.
Context (unicode_lower : string → string) (ParseFloat : string → option float64) (ParseDuration : string → option Z).

Definition parse_label {A} (labels : gmap string string) (key : string) (parse : string → option A) (complaint : string) :
    Result string (option A) :=
  match labels !! key with
  | None => Ok None
  | Some raw => match parse raw with Some a => Ok (Some a) | None => Err (key +:+ complaint) end
  end.

Definition guarded_parse {A} (parse : string → option A) (accept : A → bool) (raw : string) : option A :=
  a ← parse raw; if accept a then Some a else None.

Definition parse_flag (labels : gmap string string) (key : string) : Result string bool :=
  default false <$> parse_label labels key (λ raw, if bool_decide (raw = "true") then Some true
                                                  else if bool_decide (raw = "false") then Some false else None)
    " must be true or false".

Definition parse_after (labels : gmap string string) (key : string) : Result string Z :=
  default 0 <$> parse_label labels key (guarded_parse ParseDuration (λ v, 0 <? v)) " must be a positive duration".

Definition parse_state (raw : string) : option RuntimeState :=
  let v := ToLower unicode_lower raw in
  if bool_decide (v = "running") then Some RUNTIME_STATE_RUNNING else if bool_decide (v = "paused") then Some RUNTIME_STATE_PAUSED
  else if bool_decide (v = "sleeping") then Some RUNTIME_STATE_SLEEPING else None.

(** [strconv.ParseInt(raw, 10, 32)] *)
Definition ParseInt32 : string → option Z := guarded_parse Atoi (λ v, (-2147483648 <=? v) && (v <=? 2147483647)).

Definition finite_share (v : float64) : bool := negb (IsNaN v || IsInf v || fltb v f0 || fltb f1 v).

Definition parseCompatibilityDirectives (labels : gmap string string) : Result string Directives :=
  share ← parse_label labels "tgsrl.io/adaptive.target-share" (guarded_parse ParseFloat finite_share) " must be finite within [0,1]";
  priority ← parse_label labels "tgsrl.io/adaptive.target-priority" ParseInt32 " must be an int32";
  resize ← parse_flag labels "tgsrl.io/adaptive.allow-resize";
  scaleIn ← parse_flag labels "tgsrl.io/adaptive.allow-scale-in";
  rebind ← parse_flag labels "tgsrl.io/adaptive.allow-rebind";
  recreate ← parse_flag labels "tgsrl.io/adaptive.allow-recreate";
  offload ← parse_flag labels "tgsrl.io/adaptive.allow-offload";
  sleepAfter ← parse_after labels "tgsrl.io/adaptive.sleep-after";
  offloadAfter ← parse_after labels "tgsrl.io/adaptive.offload-after";
  state ← parse_label labels "tgsrl.io/adaptive.target-state" parse_state " must be running, paused, or sleeping";
  Ok (no_directives <| TargetShare := share |> <| TargetPriority := priority |> <| AllowResize := resize |> <| AllowScaleIn := scaleIn |>
        <| AllowRebind := rebind |> <| AllowRecreate := recreate |> <| AllowOffload := offload |> <| SleepAfter := sleepAfter |>
        <| OffloadAfter := offloadAfter |> <| DesiredState := default RUNTIME_STATE_UNKNOWN state |>).

Definition directivesEmpty (d : Directives) : bool :=
  negb (is_given (TargetShare d) || is_given (TargetPriority d) || is_given (TargetResources d)) &&
  bool_decide (ResizeResources d = ∅) && bool_decide (map_to_list (ReplacementBindings d) = []) &&
  bool_decide (SandboxByAllocation d = ∅) && bool_decide (TargetSandboxIDs d = []) && desires d RUNTIME_STATE_UNKNOWN &&
  negb (AllowPause d || AllowResume d || AllowSleep d || AllowOffload d || AllowResize d || AllowScaleIn d || AllowRebind d ||
        AllowRecreate d) && (SleepAfter d =? 0) && (OffloadAfter d =? 0) && (MinimumUtilityNanos d =? 0).

(** The caller's directives; the labels' when there are none. *)
Definition resolve_directives (given : Directives) (labels : gmap string string) : Result string Directives :=
  if directivesEmpty given then parseCompatibilityDirectives labels else Ok (cloneDirectives given).

End Labels.

(** ** The record of a decision *)

Definition applyPlannerResult (result : PlannerResult) (r : DecisionRecord) : DecisionRecord :=
  r <| planner_evidence := res_Evidence result |> <| total_planner_proposal_count := TotalProposalCount result |>
    <| planner_evidence_truncated := res_EvidenceTruncated result |>.

Definition was_selected (e : PlannerEvidence) : bool := bool_decide (disposition e = PLANNER_DISPOSITION_SELECTED).

Definition selectedPlannerUtility (r : DecisionRecord) : Z :=
  foldl (λ u e, if was_selected e then saturatingUtilityAdd u (utility_nanos e) else u) 0 (planner_evidence r).

(** The mean score of the candidates whose bindings the plan has. *)
Definition selectedAdmissionScore (r : DecisionRecord) (plan : PlacementPlan) : float64 :=
  if negb (bool_decide (purpose plan = PLAN_PURPOSE_ADMISSION)) then f0 else
  let ids := binding_id <$> omap id (bindings plan) in
  let in_plan (c : PlacementCandidate) :=
    existsb (λ b, bool_decide (from_option binding_id "" b ∈ ids)) (from_option bindings [] (cand_plan c)) in
  let scores := cand_score <$> filter (λ c, in_plan c = true) (dr_candidates r) in
  if bool_decide (length scores = 0%nat) then f0
  else roundScore (fdiv (foldl fadd f0 scores) (f_of_Z (Z.of_nat (length scores)))).

Definition markSelectedPlannerRejected (why : string) (fields : list SemanticField) (r : DecisionRecord) : DecisionRecord :=
  r <| planner_evidence :=
         (λ e, if was_selected e
               then e <| disposition := PLANNER_DISPOSITION_REJECTED |> <| pe_reason := why |> <| pe_inputs := sort_fields (pe_inputs e ++ fields) |>
               else e) <$> planner_evidence r |>.

Definition guardEvidence (g : Guard) (why : string) : list SemanticField :=
  [semanticStringField "planner.guard.reason" why;
   semanticIntField "planner.guard.cooldown_nanos" (Cooldown (cfg g));
   semanticDoubleField "planner.guard.hysteresis" (Hysteresis (cfg g));
   semanticIntField "planner.guard.max_actions_per_window" (MaxActionsPerWindow (cfg g))].

(** ** The adaptive evaluation *)

Record AdaptiveScheduler := mkAdaptive { ad_scheduler : Scheduler; ad_coordinator : Coordinator }.

(** What [EvaluateAdaptive] reads of its input; [None] for a pointer that is nil. *)
Record AdaptiveEvaluationInput := mkAdaptiveInput {
  ai_Snapshot : option ClusterSnapshot;
  ai_Intent : option IntentMessage;
  ai_Context : option EvaluationContext;
  ai_Sandboxes : list ObservedSandbox;
  ai_RecentDecisions : list DecisionRecord;
  ai_SafePoint : SafePointResolution;
  ai_Aggregate : AggregateResult;
  ai_Directives : Directives;
  ai_Signals : PlanningSignals;
}.

#[export] Instance AggregateResult_eq_dec : EqDecision AggregateResult.
Proof. solve_decision. Defined.

Definition no_aggregate : AggregateResult := mkAggregate false ACTION_UNKNOWN "" "".

(** The input of the round for a resolved contract. *)
Definition round_input (input : AdaptiveEvaluationInput) (snapshot : ClusterSnapshot) (intent : IntentMessage) (ctx : EvaluationContext)
    (safe : SafePointResolution) (aggregate : AggregateResult) (d : Directives) (admission : option PlacementPlan) (decisionID : string) :
    PlanningInput :=
  mkPlanning snapshot intent ctx (ai_Sandboxes input) (ai_RecentDecisions input) safe aggregate d (ai_Signals input) 0 0 admission decisionID.

(** The input as it was given: what the check of a required pause looks at. *)
Definition own_input (input : AdaptiveEvaluationInput) (snapshot : ClusterSnapshot) (intent : IntentMessage) : PlanningInput :=
  round_input input snapshot intent (default empty_context (ai_Context input)) (ai_SafePoint input) (ai_Aggregate input)
    (cloneDirectives (ai_Directives input)) None "".

Definition plannerResultSatisfiesPause (i : PlanningInput) (plan : option PlacementPlan) : bool :=
  let acts := from_option actions [] plan in
  forallb (λ a, bool_decide (action_type_of a = ACTION_TYPE_PAUSE)) acts && contractPauseActionsComplete i acts.

Section Adaptive.
Context (unicode_upper unicode_quote unicode_quote_ascii unicode_lower : string → string).
Context (timestamp_error : Timestamp → string) (duration_error : Duration → string).
Context (sha256_hex : string → string) (contract_wire : ContractMessage → Result string string).
Context (order_of : gset string → list string).
Context (ValueString : SemanticValue → string) (digest : string → ContractEvaluation → string).
Context (binding_wire : Binding → string) (fields_wire : list SemanticField → string) (FormatFloat : float64 → string).
Context (ParseFloat : string → option float64) (ParseDuration : string → option Z).

Local Abbreviation stableID := (SchedulerCore.stableID sha256_hex).
Local Abbreviation Plan := (Plan unicode_upper unicode_quote unicode_lower sha256_hex binding_wire fields_wire FormatFloat).
Local Abbreviation fallbackResult := (SchedulerCore.fallbackResult unicode_lower sha256_hex).
Local Abbreviation EvaluateWithContext :=
  (SchedulerCore.EvaluateWithContext unicode_quote unicode_quote_ascii unicode_lower timestamp_error duration_error sha256_hex contract_wire
     order_of ValueString digest).

(** The safe point, the aggregate and the evaluations; what the caller gives is kept. *)
Definition resolveAdaptiveContract (s : Scheduler) (input : AdaptiveEvaluationInput) (snapshot : ClusterSnapshot) (intent : IntentMessage)
    (ctx : EvaluationContext) : Result SchedulerError (SafePointResolution * AggregateResult * list ContractEvaluation) :=
  let safe := if sp_present (ai_SafePoint input) then ai_SafePoint input
              else ResolveSafePoint (Some (snapshot_view snapshot)) (Some (intent_view intent)) (Some ctx) (safePointKey s) in
  match evaluateContract unicode_quote unicode_lower ValueString digest snapshot intent ctx safe with
  | Err e => Err (InvalidContract e)
  | Ok (evals, derived) =>
      Ok (safe, if bool_decide (ai_Aggregate input = no_aggregate) then derived else ai_Aggregate input, evals)
  end.

Definition invalid_labels {A} (r : Result string A) : Result SchedulerError A :=
  match r with Ok a => Ok a | Err text => Err (Invalid (mkInvalid "intent.labels" text)) end.

(** The contract, the directives and the round. *)
Definition coordinate (s : AdaptiveScheduler) (input : AdaptiveEvaluationInput) (snapshot : ClusterSnapshot) (intent : IntentMessage)
    (ctx : EvaluationContext) (admission : option PlacementPlan) (decisionID : string) :
    Result SchedulerError (PlannerResult * AggregateResult * list ContractEvaluation) :=
  resolved ← resolveAdaptiveContract (ad_scheduler s) input snapshot intent ctx;
  let '(safe, aggregate, evals) := resolved in
  d ← invalid_labels (resolve_directives unicode_lower ParseFloat ParseDuration (cloneDirectives (ai_Directives input)) (im_labels intent));
  result ← lift_invalid (Plan (ad_coordinator s) (round_input input snapshot intent ctx safe aggregate d admission decisionID));
  Ok (result, aggregate, evals).

(** The policy of actions and the guard have the last word on a plan. *)
Definition vetted (s : Scheduler) (later : Z) (snapshot : ClusterSnapshot) (intent : IntentMessage) (ctx : EvaluationContext) (now : Z)
    (plan : PlacementPlan) (r granted : DecisionRecord) : PlacementPlan * DecisionRecord :=
  match validateActionPlan unicode_quote unicode_lower plan ctx with
  | Err text =>
      let why := "ACTION_POLICY_" +:+ text in
      fallbackResult s snapshot intent now (markSelectedPlannerRejected why [] r) why
  | Ok _ =>
      match CheckN (sc_guard s) later (guard_key intent) (fdiv (f_of_Z (selectedPlannerUtility r)) (f_of_Z 1000000000))
              (Z.of_nat (length (actions plan))) with
      | Denied reason =>
          let why := "PROTECTION_" +:+ Reason_text reason in
          fallbackResult s snapshot intent now (markSelectedPlannerRejected why (guardEvidence (sc_guard s) (Reason_text reason)) r) why
      | Allowed => (plan, granted)
      end
  end.

(** There is work to place: the placement engine's plan enters the round. *)
Definition adaptive_admission (s : AdaptiveScheduler) (readings : Readings) (later : Z) (input : AdaptiveEvaluationInput)
    (snapshot : ClusterSnapshot) (intent : IntentMessage) : Result SchedulerError Outcome :=
  outcome ← EvaluateWithContext (ad_scheduler s) readings (Some snapshot) (Some intent) (ai_Context input);
  let '(plan, r, guard) := outcome in
  let ctx := evaluation_context r in
  let now := AsTime (evaluation_time ctx) in
  let core := ad_scheduler s in
  coordinated ← coordinate s input snapshot intent ctx (Some plan) (decision_id r);
  let '(result, aggregate, evals) := coordinated in
  let r := applyPlannerResult result r in
  let blocked := fallbackResult core snapshot intent now (appendBlockingContractRejections sha256_hex evals r) (contractFallbackReason aggregate) in
  let '(plan, r) :=
    match res_Plan result with
    | None =>
        if Blocking aggregate then blocked
        else if negb (bool_decide (res_FallbackReason result = "")) then fallbackResult core snapshot intent now r (res_FallbackReason result)
        else (plan, r)
    | Some coordinated =>
        if Blocking aggregate && negb (plannerResultSatisfiesPause (own_input input snapshot intent) (Some coordinated)) then blocked
        else vetted (core <| sc_guard := guard |>) later snapshot intent ctx now coordinated r
               (r <| selected_plan := Some coordinated |> <| fallback := false |> <| fallback_reason := "" |>
                  <| dr_score := selectedAdmissionScore r coordinated |>)
    end in
  Ok (plan, r, guard).

(** Nothing is to be placed: the round has the runtime to itself. *)
Definition adaptive_runtime (s : AdaptiveScheduler) (readings : Readings) (input : AdaptiveEvaluationInput) (snapshot : ClusterSnapshot)
    (intent : IntentMessage) : Result SchedulerError Outcome :=
  let core := ad_scheduler s in
  n ← lift_invalid (normalizeEvaluationContext unicode_lower timestamp_error readings (ai_Context input));
  let '(ctx, now, sequence) := n in
  if expired intent now then EvaluateWithContext core readings (Some snapshot) (Some intent) (Some ctx) else
  let i := im_core intent in
  let decisionID := stableID "decision" [snapshot_id snapshot; FormatUint (revision snapshot); in_execution_id i; in_stage_id i;
                                         FormatUint (in_version i); FormatUint sequence] in
  let r := (initial_record unicode_lower core snapshot intent ctx now sequence decisionID) <| decided_at := evaluation_time ctx |> in
  coordinated ← coordinate s input snapshot intent ctx None decisionID;
  let '(result, aggregate, evals) := coordinated in
  let r := applyPlannerResult result (r <| contract_evaluations := evals |>) in
  let '(plan, r) :=
    if Blocking aggregate && negb (plannerResultSatisfiesPause (own_input input snapshot intent) (res_Plan result)) then
      fallbackResult core snapshot intent now (appendBlockingContractRejections sha256_hex evals r) (contractFallbackReason aggregate)
    else
    match res_Plan result with
    | None =>
        if bool_decide (res_FallbackReason result = "") then
          let plan := SchedulerCore.makeConvergedPlan sha256_hex decisionID snapshot intent ctx in (plan, r <| selected_plan := Some plan |>)
        else fallbackResult core snapshot intent now r (res_FallbackReason result)
    | Some plan => vetted core (rd_guard readings) snapshot intent ctx now plan r (r <| selected_plan := Some plan |>)
    end in
  Ok (plan, r, sc_guard core).

(** [later] is the guard's clock at its second reading. *)
Definition EvaluateAdaptive (s : AdaptiveScheduler) (readings : Readings) (later : Z) (input : AdaptiveEvaluationInput) :
    Result SchedulerError Outcome :=
  match ai_Snapshot input, ai_Intent input with
  | Some snapshot, Some intent =>
      _ ← lift_invalid (validateSnapshot unicode_lower timestamp_error snapshot);
      _ ← lift_invalid (validateIntent unicode_lower timestamp_error duration_error sha256_hex contract_wire order_of intent);
      let active := activeAllocationCount (own_input input snapshot intent) in
      match workUnits sha256_hex snapshot (im_core intent) with
      | Ok [] => adaptive_runtime s readings input snapshot intent
      | Ok _ => adaptive_admission s readings later input snapshot intent
      | Err (why, _) =>
          if bool_decide (why = FallbackReasonPendingCount) && (unit_count (im_core intent) <? active)
          then adaptive_runtime s readings input snapshot intent else adaptive_admission s readings later input snapshot intent
      end
  | _, _ => Err (Invalid (mkInvalid "adaptive_input" "snapshot and intent are required"))
  end.

End Adaptive.
