(* ===== verification/PlanProofs.v ===== *)
(** * The plans the scheduler makes pass their validation ([scheduler-go/scheduler])

    An admission built by [makePlan] is accepted by [actionpolicy.ValidatePlan], and the
    plan of a preemption by the preemption validator, whatever was selected; the parts
    an identifier is derived from can be read back from what is hashed. *)

From Stdlib Require Import ZArith Lia Ascii.
From S2P Require Import Prelude GoStrings GoTime GoFloat Protection SemVer Semantics ComponentRegistry Evaluator ClusterModel SchedulerState Mutation Preemption Reservation Transaction Intents Constraints Candidates CandidateEngine Policies PhaseGraph Validation ActionPolicy ActionPolicyProofs SchedulerCore.
From stdpp Require Import options.

Local Open Scope Z_scope.

(** ** Framed parts *)

Lemma framed_cons part parts :
  framed (part :: parts) = FormatUint (Z.of_nat (String.length part)) +:+ String ":" (part +:+ framed parts).
Proof. unfold framed. cbn [fmap list_fmap]. rewrite concat_cons, !append_assoc. done. Qed.

(** What identifiers are derived from is unambiguous: two lists of parts that are
    written alike before they are hashed are the same list. *)
Theorem framed_injective xs ys : framed xs = framed ys → xs = ys.
Proof.
  assert (Hnil : ∀ x l, framed [] ≠ framed (x :: l)).
  { intros x l. rewrite framed_cons. by destruct (FormatUint _). }
  revert ys. induction xs as [|x xs IH]; intros [|y ys] H; [done|by apply Hnil in H|by symmetry in H; apply Hnil in H|].
  rewrite !framed_cons in H. apply (f_equal (λ s, Cut s ":"%char)) in H. rewrite !Cut_app in H by (apply FormatUint_free; lia).
  injection H as Hl H. apply FormatUint_inj in Hl; [|lia..]. apply Nat2Z.inj in Hl.
  destruct (app_length_inj _ _ _ _ Hl H) as [-> ->%IH]. done.
Qed.

(** ** Provider capabilities *)

Definition dash (s : string) : string := replace_byte "-"%char "_"%char s.

Lemma dash_char c : ascii_lower (if Ascii.eqb c "-" then "_"%char else c) =
  (if Ascii.eqb (ascii_lower c) "-" then "_"%char else ascii_lower c).
Proof. by destruct c as [[] [] [] [] [] [] [] []]. Qed.

Lemma dash_code c : (code (if Ascii.eqb c "-" then "_"%char else c) <? 128) = (code c <? 128).
Proof. by destruct (Ascii.eqb_spec c "-") as [->|]. Qed.

Lemma dash_ascii s : is_ascii (dash s) = is_ascii s.
Proof.
  unfold is_ascii, all_chars, dash, replace_byte. rewrite chars_unchars. induction (chars s) as [|c l IH]; [done|].
  cbn -[Z.ltb code]. by rewrite IH, dash_code.
Qed.

Lemma dash_lower s : dash (lower_ascii s) = lower_ascii (dash s).
Proof.
  unfold dash, lower_ascii, replace_byte. rewrite !chars_unchars. f_equal. induction (chars s) as [|c l IH]; [done|].
  cbn -[ascii_lower Ascii.eqb]. by rewrite IH, dash_char.
Qed.

Section Plans.
Context (unicode_quote unicode_quote_ascii unicode_lower : string → string) (sha256_hex : string → string).

(** [strings.ToLower] maps rune by rune and leaves the two ASCII signs alone. *)
Context (lower_dash : ∀ s, is_ascii s = false → unicode_lower (dash s) = dash (unicode_lower s)).

(** The candidate engine lowers first, the policy of actions replaces first. *)
Lemma normalize_same v : Candidates.normalizeAction unicode_lower v = ActionPolicy.normalizeName unicode_lower v.
Proof using lower_dash.
  unfold Candidates.normalizeAction, ActionPolicy.normalizeName. fold (dash (TrimSpace v)). fold (dash (ToLower unicode_lower (TrimSpace v))).
  unfold ToLower. rewrite dash_ascii. destruct (is_ascii (TrimSpace v)) eqn:E; [apply dash_lower|by rewrite lower_dash].
Qed.

Lemma containsNormalized_same vs e :
  Candidates.containsNormalized unicode_lower vs e = ActionPolicy.containsNormalized unicode_lower vs e.
Proof using lower_dash.
  unfold Candidates.containsNormalized, ActionPolicy.containsNormalized. apply bool_decide_ext.
  rewrite normalize_same. assert (Candidates.normalizeAction unicode_lower <$> vs = ActionPolicy.normalizeName unicode_lower <$> vs) as ->; [|done].
  apply list_fmap_ext. intros ???. apply normalize_same.
Qed.

(** What an action requires of its provider names the action. *)
Lemma actionCapabilities_supports rc action :
  ActionPolicy.containsNormalized unicode_lower (supported_actions (actionCapabilities unicode_lower rc action)) action = true.
Proof using lower_dash.
  unfold actionCapabilities. cbn [supported_actions set_field]. unfold ActionPolicy.containsNormalized. apply bool_decide_eq_true.
  unfold sort_strings. rewrite sort_by_perm. destruct (Candidates.containsNormalized _ _ _) eqn:E.
  - rewrite containsNormalized_same in E. unfold ActionPolicy.containsNormalized in E. by apply bool_decide_eq_true in E.
  - rewrite fmap_app. apply elem_of_app. right. cbn. left.
Qed.

(** ** Accepting lists of actions *)

Lemma validate_actions_all plan p legacy tick allow index as_ :
  Forall (λ a, validate_plan_action unicode_lower unicode_quote plan p legacy tick allow a = Ok tt) as_ →
  validate_actions unicode_lower unicode_quote plan p legacy tick allow index (Some <$> as_) = Ok tt.
Proof.
  intros H. revert index. induction H as [|a as_ Ha _ IH]; intros index; [done|]. cbn [fmap list_fmap validate_actions].
  rewrite Ha. cbn [mbind Result_bind]. apply IH.
Qed.

Lemma order_from_all index as_ :
  (∀ n a, as_ !! n = Some a → order (action_contract a) = (index + Z.of_nat n + 1) mod two32) →
  order_from unicode_quote index (Some <$> as_) = Ok tt.
Proof.
  revert index. induction as_ as [|a as_ IH]; intros index H; [done|]. cbn [fmap list_fmap order_from].
  pose proof (H 0%nat a eq_refl) as H0. rewrite Z.add_0_r in H0. unfold check_policy. rewrite H0, Z.eqb_refl. cbn [guard_err mbind Result_bind].
  apply IH. intros n x Hx. rewrite (H (S n) x Hx). f_equal. lia.
Qed.

Lemma order_at_next n : order_at n = (0 + Z.of_nat n + 1) mod two32.
Proof. unfold order_at. f_equal. lia. Qed.

(** The purposes a plan may name. *)
Definition named_purpose (p : PlanPurpose) : Prop := match p with PLAN_PURPOSE_UNKNOWN | PLAN_PURPOSE_UNNAMED _ => False | _ => True end.

(** A plan that names its purpose is accepted with its contract, its order and its actions. *)
Lemma ValidatePlan_ok plan p t allow as_ :
  purpose plan = p → named_purpose p → t ≠ TICK_KIND_UNKNOWN → actions plan = Some <$> as_ →
  validatePlanContract unicode_quote plan p = Ok tt →
  (∀ n a, as_ !! n = Some a → order (action_contract a) = (0 + Z.of_nat n + 1) mod two32) →
  Forall (λ a, validate_plan_action unicode_lower unicode_quote plan p false t allow a = Ok tt) as_ →
  ValidatePlan unicode_lower unicode_quote (Some plan) t allow = Ok tt.
Proof.
  intros Hp Hn Ht Ha Hc Ho Hall. unfold ValidatePlan.
  assert (EffectivePurpose unicode_quote plan = Ok (p, false)) as -> by (unfold EffectivePurpose; rewrite Hp; by destruct p).
  cbn [mbind Result_bind]. rewrite (bool_decide_false (t = _)) by done. rewrite Hc. cbn [mbind Result_bind].
  unfold validateActionOrder. rewrite Ha, order_from_all by done. cbn [mbind Result_bind]. by apply validate_actions_all.
Qed.

(** Pass one check. *)
Lemma check_intro {A} b e (k : unit → Result PolicyError A) r : b = true → k tt = r → (check_policy b e ≫= k) = r.
Proof. by intros -> <-. Qed.

(** An action whose fields agree with its type's definition and its tick. *)
Lemma ValidateAction_ok a d t c allow :
  DefinitionForAction (action_type a) = Some d → level (action_contract a) = def_Level d →
  CeilingForTick t = Some c → ActionLevel_number (def_Level d) ≤ ActionLevel_number c → ac_tick_kind (action_contract a) = t →
  validatePreconditions (preconditions (action_contract a)) = true → expected_impacts (action_contract a) = def_ExpectedImpacts d →
  ValidateAction unicode_quote a t allow = Ok tt.
Proof.
  intros Hd Hl Hc Hle Ht Hp Hi. unfold ValidateAction. rewrite Hd. apply check_intro; [by apply bool_decide_eq_true|].
  rewrite Ht, Hc, bool_decide_false by (by intros ->). apply check_intro; [by rewrite (bool_decide_true (t = t)), orb_true_r|].
  apply check_intro; [rewrite Hl; by apply Z.leb_le|]. unfold validateSuppliedActionMetadata.
  apply check_intro; [by rewrite Hp, orb_true_r|]. rewrite Hi, (bool_decide_true (_ = _) eq_refl), orb_true_r. done.
Qed.

(** An action of the first level may run in every tick. *)
Lemma ValidateAction_L1 a d t allow :
  DefinitionForAction (action_type a) = Some d → level (action_contract a) = def_Level d → def_Level d = ACTION_LEVEL_L1 →
  is_Some (CeilingForTick t) → ac_tick_kind (action_contract a) = t →
  validatePreconditions (preconditions (action_contract a)) = true → expected_impacts (action_contract a) = def_ExpectedImpacts d →
  ValidateAction unicode_quote a t allow = Ok tt.
Proof.
  intros Hd Hl H1 [c Hc] Ht. apply (ValidateAction_ok a d t c); try done. rewrite H1. destruct t; try done; by injection Hc as <-.
Qed.

Lemma ValidateRollback_ok a d r :
  DefinitionForAction (action_type a) = Some d → action_rollback a = Some r → rb_action_type r = CompensationType d →
  rb_target_id r ≠ "" →
  rb_target_id r = (if bool_decide (action_type a = ACTION_TYPE_BIND) then from_option binding_id "" (action_binding a) else ac_sandbox_id a) →
  bool_decide (is_Some (restore_binding r)) = CompensationNeedsBinding d →
  ValidateRollback unicode_quote a = Ok tt.
Proof.
  intros Hd Hr Ht Hne Hw Hb. unfold ValidateRollback. rewrite Hd, Hr. apply check_intro; [by apply bool_decide_eq_true|]. cbv zeta.
  apply check_intro; [|unfold check_policy; by rewrite Hb, eqb_reflx].
  destruct (bool_decide (action_type a = ACTION_TYPE_BIND)).
  - rewrite <-Hw, bool_decide_false, bool_decide_true by done. done.
  - assert (ac_sandbox_id a ≠ "") as Hs by congruence. rewrite (bool_decide_false _ Hs), (bool_decide_false _ Hs), <-Hw.
    rewrite bool_decide_false, bool_decide_true by done. done.
Qed.

(** ** The admission *)

Local Abbreviation makePlan := (makePlan unicode_lower sha256_hex).
Local Abbreviation bind_action := (bind_action unicode_lower sha256_hex).

Lemma bind_action_ok plan planID snapshot intent safePoint t n b allow :
  snapshot_revision plan = revision snapshot → revision snapshot ≠ 0 → affected_allocation_ids plan = [] → is_Some (CeilingForTick t) →
  binding_id b ≠ "" →
  validate_plan_action unicode_lower unicode_quote plan PLAN_PURPOSE_ADMISSION false t allow
    (bind_action planID snapshot intent safePoint t n b) = Ok tt.
Proof using lower_dash.
  intros Hrev Hnz Haff Ht Hb. set (a := bind_action _ _ _ _ _ _ _). unfold validate_plan_action.
  assert (ValidateAction unicode_quote a t allow = Ok tt) as ->.
  { eapply ValidateAction_L1; [reflexivity..|done|done|by destruct safePoint|done]. }
  assert (ValidateRollback unicode_quote a = Ok tt) as -> by (by eapply ValidateRollback_ok; try reflexivity).
  cbn [mbind Result_bind]. apply bind_Ok. exists tt. split; [done|]. apply bind_Ok. exists tt. split; [by case_match|].
  unfold validateExplicitActionContract. rewrite Haff. apply check_intro.
  { change (expected_snapshot_revision _) with (revision snapshot). rewrite Hrev, Z.eqb_refl. by apply Z.eqb_neq in Hnz as ->. }
  apply check_intro; [done|]. apply check_intro; [done|]. apply check_intro; [apply actionCapabilities_supports|].
  apply check_intro; [by destruct safePoint|done].
Qed.

Lemma many_requirements :
  let rs := Some <$> StableCapabilityRequirements (NewCapabilityRequirement <$> multi_action_kinds) in
  validateCapabilityRequirements rs = Ok tt ∧ ∀ k, k ∈ multi_action_kinds → containsCapabilityRequirement rs k = true.
Proof.
  split; [by vm_compute|]. intros k Hk. repeat (apply elem_of_cons in Hk as [->|Hk]; [by vm_compute|]). by apply elem_of_nil in Hk.
Qed.

Lemma require_kinds_all plan p prefix kinds :
  (∀ k, k ∈ kinds → containsCapabilityRequirement (capability_requirements plan) k = true) →
  require_kinds unicode_quote plan p prefix kinds = Ok tt.
Proof.
  induction kinds as [|k kinds IH]; intros H; [done|]. cbn [require_kinds]. apply check_intro; [apply H; left|].
  apply IH. intros k' Hk'. apply H. by right.
Qed.

(** The contract of an admission with [n] actions. *)
Lemma admission_contract plan :
  let many := (1 <? length (actions plan))%nat in
  affected_allocation_ids plan = [] →
  rollback_policy plan = (if many then ROLLBACK_POLICY_REQUIRED_COMPENSATION else ROLLBACK_POLICY_NOT_REQUIRED) →
  capability_requirements plan = (if many then Some <$> StableCapabilityRequirements (NewCapabilityRequirement <$> multi_action_kinds) else []) →
  validatePlanContract unicode_quote plan PLAN_PURPOSE_ADMISSION = Ok tt.
Proof.
  cbv zeta. intros Haff Hr Hc. unfold validatePlanContract. rewrite Haff. case_bool_decide as Hne.
  { rewrite Hr, Hc, Hne. done. }
  destruct many_requirements as [Hval Hall]. cbv zeta. rewrite Hr, Hc. destruct (1 <? length (actions plan))%nat.
  - repeat (apply check_intro; [done|]). rewrite Hval. cbn [mbind Result_bind].
    rewrite (require_kinds_all plan) by (rewrite Hc; exact Hall). done.
  - done.
Qed.

(** Whatever was selected, the admission the scheduler makes of it is one that
    [actionpolicy.ValidatePlan] accepts. *)
Theorem makePlan_accepted decisionID planID snapshot intent now bs safePoint t allow :
  revision snapshot ≠ 0 → is_Some (CeilingForTick t) → Forall (λ b, binding_id b ≠ "") bs →
  ValidatePlan unicode_lower unicode_quote (Some (makePlan decisionID planID snapshot intent now bs safePoint t)) t allow = Ok tt.
Proof using lower_dash.
  intros Hnz Ht Hbs. set (plan := makePlan _ _ _ _ _ _ _ _).
  set (acts := imap (λ index b, bind_action planID snapshot intent safePoint t (order_at index) b) (stableBindings bs)).
  assert (Ha : actions plan = Some <$> acts) by done.
  assert (Hn : ∀ n a, acts !! n = Some a → ∃ b, b ∈ bs ∧ a = bind_action planID snapshot intent safePoint t (order_at n) b).
  { intros n a. unfold acts. rewrite list_lookup_imap. destruct (stableBindings bs !! n) as [b|] eqn:E; [|done]. intros [= <-].
    exists b. split; [|done]. apply list_elem_of_lookup_2 in E. unfold stableBindings in E. by rewrite elem_of_sort_by in E. }
  assert (Hlen : length (actions plan) = length acts) by (by rewrite Ha, length_fmap).
  apply (ValidatePlan_ok plan PLAN_PURPOSE_ADMISSION t allow acts); [done|done|by intros ->; destruct Ht|exact Ha|..].
  - apply admission_contract; [done|by rewrite Hlen..].
  - intros n a (b & _ & ->)%Hn. apply order_at_next.
  - apply Forall_forall. intros a [n Hna]%list_elem_of_lookup. destruct (Hn n a Hna) as (b & Hb & ->).
    rewrite Forall_forall in Hbs. by apply bind_action_ok; [..|apply Hbs].
Qed.

(** ** The preemption *)

Local Abbreviation stableID := (stableID sha256_hex).
Local Abbreviation release_action := (release_action unicode_lower sha256_hex).
Local Abbreviation replacement_action := (replacement_action unicode_lower sha256_hex).
Local Abbreviation buildPreemptionPlan := (buildPreemptionPlan unicode_quote_ascii unicode_lower sha256_hex).
Local Abbreviation preemptionTargetFits := (preemptionTargetFits unicode_quote unicode_lower sha256_hex).

Lemma stableID_nonempty prefix parts : stableID prefix parts ≠ "".
Proof. unfold SchedulerCore.stableID. by destruct prefix. Qed.

Definition is_release (a : Action) : bool := bool_decide (action_type a = ACTION_TYPE_RELEASE).

Lemma preemption_actions_all tick index as_ :
  (∀ n a, as_ !! n = Some a → order (action_contract a) = order_at (index + n) ∧
     action_type a ∈ [ACTION_TYPE_RELEASE; ACTION_TYPE_BIND] ∧ ValidateAction unicode_quote a tick false = Ok tt ∧
     ValidateRollback unicode_quote a = Ok tt) →
  preemption_actions unicode_quote tick index (Some <$> as_) =
    Ok (target_id <$> filter (λ a, is_release a = true) as_, Z.of_nat (length (filter (λ a, is_release a = false) as_))).
Proof.
  revert index. induction as_ as [|a as_ IH]; intros index H; [done|]. cbn [fmap list_fmap preemption_actions].
  destruct (H 0%nat a eq_refl) as (Ho & Ht & Hv & Hr). rewrite Nat.add_0_r in Ho. rewrite Ho, Z.eqb_refl. cbn [guard_err mbind Result_bind].
  rewrite (bool_decide_true _ Ht). cbn [guard_err mbind Result_bind]. rewrite Hv, Hr. cbn [policy_text mbind Result_bind].
  rewrite IH by (intros n x Hx; rewrite Nat.add_succ_comm; exact (H (S n) x Hx)). cbn [mbind Result_bind fst snd].
  destruct (is_release a) eqn:E; unfold is_release in E; rewrite E; rewrite !filter_cons; fold (is_release a) in E; rewrite E; cbn [decide]; do 2 f_equal.
  all: repeat case_decide; try done. cbn [length]. lia.
Qed.

(** A victim that can be restored names its sandbox. *)
Lemma restored_sandbox a b : restoredVictimBinding a = Some b → bi_sandbox_id b ≠ "" ∧ bi_sandbox_id b = al_sandbox_id a.
Proof.
  unfold restoredVictimBinding, derivedVictimSandboxID. destruct (_ || _) eqn:E; [done|]. cbn. intros [= <-]. cbn. bool_props. done.
Qed.

Lemma release_action_ok planID snapshot intent t safePoint n a b :
  is_Some (CeilingForTick t) → bi_sandbox_id b ≠ "" →
  let act := release_action planID snapshot intent t safePoint n a b in
  ValidateAction unicode_quote act t false = Ok tt ∧ ValidateRollback unicode_quote act = Ok tt.
Proof.
  intros Ht Hb. split.
  - eapply ValidateAction_L1; [reflexivity..|done|done|by destruct safePoint|done].
  - eapply ValidateRollback_ok; [reflexivity..|done|done|done].
Qed.

Lemma replacement_action_ok planID snapshot intent t safePoint n b :
  is_Some (CeilingForTick t) → binding_id b ≠ "" →
  let act := replacement_action planID snapshot intent t safePoint n b in
  ValidateAction unicode_quote act t false = Ok tt ∧ ValidateRollback unicode_quote act = Ok tt.
Proof.
  intros Ht Hb. split.
  - eapply ValidateAction_L1; [reflexivity..|done|done|by destruct safePoint|done].
  - eapply ValidateRollback_ok; [reflexivity..|done|done|done].
Qed.

Lemma preemption_requirements k :
  k ∈ preemption_kinds →
  containsCapabilityRequirement (Some <$> StableCapabilityRequirements (NewCapabilityRequirement <$> preemption_kinds)) k = true.
Proof.
  intros Hk. repeat (apply elem_of_cons in Hk as [->|Hk]; [by vm_compute|]). by apply elem_of_nil in Hk.
Qed.

Lemma require_preemption_kinds_all plan kinds :
  (∀ k, k ∈ kinds → containsCapabilityRequirement (capability_requirements plan) k = true) → require_preemption_kinds plan kinds = Ok tt.
Proof.
  induction kinds as [|k kinds IH]; intros H; [done|]. cbn [require_preemption_kinds]. rewrite (H k) by left. apply IH. intros k' Hk'.
  apply H. by right.
Qed.

(** The actions of a preemption: one release for each victim, then the replacement. *)
Lemma preemption_releases planID snapshot intent t safePoint selected restored :
  length restored = length selected →
  let releases := imap (λ index p, release_action planID snapshot intent t safePoint (order_at index) p.1 p.2) (zip selected restored) in
  length releases = length selected ∧ target_id <$> releases = allocation_id <$> selected ∧
  (∀ n a, releases !! n = Some a → ∃ v b, restored !! n = Some b ∧ a = release_action planID snapshot intent t safePoint (order_at n) v b).
Proof.
  intros Hlen releases. assert (Hz : length (zip selected restored) = length selected) by (rewrite length_zip_with; lia). split_and!.
  - unfold releases. by rewrite length_imap.
  - unfold releases. rewrite fmap_imap. trans (imap (const (allocation_id ∘ fst)) (zip selected restored)); [done|].
    rewrite imap_const, list_fmap_compose, fst_zip by lia. done.
  - intros n a. unfold releases. rewrite list_lookup_imap. destruct (zip selected restored !! n) as [[v b]|] eqn:E; [|done].
    intros [= <-]. apply lookup_zip_with_Some in E as (v' & b' & [= -> ->] & _ & E). by exists v', b'.
Qed.

(** The parts of a preemption's plan. *)
Lemma buildPreemptionPlan_parts snapshot intent now decisionID t pending selected device safePoint plan :
  buildPreemptionPlan snapshot intent now decisionID t pending selected device safePoint = Some plan →
  ∃ planID releases replacement, purpose plan = PLAN_PURPOSE_PREEMPTION ∧ rollback_policy plan = ROLLBACK_POLICY_REQUIRED_COMPENSATION ∧
    snapshot_revision plan = revision snapshot ∧ bindings plan = [Some replacement] ∧
    bi_device_ids replacement = [device] ∧ bi_pending_unit_id replacement = pending_unit_id pending ∧
    bi_resources replacement = Some (default zero_resources (requested_resources pending)) ∧ binding_id replacement ≠ "" ∧
    capability_requirements plan = Some <$> StableCapabilityRequirements (NewCapabilityRequirement <$> preemption_kinds) ∧
    affected_allocation_ids plan = sort_strings (allocation_id <$> selected) ∧
    actions plan = Some <$> releases ++ [replacement_action planID snapshot intent t safePoint (order_at (length releases)) replacement] ∧
    target_id <$> releases = allocation_id <$> selected ∧
    ∀ n a, releases !! n = Some a → ∃ v b, bi_sandbox_id b ≠ "" ∧ a = release_action planID snapshot intent t safePoint (order_at n) v b.
Proof.
  unfold SchedulerCore.buildPreemptionPlan. set (planID := stableID _ _). set (replacement := populateBindingMetadata _ _ _ _).
  intros (restored & Hm & [= <-])%bind_Some. apply mapM_Some in Hm.
  destruct (preemption_releases planID snapshot intent t safePoint selected restored) as (Hl & Ht & Hn).
  { symmetry. by eapply Forall2_length. }
  eexists planID, _, replacement. split_and!; try done.
  intros n a (v & b & Hb & ->)%Hn. exists v, b. split; [|done].
  destruct (Forall2_lookup_r _ _ _ _ _ Hm Hb) as (w & _ & Hw). by apply restored_sandbox in Hw as [? _].
Qed.

Lemma releases_only planID snapshot intent t safePoint as_ :
  (∀ n a, as_ !! n = Some a → ∃ v b, bi_sandbox_id b ≠ "" ∧ a = release_action planID snapshot intent t safePoint (order_at n) v b) →
  Forall (λ a, is_release a = true) as_.
Proof. intros H. apply Forall_forall. intros a [n Ha]%list_elem_of_lookup. by destruct (H n a Ha) as (v & b & _ & ->). Qed.

Lemma filter_all {A} (f : A → bool) l : Forall (λ a, f a = true) l →
  filter (λ a, f a = true) l = l ∧ filter (λ a, f a = false) l = [].
Proof.
  induction 1 as [|a l Ha _ [IH1 IH2]]; [done|]. rewrite !filter_cons. rewrite IH1, IH2. split; case_decide; congruence.
Qed.

(** The plan of a preemption passes the validator it is given to, whichever victims
    were gathered, provided there is one. *)
Theorem buildPreemptionPlan_accepted snapshot intent now decisionID pending selected device safePoint ctx plan :
  buildPreemptionPlan snapshot intent now decisionID (tickForValidation ctx) pending selected device safePoint = Some plan →
  selected ≠ [] → is_Some (CeilingForTick (tickForValidation ctx)) →
  validateAuthoritativePlan unicode_quote unicode_lower plan ctx = Ok tt.
Proof.
  intros H Hsel Ht. apply buildPreemptionPlan_parts in H as
    (planID & releases & b & Hp & Hr & _ & _ & _ & _ & _ & Hb & Hc & Haff & Ha & Htar & Hn).
  unfold validateAuthoritativePlan, validatePreemptionPlan. rewrite Hp, Hr, (bool_decide_true (_ = _) eq_refl).
  rewrite require_preemption_kinds_all by (rewrite Hc; apply preemption_requirements).
  assert (Hlen : length releases ≠ 0%nat).
  { intros E. destruct releases; [|done]. by destruct selected. }
  assert ((2 <=? length (actions plan))%nat = true) as ->.
  { apply Nat.leb_le. rewrite Ha, length_fmap, length_app. cbn. lia. }
  rewrite (bool_decide_true (_ = _) eq_refl). cbn [guard_err mbind Result_bind]. rewrite Ha.
  destruct (filter_all is_release releases) as [Hf1 Hf2]; [by eapply releases_only|].
  rewrite preemption_actions_all; [cbn [guard_err mbind Result_bind fst snd]|].
  - rewrite !filter_app, Hf1, Hf2, app_nil_l. rewrite !filter_cons, !filter_nil.
    rewrite decide_False by done. rewrite decide_True by done. rewrite app_nil_r, Htar. cbn [length Z.of_nat Pos.of_succ_nat Z.eqb Pos.eqb andb].
    rewrite (bool_decide_false (allocation_id <$> selected = [])) by (by intros ?%fmap_nil_inv). cbn [negb guard_err mbind Result_bind]. rewrite Haff, bool_decide_true by done. done.
  - intros n a Hna. apply lookup_app_Some in Hna as [Hna|[Hge Hna]].
    + destruct (Hn n a Hna) as (v & b' & Hb' & ->). split; [done|]. split; [left|]. by apply release_action_ok.
    + destruct (n - length releases)%nat eqn:E; [|done]. injection Hna as <-. replace n with (length releases) by lia. split; [done|].
      split; [right; left|]. by apply replacement_action_ok.
Qed.

End Plans.
