(* ===== verification/SchedulerProofs.v ===== *)
(** * What the scheduler's plans do to the cluster ([scheduler-go/scheduler])

    A preemption releases only active allocations of a lower priority, all on the one
    device its replacement goes to, where it then fits; an admission places each remaining
    unit once, on READY devices, within their capacity. *)

From Stdlib Require Import ZArith Lia Ascii.
From S2P Require Import Prelude GoStrings GoTime GoFloat GoHeap Protection SemVer Semantics ComponentRegistry Evaluator ClusterModel SchedulerState Mutation Preemption Reservation ReservationProofs Transaction Intents Constraints Candidates CandidateEngine CandidateProofs CandidateResults Policies PhaseGraph Validation ActionPolicy ActionPolicyProofs SchedulerCore PlanProofs.
From stdpp Require Import options.

Local Open Scope Z_scope.

(** ** What the engine answers *)

Lemma Ok_inj {E A} (a b : A) : Ok (E := E) a = Ok b → a = b.
Proof. by intros [= ->]. Qed.

Lemma elem_of_unique_sorted x l : x ∈ unique_sorted l ↔ x ∈ l.
Proof.
  induction l as [|a l IH]; [done|]. destruct l as [|b l]; [done|].
  change (unique_sorted (a :: b :: l)) with (if decide (a = b) then unique_sorted (b :: l) else a :: unique_sorted (b :: l)).
  case_decide as E; [subst b|]; set_solver.
Qed.

(** The resources of the messages are machine integers. *)
Definition typed_snapshot (snap : ClusterSnapshot) : Prop :=
  Forall (λ d, rv_ok (default zero_resources (capacity d)) ∧ rv_ok (default zero_resources (allocatable d))) (devices snap) ∧
  Forall (λ a, request_ok (al_resources a)) (allocations snap) ∧ Forall (λ u, request_ok (requested_resources u)) (pending_units snap).

(** What a unit requires. *)
Definition typed_unit (i : SchedulingIntent) (u : option PendingUnit) : Prop := request_ok (requirementsFor (mkUnit "" u) i).1.

(** [amount] of a resource is taken on a device by the live allocations not in [gone]
    and by the units added to it. *)
Definition fits_on (snap : ClusterSnapshot) (gone : gset string) (deviceID : string) (added : (ResourceVector → Z) → Z) : Prop :=
  ∃ d, d ∈ devices snap ∧ device_id d = deviceID ∧ health d = DEVICE_HEALTH_READY ∧
  ∀ proj, proj ∈ integer_resources →
    occupied proj gone deviceID (allocations snap) + added proj ≤ proj (default zero_resources (capacity d)).

Section Engine.
Context (unicode_quote unicode_lower : string → string) (stableID : string → list string → string).

Lemma reclaimed_IDs input ds als adjustment :
  normalizeLedgerAdjustment unicode_quote input ds als = Ok adjustment →
  reclaimedAllocationIDs adjustment = list_to_set (ReclaimAllocationIDs input).
Proof.
  unfold normalizeLedgerAdjustment. destruct (_ && _) eqn:E.
  { intros [= <-]. bool_props. cbn. by rewrite H. }
  intros H. apply bind_Ok in H as (_ & _ & H). apply bind_Ok in H as (_ & _ & H). apply bind_Ok in H as (_ & _ & H).
  apply bind_Ok in H as (_ & _ & [= <-]). cbn. apply set_eq. intros x. rewrite !elem_of_list_to_set. unfold sortedUniqueIDs.
  rewrite elem_of_unique_sorted. apply elem_of_sort_by.
Qed.

(** The binding of the unit a selected option places. *)
Definition option_binding (i : SchedulingIntent) (u : Unit) (o : CandidateEngine.Option) : Binding :=
  mkBinding "" (unit_ID u) [op_DeviceID o] (Some (default zero_resources (requirementsFor u i).1)) "" 0
    (from_option pu_runtime_unit_id "" (Pending u)).

(** The engine's answer, in terms of its request: the units in the engine's order, the
    option of each unit placed, and that what is placed fits. *)
Lemma engine_fits request snap i r :
  rq_Snapshot request = Some snap → rq_Intent request = Some i → canonical i (rq_Units request) → typed_snapshot snap →
  Forall (λ u, request_ok (requirementsFor u i).1) (rq_Units request) →
  CandidateEngine.Evaluate unicode_quote unicode_lower stableID request = Ok r →
  ∃ us, us ≡ₚ identified <$> rq_Units request ∧ NoDup (unit_ID <$> us) ∧
  (length (re_Selected r) ≤ length us)%nat ∧
  (rq_BuildCandidate request = None →
   (λ o : CandidateEngine.Option, candidate_bindings (op_Candidate o)) <$> re_Selected r =
     zip_with (λ u o, [Some (option_binding i u o)]) us (re_Selected r)) ∧
  ∀ o, o ∈ re_Selected r →
    fits_on snap (list_to_set (ReclaimAllocationIDs (rq_Adjustment request))) (op_DeviceID o)
      (λ proj, load proj (op_DeviceID o) (placements i us (re_Selected r))).
Proof.
  intros Hsn Hin Hcan (Hds & Hals & _) Hus H.
  pose proof (CandidateResults.Evaluate_Ok _ _ _ _ _ H) as (sn & it & us & adj & states & e & Hp & Hrun & Hr).
  pose proof Hp as [Hsn' Hin' Hnu (ds & _ & Hadj & _)]. rewrite Hsn in Hsn'. injection Hsn' as <-. rewrite Hin in Hin'. injection Hin' as <-.
  pose proof (normalizeUnits_Ok unicode_quote _ _ Hnu) as (Hperm & Hnd & _).
  assert (Hus' : Forall (λ u, request_ok (requirementsFor u i).1) us).
  { rewrite Hperm, Forall_fmap. eapply Forall_impl; [exact Hus|]. done. }
  destruct (selection_fits unicode_quote unicode_lower stableID _ _ _ _ _ _ _ Hp Hcan Hds Hals Hus' H) as (Hpre & Hdev & Hfit).
  destruct (run_loop_placed _ _ _ _ _ _ _ _ _ _ Hp Hcan Hrun) as (fl & Hpl & _). rewrite <-Hr in Hpl.
  pose proof (placed_options _ _ _ _ _ _ _ _ _ Hpl) as Hopt.
  assert (Hlen : (length (re_Selected r) ≤ length us)%nat).
  { apply (f_equal length) in Hpre. rewrite length_take, !length_fmap in Hpre. lia. }
  exists us. split_and!; [done..| |].
  - intros Hb. apply list_eq. intros n. rewrite list_lookup_fmap, lookup_zip_with. destruct (re_Selected r !! n) as [o|] eqn:E.
    + destruct (Hopt n o E) as (u & s & Hu & _ & Hd & Hm). rewrite Hu. cbn.
      apply materialize_default in Hm; [|by cbn; rewrite Hb]. unfold candidate_bindings. rewrite Hm. unfold option_binding. by rewrite Hd.
    + cbn. by destruct (us !! n).
  - intros o Ho. destruct (Hdev o Ho) as (d & Hd & Ed & Hh). exists d. split_and!; [done..|]. intros proj Hproj.
    rewrite <-(reclaimed_IDs _ _ _ _ Hadj), <-Ed. apply (Hfit d proj Hd); [|done]. rewrite Ed. by apply list_elem_of_fmap_2.
Qed.
End Engine.

(** ** Preemption *)

(** An allocation that may be released for a unit. *)
Definition releasable (snapshot : ClusterSnapshot) (pending : PendingUnit) (a : Allocation) : Prop :=
  a ∈ allocations snapshot ∧ al_state a = ALLOCATION_STATE_ACTIVE ∧ ∃ p, al_priority a = Some p ∧ p < pu_priority pending.

Lemma Pick_releasable snapshot pending v :
  v ∈ Pick (Some snapshot) (Some pending) → ∃ a, victim_Allocation v = Some a ∧ releasable snapshot pending a.
Proof.
  unfold Pick. rewrite elem_of_sort_by, list_elem_of_omap. intros (a & Ha & Hv). exists a. unfold victim_of in Hv.
  destruct (al_state a) eqn:Es; try done. destruct (al_priority a) as [p|] eqn:Ep; [|done]. destruct (_ <=? p) eqn:El; [done|].
  injection Hv as <-. bool_props. split; [done|]. split_and!; [done..|]. by exists p.
Qed.

Lemma CanRelease_None snapshot v safePoint :
  CanRelease snapshot v safePoint = None →
  safePoint = true ∧ ∃ a d, victim_Allocation v = Some a ∧ al_device_ids a = [d] ∧ al_generation a ≠ 0 ∧ allocation_id a ≠ "".
Proof.
  unfold CanRelease. destruct safePoint; [|done]. cbn [negb]. destruct (victim_Allocation v) as [a|]; [|done].
  destruct (_ || _) eqn:E; [done|]. destruct (al_device_ids a) as [|d [|]] eqn:Ed; try done. intros _. bool_props.
  split; [done|]. by exists a, d.
Qed.

(** What is gathered per device while the victims are gone through. *)
Definition gathered (P : Allocation → Prop) (byDevice : gmap string (list Allocation)) (seen : gset string) : Prop :=
  ∀ d l, byDevice !! d = Some l → NoDup (allocation_id <$> l) ∧ ∀ a, a ∈ l → P a ∧ al_device_ids a = [d] ∧ allocation_id a ∈ seen.

Lemma gathered_add P byDevice seen d a :
  gathered P byDevice seen → P a → al_device_ids a = [d] → allocation_id a ∉ seen →
  let l := default [] (byDevice !! d) ++ [a] in
  gathered P (<[d := l]> byDevice) ({[allocation_id a]} ∪ seen) ∧ NoDup (allocation_id <$> l) ∧ ∀ b, b ∈ l → P b ∧ al_device_ids b = [d].
Proof.
  intros H Pa Hd Hns. cbv zeta. set (l := default [] (byDevice !! d) ++ [a]).
  assert (Hold : NoDup (allocation_id <$> default [] (byDevice !! d)) ∧
    ∀ b, b ∈ default [] (byDevice !! d) → P b ∧ al_device_ids b = [d] ∧ allocation_id b ∈ seen).
  { destruct (byDevice !! d) as [l0|] eqn:E; [by apply H|]. cbn. split; [constructor|]. intros b Hb. by apply elem_of_nil in Hb. }
  destruct Hold as [Hnd Hall].
  assert (Hl : NoDup (allocation_id <$> l) ∧ ∀ b, b ∈ l → P b ∧ al_device_ids b = [d] ∧ allocation_id b ∈ {[allocation_id a]} ∪ seen).
  { unfold l. split.
    - rewrite fmap_app. apply NoDup_app. split_and!; [done| |by apply NoDup_singleton].
      intros x (b & -> & Hb)%list_elem_of_fmap Hx. apply list_elem_of_singleton in Hx. destruct (Hall b Hb) as (_ & _ & Hs).
      by rewrite Hx in Hs.
    - intros b [Hb|Hb%list_elem_of_singleton]%elem_of_app; [destruct (Hall b Hb) as (? & ? & ?)|subst b]; split_and!; set_solver. }
  split_and!; [|apply Hl|intros b Hb; split; by apply Hl].
  intros d' l'. destruct (decide (d = d')) as [<-|Hne].
  - rewrite lookup_insert_eq. intros [= <-]. exact Hl.
  - rewrite lookup_insert_ne by done. intros Hl'. destruct (H d' l' Hl') as [? Hb]. split; [done|]. intros b Hin.
    destruct (Hb b Hin) as (? & ? & ?). split_and!; [done..|set_solver].
Qed.

Section Scheduler.
Context (unicode_quote unicode_quote_ascii unicode_lower : string → string) (sha256_hex : string → string).

Local Abbreviation preemptionTargetFits := (preemptionTargetFits unicode_quote unicode_lower sha256_hex).
Local Abbreviation buildPreemptionPlan := (buildPreemptionPlan unicode_quote_ascii unicode_lower sha256_hex).
Local Abbreviation pick_victims := (pick_victims unicode_quote unicode_quote_ascii unicode_lower sha256_hex).
Local Abbreviation preemptionPlan := (preemptionPlan unicode_quote unicode_quote_ascii unicode_lower sha256_hex).

Lemma preemptionTargetFits_fits snapshot intent decisionID pending deviceID victims :
  typed_snapshot snapshot → typed_unit (im_core intent) (Some pending) →
  preemptionTargetFits snapshot intent decisionID pending deviceID victims = true →
  fits_on snapshot (list_to_set (allocation_id <$> victims)) deviceID
    (λ proj, amount proj (requirementsFor (mkUnit "" (Some pending)) (im_core intent)).1).
Proof.
  intros Hsn Hu H. unfold SchedulerCore.preemptionTargetFits in H.
  match type of H with context [CandidateEngine.Evaluate _ _ _ ?q] => set (request := q) in H end.
  destruct (CandidateEngine.Evaluate _ _ _ request) as [r|] eqn:E; [|done].
  eapply (engine_fits _ _ _ request snapshot (im_core intent)) in E as (us & Hp & _ & _ & _ & Hfit); try done.
  - destruct (re_Selected r) as [|o [|]]; try done. bool_props. subst deviceID.
    cbn [rq_Units request fmap list_fmap] in Hp. apply Permutation_singleton_r in Hp as ->.
    assert (Ho : o ∈ [o]) by left. destruct (Hfit o Ho) as (d & Hd & Ed & Hh & Hf). exists d. split_and!; [done..|].
    intros proj Hproj. specialize (Hf proj Hproj). unfold placements in Hf. cbn [zip_with] in Hf. rewrite load_cons in Hf.
    unfold load1, load in Hf. cbn [fst snd foldr] in Hf. rewrite decide_True in Hf by done. rewrite Z.add_0_r in Hf. exact Hf.
  - intros u v Hin1 Hin2. apply list_elem_of_singleton in Hin1 as ->, Hin2 as ->. done.
  - by constructor.
Qed.

Lemma pick_victims_Ok snapshot intent now decisionID tick pending safePoint (P : Allocation → Prop) byDevice seen inexpressible victims plan :
  (∀ v, v ∈ victims → ∃ a, victim_Allocation v = Some a ∧ P a) → gathered P byDevice seen →
  pick_victims snapshot intent now decisionID tick pending safePoint byDevice seen inexpressible victims = Ok plan →
  ∃ deviceID selected, selected ≠ [] ∧ NoDup (allocation_id <$> selected) ∧ safePoint = true ∧
    (∀ a, a ∈ selected → P a ∧ al_device_ids a = [deviceID]) ∧
    preemptionTargetFits snapshot intent decisionID pending deviceID selected = true ∧
    buildPreemptionPlan snapshot intent now decisionID tick pending selected deviceID safePoint = Some plan.
Proof.
  revert byDevice seen inexpressible. induction victims as [|v victims IH]; intros byDevice seen inexpressible HP Hg H; [done|].
  assert (HP' : ∀ v, v ∈ victims → ∃ a, victim_Allocation v = Some a ∧ P a) by (intros w Hw; apply HP; by right).
  cbn [SchedulerCore.pick_victims] in H. destruct (HP v) as (a & Hv & Pa); [left|]. rewrite Hv in H.
  destruct (CanRelease snapshot v safePoint) as [reason|] eqn:Hc; [case_bool_decide; [done|by eapply IH]|].
  apply CanRelease_None in Hc as (-> & a' & d & Hv' & Hd & _). rewrite Hv in Hv'. injection Hv' as <-.
  case_bool_decide as Hs; [by eapply IH|]. rewrite Hd in H. cbn [lookup list_lookup default from_option id] in H.
  destruct (gathered_add P byDevice seen d a Hg Pa Hd Hs) as (Hg' & Hnd & Hall). cbv zeta in Hg', Hnd, Hall.
  destruct (preemptionTargetFits _ _ _ _ _ _) eqn:Hfit; [|by eapply IH].
  destruct (buildPreemptionPlan _ _ _ _ _ _ _ _ _) as [p|] eqn:Hb; [|done]. injection H as <-.
  exists d, (default [] (byDevice !! d) ++ [a]). split_and!; try done. by destruct (default [] (byDevice !! d)).
Qed.

Lemma typed_pending snapshot i u :
  typed_snapshot snapshot → request_ok (resources_per_unit i) → from_option (λ p, p ∈ pending_units snapshot) True u → typed_unit i u.
Proof.
  intros (_ & _ & Hp) Hi Hu. unfold typed_unit, requirementsFor. destruct u as [p|]; [|done]. cbn. rewrite Forall_forall in Hp.
  specialize (Hp p Hu). by destruct (requested_resources p).
Qed.

Lemma findPendingUnit_typed snapshot unitID intent :
  typed_snapshot snapshot → request_ok (resources_per_unit (im_core intent)) →
  typed_unit (im_core intent) (Some (findPendingUnit snapshot unitID intent)).
Proof.
  intros Hs Hi. unfold findPendingUnit. destruct (find _ _) as [p|] eqn:E.
  - apply (typed_pending snapshot); [done..|]. apply find_some in E as [E _]. by apply list_elem_of_In.
  - intros q [= <-]. destruct (resources_per_unit (im_core intent)) as [r|] eqn:Er; [by apply Hi|].
    refine (integer_cases (λ proj, is_u64 (proj zero_resources)) _ _ _ _); done.
Qed.

Lemma release_targets_app plan releases a :
  actions plan = Some <$> releases ++ [a] → Forall (λ a, is_release a = true) releases → action_type a ≠ ACTION_TYPE_RELEASE →
  release_targets plan = target_id <$> releases.
Proof.
  intros Ha Hr Hn. unfold release_targets. rewrite Ha.
  assert (omap id (Some <$> releases ++ [a]) = releases ++ [a]) as ->.
  { generalize (releases ++ [a]). clear. induction l as [|x l IH]; [done|]. cbn. by rewrite IH. }
  rewrite filter_app, filter_cons, filter_nil, decide_False by done. rewrite app_nil_r. f_equal. clear -Hr.
  induction Hr as [|x l Hx _ IH]; [done|]. unfold is_release in Hx. bool_props. by rewrite filter_cons, decide_True, IH.
Qed.


End Scheduler.

(** ** The decision *)

(** The plan is for this intent, on this snapshot, by this decision. *)
Definition plan_for (snapshot : ClusterSnapshot) (intent : IntentMessage) (decisionID : string) (plan : PlacementPlan) : Prop :=
  let i := im_core intent in
  pl_execution_id plan = in_execution_id i ∧ pl_stage_id plan = in_stage_id i ∧ pl_intent_version plan = in_version i ∧
  pl_job_id plan = in_job_id i ∧ snapshot_revision plan = revision snapshot ∧ pl_decision_id plan = decisionID.

Section Decision.
Context (unicode_quote unicode_quote_ascii unicode_lower : string → string).
Context (timestamp_error : Timestamp → string) (duration_error : Duration → string).
Context (sha256_hex : string → string) (contract_wire : ContractMessage → Result string string).
Context (order_of : gset string → list string).
Context (ValueString : SemanticValue → string) (digest : string → ContractEvaluation → string).

Local Abbreviation makePlan := (makePlan unicode_lower sha256_hex).
Local Abbreviation stableID := (stableID sha256_hex).
Local Abbreviation fallbackResult := (fallbackResult unicode_lower sha256_hex).
Local Abbreviation preemptionPlan := (preemptionPlan unicode_quote unicode_quote_ascii unicode_lower sha256_hex).
Local Abbreviation engine_request := (engine_request sha256_hex).
Local Abbreviation workUnits := (workUnits sha256_hex).
Local Abbreviation validateAuthoritativePlan := (validateAuthoritativePlan unicode_quote unicode_lower).
Local Abbreviation decide_on := (decide_on unicode_quote unicode_quote_ascii unicode_lower sha256_hex).
Local Abbreviation EvaluateWithContext :=
  (EvaluateWithContext unicode_quote unicode_quote_ascii unicode_lower timestamp_error duration_error sha256_hex contract_wire order_of
     ValueString digest).

(** How a record that is given out stands to the record it was made from. *)
Definition continues (r0 r : DecisionRecord) (plan : PlacementPlan) : Prop :=
  selected_plan r = Some plan ∧ evaluation_context r = evaluation_context r0 ∧ decision_id r = decision_id r0.

Lemma fallbackResult_spec s snapshot intent now r0 reason plan r :
  fallbackResult s snapshot intent now r0 reason = (plan, r) →
  fallback r = true ∧ actions plan = [] ∧ continues r0 r plan ∧ plan_for snapshot intent (decision_id r0) plan.
Proof.
  unfold SchedulerCore.fallbackResult. intros [= <- <-]. destruct (_ && _); unfold fallback_plan; destruct (expired intent now); done.
Qed.

(** The plan given out, by the branch that made it. *)
Inductive decided (s : Scheduler) (readings : Readings) (e : Evaluation) (plan : PlacementPlan) (r : DecisionRecord) : Prop :=
| decided_fallback : fallback r = true → actions plan = [] → decided s readings e plan r
| decided_converged : fallback r = false → workUnits (ev_snapshot e) (im_core (ev_intent e)) = Ok [] →
    plan = makeConvergedPlan sha256_hex (ev_decision e) (ev_snapshot e) (ev_intent e) (ev_context e) → decided s readings e plan r
| decided_placed units result planID score : fallback r = false →
    workUnits (ev_snapshot e) (im_core (ev_intent e)) = Ok units → units ≠ [] →
    CandidateEngine.Evaluate unicode_quote unicode_lower stableID (engine_request s e units) = Ok result →
    length (re_Selected result) = length units →
    plan = makePlan (ev_decision e) planID (ev_snapshot e) (ev_intent e) (ev_now e) (selected_bindings sha256_hex e result)
             (contractRequiresSafePoint (im_contract (ev_intent e))) (dr_tick_kind r) →
    validateActionPlan unicode_quote unicode_lower plan (ev_context e) = Ok tt →
    CheckN (sc_guard s) (rd_guard readings) (guard_key (ev_intent e)) score (Z.of_nat (length (actions plan))) = Allowed →
    decided s readings e plan r
| decided_preempted unit : fallback r = false →
    workUnits (ev_snapshot e) (im_core (ev_intent e)) = Ok [unit] →
    preemptionPlan s (ev_snapshot e) (ev_intent e) (ev_now e) (ev_decision e) (dr_tick_kind r) unit (ev_safe_point e) = Ok plan →
    validateAuthoritativePlan plan (ev_context e) = Ok tt →
    CheckN (sc_guard s) (rd_guard readings) (guard_key (ev_intent e)) f0 (Z.of_nat (length (actions plan))) = Allowed →
    decided s readings e plan r.

(** What the record of an evaluation is when it enters a branch. *)
Definition entered (e : Evaluation) (r : DecisionRecord) : Prop :=
  fallback r = false ∧ decision_id r = ev_decision e ∧ evaluation_context r = ev_context e.

(** What every branch guarantees of what it gives out. *)
Definition given (s : Scheduler) (readings : Readings) (e : Evaluation) (r : DecisionRecord) (plan : PlacementPlan) : Prop :=
  decided s readings e plan r ∧ selected_plan r = Some plan ∧ evaluation_context r = ev_context e ∧ decision_id r = ev_decision e ∧
  plan_for (ev_snapshot e) (ev_intent e) (ev_decision e) plan.

Lemma fall_back_given s readings e r0 reason plan r g :
  entered e r0 → fall_back unicode_lower sha256_hex s e r0 reason = (plan, r, g) → given s readings e r plan.
Proof.
  unfold fall_back. intros (_ & Hid & Hcx) H. apply (f_equal fst) in H. cbn [fst] in H. apply fallbackResult_spec in H as (Hf & Ha & (Hs & Hc & Hi) & Hp).
  rewrite Hid in Hp, Hi. rewrite Hcx in Hc. split; [by apply decided_fallback|done].
Qed.

Lemma rejected_outcome_given s readings e r0 result plan r g :
  entered e r0 → rejected_outcome unicode_lower sha256_hex s readings e r0 result = (plan, r, g) → given s readings e r plan.
Proof.
  intros He H. unfold rejected_outcome in H. apply (f_equal fst) in H. cbn [fst] in H. eapply (fall_back_given s readings e r0); [exact He|].
  unfold fall_back. by rewrite H.
Qed.

Lemma guarded_given s readings e r0 score plan0 granted plan r g :
  entered e r0 → entered e granted → selected_plan granted = Some plan0 → plan_for (ev_snapshot e) (ev_intent e) (ev_decision e) plan0 →
  (CheckN (sc_guard s) (rd_guard readings) (guard_key (ev_intent e)) score (Z.of_nat (length (actions plan0))) = Allowed →
   decided s readings e plan0 granted) →
  guarded unicode_lower sha256_hex s readings e r0 score plan0 granted = (plan, r, g) → given s readings e r plan.
Proof.
  intros He (_ & Hid & Hcx) Hs Hp Hd H. unfold guarded in H. destruct (CheckN _ _ _ _ _) as [|reason]; [|by eapply fall_back_given].
  injection H as <- <- <-. split; [by apply Hd|done].
Qed.

Lemma placed_outcome_given s readings e r0 units result plan r g :
  entered e r0 → workUnits (ev_snapshot e) (im_core (ev_intent e)) = Ok units → units ≠ [] →
  CandidateEngine.Evaluate unicode_quote unicode_lower stableID (engine_request s e units) = Ok result →
  length (re_Selected result) = length units →
  placed_outcome unicode_quote unicode_lower sha256_hex s readings e r0 result = (plan, r, g) → given s readings e r plan.
Proof.
  intros He Hw Hne Hr Hl H. unfold placed_outcome in H.
  match type of H with context [SchedulerCore.makePlan ?u ?h ?a ?b ?c ?d ?n ?x ?y ?z] => set (p := SchedulerCore.makePlan u h a b c d n x y z) in H end.
  destruct (validateActionPlan _ _ p _) as [[]|text] eqn:Hv; [|by eapply fall_back_given].
  eapply guarded_given in H; [exact H|done|done|done|done|]. intros Hg. eapply decided_placed; [apply He|done..].
Qed.

(** The plan of a preemption is one that [buildPreemptionPlan] built. *)
Lemma preemptionPlan_built s snapshot intent now decisionID tick unit safePoint plan :
  preemptionPlan s snapshot intent now decisionID tick unit safePoint = Ok plan →
  ∃ selected deviceID, buildPreemptionPlan unicode_quote_ascii unicode_lower sha256_hex snapshot intent now decisionID tick
    (findPendingUnit snapshot (wu_id unit) intent) selected deviceID safePoint = Some plan.
Proof.
  unfold SchedulerCore.preemptionPlan. destruct (negb _); [done|]. destruct (sc_preemption s); [done|]. cbv zeta.
  case_bool_decide; [done|]. destruct (_ && _); [done|]. intros Hpick. eapply (pick_victims_Ok _ _ _ _ _ _ _ _ _ _ _ (λ _, True)) in Hpick
    as (deviceID & selected & _ & _ & _ & _ & _ & Hb); [by exists selected, deviceID| |].
  - intros v (a & Ha & _)%Pick_releasable. by exists a.
  - intros d l Hl. by rewrite lookup_empty in Hl.
Qed.

Lemma preemptionPlan_for s snapshot intent now decisionID tick unit safePoint plan :
  preemptionPlan s snapshot intent now decisionID tick unit safePoint = Ok plan → plan_for snapshot intent decisionID plan.
Proof.
  intros (selected & deviceID & Hb)%preemptionPlan_built. unfold buildPreemptionPlan in Hb. destruct (mapM _ _); [|done]. by injection Hb as <-.
Qed.

Lemma preemptionPlan_purpose s snapshot intent now decisionID tick unit safePoint plan :
  preemptionPlan s snapshot intent now decisionID tick unit safePoint = Ok plan → purpose plan = PLAN_PURPOSE_PREEMPTION.
Proof.
  intros (selected & deviceID & Hb)%preemptionPlan_built. by apply buildPreemptionPlan_parts in Hb as (? & ? & ? & ? & _).
Qed.

Lemma unplaced_outcome_given s readings e r0 units result plan r g :
  entered e r0 → workUnits (ev_snapshot e) (im_core (ev_intent e)) = Ok units →
  unplaced_outcome unicode_quote unicode_quote_ascii unicode_lower sha256_hex s readings e r0 units result = (plan, r, g) →
  given s readings e r plan.
Proof.
  intros He Hw H. unfold unplaced_outcome in H.
  destruct (re_Selected result); [|by eapply rejected_outcome_given]. destruct units as [|unit [|]]; try by eapply rejected_outcome_given.
  destruct He as (Hf & Hid & Hcx). rewrite Hid in H. destruct (preemptionPlan _ _ _ _ _ _ _ _) as [p|reason] eqn:Hp.
  - destruct (validateAuthoritativePlan p (ev_context e)) as [[]|text] eqn:Hv; [|by eapply fall_back_given].
    eapply guarded_given in H; [exact H|done|done|done|by eapply preemptionPlan_for|]. intros Hg. by eapply decided_preempted.
  - case_bool_decide; [by eapply rejected_outcome_given|by eapply fall_back_given].
Qed.

Lemma decide_on_given s readings e r0 evals aggregate plan r g :
  entered e r0 → decide_on s readings e r0 evals aggregate = Ok (plan, r, g) → given s readings e r plan.
Proof.
  intros He H. unfold SchedulerCore.decide_on in H.
  destruct (expired _ _); [by apply Ok_inj in H; eapply fall_back_given in H|].
  destruct (Blocking aggregate); [by apply Ok_inj in H; eapply fall_back_given in H|].
  destruct (workUnits _ _) as [units|[reason detail]] eqn:Hw; [|by apply Ok_inj in H; eapply fall_back_given in H].
  destruct units as [|unit units].
  { injection H as <- <- <-. destruct He as (Hf & Hid & Hcx). split; [by apply decided_converged|done]. }
  assert (Hplace : place_units unicode_quote unicode_quote_ascii unicode_lower sha256_hex s readings e r0 (unit :: units) = Ok (plan, r, g) →
    given s readings e r plan).
  { intros Hp. unfold place_units in Hp. destruct (CandidateEngine.Evaluate _ _ _ _) as [result|] eqn:Hr; [|done].
    apply Ok_inj in Hp. assert (entered e (record_candidates unicode_lower sha256_hex e r0 result)) by done.
    case_bool_decide; [by eapply placed_outcome_given|by eapply unplaced_outcome_given]. }
  destruct (sc_policy s); try (by apply Hplace); by apply Ok_inj in H; eapply fall_back_given in H.
Qed.

Lemma decide_on_live s readings e r0 evals aggregate plan r g :
  decide_on s readings e r0 evals aggregate = Ok (plan, r, g) → fallback r = false →
  expired (ev_intent e) (ev_now e) = false ∧ Blocking aggregate = false.
Proof.
  intros H Hf. assert (Hback : ∀ r0 reason, Ok (E := SchedulerError) (fall_back unicode_lower sha256_hex s e r0 reason) ≠ Ok (plan, r, g)).
  { intros r1 reason E%Ok_inj. apply (f_equal fst) in E. apply fallbackResult_spec in E as (E & _). congruence. }
  unfold SchedulerCore.decide_on in H. destruct (expired _ _); [by apply Hback in H|]. destruct (Blocking aggregate); [by apply Hback in H|done].
Qed.

Lemma EvaluateWithContext_given s readings snapshot intent context plan r g :
  EvaluateWithContext s readings (Some snapshot) (Some intent) context = Ok (plan, r, g) →
  ∃ e sequence evals aggregate, ev_snapshot e = snapshot ∧ ev_intent e = intent ∧
    normalizeEvaluationContext unicode_lower timestamp_error readings context = Ok (ev_context e, ev_now e, sequence) ∧
    validateSnapshot unicode_lower timestamp_error snapshot = Ok tt ∧
    evaluateContract unicode_quote unicode_lower ValueString digest snapshot intent (ev_context e)
      (ResolveSafePoint (Some (snapshot_view snapshot)) (Some (intent_view intent)) (Some (ev_context e)) (safePointKey s)) = Ok (evals, aggregate) ∧
    given s readings e r plan ∧ (fallback r = false → expired intent (ev_now e) = false ∧ Blocking aggregate = false).
Proof.
  intros H. unfold SchedulerCore.EvaluateWithContext in H.
  destruct (normalizeEvaluationContext _ _ readings context) as [[[ctx now] sequence]|] eqn:Hn; [|done]. cbn [lift_invalid mbind Result_bind] in H.
  destruct (validateSnapshot _ _ snapshot) as [[]|] eqn:Hs; [|done]. cbn [lift_invalid mbind Result_bind] in H.
  destruct (validateIntent _ _ _ _ _ _ intent) as [u|]; [|done]. cbn [lift_invalid mbind Result_bind] in H. cbv zeta in H.
  destruct (evaluateContract _ _ _ _ _ _ _ _) as [[evals aggregate]|] eqn:Hc; [|done].
  eexists (mkEvaluation snapshot intent ctx now _ _), sequence, evals, aggregate. split_and!; [reflexivity|reflexivity|exact eq_refl|exact eq_refl|exact Hc| |].
  - eapply decide_on_given; [|exact H]. done.
  - intros Hf. exact (decide_on_live _ _ _ _ _ _ _ _ _ H Hf).
Qed.

(** The scheduler's decision.  The plan is the one recorded, made for the intent, on
    the revision of the snapshot; a fallback has no action; a plan with actions is given
    out only before the intent expires, when the contract does not block it, when the
    validator of its purpose accepts it in the tick of the evaluation, and when the
    protection guard allows that many actions. *)
Theorem EvaluateWithContext_decision s readings snapshot intent context plan r g :
  EvaluateWithContext s readings (Some snapshot) (Some intent) context = Ok (plan, r, g) →
  ∃ now sequence evals aggregate,
    normalizeEvaluationContext unicode_lower timestamp_error readings context = Ok (evaluation_context r, now, sequence) ∧
    evaluateContract unicode_quote unicode_lower ValueString digest snapshot intent (evaluation_context r)
      (ResolveSafePoint (Some (snapshot_view snapshot)) (Some (intent_view intent)) (Some (evaluation_context r)) (safePointKey s)) = Ok (evals, aggregate) ∧
    selected_plan r = Some plan ∧ plan_for snapshot intent (decision_id r) plan ∧
    (fallback r = true → actions plan = []) ∧
    (actions plan ≠ [] →
      now < AsTime (valid_until (im_core intent)) ∧ Blocking aggregate = false ∧
      validateAuthoritativePlan plan (evaluation_context r) = Ok tt ∧
      ∃ score, CheckN (sc_guard s) (rd_guard readings) (guard_key intent) score (Z.of_nat (length (actions plan))) = Allowed).
Proof.
  intros (e & sequence & evals & aggregate & <- & <- & Hn & _ & Hc & (Hd & Hs & Hcx & Hid & Hp) & Hl)%EvaluateWithContext_given.
  rewrite Hcx, Hid. exists (ev_now e), sequence, evals, aggregate. split_and!; try done.
  - intros Hf. destruct Hd; congruence.
  - intros Ha. destruct Hd as [|? ? ->|units result planID score Hf Hw Hne He Hlen Hpl Hv Hg|unit Hf Hw Hpl Hv Hg]; [done|done| |].
    + destruct (Hl Hf) as [Hx Hb]. unfold expired in Hx. bool_props. split_and!; [done..| |by exists score].
      unfold SchedulerCore.validateAuthoritativePlan. by rewrite bool_decide_false by (by rewrite Hpl).
    + destruct (Hl Hf) as [Hx Hb]. unfold expired in Hx. bool_props. split_and!; [done..|by exists f0].
Qed.

(** ** The admission *)

Lemma populate_demand decisionID intent b : binding_demand (Some (populateBindingMetadata sha256_hex decisionID intent b)) = binding_demand (Some b).
Proof. done. Qed.

Lemma load_perm proj id ds ds' : ds ≡ₚ ds' → load proj id ds = load proj id ds'.
Proof. unfold load. induction 1; cbn [foldr]; lia. Qed.

(** What the bindings take is what the engine accounted for. *)
Lemma selected_load proj id decisionID intent us os :
  proj ∈ integer_resources →
  load proj id (binding_demand <$> (Some <$> (populateBindingMetadata sha256_hex decisionID intent <$>
    zip_with (option_binding (im_core intent)) us os))) = load proj id (placements (im_core intent) us os).
Proof.
  intros Hp. revert os. induction us as [|u us IH]; intros [|o os]; [done..|]. unfold placements. cbn [zip_with fmap list_fmap].
  rewrite !load_cons. rewrite populate_demand. unfold placements in IH. rewrite <-(IH os). f_equal. unfold load1, binding_demand, option_binding. cbn.
  case_decide; [|done]. destruct (requirementsFor u (im_core intent)).1; [done|]. clear IH. revert proj Hp. by apply integer_cases.
Qed.

Definition unit_of (u : workUnit) : Unit := mkUnit (wu_id u) (wu_pending u).

(** Where a unit of work comes from. *)
Definition from_snapshot (snapshot : ClusterSnapshot) (u : workUnit) : Prop :=
  from_option (λ p, p ∈ pending_units snapshot ∧ pending_unit_id p = wu_id u) True (wu_pending u).

Lemma work_of_Ok i us l :
  work_of i us = Ok l → wu_id <$> l = pending_unit_id <$> us ∧ wu_pending <$> l = Some <$> us.
Proof.
  revert l. induction us as [|u us IH]; intros l H; [by injection H as <-|]. cbn [work_of] in H.
  apply bind_Ok in H as (_ & _ & H). apply bind_Ok in H as (_ & _ & H). apply bind_Ok in H as (rest & Hr & [= <-]).
  destruct (IH rest Hr) as [E1 E2]. cbn. by rewrite E1, E2.
Qed.

(** The allocations that count as units already placed. *)
Definition live_units (i : SchedulingIntent) (snapshot : ClusterSnapshot) : Z :=
  Z.of_nat (length (filter (λ a, is_committed i a = true) (allocations snapshot))).

(** Fewer entries than a counter holds. *)
Definition countable (snapshot : ClusterSnapshot) : Prop :=
  Z.of_nat (length (allocations snapshot)) < two32 ∧ Z.of_nat (length (pending_units snapshot)) < two32.

Lemma filter_le {A} (f : A → bool) l : (length (filter (λ x, f x = true) l) ≤ length l)%nat.
Proof. apply length_filter. Qed.

(** The units of work complete the intent's count. *)
Lemma workUnits_count snapshot i us :
  countable snapshot → is_u32 (unit_count i) → workUnits snapshot i = Ok us →
  live_units i snapshot + Z.of_nat (length us) = unit_count i ∧ Forall (from_snapshot snapshot) us.
Proof.
  intros [Hal Hpe] Hu H. unfold SchedulerCore.workUnits in H. unfold live_units, is_u32 in *.
  assert (Hc : committed_count i (allocations snapshot) = Z.of_nat (length (filter (λ a, is_committed i a = true) (allocations snapshot)))).
  { unfold committed_count. apply Z.mod_small. pose proof (filter_le (is_committed i) (allocations snapshot)). lia. }
  rewrite <-Hc. set (c := committed_count i (allocations snapshot)) in *. set (m := matching_units i (pending_units snapshot)) in *.
  assert (Hm : Z.of_nat (length m) < two32).
  { unfold m, matching_units. rewrite sort_by_length. pose proof (filter_le (unit_matches i) (pending_units snapshot)). lia. }
  cbv zeta in H. do 2 (apply bind_Ok in H as ([] & _ & H)). apply bind_Ok in H as ([] & H1%guard_err_Ok & H).
  apply bind_Ok in H as ([] & H2%guard_err_Ok & H). bool_props. rewrite wrap64_id in * by (unfold is_u64, two32, two64 in *; lia).
  rewrite (Z.mod_small (unit_count i - c)) in * by lia. case_bool_decide as Hnil.
  - injection H as <-. rewrite length_fmap, length_seq. split; [lia|]. apply Forall_fmap, Forall_forall. done.
  - cbn [orb] in H2. bool_props. rewrite Z.mod_small in H2 by lia. apply work_of_Ok in H as [Hids Hps]. split.
    + apply (f_equal length) in Hids. rewrite !length_fmap in Hids. lia.
    + apply Forall_forall. intros u [n Hn]%list_elem_of_lookup. unfold from_snapshot.
      assert (E1 : (wu_id <$> us) !! n = (pending_unit_id <$> m) !! n) by (by rewrite Hids).
      assert (E2 : (wu_pending <$> us) !! n = (Some <$> m) !! n) by (by rewrite Hps).
      rewrite (list_lookup_fmap wu_id), (list_lookup_fmap pending_unit_id), Hn in E1.
      rewrite (list_lookup_fmap wu_pending), (list_lookup_fmap Some), Hn in E2. destruct (m !! n) as [p|] eqn:Ep; [|done]. injection E1 as Hid. injection E2 as Hp.
      rewrite Hp. cbn. split; [|done].
      apply list_elem_of_lookup_2 in Ep. unfold m, matching_units in Ep. rewrite elem_of_sort_by in Ep. by apply list_elem_of_filter in Ep as [_ ?].
Qed.

Lemma identified_unit snapshot u : from_snapshot snapshot u → unit_ID (identified (unit_of u)) = wu_id u.
Proof.
  unfold from_snapshot, identified, unit_of. cbn. intros H. case_bool_decide as E; [|done]. rewrite E.
  destruct (wu_pending u) as [p|]; [|done]. cbn in H |- *. destruct H as [_ ->]. done.
Qed.

(** The bindings the scheduler takes from the engine's options. *)
Lemma selected_bindings_zip e result us :
  (λ o : CandidateEngine.Option, candidate_bindings (op_Candidate o)) <$> re_Selected result =
    zip_with (λ u o, [Some (option_binding (im_core (ev_intent e)) u o)]) us (re_Selected result) →
  (length (re_Selected result) ≤ length us)%nat →
  selected_bindings sha256_hex e result =
    populateBindingMetadata sha256_hex (ev_decision e) (ev_intent e) <$>
      zip_with (option_binding (im_core (ev_intent e))) us (re_Selected result).
Proof.
  intros H Hl. unfold selected_bindings. f_equal. revert us H Hl. induction (re_Selected result) as [|o os IH]; intros us H Hl; [by destruct us|].
  destruct us as [|u us]; [cbn in Hl; lia|]. cbn [fmap list_fmap zip_with] in H. injection H as H1 H2.
  cbn [fmap list_fmap zip_with]. rewrite H1. cbn. f_equal. apply IH; [done|]. cbn in Hl. lia.
Qed.

Lemma fmap_zip_fst {A B C D} (f : A → B → C) (g : C → D) (h : A → D) l k :
  (∀ x y, g (f x y) = h x) → (length l ≤ length k)%nat → g <$> zip_with f l k = h <$> l.
Proof.
  intros Hf. revert k. induction l as [|x l IH]; intros [|y k] Hl; cbn in Hl; [done..|lia|]. cbn. rewrite Hf. f_equal. apply IH. lia.
Qed.

(** What the scheduler asks of the engine and what it binds. *)
Lemma admission_fits snapshot intent e s units result :
  ev_snapshot e = snapshot → ev_intent e = intent → let i := im_core intent in
  typed_snapshot snapshot → request_ok (resources_per_unit i) → canonical i (unit_of <$> units) → Forall (from_snapshot snapshot) units →
  CandidateEngine.Evaluate unicode_quote unicode_lower stableID (engine_request s e units) = Ok result →
  length (re_Selected result) = length units →
  let bs := selected_bindings sha256_hex e result in
  bi_pending_unit_id <$> bs ≡ₚ wu_id <$> units ∧ NoDup (wu_id <$> units) ∧
  Forall (λ b, ∃ deviceID, bi_device_ids b = [deviceID] ∧
    fits_on snapshot ∅ deviceID (λ proj, load proj deviceID (binding_demand <$> (Some <$> bs)))) bs.
Proof.
  intros Hes Hei i Ht Hr Hcan Hfrom H Hl. eapply (engine_fits _ _ _ (engine_request s e units) snapshot i) in H as (us & Hp & Hnd & Hle & Hb & Hfit).
  2: { cbn. by rewrite Hes. } 2: { cbn. by rewrite Hei. } 2: exact Hcan. 2: exact Ht.
  2: { apply Forall_fmap. eapply Forall_impl; [exact Hfrom|]. intros u Hu. apply (typed_pending snapshot i (wu_pending u)); [done..|].
       unfold from_snapshot in Hu. destruct (wu_pending u); [apply Hu|done]. }
  specialize (Hb eq_refl). assert (Hids : unit_ID <$> us ≡ₚ wu_id <$> units).
  { rewrite Hp. change (rq_Units (engine_request s e units)) with (unit_of <$> units). rewrite <-!list_fmap_compose.
    apply Permutation_refl', list_fmap_ext. intros n u Hn. apply (identified_unit snapshot). rewrite Forall_forall in Hfrom. apply Hfrom.
    by eapply list_elem_of_lookup_2. }
  assert (Hlen : length us = length units) by (by rewrite <-(length_fmap unit_ID us), Hids, length_fmap).
  unfold i in Hb. rewrite <-Hei in Hb. cbv zeta. rewrite (selected_bindings_zip e result us Hb Hle), Hei. split_and!.
  - rewrite <-Hids, <-list_fmap_compose. apply Permutation_refl'. apply fmap_zip_fst; [done|lia].
  - by rewrite <-Hids.
  - apply Forall_fmap, Forall_forall. intros b (u & o & -> & _ & Ho)%elem_of_zip_with. exists (op_DeviceID o). split; [done|].
    destruct (Hfit o Ho) as (d & Hd & Ed & Hh & Hf). exists d. split_and!; [done..|]. intros proj Hproj.
    rewrite (selected_load proj (op_DeviceID o) (ev_decision e) intent us) by done. exact (Hf proj Hproj).
Qed.


End Decision.
