(* ===== verification/SchedulerWitnesses.v ===== *)
(** * The scheduler's theorems at concrete evaluations *)

From Stdlib Require Import ZArith Lia Ascii.
From S2P Require Import Prelude GoStrings GoTime GoFloat GoHeap Protection SemVer Semantics ComponentRegistry Evaluator ClusterModel SchedulerState Mutation Preemption Reservation ReservationProofs Transaction Intents Constraints Candidates CandidateEngine CandidateProofs CandidateResults CandidateWitnesses Policies PhaseGraph Validation ActionPolicy ActionPolicyProofs SchedulerCore PlanProofs SchedulerProofs.
From stdpp Require Import options.

Local Open Scope Z_scope.

Module SchedulerWitnesses.
Import CandidateWitnesses.

Definition quote (s : string) : string := s.
Definition text {A} (_ : A) : string := "".
(** A digest that keeps what the parts end with. *)
Definition hex (s : string) : string := unchars (reverse (chars s)).
Definition wire (_ : ContractMessage) : Result string string := Ok "contract".
Definition order_of (s : gset string) : list string := elements s.

Definition second (n : Z) : option Timestamp := Some (mkTimestamp n 0).
Definition ten_seconds : option Duration := Some (mkDuration 10 0).

Definition protocol : VersionConstraint :=
  mkVersionConstraint "protocol" VERSION_OPERATOR_COMPATIBLE "0.3.0" false "" 0 COMPONENT_KIND_PROTOCOL
    (Some (mkObservationPolicy None OBSERVATION_DISPOSITION_NOT_APPLICABLE OBSERVATION_DISPOSITION_NOT_APPLICABLE)).
Definition contract : ContractMessage :=
  mkContractMessage ("contract-sha256-" +:+ hex "contract") "1.0.0"
    (Some (mkGraph [Some (mkPhase "s" "stage" PHASE_KIND_DECODE 1 1 ∅)] [] ["s"]))
    [Some (mkValidityRule "rule" "always" "true" VALIDITY_FAILURE_MODE_REJECT None)] [Some protocol]
    (Some (mkCommitPolicy COMMIT_MODE_ALL_OR_NOTHING 1 0 ten_seconds false))
    (Some (mkBackpressurePolicy BACKPRESSURE_MODE_BLOCK_PRODUCER 1 2 3 ten_seconds))
    (Some (mkSafePointPolicy false SAFE_POINT_TRIGGER_UNKNOWN None None []))
    (Some (mkContractCapabilities false false false false false [])) [] [].
Definition core (units priority : Z) : SchedulingIntent :=
  mkIntent "e" "s" 1 (second 101) (Some (mkDuration 100 0)) (IntentIdempotencyKey hex "e" "s" 1) (second 1) "j" (Some (rv 2 3)) units
    None priority "" "policy" "r" "t" DATA_KIND_LIVE "".
Definition message (units priority : Z) : IntentMessage :=
  mkIntentMessage (core units priority) (Some contract) "queue" ∅ ROLLOUT_MODE_SYNC PHASE_KIND_DECODE 1 ∅ "" 1 "" None.
Definition cluster : ClusterSnapshot :=
  mkSnapshot "snapshot" 7 (second 5) [dev "d2" 8 8; dev "d1" 6 9] [] [] ∅ "".
Definition config : SchedulerConfig :=
  mkSchedulerConfig "" "" "" DATA_KIND_LIVE "" (mkBundle "b" "1" StrategyScoreFirst 1 true "low_priority_first" true) None (Some LowPriorityFirst).
Definition scheduler : Scheduler :=
  match New quote config with
  | Ok s => s
  | Err _ => mkScheduler FallbackNoOp "" "" DATA_KIND_LIVE "" (default_bundle "") NoOp disabled_guard PreemptionNoOp
  end.
Definition readings : Readings := mkReadings (AsTime (second 9)) 0 1.

Definition evaluate (snapshot : ClusterSnapshot) (intent : IntentMessage) : Result SchedulerError Outcome :=
  EvaluateWithContext quote quote quote text text hex wire order_of text (λ _ _, "") scheduler readings (Some snapshot) (Some intent) None.

(** A full cluster at a safe point. *)
Definition victim (id device : string) (priority : Z) : Allocation :=
  mkAllocation id "other" "s" 1 "j" "w" [device] (Some (rv 3 8)) ALLOCATION_STATE_ACTIVE None (second 90) "r" "t"
    DATA_KIND_LIVE 4 ("runtime-" +:+ id) "" "p" "" (Some priority) ("sandbox-" +:+ id) ("binding-" +:+ id).
Definition full_device (id : string) : Device :=
  mkDevice id DEVICE_HEALTH_READY (Some (mkResources 3 8 f1 0 0)) (Some (mkResources 0 0 f0 0 0))
    (Some (mkCapabilities [] ∅ [] [] "probe" 1 (second 1) ["bind"; "release"] ∅ [] [])) ∅ Semantics.DEVICE_KIND_GPU.
Definition full : ClusterSnapshot :=
  mkSnapshot "snapshot" 7 (second 5) [full_device "d2"; full_device "d1"] [victim "a2" "d2" 5; victim "a1" "d1" 3] []
    {["safe_point" := "true"]} "".

(** What an evaluation gives out, when it succeeds. *)
Definition nothing : Outcome := (empty_plan [], initial_record quote scheduler cluster (message 0 0) empty_context 0 0 "", disabled_guard).
Definition outcome (r : Result SchedulerError Outcome) : Outcome := match r with Ok o => o | Err _ => nothing end.
Definition admitted : Outcome := outcome (evaluate cluster (message 2 0)).
Definition preempted : Outcome := outcome (evaluate full (message 1 4)).

Lemma outcome_Ok r : is_ok r = true → r = Ok (outcome r).
Proof. by destruct r. Qed.

Lemma evaluate_Ok snapshot intent :
  is_ok (evaluate snapshot intent) = true →
  let o := outcome (evaluate snapshot intent) in evaluate snapshot intent = Ok (o.1.1, o.1.2, o.2).
Proof. intros H. cbv zeta. rewrite (outcome_Ok _ H) at 1. by destruct (outcome _) as [[? ?] ?]. Qed.

Lemma zero_dash (s : string) : is_ascii s = false → quote (dash s) = dash (quote s).
Proof. done. Qed.

Lemma typed_list {A} (P : A → Prop) (l : list A) : (∀ x, x ∈ l → P x) → Forall P l.
Proof. apply Forall_forall. Qed.

Lemma cluster_typed : typed_snapshot cluster.
Proof.
  split; [|split; apply Forall_nil_2]. repeat constructor; apply small; by vm_compute.
Qed.
Lemma full_typed : typed_snapshot full.
Proof.
  split; [|split; [|apply Forall_nil_2]]; repeat (apply Forall_cons; split); try apply Forall_nil_2;
    [split; apply small; by vm_compute..|intros q [= <-]; apply small; by vm_compute|intros q [= <-]; apply small; by vm_compute].
Qed.
Lemma core_typed units priority : request_ok (resources_per_unit (core units priority)).
Proof. intros q [= <-]. apply small. by vm_compute. Qed.

Lemma framed_injective_witness : framed ["ab"; ""; "c"] = "2:ab0:1:c" ∧ (∀ xs, framed xs = "2:ab0:1:c" → xs = ["ab"; ""; "c"]).
Proof. split; [by vm_compute|]. intros xs H. apply framed_injective. rewrite H. by vm_compute. Defined.

Lemma makePlan_accepted_witness :
  let bs := [makeBinding hex "d" "u2" "" "d2" None; makeBinding hex "d" "u1" "" "d1" (Some (rv 1 2))] in
  ActionPolicy.ValidatePlan quote quote (Some (makePlan quote hex "d" "p" cluster (message 2 0) 9 bs true TICK_KIND_MEDIUM)) TICK_KIND_MEDIUM false = Ok tt.
Proof.
  cbv zeta. apply makePlan_accepted; [exact zero_dash|done|by eexists|repeat constructor; by vm_compute].
Defined.


(** The plan that releases one victim. *)
Definition one_victim : option PlacementPlan :=
  buildPreemptionPlan quote quote hex full (message 1 4) 9 "d" TICK_KIND_FAST (findPendingUnit full "u" (message 1 4)) [victim "a1" "d1" 3] "d1" true.

Lemma buildPreemptionPlan_accepted_witness :
  ∃ plan, one_victim = Some plan ∧ validateAuthoritativePlan quote quote plan (mkEvaluationContext TICK_KIND_FAST None 0 "" 0 None false) = Ok tt.
Proof.
  destruct one_victim as [plan|] eqn:E; [|by apply (f_equal (λ o, bool_decide (is_Some o))) in E; vm_compute in E].
  exists plan. split; [done|]. eapply buildPreemptionPlan_accepted; [exact E|done|by eexists].
Defined.


Lemma EvaluateWithContext_decision_witness :
  is_ok (evaluate full (message 1 4)) = true ∧ fallback preempted.1.2 = false ∧ length (actions preempted.1.1) = 2%nat ∧
  selected_plan preempted.1.2 = Some preempted.1.1.
Proof.
  assert (Hok : is_ok (evaluate full (message 1 4)) = true) by by vm_compute. split_and!; [done|by vm_compute|by vm_compute|].
  apply evaluate_Ok, EvaluateWithContext_decision in Hok as (now & sequence & evals & aggregate & _ & _ & H & _). exact H.
Defined.

Lemma fresh_canonical units : workUnits hex cluster (core 2 0) = Ok units → canonical (core 2 0) (unit_of <$> units).
Proof.
  intros H. assert (Hn : from_option (forallb (λ u, bool_decide (wu_pending u = None))) false
    (match workUnits hex cluster (core 2 0) with Ok us => Some us | Err _ => None end) = true) by by vm_compute.
  rewrite H in Hn. cbn in Hn. rewrite forallb_forall in Hn.
  assert (Hp : ∀ u, u ∈ unit_of <$> units → Pending u = None).
  { intros u (w & -> & Hw%list_elem_of_In)%list_elem_of_fmap. specialize (Hn w Hw). by bool_props. }
  intros u v Hu Hv. unfold requirementsFor. by rewrite (Hp u Hu), (Hp v Hv).
Qed.


(** A preemption whose replacement has no runtime unit: the scheduler gives the plan out,
    the policy of actions, which the provider applies to it, refuses it. *)
Lemma preemption_without_runtime_unit :
  fallback preempted.1.2 = false ∧ length (actions preempted.1.1) = 2%nat ∧
  match ActionPolicy.ValidatePlan quote quote (Some preempted.1.1) TICK_KIND_FAST false with
  | Ok _ => False
  | Err e => Kind e = ViolationPrecondition ∧ HasPrefix (Message e) "preemption bind" = true
  end.
Proof. by vm_compute. Qed.

End SchedulerWitnesses.
