(* ===== verification/AdaptiveArbitrationProofs.v ===== *)
(** * What arbitration promises

    The selection keeps every budget, has one purpose and no two actions on the same target
    that exclude each other; nothing that was left out could still be added; and the order
    in which the planners made their proposals does not matter. *)

From Stdlib Require Import ZArith Lia.
From S2P Require Import Prelude GoStrings GoTime GoFloat Semantics Evaluator ClusterModel PhaseGraph Validation ActionPolicy SchedulerCore AdaptiveModel AdaptiveSignals AdaptiveTargets AdaptivePlanners AdaptiveArbitration.
From stdpp Require Import options.

Local Open Scope Z_scope.

(** ** Sums over a selection *)

Definition sum_of {A} (f : A → Z) (l : list A) : Z := foldr (λ a s, f a + s) 0 l.

Lemma sum_of_snoc {A} (f : A → Z) l a : sum_of f (l ++ [a]) = sum_of f l + f a.
Proof. induction l as [|b l IH]; cbn; [lia|]. unfold sum_of in *. rewrite IH. lia. Qed.

Lemma sum_of_nonneg {A} (f : A → Z) l : (∀ a, 0 ≤ f a) → 0 ≤ sum_of f l.
Proof. intros H. induction l as [|b l IH]; cbn; [lia|]. specialize (H b). unfold sum_of in IH. lia. Qed.

Lemma sum_of_zero {A} (f : A → Z) l : (∀ a, a ∈ l → f a = 0) → sum_of f l = 0.
Proof.
  intros H. induction l as [|b l IH]; [done|]. cbn. rewrite (H b) by left. unfold sum_of in IH. rewrite IH; [lia|].
  intros a Ha. apply H. by right.
Qed.

Lemma sum_of_perm {A} (f : A → Z) l l' : l ≡ₚ l' → sum_of f l = sum_of f l'.
Proof. unfold sum_of. induction 1; cbn; lia. Qed.

Lemma sum_of_cons {A} (f : A → Z) a l : sum_of f (a :: l) = f a + sum_of f l.
Proof. done. Qed.

#[local] Arguments sum_of : simpl never.

(** ** The selection *)

Definition L4_count (plan : PlacementPlan) : Z := Z.of_nat (length (filter (λ a, is_L4 a = true) (actions plan))).
Definition action_count (plan : PlacementPlan) : Z := Z.of_nat (length (actions plan)).

(** The cost of recovery the evidence of a proposal states. *)
Definition stated_cost (proposals : list PlannerProposal) (index : nat) : Z :=
  from_option (λ p, recovery_cost_of (pe_inputs (pp_Evidence p))) 0 (proposals !! index).

(** The plan belongs to a proposal that may be selected. *)
Definition offered (proposals : list PlannerProposal) (s : nat * PlacementPlan) : Prop :=
  ∃ p, proposals !! s.1 = Some p ∧ eligible_plan p = Some s.2.

Definition all_targets (plans : list PlacementPlan) : gset string := ⋃ (proposal_targets <$> plans).

#[local] Arguments all_targets : simpl never.

Definition no_conflict (s s' : nat * PlacementPlan) : Prop := plans_conflict s.2 s'.2 = false.

(** What a selection adds up to, and how its plans go together. *)
Record Accounted (proposals : list PlannerProposal) (st : Selection) : Prop := {
  acc_offered : Forall (offered proposals) (selected st);
  acc_nodup : NoDup (selected st).*1;
  acc_actions : sel_actions st = sum_of action_count (selected st).*2;
  acc_L4 : sel_reconfigurations st = sum_of L4_count (selected st).*2;
  acc_cost : sel_cost st = sum_of (stated_cost proposals) (selected st).*1;
  acc_targets : sel_targets st = all_targets (selected st).*2;
  acc_purpose : Forall (λ s, purpose s.2 = PLAN_PURPOSE_UNKNOWN ∨ purpose s.2 = selectedPurpose st) (selected st);
  acc_unknown : selectedPurpose st = PLAN_PURPOSE_UNKNOWN → Forall (λ s, purpose s.2 = PLAN_PURPOSE_UNKNOWN) (selected st);
  acc_class : Forall (λ s, classifyPlanMerge s.2 = selectedClass st) (selected st);
  acc_exclusive : selectedClass st = planMergeExclusive → (length (selected st) ≤ 1)%nat;
  acc_conflicts s s' : s ∈ selected st → s' ∈ selected st → s.1 ≠ s'.1 → no_conflict s s';
}.

(** The budget is kept. *)
Record Within (b : PlannerBudgetConfig) (st : Selection) : Prop := {
  within_actions : sel_actions st ≤ MaxActions b;
  within_targets : Z.of_nat (size (sel_targets st)) ≤ MaxAffectedSandboxes b;
  within_L4 : sel_reconfigurations st ≤ MaxGPUReconfigurations b;
  within_disabled : DisableL4 b = true → sel_reconfigurations st = 0;
  within_cost : sel_cost st ≤ MaxRecoveryCostNanos b;
}.

(** No limit is negative. *)
Definition budget_ok (b : PlannerBudgetConfig) : Prop :=
  0 ≤ MaxActions b ∧ 0 ≤ MaxAffectedSandboxes b ∧ 0 ≤ MaxGPUReconfigurations b ∧ 0 ≤ MaxRecoveryCostNanos b.

Lemma normalized_budget_ok value n : budget_ok (normalizePlannerBudget value n).
Proof.
  unfold budget_ok, normalizePlannerBudget, DefaultPlannerActionBudget, max_int64. cbn.
  repeat (case_match; rewrite ?Z.leb_le, ?Z.leb_gt, ?Z.ltb_lt, ?Z.ltb_ge in * ); lia.
Qed.

(** ** Conflicts *)

Lemma compatible_sym l r : compatibleSameTargetActions l r = compatibleSameTargetActions r l.
Proof. unfold compatibleSameTargetActions. rewrite orb_comm. f_equal; apply andb_comm. Qed.

Lemma actions_conflict_sym a b : actions_conflict a b = actions_conflict b a.
Proof.
  unfold actions_conflict. rewrite compatible_sym. f_equal. apply bool_decide_ext. naive_solver.
Qed.

Lemma plans_conflict_iff p q :
  plans_conflict p q = true ↔ ∃ a b, a ∈ actions p ∧ b ∈ actions q ∧ actions_conflict a b = true.
Proof.
  unfold plans_conflict. rewrite existsb_exists. split.
  - intros (a & Ha & Hc). apply existsb_exists in Hc as (b & Hb & Hc). exists a, b. by rewrite !list_elem_of_In.
  - intros (a & b & Ha & Hb & Hc). exists a. rewrite <- list_elem_of_In. split; [done|]. apply existsb_exists. exists b.
    by rewrite <- list_elem_of_In.
Qed.

Lemma plans_conflict_sym p q : plans_conflict p q = plans_conflict q p.
Proof.
  apply eq_true_iff_eq. rewrite !plans_conflict_iff. split; intros (a & b & Ha & Hb & Hc); exists b, a; by rewrite actions_conflict_sym.
Qed.

(** ** One proposal *)

(** Nothing stands against the proposal. *)
Lemma deferral_None b st plan cost :
  deferral b st plan cost = None →
  (selectedPurpose st = PLAN_PURPOSE_UNKNOWN ∨ purpose plan = selectedPurpose st) ∧
  sel_actions st + cost_actions cost ≤ MaxActions b ∧
  Z.of_nat (size (sel_targets st)) + countNewTargets plan (sel_targets st) ≤ MaxAffectedSandboxes b ∧
  sel_reconfigurations st + gpuReconfigurations cost ≤ MaxGPUReconfigurations b ∧
  (DisableL4 b = true → containsL4 cost = false) ∧
  sel_cost st + recoveryCost cost ≤ MaxRecoveryCostNanos b ∧
  (selected st = [] ∨ selectedClass st ≠ planMergeExclusive ∧ classifyPlanMerge plan = selectedClass st) ∧
  Forall (λ s, plans_conflict plan s.2 = false) (selected st).
Proof.
  unfold deferral. intros H. repeat (case_match; [done|]). clear H.
  repeat match goal with E : _ || _ = false |- _ => apply orb_false_iff in E as [? E] end.
  rewrite ?Z.ltb_ge in *.
  split_and!; try lia.
  - destruct (decide (selectedPurpose st = PLAN_PURPOSE_UNKNOWN)); [by left|]. right.
    match goal with E : negb (bool_decide (selectedPurpose st = _)) && _ = false |- _ => rewrite bool_decide_eq_false_2 in E by done end.
    cbn [negb andb] in *. by bool_props.
  - intros HL. match goal with E : containsL4 cost && _ = false |- _ => rewrite HL, andb_true_r in E end. done.
  - match goal with E : negb (bool_decide (length _ = _)) && _ = false |- _ => apply andb_false_iff in E as [E|E] end.
    + left. bool_props. by apply nil_length_inv.
    + right. by bool_props.
  - apply Forall_forall. intros s Hs. destruct (plans_conflict plan s.2) eqn:Ec; [|done].
    match goal with E : existsb _ _ = false |- _ => rewrite <- not_true_iff_false in E; destruct E end.
    apply existsb_exists. exists s. by rewrite <- list_elem_of_In.
Qed.

Lemma is_L4_count plan e : containsL4 (proposalCost plan e) = false → L4_count plan = 0.
Proof.
  unfold proposalCost, L4_count. cbn [containsL4]. induction (actions plan) as [|a l IH]; [done|]. cbn [existsb].
  intros [Ha Hl]%orb_false_iff. rewrite filter_cons_False by (by rewrite Ha). by apply IH.
Qed.

Lemma all_targets_snoc plans plan : all_targets (plans ++ [plan]) = all_targets plans ∪ proposal_targets plan.
Proof. unfold all_targets. rewrite fmap_app, union_list_app_L. cbn. set_solver. Qed.

Lemma accounted_select proposals b st index p plan :
  Accounted proposals st → proposals !! index = Some p → eligible_plan p = Some plan → index ∉ (selected st).*1 →
  deferral b st plan (proposalCost plan (pp_Evidence p)) = None →
  Accounted proposals (select_plan index plan (proposalCost plan (pp_Evidence p)) st).
Proof.
  intros [H1 H2 H3 H4 H5 H6 H7 H8 H9 H10 H11] Hp He Hn (D1 & D2 & D3 & D4 & D5 & D6 & D7 & D8)%deferral_None.
  unfold select_plan. split; cbn; rewrite ?fmap_app; cbn.
  - apply Forall_app. split; [done|]. apply Forall_singleton. by exists p.
  - apply NoDup_app. split_and!; [done| |apply NoDup_singleton]. intros x Hx. by rewrite list_elem_of_singleton; intros ->.
  - by rewrite sum_of_snoc, <- H3.
  - by rewrite sum_of_snoc, <- H4.
  - rewrite sum_of_snoc, <- H5. unfold stated_cost. by rewrite Hp.
  - by rewrite all_targets_snoc, <- H6.
  - apply Forall_app. split; [|by apply Forall_singleton; right].
    destruct D1 as [D1| ->]; [|done]. specialize (H8 D1). eapply Forall_impl; [exact H8|]. by left.
  - intros Hu. apply Forall_app. split; [|by apply Forall_singleton].
    apply H8. destruct D1 as [D1|D1]; [done|]. by rewrite <- D1.
  - apply Forall_app. split; [|by apply Forall_singleton]. destruct D7 as [->|[_ D7]]; [constructor|]. by rewrite D7.
  - intros Hx. rewrite length_app. cbn. destruct D7 as [->|[D7 D7']]; [done|]. congruence.
  - intros s s'. rewrite !elem_of_app, !list_elem_of_singleton. rewrite Forall_forall in D8. unfold no_conflict.
    intros [Hs| ->] [Hs'| ->] Hd; [by apply H11|rewrite plans_conflict_sym; by apply D8|by apply D8|done].
Qed.

Lemma within_select b st index plan e :
  Within b st → deferral b st plan (proposalCost plan e) = None → Within b (select_plan index plan (proposalCost plan e) st).
Proof.
  intros [H1 H2 H3 H4 H5] (D1 & D2 & D3 & D4 & D5 & D6 & _)%deferral_None.
  split; cbn; cbn in D2, D4, D6; try done.
  - rewrite size_union_alt. unfold countNewTargets in D3. lia.
  - intros HD. rewrite (H4 HD). specialize (D5 HD). apply is_L4_count in D5. unfold L4_count in D5. lia.
Qed.

(** ** The whole round *)

Lemma imap_pair_lookup {A} (l : list A) k x : (k, x) ∈ imap pair l ↔ l !! k = Some x.
Proof.
  rewrite elem_of_lookup_imap. split.
  - by intros (i & y & [= -> ->] & H).
  - intros H. by exists k, x.
Qed.

Lemma ordered_lookup proposals k p : (k, p) ∈ ordered_proposals proposals ↔ proposals !! k = Some p.
Proof. unfold ordered_proposals. by rewrite elem_of_sort_by, imap_pair_lookup. Qed.

Lemma imap_pair_fst {A} (l : list A) : (imap pair l).*1 = seq 0 (length l).
Proof.
  apply list_eq. intros k. rewrite list_lookup_fmap, list_lookup_imap.
  destruct (l !! k) eqn:E; cbn.
  - symmetry. apply lookup_seq. apply lookup_lt_Some in E. lia.
  - symmetry. apply lookup_ge_None in E. apply lookup_seq_ge. lia.
Qed.

Lemma ordered_nodup proposals : NoDup (ordered_proposals proposals).*1.
Proof.
  unfold ordered_proposals. rewrite sort_by_perm, imap_pair_fst. apply NoDup_seq.
Qed.

Lemma deferral_None_intro b st plan cost :
  (selectedPurpose st = PLAN_PURPOSE_UNKNOWN ∨ purpose plan = selectedPurpose st) →
  sel_actions st + cost_actions cost ≤ MaxActions b →
  Z.of_nat (size (sel_targets st)) + countNewTargets plan (sel_targets st) ≤ MaxAffectedSandboxes b →
  sel_reconfigurations st + gpuReconfigurations cost ≤ MaxGPUReconfigurations b →
  (DisableL4 b = true → containsL4 cost = false) →
  sel_cost st ≤ MaxRecoveryCostNanos b → sel_cost st + recoveryCost cost ≤ MaxRecoveryCostNanos b →
  (selected st = [] ∨ selectedClass st ≠ planMergeExclusive ∧ classifyPlanMerge plan = selectedClass st) →
  Forall (λ s, plans_conflict plan s.2 = false) (selected st) →
  deferral b st plan cost = None.
Proof.
  intros D1 D2 D3 D4 D5 D6' D6 D7 D8.
  assert (E1 : negb (bool_decide (selectedPurpose st = PLAN_PURPOSE_UNKNOWN)) && negb (bool_decide (purpose plan = selectedPurpose st)) = false).
  { destruct D1 as [->| ->]; [done|]. by rewrite (bool_decide_eq_true_2 (_ = selectedPurpose st)), andb_false_r. }
  assert (E2 : containsL4 cost && DisableL4 b = false) by (destruct (DisableL4 b); [by rewrite D5|by rewrite andb_false_r]).
  assert (E3 : negb (bool_decide (length (selected st) = 0%nat)) &&
               (bool_decide (selectedClass st = planMergeExclusive) || negb (bool_decide (classifyPlanMerge plan = selectedClass st))) = false).
  { destruct D7 as [->|[D7 ->]]; [done|].
    by rewrite (bool_decide_eq_false_2 (_ = planMergeExclusive)), (bool_decide_eq_true_2 (_ = selectedClass st)), andb_false_r by done. }
  assert (E4 : existsb (λ s, plans_conflict plan s.2) (selected st) = false).
  { apply not_true_iff_false. rewrite existsb_exists. intros (s & Hs & Hc). rewrite Forall_forall in D8.
    rewrite D8 in Hc; [done|by apply list_elem_of_In]. }
  unfold deferral. rewrite E1, E2, E3, E4. rewrite !(proj2 (Z.ltb_ge _ _)) by lia. done.
Qed.

(** A selection only grows, and keeps its purpose and its class. *)
Record Grows (st st' : Selection) : Prop := {
  grows_selected : selected st `prefix_of` selected st';
  grows_actions : sel_actions st ≤ sel_actions st';
  grows_L4 : sel_reconfigurations st ≤ sel_reconfigurations st';
  grows_cost : sel_cost st ≤ sel_cost st';
  grows_targets : sel_targets st ⊆ sel_targets st';
  grows_purpose : selectedPurpose st ≠ PLAN_PURPOSE_UNKNOWN → selectedPurpose st' = selectedPurpose st;
  grows_class : selected st ≠ [] → selectedClass st' = selectedClass st;
}.

#[export] Instance Grows_preorder : PreOrder Grows.
Proof.
  split.
  - intros st. by split.
  - intros s1 s2 s3 [A1 A2 A3 A4 A5 A6 A7] [B1 B2 B3 B4 B5 B6 B7]. split; [by etrans|lia|lia|lia|set_solver| |].
    + intros H. rewrite B6; [by apply A6|]. by rewrite (A6 H).
    + intros H. rewrite B7; [by apply A7|]. intros E. apply H. rewrite E in A1. by apply prefix_nil_inv in A1.
Qed.

Lemma recovery_cost_nonneg inputs : 0 ≤ recovery_cost_of inputs.
Proof.
  unfold recovery_cost_of.
  match goal with |- 0 ≤ foldl ?f 0 _ => enough (H : ∀ z, 0 ≤ z → 0 ≤ foldl f z inputs) by (by apply H) end.
  induction inputs as [|f inputs IH]; intros z Hz; cbn; [done|]. apply IH. repeat case_match; bool_props; lia.
Qed.

Lemma select_grows b st index plan e :
  deferral b st plan (proposalCost plan e) = None → Grows st (select_plan index plan (proposalCost plan e) st).
Proof.
  intros (D1 & D2 & D3 & D4 & D5 & D6 & D7 & _)%deferral_None. pose proof (recovery_cost_nonneg (pe_inputs e)).
  split; cbn; [by apply prefix_app_r|lia|lia|lia|set_solver| |].
  - intros H'. by destruct D1.
  - intros H'. by destruct D7 as [|[_ D7]].
Qed.

(** What had to wait once has to wait for good. *)
Lemma deferral_stays b st st' plan cost :
  Grows st st' → Within b st → deferral b st plan cost ≠ None → deferral b st' plan cost ≠ None.
Proof.
  intros [G1 G2 G3 G4 G5 G6 G7] [W1 W2 W3 W4 W5] Hd Hn. apply Hd.
  apply deferral_None in Hn as (D1 & D2 & D3 & D4 & D5 & D6 & D7 & D8). apply deferral_None_intro; try done; try lia.
  - destruct (decide (selectedPurpose st = PLAN_PURPOSE_UNKNOWN)) as [|Hp]; [by left|]. right. rewrite <- (G6 Hp).
    destruct D1 as [D1|D1]; [|done]. by rewrite G6 in D1.
  - unfold countNewTargets in *.
    pose proof (size_union_alt (sel_targets st) (proposal_targets plan)). pose proof (size_union_alt (sel_targets st') (proposal_targets plan)).
    pose proof (subseteq_size (sel_targets st ∪ proposal_targets plan) (sel_targets st' ∪ proposal_targets plan) ltac:(set_solver)). lia.
  - destruct (decide (selected st = [])) as [|Hs]; [by left|]. right. rewrite <- (G7 Hs).
    destruct D7 as [D7|D7]; [|done]. rewrite D7 in G1. by apply prefix_nil_inv in G1.
  - destruct G1 as [k E]. rewrite E in D8. by apply Forall_app in D8 as [D8 _].
Qed.

(** The proposal cannot be added to the selection. *)
Definition must_wait (b : PlannerBudgetConfig) (st : Selection) (p : PlannerProposal) : Prop :=
  ∀ plan, eligible_plan p = Some plan → deferral b st plan (proposalCost plan (pp_Evidence p)) ≠ None.

Lemma must_wait_stays b st st' p : Grows st st' → Within b st → must_wait b st p → must_wait b st' p.
Proof. intros HG HW H plan He. eapply deferral_stays; eauto. Qed.

(** What becomes of a proposal of the array. *)
Definition marked_as (chosen : bool) (p p' : PlannerProposal) : Prop :=
  if chosen then p' = mark_selected p else p' = p ∧ eligible_plan p = None ∨ ∃ why, p' = deferProposal why p.

Record Arbitrated (b : PlannerBudgetConfig) (proposals : list PlannerProposal) (entries : list (nat * PlannerProposal))
    (st : Selection) (marked : list PlannerProposal) (st' : Selection) (marked' : list PlannerProposal) : Prop := {
  arb_accounted : Accounted proposals st';
  arb_within : Within b st';
  arb_grows : Grows st st';
  arb_new k : k ∈ (selected st').*1 → k ∈ (selected st).*1 ∨ k ∈ entries.*1;
  arb_waits k p : (k, p) ∈ entries → k ∉ (selected st').*1 → must_wait b st' p;
  arb_marks k p : (k, p) ∈ entries → marked !! k = Some p →
    ∃ p', marked' !! k = Some p' ∧ marked_as (bool_decide (k ∈ (selected st').*1)) p p';
  arb_others k : k ∉ entries.*1 → marked' !! k = marked !! k;
}.

Lemma arbitrate_step b proposals st marked k p :
  proposals !! k = Some p → k ∉ (selected st).*1 → Accounted proposals st → Within b st →
  let '(st', marked') := arbitrate_one b (st, marked) (k, p) in Arbitrated b proposals [(k, p)] st marked st' marked'.
Proof.
  intros Hp Hk HA HW. unfold arbitrate_one. cbn [fst snd].
  destruct (eligible_plan p) as [plan|] eqn:He.
  2: { split; try done; [by left| |].
    - intros k' p' [= -> ->]%list_elem_of_singleton _ plan. by rewrite He.
    - intros k' p' [= -> ->]%list_elem_of_singleton Hm. exists p. split; [done|]. unfold marked_as.
      rewrite bool_decide_eq_false_2 by done. by left. }
  destruct (deferral b st plan (proposalCost plan (pp_Evidence p))) as [why|] eqn:Ed.
  - split; try done; [by left| | |].
    + intros k' p' [= -> ->]%list_elem_of_singleton _ plan'. rewrite He. intros [= <-]. by rewrite Ed.
    + intros k' p' [= -> ->]%list_elem_of_singleton Hm. exists (deferProposal why p). rewrite list_lookup_alter_eq, Hm. split; [done|].
      unfold marked_as. rewrite bool_decide_eq_false_2 by done. right. by exists why.
    + intros k' Hk'. apply list_lookup_alter_ne. set_solver.
  - assert (Hin : k ∈ (selected st ++ [(k, plan)]).*1) by (rewrite fmap_app; set_solver).
    split; [by eapply accounted_select|by apply within_select|by eapply select_grows| | | |].
    + intros k'. cbn. rewrite fmap_app. set_solver.
    + intros k' p' [= -> ->]%list_elem_of_singleton H. by destruct H.
    + intros k' p' [= -> ->]%list_elem_of_singleton Hm. exists (mark_selected p). rewrite list_lookup_alter_eq, Hm. split; [done|].
      cbn [select_plan selected]. by rewrite bool_decide_eq_true_2.
    + intros k' Hk'. apply list_lookup_alter_ne. set_solver.
Qed.

Lemma arbitrate_fold b proposals entries st marked :
  (∀ k p, (k, p) ∈ entries → proposals !! k = Some p) → NoDup entries.*1 → (∀ k, k ∈ entries.*1 → k ∉ (selected st).*1) →
  Accounted proposals st → Within b st →
  let '(st', marked') := foldl (arbitrate_one b) (st, marked) entries in Arbitrated b proposals entries st marked st' marked'.
Proof.
  revert st marked. induction entries as [|[k p] entries IH]; intros st marked Hof Hnd Hfresh HA HW; cbn [foldl].
  { split; try done; [by left|set_solver|set_solver]. }
  apply NoDup_cons in Hnd as [Hk Hnd].
  pose proof (arbitrate_step b proposals st marked k p) as Hs.
  destruct (arbitrate_one b (st, marked) (k, p)) as [st1 marked1].
  destruct Hs as [S1 S2 S3 S4 S5 S6 S7]; [apply Hof; by left|apply Hfresh; by left|done|done|].
  specialize (IH st1 marked1). destruct (foldl (arbitrate_one b) (st1, marked1) entries) as [st' marked'].
  destruct IH as [T1 T2 T3 T4 T5 T6 T7]; [intros; apply Hof; by right|done| |done|done|].
  { intros k' Hk' Hin. apply S4 in Hin as [Hin|Hin]; [|set_solver]. by apply (Hfresh k'); [right|]. }
  assert (Hst : k ∈ (selected st').*1 ↔ k ∈ (selected st1).*1).
  { split; [|destruct T3 as [[l E] _ _ _ _ _ _]; rewrite E, fmap_app; set_solver].
    intros Hin. by apply T4 in Hin as [Hin|Hin]. }
  split; [done|done|by etrans| | | |].
  - intros k' Hk'. apply T4 in Hk' as [Hk'|Hk']; [|set_solver]. apply S4 in Hk'. set_solver.
  - intros k' p' [[= -> ->]|Hin]%elem_of_cons Hout; [|by apply (T5 k')].
    eapply must_wait_stays; [exact T3|exact S2|]. apply (S5 k p); [by left|]. by rewrite <- Hst.
  - intros k' p' [[= -> ->]|Hin]%elem_of_cons Hm.
    + destruct (S6 k p) as (p1 & E1 & E2); [by left|done|]. exists p1. rewrite T7 by done. split; [done|].
      by rewrite (bool_decide_ext _ _ Hst).
    + apply (T6 k'); [done|]. rewrite S7; [done|]. cbn. intros ->%list_elem_of_singleton. apply Hk. by apply (list_elem_of_fmap_2 fst _ (k, p')).
  - intros k' Hk'. rewrite T7, S7; [done|set_solver|set_solver].
Qed.

Lemma nothing_accounted proposals : Accounted proposals no_selection.
Proof. split; cbn; try done; try constructor. intros s s' H. by apply elem_of_nil in H. Qed.

Lemma nothing_within b : budget_ok b → Within b no_selection.
Proof. intros (? & ? & ? & ?). split; cbn; try done; lia. Qed.

Lemma arbitrate_all_spec b proposals :
  budget_ok b →
  let '(st, marked) := arbitrate_all b proposals in
  Arbitrated b proposals (ordered_proposals proposals) no_selection proposals st marked.
Proof.
  intros Hb. apply arbitrate_fold; [|apply ordered_nodup|set_solver|apply nothing_accounted|by apply nothing_within].
  intros k p. by rewrite ordered_lookup.
Qed.

(** ** Properties *)

(** C26: Whatever the planners propose, the proposals arbitration selects are offered ones, each
    once; together they keep every limit of the normalised budget (actions, sandboxes
    affected, GPU reconfigurations, none at all when they are disabled, stated recovery
    cost); they have one purpose and one way of being merged, a plan that merges with no
    other is alone; no two of them act on one target in ways that exclude each other; and
    the plan answered is their merge. *)
Theorem arbitration_within_budget sha256_hex i proposals value n sel plan marked :
  let b := normalizePlannerBudget value n in
  arbitrateProposals sha256_hex i proposals b = (sel, plan, marked) →
  ∃ chosen : list (nat * PlacementPlan),
    chosen.*1 = sel ∧ NoDup sel ∧ Forall (offered proposals) chosen ∧
    sum_of action_count chosen.*2 ≤ MaxActions b ∧
    Z.of_nat (size (all_targets chosen.*2)) ≤ MaxAffectedSandboxes b ∧
    sum_of L4_count chosen.*2 ≤ MaxGPUReconfigurations b ∧
    (DisableL4 b = true → sum_of L4_count chosen.*2 = 0) ∧
    sum_of (stated_cost proposals) sel ≤ MaxRecoveryCostNanos b ∧
    (∃ p, Forall (λ s, purpose s.2 = PLAN_PURPOSE_UNKNOWN ∨ purpose s.2 = p) chosen) ∧
    (∃ c, Forall (λ s, classifyPlanMerge s.2 = c) chosen ∧ (c = planMergeExclusive → (length chosen ≤ 1)%nat)) ∧
    (∀ s s', s ∈ chosen → s' ∈ chosen → s.1 ≠ s'.1 → plans_conflict s.2 s'.2 = false) ∧
    plan = mergeSelectedPlans sha256_hex i chosen.*2.
Proof.
  intros b H. pose proof (normalized_budget_ok value n) as Hb. pose proof (arbitrate_all_spec b proposals Hb) as Ha.
  unfold arbitrateProposals in H. destruct (arbitrate_all b proposals) as [st marks]. case_match; simplify_eq.
  - exists []. destruct Hb as (? & ? & ? & ?). repeat split; try done; try constructor.
    + exists PLAN_PURPOSE_UNKNOWN. constructor.
    + exists planMergeUnknown. split; [constructor|done].
    + intros s s' Hs. by apply elem_of_nil in Hs.
  - destruct Ha as [[A1 A2 A3 A4 A5 A6 A7 A8 A9 A10 A11] [W1 W2 W3 W4 W5] _ _ _ _ _].
    exists (selected st). rewrite <- A3, <- A4, <- A5, <- A6. split_and!; try done.
    + by exists (selectedPurpose st).
    + by exists (selectedClass st).
Qed.

(** Arbitration is as generous as its budget: a proposal that is left out could not be added
    to the proposals selected (it breaks a limit, mixes purposes or shapes, or conflicts
    with one of them), so a proposal that fits an empty selection is never the loser of all;
    and the evidence says which proposals were selected and which were deferred. *)
Theorem arbitration_maximal value n proposals k p :
  let b := normalizePlannerBudget value n in
  let '(st, marked) := arbitrate_all b proposals in
  proposals !! k = Some p →
  (k ∉ (selected st).*1 → must_wait b st p) ∧
  ∃ p', marked !! k = Some p' ∧ marked_as (bool_decide (k ∈ (selected st).*1)) p p'.
Proof.
  intros b. pose proof (arbitrate_all_spec b proposals (normalized_budget_ok value n)) as Ha.
  destruct (arbitrate_all b proposals) as [st marked]. intros Hp. destruct Ha as [_ _ _ _ A1 A2 _]. rewrite <- ordered_lookup in Hp.
  split; [by apply A1|]. apply A2; [done|]. by apply ordered_lookup.
Qed.

(** ** The order of the proposals does not matter *)

Lemma imap_pair_snd {A} (l : list A) : (imap pair l).*2 = l.
Proof. apply list_eq. intros k. rewrite list_lookup_fmap, list_lookup_imap. by destruct (l !! k). Qed.

Lemma ordered_snd proposals : (ordered_proposals proposals).*2 = sort_by proposal_less proposals.
Proof. unfold ordered_proposals. by rewrite (sort_by_fmap snd), imap_pair_snd. Qed.

#[export] Instance proposal_less_sw : StrictWeak proposal_less.
Proof.
  unfold proposal_less, by_evidence. repeat apply lex_less_sw; key_sw.
Qed.

(** Selections of the same plans, under whatever indices. *)
Record Alike (st st' : Selection) : Prop := {
  alike_plans : (selected st).*2 = (selected st').*2;
  alike_purpose : selectedPurpose st = selectedPurpose st';
  alike_class : selectedClass st = selectedClass st';
  alike_targets : sel_targets st = sel_targets st';
  alike_actions : sel_actions st = sel_actions st';
  alike_L4 : sel_reconfigurations st = sel_reconfigurations st';
  alike_cost : sel_cost st = sel_cost st';
}.

Lemma existsb_snd {A B} (f : B → bool) (l : list (A * B)) : existsb (λ s, f s.2) l = existsb f l.*2.
Proof. induction l as [|[a b] l IH]; [done|]. cbn. by rewrite IH. Qed.

Lemma deferral_alike b st st' plan cost : Alike st st' → deferral b st plan cost = deferral b st' plan cost.
Proof.
  intros [H1 H2 H3 H4 H5 H6 H7]. unfold deferral.
  rewrite H2, H3, H4, H5, H6, H7, !(existsb_snd (plans_conflict plan)), H1.
  by rewrite <- !(length_fmap snd), H1.
Qed.

Lemma arbitrate_one_alike b k k' p st st' marked marked' :
  Alike st st' → Alike (arbitrate_one b (st, marked) (k, p)).1 (arbitrate_one b (st', marked') (k', p)).1.
Proof.
  intros Hs. unfold arbitrate_one. cbn [fst]. destruct (eligible_plan p) as [plan|]; [|done].
  rewrite (deferral_alike b st st' _ _ Hs). destruct (deferral b st' _ _); [done|].
  destruct Hs as [H1 H2 H3 H4 H5 H6 H7]. split; cbn; try congruence. by rewrite !fmap_app, H1.
Qed.

Lemma arbitrate_alike b entries entries' st st' :
  entries.*2 = entries'.*2 → Alike st.1 st'.1 →
  Alike (foldl (arbitrate_one b) st entries).1 (foldl (arbitrate_one b) st' entries').1.
Proof.
  revert entries' st st'. induction entries as [|[k p] entries IH]; intros [|[k' p'] entries'] [st m] [st' m'] E Hs; try done.
  injection E as -> E. cbn [foldl]. apply IH; [done|]. by apply arbitrate_one_alike.
Qed.

(** C27: The plan does not depend on the order in which the planners made their proposals: two
    arrays with the same proposals, which have distinct identifiers, give the same merged
    plan. *)
Theorem arbitration_order_independent sha256_hex i b proposals proposals' :
  proposals ≡ₚ proposals' → NoDup (proposal_id ∘ pp_Evidence <$> proposals) →
  (arbitrateProposals sha256_hex i proposals b).1.2 = (arbitrateProposals sha256_hex i proposals' b).1.2.
Proof.
  intros Hp Hnd.
  assert (Hsort : (ordered_proposals proposals).*2 = (ordered_proposals proposals').*2).
  { rewrite !ordered_snd. apply sort_by_unique; [apply _| |done]. intros x y Hx Hy Hxy Hyx.
    apply list_elem_of_lookup in Hx as [k Hx]. apply list_elem_of_lookup in Hy as [k' Hy].
    assert (proposal_id (pp_Evidence x) = proposal_id (pp_Evidence y)).
    { do 5 (destruct (lex_less_tie _ _ _ _ Hxy Hyx) as (_ & Hxy' & Hyx'); clear Hxy Hyx; rename Hxy' into Hxy; rename Hyx' into Hyx).
      by apply str_ltb_total. }
    assert (k = k') as <-; [|congruence].
    eapply (NoDup_lookup _ _ _ (proposal_id (pp_Evidence x)) Hnd); rewrite list_lookup_fmap; [by rewrite Hx|rewrite Hy; cbn; by f_equal]. }
  pose proof (arbitrate_alike b _ _ (no_selection, proposals) (no_selection, proposals') Hsort ltac:(by split)) as Ha.
  unfold arbitrateProposals, arbitrate_all. destruct (foldl _ _ (ordered_proposals proposals)) as [st marked].
  destruct (foldl _ _ (ordered_proposals proposals')) as [st' marked']. destruct Ha as [Ha _ _ _ _ _ _]. cbn in Ha.
  rewrite <- !(length_fmap snd), Ha. by destruct (_ && _).
Qed.
