(* ===== verification/AdaptivePlanProofs.v ===== *)
(** * The plans of a planning round ([scheduler-go/scheduler/adaptive_*.go])

    What the planners propose acts only on what the stage owns and what was freshly
    observed, and whatever the arbitration selects and merges is a plan that
    [actionpolicy.ValidatePlan] accepts. *)

From Stdlib Require Import ZArith Lia Ascii.
From S2P Require Import Prelude GoStrings GoTime GoFloat Semantics Evaluator ClusterModel SchedulerState Mutation Preemption Reservation Transaction Intents Candidates CandidateEngine Projection PhaseGraph Validation ActionPolicy ActionPolicyProofs SchedulerCore AdaptiveModel AdaptiveSignals AdaptiveTargets AdaptivePlanners AdaptiveArbitration AdaptiveCoordinator PlanProofs AdaptiveArbitrationProofs.
From stdpp Require Import options.

Local Open Scope Z_scope.

(** ** Lists of requirements and of affected allocations *)

Definition compensating : CapabilityRequirement := NewCapabilityRequirement CAPABILITY_REQUIREMENT_KIND_COMPENSATING_ROLLBACK.

Lemma distinct_copies r seen n :
  distinct_requirements seen (replicate n r) = if bool_decide (n = 0%nat ∨ capabilityKey r ∈ seen) then [] else [r].
Proof.
  revert seen. induction n as [|n IH]; intros seen; [done|]. cbn [replicate distinct_requirements]. rewrite (IH ({[_]} ∪ seen)), IH.
  rewrite (bool_decide_true (n = 0%nat ∨ capabilityKey r ∈ {[capabilityKey r]} ∪ seen)) by set_solver.
  rewrite (bool_decide_ext (S n = 0%nat ∨ capabilityKey r ∈ seen) (capabilityKey r ∈ seen)) by naive_solver lia.
  case_bool_decide as Hs; [|done]. by rewrite bool_decide_true by tauto.
Qed.

(** The requirements of merged plans: those of an admission, and those of the others. *)
Lemma merged_requirements n :
  StableCapabilityRequirements (replicate n compensating) = (if bool_decide (n = 0%nat) then [] else [compensating]).
Proof.
  unfold StableCapabilityRequirements. rewrite distinct_copies.
  rewrite (bool_decide_ext (n = 0%nat ∨ capabilityKey compensating ∈ (∅ : gset string)) (n = 0%nat)) by set_solver. by case_bool_decide.
Qed.

Lemma sorted_apart a b l x : sorted_by str_ltb (a :: b :: l) → a ≠ b → x ∈ b :: l → str_ltb a x = true.
Proof.
  intros Hs Hab Hx. inversion Hs as [|? ? Hs' Ha]; subst. inversion Hs' as [|? ? _ Hb]; subst. rewrite Forall_forall in Ha, Hb.
  destruct (str_ltb a x) eqn:E; [done|]. pose proof (str_ltb_total a x E (Ha x Hx)) as <-. exfalso. apply Hab. apply str_ltb_total.
  - apply elem_of_cons in Hx as [->|Hx]; [done|]. by apply Hb.
  - apply Ha. left.
Qed.

(** What is left of sorted strings when repetitions are dropped is accepted. *)
Lemma affected_from_sorted previous l :
  sorted_by str_ltb l → Forall (λ x, TrimSpace x ≠ "") l → (∀ p x, previous = Some p → x ∈ l → str_ltb p x = true) →
  affected_from previous (uniqueStrings l) = true.
Proof.
  revert previous. induction l as [|a l IH]; intros previous Hs Hf Hp; [done|].
  apply Forall_cons in Hf as [Ha Hf]. pose proof Hs as Hs0. inversion Hs as [|? ? Hs' _]; subst.
  assert (Hprev : from_option (λ p, str_ltb p a) true previous = true).
  { destruct previous as [p|]; [apply (Hp p a); [done|left]|done]. }
  destruct l as [|b l].
  - cbn. by rewrite (bool_decide_false _ Ha), Hprev.
  - change (uniqueStrings (a :: b :: l)) with (if bool_decide (a = b) then uniqueStrings (b :: l) else a :: uniqueStrings (b :: l)).
    case_bool_decide as Hab.
    + apply IH; [done|done|]. intros p x E Hx. apply (Hp p x E). by right.
    + cbn [affected_from]. rewrite (bool_decide_false _ Ha), Hprev. cbn [negb andb]. apply IH; [done|done|].
      intros p x [= <-] Hx. by eapply sorted_apart.
Qed.

Lemma elem_of_uniqueStrings x l : x ∈ uniqueStrings l ↔ x ∈ l.
Proof.
  induction l as [|a l IH]; [done|]. destruct l as [|b l]; [done|].
  change (uniqueStrings (a :: b :: l)) with (if bool_decide (a = b) then uniqueStrings (b :: l) else a :: uniqueStrings (b :: l)).
  case_bool_decide as Hab; [rewrite IH; set_solver|]. rewrite !(elem_of_cons _ _ a), IH. done.
Qed.

Lemma merged_affected l :
  Forall (λ x, TrimSpace x ≠ "") l → validateAffectedAllocationIDs (uniqueStrings (sort_strings l)) = Ok tt.
Proof.
  intros Hf. apply guard_err_Ok. apply affected_from_sorted; [apply sort_by_sorted, _| |done].
  unfold sort_strings. by rewrite sort_by_perm.
Qed.

(** ** Actions that differ in their place only *)

Definition relabelled (a a' : Action) : Prop :=
  ∃ planID n id key, a' = ((at_place planID n a) <| action_id := id |> <| idempotency_key := key |>).

Lemma merged_relabelled sha256_hex planID index a : relabelled a (merged_action sha256_hex planID index a).
Proof. unfold merged_action, relabelled. case_bool_decide; destruct a; repeat eexists. Qed.

Section Moving.
Context (unicode_quote unicode_lower : string → string).

Local Abbreviation accepted plan p t allow a := (validate_plan_action unicode_lower unicode_quote plan p false t allow a = Ok tt).

Lemma ValidateAction_moved a a' t allow :
  relabelled a a' → ValidateAction unicode_quote a t allow = Ok tt → ValidateAction unicode_quote a' t allow = Ok tt.
Proof.
  intros (planID & n & id & key & ->) H. unfold ValidateAction in *. cbn -[DefinitionForAction] in *.
  destruct (DefinitionForAction (action_type a)) as [d|]; [|done]. step_check H. apply check_intro; [done|].
  assert (Hm : ∀ b, validateSuppliedActionMetadata unicode_quote a d = Ok tt →
    action_contract b = (action_contract a) <| order := n |> <| ac_plan_id := planID |> →
    validateSuppliedActionMetadata unicode_quote b d = Ok tt).
  { intros b Hv Hb. unfold validateSuppliedActionMetadata in *. rewrite Hb. step_check Hv. apply check_policy_Ok in Hv.
    apply check_intro; [done|]. by apply check_policy_Ok. }
  destruct (bool_decide (ac_tick_kind _ = _)).
  - destruct (_ && _); [|done]. by eapply Hm.
  - step_check H. apply check_intro; [done|]. destruct (CeilingForTick _); [|done]. step_check H. apply check_intro; [done|]. by eapply Hm.
Qed.

Lemma ValidateRollback_moved a a' : relabelled a a' → ValidateRollback unicode_quote a = Ok tt → ValidateRollback unicode_quote a' = Ok tt.
Proof.
  intros (planID & n & id & key & ->) H. unfold ValidateRollback in *. cbn -[DefinitionForAction] in *.
  destruct (DefinitionForAction (action_type a)) as [d|]; [|done]. destruct (action_rollback a) as [r|]; [|done].
  step_check H. apply check_intro; [done|]. step_check H. apply check_intro; [done|]. apply check_policy_Ok in H. by apply check_policy_Ok.
Qed.

Lemma validatePurposeAction_moved plan plan' p a a' :
  p ≠ PLAN_PURPOSE_PREEMPTION → relabelled a a' → validatePurposeAction unicode_quote plan p a = Ok tt →
  validatePurposeAction unicode_quote plan' p a' = Ok tt.
Proof.
  intros Hp (planID & n & id & key & ->) H. unfold validatePurposeAction in *.
  destruct p; try done; apply check_policy_Ok in H; by apply check_policy_Ok.
Qed.

(** The plan an action is checked in matters through its revision and its affected
    allocations, which do not concern a binding. *)
Lemma validateExplicitActionContract_moved plan plan' a a' d :
  relabelled a a' → snapshot_revision plan' = snapshot_revision plan →
  action_type a = ACTION_TYPE_BIND ∨ target_id a ∈ affected_allocation_ids plan ∧ target_id a ∈ affected_allocation_ids plan' →
  validateExplicitActionContract unicode_lower unicode_quote plan a d = Ok tt →
  validateExplicitActionContract unicode_lower unicode_quote plan' a' d = Ok tt.
Proof.
  intros (planID & n & id & key & ->) Hrev Htar H. unfold validateExplicitActionContract in *. cbn -[RequiredPreconditions] in *. rewrite Hrev.
  step_check H. apply check_intro; [done|]. step_check H. apply check_intro; [done|]. step_check H.
  assert (Hpre : RequiredPreconditions (action_type a) (requires_safe_point (action_contract a)) (bool_decide (target_id a ∈ affected_allocation_ids plan')) =
                 RequiredPreconditions (action_type a) (requires_safe_point (action_contract a)) (bool_decide (target_id a ∈ affected_allocation_ids plan))).
  { destruct Htar as [->|[H1 H2]]; [unfold RequiredPreconditions; by rewrite !andb_false_r|by rewrite !bool_decide_true]. }
  rewrite Hpre. apply check_intro.
  { destruct Htar as [->|[_ H2]]; [by rewrite (bool_decide_true (ACTION_TYPE_BIND = _) eq_refl), orb_true_r|].
    by rewrite (bool_decide_true (target_id a ∈ affected_allocation_ids plan')), orb_true_r. }
  step_check H. apply check_intro; [done|]. step_check H. apply check_intro; [done|]. apply check_policy_Ok in H. by apply check_policy_Ok.
Qed.

Lemma accepted_iff plan p t allow a :
  accepted plan p t allow a ↔
  ValidateAction unicode_quote a t allow = Ok tt ∧ validatePurposeAction unicode_quote plan p a = Ok tt ∧
  (rollback_policy plan = ROLLBACK_POLICY_REQUIRED_COMPENSATION → ValidateRollback unicode_quote a = Ok tt) ∧
  validateExplicitActionContract unicode_lower unicode_quote plan a (default zero_definition (DefinitionForAction (action_type a))) = Ok tt.
Proof.
  unfold validate_plan_action. split.
  - intros H. step_check H. step_check H. apply bind_Ok in H as ([] & Hr & H). split_and!; try done.
    intros E. by rewrite (bool_decide_true _ E) in Hr.
  - intros (H1 & H2 & H3 & H4). rewrite H1. cbn [mbind Result_bind]. rewrite H2. cbn [mbind Result_bind].
    case_bool_decide as E; [rewrite (H3 E)|]; done.
Qed.

Lemma accepted_moved plan plan' p t allow a a' :
  accepted plan p t allow a → relabelled a a' → p ≠ PLAN_PURPOSE_PREEMPTION → snapshot_revision plan' = snapshot_revision plan →
  action_type a = ACTION_TYPE_BIND ∨ target_id a ∈ affected_allocation_ids plan ∧ target_id a ∈ affected_allocation_ids plan' →
  (rollback_policy plan' = ROLLBACK_POLICY_REQUIRED_COMPENSATION → ValidateRollback unicode_quote a = Ok tt) →
  accepted plan' p t allow a'.
Proof.
  rewrite !accepted_iff. intros (H1 & H2 & _ & H4) Hr Hp Hrev Htar Hb. split_and!.
  - by eapply ValidateAction_moved.
  - by eapply validatePurposeAction_moved.
  - intros E. by eapply ValidateRollback_moved, Hb.
  - assert (action_type a' = action_type a) as -> by (by destruct Hr as (? & ? & ? & ? & ->)). by eapply validateExplicitActionContract_moved.
Qed.

End Moving.

(** ** Plans of one action *)

Section Units.
Context (unicode_quote unicode_lower sha256_hex : string → string).

(** An action that binds a unit affects no allocation; another one affects its target. *)
Definition unit_shape (plan : PlacementPlan) (a : Action) : Prop :=
  if bool_decide (purpose plan = PLAN_PURPOSE_ADMISSION)
  then affected_allocation_ids plan = [] ∧ capability_requirements plan = [] ∧ rollback_policy plan = ROLLBACK_POLICY_NOT_REQUIRED ∧
       action_type a = ACTION_TYPE_BIND
  else affected_allocation_ids plan = [target_id a] ∧ TrimSpace (target_id a) ≠ "" ∧ capability_requirements plan = [Some compensating] ∧
       rollback_policy plan = ROLLBACK_POLICY_REQUIRED_COMPENSATION.

Record unit_plan (rev : Z) (t : TickKind) (allow : bool) (plan : PlacementPlan) (a : Action) : Prop := {
  un_actions : actions plan = [Some a];
  un_named : named_purpose (purpose plan);
  un_alone : purpose plan ≠ PLAN_PURPOSE_PREEMPTION;
  un_revision : snapshot_revision plan = rev;
  un_number : order (action_contract a) = 1;
  un_accepted : validate_plan_action unicode_lower unicode_quote plan (purpose plan) false t allow a = Ok tt;
  un_shape : unit_shape plan a;
}.

Lemma unit_plan_accepted rev t allow plan a :
  t ≠ TICK_KIND_UNKNOWN → unit_plan rev t allow plan a → ValidatePlan unicode_lower unicode_quote (Some plan) t allow = Ok tt.
Proof.
  intros Ht [H1 H2 H3 H4 H5 H6 H7]. apply (ValidatePlan_ok _ _ plan (purpose plan) t allow [a]); try done.
  - unfold validatePlanContract. rewrite H1. cbn [length Nat.ltb Nat.leb negb orb]. rewrite (bool_decide_false ([Some a] = [])) by done.
    unfold unit_shape in H7. case_bool_decide as Hp.
    + destruct H7 as (-> & -> & -> & _). rewrite Hp. done.
    + destruct H7 as (-> & Hb & -> & ->). repeat (apply check_intro; [done|]). apply bind_Ok. exists tt. split; [by vm_compute|].
      cbn [mbind Result_bind]. apply bind_Ok. exists tt. split.
      { apply guard_err_Ok. cbn [affected_from]. by rewrite (bool_decide_false _ Hb). }
      apply check_intro; [done|]. apply check_intro; [by rewrite orb_true_r|]. by rewrite (bool_decide_false _ H3).
  - intros [|n] x Hx; [|done]. injection Hx as <-. by rewrite H5.
  - by constructor.
Qed.

(** ** Merging *)

Local Abbreviation unit_plans rev t allow plans as_ := (Forall2 (unit_plan rev t allow) plans as_).

Lemma unit_actions rev t allow plans as_ : unit_plans rev t allow plans as_ → concat (actions <$> plans) = Some <$> as_.
Proof. induction 1 as [|plan a plans as_ [H _ _ _ _ _ _] _ IH]; [done|]. cbn. by rewrite H, IH. Qed.

Lemma omap_Some {A} (l : list A) : omap id (Some <$> l) = l.
Proof. induction l as [|a l IH]; [done|]. cbn. by f_equal. Qed.

(** Plans with one purpose have one shape. *)
Lemma units_affected rev t allow p plans as_ :
  unit_plans rev t allow plans as_ → Forall (λ plan, purpose plan = p) plans →
  concat (affected_allocation_ids <$> plans) = (if bool_decide (p = PLAN_PURPOSE_ADMISSION) then [] else target_id <$> as_) ∧
  (p ≠ PLAN_PURPOSE_ADMISSION → Forall (λ a, TrimSpace (target_id a) ≠ "") as_).
Proof.
  induction 1 as [|plan a plans as_ [_ _ _ _ _ _ H7] _ IH]; [intros _; split; [by case_bool_decide|constructor]|].
  intros [Hp Hf]%Forall_cons. destruct (IH Hf) as [IH1 IH2]. unfold unit_shape in H7. rewrite Hp in H7. cbn [fmap list_fmap concat].
  rewrite IH1. case_bool_decide as Hadm; [destruct H7 as [-> _]; by split|]. destruct H7 as (-> & Hb & _). split; [done|].
  intros _. constructor; [done|by apply IH2].
Qed.

Lemma units_requirements rev t allow p plans as_ :
  unit_plans rev t allow plans as_ → Forall (λ plan, purpose plan = p) plans →
  omap id (concat (capability_requirements <$> plans)) =
    replicate (if bool_decide (p = PLAN_PURPOSE_ADMISSION) then 0 else length as_) compensating.
Proof.
  induction 1 as [|plan a plans as_ [_ _ _ _ _ _ H7] _ IH]; [intros _; by case_bool_decide|].
  intros [Hp Hf]%Forall_cons. specialize (IH Hf). unfold unit_shape in H7. rewrite Hp in H7. cbn [fmap list_fmap concat].
  rewrite omap_app, IH. case_bool_decide as Hadm; [destruct H7 as (_ & -> & _)|destruct H7 as (_ & _ & -> & _)]; done.
Qed.

Lemma merged_many_requirements n :
  let rs := StableCapabilityRequirements
              ((if bool_decide (n = 0%nat) then [] else [compensating]) ++ (NewCapabilityRequirement <$> multi_action_kinds)) in
  validateCapabilityRequirements (Some <$> rs) = Ok tt ∧ ∀ k, k ∈ multi_action_kinds → containsCapabilityRequirement (Some <$> rs) k = true.
Proof.
  case_bool_decide; (split; [by vm_compute|]); intros k Hk;
    repeat (apply elem_of_cons in Hk as [->|Hk]; [by vm_compute|]); by apply elem_of_nil in Hk.
Qed.

(** The contract of a merged plan. *)
Lemma merged_contract p plan as_ ids n :
  (2 ≤ length as_)%nat → named_purpose p → p ≠ PLAN_PURPOSE_PREEMPTION → actions plan = Some <$> as_ →
  rollback_policy plan = ROLLBACK_POLICY_REQUIRED_COMPENSATION →
  capability_requirements plan = Some <$> StableCapabilityRequirements
    ((if bool_decide (n = 0%nat) then [] else [compensating]) ++ (NewCapabilityRequirement <$> multi_action_kinds)) →
  affected_allocation_ids plan = uniqueStrings (sort_strings ids) → Forall (λ x, TrimSpace x ≠ "") ids →
  (p = PLAN_PURPOSE_ADMISSION ↔ ids = []) →
  validatePlanContract unicode_quote plan p = Ok tt.
Proof.
  intros Hl Hn Hp Ha Hr Hc Hi Hf Hadm. unfold validatePlanContract. rewrite Ha, Hr, Hi.
  rewrite (bool_decide_false (_ <$> _ = [])) by (intros E%fmap_nil_inv; by rewrite E in Hl; cbn in Hl; lia).
  rewrite length_fmap. assert ((1 <? length as_)%nat = true) as -> by (apply Nat.ltb_lt; lia).
  destruct (merged_many_requirements n) as [Hv Hk]. rewrite <- Hc in Hv, Hk.
  apply check_intro; [done|]. apply check_intro; [cbn [negb orb]; apply Hk; right; left|]. apply check_intro; [done|].
  rewrite Hv. cbn [mbind Result_bind]. rewrite require_kinds_all by done. cbn [mbind Result_bind]. rewrite merged_affected by done.
  cbn [mbind Result_bind].
  assert (Hnil : uniqueStrings (sort_strings ids) = [] ↔ ids = []).
  { split; [|by intros ->]. intros E. destruct ids as [|x ids]; [done|].
    assert (Hx : x ∈ uniqueStrings (sort_strings (x :: ids))) by (rewrite elem_of_uniqueStrings; unfold sort_strings; rewrite sort_by_perm; left).
    rewrite E in Hx. by apply elem_of_nil in Hx. }
  apply check_intro. { rewrite (bool_decide_ext _ _ Hnil), <- (bool_decide_ext _ _ Hadm). clear. by destruct p. }
  apply check_intro. { rewrite (bool_decide_ext _ _ Hnil), <- (bool_decide_ext _ _ Hadm). clear. by destruct p. }
  by rewrite (bool_decide_false _ Hp).
Qed.

Lemma units_revision rev t allow plans as_ : unit_plans rev t allow plans as_ → Forall (λ plan, snapshot_revision plan = rev) plans.
Proof. induction 1 as [|plan a plans as_ [_ _ _ H _ _ _] _ IH]; by constructor. Qed.

(** The actions of a merged plan, each accepted in it. *)
Lemma merged_actions rev t allow p plans as_ planID whole :
  unit_plans rev t allow plans as_ → Forall (λ plan, purpose plan = p) plans → p ≠ PLAN_PURPOSE_PREEMPTION →
  Forall (λ a, ValidateRollback unicode_quote a = Ok tt) as_ → snapshot_revision whole = rev →
  (∀ x, p ≠ PLAN_PURPOSE_ADMISSION → x ∈ target_id <$> as_ → x ∈ affected_allocation_ids whole) →
  Forall (λ a, validate_plan_action unicode_lower unicode_quote whole p false t allow a = Ok tt) (imap (merged_action sha256_hex planID) as_).
Proof.
  intros Hu Hf Hp Hr Hrev Haff. apply Forall_forall. intros x Hx. apply elem_of_lookup_imap in Hx as (n & a & -> & Hn).
  destruct (Forall2_lookup_r _ _ _ _ _ Hu Hn) as (plan & Hplan & [_ _ _ H4 _ H6 H7]).
  pose proof (Forall_lookup_1 _ _ _ _ Hf Hplan) as Hpp. cbv beta in Hpp. rewrite Hpp in H6.
  eapply accepted_moved; [exact H6|apply merged_relabelled|done|by rewrite Hrev, H4| |intros _; by apply (Forall_lookup_1 _ _ _ _ Hr Hn)].
  unfold unit_shape in H7. rewrite Hpp in H7. case_bool_decide as Hadm; [left; by destruct H7 as (_ & _ & _ & ?)|right].
  destruct H7 as (-> & _). split; [left|]. apply Haff; [done|]. apply list_elem_of_fmap_2. by eapply list_elem_of_lookup_2.
Qed.

Lemma mergeSelectedPlans_accepted i plans as_ p rev t allow merged :
  t ≠ TICK_KIND_UNKNOWN → unit_plans rev t allow plans as_ → Forall (λ plan, purpose plan = p) plans →
  ((2 ≤ length as_)%nat → Forall (λ a, ValidateRollback unicode_quote a = Ok tt) as_) →
  (∀ p0, AdmissionPlan i = Some p0 → actions p0 ≠ [] → ValidatePlan unicode_lower unicode_quote (Some p0) t allow = Ok tt) →
  mergeSelectedPlans sha256_hex i plans = Some merged → ValidatePlan unicode_lower unicode_quote (Some merged) t allow = Ok tt.
Proof.
  intros Ht Hu Hf Hr Hadm Hm. pose proof (Forall2_length _ _ _ Hu) as Hlen. destruct plans as [|base others]; [done|].
  unfold mergeSelectedPlans in Hm. set (whole := match AdmissionPlan i with Some _ => _ | None => _ end) in Hm.
  assert (Hwhole : ∀ p0, whole = Some p0 → ValidatePlan unicode_lower unicode_quote (Some p0) t allow = Ok tt).
  { unfold whole. destruct (AdmissionPlan i) as [p1|]; [|done]. intros p0 Hp0. destruct (_ && _ && _) eqn:E; [|done]. injection Hp0 as <-.
    bool_props. apply (Hadm p1); [done|]. intros E'. by rewrite E' in *. }
  destruct whole as [p0|]; [injection Hm as <-; by apply Hwhole|]. clear Hwhole.
  destruct others as [|second others].
  { injection Hm as <-. destruct as_ as [|a [|]]; try done. inversion Hu; subst. by eapply unit_plan_accepted. }
  assert (Hl2 : (2 ≤ length as_)%nat) by (cbn in Hlen; lia). specialize (Hr Hl2).
  set (planID := if _ && _ then _ else _) in Hm. rewrite (unit_actions _ _ _ _ _ Hu), omap_Some in Hm. cbv zeta in Hm.
  assert ((1 <? length (imap (merged_action sha256_hex planID) as_))%nat = true) as E by (rewrite length_imap; apply Nat.ltb_lt; lia).
  rewrite E in Hm. destruct (units_affected _ _ _ _ _ _ Hu Hf) as [Haff Hblank]. rewrite Haff in Hm.
  rewrite (units_requirements _ _ _ _ _ _ Hu Hf), merged_requirements in Hm.
  pose proof (units_revision _ _ _ _ _ Hu) as Hrev. apply Forall_cons in Hrev as [Hrev _].
  assert (Hp : named_purpose p ∧ p ≠ PLAN_PURPOSE_PREEMPTION).
  { inversion Hu as [|? a ? ? [_ H2 H3 _ _ _ _] _]; subst. apply Forall_cons in Hf as [<- _]. done. }
  destruct Hp as [Hnamed Hp]. pose proof Hf as Hf0. apply Forall_cons in Hf0 as [Hbase _]. injection Hm as <-.
  eapply (ValidatePlan_ok _ _ _ p t allow (imap (merged_action sha256_hex planID) as_)); [exact Hbase|done|done|reflexivity| | |].
  - eapply merged_contract; [|done|done|reflexivity|reflexivity|reflexivity|reflexivity| |]; cbv beta.
    + by rewrite length_imap.
    + case_bool_decide as Ha; [constructor|]. apply Forall_fmap. eapply Forall_impl; [by apply Hblank|done].
    + case_bool_decide as Ha; [done|]. split; [done|]. intros En%fmap_nil_inv. by rewrite En in Hl2; cbn in Hl2; lia.
  - intros n x Hx. rewrite list_lookup_imap in Hx. destruct (as_ !! n) as [a|]; [|done]. injection Hx as <-.
    rewrite <- order_at_next. clearbody planID. unfold merged_action. by destruct (bool_decide (ac_plan_id _ = _)).
  - eapply merged_actions; [done..|exact Hrev|]. intros x Hadmission Hx. cbn [affected_allocation_ids set_field]. cbv beta.
    rewrite bool_decide_false by done. rewrite elem_of_uniqueStrings. unfold sort_strings. by rewrite sort_by_perm.
Qed.

End Units.

(** ** What the planners may act on *)

(** An allocation that the stage holds, and the one observation of it that is fresh. *)
Record actionable (i : PlanningInput) (t : adaptiveTarget) : Prop := {
  ac_held : tg_allocation t ∈ active_allocations i;
  ac_observed : tg_sandbox t ∈ os_sandbox <$> pi_Sandboxes i;
  ac_matches : sandboxMatchesAllocation (tg_sandbox t) (tg_allocation t) = true;
  ac_known : sb_generation (tg_sandbox t) ≠ 0;
  ac_fresh : sandboxFreshnessReason i (tg_sandbox t) = "";
}.

Lemma one_filtered {A} (P : A → Prop) `{∀ x, Decision (P x)} l x :
  match filter P l with [s] => Some s | _ => None end = Some x → x ∈ l ∧ P x.
Proof.
  destruct (filter P l) as [|y [|]] eqn:E; try done. intros [= ->].
  assert (Hx : x ∈ filter P l) by (rewrite E; left). by apply list_elem_of_filter in Hx as [? ?].
Qed.

Lemma match_target_actionable i a t :
  a ∈ active_allocations i → match_target i true a = Target t → actionable i t ∧ tg_allocation t = a.
Proof.
  intros Ha H. unfold match_target in H.
  destruct (if bool_decide _ then _ else _) as [s|] eqn:E; [|done].
  assert (Hs : s ∈ os_sandbox <$> pi_Sandboxes i).
  { clear H. destruct (bool_decide _); unfold uniquelyMatchingSandbox, sandbox_by_id in E; by apply one_filtered in E as [? _]. }
  destruct (_ || _) eqn:Eg in H; [done|]. apply orb_false_iff in Eg as [Eg Em]. cbn [andb] in H.
  destruct (negb (bool_decide (sandboxFreshnessReason i s = ""))) eqn:Ef; [done|]. destruct (_ && _); [done|]. injection H as <-.
  bool_props. split; [|done]. split; done.
Qed.

Lemma fresh_targets i t : t ∈ (activeAdaptiveTargetsWithFreshness i).1.1 → actionable i t.
Proof.
  unfold activeAdaptiveTargetsWithFreshness, adaptiveTargets. cbn [fst]. intros (m & Hm & Ht)%list_elem_of_omap.
  apply list_elem_of_fmap in Hm as (a & -> & Ha). rewrite elem_of_sort_by in Ha. unfold target_of in Ht. cbn in Ht.
  destruct (match_target i true a) eqn:E; try done. injection Ht as <-. by eapply match_target_actionable.
Qed.

(** The filter of a directive decides which targets there are, not what a target is. *)
Lemma actionable_without_filter i t : actionable (without_filter i) t → actionable i t.
Proof. intros [H1 H2 H3 H4 H5]. by split. Qed.

Section Planning.
Context (unicode_quote unicode_lower sha256_hex : string → string).
Context (binding_wire : Binding → string) (fields_wire : list SemanticField → string) (FormatFloat : float64 → string).

Local Abbreviation buildAdaptivePlan := (AdaptiveTargets.buildAdaptivePlan unicode_lower sha256_hex binding_wire FormatFloat).
Local Abbreviation proposed_plan := (AdaptivePlanners.proposed_plan unicode_lower sha256_hex binding_wire FormatFloat).
Local Abbreviation actionEligibility := (AdaptivePlanners.actionEligibility unicode_lower).

(** What stands before an action. *)
Record eligible (i : PlanningInput) (s : adaptiveActionSpec) : Prop := {
  el_contract : contract_allows i (as_type s) = true;
  el_safe : as_type s ≠ ACTION_TYPE_RESUME → as_requiresSafePoint s = true → at_safe_point i = true ∧ safe_point (spec_sandbox s) = true;
  el_level : ∃ ceiling, CeilingForTick (tick i) = Some ceiling ∧ ActionLevel_number (level_of (as_type s)) ≤ ActionLevel_number ceiling;
  el_provider : as_type s ∉ [ACTION_TYPE_REBIND; ACTION_TYPE_RECREATE] →
    providerSupports unicode_lower i (tg_allocation (as_target s)) (as_type s) = None;
}.

Lemma providerSupports_reason i a t reason : providerSupports unicode_lower i a t = Some reason → reason ≠ ELIGIBLE.
Proof.
  unfold providerSupports. destruct (DefinitionForAction t); [|by intros [= <-]]. case_bool_decide; [by intros [= <-]|].
  induction (al_device_ids a) as [|id ids IH]; [done|]. cbn [devices_support]. destruct (_ !! id); [|by intros [= <-]].
  destruct (Candidates.containsNormalized _ _ _); [|by intros [= <-]]. destruct ids; [done|]. by apply IH.
Qed.

Lemma actionEligibility_eligible i s : actionEligibility i s = ELIGIBLE → eligible i s.
Proof.
  unfold AdaptivePlanners.actionEligibility. intros H. destruct (negb (contract_allows i (as_type s))) eqn:Ec; [done|].
  destruct (_ && _) eqn:Es in H; [done|]. destruct (CeilingForTick (tick i)) as [ceiling|] eqn:Ek; [|done].
  destruct (_ <? _) eqn:El in H; [done|]. split.
  - by apply negb_false_iff.
  - intros Hr Hq. rewrite (bool_decide_false _ Hr), Hq in Es. cbn in Es. apply negb_false_iff, andb_true_iff in Es. done.
  - exists ceiling. split; [done|]. by apply Z.ltb_ge.
  - intros Hr. rewrite (bool_decide_false _ Hr) in H. destruct (providerSupports _ _ _ _) eqn:Ep; [|done]. cbn in H. subst.
    by apply providerSupports_reason in Ep.
Qed.

Lemma proposed_plan_Ok i kind p s utility why plan :
  proposed_plan i kind p s utility why = Ok plan → eligible i s ∧ buildAdaptivePlan i kind p [s] = Ok plan.
Proof.
  unfold AdaptivePlanners.proposed_plan. cbv zeta. intros H.
  destruct (decide ((if bool_decide (why = ELIGIBLE) then actionEligibility i s else why) = ELIGIBLE)) as [E|E].
  - rewrite (bool_decide_true _ E) in H. cbn [negb] in H. destruct (_ <? _); [done|]. split; [|done].
    apply actionEligibility_eligible. by case_bool_decide.
  - by rewrite (bool_decide_false _ E) in H.
Qed.

(** The plan of one action. *)
Lemma buildAdaptivePlan_one i kind p s plan :
  buildAdaptivePlan i kind p [s] = Ok plan →
  ∃ planID d, DefinitionForAction (as_type s) = Some d ∧ revision (pi_Snapshot i) ≠ 0 ∧ tick i ≠ TICK_KIND_UNKNOWN ∧
    sb_generation (spec_sandbox s) ≠ 0 ∧
    actions plan = [Some (adaptive_action unicode_lower sha256_hex i planID d (order_at 0) s)] ∧
    purpose plan = p ∧ snapshot_revision plan = revision (pi_Snapshot i) ∧ affected_allocation_ids plan = [spec_id s] ∧
    capability_requirements plan = [Some compensating] ∧ rollback_policy plan = ROLLBACK_POLICY_REQUIRED_COMPENSATION.
Proof.
  unfold AdaptiveTargets.buildAdaptivePlan. cbn [length sort_by insert_by]. intros H.
  apply bind_Ok in H as ([] & _ & H). apply bind_Ok in H as ([] & Hf & H). apply guard_err_Ok in Hf. cbv zeta in H.
  apply bind_Ok in H as ([] & _ & H). set (planID := SchedulerCore.stableID _ _ _) in H.
  apply bind_Ok in H as (acts & Ha & H). cbn [adaptive_actions] in Ha. apply bind_Ok in Ha as ([] & Hg & Ha). apply guard_err_Ok in Hg.
  destruct (DefinitionForAction (as_type s)) as [d|] eqn:Hd; [|done]. cbn [mbind Result_bind] in Ha. injection Ha as <-. injection H as <-.
  bool_props. exists planID, d. split_and!; try done.
  unfold sortedAffectedIDs. cbn -[sort_strings]. by rewrite union_empty_r_L, elements_singleton.
Qed.

(** The actions that need no safe point. *)
Definition harmless (t : ActionType) : Prop :=
  t ∈ [ACTION_TYPE_SET_SHARE; ACTION_TYPE_SET_PRIORITY; ACTION_TYPE_RESIZE; ACTION_TYPE_RESUME].

(** What a planner's purpose goes with. *)
Definition planner_purpose (p : PlanPurpose) (s : adaptiveActionSpec) : Prop :=
  let t := as_type s in
  t ≠ ACTION_TYPE_BIND ∧ (harmless t ∨ as_requiresSafePoint s = true) ∧
  (p = PLAN_PURPOSE_RECONCILIATION ∨ p = PLAN_PURPOSE_REBALANCE ∧ t ≠ ACTION_TYPE_RELEASE ∨
   p = PLAN_PURPOSE_RECOVERY ∧ t ∈ [ACTION_TYPE_RESUME; ACTION_TYPE_REBIND; ACTION_TYPE_RECREATE]).

(** A plan that one of the planners of the ticks makes. *)
Record planned (i : PlanningInput) (plan : PlacementPlan) (kind : PlannerKind) (s : adaptiveActionSpec) : Prop := {
  pl_target : actionable i (as_target s);
  pl_eligible : eligible i s;
  pl_purpose : planner_purpose (purpose plan) s;
  pl_built : buildAdaptivePlan i kind (purpose plan) [s] = Ok plan;
}.

Local Abbreviation actionProposal := (AdaptivePlanners.actionProposal unicode_lower sha256_hex binding_wire fields_wire FormatFloat).

Lemma actionProposal_planned i kind p s utility why fields plan :
  actionable i (as_target s) → planner_purpose p s →
  pp_Plan (actionProposal i kind p s utility why fields) = Some plan → planned i plan kind s.
Proof.
  intros Ht Hp. unfold AdaptivePlanners.actionProposal. cbv zeta. destruct (proposed_plan i kind p s utility why) as [q|] eqn:E; [|done].
  cbn [pp_Plan]. intros [= ->]. apply proposed_plan_Ok in E as [He Hb].
  assert (purpose plan = p) as <- by (by apply buildAdaptivePlan_one in Hb as (? & ? & ? & ? & ? & ? & ? & ? & _)). by split.
Qed.

Lemma matching_binding s a : sandboxMatchesAllocation s a = true → is_Some (sb_binding s).
Proof. unfold sandboxMatchesAllocation. by destruct (sb_binding s). Qed.

(** What a planned action is. *)
Lemma planned_unit i plan kind s allow :
  (∀ v, is_ascii v = false → unicode_lower (dash v) = dash (unicode_lower v)) →
  planned i plan kind s → sandbox_id (spec_sandbox s) ≠ "" → TrimSpace (spec_id s) ≠ "" →
  ∃ a, unit_plan unicode_quote unicode_lower (revision (pi_Snapshot i)) (tick i) allow plan a ∧ ValidateRollback unicode_quote a = Ok tt.
Proof.
  intros Hdash [[_ _ Hm Hg _] [Hc _ (ceiling & Hk & Hl) _] (Hb & _ & Hp) Hplan] Hs Hblank.
  apply buildAdaptivePlan_one in Hplan as (planID & d & Hd & Hrev & Htick & _ & Ha & _ & Hsr & Haff & Hreq & Hrb).
  exists (adaptive_action unicode_lower sha256_hex i planID d (order_at 0) s). set (a := adaptive_action _ _ _ _ _ _ _) in *.
  assert (Hroll : ValidateRollback unicode_quote a = Ok tt).
  { apply (ValidateRollback_ok _ a d (compensationFor s d)); try done.
    - cbn. by rewrite (bool_decide_false _ Hb).
    - cbn. pose proof (matching_binding _ _ Hm). destruct (CompensationNeedsBinding d); [by apply bool_decide_eq_true|done]. }
  split; [|done]. split; try done.
  - destruct Hp as [->|[[-> _]|[-> _]]]; done.
  - destruct Hp as [->|[[-> _]|[-> _]]]; done.
  - apply accepted_iff. split_and!.
    + unfold level_of in Hl. rewrite Hd in Hl.
      apply (ValidateAction_ok _ a d (tick i) ceiling); try done.
      cbn. unfold RequiredPreconditions. rewrite (bool_decide_false _ Hb). by destruct (as_requiresSafePoint s).
    + unfold validatePurposeAction. change (action_type a) with (as_type s).
      destruct Hp as [->|[[-> Hp]|[-> Hp]]]; [done| |]; apply check_policy_Ok.
      * apply negb_true_iff, bool_decide_eq_false. set_solver.
      * by apply bool_decide_eq_true.
    + done.
    + change (action_type a) with (as_type s). rewrite Hd. cbn [default]. unfold validateExplicitActionContract. rewrite Haff, Hsr.
      change (target_id a) with (spec_id s). rewrite (bool_decide_true (spec_id s ∈ [spec_id s])) by left.
      apply check_intro; [cbn; rewrite Z.eqb_refl; by apply Z.eqb_neq in Hrev as ->|].
      apply check_intro; [cbn; apply Z.eqb_neq in Hg; unfold spec_sandbox; by rewrite Hg, orb_true_r|].
      apply check_intro; [by rewrite orb_true_r|]. apply check_intro; [by apply actionCapabilities_supports|].
      apply check_intro; [by apply bool_decide_eq_true|]. by apply check_policy_Ok, bool_decide_eq_true.
  - unfold unit_shape. rewrite bool_decide_false by (destruct Hp as [->|[[-> _]|[-> _]]]; done). by rewrite Haff, Hreq.
Qed.

(** ** What each planner proposes *)

Local Abbreviation plannerEvidence := (AdaptiveTargets.plannerEvidence sha256_hex fields_wire).
Local Abbreviation Fast := (FastMutationPlanner_Propose unicode_quote unicode_lower sha256_hex binding_wire fields_wire FormatFloat).
Local Abbreviation Medium := (MediumLifecyclePlanner_Propose unicode_lower sha256_hex binding_wire fields_wire FormatFloat).
Local Abbreviation Slow := (SlowReconfigurationPlanner_Propose unicode_quote unicode_lower sha256_hex binding_wire fields_wire FormatFloat).

(** The proposals that have a plan are planned. *)
Definition all_planned (i : PlanningInput) (proposals : list PlannerProposal) : Prop :=
  ∀ pr plan, pr ∈ proposals → pp_Plan pr = Some plan → ∃ kind s, planned i plan kind s.

Lemma all_planned_app i l l' : all_planned i l → all_planned i l' → all_planned i (l ++ l').
Proof. intros H H' pr plan Hin. apply elem_of_app in Hin as [Hin|Hin]; [by apply H|by apply H']. Qed.

Lemma all_planned_concat {A} i (f : A → list PlannerProposal) l : (∀ x, x ∈ l → all_planned i (f x)) → all_planned i (concat (f <$> l)).
Proof.
  induction l as [|x l IH]; intros H; [intros ?? Hin; by apply elem_of_nil in Hin|]. cbn. apply all_planned_app; [apply H; left|].
  apply IH. intros y Hy. apply H. by right.
Qed.

Lemma all_planned_none i l : Forall (λ pr, pp_Plan pr = None) l → all_planned i l.
Proof. intros H pr plan Hin Hp. rewrite Forall_forall in H. by rewrite (H pr Hin) in Hp. Qed.

Lemma all_planned_one i kind p s utility why fields :
  actionable i (as_target s) → planner_purpose p s → all_planned i [actionProposal i kind p s utility why fields].
Proof. intros Ht Hp pr plan ->%list_elem_of_singleton H. exists kind, s. by eapply actionProposal_planned. Qed.

Lemma unusable_planned i kind found : all_planned i (unusable_targets sha256_hex fields_wire i kind found).
Proof.
  apply all_planned_none. unfold unusable_targets. apply Forall_app. split; apply Forall_fmap; by apply Forall_forall.
Qed.

Lemma wrongTick_planned i kind types : all_planned i (wrongTickDirectiveEvidence sha256_hex fields_wire i kind types).
Proof. apply all_planned_none, Forall_fmap. by apply Forall_forall. Qed.

Ltac purpose_of_type := split; [done|]; split; [first [right; done|left; unfold harmless; set_solver]|]; first [solve [left; done]|solve [right; left; done]|right; right; split; [done|set_solver]].

Lemma fast_target i utility targetPriority autoResize t :
  actionable i t →
  all_planned i (share_proposals unicode_lower sha256_hex binding_wire fields_wire FormatFloat i utility t ++
                 priority_proposals unicode_lower sha256_hex binding_wire fields_wire FormatFloat i utility targetPriority t ++
                 resize_proposals unicode_quote unicode_lower sha256_hex binding_wire fields_wire FormatFloat i utility autoResize t).
Proof.
  intros Ht. apply all_planned_app; [|apply all_planned_app].
  - unfold share_proposals. destruct (wanted_share i t) as [[desired|] directional]; [|by apply all_planned_none].
    cbv zeta. apply all_planned_one; [done|purpose_of_type].
  - unfold priority_proposals. destruct targetPriority; [|by apply all_planned_none]. cbv zeta. apply all_planned_one; [done|purpose_of_type].
  - unfold resize_proposals. cbv zeta. destruct (negb _); [by apply all_planned_none|]. apply all_planned_one; [done|purpose_of_type].
Qed.

Lemma Fast_planned config i : all_planned i (Fast config i).
Proof.
  unfold FastMutationPlanner_Propose. cbv zeta. destruct (negb _); [apply wrongTick_planned|]. destruct (negb _); [by apply all_planned_none|].
  apply all_planned_app; [apply unusable_planned|]. apply all_planned_app.
  - apply all_planned_concat. intros t Ht. by apply fast_target, fresh_targets.
  - destruct (_ || _); [|by apply all_planned_none]. unfold scale_in_proposals. cbv zeta.
    destruct (last _) as [t|] eqn:E; [|by apply all_planned_none]. destruct (_ <? _); [|by apply all_planned_none].
    apply all_planned_one; [apply fresh_targets|purpose_of_type]. rewrite last_lookup in E. by eapply list_elem_of_lookup_2.
Qed.

Lemma Medium_planned config i : all_planned i (Medium config i).
Proof.
  unfold MediumLifecyclePlanner_Propose. cbv zeta. destruct (negb _); [apply wrongTick_planned|].
  destruct (negb _); [by apply all_planned_none|]. apply all_planned_app; [apply unusable_planned|].
  apply all_planned_concat. intros t Ht. apply all_planned_concat. intros [[enabled action] score] Hopt.
  assert (actionable i t) as Hact.
  { destruct (bool_decide (Evaluator.Action _ = _)); apply fresh_targets in Ht; [by apply actionable_without_filter|done]. }
  unfold lifecycle_proposal. cbv zeta. destruct enabled; [|by apply all_planned_none]. apply all_planned_one; [done|].
  unfold lifecycle_options in Hopt. cbv zeta in Hopt. unfold lifecyclePurpose.
  repeat (apply elem_of_cons in Hopt as [[= _ -> _]|Hopt]; [purpose_of_type|]). by apply elem_of_nil in Hopt.
Qed.

Lemma Slow_planned config i : all_planned i (Slow config i).
Proof.
  unfold SlowReconfigurationPlanner_Propose. cbv zeta. destruct (negb _); [apply wrongTick_planned|].
  destruct (negb _); [by apply all_planned_none|]. apply all_planned_app; [apply unusable_planned|].
  apply all_planned_concat. intros t Ht%fresh_targets. apply all_planned_concat. intros [[[enabled action] score] p] Hopt.
  unfold reconfiguration_proposal. destruct enabled; [|by apply all_planned_none]. cbn [negb].
  destruct (replacement_for _ _ _ _ _ _ _) as [replacement why]. destruct (slowUtility _ _ _ _ _) as [[[benefit cost] risk] result].
  apply all_planned_one; [done|].
  repeat (apply elem_of_cons in Hopt as [[= _ -> _ ->]|Hopt];
    [unfold rebindPurpose; try case_match; purpose_of_type|]). by apply elem_of_nil in Hopt.
Qed.

End Planning.

(** ** A round *)

Section Round.
Context (unicode_upper unicode_quote unicode_lower sha256_hex : string → string).
Context (binding_wire : Binding → string) (fields_wire : list SemanticField → string) (FormatFloat : float64 → string).

(** [strings.ToLower] maps rune by rune and leaves the two ASCII signs alone. *)
Context (lower_dash : ∀ s, is_ascii s = false → unicode_lower (dash s) = dash (unicode_lower s)).

Local Abbreviation ValidatePlan := (ActionPolicy.ValidatePlan unicode_lower unicode_quote).
Local Abbreviation accepted plan p t allow a := (validate_plan_action unicode_lower unicode_quote plan p false t allow a = Ok tt).
Local Abbreviation tick_proposals := (AdaptiveCoordinator.tick_proposals unicode_quote unicode_lower sha256_hex binding_wire fields_wire FormatFloat).
Local Abbreviation planned := (planned unicode_lower sha256_hex binding_wire FormatFloat).
Local Abbreviation prepare := (AdaptiveCoordinator.prepare unicode_upper unicode_quote sha256_hex).
Local Abbreviation Plan := (AdaptiveCoordinator.Plan unicode_upper unicode_quote unicode_lower sha256_hex binding_wire fields_wire FormatFloat).

(** What an accepted plan that names its purpose was checked for. *)
Lemma ValidatePlan_inv plan t allow :
  named_purpose (purpose plan) → t ≠ TICK_KIND_UNKNOWN → ValidatePlan (Some plan) t allow = Ok tt →
  ∃ as_, actions plan = Some <$> as_ ∧ validatePlanContract unicode_quote plan (purpose plan) = Ok tt ∧
    Forall (λ a, accepted plan (purpose plan) t allow a) as_.
Proof.
  intros Hn Ht H. unfold ActionPolicy.ValidatePlan in H.
  assert (EffectivePurpose unicode_quote plan = Ok (purpose plan, false)) as E.
  { unfold EffectivePurpose. by destruct (purpose plan). }
  rewrite E in H. cbn [mbind Result_bind] in H. rewrite (bool_decide_false _ Ht) in H. apply bind_Ok in H as ([] & Hc & H).
  apply bind_Ok in Hc as ([] & Hc & _). apply validate_actions_Ok in H as (as_ & Ha & Hall). by exists as_.
Qed.

(** The plan a round is given: without actions, or accepted. *)
Definition ready_admission (i : PlanningInput) (allow : bool) (p0 : PlacementPlan) : Prop :=
  actions p0 = [] ∨
  purpose p0 ∈ [PLAN_PURPOSE_ADMISSION; PLAN_PURPOSE_PREEMPTION] ∧ snapshot_revision p0 = revision (pi_Snapshot i) ∧
  ValidatePlan (Some p0) (tick i) allow = Ok tt.

Definition admission_size (i : PlanningInput) : nat := from_option (λ p, length (actions p)) 0%nat (AdmissionPlan i).

(** What the planner of admissions offers at an index. *)
Lemma admission_offers utility i k pr plan :
  AdmissionPlanner_Propose sha256_hex fields_wire utility i !! k = Some pr → pp_Plan pr = Some plan →
  ∃ p0, AdmissionPlan i = Some p0 ∧ actions p0 ≠ [] ∧
    (purpose p0 = PLAN_PURPOSE_ADMISSION ∧ (∃ a, actions p0 !! k = Some a ∧ admissionActionPlan sha256_hex p0 a = Ok plan) ∨
     purpose p0 ≠ PLAN_PURPOSE_ADMISSION ∧ plan = p0).
Proof.
  unfold AdmissionPlanner_Propose. destruct (AdmissionPlan i) as [p0|] eqn:Hadm; [|done]. intros Hk Hp. exists p0. split; [done|].
  destruct (decide (purpose p0 = PLAN_PURPOSE_ADMISSION)) as [E|E].
  - rewrite (bool_decide_true _ E) in Hk. cbn [negb] in Hk. case_bool_decide as Hl.
    { apply list_lookup_singleton_Some in Hk as [_ <-]. done. }
    split; [by intros E'; rewrite E' in Hl|]. left. split; [done|]. rewrite list_lookup_imap in Hk.
    destruct (actions p0 !! k) as [a|]; [|done]. injection Hk as <-. exists a. split; [done|]. unfold admission_proposal in Hp. cbv zeta in Hp.
    destruct (Blocking _); [done|]. destruct (admissionActionPlan _ p0 a); [|done]. by injection Hp as ->.
  - rewrite (bool_decide_false _ E) in Hk. cbn [negb] in Hk. unfold existingPlanProposal in Hk. destruct (actions p0) as [|first rest]; [done|].
    split; [done|]. right. split; [done|]. cbv zeta in Hk.
    destruct (_ && _); apply list_lookup_singleton_Some in Hk as [_ <-]; [done|]. by injection Hp.
Qed.

(** A part of an accepted admission. *)
Lemma admission_part i allow p0 k x plan :
  tick i ≠ TICK_KIND_UNKNOWN → AdmissionPlan i = Some p0 → ready_admission i allow p0 → purpose p0 = PLAN_PURPOSE_ADMISSION →
  actions p0 !! k = Some x → admissionActionPlan sha256_hex p0 x = Ok plan →
  ∃ a, unit_plan unicode_quote unicode_lower (revision (pi_Snapshot i)) (tick i) allow plan a ∧ (k < admission_size i)%nat ∧
    ((2 ≤ admission_size i)%nat → ValidateRollback unicode_quote a = Ok tt).
Proof using Type.
  intros Ht Hadm Hready Hp Hk Hplan. pose proof (lookup_lt_Some _ _ _ Hk) as Hlt.
  assert (Hsize : admission_size i = length (actions p0)) by (unfold admission_size; by rewrite Hadm). rewrite Hsize.
  destruct Hready as [E|(_ & Hrev & Hv)]; [by rewrite E in Hk|].
  assert (Hn : named_purpose (purpose p0)) by (by rewrite Hp).
  destruct (ValidatePlan_inv p0 (tick i) allow Hn Ht Hv) as (as_ & Has & Hc & Hall). rewrite Hp in Hc, Hall.
  rewrite Has, list_lookup_fmap in Hk. destruct (as_ !! k) as [a|] eqn:Ea; [|done]. injection Hk as <-.
  pose proof (Forall_lookup_1 _ _ _ _ Hall Ea) as Hacc. cbv beta in Hacc.
  assert (Hne : actions p0 ≠ []) by (intros E; rewrite E in Hlt; cbn in Hlt; lia).
  destruct (validatePlanContract_sound _ p0 _ Hc Hne) as (Hmany & Haff & _). specialize (Haff eq_refl).
  unfold admissionActionPlan in Hplan. cbn [mbind option_bind] in Hplan. destruct (action_binding a) as [b|] eqn:Hb; [|done].
  cbn [mbind option_bind] in Hplan. case_bool_decide as Hbind; [|done]. destruct (find _ _) as [binding|]; [|done].
  injection Hplan as <-. set (planID := SchedulerCore.stableID sha256_hex "admission-action-plan" _).
  set (a' := (at_place planID 1 a) <| action_id := SchedulerCore.stableID sha256_hex "admission-action" [planID; action_id a] |>
               <| idempotency_key := SchedulerCore.stableID sha256_hex "admission-action-idempotency" [idempotency_key a; planID] |>).
  assert (Hrel : relabelled a a') by (by repeat eexists). exists a'. split_and!; [|done|].
  - split; cbn; rewrite ?Hp; try done.
    eapply accepted_moved; [exact Hacc|exact Hrel|done|done|by left|done].
  - intros Hl. eapply ValidateRollback_moved; [exact Hrel|]. rewrite accepted_iff in Hacc. apply Hacc, Hmany. lia.
Qed.

(** A proposal of a tick that has a plan: part of the admission, the plan that was given,
    or an action a planner planned. *)
Lemma tick_offers c i k pr plan :
  tick_proposals c i !! k = Some pr → pp_Plan pr = Some plan →
  (∃ p0, AdmissionPlan i = Some p0 ∧ actions p0 ≠ [] ∧
    (purpose p0 = PLAN_PURPOSE_ADMISSION ∧ (∃ a, actions p0 !! k = Some a ∧ admissionActionPlan sha256_hex p0 a = Ok plan) ∨
     purpose p0 ≠ PLAN_PURPOSE_ADMISSION ∧ plan = p0)) ∨
  ∃ kind s, planned i plan kind s.
Proof using Type.
  unfold AdaptiveCoordinator.tick_proposals. cbv zeta. intros Hk Hp. apply lookup_app_Some in Hk as [Hk|[_ Hk]].
  - left. by eapply admission_offers.
  - right. apply list_elem_of_lookup_2 in Hk. destruct (tick i); try (by apply elem_of_nil in Hk).
    + by eapply Fast_planned.
    + by eapply Medium_planned.
    + by eapply Slow_planned.
Qed.

(** What is known of a round's input. *)
Record round_input_ok (allow : bool) (i : PlanningInput) : Prop := {
  ri_tick : tick i ≠ TICK_KIND_UNKNOWN;
  ri_sandboxes : Forall (λ o, sandbox_id (os_sandbox o) ≠ "") (pi_Sandboxes i);
  ri_allocations : Forall (λ a, TrimSpace (allocation_id a) ≠ "") (allocations (pi_Snapshot i));
  ri_admission p0 : AdmissionPlan i = Some p0 → ready_admission i allow p0;
}.

(** An offered plan is one of one action, or the preemption the round was given. *)
Definition round_unit (allow : bool) (i : PlanningInput) (k : nat) (plan : PlacementPlan) (a : Action) : Prop :=
  unit_plan unicode_quote unicode_lower (revision (pi_Snapshot i)) (tick i) allow plan a ∧
  (purpose plan = PLAN_PURPOSE_ADMISSION → (k < admission_size i)%nat) ∧
  (purpose plan ≠ PLAN_PURPOSE_ADMISSION ∨ (2 ≤ admission_size i)%nat → ValidateRollback unicode_quote a = Ok tt).

Lemma offered_unit allow c i b s :
  round_input_ok allow i → offered (annotateArbitrationBudget b (tick_proposals c i)) s →
  (∃ a, round_unit allow i s.1 s.2 a) ∨
  AdmissionPlan i = Some s.2 ∧ purpose s.2 = PLAN_PURPOSE_PREEMPTION ∧ actions s.2 ≠ [] ∧ ValidatePlan (Some s.2) (tick i) allow = Ok tt.
Proof using lower_dash.
  intros [Ht Hs Ha Hadm] (pr & Hk & He). destruct s as [k plan]. cbn [fst snd] in *.
  unfold annotateArbitrationBudget in Hk. rewrite list_lookup_fmap in Hk. destruct (tick_proposals c i !! k) as [pr0|] eqn:E; [|done].
  injection Hk as <-. unfold eligible_plan in He. destruct (bool_decide _); [done|]. cbn [pp_Plan set_field] in He.
  apply (tick_offers c i k pr0 plan E) in He as [(p0 & Hp0 & Hne & [[Hp (x & Hx & Hpart)]|[Hp ->]])|(kind & sp & Hpl)].
  - left. pose proof (Hadm p0 Hp0) as Hr.
    destruct (admission_part i allow p0 k x plan Ht Hp0 Hr Hp Hx Hpart) as (a & Hu & Hk & Hroll). exists a. split; [done|].
    split; [done|]. intros [Hn|]; [|by apply Hroll]. exfalso. apply Hn. unfold admissionActionPlan in Hpart.
    destruct (x ≫= _) as [[y b']|]; [|done]. destruct (find _ _); [|done]. by injection Hpart as <-.
  - right. destruct (Hadm p0 Hp0) as [|(Hin & _ & Hv)]; [done|]. split_and!; try done. set_solver.
  - left. pose proof Hpl as [[Hheld Hobs _ _ _] _ (_ & _ & Hpp) _]. destruct (planned_unit unicode_quote unicode_lower sha256_hex binding_wire FormatFloat i plan kind sp allow lower_dash Hpl) as (a & Hu & Hroll).
    + apply list_elem_of_fmap in Hobs as (o & Eo & Ho). unfold spec_sandbox. rewrite Eo. rewrite Forall_forall in Hs. by apply Hs.
    + unfold active_allocations in Hheld. apply list_elem_of_filter in Hheld as [_ Hheld]. rewrite Forall_forall in Ha. by apply Ha.
    + exists a. split; [done|]. split; [|done]. by destruct Hpp as [->|[[-> _]|[-> _]]].
Qed.

(** A preemption releases and binds, which no other plan's action goes with. *)
Lemma preemption_exclusive plan t allow :
  purpose plan = PLAN_PURPOSE_PREEMPTION → actions plan ≠ [] → t ≠ TICK_KIND_UNKNOWN → ValidatePlan (Some plan) t allow = Ok tt →
  classifyPlanMerge plan = planMergeExclusive.
Proof using Type.
  clear lower_dash. intros Hp Hne Ht Hv. assert (Hn : named_purpose (purpose plan)) by (by rewrite Hp).
  destruct (ValidatePlan_inv plan t allow Hn Ht Hv) as (as_ & Ha & Hc & _). rewrite Hp in Hc.
  destruct (validatePlanContract_sound _ plan _ Hc Hne) as (_ & _ & Hbind). destruct (Hbind eq_refl) as [_ Hb].
  unfold classifyPlanMerge. rewrite Hp, (bool_decide_false (length _ = 0%nat)) by (intros E%nil_length_inv; done).
  rewrite (bool_decide_false (PLAN_PURPOSE_PREEMPTION = _)) by done.
  destruct (forallb _ _) eqn:E; [|done]. exfalso. apply existsb_exists in Hb as (x & Hx & Hxt).
  rewrite forallb_forall in E. specialize (E x Hx). destruct x as [x|]; [|done]. unfold of_type in Hxt. cbn in Hxt, E. bool_props.
  by rewrite Hxt in E.
Qed.

Lemma units_of allow i chosen :
  Forall (λ s, ∃ a, round_unit allow i s.1 s.2 a) chosen →
  ∃ as_, Forall2 (unit_plan unicode_quote unicode_lower (revision (pi_Snapshot i)) (tick i) allow) chosen.*2 as_ ∧
    Forall2 (λ s a, round_unit allow i s.1 s.2 a) chosen as_.
Proof using Type.
  induction 1 as [|s chosen (a & Ha) _ (as_ & IH1 & IH2)]; [by exists []|]. exists (a :: as_). split; constructor; try done. apply Ha.
Qed.

(** Several parts of an admission are several actions of it. *)
Lemma units_rollback allow i p chosen as_ :
  Forall2 (λ s a, round_unit allow i s.1 s.2 a) chosen as_ → NoDup chosen.*1 → Forall (λ s, purpose s.2 = p) chosen →
  (2 ≤ length as_)%nat → Forall (λ a, ValidateRollback unicode_quote a = Ok tt) as_.
Proof using Type.
  clear lower_dash. intros Hu Hnd Hp Hl.
  assert (Hmany : p ≠ PLAN_PURPOSE_ADMISSION ∨ (2 ≤ admission_size i)%nat).
  { destruct (decide (p = PLAN_PURPOSE_ADMISSION)) as [->|]; [right|by left].
    destruct Hu as [|s1 a1 ? ? H1 [|s2 a2 ? ? H2 Hu]]; cbn in Hl; [lia|lia|].
    apply Forall_cons in Hp as [P1 Hp]. apply Forall_cons in Hp as [P2 _]. destruct H1 as (_ & H1 & _). destruct H2 as (_ & H2 & _).
    specialize (H1 P1). specialize (H2 P2). cbn in Hnd. apply NoDup_cons in Hnd as [Hnd _]. assert (s1.1 ≠ s2.1) by set_solver. lia. }
  clear Hl Hnd. induction Hu as [|s a chosen as_ (_ & _ & Hr) _ IH]; [constructor|]. apply Forall_cons in Hp as [Hps Hp].
  constructor; [|by apply IH]. apply Hr. by rewrite Hps.
Qed.

Lemma arbitration_accepted allow c i value n sel plan marked :
  round_input_ok allow i →
  arbitrateProposals sha256_hex i (annotateArbitrationBudget (normalizePlannerBudget value n) (tick_proposals c i)) (normalizePlannerBudget value n) =
    (sel, Some plan, marked) →
  ValidatePlan (Some plan) (tick i) allow = Ok tt.
Proof using lower_dash.
  intros Hi H. set (b := normalizePlannerBudget value n) in *. set (proposals := annotateArbitrationBudget b _) in *.
  pose proof (arbitrate_all_spec b proposals (normalized_budget_ok value n)) as Hall. unfold arbitrateProposals in H.
  destruct (arbitrate_all b proposals) as [st marks]. destruct Hall as [[A1 A2 _ _ _ _ A7 A8 A9 A10 _] _ _ _ _ _ _].
  destruct (_ && _); [done|]. injection H as _ Hm _. pose proof Hi as [Ht _ _ Hadm].
  assert (Hpre : ∀ s, s ∈ selected st → purpose s.2 = PLAN_PURPOSE_PREEMPTION → (∀ a, ¬ round_unit allow i s.1 s.2 a)).
  { intros s _ Hp a ([_ _ H3 _ _ _ _] & _). done. }
  destruct (decide (Exists (λ s, purpose s.2 = PLAN_PURPOSE_PREEMPTION) (selected st))) as [Hex|Hno].
  - apply Exists_exists in Hex as (s & Hs & Hp). rewrite Forall_forall in A1, A9.
    destruct (offered_unit allow c i b s Hi (A1 s Hs)) as [[a Hu]|(Hgiven & _ & Hne & Hv)]; [by apply Hpre in Hu|].
    pose proof (preemption_exclusive s.2 _ allow Hp Hne Ht Hv) as Hcl.
    assert (Hone : selected st = [s]).
    { assert (length (selected st) ≤ 1)%nat by (apply A10; by rewrite <- (A9 s Hs)). destruct (selected st) as [|s' [|]]; cbn in *; [set_solver|set_solver|lia]. }
    rewrite Hone in Hm. cbn [fmap list_fmap mergeSelectedPlans] in Hm. rewrite Hgiven, Hp in Hm. cbn in Hm. by injection Hm as <-.
  - assert (Hunits : Forall (λ s, ∃ a, round_unit allow i s.1 s.2 a) (selected st)).
    { apply Forall_forall. intros s Hs. rewrite Forall_forall in A1. destruct (offered_unit allow c i b s Hi (A1 s Hs)) as [|(_ & Hp & _)]; [done|].
      destruct Hno. apply Exists_exists. by exists s. }
    assert (Hsame : Forall (λ s, purpose s.2 = selectedPurpose st) (selected st)).
    { apply Forall_forall. intros s Hs. rewrite Forall_forall in A7, Hunits. destruct (A7 s Hs) as [Hu|]; [|done].
      destruct (Hunits s Hs) as (a & [_ H2 _ _ _ _ _] & _). by rewrite Hu in H2. }
    destruct (units_of allow i _ Hunits) as (as_ & Hu1 & Hu2).
    eapply mergeSelectedPlans_accepted; [exact Ht|exact Hu1|by apply Forall_fmap|by eapply units_rollback| |exact Hm].
    intros p0 Hp0 Hne. by destruct (Hadm p0 Hp0) as [|(_ & _ & Hv)].
Qed.

(** ** Properties *)

Lemma prepare_keeps c i j :
  prepare c i = Ok j →
  tick i ≠ TICK_KIND_UNKNOWN ∧ tick j = tick i ∧ pi_Snapshot j = pi_Snapshot i ∧ pi_Sandboxes j = pi_Sandboxes i ∧
  AdmissionPlan j = AdmissionPlan i ∧ pi_Intent j = pi_Intent i ∧ ContractAggregate j = ContractAggregate i ∧ pi_SafePoint j = pi_SafePoint i ∧
  pi_Context j = pi_Context i.
Proof using Type.
  unfold AdaptiveCoordinator.prepare. cbv zeta. intros ([] & Hc & H)%bind_Ok. apply guard_err_Ok in Hc. bool_props.
  apply bind_Ok in H as (j0 & Hn & H). destruct (normalizePlanningSignals _ _ _ _) as [j1|] eqn:E; [|done]. injection Hn as <-.
  unfold normalizePlanningSignals in E. cbv zeta in E. apply bind_Ok in E as (facts & _ & E). apply bind_Ok in E as (costs & _ & E).
  apply bind_Ok in E as (s & _ & E). apply bind_Ok in E as ([] & _ & E). injection E as <-. injection H as <-.
  unfold named_decision, idle_directives. split; [done|]. repeat case_match; done.
Qed.

(** Whatever the planners propose and the arbitration selects and merges, the plan of a
    round is one that [actionpolicy.ValidatePlan] accepts in the tick of the round,
    provided the plan of the placement engine the round was given is; so the check after
    the round refuses no plan of the planners' own. *)
Theorem coordinated_plan_accepted allow c i result plan :
  round_input_ok allow i → Plan c i = Ok result → res_Plan result = Some plan → ValidatePlan (Some plan) (tick i) allow = Ok tt.
Proof using lower_dash.
  intros [Ht Hs Ha Hadm] H Hp. unfold AdaptiveCoordinator.Plan in H. apply bind_Ok in H as (j & Hj & H). cbv zeta in H. injection H as <-.
  apply prepare_keeps in Hj as (_ & Htick & Hsnap & Hsand & Hap & _).
  assert (Hij : round_input_ok allow j).
  { split; rewrite ?Htick, ?Hsnap, ?Hsand, ?Hap; try done. intros p0 Hp0. specialize (Hadm p0 Hp0). unfold ready_admission in *. by rewrite Htick, Hsnap. }
  unfold concluded in Hp. destruct (arbitrateProposals _ _ _ _) as [[sel merged] marked] eqn:E. cbv zeta in Hp. cbn [res_Plan] in Hp.
  case_bool_decide; [done|]. subst merged. rewrite <- Htick. by eapply arbitration_accepted.
Qed.

(** An action on a sandbox: of an active allocation of the stage, whose one observation is
    of its generation and neither stale nor from the future; at a safe point, when the
    action is not harmless; within the contract, the ceiling of the tick and what the
    devices advertise; fenced by the generation and the revision. *)
Record safe_action (c : Coordinator) (i : PlanningInput) (a : Action) (al : Allocation) (s : Sandbox) : Prop := {
  sa_held : al ∈ allocations (pi_Snapshot i) ∧ active_for i al = true ∧ target_id a = allocation_id al;
  sa_observed : s ∈ os_sandbox <$> pi_Sandboxes i ∧ sandboxMatchesAllocation s al = true ∧ ac_sandbox_id a = sandbox_id s;
  sa_fresh : ∃ confirmed now, effectiveSandboxLastConfirmedAt s = Some confirmed ∧ evaluation_time (pi_Context i) = Some now ∧
    let age := time_Sub (AsTime (Some now)) (AsTime (Some confirmed)) in
    - Second ≤ age ≤ positive_or (co_sandboxMaximumAge c) (defaultSandboxMaximumAge (tick i));
  sa_safe_point : harmless (action_type a) ∨ at_safe_point i = true ∧ safe_point s = true;
  sa_contract : Blocking (ContractAggregate i) = true →
    Evaluator.Action (ContractAggregate i) = ACTION_PAUSE_REQUIRED ∧ action_type a = ACTION_TYPE_PAUSE;
  sa_level : ∃ ceiling, CeilingForTick (tick i) = Some ceiling ∧ ActionLevel_number (level_of (action_type a)) ≤ ActionLevel_number ceiling;
  sa_capability : action_type a ∉ [ACTION_TYPE_REBIND; ACTION_TYPE_RECREATE] → providerSupports unicode_lower i al (action_type a) = None;
  sa_fences : expected_generation a = al_generation al ∧ al_generation al ≠ 0 ∧
    expected_snapshot_revision (action_contract a) = revision (pi_Snapshot i) ∧ revision (pi_Snapshot i) ≠ 0;
}.

Lemma relabelled_refl a : relabelled a a.
Proof. destruct a as [? ? ? ? ? ? ? ? ? k]. destruct k. by repeat eexists. Qed.

(** The actions of a merged plan are those of the plans it is merged from. *)
Lemma mergeSelectedPlans_actions i plans plan a :
  mergeSelectedPlans sha256_hex i plans = Some plan → Some a ∈ actions plan →
  (∃ p0, AdmissionPlan i = Some p0 ∧ Some a ∈ actions p0) ∨ ∃ q a0, q ∈ plans ∧ Some a0 ∈ actions q ∧ relabelled a0 a.
Proof using Type.
  destruct plans as [|base others]; [done|]. unfold mergeSelectedPlans. set (whole := match AdmissionPlan i with Some _ => _ | None => _ end).
  intros Hm Ha. destruct whole as [p1|] eqn:E.
  { injection Hm as ->. left. exists plan. split; [|done]. unfold whole in E. destruct (AdmissionPlan i) as [p1|]; [|done].
    by destruct (_ && _); [|done]. }
  destruct others as [|second others].
  { injection Hm as ->. right. exists plan, a. split_and!; [left|done|apply relabelled_refl]. }
  cbv zeta in Hm. clear E whole. injection Hm as <-. cbn [actions set_field] in Ha. right.
  apply list_elem_of_fmap in Ha as (x & [= <-] & Hx). apply elem_of_lookup_imap in Hx as (n & a0 & -> & Hn).
  apply list_elem_of_lookup_2, list_elem_of_omap in Hn as (y & Hy & Ey). cbn in Ey. subst y.
  change (Some a0 ∈ concat (actions <$> base :: second :: others)) in Hy. apply list_elem_of_In, in_concat in Hy as (l & Hin & Hl). apply list_elem_of_In in Hin, Hl. apply list_elem_of_fmap in Hin as (q & -> & Hq). exists q, a0. split_and!; try done.
  apply merged_relabelled.
Qed.

Lemma default_age_positive t : 0 < defaultSandboxMaximumAge t.
Proof. by destruct t. Qed.

Lemma positive_or_positive v d : 0 < d → 0 < positive_or v d.
Proof. intros Hd. unfold positive_or. destruct (Z.leb_spec v 0); lia. Qed.

Lemma positive_or_twice v d : 0 < d → positive_or (positive_or v d) d = positive_or v d.
Proof. intros Hd. unfold positive_or. destruct (Z.leb_spec v 0); [|by rewrite (proj2 (Z.leb_gt _ _))]. by destruct (d <=? 0). Qed.

Lemma prepare_ages c i j :
  prepare c i = Ok j →
  sandboxMaximumAge j = positive_or (co_sandboxMaximumAge c) (defaultSandboxMaximumAge (tick i)) ∧ sandboxFutureSkew j = Second.
Proof using Type.
  unfold AdaptiveCoordinator.prepare. cbv zeta. intros ([] & _ & H)%bind_Ok. apply bind_Ok in H as (j0 & Hn & H).
  destruct (normalizePlanningSignals _ _ _ _) as [j1|] eqn:E; [|done]. injection Hn as <-.
  unfold normalizePlanningSignals in E. cbv zeta in E. apply bind_Ok in E as (facts & _ & E). apply bind_Ok in E as (costs & _ & E).
  apply bind_Ok in E as (s & _ & E). apply bind_Ok in E as ([] & _ & E). injection E as <-. injection H as <-.
  unfold named_decision, idle_directives. by repeat case_match.
Qed.

Lemma sandboxFreshnessReason_fresh c j s :
  sandboxMaximumAge j = positive_or (co_sandboxMaximumAge c) (defaultSandboxMaximumAge (tick j)) → sandboxFutureSkew j = Second →
  sandboxFreshnessReason j s = "" →
  ∃ confirmed now, effectiveSandboxLastConfirmedAt s = Some confirmed ∧ evaluation_time (pi_Context j) = Some now ∧
    let age := time_Sub (AsTime (Some now)) (AsTime (Some confirmed)) in
    - Second ≤ age ≤ positive_or (co_sandboxMaximumAge c) (defaultSandboxMaximumAge (tick j)).
Proof using Type.
  clear lower_dash. intros Hage Hskew. unfold sandboxFreshnessReason. destruct (effectiveSandboxLastConfirmedAt s) as [confirmed|]; [|done].
  destruct (negb _); [done|]. destruct (evaluation_time _) as [now|]; [|done]. cbv zeta. rewrite Hage, Hskew.
  rewrite positive_or_twice by apply default_age_positive. change (positive_or Second _) with Second.
  destruct (_ <? - Second) eqn:E1; [done|]. destruct (_ <? Z.max 0 _) eqn:E2; [done|]. intros _. exists confirmed, now.
  rewrite ?Z.ltb_ge in *. split_and!; [done..|lia].
Qed.

Lemma planned_safe c i j plan kind s a :
  prepare c i = Ok j → planned j plan kind s → Some a ∈ actions plan → ∃ al sb, safe_action c i a al sb.
Proof using Type.
  clear lower_dash. intros Hj [[Hheld Hobs Hm Hg Hf] [Hc Hsp Hl Hprov] (_ & Hsafe & _) Hb] Ha.
  pose proof (prepare_ages c i j Hj) as [Hage Hskew]. apply prepare_keeps in Hj as (_ & Ht & Hsnap & Hsand & _ & Hint & Hagg & Hpt & Hctx).
  rewrite <- Ht in Hage. apply (sandboxFreshnessReason_fresh c j _ Hage Hskew) in Hf.
  apply buildAdaptivePlan_one in Hb as (planID & d & Hd & Hrev & _ & _ & Hacts & _). rewrite Hacts in Ha. apply list_elem_of_singleton in Ha as [= ->].
  exists (tg_allocation (as_target s)), (spec_sandbox s). rewrite Ht, Hctx in Hf.
  unfold active_allocations in Hheld. apply list_elem_of_filter in Hheld as [Hact Hheld].
  pose proof Hm as Hm'. unfold sandboxMatchesAllocation in Hm'. destruct (sb_binding _); [|done]. bool_props.
  split; cbn [action_type target_id ac_sandbox_id expected_generation action_contract expected_snapshot_revision adaptive_action]; rewrite <- ?Hsnap; try done.
  - split_and!; try done. unfold active_for, core in *. by rewrite <- Hint.
  - by rewrite <- Hsand.
  - destruct Hsafe as [Hs|Hs]; [by left|]. destruct (decide (as_type s = ACTION_TYPE_RESUME)) as [E|E].
    { left. rewrite E. unfold harmless. set_solver. }
    right. destruct (Hsp E Hs) as [P1 P2]. unfold at_safe_point in *. by rewrite <- Hpt.
  - rewrite <- Hagg. intros Hbl. unfold contract_allows in Hc. rewrite Hbl in Hc. cbn in Hc. by bool_props.
  - by rewrite <- Ht.
  - intros Hr. specialize (Hprov Hr). unfold providerSupports in *. by rewrite <- Hsnap.
  - unfold spec_sandbox in *. split_and!; try done; congruence.
Qed.


End Round.
