(* ===== verification/AdaptiveProofs.v ===== *)
(** * What the adaptive evaluation gives out ([scheduler-go/scheduler/adaptive_integration.go])

    A plan with actions is the plan of a round that the policy of actions accepts and the
    protection guard allows; under a contract that blocks, it only pauses, and pauses
    everything that is not observed paused. *)

From Stdlib Require Import ZArith Lia Ascii.
From S2P Require Import Prelude GoStrings GoTime GoFloat Protection Semantics Evaluator ClusterModel SchedulerState Mutation Preemption Reservation Transaction Intents Candidates CandidateEngine Projection PhaseGraph Validation ActionPolicy ActionPolicyProofs SchedulerCore AdaptiveModel AdaptiveSignals AdaptiveTargets AdaptivePlanners AdaptiveArbitration AdaptiveCoordinator PlanProofs SchedulerProofs AdaptiveArbitrationProofs AdaptivePlanProofs.
From stdpp Require Import options.

Local Open Scope Z_scope.

Section Adaptive.
Context (unicode_upper unicode_quote unicode_quote_ascii unicode_lower : string → string).
Context (timestamp_error : Timestamp → string) (duration_error : Duration → string).
Context (sha256_hex : string → string) (contract_wire : ContractMessage → Result string string).
Context (order_of : gset string → list string).
Context (ValueString : SemanticValue → string) (digest : string → ContractEvaluation → string).
Context (binding_wire : Binding → string) (fields_wire : list SemanticField → string) (FormatFloat : float64 → string).
Context (ParseFloat : string → option float64) (ParseDuration : string → option Z).

Local Abbreviation EvaluateWithContext :=
  (SchedulerCore.EvaluateWithContext unicode_quote unicode_quote_ascii unicode_lower timestamp_error duration_error sha256_hex contract_wire
     order_of ValueString digest).
Local Abbreviation EvaluateAdaptive :=
  (AdaptiveCoordinator.EvaluateAdaptive unicode_upper unicode_quote unicode_quote_ascii unicode_lower timestamp_error duration_error sha256_hex
     contract_wire order_of ValueString digest binding_wire fields_wire FormatFloat ParseFloat ParseDuration).
Local Abbreviation coordinate :=
  (AdaptiveCoordinator.coordinate unicode_upper unicode_quote unicode_lower sha256_hex ValueString digest binding_wire fields_wire FormatFloat
     ParseFloat ParseDuration).
Local Abbreviation adaptive_runtime :=
  (AdaptiveCoordinator.adaptive_runtime unicode_upper unicode_quote unicode_quote_ascii unicode_lower timestamp_error duration_error sha256_hex
     contract_wire order_of ValueString digest binding_wire fields_wire FormatFloat ParseFloat ParseDuration).
Local Abbreviation adaptive_admission :=
  (AdaptiveCoordinator.adaptive_admission unicode_upper unicode_quote unicode_quote_ascii unicode_lower timestamp_error duration_error sha256_hex
     contract_wire order_of ValueString digest binding_wire fields_wire FormatFloat ParseFloat ParseDuration).
Local Abbreviation normalizeEvaluationContext := (SchedulerCore.normalizeEvaluationContext unicode_lower timestamp_error).

(** A context that was normalised once is normalised. *)
Lemma normalizeEvaluationContext_time readings ctx0 ctx now sequence ctx' now' sequence' :
  normalizeEvaluationContext readings ctx0 = Ok (ctx, now, sequence) →
  normalizeEvaluationContext readings (Some ctx) = Ok (ctx', now', sequence') → now' = now.
Proof.
  unfold SchedulerCore.normalizeEvaluationContext. intros ([[t n] b] & Ht & H)%bind_Ok. apply bind_Ok in H as ([] & _ & H).
  cbv zeta in H. apply bind_Ok in H as ([] & _ & H). injection H as <- <- <-. cbn [default from_option].
  intros ([[t' n'] b'] & Ht' & H')%bind_Ok. apply bind_Ok in H' as ([] & _ & H'). cbv zeta in H'. apply bind_Ok in H' as ([] & _ & H').
  injection H' as _ <- _. unfold context_time in Ht'. cbn [evaluation_time] in Ht'. apply bind_Ok in Ht' as ([] & _ & Ht'). injection Ht' as <- <- <-.
  unfold context_time in Ht. destruct (evaluation_time _).
  - apply bind_Ok in Ht as ([] & _ & Ht). by injection Ht as <- <- <-.
  - apply bind_Ok in Ht as ([] & _ & Ht). apply bind_Ok in Ht as ([] & _ & Ht). injection Ht as <- <- <-. apply AsTime_New.
Qed.

(** An evaluation of an intent that has expired does nothing. *)
Lemma expired_evaluation s readings snapshot intent context ctx now sequence plan r g :
  normalizeEvaluationContext readings context = Ok (ctx, now, sequence) → expired intent now = true →
  EvaluateWithContext s readings (Some snapshot) (Some intent) (Some ctx) = Ok (plan, r, g) →
  selected_plan r = Some plan ∧ actions plan = [].
Proof.
  intros Hn Hx H. apply EvaluateWithContext_given in H as (e & seq' & evals & aggregate & _ & <- & Hn' & _ & _ & (Hd & Hs & _) & Hl).
  split; [done|]. pose proof (normalizeEvaluationContext_time _ _ _ _ _ _ _ _ Hn Hn') as E. rewrite E in Hl.
  destruct Hd as [|? ? ->|? ? ? ? Hf|? Hf]; [done|done| |]; destruct (Hl Hf) as [Hx' _]; congruence.
Qed.

Local Abbreviation Plan := (AdaptiveCoordinator.Plan unicode_upper unicode_quote unicode_lower sha256_hex binding_wire fields_wire FormatFloat).

(** A round that was given a plan with actions and has none of its own says so. *)
Lemma round_without_plan c i p0 result :
  AdmissionPlan i = Some p0 → actions p0 ≠ [] → Plan c i = Ok result → res_Plan result = None → res_FallbackReason result ≠ "".
Proof.
  intros Hadm Hne H Hnone. unfold AdaptiveCoordinator.Plan in H. apply bind_Ok in H as (j & Hj & H). cbv zeta in H. injection H as <-.
  apply prepare_keeps in Hj as (_ & _ & _ & _ & Hap & _). rewrite Hadm in Hap.
  set (proposals := annotateArbitrationBudget _ _) in *. unfold concluded in *.
  destruct (arbitrateProposals _ _ _ _) as [[sel merged] marked] eqn:E. cbv zeta in *. cbn [res_Plan res_FallbackReason] in *.
  assert (Hfirst : ∃ pr rest, proposals = pr :: rest ∧ settled pr = false).
  { unfold proposals, annotateArbitrationBudget, tick_proposals, AdmissionPlanner_Propose. cbv zeta. rewrite Hap.
    destruct (actions p0) as [|a as_] eqn:Ea; [done|]. cbn [length].
    destruct (negb (bool_decide (purpose p0 = PLAN_PURPOSE_ADMISSION))).
    - unfold existingPlanProposal. rewrite Ea. cbv zeta. destruct (Blocking _ && _); cbn [fmap list_fmap app]; (eexists _, _; split; [reflexivity|done]).
    - rewrite (bool_decide_false (S _ = 0%nat)) by done. cbn [imap fmap list_fmap app]. eexists _, _. split; [reflexivity|].
      unfold admission_proposal. cbv zeta. destruct (Blocking _); [done|]. unfold admissionActionPlan.
      destruct (a ≫= _) as [[y b]|]; [|done]. by destruct (find _ _). }
  destruct Hfirst as (pr & rest & Hp & Hs). rewrite Hp in *. clear Hp.
  assert (Hsel : sel = []).
  { unfold arbitrateProposals in E. destruct (arbitrate_all _ _) as [st marks]. destruct (_ && _) in E; [by injection E|].
    injection E as <- <- _. case_bool_decide as Hl; [by apply nil_length_inv|]. destruct (selected st) as [|s l]; [done|].
    cbn [fmap list_fmap mergeSelectedPlans] in Hnone. cbv zeta in Hnone. repeat case_match; done. }
  rewrite Hsel. cbn [forallb length]. rewrite Hs. by rewrite (bool_decide_false (S _ = 0%nat)).
Qed.

Definition allowed (g : Guard) (intent : IntentMessage) (plan : PlacementPlan) : Prop :=
  ∃ time score, CheckN g time (guard_key intent) score (Z.of_nat (length (actions plan))) = Allowed.

(** How a plan with actions came about. *)
Record round_plan (s : AdaptiveScheduler) (input : AdaptiveEvaluationInput) (snapshot : ClusterSnapshot) (intent : IntentMessage)
    (plan : PlacementPlan) (r : DecisionRecord) (g : Guard) (result : PlannerResult) (aggregate : AggregateResult) : Prop := {
  rp_coordinated : ∃ admission decisionID evals,
    coordinate s input snapshot intent (evaluation_context r) admission decisionID = Ok (result, aggregate, evals);
  rp_plan : res_Plan result = Some plan;
  rp_evidence : planner_evidence r = res_Evidence result;
  rp_valid : validateActionPlan unicode_quote unicode_lower plan (evaluation_context r) = Ok tt;
  rp_allowed : allowed g intent plan;
  rp_pause : Blocking aggregate = true → plannerResultSatisfiesPause (own_input input snapshot intent) (Some plan) = true;
}.

(** What every way through guarantees. *)
Definition given_out (s : AdaptiveScheduler) (input : AdaptiveEvaluationInput) (snapshot : ClusterSnapshot) (intent : IntentMessage)
    (plan : PlacementPlan) (r : DecisionRecord) (g : Guard) : Prop :=
  selected_plan r = Some plan ∧ (fallback r = true → actions plan = []) ∧
  (actions plan ≠ [] → ∃ result aggregate, round_plan s input snapshot intent plan r g result aggregate).

Lemma fallback_given_out s core input snapshot intent now r0 reason plan r g :
  fallbackResult unicode_lower sha256_hex core snapshot intent now r0 reason = (plan, r) → given_out s input snapshot intent plan r g.
Proof. intros (_ & Ha & (Hs & _) & _)%fallbackResult_spec. split_and!; [done..|]. by rewrite Ha. Qed.

Lemma vetted_given_out s input core later snapshot intent ctx now plan0 r0 granted plan r result aggregate evals admission decisionID :
  vetted unicode_quote unicode_lower sha256_hex core later snapshot intent ctx now plan0 r0 granted = (plan, r) →
  coordinate s input snapshot intent ctx admission decisionID = Ok (result, aggregate, evals) →
  res_Plan result = Some plan0 → evaluation_context granted = ctx → planner_evidence granted = res_Evidence result →
  selected_plan granted = Some plan0 → fallback granted = false →
  (Blocking aggregate = true → plannerResultSatisfiesPause (own_input input snapshot intent) (Some plan0) = true) →
  given_out s input snapshot intent plan r (sc_guard core).
Proof.
  unfold vetted. intros H Hc Hp Hctx Hev Hsel Hfb Hpause.
  destruct (validateActionPlan _ _ plan0 ctx) as [[]|text] eqn:Hv; [|by eapply fallback_given_out].
  destruct (CheckN _ _ _ _ _) eqn:Hg; [|by eapply fallback_given_out]. injection H as <- <-. split_and!; [done|by rewrite Hfb|].
  intros _. exists result, aggregate. split; rewrite ?Hctx; try done; [by eexists _, _, _|by eexists _, _].
Qed.

Lemma adaptive_admission_given_out s readings later input snapshot intent plan r g :
  adaptive_admission s readings later input snapshot intent = Ok (plan, r, g) → given_out s input snapshot intent plan r g.
Proof.
  unfold AdaptiveCoordinator.adaptive_admission. intros ([[p0 r0] g0] & H0 & H)%bind_Ok. cbv beta zeta iota in H.
  apply bind_Ok in H as ([[result aggregate] evals] & Hc & H).
  apply EvaluateWithContext_given in H0 as (e & seq' & evals' & aggregate' & _ & _ & _ & _ & _ & (Hd & Hs & Hcx & _) & _).
  destruct (res_Plan result) as [q|] eqn:Hq.
  - destruct (Blocking aggregate && _) eqn:Hb.
    + destruct (fallbackResult _ _ _ _ _ _ _ _) as [p' r'] eqn:E. injection H as <- <- <-. by eapply fallback_given_out.
    + destruct (vetted _ _ _ _ _ _ _ _ _ _ _ _) as [p' r'] eqn:E. injection H as <- <- <-.
      eapply vetted_given_out in E; [exact E|exact Hc|done|done|done|done|done|].
      intros Hbl. rewrite Hbl in Hb. cbn [andb] in Hb. by apply negb_false_iff.
  - destruct (Blocking aggregate).
    { destruct (fallbackResult _ _ _ _ _ _ _ _) as [p' r'] eqn:E. injection H as <- <- <-. by eapply fallback_given_out. }
    destruct (negb _) eqn:Hr.
    { destruct (fallbackResult _ _ _ _ _ _ _ _) as [p' r'] eqn:E. injection H as <- <- <-. by eapply fallback_given_out. }
    injection H as <- <- <-. bool_props.
    assert (Hnone : actions p0 = []).
    { destruct (actions p0) eqn:Ea; [done|]. exfalso. unfold AdaptiveCoordinator.coordinate in Hc.
      apply bind_Ok in Hc as ([[safe agg] ev] & _ & Hc). apply bind_Ok in Hc as (d & _ & Hc). apply bind_Ok in Hc as (res & Hpl & Hc).
      injection Hc as -> -> ->. destruct (AdaptiveCoordinator.Plan _ _ _ _ _ _ _ _ _) as [res|] eqn:E; [|done]. injection Hpl as ->.
      eapply round_without_plan in E; [by apply E|reflexivity|by rewrite Ea|done]. }
    split_and!; [done|done|]. by rewrite Hnone.
Qed.

Lemma adaptive_runtime_given_out s readings input snapshot intent plan r g :
  adaptive_runtime s readings input snapshot intent = Ok (plan, r, g) → given_out s input snapshot intent plan r g.
Proof.
  unfold AdaptiveCoordinator.adaptive_runtime. intros ([[ctx now] sequence] & Hn & H)%bind_Ok. cbv zeta in H.
  destruct (normalizeEvaluationContext readings (ai_Context input)) as [n|] eqn:En; [|done]. injection Hn as ->.
  destruct (expired intent now) eqn:Hx.
  { destruct (expired_evaluation _ _ _ _ _ _ _ _ _ _ _ En Hx H) as [Hs Ha]. split_and!; [done..|]. by rewrite Ha. }
  apply bind_Ok in H as ([[result aggregate] evals] & Hc & H).
  destruct (Blocking aggregate && _) eqn:Hb.
  { destruct (fallbackResult _ _ _ _ _ _ _ _) as [p' r'] eqn:E. injection H as <- <- <-. by eapply fallback_given_out. }
  destruct (res_Plan result) as [q|] eqn:Hq.
  - destruct (vetted _ _ _ _ _ _ _ _ _ _ _ _) as [p' r'] eqn:E. injection H as <- <- <-.
    eapply vetted_given_out in E; [exact E|exact Hc|done|done|done|done|done|].
    intros Hbl. rewrite Hbl in Hb. cbn [andb] in Hb. by apply negb_false_iff.
  - case_bool_decide.
    + injection H as <- <- <-. by split_and!.
    + destruct (fallbackResult _ _ _ _ _ _ _ _) as [p' r'] eqn:E. injection H as <- <- <-. by eapply fallback_given_out.
Qed.

Lemma EvaluateAdaptive_given_out s readings later input snapshot intent plan r g :
  ai_Snapshot input = Some snapshot → ai_Intent input = Some intent →
  EvaluateAdaptive s readings later input = Ok (plan, r, g) → given_out s input snapshot intent plan r g.
Proof.
  intros Hs Hi. unfold AdaptiveCoordinator.EvaluateAdaptive. rewrite Hs, Hi. intros (? & _ & H)%bind_Ok. apply bind_Ok in H as (? & _ & H).
  cbv zeta in H. destruct (workUnits _ _ _) as [[|u us]|[why detail]].
  - by eapply adaptive_runtime_given_out.
  - by eapply adaptive_admission_given_out.
  - destruct (_ && _); [by eapply adaptive_runtime_given_out|by eapply adaptive_admission_given_out].
Qed.

(** ** Properties *)

(** C28: The adaptive evaluation gives out the plan it records.  A fallback has no action; a plan
    with actions is the plan of a round on the recorded context, with the round's evidence,
    that [actionpolicy.ValidatePlan] accepts and the guard allows for as many actions as it
    has. *)
Theorem EvaluateAdaptive_vetted s readings later input snapshot intent plan r g :
  ai_Snapshot input = Some snapshot → ai_Intent input = Some intent →
  EvaluateAdaptive s readings later input = Ok (plan, r, g) →
  selected_plan r = Some plan ∧ (fallback r = true → actions plan = []) ∧
  (actions plan ≠ [] →
    validateActionPlan unicode_quote unicode_lower plan (evaluation_context r) = Ok tt ∧ allowed g intent plan ∧
    ∃ admission decisionID result aggregate evals,
      coordinate s input snapshot intent (evaluation_context r) admission decisionID = Ok (result, aggregate, evals) ∧
      res_Plan result = Some plan ∧ planner_evidence r = res_Evidence result).
Proof.
  intros Hs Hi H. destruct (EvaluateAdaptive_given_out _ _ _ _ _ _ _ _ _ Hs Hi H) as (Hsel & Hfb & Hr). split_and!; [done..|].
  intros Ha. destruct (Hr Ha) as (result & aggregate & [(admission & decisionID & evals & Hc) Hp He Hv Hal _]).
  split_and!; [done..|]. by exists admission, decisionID, result, aggregate, evals.
Qed.

(** The allocation is observed paused, or an action of the plan pauses it. *)
Definition paused_by (i : PlanningInput) (plan : PlacementPlan) (al : Allocation) : Prop :=
  (∃ a, Some a ∈ actions plan ∧ action_type a = ACTION_TYPE_PAUSE ∧ target_id a = allocation_id al) ∨
  ∃ t, actionable i t ∧ sb_state (tg_sandbox t) = RUNTIME_STATE_PAUSED ∧ allocation_id (tg_allocation t) = allocation_id al.

Lemma contractPauseActionsComplete_spec i plan :
  contractPauseActionsComplete i (actions plan) = true →
  active_allocations i ≠ [] ∧ ∀ al, al ∈ active_allocations i → paused_by i plan al.
Proof.
  unfold contractPauseActionsComplete. intros [Hne Hall]%andb_true_iff. bool_props. split; [by intros E; rewrite E in Hne|].
  intros al Hal. rewrite forallb_forall in Hall. apply list_elem_of_In, Hall in Hal. apply bool_decide_eq_true, elem_of_app in Hal as [Hal|Hal].
  - right. apply list_elem_of_fmap in Hal as (t & E & Ht). apply list_elem_of_filter in Ht as [Hst Ht]. exists t.
    split_and!; [|done|done]. by apply actionable_without_filter, fresh_targets.
  - left. apply list_elem_of_fmap in Hal as (a & E & Ha). apply list_elem_of_filter in Ha as [Ht Ha]. destruct a as [a|]; [|done].
    by exists a.
Qed.

(** C29: Under a contract that blocks, a plan with actions only pauses, and when it has run every
    active allocation of the stage is paused: one of the actions pauses it, or its fresh
    observation says it is. *)
Theorem EvaluateAdaptive_blocked s readings later input snapshot intent plan r g safe aggregate evals :
  ai_Snapshot input = Some snapshot → ai_Intent input = Some intent →
  EvaluateAdaptive s readings later input = Ok (plan, r, g) →
  resolveAdaptiveContract unicode_quote unicode_lower ValueString digest (ad_scheduler s) input snapshot intent (evaluation_context r) =
    Ok (safe, aggregate, evals) → Blocking aggregate = true → actions plan ≠ [] →
  (∀ a, a ∈ actions plan → action_type_of a = ACTION_TYPE_PAUSE) ∧
  ∀ al, al ∈ active_allocations (own_input input snapshot intent) → paused_by (own_input input snapshot intent) plan al.
Proof.
  intros Hs Hi H Hres Hb Ha. destruct (EvaluateAdaptive_given_out _ _ _ _ _ _ _ _ _ Hs Hi H) as (_ & _ & Hr).
  destruct (Hr Ha) as (result & aggregate' & [(admission & decisionID & evals' & Hc) _ _ _ _ Hpause]).
  unfold AdaptiveCoordinator.coordinate in Hc. rewrite Hres in Hc. cbn [mbind Result_bind] in Hc.
  apply bind_Ok in Hc as (d & _ & Hc). apply bind_Ok in Hc as (res & _ & Hc). injection Hc as _ <- _.
  specialize (Hpause Hb). unfold plannerResultSatisfiesPause in Hpause. cbn [from_option] in Hpause.
  apply andb_true_iff in Hpause as [Hall Hcomp]. split; [|by apply contractPauseActionsComplete_spec].
  intros a Hin. rewrite forallb_forall in Hall. apply list_elem_of_In, Hall in Hin. by apply bool_decide_eq_true in Hin.
Qed.

End Adaptive.
