(* ===== verification/AdaptiveWitnesses.v ===== *)
(** * The theorems of adaptive planning at concrete rounds *)

From Stdlib Require Import ZArith Lia Ascii.
From S2P Require Import Prelude GoStrings GoTime GoFloat GoHeap Protection SemVer Semantics ComponentRegistry Evaluator ClusterModel SchedulerState Mutation Preemption Reservation Transaction Intents Constraints Candidates CandidateEngine CandidateWitnesses Projection Policies PhaseGraph Validation ActionPolicy ActionPolicyProofs SchedulerCore AdaptiveModel AdaptiveSignals AdaptiveTargets AdaptivePlanners AdaptiveArbitration AdaptiveCoordinator PlanProofs SchedulerProofs SchedulerWitnesses AdaptiveArbitrationProofs AdaptivePlanProofs AdaptiveProofs.
From stdpp Require Import options.

Local Open Scope Z_scope.

Module AdaptiveWitnesses.
Import CandidateWitnesses SchedulerWitnesses.

(** Two units of the intent run, each on a device of its own. *)
Definition running (id device : string) : Allocation :=
  mkAllocation id "e" "s" 1 "j" ("unit-" +:+ id) [device] (Some (rv 2 3)) ALLOCATION_STATE_ACTIVE None (second 90) "r" "t"
    DATA_KIND_LIVE 4 ("runtime-" +:+ id) "" "p" "" (Some 0) ("sandbox-" +:+ id) ("binding-" +:+ id).
Definition able_device (id : string) : Device :=
  mkDevice id DEVICE_HEALTH_READY (Some (mkResources 3 8 f1 0 0)) (Some (mkResources 1 5 f1 0 0))
    (Some (mkCapabilities [] ∅ [] [] "probe" 1 (second 1) ["bind"; "set-priority"; "pause"] ∅ [] [])) ∅ Semantics.DEVICE_KIND_GPU.
Definition busy : ClusterSnapshot :=
  mkSnapshot "snapshot" 7 (second 5) [able_device "d2"; able_device "d1"] [running "a2" "d2"; running "a1" "d1"] [] ∅ "".
Definition sandbox (id device : string) : ObservedSandbox :=
  mkObserved (mkSandbox ("sandbox-" +:+ id) "r" "j" "t" RUNTIME_STATE_RUNNING 4
    (Some (mkBinding ("binding-" +:+ id) ("unit-" +:+ id) [device] (Some (rv 2 3)) ("sandbox-" +:+ id) 4 ("runtime-" +:+ id)))
    quarter 0 true false (second 8) DATA_KIND_LIVE None "" (second 1) (second 8)) [].
Definition sandboxes : list ObservedSandbox := [sandbox "a1" "d1"; sandbox "a2" "d2"].

Definition no_signals : PlanningSignals := mkSignals None None None None None None None None ∅ None None None.
Definition quiet : PlanningSignals :=
  no_signals <| sg_CheckpointCapable := Some true |> <| sg_BufferBelowWatermark := Some true |> <| sg_MinimumResidency := Some 0 |>
             <| sg_ActionInFlight := Some false |>.
Definition budget : PlannerBudgetConfig := mkBudget 4 4 1 1000 true.
Definition coordinator : Coordinator := NewCoordinator (mkPlannerConfig 0 4 budget zero_utility 0 0 0).
Definition adaptive : AdaptiveScheduler := mkAdaptive scheduler coordinator.
Definition context (t : TickKind) : EvaluationContext := mkEvaluationContext t (second 9) 3 "test" 7 None false.

(** The priorities are to be changed, on the fast tick. *)
Definition reprioritise : AdaptiveEvaluationInput :=
  mkAdaptiveInput (Some busy) (Some (message 2 0)) (Some (context TICK_KIND_FAST)) sandboxes [] (mkSafePoint true true []) no_aggregate
    (no_directives <| TargetPriority := Some 7 |>) no_signals.
(** The contract requires a pause, on the medium tick. *)
Definition pause : AdaptiveEvaluationInput :=
  mkAdaptiveInput (Some busy) (Some (message 2 0)) (Some (context TICK_KIND_MEDIUM)) sandboxes [] (mkSafePoint true true [])
    (mkAggregate true ACTION_PAUSE_REQUIRED "" "") no_directives quiet.

Definition float_text (_ : float64) : string := "1".
Definition no_float (_ : string) : option float64 := None.
Definition no_duration (_ : string) : option Z := None.

Definition adapt (input : AdaptiveEvaluationInput) : Result SchedulerError Outcome :=
  EvaluateAdaptive quote quote quote quote text text hex wire order_of text (λ _ _, "") binding_id (λ _, "")
    float_text no_float no_duration adaptive readings 0 input.

(** The round behind it. *)
Definition field_wire (_ : list SemanticField) : string := "".
Definition round (input : AdaptiveEvaluationInput) (admission : option PlacementPlan) : PlanningInput :=
  round_input input busy (message 2 0) (default empty_context (ai_Context input)) (ai_SafePoint input) (ai_Aggregate input) (ai_Directives input)
    admission "d".
Definition plan_round (input : AdaptiveEvaluationInput) (admission : option PlacementPlan) : Result ValidationError PlannerResult :=
  AdaptiveCoordinator.Plan quote quote quote hex binding_id field_wire float_text coordinator (round input admission).
Definition proposed : list PlannerProposal :=
  tick_proposals quote quote hex binding_id field_wire float_text coordinator (round reprioritise None).

Lemma arbitration_within_budget_witness :
  let b := normalizePlannerBudget budget 4 in
  (arbitrateProposals hex (round reprioritise None) proposed b).1.1 = [0%nat; 1%nat] ∧
  ∃ chosen : list (nat * PlacementPlan), chosen.*1 = [0%nat; 1%nat] ∧ sum_of action_count chosen.*2 ≤ 4.
Proof.
  cbv zeta. destruct (arbitrateProposals hex (round reprioritise None) proposed (normalizePlannerBudget budget 4)) as [[sel plan] marked] eqn:E.
  assert (Hsel : sel = [0%nat; 1%nat]).
  { apply (f_equal (λ r, r.1.1)) in E. cbn [fst] in E. rewrite <- E. by vm_compute. }
  split; [done|]. apply (arbitration_within_budget hex (round reprioritise None) proposed budget 4) in E
    as (chosen & Hc & _ & _ & Ha & _). exists chosen. split; [by rewrite Hc, Hsel|exact Ha].
Defined.

(** A budget of one action: the second proposal waits. *)
Lemma arbitration_maximal_witness :
  let '(st, marked) := arbitrate_all (normalizePlannerBudget budget 1) proposed in
  (1%nat ∉ (selected st).*1) ∧ ∀ p, proposed !! 1%nat = Some p → must_wait (normalizePlannerBudget budget 1) st p.
Proof.
  pose proof (arbitration_maximal budget 1 proposed 1) as H. cbv zeta in H.
  assert (Hsel : (selected (arbitrate_all (normalizePlannerBudget budget 1) proposed).1).*1 = [0%nat]) by by vm_compute.
  destruct (arbitrate_all _ _) as [st marked]. cbn [fst] in Hsel.
  assert (Hout : 1%nat ∉ (selected st).*1) by (rewrite Hsel; intros E%list_elem_of_singleton; done).
  split; [exact Hout|]. intros p Hp. by apply (H p Hp).
Defined.

Lemma arbitration_order_independent_witness :
  let b := normalizePlannerBudget budget 1 in
  (arbitrateProposals hex (round reprioritise None) proposed b).1.2 = (arbitrateProposals hex (round reprioritise None) (reverse proposed) b).1.2.
Proof.
  cbv zeta. apply arbitration_order_independent; [by rewrite reverse_Permutation|].
  apply (bool_decide_unpack _). by vm_compute.
Defined.

(** What is accepted of the placement engine, and refused by the budget's purposes. *)
Definition engine_plan : PlacementPlan :=
  makePlan quote hex "d" "p" busy (message 2 0) 9 [makeBinding hex "d" "u1" "" "d1" (Some (rv 1 2)); makeBinding hex "d" "u2" "" "d2" (Some (rv 1 2))]
    false TICK_KIND_FAST.

Lemma round_ok input admission :
  tick_kind (default empty_context (ai_Context input)) = TICK_KIND_FAST → ai_Sandboxes input = sandboxes →
  (∀ p, admission = Some p → p = engine_plan) → round_input_ok quote quote false (round input admission).
Proof.
  intros Ht Hs Hp. split.
  - unfold tick, round, round_input. cbn. by rewrite Ht.
  - cbn. rewrite Hs. by repeat constructor.
  - by repeat constructor.
  - cbn. intros p0 E. rewrite (Hp p0 E). right. split; [left|]. split; [done|]. unfold tick. cbn. rewrite Ht. by vm_compute.
Qed.

Lemma coordinated_plan_accepted_witness :
  ∃ result plan, plan_round reprioritise (Some engine_plan) = Ok result ∧ res_Plan result = Some plan ∧
    length (actions plan) = 2%nat ∧ ActionPolicy.ValidatePlan quote quote (Some plan) TICK_KIND_FAST false = Ok tt.
Proof.
  assert (Hok : from_option (λ p, length (actions p)) 0%nat
    (match plan_round reprioritise (Some engine_plan) with Ok r => res_Plan r | Err _ => None end) = 2%nat) by by vm_compute.
  destruct (plan_round reprioritise (Some engine_plan)) as [result|] eqn:E; [|done].
  destruct (res_Plan result) as [plan|] eqn:Hp; [|done]. exists result, plan. split_and!; [done..|].
  apply (coordinated_plan_accepted quote quote quote hex binding_id field_wire float_text zero_dash false coordinator
    (round reprioritise (Some engine_plan)) result plan); [|exact E|exact Hp].
  apply round_ok; [done|done|]. by intros p [= <-].
Defined.


Lemma adapt_Ok input : is_ok (adapt input) = true → let o := outcome (adapt input) in adapt input = Ok (o.1.1, o.1.2, o.2).
Proof. intros H. cbv zeta. rewrite (outcome_Ok _ H) at 1. by destruct (outcome _) as [[? ?] ?]. Qed.

Definition reprioritised : Outcome := outcome (adapt reprioritise).
Definition paused : Outcome := outcome (adapt pause).

Lemma EvaluateAdaptive_vetted_witness :
  is_ok (adapt reprioritise) = true ∧ length (actions reprioritised.1.1) = 2%nat ∧ fallback reprioritised.1.2 = false ∧
  selected_plan reprioritised.1.2 = Some reprioritised.1.1 ∧ allowed reprioritised.2 (message 2 0) reprioritised.1.1.
Proof.
  assert (Hok : is_ok (adapt reprioritise) = true) by by vm_compute.
  assert (Hlen : length (actions reprioritised.1.1) = 2%nat) by by vm_compute.
  assert (Hfb : fallback reprioritised.1.2 = false) by by vm_compute.
  assert (Hne : actions reprioritised.1.1 ≠ []) by (intros E; apply (f_equal length) in E; rewrite Hlen in E; discriminate E). split; [exact Hok|]. split; [exact Hlen|]. split; [exact Hfb|]. split;
  apply adapt_Ok in Hok; eapply EvaluateAdaptive_vetted in Hok as (Hs & _ & Ha); [exact Hs|done|done| |done|done].
  apply Ha. exact Hne.
Defined.

Lemma EvaluateAdaptive_blocked_witness :
  is_ok (adapt pause) = true ∧ length (actions paused.1.1) = 2%nat ∧
  paused_by (own_input pause busy (message 2 0)) paused.1.1 (running "a1" "d1").
Proof.
  assert (Hok : is_ok (adapt pause) = true) by by vm_compute.
  assert (Hlen : length (actions paused.1.1) = 2%nat) by by vm_compute.
  assert (Hne : actions paused.1.1 ≠ []) by (intros E; apply (f_equal length) in E; rewrite Hlen in E; discriminate E).
  split; [exact Hok|]. split; [exact Hlen|].
  assert (Hres : ∃ safe evals, resolveAdaptiveContract quote quote text (λ _ _, "") scheduler pause busy (message 2 0) (evaluation_context paused.1.2) =
    Ok (safe, mkAggregate true ACTION_PAUSE_REQUIRED "" "", evals)).
  { destruct (resolveAdaptiveContract quote quote text (λ _ _, "") scheduler pause busy (message 2 0) (evaluation_context paused.1.2)) as [[[safe agg] evals]|] eqn:E.
    - exists safe, evals. do 2 f_equal. apply (f_equal (λ r, match r with Ok (_, a, _) => Some a | Err _ => None end)) in E.
      vm_compute in E. injection E as <-. done.
    - apply (f_equal is_ok) in E. by vm_compute in E. }
  destruct Hres as (safe & evals & Hres). apply adapt_Ok in Hok.
  eapply EvaluateAdaptive_blocked in Hok as [_ H]; [apply H|done|done|exact Hres|done|exact Hne].
  apply (list_elem_of_lookup_2 _ 1). by vm_compute.
Defined.

End AdaptiveWitnesses.
