(* ===== verification/EventLoop.v ===== *)
(** * The tick runtime ([scheduler-go/eventloop/runtime.go])

    Keys of stages are active on three frequencies until they are forgotten.  Each frequency
    has a queue, and a tick drains it unless the drain of the tick before is still at work.
    The runtime is a state machine: what happens under one lock is one move, and a drain
    stops between the two locks it takes for an item and around its callback.  [Enqueue]
    pushes to three queues under the runtime's lock; a drain that empties one of them in
    between does not look at the rest, so the whole is one move.  What the callback does to
    the runtime are moves of their own. *)

From Stdlib Require Import ZArith Lia Ascii.
From stdpp Require Import functions.
From S2P Require Import Prelude GoStrings GoTime GoFloat Semantics.
From stdpp Require Import options.

Local Open Scope Z_scope.

(** ** Triggers *)

Record Trigger := mkTrigger {
  tr_ExecutionID : string;
  tr_StageID : string;
  tr_TickKind : TickKind;
  tr_Cause : string;
  tr_ObservedRevision : Z;
  tr_ContractObservation : option ContractObservation;
  tr_CompatibilityDefaultsApplied : bool;
}.

#[export] Instance eta_Trigger : Eta Trigger := λ t,
  mkTrigger (tr_ExecutionID t) (tr_StageID t) (tr_TickKind t) (tr_Cause t) (tr_ObservedRevision t)
    (tr_ContractObservation t) (tr_CompatibilityDefaultsApplied t).

Definition triggerQueueKey (executionID stageID : string) : string :=
  FormatInt (Z.of_nat (String.length executionID)) +:+ ":" +:+ executionID +:+ stageID.

(** The getters of a nil timestamp read zero. *)
Definition time_less (left right : option Timestamp) (tie : bool) : bool :=
  let seconds t := default 0 (Seconds <$> t) in
  let nanos t := default 0 (Nanos <$> t) in
  if negb (seconds left =? seconds right) then seconds left <? seconds right
  else if negb (nanos left =? nanos right) then nanos left <? nanos right
  else tie.

Definition observationLess (left right : ContractObservation) : bool :=
  time_less (obs_observed_at left) (obs_observed_at right) (str_ltb (obs_event_id left) (obs_event_id right)).

(** The items of a cause, without blanks around them. *)
Definition cause_items (value : string) : list string :=
  filter (λ item, item ≠ "") (TrimSpace <$> Split value "|").

Definition mergeCauses (values : list string) : string :=
  let seen : gset string := list_to_set (values ≫= cause_items) in
  Join (sort_strings (elements seen)) "|".

(** Both given: the nil cases of [MergeTrigger] clone the other. *)
Definition merge_both (current incoming : Trigger) : Trigger :=
  let newerRevision := tr_ObservedRevision current <? tr_ObservedRevision incoming in
  mkTrigger
    (if bool_decide (tr_ExecutionID current = "") then tr_ExecutionID incoming else tr_ExecutionID current)
    (if bool_decide (tr_StageID current = "") then tr_StageID incoming else tr_StageID current)
    (if bool_decide (tr_TickKind current = TICK_KIND_UNKNOWN) then tr_TickKind incoming else tr_TickKind current)
    (mergeCauses [tr_Cause current; tr_Cause incoming])
    (if newerRevision then tr_ObservedRevision incoming else tr_ObservedRevision current)
    (match tr_ContractObservation incoming, tr_ContractObservation current with
     | Some new, None => Some new
     | Some new, Some old => Some (if newerRevision || observationLess old new then new else old)
     | None, kept => kept
     end)
    (tr_CompatibilityDefaultsApplied current || tr_CompatibilityDefaultsApplied incoming).

Definition MergeTrigger (current incoming : option Trigger) : option Trigger :=
  match current, incoming with
  | None, _ => incoming
  | _, None => current
  | Some current, Some incoming => Some (merge_both current incoming)
  end.

(** ** Queues of keys *)

Record queueItem := mkItem { item_key : string; item_generation : Z }.

Record keyedQueue := mkQueue {
  pending : list string;
  items : gmap string Z;
}.

Definition newKeyedQueue : keyedQueue := mkQueue [] ∅.

Definition Push (key : string) (generation : Z) (q : keyedQueue) : keyedQueue * bool :=
  if bool_decide (key = "") then (q, false) else
  match items q !! key with
  | Some _ => (mkQueue (pending q) (<[key := generation]> (items q)), false)
  | None => (mkQueue (pending q ++ [key]) (<[key := generation]> (items q)), true)
  end.

Definition Drain (q : keyedQueue) : list queueItem * keyedQueue :=
  (omap (λ key, mkItem key <$> items q !! key) (pending q), newKeyedQueue).

Definition Len (q : keyedQueue) : nat := length (pending q).

(** ** The runtime *)

Inductive Frequency := Fast | Medium | Slow.

#[export] Instance Frequency_eq_dec : EqDecision Frequency.
Proof. solve_decision. Defined.

Definition kind_of (f : Frequency) : TickKind :=
  match f with Fast => TICK_KIND_FAST | Medium => TICK_KIND_MEDIUM | Slow => TICK_KIND_SLOW end.

(** Where the goroutine of a tick is: not running, just started, before an item, in the
    callback, before putting the item back.  [inFlight] is zero exactly when it is [Idle]. *)
Inductive Worker :=
| Idle
| Triggered
| Draining (rest : list queueItem)
| Calling (item : queueItem) (trigger : Trigger) (callback : bool) (rest : list queueItem)
| Requeueing (item : queueItem) (rest : list queueItem).

Record RuntimeConfig := mkRuntimeConfig { FastInterval : Z; MediumInterval : Z; SlowInterval : Z }.

Record Runtime := mkRuntime {
  intervals : RuntimeConfig;
  trigger_set : bool;
  queues : Frequency → keyedQueue;
  active : gmap string (Trigger * Z);
  nextGeneration : Z;
  stopped : bool;
  started : bool;
  running : bool;
  cancelled : bool;
  workers : Frequency → Worker;
}.

#[export] Instance eta_Runtime : Eta Runtime := λ r,
  mkRuntime (intervals r) (trigger_set r) (queues r) (active r) (nextGeneration r) (stopped r) (started r) (running r)
    (cancelled r) (workers r).

Definition NewRuntime (cfg : RuntimeConfig) : Runtime :=
  let interval d dflt := if d <=? 0 then dflt * Millisecond else d in
  mkRuntime
    (mkRuntimeConfig (interval (FastInterval cfg) 25) (interval (MediumInterval cfg) 100) (interval (SlowInterval cfg) 250))
    false (λ _, newKeyedQueue) ∅ 0 false false false false (λ _, Idle).

Definition SetTrigger (callback : bool) (r : Runtime) : Runtime := r <| trigger_set := callback |>.

(** [startOnce]; a runtime that was stopped before stays so. *)
Definition Start (r : Runtime) : Runtime :=
  if started r then r
  else if stopped r then r <| started := true |>
  else r <| started := true |> <| running := true |>.

Definition set_queue (f : Frequency) (q : keyedQueue) (r : Runtime) : Runtime := r <| queues := <[f := q]> (queues r) |>.
Definition set_worker (f : Frequency) (w : Worker) (r : Runtime) : Runtime := r <| workers := <[f := w]> (workers r) |>.
Definition push_to (f : Frequency) (key : string) (generation : Z) (r : Runtime) : Runtime :=
  set_queue f (Push key generation (queues r f)).1 r.

(** The generation after [n] that is not zero, in 64 bits. *)
Definition next_generation (n : Z) : Z := let next := wrap64 (n + 1) in if next =? 0 then 1 else next.

Definition Enqueue (trigger : option Trigger) (r : Runtime) : Runtime :=
  match trigger with
  | None => r
  | Some incoming =>
      if bool_decide (tr_ExecutionID incoming = "") || bool_decide (tr_StageID incoming = "") then r else
      let key := triggerQueueKey (tr_ExecutionID incoming) (tr_StageID incoming) in
      if stopped r then r else
      let merged := match active r !! key with Some (current, _) => merge_both current incoming | None => incoming end in
      let generation := next_generation (nextGeneration r) in
      push_to Slow key generation (push_to Medium key generation (push_to Fast key generation
        (r <| nextGeneration := generation |> <| active := <[key := (merged, generation)]> (active r) |>)))
  end.

Definition Forget (executionID stageID : string) (r : Runtime) : Runtime * bool :=
  if bool_decide (executionID = "") || bool_decide (stageID = "") then (r, false) else
  let key := triggerQueueKey executionID stageID in
  match active r !! key with
  | None => (r, false)
  | Some _ => (r <| active := delete key (active r) |>, true)
  end.

(** [stopOnce], up to waiting for the goroutines, and [deactivate]; the queues are cleared after. *)
Definition Stop (r : Runtime) : Runtime := 
  r <| stopped := true |> <| active := ∅ |> <| cancelled := cancelled r || running r |>.
Definition deactivate (r : Runtime) : Runtime := r <| stopped := true |> <| active := ∅ |>.
Definition clear_queue (f : Frequency) (r : Runtime) : Runtime := set_queue f (Drain (queues r f)).2 r.
Definition clearQueues (r : Runtime) : Runtime := clear_queue Slow (clear_queue Medium (clear_queue Fast r)).

(** ** A tick *)

(** A tick of the ticker: it starts a drain if none is at work ([CompareAndSwap] of [inFlight]). *)
Definition tick_trigger (f : Frequency) (r : Runtime) : Runtime * bool :=
  match workers r f with
  | Idle => (set_worker f Triggered r, true)
  | _ => (r, false)
  end.

(** The drain between its locks: the batch is taken from the queue; ... *)
Definition take_batch (f : Frequency) (r : Runtime) : Runtime :=
  let '(batch, q) := Drain (queues r f) in set_worker f (Draining batch) (set_queue f q r).

(** ... the next item is compared with the active trigger of its key; ... *)
Definition examine (f : Frequency) (item : queueItem) (rest : list queueItem) (r : Runtime) : Runtime :=
  set_worker f
    (match active r !! item_key item with
     | Some (trigger, generation) =>
         if stopped r || negb (generation =? item_generation item) then Draining rest
         else if bool_decide (tr_ExecutionID trigger = "") || bool_decide (tr_StageID trigger = "") then Draining rest
         else Calling item (trigger <| tr_TickKind := kind_of f |>) (trigger_set r) rest
     | None => Draining rest
     end) r.

(** ... the callback gets the trigger unless the context is done; ... *)
Definition dispatch (f : Frequency) (item : queueItem) (trigger : Trigger) (callback : bool) (rest : list queueItem) (r : Runtime) :
    Runtime * list (Frequency * Trigger) :=
  if cancelled r then (set_worker f Idle r, [])
  else (set_worker f (Requeueing item rest) r, if callback then [(f, trigger)] else []).

(** ... and the item goes back to the queue if its generation is still the active one. *)
Definition requeue (f : Frequency) (item : queueItem) (rest : list queueItem) (r : Runtime) : Runtime :=
  let r :=
    match active r !! item_key item with
    | Some (_, generation) =>
        if negb (stopped r) && negb (cancelled r) && (generation =? item_generation item)
        then push_to f (item_key item) (item_generation item) r else r
    | None => r
    end in
  set_worker f (Draining rest) r.

(** What the goroutine of [f] does next, and what it dispatches. *)
Definition drain_step (f : Frequency) (r : Runtime) : option (Runtime * list (Frequency * Trigger)) :=
  match workers r f with
  | Idle => None
  | Triggered => Some (take_batch f r, [])
  | Draining [] => Some (set_worker f Idle r, [])
  | Draining (item :: rest) => Some (examine f item rest r, [])
  | Calling item trigger callback rest => Some (dispatch f item trigger callback rest r)
  | Requeueing item rest => Some (requeue f item rest r, [])
  end.

(** ** The runtime with its callers *)

Inductive Move :=
| MSetTrigger (callback : bool)
| MStart
| MEnqueue (trigger : option Trigger)
| MForget (executionID stageID : string)
| MTick (f : Frequency)
| MDrain (f : Frequency)
| MCancel
| MDeactivate
| MStop
| MClear.

(** What happened and the dispatches it made; [None] when the move is not possible. *)
Definition move (m : Move) (r : Runtime) : option (Runtime * list (Frequency * Trigger)) :=
  match m with
  | MSetTrigger callback => Some (SetTrigger callback r, [])
  | MStart => Some (Start r, [])
  | MEnqueue trigger => Some (Enqueue trigger r, [])
  | MForget executionID stageID => Some ((Forget executionID stageID r).1, [])
  | MTick f => if running r then Some ((tick_trigger f r).1, []) else None
  | MDrain f => drain_step f r
  | MCancel => Some (r <| cancelled := true |>, [])
  | MDeactivate => if running r && cancelled r then Some (deactivate r, []) else None
  | MStop => Some (Stop r, [])
  | MClear => if stopped r then Some (clearQueues r, []) else None
  end.

Fixpoint moves (ms : list Move) (r : Runtime) : option (Runtime * list (Frequency * Trigger)) :=
  match ms with
  | [] => Some (r, [])
  | m :: ms =>
      '(r, ds) ← move m r;
      '(r, ds') ← moves ms r;
      Some (r, ds ++ ds')
  end.

(** A runtime as it can be found. *)
Definition reachable (r : Runtime) : Prop := ∃ cfg ms ds, moves ms (NewRuntime cfg) = Some (r, ds).
