(* ===== verification/EventLoopProofs.v ===== *)
(** * What the tick runtime promises

    A key that is active is never lost: each frequency has it queued or in the batch it is
    working on.  So a tick dispatches every active key, once, with all that was enqueued for
    it.  *)

From Stdlib Require Import ZArith Lia Ascii.
From stdpp Require Import functions.
From S2P Require Import Prelude GoStrings GoTime GoFloat Semantics EventLoop.
From stdpp Require Import options.

Local Open Scope Z_scope.

(** ** Keys *)

Lemma triggerQueueKey_inj e1 s1 e2 s2 : triggerQueueKey e1 s1 = triggerQueueKey e2 s2 → e1 = e2 ∧ s1 = s2.
Proof.
  unfold triggerQueueKey, FormatInt. rewrite !(proj2 (Z.ltb_ge _ 0)) by lia.
  change (":" +:+ ?x) with (String ":" x). intros H. apply (f_equal (λ s, Cut s ":"%char)) in H.
  rewrite !Cut_app in H by (apply FormatUint_free; lia). injection H as Hl H.
  apply FormatUint_inj in Hl; [|lia..]. apply Nat2Z.inj in Hl. exact (app_length_inj _ _ _ _ Hl H).
Qed.

Lemma triggerQueueKey_ne e s : triggerQueueKey e s ≠ "".
Proof. unfold triggerQueueKey, FormatInt. case_match; [done|]. by destruct (FormatUint _). Qed.

(** ** Causes *)

Lemma strip_prefix_app p l r x : strip_prefix p l = Some r → strip_prefix p (l ++ x) = Some (r ++ x).
Proof. revert l. induction p as [|a p IH]; intros [|b l]; cbn; try done; [by intros [= <-]..|]. case_match; [apply IH|done]. Qed.

Lemma strip_any_app ps l x : is_Some (strip_any ps l) → is_Some (strip_any ps (l ++ x)).
Proof.
  induction ps as [|p ps IH]; cbn; [by intros []|]. destruct (strip_prefix p l) as [r|] eqn:E.
  - intros _. rewrite (strip_prefix_app _ _ _ _ E). by eexists.
  - intros H. destruct (strip_prefix p (l ++ x)); [by eexists|by apply IH].
Qed.

Lemma strip_prefix_split p l r : strip_prefix p l = Some r → l = p ++ r.
Proof.
  revert l. induction p as [|a p IH]; intros [|b l]; cbn; try done; [by intros [= <-]..|].
  destruct (Ascii.eqb_spec a b) as [->|]; [|done]. by intros ->%IH.
Qed.

Lemma strip_any_split ps l r : strip_any ps l = Some r → ∃ p, p ∈ ps ∧ l = p ++ r.
Proof.
  induction ps as [|p ps IH]; cbn; [done|]. destruct (strip_prefix p l) as [r'|] eqn:E.
  - intros [= ->]. exists p. split; [by left|]. by apply strip_prefix_split.
  - intros (p' & Hp & ->)%IH. exists p'. split; [by right|done].
Qed.

(** [trim_left] drops a prefix, and nothing more can be dropped. *)
Lemma trim_left_spec ps : [] ∉ ps → ∀ fuel l, (length l ≤ fuel)%nat →
  ∃ dropped, l = dropped ++ trim_left fuel ps l ∧ strip_any ps (trim_left fuel ps l) = None.
Proof.
  intros Hne. assert (Hnil : strip_any ps [] = None).
  { destruct (strip_any ps []) as [r|] eqn:E; [|done]. apply strip_any_split in E as (p & Hp & E).
    by destruct p. }
  induction fuel as [|fuel IH]; intros l Hl.
  - destruct l; [|cbn in Hl; lia]. by exists [].
  - cbn. destruct (strip_any ps l) as [r|] eqn:E; [|by exists []].
    destruct (strip_any_split _ _ _ E) as (p & Hp & ->). destruct p as [|a p]; [done|].
    destruct (IH r) as (d & Hd & Hn); [rewrite length_app in Hl; cbn in Hl; lia|].
    exists ((a :: p) ++ d). split; [|done]. by rewrite <-app_assoc, <-Hd.
Qed.

Lemma trim_left_id fuel ps l : strip_any ps l = None → trim_left fuel ps l = l.
Proof. intros E. destruct fuel; cbn; [done|]. by rewrite E. Qed.

Lemma space_seqs_ne : ([] ∉ space_seqs) ∧ ([] ∉ (reverse <$> space_seqs)).
Proof. split; apply (bool_decide_eq_true_1 _); vm_compute; reflexivity. Qed.

(** The text without the blanks around it: a part of it that has no blank at either end. *)
Lemma TrimSpace_spec s : ∃ before after,
  chars s = before ++ chars (TrimSpace s) ++ after ∧ strip_any space_seqs (chars (TrimSpace s)) = None ∧
  strip_any (reverse <$> space_seqs) (reverse (chars (TrimSpace s))) = None.
Proof.
  unfold TrimSpace. rewrite chars_unchars. destruct space_seqs_ne as [Hn1 Hn2].
  destruct (trim_left_spec _ Hn1 (length (chars s)) (chars s) (le_n _)) as (d1 & H1 & E1).
  set (l1 := trim_left (length (chars s)) space_seqs (chars s)) in *.
  destruct (trim_left_spec _ Hn2 (length l1) (reverse l1)) as (d2 & H2 & E2); [by rewrite length_reverse|].
  set (l2 := trim_left (length l1) (reverse <$> space_seqs) (reverse l1)) in *.
  assert (Hl1 : l1 = reverse l2 ++ reverse d2) by (rewrite <-reverse_app, <-H2; symmetry; apply reverse_involutive).
  exists d1, (reverse d2). rewrite reverse_involutive. split_and!; [by rewrite <-Hl1| |done].
  destruct (strip_any space_seqs (reverse l2)) as [x|] eqn:E; [|done].
  destruct (strip_any_app space_seqs (reverse l2) (reverse d2)) as [y Hy]; [by rewrite E|]. rewrite <-Hl1 in Hy. congruence.
Qed.

Lemma TrimSpace_idem s : TrimSpace (TrimSpace s) = TrimSpace s.
Proof.
  destruct (TrimSpace_spec s) as (_ & _ & _ & H1 & H2). unfold TrimSpace at 1.
  rewrite (trim_left_id _ _ _ H1), (trim_left_id _ _ _ H2), reverse_involutive. apply unchars_chars.
Qed.

(** The items of a cause: trimmed, not empty, without the separator. *)
Definition clean_item (item : string) : Prop := TrimSpace item = item ∧ item ≠ "" ∧ sep_free "|" item.

Lemma cause_items_clean value : Forall clean_item (cause_items value).
Proof.
  apply Forall_forall. intros item. unfold cause_items. rewrite list_elem_of_filter, list_elem_of_fmap.
  intros [Hne (piece & -> & Hin)]. split; [apply TrimSpace_idem|split; [done|]]. unfold sep_free.
  unfold Split in Hin. apply list_elem_of_fmap in Hin as (cs & -> & Hin).
  pose proof (split_list_pieces "|" (chars value)) as Hp. rewrite Forall_forall in Hp. specialize (Hp _ Hin).
  destruct (TrimSpace_spec (unchars cs)) as (b & a & E & _). rewrite chars_unchars in E. intros Hx. apply Hp. rewrite E.
  rewrite !elem_of_app. by right; left.
Qed.

Lemma cause_items_Join l : Forall clean_item l → cause_items (Join l "|") = l.
Proof.
  intros Hf. unfold cause_items. destruct l as [|x l]; [done|]. rewrite Split_Join; [|done|eapply Forall_impl; [exact Hf|]; by intros ? (_ & _ & ?)].
  induction Hf as [|y l' (Ht & Hne & _) Hf IH]; [done|]. rewrite fmap_cons, Ht, filter_cons_True by done. by rewrite IH.
Qed.

(** Nothing is lost and nothing is invented when causes are merged. *)
Lemma mergeCauses_items values : list_to_set (cause_items (mergeCauses values)) =@{gset string} list_to_set (values ≫= cause_items).
Proof.
  unfold mergeCauses. cbv zeta. set (seen := list_to_set (values ≫= cause_items) : gset string).
  assert (Hp : sort_strings (elements seen) ≡ₚ elements seen) by apply sort_by_perm.
  rewrite cause_items_Join; [by rewrite Hp, list_to_set_elements_L|].
  rewrite Hp. apply Forall_forall. intros x Hx. apply elem_of_elements in Hx. unfold seen in Hx.
  apply elem_of_list_to_set in Hx. apply list_elem_of_bind in Hx as (v & Hx & _).
  pose proof (cause_items_clean v) as Hc. rewrite Forall_forall in Hc. by apply Hc.
Qed.

(** The requests [t] and [ts] of one key, merged in the order they arrive. *)
Definition causes_of (ts : list Trigger) : gset string := list_to_set ((tr_Cause <$> ts) ≫= cause_items).

Lemma merge_all_spec ts : ∀ t,
  tr_ObservedRevision (foldl merge_both t ts) = foldl Z.max (tr_ObservedRevision t) (tr_ObservedRevision <$> ts) ∧
  list_to_set (cause_items (tr_Cause (foldl merge_both t ts))) = causes_of (t :: ts) ∧
  tr_CompatibilityDefaultsApplied (foldl merge_both t ts) = existsb tr_CompatibilityDefaultsApplied (t :: ts) ∧
  (tr_ContractObservation (foldl merge_both t ts) = None ↔ Forall (λ t, tr_ContractObservation t = None) (t :: ts)).
Proof.
  induction ts as [|u ts IH]; intros t.
  - cbn. unfold causes_of. cbn. rewrite app_nil_r, orb_false_r. split_and!; [done..|]. rewrite Forall_singleton. done.
  - destruct (IH (merge_both t u)) as (Hr & Hc & Hd & Ho). cbn [foldl]. split_and!.
    + rewrite Hr. cbn. f_equal. case_match; bool_props; lia.
    + rewrite Hc. unfold causes_of. cbn [fmap list_fmap mbind list_bind]. rewrite !list_to_set_app_L.
      cbn [merge_both tr_Cause]. rewrite mergeCauses_items. cbn. rewrite app_nil_r, list_to_set_app_L. by rewrite (assoc_L (∪)).
    + rewrite Hd. cbn. by rewrite orb_assoc.
    + rewrite Ho, !Forall_cons. cbn. destruct (tr_ContractObservation u), (tr_ContractObservation t); naive_solver.
Qed.

(** ** Queues *)

Definition queue_ok (q : keyedQueue) : Prop := NoDup (pending q) ∧ ∀ k, k ∈ pending q ↔ is_Some (items q !! k).

Lemma new_queue_ok : queue_ok newKeyedQueue.
Proof. split; [constructor|]. intros k. cbn. rewrite lookup_empty. split; [by intros ?%elem_of_nil|by intros []]. Qed.

Lemma Push_items k g q : k ≠ "" → items (Push k g q).1 = <[k := g]> (items q).
Proof. intros Hk. unfold Push. rewrite bool_decide_eq_false_2 by done. by destruct (items q !! k). Qed.

Lemma Push_ok k g q : queue_ok q → queue_ok (Push k g q).1.
Proof.
  intros [Hn Hd]. unfold Push. case_bool_decide; [done|]. destruct (items q !! k) as [g'|] eqn:E; split; cbn.
  - done.
  - intros k'. rewrite lookup_insert_is_Some'. rewrite Hd. split; [by right|]. intros [<-|]; [by eexists|done].
  - apply NoDup_app. split; [done|]. split; [|apply NoDup_singleton].
    intros x Hx ->%list_elem_of_singleton. apply Hd in Hx as [? Hx]. congruence.
  - intros k'. rewrite lookup_insert_is_Some', elem_of_app, list_elem_of_singleton, Hd. naive_solver.
Qed.

(** ** What holds of every reachable runtime *)

(** The items a drain has taken and not put back. *)
Definition held (w : Worker) : list queueItem :=
  match w with
  | Idle | Triggered => []
  | Draining rest => rest
  | Calling item _ _ rest | Requeueing item rest => item :: rest
  end.

Definition trigger_of (k : string) (t : Trigger) : Prop :=
  k = triggerQueueKey (tr_ExecutionID t) (tr_StageID t) ∧ tr_ExecutionID t ≠ "" ∧ tr_StageID t ≠ "".

(** The key with its generation is queued or held. *)
Definition kept (f : Frequency) (k : string) (g : Z) (r : Runtime) : Prop :=
  items (queues r f) !! k = Some g ∨ mkItem k g ∈ held (workers r f).

Record runtime_ok (r : Runtime) : Prop := {
  ok_queues f : queue_ok (queues r f);
  ok_active k t g : active r !! k = Some (t, g) → trigger_of k t;
  ok_kept f k t g : stopped r = false → cancelled r = false → active r !! k = Some (t, g) → kept f k g r;
}.

Lemma push_to_queues f k g r f' :
  queues (push_to f k g r) f' = if decide (f = f') then (Push k g (queues r f')).1 else queues r f'.
Proof. unfold push_to, set_queue. cbn. destruct (decide (f = f')) as [<-|]; [by rewrite fn_lookup_insert|by rewrite fn_lookup_insert_ne]. Qed.

Lemma set_worker_workers f w r f' : workers (set_worker f w r) f' = if decide (f = f') then w else workers r f'.
Proof. unfold set_worker. cbn. destruct (decide (f = f')) as [<-|]; [by rewrite fn_lookup_insert|by rewrite fn_lookup_insert_ne]. Qed.

Lemma merge_both_of k a b : trigger_of k a → trigger_of k b → trigger_of k (merge_both a b).
Proof. intros (-> & He & Hs) _. unfold trigger_of. cbn. rewrite !bool_decide_eq_false_2 by done. done. Qed.

Lemma Enqueue_ok t r : runtime_ok r → runtime_ok (Enqueue t r).
Proof.
  intros Hok. pose proof Hok as [Hq Ha Hk]. unfold Enqueue. destruct t as [t|]; [|done]. case_bool_decide as He; cbn [orb]; [done|].
  case_bool_decide as Hs; [done|]. cbn [orb]. destruct (stopped r) eqn:Hst; [done|].
  set (key := triggerQueueKey _ _). set (g' := next_generation _).
  assert (Hkey : key ≠ "") by apply triggerQueueKey_ne.
  assert (Ht : trigger_of key t) by (by repeat split).
  match goal with |- runtime_ok (push_to _ _ _ (push_to _ _ _ (push_to _ _ _ ?r'))) => set (r0 := r') end.
  assert (Hqs : ∀ f, queues (push_to Slow key g' (push_to Medium key g' (push_to Fast key g' r0))) f = (Push key g' (queues r f)).1).
  { intros []; rewrite !push_to_queues; done. }
  split.
  - intros f. rewrite Hqs. by apply Push_ok.
  - intros k t0 g0. cbn. rewrite lookup_insert_Some. intros [[<- [= <- <-]]|[_ H]]; [|by eapply Ha].
    destruct (active r !! key) as [[c ?]|] eqn:E; [|done]. apply merge_both_of; [by eapply Ha|done].
  - intros f k t0 g0 _ Hc. unfold kept. rewrite Hqs, Push_items by done. cbn.
    rewrite !lookup_insert_Some. intros [[<- [= <- <-]]|[Hne H]]; [by left; left|].
    destruct (Hk f k t0 g0 eq_refl Hc H) as [Hi|Hh]; [left; by right|by right].
Qed.

Lemma Forget_ok e s r : runtime_ok r → runtime_ok (Forget e s r).1.
Proof.
  intros Hok. pose proof Hok as [Hq Ha Hk]. unfold Forget. destruct (_ || _); [done|]. destruct (active r !! _); [|done].
  split; [done| |]; cbn.
  - intros k t g. rewrite lookup_delete_Some. intros [_ H]. by eapply Ha.
  - intros f k t g Hs Hc. rewrite lookup_delete_Some. intros [_ H]. by eapply Hk.
Qed.

(** A move that only steps a goroutine keeps everything if it keeps what is queued or held. *)
Lemma runtime_ok_step r r' :
  active r' = active r → stopped r' = stopped r → cancelled r' = cancelled r →
  (∀ f, queue_ok (queues r f) → queue_ok (queues r' f)) →
  (∀ f k t g, stopped r = false → cancelled r = false → active r !! k = Some (t, g) → trigger_of k t → kept f k g r → kept f k g r') →
  runtime_ok r → runtime_ok r'.
Proof. intros Ea Es Ec Hq Hkk [H1 H2 H3]. split; [by eauto| |]; rewrite ?Ea, ?Es, ?Ec; eauto. Qed.

Lemma worker_step_ok f w r :
  (∀ k t g, stopped r = false → cancelled r = false → active r !! k = Some (t, g) → trigger_of k t → mkItem k g ∈ held (workers r f) →
     mkItem k g ∈ held w) →
  runtime_ok r → runtime_ok (set_worker f w r).
Proof.
  intros H. apply runtime_ok_step; [done..|]. intros f' k t g Hs Hc Hl Ht [Hi|Hh]; [by left|].
  right. rewrite set_worker_workers. case_decide as Hf; [|done]. subst f'. by eapply H.
Qed.

Lemma take_batch_ok f r : workers r f = Triggered → runtime_ok r → runtime_ok (take_batch f r).
Proof.
  intros Hw. unfold take_batch. destruct (Drain (queues r f)) as [batch q] eqn:E. unfold Drain in E. injection E as <- <-.
  intros Hok. refine (runtime_ok_step r _ _ _ _ _ _ Hok); [done..| |].
  - intros f' Hq. cbn. unfold set_queue. destruct (decide (f = f')) as [<-|]; [rewrite fn_lookup_insert; apply new_queue_ok|].
    by rewrite fn_lookup_insert_ne.
  - intros f' k t g _ _ _ _ [Hi|Hh]; unfold kept; cbn; (destruct (decide (f = f')) as [<-|Hne];
      [rewrite !fn_lookup_insert|rewrite !fn_lookup_insert_ne by done]).
    + right. cbn. apply list_elem_of_omap. exists k. rewrite Hi. split; [|done].
      destruct (ok_queues _ Hok f) as [_ Hd]. apply Hd. by eexists.
    + by left.
    + rewrite Hw in Hh. by apply elem_of_nil in Hh.
    + by right.
Qed.

Lemma examine_ok f item rest r : workers r f = Draining (item :: rest) → runtime_ok r → runtime_ok (examine f item rest r).
Proof.
  intros Hw Hok. unfold examine. apply worker_step_ok; [|done]. intros k t g Hs _ Hl (_ & He & Hst) Hin.
  rewrite Hw in Hin. cbn in Hin. apply elem_of_cons in Hin as [<-|Hin]; cbn [item_key item_generation].
  - rewrite Hl, Hs, Z.eqb_refl. cbn. rewrite !bool_decide_eq_false_2 by done. cbn. by left.
  - destruct (active r !! item_key item) as [[t' g']|]; [|done]. destruct (_ || _); [done|]. destruct (_ || _); [done|]. by right.
Qed.

Lemma dispatch_ok f item t cb rest r :
  workers r f = Calling item t cb rest → runtime_ok r → runtime_ok (dispatch f item t cb rest r).1.
Proof.
  intros Hw Hok. unfold dispatch. destruct (cancelled r) eqn:Ec; apply worker_step_ok; try done.
  - intros. congruence.
  - intros k t' g _ _ _ _. by rewrite Hw.
Qed.

(** Putting an item back that is active keeps the others. *)
Lemma push_to_ok f item t r :
  active r !! item_key item = Some (t, item_generation item) → runtime_ok r →
  runtime_ok (push_to f (item_key item) (item_generation item) r).
Proof.
  intros Ha Hok. refine (runtime_ok_step r _ _ _ _ _ _ Hok); [done..| |].
  - intros f' Hq. rewrite push_to_queues. case_decide; [by apply Push_ok|done].
  - intros f' k t' g _ _ Hl (-> & _ & _) [Hi|Hh]; [left|by right].
    rewrite push_to_queues. case_decide; [|done]. destruct (decide (item_key item = "")) as [->|Hne].
    { unfold Push. by rewrite bool_decide_eq_true_2. }
    rewrite Push_items by done. destruct (decide (item_key item = triggerQueueKey (tr_ExecutionID t') (tr_StageID t'))) as [E|].
    + rewrite <-E, lookup_insert_eq in *. congruence.
    + by rewrite lookup_insert_ne.
Qed.

Lemma requeue_ok f item rest r : workers r f = Requeueing item rest → runtime_ok r → runtime_ok (requeue f item rest r).
Proof.
  intros Hw Hok. unfold requeue.
  assert (Hdone : (∀ t, stopped r = false → cancelled r = false → active r !! item_key item ≠ Some (t, item_generation item)) →
    runtime_ok (set_worker f (Draining rest) r)).
  { intros Hn. apply worker_step_ok; [|done]. intros k t g Hs Hc Hl _. rewrite Hw. cbn.
    intros [<-|]%elem_of_cons; [|done]. by destruct (Hn t Hs Hc). }
  destruct (active r !! item_key item) as [[t g]|] eqn:Ea; [|apply Hdone; congruence].
  destruct (negb (stopped r) && negb (cancelled r) && (g =? item_generation item)) eqn:Ec.
  - bool_props. subst g. assert (Hok' := push_to_ok f item t r Ea Hok).
    refine (runtime_ok_step _ _ _ _ _ _ _ Hok'); [done..|].
    intros f' k t' g' _ _ _ (-> & _ & _) [Hi|Hh]; [by left|]. unfold kept. rewrite set_worker_workers.
    case_decide as Hf; [subst f'|by right]. cbn [push_to set_queue] in Hh. change (workers _ f) with (workers r f) in Hh.
    rewrite Hw in Hh. apply elem_of_cons in Hh as [<-|Hh]; [left|by right]. cbn [item_key item_generation].
    change (queues (set_worker f (Draining rest) ?r') f) with (queues r' f). rewrite push_to_queues, decide_True, Push_items, lookup_insert_eq by (done || apply triggerQueueKey_ne). done.
  - apply Hdone. intros t' Hs Hc [= -> ->]. by rewrite Hs, Hc, Z.eqb_refl in Ec.
Qed.

Lemma drain_step_ok f r r' ds : runtime_ok r → drain_step f r = Some (r', ds) → runtime_ok r'.
Proof.
  intros Hok. unfold drain_step. destruct (workers r f) as [| |[|item rest]|item t cb rest|item rest] eqn:Hw; intros [= E].
  - subst. by apply take_batch_ok.
  - subst. apply worker_step_ok; [|done]. intros. by rewrite Hw in *.
  - subst. by apply examine_ok.
  - assert (r' = (dispatch f item t cb rest r).1) as -> by (by rewrite E). by apply dispatch_ok.
  - subst. by apply requeue_ok.
Qed.

Lemma move_ok m r r' ds : runtime_ok r → move m r = Some (r', ds) → runtime_ok r'.
Proof.
  intros Hok. destruct m; cbn -[Enqueue Forget]; intros H; repeat case_match; simplify_eq.
  - by destruct Hok.
  - unfold Start. destruct (started r), (stopped r) eqn:E; destruct Hok as [H1 H2 H3]; split; cbn; rewrite ?E; eauto.
  - by apply Enqueue_ok.
  - by apply Forget_ok.
  - unfold tick_trigger. destruct (workers r f) eqn:Hw; [|done..]. apply worker_step_ok; [|done]. intros. by rewrite Hw in *.
  - by eapply drain_step_ok.
  - destruct Hok; split; cbn; done.
  - destruct Hok; split; cbn; done.
  - destruct Hok; split; cbn; done.
  - destruct Hok as [H1 H2 H3]. split.
    + intros []; apply new_queue_ok.
    + done.
    + cbn. congruence.
Qed.

Lemma moves_ok ms r r' ds : runtime_ok r → moves ms r = Some (r', ds) → runtime_ok r'.
Proof.
  revert r ds. induction ms as [|m ms IH]; intros r ds Hok; cbn; [by intros [= <- <-]|].
  intros ([r1 d1] & Hm & ([r2 d2] & Hms & [= <- <-])%bind_Some)%bind_Some. eapply IH; [|done]. by eapply move_ok.
Qed.

Lemma new_runtime_ok cfg : runtime_ok (NewRuntime cfg).
Proof. split; [intros f; apply new_queue_ok|cbn; intros *; by rewrite lookup_empty|cbn; intros *; by rewrite lookup_empty]. Qed.

Lemma reachable_ok r : reachable r → runtime_ok r.
Proof. intros (cfg & ms & ds & H). eapply moves_ok; [apply new_runtime_ok|done]. Qed.

(** ** A tick dispatches every active key *)

(** What the drain makes of an item it examines. *)
Definition dispatched (f : Frequency) (r : Runtime) (item : queueItem) : option (Frequency * Trigger) :=
  match active r !! item_key item with
  | Some (t, g) => if g =? item_generation item then Some (f, t <| tr_TickKind := kind_of f |>) else None
  | None => None
  end.

Definition live (r : Runtime) : Prop := running r = true ∧ trigger_set r = true ∧ stopped r = false ∧ cancelled r = false.

Lemma moves_app ms1 ms2 r r1 ds1 r2 ds2 :
  moves ms1 r = Some (r1, ds1) → moves ms2 r1 = Some (r2, ds2) → moves (ms1 ++ ms2) r = Some (r2, ds1 ++ ds2).
Proof.
  revert r ds1. induction ms1 as [|m ms1 IH]; intros r ds1; cbn; [by intros [= -> <-]|].
  intros ([r0 d0] & -> & ([r0' d0'] & Hms & [= -> <-])%bind_Some)%bind_Some H2. cbn. rewrite (IH _ _ Hms H2). cbn. by rewrite app_assoc.
Qed.

Lemma move_drain f r r' ds : drain_step f r = Some (r', ds) → moves [MDrain f] r = Some (r', ds).
Proof. intros E. cbn. rewrite E. cbn. by rewrite app_nil_r. Qed.

(** One item, from the loop's head to the loop's head. *)
Lemma drain_item f item rest r :
  live r → runtime_ok r → workers r f = Draining (item :: rest) →
  ∃ n r', moves (replicate n (MDrain f)) r = Some (r', option_list (dispatched f r item)) ∧
    workers r' f = Draining rest ∧ active r' = active r ∧ live r'.
Proof.
  intros (Hr & Ht & Hs & Hc) Hok Hw. unfold dispatched.
  assert (Hskip : examine f item rest r = set_worker f (Draining rest) r →
    ∃ n r', moves (replicate n (MDrain f)) r = Some (r', []) ∧ workers r' f = Draining rest ∧ active r' = active r ∧ live r').
  { intros E. exists 1%nat, (set_worker f (Draining rest) r). split; [|split; [by rewrite set_worker_workers, decide_True|done]].
    apply move_drain. unfold drain_step. by rewrite Hw, E. }
  destruct (active r !! item_key item) as [[t g]|] eqn:Ea; [|apply Hskip; unfold examine; by rewrite Ea].
  destruct (Z.eqb_spec g (item_generation item)) as [->|Hg].
  - destruct (ok_active _ Hok _ _ _ Ea) as (_ & He & Hst). cbn [option_list].
    set (t' := t <| tr_TickKind := kind_of f |>).
    set (r1 := set_worker f (Calling item t' true rest) r). set (r2 := set_worker f (Requeueing item rest) r1).
    exists 3%nat, (requeue f item rest r2). split; [|split; [|split]].
    + change (replicate 3 (MDrain f)) with ([MDrain f] ++ [MDrain f] ++ [MDrain f]).
      eapply (moves_app _ _ _ r1 []); [|eapply (moves_app _ _ _ r2 [(f, t')] _ [])]; apply move_drain; unfold drain_step.
      * rewrite Hw. unfold examine. rewrite Ea, Hs, Z.eqb_refl, !bool_decide_eq_false_2, Ht by done. done.
      * unfold r1. rewrite set_worker_workers, decide_True by done. unfold dispatch. cbn. by rewrite Hc.
      * unfold r2. rewrite set_worker_workers, decide_True by done. done.
    + unfold requeue. by rewrite set_worker_workers, decide_True.
    + unfold requeue. cbn. rewrite Ea. by case_match.
    + unfold requeue. cbn. rewrite Ea. case_match; done.
  - apply Hskip. unfold examine. rewrite Ea, Hs. apply Z.eqb_neq in Hg. by rewrite Hg.
Qed.

Lemma dispatched_active f r r' : active r' = active r → dispatched f r' = dispatched f r.
Proof. intros E. unfold dispatched. by rewrite E. Qed.

Lemma drain_batch f batch : ∀ r,
  live r → runtime_ok r → workers r f = Draining batch →
  ∃ n r', moves (replicate n (MDrain f)) r = Some (r', omap (dispatched f r) batch) ∧
    workers r' f = Idle ∧ active r' = active r.
Proof.
  induction batch as [|item rest IH]; intros r Hl Hok Hw.
  - exists 1%nat, (set_worker f Idle r). split; [|split; [by rewrite set_worker_workers, decide_True|done]].
    apply move_drain. unfold drain_step. by rewrite Hw.
  - destruct (drain_item f item rest r Hl Hok Hw) as (n1 & r1 & Hm1 & Hw1 & Ha1 & Hl1).
    destruct (IH r1 Hl1 (moves_ok _ _ _ _ Hok Hm1) Hw1) as (n2 & r2 & Hm2 & Hw2 & Ha2).
    exists (n1 + n2)%nat, r2. split; [|split; [done|congruence]].
    rewrite replicate_add. rewrite (dispatched_active f r r1 Ha1) in Hm2.
    replace (omap (dispatched f r) (item :: rest)) with (option_list (dispatched f r item) ++ omap (dispatched f r) rest)
      by (cbn; by destruct (dispatched f r item)).
    by eapply moves_app.
Qed.

(** The items of the active keys, in some order, are what a batch has that is not stale. *)
Definition active_items (r : Runtime) : list queueItem := (λ x, mkItem x.1 x.2.2) <$> map_to_list (active r).

Definition fresh (r : Runtime) (item : queueItem) : Prop := ∃ t, active r !! item_key item = Some (t, item_generation item).

#[export] Instance fresh_dec r item : Decision (fresh r item).
Proof.
  refine (match active r !! item_key item as o return o = active r !! item_key item → Decision _ with
  | Some (t, g) => λ E, if decide (g = item_generation item) then left _ else right _
  | None => λ E, right _
  end eq_refl); unfold fresh; rewrite <-E; naive_solver.
Defined.

Lemma batch_fresh f r : runtime_ok r → stopped r = false → cancelled r = false → workers r f = Idle →
  filter (fresh r) (Drain (queues r f)).1 ≡ₚ active_items r.
Proof.
  intros Hok Hs Hc Hw. destruct (ok_queues _ Hok f) as [Hn Hd].
  assert (Hk : ∀ item, item ∈ (Drain (queues r f)).1 ↔ items (queues r f) !! item_key item = Some (item_generation item)).
  { intros [k g]. unfold Drain. cbn. rewrite list_elem_of_omap. split.
    - intros (k' & _ & E). destruct (items (queues r f) !! k') eqn:E'; [|done]. by injection E as -> ->.
    - intros E. exists k. rewrite E. split; [|done]. apply Hd. by eexists. }
  apply NoDup_Permutation.
  - apply NoDup_filter. unfold Drain. cbn. clear Hk. induction Hn as [|k ks Hnin Hn IH]; cbn; [constructor|].
    assert (IH' : NoDup (omap (λ key, mkItem key <$> items (queues r f) !! key) ks)).
    { clear -Hn. induction Hn as [|k ks Hnin Hn IH]; cbn; [constructor|]. destruct (items (queues r f) !! k) as [g|]; [|done].
      cbn. constructor; [|done]. rewrite list_elem_of_omap. intros (k' & Hin & E).
      destruct (items (queues r f) !! k'); [|done]. by injection E as -> ->. }
    destruct (items (queues r f) !! k) as [g|]; cbn; [|done]. constructor; [|done].
    rewrite list_elem_of_omap. intros (k' & Hin & E). destruct (items (queues r f) !! k'); [|done]. by injection E as -> ->.
  - apply (NoDup_fmap_1 item_key). unfold active_items. rewrite <-list_fmap_compose. apply NoDup_fst_map_to_list.
  - intros item. rewrite list_elem_of_filter, Hk. unfold active_items. rewrite list_elem_of_fmap. split.
    + intros [[t Ha] _]. exists (item_key item, (t, item_generation item)). split; [by destruct item|]. by apply elem_of_map_to_list.
    + intros ([k [t g]] & -> & Ha%elem_of_map_to_list). cbn. split; [by exists t|].
      destruct (ok_kept _ Hok f k t g Hs Hc Ha) as [?|Hh]; [done|]. rewrite Hw in Hh. by apply elem_of_nil in Hh.
Qed.

Lemma omap_filter_fresh f r (batch : list queueItem) : omap (dispatched f r) (filter (fresh r) batch) = omap (dispatched f r) batch.
Proof.
  induction batch as [|item batch IH]; [done|]. rewrite filter_cons. case_decide as Hf; cbn; rewrite IH; [done|].
  unfold dispatched at 2. destruct (active r !! item_key item) as [[t g]|] eqn:Ea; [|done].
  destruct (Z.eqb_spec g (item_generation item)) as [->|]; [|done]. destruct Hf. by exists t.
Qed.

Lemma active_dispatched f r :
  omap (dispatched f r) (active_items r) = (λ x, (f, x.2.1 <| tr_TickKind := kind_of f |>)) <$> map_to_list (active r).
Proof.
  unfold active_items. assert (Hin : ∀ x, x ∈ map_to_list (active r) → active r !! x.1 = Some x.2).
  { intros [k v]. apply elem_of_map_to_list. }
  induction (map_to_list (active r)) as [|x l IH]; [done|]. cbn. unfold dispatched at 1. cbn.
  rewrite (Hin x) by left. destruct x as [k [t g]]. cbn. rewrite Z.eqb_refl. f_equal. apply IH. intros. apply Hin. by right.
Qed.

(** C20: No wake-up is lost.  However enqueuing, forgetting, ticks and the drains of the three
    frequencies interleave, while the runtime has not been stopped a tick that finds its
    drain idle dispatches exactly the active keys, each once, with the trigger all its
    requests were merged into, and leaves every one of them active for the next tick. *)
Theorem tick_dispatches_active r f :
  reachable r → live r → workers r f = Idle →
  ∃ n r' ds, moves (MTick f :: replicate n (MDrain f)) r = Some (r', ds) ∧
    ds ≡ₚ (λ x, (f, x.2.1 <| tr_TickKind := kind_of f |>)) <$> map_to_list (active r) ∧
    workers r' f = Idle ∧ active r' = active r.
Proof.
  intros Hok%reachable_ok (Hr & Ht & Hs & Hc) Hw.
  set (r1 := set_worker f Triggered r). set (r2 := take_batch f r1).
  assert (Hm1 : moves [MTick f] r = Some (r1, [])) by (cbn; unfold tick_trigger; by rewrite Hr, Hw).
  assert (Hm2 : moves [MDrain f] r1 = Some (r2, [])).
  { apply move_drain. unfold drain_step, r1. by rewrite set_worker_workers, decide_True. }
  assert (Hok2 : runtime_ok r2) by (eapply moves_ok, Hm2; eapply moves_ok, Hm1; done).
  destruct (drain_batch f (Drain (queues r f)).1 r2) as (n & r3 & Hm3 & Hw3 & Ha3); [done|done| |].
  { unfold r2, take_batch. cbn [fst]. change (queues r1 f) with (queues r f).
    destruct (Drain (queues r f)). by rewrite set_worker_workers, decide_True. }
  exists (S n), r3, (omap (dispatched f r2) (Drain (queues r f)).1). split_and!; [| |done|done].
  - change (MTick f :: replicate (S n) (MDrain f)) with ([MTick f] ++ [MDrain f] ++ replicate n (MDrain f)).
    eapply (moves_app _ _ _ r1 []); [done|]. by eapply (moves_app _ _ _ r2 []).
  - rewrite (dispatched_active f r r2) by done. rewrite <-omap_filter_fresh, batch_fresh, active_dispatched by done. done.
Qed.

(** ** What the requests for a key are merged into *)

Lemma Enqueue_active t r :
  stopped r = false → tr_ExecutionID t ≠ "" → tr_StageID t ≠ "" →
  stopped (Enqueue (Some t) r) = false ∧
  ∃ g, active (Enqueue (Some t) r) !! triggerQueueKey (tr_ExecutionID t) (tr_StageID t) =
    Some (match active r !! triggerQueueKey (tr_ExecutionID t) (tr_StageID t) with Some (c, _) => merge_both c t | None => t end, g).
Proof.
  intros Hs He Hst. unfold Enqueue. rewrite !bool_decide_eq_false_2, Hs by done. cbn. split; [done|].
  eexists. by rewrite lookup_insert_eq.
Qed.

(** C21: Requests for one key are merged without losing one: after any number of them the
    active trigger has the highest revision any of them named, exactly the causes any of
    them gave, the compatibility flag if any had it, and an observation if any had one. *)
Theorem Enqueue_merges r t ts :
  stopped r = false → tr_ExecutionID t ≠ "" → tr_StageID t ≠ "" →
  active r !! triggerQueueKey (tr_ExecutionID t) (tr_StageID t) = None →
  Forall (λ u, tr_ExecutionID u = tr_ExecutionID t ∧ tr_StageID u = tr_StageID t) ts →
  ∃ m g, active (foldl (λ r u, Enqueue (Some u) r) r (t :: ts)) !! triggerQueueKey (tr_ExecutionID t) (tr_StageID t) = Some (m, g) ∧
    tr_ObservedRevision m = foldl Z.max (tr_ObservedRevision t) (tr_ObservedRevision <$> ts) ∧
    list_to_set (cause_items (tr_Cause m)) = causes_of (t :: ts) ∧
    tr_CompatibilityDefaultsApplied m = existsb tr_CompatibilityDefaultsApplied (t :: ts) ∧
    (tr_ContractObservation m = None ↔ Forall (λ u, tr_ContractObservation u = None) (t :: ts)).
Proof.
  intros Hs He Hst Ha Hf. set (key := triggerQueueKey _ _) in *.
  assert (Hgen : ∀ us r m g, stopped r = false → active r !! key = Some (m, g) →
    Forall (λ u, tr_ExecutionID u = tr_ExecutionID t ∧ tr_StageID u = tr_StageID t) us →
    ∃ g', active (foldl (λ r u, Enqueue (Some u) r) r us) !! key = Some (foldl merge_both m us, g')).
  { induction us as [|u us IH]; intros r0 m g Hs0 Ha0 Hf0; [by exists g|]. apply Forall_cons in Hf0 as [[Eu Su] Hf0]. cbn.
    destruct (Enqueue_active u r0 Hs0) as (Hs1 & g1 & Ha1); [by rewrite Eu|by rewrite Su|].
    rewrite Eu, Su in Ha1. fold key in Ha1. rewrite Ha0 in Ha1. by eapply IH. }
  destruct (Enqueue_active t r Hs He Hst) as (Hs1 & g1 & Ha1). fold key in Ha1. rewrite Ha in Ha1.
  destruct (Hgen ts _ _ _ Hs1 Ha1 Hf) as [g' Hg]. exists (foldl merge_both t ts), g'. split; [exact Hg|]. apply merge_all_spec.
Qed.

(** ** At concrete runs *)

Module EventLoopWitnesses.

Definition request (stage cause : string) (revision : Z) : Trigger :=
  mkTrigger "run-1" stage TICK_KIND_UNKNOWN cause revision None false.

(** Two stages are requested, one of them again while the fast drain has its item. *)
Definition script : list Move :=
  [MSetTrigger true; MStart; MEnqueue (Some (request "rollout" "publish_intent" 3)); MEnqueue (Some (request "train" "publish_intent" 3));
   MTick Fast; MDrain Fast; MDrain Fast; MDrain Fast; MEnqueue (Some (request "rollout" "provider_event" 5));
   MDrain Fast; MDrain Fast; MDrain Fast; MDrain Fast; MDrain Fast].

Definition ran : Runtime * list (Frequency * Trigger) :=
  default (NewRuntime (mkRuntimeConfig 0 0 0), []) (moves script (NewRuntime (mkRuntimeConfig 0 0 0))).

Lemma tick_dispatches_active_witness :
  ∃ n r' ds, moves (MTick Fast :: replicate n (MDrain Fast)) ran.1 = Some (r', ds) ∧
    ds ≡ₚ [(Fast, (request "train" "publish_intent" 3) <| tr_TickKind := TICK_KIND_FAST |>);
           (Fast, (request "rollout" "provider_event|publish_intent" 5) <| tr_TickKind := TICK_KIND_FAST |>)].
Proof.
  destruct (tick_dispatches_active ran.1 Fast) as (n & r' & ds & Hm & Hp & _).
  - exists (mkRuntimeConfig 0 0 0), script, ran.2. vm_compute. reflexivity.
  - vm_compute. done.
  - vm_compute. reflexivity.
  - exists n, r', ds. split; [exact Hm|]. rewrite Hp. vm_compute. first [reflexivity|apply perm_swap].
Defined.

Lemma Enqueue_merges_witness :
  let r := foldl (λ r u, Enqueue (Some u) r) (NewRuntime (mkRuntimeConfig 0 0 0))
    [request "train" "manual_retry" 4; request "train" " provider_event |manual_retry" 2] in
  ∃ m g, active r !! triggerQueueKey "run-1" "train" = Some (m, g) ∧ tr_ObservedRevision m = 4 ∧
    list_to_set (cause_items (tr_Cause m)) =@{gset string} {["manual_retry"; "provider_event"]}.
Proof.
  destruct (Enqueue_merges (NewRuntime (mkRuntimeConfig 0 0 0)) (request "train" "manual_retry" 4)
    [request "train" " provider_event |manual_retry" 2]) as (m & g & Ha & Hr & Hc & _); [done..| |].
  - by repeat constructor.
  - exists m, g. split; [exact Ha|]. split; [exact Hr|]. rewrite Hc. apply (bool_decide_eq_true_1 _). vm_compute. reflexivity.
Defined.

(** The observation kept is not always the latest: an older one comes with a higher revision. *)
Definition observed (at_second revision : Z) : Trigger :=
  mkTrigger "run-1" "train" TICK_KIND_UNKNOWN "" revision
    (Some (mkContractObservation (Some (mkTimestamp at_second 0)) None None None None None None None None "" [] None None [] [] None "" "" ""))
    false.

Lemma merge_observation_order :
  (tr_ContractObservation (merge_both (observed 9 1) (observed 5 2)) ≫= obs_observed_at) = Some (mkTimestamp 5 0) ∧
  (tr_ContractObservation (merge_both (observed 5 2) (observed 9 1)) ≫= obs_observed_at) = Some (mkTimestamp 9 0).
Proof. done. Qed.

End EventLoopWitnesses.
