(* ===== verification/GoTimeText.v ===== *)
(** * Reading back formatted times and numbers

    [time.Parse] with [time.RFC3339Nano] on RFC 3339 text and [fmt.Sscanf] with [%d] into an
    unsigned number, and that they read back what [FormatRFC3339Nano] and [FormatUint]
    write. *)

From Stdlib Require Import ZArith Lia String Ascii.
From stdpp Require Import base list strings.
From S2P Require Import Prelude GoStrings GoTime.
From stdpp Require Import options.

Local Open Scope Z_scope.

(** ** [time.Parse(time.RFC3339Nano, s)] *)

Definition parse_digits (n : nat) (l : list ascii) : option (Z * list ascii) :=
  let ds := take n l in
  if bool_decide (length ds = n) && forallb is_digit ds then Some (digits_value ds, drop n l) else None.

Definition expect (c : ascii) (l : list ascii) : option (list ascii) :=
  match l with d :: l' => if Ascii.eqb d c then Some l' else None | [] => None end.

Definition is_leap (y : Z) : bool := (y mod 4 =? 0) && (negb (y mod 100 =? 0) || (y mod 400 =? 0)).

Definition days_in_month (y m : Z) : Z :=
  if m =? 2 then (if is_leap y then 29 else 28)
  else if (m =? 4) || (m =? 6) || (m =? 9) || (m =? 11) then 30 else 31.

(** The day number of a civil date, [civil_of_days] backwards. *)
Definition days_of_civil (y m d : Z) : Z :=
  let y' := if m <=? 2 then y - 1 else y in
  let doy := (153 * (if 2 <? m then m - 3 else m + 9) + 2) / 5 + d - 1 in
  y' / 400 * 146097 + (y' mod 400 * 365 + y' mod 400 / 4 - y' mod 400 / 100 + doy) - 719468.

Fixpoint span_digits (l : list ascii) : list ascii * list ascii :=
  match l with
  | c :: l' => if is_digit c then let '(ds, rest) := span_digits l' in (c :: ds, rest) else ([], l)
  | [] => ([], [])
  end.

(** The nanoseconds of a fraction: nine digits, the missing ones zero. *)
Definition nanos_of (ds : list ascii) : Z :=
  let ds := take 9 ds in digits_value (ds ++ replicate (9 - length ds) "0"%char).

Definition parse_fraction (l : list ascii) : Z * list ascii :=
  match l with
  | "."%char :: c :: _ =>
      if is_digit c then let '(ds, rest) := span_digits (tail l) in (nanos_of ds, rest) else (0, l)
  | _ => (0, l)
  end.

(** The offset of the zone in seconds. *)
Definition parse_zone (l : list ascii) : option Z :=
  match l with
  | ["Z"%char] => Some 0
  | sign :: l' =>
      '(hr, l1) ← parse_digits 2 l';
      l2 ← expect ":" l1;
      '(mm, l3) ← parse_digits 2 l2;
      if bool_decide (l3 = []) && (hr <=? 23) && (mm <=? 59) && (Ascii.eqb sign "+" || Ascii.eqb sign "-")
      then Some ((if Ascii.eqb sign "-" then -1 else 1) * (hr * 60 + mm) * 60) else None
  | [] => None
  end.

Definition ParseRFC3339 (s : string) : option Z :=
  '(y, l) ← parse_digits 4 (chars s); l ← expect "-" l;
  '(m, l) ← parse_digits 2 l; l ← expect "-" l;
  '(d, l) ← parse_digits 2 l; l ← expect "T" l;
  '(hh, l) ← parse_digits 2 l; l ← expect ":" l;
  '(mm, l) ← parse_digits 2 l; l ← expect ":" l;
  '(ss, l) ← parse_digits 2 l;
  if (1 <=? m) && (m <=? 12) && (1 <=? d) && (d <=? days_in_month y m) && (hh <=? 23) && (mm <=? 59) && (ss <=? 59) then
    let '(nanos, l) := parse_fraction l in
    zone ← parse_zone l;
    Some ((days_of_civil y m d * 86400 + hh * 3600 + mm * 60 + ss - zone) * Second + nanos)
  else None.

(** ** [fmt.Sscanf(s, "%d", &n)] for a [uint64]: the number read, [None] when it fails *)

Definition scan_space_seqs : list (list ascii) := filter (λ p, p ≠ bytes_seq [10%nat]) space_seqs.

Definition ScanUint (s : string) : option Z :=
  let ds := (span_digits (trim_left (length (chars s)) scan_space_seqs (chars s))).1 in
  match ds with
  | [] => None
  | _ => if digits_value ds <=? max_uint64 then Some (digits_value ds) else None
  end.

(** ** Digits *)

Lemma digits_value_zeros n l : digits_value (replicate n "0"%char ++ l) = digits_value l.
Proof.
  rewrite digits_value_app. unfold digits_value. f_equal.
  induction n; [done|]. cbn [replicate foldl]. change (0 * 10 + (code "0" - 48)) with 0. done.
Qed.

Lemma digits_value_bounds l :
  forallb is_digit l = true → 0 ≤ digits_value l < 10 ^ Z.of_nat (length l).
Proof.
  induction l as [|c l IH] using rev_ind; [done|].
  rewrite forallb_app, andb_true_iff. intros [Hl Hc]. simpl in Hc. rewrite andb_true_r in Hc.
  specialize (IH Hl). rewrite digits_value_app, length_app, Nat2Z.inj_add, Z.pow_add_r by lia. simpl.
  unfold is_digit in Hc. bool_props. lia.
Qed.

Lemma digits_value_lower c l :
  is_digit c = true → c ≠ "0"%char → forallb is_digit l = true → 10 ^ Z.of_nat (length l) ≤ digits_value (c :: l).
Proof.
  intros Hc Hz. induction l as [|e l IH] using rev_ind.
  - intros _. unfold digits_value, is_digit in *. simpl. bool_props.
    assert (code c ≠ 48); [|lia]. intros E. apply Hz. unfold code in E.
    rewrite <-(ascii_N_embedding c). by replace (N_of_ascii c) with 48%N by lia.
  - rewrite forallb_app, andb_true_iff. intros [Hl He]. simpl in He. rewrite andb_true_r in He.
    specialize (IH Hl). change (c :: l ++ [e]) with ((c :: l) ++ [e]).
    rewrite digits_value_app, length_app, Nat2Z.inj_add, Z.pow_add_r by lia. cbn [length Z.of_nat foldl].
    unfold is_digit in He. bool_props. lia.
Qed.

Lemma FormatUint_length n w : 0 ≤ n < 10 ^ Z.of_nat w → (0 < w)%nat → (length (chars (FormatUint n)) ≤ w)%nat.
Proof.
  intros Hn Hw. destruct (FormatUint_spec n) as [(Hne & Hd & Hz) Hv]; [lia|].
  destruct (chars (FormatUint n)) as [|c l]; [done|]. simpl in Hd. apply andb_true_iff in Hd as [Hc Hl].
  destruct (decide (c = "0"%char)) as [->|Hc0]; [injection (Hz eq_refl) as ->; simpl; lia|].
  pose proof (digits_value_lower c l Hc Hc0 Hl) as Hlow. rewrite Hv in Hlow.
  assert (Z.of_nat (length l) < Z.of_nat w); [|simpl; lia].
  apply (Z.pow_lt_mono_r_iff 10); lia.
Qed.

Lemma parse_padded w n rest :
  0 ≤ n < 10 ^ Z.of_nat w → (0 < w)%nat → parse_digits w (chars (FormatPadded w n) ++ rest) = Some (n, rest).
Proof.
  intros Hn Hw. pose proof (FormatUint_length n w Hn Hw) as Hlen.
  destruct (FormatUint_spec n) as [(_ & Hd & _) Hv]; [lia|].
  unfold FormatPadded. rewrite chars_unchars. set (ds := chars (FormatUint n)) in *.
  assert (Hl : length (replicate (w - length ds) "0"%char ++ ds) = w) by (rewrite length_app, length_replicate; lia).
  unfold parse_digits. rewrite take_app_length', drop_app_length' by done.
  rewrite bool_decide_eq_true_2 by done. simpl. rewrite forallb_app, Hd, andb_true_r.
  replace (forallb is_digit (replicate _ _)) with true; [by rewrite digits_value_zeros, Hv|].
  symmetry. apply forallb_forall. intros c Hc. apply list_elem_of_In, elem_of_replicate in Hc as [-> _]. done.
Qed.

Lemma span_digits_app ds c rest : forallb is_digit ds = true → is_digit c = false → span_digits (ds ++ c :: rest) = (ds, c :: rest).
Proof.
  intros Hds Hc. induction ds as [|e ds IH]; simpl in *; [by rewrite Hc|].
  apply andb_true_iff in Hds as [He Hds]. by rewrite He, IH.
Qed.

Lemma span_digits_all ds : forallb is_digit ds = true → span_digits ds = (ds, []).
Proof.
  induction ds as [|e ds IH]; simpl in *; [done|]. intros [He Hds]%andb_true_iff. by rewrite He, IH.
Qed.

Lemma ScanUint_FormatUint n : is_u64 n → ScanUint (FormatUint n) = Some n.
Proof.
  intros [H0 H1]. destruct (FormatUint_spec n H0) as [(Hne & Hd & _) Hv]. unfold ScanUint.
  replace (trim_left _ _ _) with (chars (FormatUint n)).
  - rewrite span_digits_all by done. destruct (chars (FormatUint n)) as [|c l] eqn:E; [done|].
    cbn [fst]. rewrite Hv, (proj2 (Z.leb_le _ _)); [done|]. unfold max_uint64, two64 in *. lia.
  - destruct (chars (FormatUint n)) as [|c l] eqn:E; [done|]. simpl in Hd. apply andb_true_iff in Hd as [Hc _].
    symmetry. cbn [length trim_left]. unfold is_digit in Hc.
    replace (strip_any scan_space_seqs (c :: l)) with (@None (list ascii)); [done|].
    symmetry. clear -Hc. destruct c as [[] [] [] [] [] [] [] []]; vm_compute in Hc |- *; done || discriminate.
Qed.

(** ** Civil dates *)

(** One day of an era: its date is valid and leads back to it. *)
Definition civil_ok (doe : Z) : bool :=
  let yoe := (doe - doe / 1460 + doe / 36524 - doe / 146096) / 365 in
  let doy := doe - (365 * yoe + yoe / 4 - yoe / 100) in
  let mp := (5 * doy + 2) / 153 in
  let d := doy - (153 * mp + 2) / 5 + 1 in
  let m := if mp <? 10 then mp + 3 else mp - 9 in
  let b := if m <=? 2 then 1 else 0 in
  (0 <=? yoe) && (yoe <=? 399) && (1 <=? m) && (m <=? 12) && (1 <=? d) && (d <=? days_in_month (yoe + b) m) &&
  (yoe * 365 + yoe / 4 - yoe / 100 + ((153 * (if 2 <? m then m - 3 else m + 9) + 2) / 5 + d - 1) =? doe) &&
  (if doe <? 146037 then yoe + b <=? 399 else (yoe =? 399) && (b =? 1)).

Fixpoint all_below (fuel : nat) (n : Z) (f : Z → bool) : bool :=
  match fuel with O => true | S fuel' => f n && all_below fuel' (n + 1) f end.

Lemma all_below_spec fuel n f : all_below fuel n f = true → ∀ k, n ≤ k < n + Z.of_nat fuel → f k = true.
Proof.
  revert n. induction fuel as [|fuel IH]; intros n H k Hk; [lia|]. cbn in H. apply andb_true_iff in H as [Hn H].
  destruct (decide (k = n)) as [->|]; [done|]. apply (IH (n + 1)); [done|lia].
Qed.

Lemma civil_ok_era doe : 0 ≤ doe < 146097 → civil_ok doe = true.
Proof.
  intros H. apply (all_below_spec (Z.to_nat 146097) 0 civil_ok); [|rewrite Z2Nat.id; lia].
  vm_compute. reflexivity.
Qed.

Lemma is_leap_era era y : is_leap (y + era * 400) = is_leap y.
Proof.
  unfold is_leap. replace (y + era * 400) with (y + (era * 100) * 4) at 1 by lia.
  rewrite Z_mod_plus_full. replace (y + era * 400) with (y + (era * 4) * 100) at 1 by lia.
  by rewrite !Z_mod_plus_full.
Qed.

Lemma civil_of_days_spec days :
  let '(y, m, d) := civil_of_days days in
  1 ≤ m ≤ 12 ∧ 1 ≤ d ≤ days_in_month y m ∧ days_of_civil y m d = days ∧
  (-719528 ≤ days < 2932897 → 0 ≤ y ≤ 9999).
Proof.
  unfold civil_of_days. set (z := days + 719468).
  pose proof (Z.mod_pos_bound z 146097 eq_refl) as Hdoe. pose proof (Z.div_mod z 146097) as Hz.
  set (era := z / 146097) in *. set (doe := z mod 146097) in *.
  pose proof (civil_ok_era doe Hdoe) as Hok. unfold civil_ok in Hok.
  set (yoe := (doe - doe / 1460 + doe / 36524 - doe / 146096) / 365) in *. clearbody yoe.
  set (doy := doe - (365 * yoe + yoe / 4 - yoe / 100)) in *. clearbody doy.
  set (mp := (5 * doy + 2) / 153) in *. clearbody mp.
  set (d := doy - (153 * mp + 2) / 5 + 1) in *. clearbody d.
  set (m := if mp <? 10 then mp + 3 else mp - 9) in *. clearbody m.
  set (b := if m <=? 2 then 1 else 0) in *.
  apply andb_true_iff in Hok as [Hok Hlast]. bool_props.
  assert (Hdim : days_in_month (yoe + era * 400 + b) m = days_in_month (yoe + b) m).
  { unfold days_in_month. replace (yoe + era * 400 + b) with (yoe + b + era * 400) by lia. by rewrite is_leap_era. }
  rewrite Hdim. split; [lia|]. split; [lia|]. split.
  - unfold days_of_civil. replace (if m <=? 2 then yoe + era * 400 + b - 1 else yoe + era * 400 + b) with (yoe + era * 400)
      by (unfold b; destruct (m <=? 2); lia).
    replace ((yoe + era * 400) / 400) with era by (rewrite Z.div_add by lia; rewrite Z.div_small by lia; lia).
    replace ((yoe + era * 400) mod 400) with yoe by (rewrite Z_mod_plus_full; symmetry; apply Z.mod_small; lia).
    unfold z in *. lia.
  - intros Hdays. assert (0 ≤ b ≤ 1) by (unfold b; destruct (m <=? 2); lia).
    destruct (Z.ltb_spec doe 146037); bool_props; unfold z in *; nia.
Qed.

(** ** The round trip of a time *)

Lemma drop_zeros_value l w :
  forallb is_digit l = true → (length l ≤ w)%nat →
  digits_value (reverse (drop_zeros l) ++ replicate (w - length (drop_zeros l)) "0"%char) =
  digits_value (reverse l ++ replicate (w - length l) "0"%char).
Proof.
  revert w. induction l as [|c l IH]; intros w Hd Hw; [done|]. cbn [drop_zeros].
  simpl in Hd. apply andb_true_iff in Hd as [Hc Hd].
  destruct (Ascii.eqb_spec c "0"%char) as [->|]; [|done].
  rewrite IH by (simpl in Hw; done || lia). rewrite reverse_cons, <-(app_assoc (reverse l)). cbn [app length].
  simpl in Hw. replace (w - length l)%nat with (S (w - S (length l)))%nat by lia. done.
Qed.

Lemma drop_zeros_digits l : forallb is_digit l = true → forallb is_digit (drop_zeros l) = true.
Proof. induction l as [|c l IH]; [done|]. simpl. intros [Hc Hl]%andb_true_iff. case_match; [auto|]. simpl. by rewrite Hc, Hl. Qed.

Lemma drop_zeros_length l : (length (drop_zeros l) ≤ length l)%nat.
Proof. induction l as [|c l IH]; [done|]. simpl. case_match; simpl; lia. Qed.

Lemma forallb_reverse {A} (f : A → bool) l : forallb f (reverse l) = forallb f l.
Proof.
  induction l as [|c l IH]; [done|]. rewrite reverse_cons, forallb_app, IH. simpl. rewrite andb_true_r. apply andb_comm.
Qed.

Lemma padded_digits w n : 0 ≤ n → forallb is_digit (chars (FormatPadded w n)) = true.
Proof.
  intros Hn. destruct (FormatUint_spec n Hn) as [(_ & Hd & _) _]. unfold FormatPadded.
  rewrite chars_unchars, forallb_app, Hd, andb_true_r. apply forallb_forall. intros c Hc.
  apply list_elem_of_In, elem_of_replicate in Hc as [-> _]. done.
Qed.

Lemma parse_format_fraction nanos :
  0 ≤ nanos < Second → parse_fraction (chars (format_fraction nanos +:+ "Z")) = (nanos, ["Z"%char]).
Proof.
  intros Hn. unfold format_fraction. destruct (Z.eqb_spec nanos 0) as [->|Hnz]; [done|].
  rewrite chars_app. change (chars "Z") with ["Z"%char].
  assert (Hp : parse_digits 9 (chars (FormatPadded 9 nanos) ++ []) = Some (nanos, [])).
  { apply parse_padded; [|lia]. change (10 ^ Z.of_nat 9) with Second. done. }
  rewrite app_nil_r in Hp. unfold parse_digits in Hp. destruct (_ && _) eqn:Hl in Hp; [|done].
  apply andb_true_iff in Hl as [Hl%bool_decide_eq_true Hd].
  assert (Hlen : length (chars (FormatPadded 9 nanos)) = 9%nat).
  { injection Hp as _ Hdrop. apply (f_equal length) in Hdrop. rewrite length_drop in Hdrop. simpl in Hdrop.
    rewrite length_take in Hl. lia. }
  rewrite take_ge in Hp, Hd by lia. injection Hp as Hv _.
  set (ds := chars (FormatPadded 9 nanos)) in *. set (kept := reverse (drop_zeros (reverse ds))).
  assert (Hkd : forallb is_digit kept = true).
  { unfold kept. rewrite forallb_reverse. apply drop_zeros_digits. by rewrite forallb_reverse. }
  assert (Hkv : nanos_of kept = nanos).
  { pose proof (drop_zeros_length (reverse ds)) as Hle. rewrite length_reverse, Hlen in Hle.
    unfold nanos_of. rewrite take_ge by (unfold kept; rewrite length_reverse; lia). unfold kept. rewrite length_reverse.
    rewrite drop_zeros_value by (rewrite ?forallb_reverse, ?length_reverse; done || lia).
    by rewrite length_reverse, Hlen, reverse_involutive, app_nil_r. }
  destruct kept as [|c kept'] eqn:Ek; [by rewrite <-Hkv in Hnz|].
  change (chars ("." +:+ unchars (c :: kept'))) with ("."%char :: chars (unchars (c :: kept'))).
  rewrite chars_unchars. cbn [app]. unfold parse_fraction. simpl in Hkd. apply andb_true_iff in Hkd as [Hc Hk'].
  rewrite Hc. cbn [tail]. change (c :: kept' ++ ["Z"%char]) with ((c :: kept') ++ "Z"%char :: []).
  rewrite span_digits_app by (simpl; rewrite ?Hc; done). by rewrite Hkv.
Qed.

Lemma Parse_Format t :
  -719528 * 86400 * Second ≤ t < 2932897 * 86400 * Second → ParseRFC3339 (FormatRFC3339Nano t) = Some t.
Proof.
  intros Ht. assert (HS : Second = 1000000000) by done.
  pose proof (Z.div_mod t Second ltac:(lia)) as Hd1. pose proof (Z.mod_pos_bound t Second ltac:(lia)) as Hm1.
  pose proof (Z.div_mod (t / Second) 86400 ltac:(lia)) as Hd2. pose proof (Z.mod_pos_bound (t / Second) 86400 ltac:(lia)) as Hm2.
  pose proof (civil_of_days_spec (t / Second / 86400)) as Hciv.
  unfold FormatRFC3339Nano. destruct (civil_of_days (t / Second / 86400)) as [[y m] d].
  destruct Hciv as (Hm & Hd & Hdays & Hy). specialize (Hy ltac:(nia)).
  assert (Hdim : days_in_month y m ≤ 31) by (unfold days_in_month; repeat case_match; lia).
  set (sod := (t / Second) mod 86400) in *.
  pose proof (Z.div_mod sod 3600 ltac:(lia)). pose proof (Z.mod_pos_bound sod 3600 ltac:(lia)).
  pose proof (Z.div_mod sod 60 ltac:(lia)). pose proof (Z.mod_pos_bound sod 60 ltac:(lia)).
  pose proof (Z.div_mod (sod / 60) 60 ltac:(lia)). pose proof (Z.mod_pos_bound (sod / 60) 60 ltac:(lia)).
  assert (sod / 60 / 60 = sod / 3600) by (rewrite Z.div_div by lia; done).
  unfold ParseRFC3339. rewrite !chars_app.
  change (chars "-") with ["-"%char]. change (chars ":") with [":"%char]. change (chars "T") with ["T"%char].
  do 6 (rewrite parse_padded by (cbn; lia); cbn [mbind option_bind expect app Ascii.eqb Bool.eqb]).
  rewrite <-chars_app, parse_format_fraction by lia.
  rewrite !(proj2 (Z.leb_le _ _)) by lia. cbn [andb mbind option_bind parse_zone].
  rewrite Hdays. f_equal. lia.
Qed.
