(* ===== verification/Checkpoint.v ===== *)
(** * The scheduler's checkpoint ([scheduler-go/persistence], [storage/checkpoint.go], [files.go])

    The whole state of the scheduler in one file, replaced atomically, and a journal beside it
    that is read when there is no complete checkpoint.  Every protobuf message is written in
    base64 of its wire form, every number and text as a field of a JSON object.

    Parameters: the wire form of each message ([ProtoMessage]), the text [encoding/json] makes
    of the envelope and how it reads one, and the order in which a Go map is walked.  Clones
    are values.  Where a map is walked an error does not say which entry it found. *)

From Stdlib Require Import ZArith Lia Ascii.
From S2P Require Import Prelude GoBytes GoStrings GoTime GoTimeText GoFloat GoBase64 Journal Protection SemVer Semantics ComponentRegistry Evaluator ClusterModel SchedulerState Mutation Preemption Reservation Transaction Intents Projection ProviderEvents DurableState SchedulerCore.
From stdpp Require Import options.

Local Open Scope Z_scope.

(** ** The state that is kept *)

Record CheckpointReservation := mkCheckpointReservation {
  kr_Plan : option PlacementPlan;
  kr_BeforeSnapshot : option ClusterSnapshot;
  kr_DeviceAllocatable : gmap string (option ResourceVector);
  kr_PendingUnits : list PendingUnit;
  kr_AllocationIDs : list string;
  kr_Finalized : bool;
  kr_Succeeded : bool;
  kr_RetainedAllocationIDs : list string;
}.

#[export] Instance eta_CheckpointReservation : Eta CheckpointReservation := λ r,
  mkCheckpointReservation (kr_Plan r) (kr_BeforeSnapshot r) (kr_DeviceAllocatable r) (kr_PendingUnits r) (kr_AllocationIDs r)
    (kr_Finalized r) (kr_Succeeded r) (kr_RetainedAllocationIDs r).

Record SchedulerState := mkSchedulerState {
  ss_Snapshot : option ClusterSnapshot;
  ss_Intents : gmap string SchedulingIntent;
  ss_Decisions : list DecisionRecord;
  ss_ActionResults : list (option ActionResult);
  ss_Cursor : Z;
  ss_Reservations : list CheckpointReservation;
  ss_Transactions : list TransactionRecord;
  ss_ProjectedSandboxes : list (option Sandbox);
  ss_ResourceCursors : gmap string providerResourceCursor;
  ss_SandboxCursors : gmap string ProviderSandboxCursor;
  ss_Protection : gmap string StateEntry;
}.

#[export] Instance eta_SchedulerState : Eta SchedulerState := λ s,
  mkSchedulerState (ss_Snapshot s) (ss_Intents s) (ss_Decisions s) (ss_ActionResults s) (ss_Cursor s) (ss_Reservations s)
    (ss_Transactions s) (ss_ProjectedSandboxes s) (ss_ResourceCursors s) (ss_SandboxCursors s) (ss_Protection s).

Definition empty_state : SchedulerState := mkSchedulerState None ∅ [] [] 0 [] [] [] ∅ ∅ ∅.

(** [intentKey] of the package: a NUL between the two parts. *)
Definition checkpoint_key (executionID stageID : string) : string := executionID +:+ String zero stageID.

Definition SplitIntentKey (key : string) : string * string * bool :=
  match Cut key zero with (before, Some after) => (before, after, true) | (before, None) => (before, "", false) end.

Definition IsEmpty (recovered : option SchedulerState) : bool :=
  match recovered with
  | None => true
  | Some s =>
      bool_decide (ss_Snapshot s = None) && bool_decide (ss_Intents s = ∅) && bool_decide (ss_Decisions s = []) &&
      bool_decide (ss_Reservations s = []) && bool_decide (ss_Transactions s = []) && bool_decide (ss_ProjectedSandboxes s = []) &&
      bool_decide (ss_ResourceCursors s = ∅) && bool_decide (ss_SandboxCursors s = ∅)
  end.

Definition capture_reservation (r : ReservationRecord) : CheckpointReservation :=
  mkCheckpointReservation (rr_Plan r) (Some (rr_BeforeSnapshot r)) (rr_DeviceAllocatable r) (rr_PendingUnits r)
    (rr_AllocationIDs r) (rr_Finalized r) (rr_Succeeded r) (rr_RetainedAllocationIDs r).

(** The last intent of a key wins; an exported intent is never nil. *)
Definition capture_intents (intents : list (option SchedulingIntent)) : gmap string SchedulingIntent :=
  foldl (λ m i, match i with
                | Some i => <[checkpoint_key (in_execution_id i) (in_stage_id i) := i]> m
                | None => m end) ∅ intents.

Definition Capture (durable : DurableState) (decisions : list DecisionRecord) (cursor : Z) (protectionState : gmap string StateEntry) :
    SchedulerState :=
  mkSchedulerState (du_Snapshot durable) (capture_intents (du_Intents durable)) decisions (decisions ≫= action_results) cursor
    (capture_reservation <$> du_Reservations durable) (du_Transactions durable) (ProjectedSandboxes durable)
    (ResourceCursors durable) (SandboxCursors durable) protectionState.

(** The getters of a nil snapshot read an empty one. *)
Definition nil_snapshot : ClusterSnapshot := mkSnapshot "" 0 None [] [] [] ∅ "".

Definition restored_reservation (r : CheckpointReservation) : ReservationRecord :=
  mkReservationRecord (kr_Plan r) (default nil_snapshot (kr_BeforeSnapshot r)) (kr_DeviceAllocatable r) (kr_PendingUnits r)
    (kr_AllocationIDs r) (kr_Finalized r) (kr_Succeeded r) (kr_RetainedAllocationIDs r).

(** [order] is the order in which the map of intents is walked. *)
Definition restored_durable (order : gmap string SchedulingIntent → list SchedulingIntent) (recovered : SchedulerState) : DurableState :=
  mkDurable (ss_Snapshot recovered) (Some <$> order (ss_Intents recovered)) (restored_reservation <$> ss_Reservations recovered)
    (ss_Transactions recovered) (ss_ProjectedSandboxes recovered) (ss_ResourceCursors recovered) (ss_SandboxCursors recovered).

Inductive PersistenceError :=
| ErrCorruptPayload (what : string)
| ErrNilMessage
| ErrMarshal (text : string)
| ErrUnsupportedVersion (version : Z)
| ErrEmptyPayload
| ErrEmptyCheckpoint
| ErrUnknownRecordKind (kind : string)
| ErrJournal (e : JournalError)
| ErrCheckpointIO
| ErrReplay
| ErrIncompleteState
| ErrRestore (e : RestoreError).

Definition RestoreStore timestamp_error duration_error order (s : ProviderEvents.State) (recovered : option SchedulerState) :
    ProviderEvents.State * option PersistenceError :=
  match recovered with
  | Some r =>
      match ss_Snapshot r with
      | Some _ =>
          let '(s, e) := DurableState.Restore timestamp_error duration_error s (restored_durable order r) in (s, ErrRestore <$> e)
      | None => (s, Some ErrIncompleteState)
      end
  | None => (s, Some ErrIncompleteState)
  end.

(** ** The envelope *)

Record resourceCursorEnvelope := mkResourceCursorEnvelope { rce_Revision : Z; rce_EventID : string }.

Record sandboxCursorEnvelope := mkSandboxCursorEnvelope {
  sce_Generation : Z;
  sce_ProviderRevision : Z;
  sce_EventID : string;
  sce_IdempotencyKey : string;
  sce_OccurredAt : string;
  sce_SeenEventIDs : list string;
  sce_SeenIdempotencyKeys : list string;
}.

Record reservationEnvelope := mkReservationEnvelope {
  re_Plan : string;
  re_BeforeSnapshot : string;
  re_PendingUnits : list string;
  re_AllocationIDs : list string;
  re_DeviceAllocatable : gmap string string;
  re_Finalized : bool;
  re_Succeeded : bool;
  re_RetainedAllocationIDs : list string;
}.

Record transactionStepEnvelope := mkTransactionStepEnvelope {
  tse_StepIndex : Z;
  tse_ActionID : string;
  tse_IdempotencyKey : string;
  tse_Status : string;
  tse_Revision : Z;
  tse_ErrorCode : string;
  tse_ErrorMessage : string;
  tse_CompensationAttempted : bool;
  tse_Compensated : bool;
}.

Record receiptEnvelope := mkReceiptEnvelope {
  rpe_Phase : string;
  rpe_ObservedRevision : Z;
  rpe_Steps : list transactionStepEnvelope;
  rpe_ErrorCode : string;
  rpe_ErrorMessage : string;
  rpe_PreparedAt : string;
  rpe_UpdatedAt : string;
}.

Record transactionEnvelope := mkTransactionEnvelope {
  te_TransactionID : string;
  te_PlanID : string;
  te_Plan : string;
  te_Generation : Z;
  te_ProviderGeneration : Z;
  te_State : string;
  te_ReservationHeld : bool;
  te_Terminal : bool;
  te_FailureClass : string;
  te_FailureReason : string;
  te_AffectedAllocationIDs : list string;
  te_ProviderReceipt : option receiptEnvelope;
  te_CreatedAt : string;
  te_UpdatedAt : string;
  te_FinalizedAt : string;
  te_FinalizedSucceeded : bool;
  te_RetainedAllocationIDs : list string;
}.

Record protectionStateEnvelope := mkProtectionStateEnvelope {
  pe_LastAction : string;
  pe_LastScore : float64;
  pe_WindowStart : string;
  pe_WindowCount : Z;
  pe_BreakerCount : Z;
  pe_BreakerOpened : string;
}.

Record checkpointEnvelope := mkCheckpointEnvelope {
  ce_FormatVersion : Z;
  ce_Snapshot : string;
  ce_Intents : gmap string string;
  ce_Decisions : list string;
  ce_ActionResults : list string;
  ce_Cursor : Z;
  ce_Reservations : list reservationEnvelope;
  ce_Transactions : list transactionEnvelope;
  ce_ProjectedSandboxes : list string;
  ce_ResourceCursors : gmap string resourceCursorEnvelope;
  ce_SandboxCursors : gmap string sandboxCursorEnvelope;
  ce_Protection : gmap string protectionStateEnvelope;
}.

Definition checkpointFormatVersion : Z := 3.

(** ** Messages in base64 *)

(** [proto.Marshal] with [Deterministic], and [proto.Unmarshal] into an empty message. *)
Class ProtoMessage (A : Type) := {
  Marshal : A → Result string string;
  Unmarshal : string → Result string A;
}.

Definition marshalProto {A} `{ProtoMessage A} (message : A) : Result PersistenceError string :=
  match Marshal message with Ok wire => Ok wire | Err text => Err (ErrMarshal text) end.

Definition encodeProto {A} `{ProtoMessage A} (message : A) : Result PersistenceError string :=
  wire ← marshalProto message;
  Ok (EncodeToString StdEncoding wire).

Definition decodeProto {A} `{ProtoMessage A} (encoded : string) : Result PersistenceError A :=
  match DecodeString StdEncoding encoded with
  | None => Err (ErrCorruptPayload "base64")
  | Some wire => match Unmarshal wire with Ok message => Ok message | Err text => Err (ErrCorruptPayload ("protobuf: " +:+ text)) end
  end.

(** A nil pointer to a message is marshalled as the empty message. *)
Definition encode_pointer {A} `{ProtoMessage A} (message : option A) : Result PersistenceError string :=
  match message with Some m => encodeProto m | None => Ok "" end.

(** A field that is there when the pointer is not nil, and read when it is not empty. *)
Definition decode_optional {A} `{ProtoMessage A} (encoded : string) : Result PersistenceError (option A) :=
  if bool_decide (encoded = "") then Ok None else Some <$> decodeProto encoded.

Definition map_result {E K A B} `{Countable K} (f : A → Result E B) (m : gmap K A) : Result E (gmap K B) :=
  foldr (λ kv acc, m' ← acc; b ← f kv.2; Ok (<[kv.1 := b]> m')) (Ok ∅) (map_to_list m).

Section Codec.
Context `{!ProtoMessage ClusterSnapshot, !ProtoMessage SchedulingIntent, !ProtoMessage DecisionRecord,
          !ProtoMessage ActionResult, !ProtoMessage Sandbox, !ProtoMessage Timestamp, !ProtoMessage PlacementPlan,
          !ProtoMessage PendingUnit, !ProtoMessage ResourceVector}.

(** ** Encoding *)

(** A field that is left out when the pointer is nil. *)
Definition encode_optional {A} `{ProtoMessage A} (message : option A) : Result PersistenceError string :=
  match message with Some m => encodeProto m | None => Ok "" end.

Definition encode_resource_cursor (c : providerResourceCursor) : resourceCursorEnvelope :=
  mkResourceCursorEnvelope (rc_revision c) (rc_eventID c).

Definition encode_sandbox_cursor (c : ProviderSandboxCursor) : Result PersistenceError sandboxCursorEnvelope :=
  occurredAt ← encode_optional (ps_OccurredAt c);
  Ok (mkSandboxCursorEnvelope (ps_Generation c) (ps_ProviderRevision c) (ps_EventID c) (ps_IdempotencyKey c) occurredAt
        (SeenEventIDs c) (SeenIdempotencyKeys c)).

Definition encode_time (t : Z) : string := if IsZero t then "" else FormatRFC3339Nano t.

Definition encode_protection (e : StateEntry) : protectionStateEnvelope :=
  mkProtectionStateEnvelope (encode_time (LastAction e)) (LastScore e) (encode_time (WindowStart e)) (WindowCount e) (BreakerCount e)
    (encode_time (BreakerOpened e)).

Definition encode_reservation (r : CheckpointReservation) : Result PersistenceError reservationEnvelope :=
  plan ← encode_pointer (kr_Plan r);
  before ← encode_optional (kr_BeforeSnapshot r);
  allocatable ← map_result encode_pointer (kr_DeviceAllocatable r);
  units ← mapM encodeProto (kr_PendingUnits r);
  Ok (mkReservationEnvelope plan before units (kr_AllocationIDs r) allocatable (kr_Finalized r) (kr_Succeeded r)
        (kr_RetainedAllocationIDs r)).

Definition encode_step (s : TransactionStep) : transactionStepEnvelope :=
  mkTransactionStepEnvelope (StepIndex s) (ActionID s) (IdempotencyKey s) (Status s) (ts_Revision s) (ts_ErrorCode s)
    (ts_ErrorMessage s) (CompensationAttempted s) (Compensated s).

Definition encode_receipt (r : Receipt) : Result PersistenceError receiptEnvelope :=
  preparedAt ← encode_optional (PreparedAt r);
  updatedAt ← encode_optional (rc_UpdatedAt r);
  Ok (mkReceiptEnvelope (Phase r) (ObservedRevision r) (encode_step <$> Steps r) (rc_ErrorCode r) (rc_ErrorMessage r) preparedAt updatedAt).

Definition encode_transaction (t : TransactionRecord) : Result PersistenceError transactionEnvelope :=
  plan ← encodeProto (Plan t);
  createdAt ← encode_optional (tr_CreatedAt t);
  updatedAt ← encode_optional (tr_UpdatedAt t);
  finalizedAt ← encode_optional (FinalizedAt t);
  receipt ← match tr_ProviderReceipt t with Some r => Some <$> encode_receipt r | None => Ok None end;
  Ok (mkTransactionEnvelope (TransactionID t) (PlanID t) plan (Generation t) (ProviderGeneration t) (Transaction.State t) (ReservationHeld t)
        (Terminal t) (tr_FailureClass t) (tr_FailureReason t) (AffectedAllocationIDs t) receipt createdAt updatedAt finalizedAt
        (FinalizedSucceeded t) (RetainedAllocationIDs t)).

Definition encodeCheckpoint (state : SchedulerState) : Result PersistenceError checkpointEnvelope :=
  snapshot ← encode_optional (ss_Snapshot state);
  intents ← map_result encodeProto (ss_Intents state);
  decisions ← mapM encodeProto (ss_Decisions state);
  results ← mapM encode_pointer (ss_ActionResults state);
  sandboxes ← mapM encode_pointer (ss_ProjectedSandboxes state);
  cursors ← map_result encode_sandbox_cursor (ss_SandboxCursors state);
  reservations ← mapM encode_reservation (ss_Reservations state);
  transactions ← mapM encode_transaction (ss_Transactions state);
  Ok (mkCheckpointEnvelope checkpointFormatVersion snapshot intents decisions results (ss_Cursor state) reservations transactions
        sandboxes (encode_resource_cursor <$> ss_ResourceCursors state) cursors (encode_protection <$> ss_Protection state)).

(** ** Decoding

    The decoder fills the state it is given, and leaves it as far as it got when a part is
    corrupt: [Recover] may go on with it. *)

Definition Decoder (A : Type) : Type := SchedulerState → SchedulerState * Result PersistenceError A.

#[local] Instance decoder_ret : MRet Decoder := λ A a s, (s, Ok a).
#[local] Instance decoder_bind : MBind Decoder := λ A B k m s,
  match m s with (s, Ok a) => k a s | (s, Err e) => (s, Err e) end.

Definition part {A} (r : Result PersistenceError A) : Decoder A := λ s, (s, r).
Definition fill (f : SchedulerState → SchedulerState) : Decoder unit := λ s, (f s, Ok tt).

Fixpoint each {A} (f : A → Decoder unit) (l : list A) : Decoder unit :=
  match l with
  | [] => mret tt
  | x :: l => _ ← f x; each f l
  end.

Definition decode_resource_cursor (c : resourceCursorEnvelope) : providerResourceCursor :=
  mkResourceCursor (rce_Revision c) (rce_EventID c).

Definition decode_sandbox_cursor (c : sandboxCursorEnvelope) : Result PersistenceError ProviderSandboxCursor :=
  occurredAt ← decode_optional (sce_OccurredAt c);
  Ok (mkPSC (sce_Generation c) (sce_ProviderRevision c) (sce_EventID c) (sce_IdempotencyKey c) occurredAt (sce_SeenEventIDs c)
        (sce_SeenIdempotencyKeys c)).

Definition decode_time (field text : string) : Result PersistenceError Z :=
  if bool_decide (text = "") then Ok zero_time else
  match ParseRFC3339 text with Some t => Ok t | None => Err (ErrCorruptPayload ("protection " +:+ field)) end.

Definition decode_protection (e : protectionStateEnvelope) : Result PersistenceError StateEntry :=
  lastAction ← decode_time "last_action" (pe_LastAction e);
  windowStart ← decode_time "window_start" (pe_WindowStart e);
  breakerOpened ← decode_time "breaker_opened" (pe_BreakerOpened e);
  Ok (mkStateEntry lastAction (pe_LastScore e) windowStart (pe_WindowCount e) (pe_BreakerCount e) breakerOpened).

Definition decode_reservation (r : reservationEnvelope) : Result PersistenceError CheckpointReservation :=
  plan ← decodeProto (re_Plan r);
  before ← decode_optional (re_BeforeSnapshot r);
  allocatable ← map_result (λ encoded, Some <$> decodeProto encoded) (re_DeviceAllocatable r);
  units ← mapM decodeProto (re_PendingUnits r);
  Ok (mkCheckpointReservation (Some plan) before allocatable units (re_AllocationIDs r) (re_Finalized r) (re_Succeeded r)
        (re_RetainedAllocationIDs r)).

Definition decode_step (s : transactionStepEnvelope) : TransactionStep :=
  mkTransactionStep (tse_StepIndex s) (tse_ActionID s) (tse_IdempotencyKey s) (tse_Status s) (tse_Revision s) (tse_ErrorCode s)
    (tse_ErrorMessage s) (tse_CompensationAttempted s) (tse_Compensated s).

Definition decode_receipt (r : receiptEnvelope) : Result PersistenceError Receipt :=
  preparedAt ← decode_optional (rpe_PreparedAt r);
  updatedAt ← decode_optional (rpe_UpdatedAt r);
  Ok (mkReceipt (rpe_Phase r) (rpe_ObservedRevision r) (decode_step <$> rpe_Steps r) (rpe_ErrorCode r) (rpe_ErrorMessage r)
        preparedAt updatedAt).

(** A provider generation of zero, from an older format, is the first. *)
Definition decode_transaction (t : transactionEnvelope) : Result PersistenceError TransactionRecord :=
  plan ← decodeProto (te_Plan t);
  createdAt ← decode_optional (te_CreatedAt t);
  updatedAt ← decode_optional (te_UpdatedAt t);
  finalizedAt ← decode_optional (te_FinalizedAt t);
  receipt ← match te_ProviderReceipt t with Some r => Some <$> decode_receipt r | None => Ok None end;
  Ok (mkTransactionRecord (te_TransactionID t) (te_PlanID t) plan (te_Generation t)
        (if te_ProviderGeneration t =? 0 then 1 else te_ProviderGeneration t) (te_State t) (te_ReservationHeld t) (te_Terminal t)
        (te_FailureClass t) (te_FailureReason t) (te_AffectedAllocationIDs t) receipt createdAt updatedAt finalizedAt
        (te_FinalizedSucceeded t) (te_RetainedAllocationIDs t)).

Definition decode_envelope (e : checkpointEnvelope) : Decoder unit :=
  _ ← part (guard_err ((ce_FormatVersion e =? 2) || (ce_FormatVersion e =? checkpointFormatVersion)) (ErrUnsupportedVersion (ce_FormatVersion e)));
  _ ← (if bool_decide (ce_Snapshot e = "") then mret tt
       else snapshot ← part (decodeProto (ce_Snapshot e)); fill (λ s, s <| ss_Snapshot := Some snapshot |>));
  _ ← fill (λ s, s <| ss_Intents := ∅ |>);
  _ ← each (λ kv, intent ← part (decodeProto kv.2); fill (λ s, s <| ss_Intents := <[kv.1 := intent]> (ss_Intents s) |>))
        (map_to_list (ce_Intents e));
  _ ← each (λ encoded, decision ← part (decodeProto encoded); fill (λ s, s <| ss_Decisions := ss_Decisions s ++ [decision] |>))
        (ce_Decisions e);
  _ ← each (λ encoded, result ← part (decodeProto encoded);
              fill (λ s, s <| ss_ActionResults := ss_ActionResults s ++ [Some result] |>)) (ce_ActionResults e);
  _ ← each (λ encoded, sandbox ← part (decodeProto encoded);
              fill (λ s, s <| ss_ProjectedSandboxes := ss_ProjectedSandboxes s ++ [Some sandbox] |>)) (ce_ProjectedSandboxes e);
  _ ← fill (λ s, s <| ss_ResourceCursors := decode_resource_cursor <$> ce_ResourceCursors e |> <| ss_SandboxCursors := ∅ |>);
  _ ← each (λ kv, cursor ← part (decode_sandbox_cursor kv.2);
              fill (λ s, s <| ss_SandboxCursors := <[kv.1 := cursor]> (ss_SandboxCursors s) |>)) (map_to_list (ce_SandboxCursors e));
  _ ← (if bool_decide (ce_Protection e = ∅) then mret tt else fill (λ s, s <| ss_Protection := ∅ |>));
  _ ← each (λ kv, entry ← part (decode_protection kv.2);
              fill (λ s, s <| ss_Protection := <[kv.1 := entry]> (ss_Protection s) |>)) (map_to_list (ce_Protection e));
  _ ← fill (λ s, s <| ss_Cursor := ce_Cursor e |>);
  _ ← each (λ encoded, record ← part (decode_reservation encoded);
              fill (λ s, s <| ss_Reservations := ss_Reservations s ++ [record] |>)) (ce_Reservations e);
  if 3 <=? ce_FormatVersion e
  then each (λ encoded, record ← part (decode_transaction encoded);
               fill (λ s, s <| ss_Transactions := ss_Transactions s ++ [record] |>)) (ce_Transactions e)
  else mret tt.

(** The text of the envelope. *)
Context (json_Marshal : checkpointEnvelope → Result string string) (json_Unmarshal : string → Result string checkpointEnvelope).

Definition decodeCheckpoint (payload : string) : Decoder unit :=
  match json_Unmarshal payload with
  | Ok envelope => decode_envelope envelope
  | Err text => part (Err (ErrCorruptPayload text))
  end.

(** ** The repository *)

(** The files: the checkpoint, and the journal's bytes. *)
Record Repository := mkRepository { checkpoint_file : option string; journal_file : list Byte.byte }.

#[local] Instance eta_Repository : Eta Repository := λ r, mkRepository (checkpoint_file r) (journal_file r).

(** [atomicWriteFile] behind [CheckpointStore.Save]; the fault is the one of the journal's replacement. *)
Definition SavePayload (fault : option ReplaceFault) (payload : string) (file : option string) : option string * option PersistenceError :=
  if bool_decide (payload = "") then (file, Some ErrEmptyPayload) else
  match fault with
  | None => (Some payload, None)
  | Some FaultBeforeRename => (file, Some ErrCheckpointIO)
  | Some FaultAfterRename => (Some payload, Some ErrCheckpointIO)
  end.

Definition LoadPayload (file : option string) : Result PersistenceError (option string) :=
  match file with
  | None => Ok None
  | Some "" => Err ErrEmptyCheckpoint
  | Some payload => Ok (Some payload)
  end.

Definition checkpointJournalRecords (state : SchedulerState) : Result PersistenceError (list JournalRecord) :=
  snapshot ← match ss_Snapshot state with
             | Some s => wire ← marshalProto s; Ok [mkJournalRecord "snapshot" (snapshot_id s) (bytes_of wire)]
             | None => Ok [] end;
  intents ← mapM (λ key, wire ← match ss_Intents state !! key with Some i => marshalProto i | None => Ok "" end;
                         Ok (mkJournalRecord "intent" key (bytes_of wire)))
              (sort_strings (elements (dom (ss_Intents state))));
  Ok (snapshot ++ intents).

(** [saveFault] and [journalFault] are what the operating system does to the two files. *)
Definition SaveCheckpoint (saveFault journalFault : option ReplaceFault) (state : SchedulerState) (r : Repository) :
    Repository * option PersistenceError :=
  match checkpointJournalRecords state with
  | Err e => (r, Some e)
  | Ok records =>
      match ValidateJournalReplacement records with
      | Err e => (r, Some (ErrJournal e))
      | Ok _ =>
          match encodeCheckpoint state with
          | Err e => (r, Some e)
          | Ok envelope =>
              match json_Marshal envelope with
              | Err text => (r, Some (ErrMarshal text))
              | Ok payload =>
                  let '(file, e) := SavePayload saveFault payload (checkpoint_file r) in
                  let r := r <| checkpoint_file := file |> in
                  match e with
                  | Some e => (r, Some e)
                  | None => (r <| journal_file := (Replace journalFault (journal_file r) records).1 |>, None)
                  end
              end
          end
      end
  end.

(** The checkpoint of the first format: the answer to a snapshot request. *)
Record GetSnapshotResponse := mkGetSnapshotResponse { gsr_Snapshot : option ClusterSnapshot }.

Context `{!ProtoMessage GetSnapshotResponse} (json_Unmarshal_cursor : string → Result string Z).

Fixpoint upsertDecision (decisions : list DecisionRecord) (incoming : DecisionRecord) : list DecisionRecord :=
  match decisions with
  | [] => [incoming]
  | d :: decisions =>
      if bool_decide (decision_id d = decision_id incoming) then incoming :: decisions
      else d :: upsertDecision decisions incoming
  end.

Definition same_result (a b : option ActionResult) : bool :=
  bool_decide (from_option ar_plan_id "" a = from_option ar_plan_id "" b) &&
  bool_decide (from_option ar_action_id "" a = from_option ar_action_id "" b).

Fixpoint upsertActionResult (results : list (option ActionResult)) (incoming : ActionResult) : list (option ActionResult) :=
  match results with
  | [] => [Some incoming]
  | r :: results =>
      if same_result r (Some incoming) then Some incoming :: results else r :: upsertActionResult results incoming
  end.

Definition corrupt_record {A} (r : Result string A) (what : string) : Result PersistenceError A :=
  match r with Ok a => Ok a | Err text => Err (ErrCorruptPayload (what +:+ ": " +:+ text)) end.

(** What a record of the journal does to the state, by its kind. *)
Definition replay_record (record : JournalRecord) (s : SchedulerState) : Result PersistenceError SchedulerState :=
  let payload := string_of (Payload record) in
  if bool_decide (Kind record = "snapshot") then
    snapshot ← corrupt_record (Unmarshal payload) ("snapshot " +:+ Key record); Ok (s <| ss_Snapshot := Some snapshot |>)
  else if bool_decide (Kind record = "intent") then
    intent ← corrupt_record (Unmarshal payload) ("intent " +:+ Key record);
    Ok (s <| ss_Intents := <[checkpoint_key (in_execution_id intent) (in_stage_id intent) := intent]> (ss_Intents s) |>)
  else if bool_decide (Kind record = "decision") then
    decision ← corrupt_record (Unmarshal payload) ("decision " +:+ Key record);
    Ok (s <| ss_Decisions := upsertDecision (ss_Decisions s) decision |>)
  else if bool_decide (Kind record = "action_result") then
    result ← corrupt_record (Unmarshal payload) ("action result " +:+ Key record);
    Ok (s <| ss_ActionResults := upsertActionResult (ss_ActionResults s) result |>)
  else if bool_decide (Kind record = "cursor") then
    cursor ← corrupt_record (json_Unmarshal_cursor payload) "cursor"; Ok (s <| ss_Cursor := cursor |>)
  else Err (ErrUnknownRecordKind (Kind record)).

Definition replay_visitor (s : SchedulerState) (record : JournalRecord) : SchedulerState * option PersistenceError :=
  match replay_record record s with Ok s => (s, None) | Err e => (s, Some e) end.

Definition replay_journal (s : SchedulerState) (r : Repository) : Result PersistenceError SchedulerState :=
  match Replay replay_visitor s (journal_file r) with
  | (s, ReplayOk) => Ok s
  | (_, ReplayVisitorError e) => Err e
  | (_, ReplayError e) => Err (ErrJournal e)
  | (_, ReplayOutOfFuel) => Err ErrReplay
  end.

Definition Recover (r : Repository) : Result PersistenceError SchedulerState :=
  loaded ← LoadPayload (checkpoint_file r);
  match loaded with
  | None => replay_journal empty_state r
  | Some payload =>
      match decodeCheckpoint payload empty_state with
      | (s, Ok _) => Ok s
      | (s, Err e) =>
          match Unmarshal payload with
          | Ok (mkGetSnapshotResponse (Some snapshot)) => replay_journal (s <| ss_Snapshot := Some snapshot |>) r
          | _ => Err (ErrCorruptPayload "checkpoint")
          end
      end
  end.

Definition journal_corrupt (e : JournalError) : bool :=
  match e with
  | ErrBadMagic | ErrInvalidBodyLength | ErrChecksumMismatch | ErrCorruptField | ErrTruncatedTail => true
  | _ => false
  end.

Definition IsCorruption (e : PersistenceError) : bool :=
  match e with
  | ErrCorruptPayload _ | ErrEmptyCheckpoint => true
  | ErrJournal e => journal_corrupt e
  | _ => false
  end.

End Codec.
