(* ===== verification/CheckpointProofs.v ===== *)
(** * What the scheduler's checkpoint keeps

    Decoding a checkpoint gives the state that was encoded; a restart finds the state that was
    saved last, or one whose save was refused since; and a store that is captured, saved,
    recovered and restored is the store it was. *)

From Stdlib Require Import ZArith Lia Ascii.
From S2P Require Import Prelude GoBytes GoStrings GoTime GoTimeText GoFloat GoBase64 Journal Protection SemVer Semantics ComponentRegistry Evaluator ClusterModel SchedulerState Mutation Preemption Reservation Transaction Intents Projection ProviderEvents DurableState DurableProofs SchedulerCore Checkpoint.
From stdpp Require Import options.

Local Open Scope Z_scope.

(** ** Traversals *)

Lemma mapM_roundtrip {E E' A B} (f : A → Result E B) (g : B → Result E' A) l l' :
  (∀ x y, x ∈ l → f x = Ok y → g y = Ok x) → mapM f l = Ok l' → mapM g l' = Ok l.
Proof.
  revert l'. induction l as [|x l IH]; intros l' Hg; cbn; [by intros [= <-]|].
  rewrite bind_Ok. intros (y & Hy & Hl). apply bind_Ok in Hl as (ys & Hys & [= <-]). cbn.
  rewrite (Hg x y) by (done || by left). cbn. rewrite (IH ys); [done| |done]. intros. apply Hg; [by right|done].
Qed.

Section MapResult.
Context {E K A B : Type} `{Countable K} (f : A → Result E B).

Lemma map_result_spec (m : gmap K A) m' :
  map_result f m = Ok m' → ∀ k, match m !! k, m' !! k with
                                | Some a, Some b => f a = Ok b
                                | None, None => True
                                | _, _ => False
                                end.
Proof using.
  unfold map_result. assert (Hnd := NoDup_fst_map_to_list m).
  assert (Hm : ∀ k a, m !! k = Some a ↔ (k, a) ∈ map_to_list m) by (intros; symmetry; apply elem_of_map_to_list).
  revert Hnd Hm. generalize (map_to_list m) as l. intros l. revert m m'.
  induction l as [|[k0 a0] l IH]; intros m m' Hnd Hm; cbn.
  - intros [= <-] k. rewrite lookup_empty. destruct (m !! k) as [a|] eqn:Hk; [|done]. by apply Hm, elem_of_nil in Hk.
  - rewrite bind_Ok. intros (m1 & Hl & Hb). apply bind_Ok in Hb as (b & Hf & [= <-]). cbn in Hnd. apply NoDup_cons in Hnd as [Hnin Hnd].
    intros k. specialize (IH (delete k0 m) m1 Hnd). assert (Hdel : ∀ k a, delete k0 m !! k = Some a ↔ (k, a) ∈ l).
    { intros k' a'. rewrite lookup_delete_Some, Hm, elem_of_cons. split; [naive_solver|]. intros Hin. split; [|by right].
      intros <-. apply Hnin. by apply (list_elem_of_fmap_2 fst _ (k0, a')). }
    specialize (IH Hdel Hl k). destruct (decide (k0 = k)) as [<-|Hne].
    + rewrite lookup_insert_eq. by rewrite (proj2 (Hm k0 a0)) by left.
    + rewrite lookup_insert_ne by done. by rewrite lookup_delete_ne in IH.
Qed.

Lemma map_result_total (m : gmap K A) : (∀ k a, m !! k = Some a → ∃ b, f a = Ok b) → ∃ m', map_result f m = Ok m'.
Proof using.
  intros Hf. unfold map_result. assert (Hl : ∀ ka, ka ∈ map_to_list m → ∃ b, f ka.2 = Ok b).
  { intros [k a] Hin. by eapply Hf, elem_of_map_to_list. }
  induction (map_to_list m) as [|ka l IH]; cbn; [by eexists|].
  destruct IH as [m' ->]; [intros; apply Hl; by right|]. destruct (Hl ka) as [b ->]; [by left|]. by eexists.
Qed.
End MapResult.

Lemma map_result_roundtrip {E E' K A B} `{Countable K} (f : A → Result E B) (g : B → Result E' A) (m : gmap K A) m' :
  (∀ k x y, m !! k = Some x → f x = Ok y → g y = Ok x) → map_result f m = Ok m' → map_result g m' = Ok m.
Proof.
  intros Hg Hm. pose proof (map_result_spec _ _ _ Hm) as Hs.
  assert (Hb : ∀ k b, m' !! k = Some b → ∃ a, m !! k = Some a ∧ g b = Ok a).
  { intros k b Hk. specialize (Hs k). rewrite Hk in Hs. destruct (m !! k) as [a|] eqn:Ha; [|done]. exists a. split; [done|]. by eapply Hg. }
  destruct (map_result_total g m') as [m2 Hm2].
  { intros k b Hk. destruct (Hb k b Hk) as (a & _ & Ha). by eexists. }
  rewrite Hm2. f_equal. apply map_eq. intros k. pose proof (map_result_spec _ _ _ Hm2 k) as H2. specialize (Hs k).
  destruct (m' !! k) as [b|] eqn:Hk, (m !! k) as [a|] eqn:Hmk, (m2 !! k) as [a2|]; try done.
  destruct (Hb k b Hk) as (a' & Ha' & Hg'). congruence.
Qed.

(** ** The decoder fills a field *)

Section Field.
Context {F : Type} (get : SchedulerState → F) (upd : F → SchedulerState → SchedulerState).
Hypothesis get_upd : ∀ v s, get (upd v s) = v.
Hypothesis upd_upd : ∀ v w s, upd v (upd w s) = upd v s.
Hypothesis upd_get : ∀ s, upd (get s) s = s.

(** A body that appends what it decodes, or puts it under its key. *)
Lemma each_fills {A B} (put : A → B → F → F) (dec : A → Result PersistenceError B) body l bs : ∀ s,
  (∀ x b s, dec x = Ok b → body x s = (upd (put x b (get s)) s, Ok tt)) → mapM dec l = Ok bs →
  each body l s = (upd (foldl (λ v xb, put xb.1 xb.2 v) (get s) (zip l bs)) s, Ok tt).
Proof using get_upd upd_upd upd_get.
  revert bs. induction l as [|x l IH]; intros bs s Hb Hl; cbn in Hl.
  - injection Hl as <-. cbn. by rewrite upd_get.
  - apply bind_Ok in Hl as (b & Hx & Hl). apply bind_Ok in Hl as (bs' & Hl & [= <-]). cbn.
    unfold mbind, decoder_bind. rewrite (Hb x b s Hx), (IH bs') by done. by rewrite get_upd, upd_upd.
Qed.

End Field.

Lemma each_list {B} (get : SchedulerState → list B) upd {A} (dec : A → Result PersistenceError B) body l bs s :
  (∀ v s, get (upd v s) = v) → (∀ v w s, upd v (upd w s) = upd v s) → (∀ s, upd (get s) s = s) →
  (∀ x b s, dec x = Ok b → body x s = (upd (get s ++ [b]) s, Ok tt)) → mapM dec l = Ok bs →
  each body l s = (upd (get s ++ bs) s, Ok tt).
Proof.
  intros H1 H2 H3 Hb Hl. rewrite (each_fills get upd H1 H2 H3 (λ _ b v, v ++ [b]) dec body l bs s Hb Hl). repeat f_equal.
  assert (Hlen : length l = length bs).
  { clear -Hl. revert bs Hl. induction l as [|x l IH]; intros bs Hl; cbn in Hl; [by injection Hl as <-|].
    apply bind_Ok in Hl as (b & _ & Hl). apply bind_Ok in Hl as (bs' & Hl & [= <-]). cbn. by rewrite (IH bs'). }
  clear Hl Hb. generalize (get s) as v. revert bs Hlen. induction l as [|x l IH]; intros [|b bs] Hlen v; try done; cbn.
  - by rewrite app_nil_r.
  - rewrite IH by (cbn in Hlen; lia). by rewrite <-app_assoc.
Qed.

Lemma each_map {B} (get : SchedulerState → gmap string B) upd {A} (dec : A → Result PersistenceError B) body (m : gmap string A) m' s :
  (∀ v s, get (upd v s) = v) → (∀ v w s, upd v (upd w s) = upd v s) → (∀ s, upd (get s) s = s) →
  (∀ kv b s, dec kv.2 = Ok b → body kv s = (upd (<[kv.1 := b]> (get s)) s, Ok tt)) → map_result dec m = Ok m' →
  get s = ∅ → each body (map_to_list m) s = (upd m' s, Ok tt).
Proof.
  intros H1 H2 H3 Hb Hm Hs. assert (Hl : ∃ bs, mapM (λ kv, dec kv.2) (map_to_list m) = Ok bs ∧
    ∀ k b, (k, b) ∈ zip (map_to_list m).*1 bs ↔ m' !! k = Some b).
  { pose proof (map_result_spec _ _ _ Hm) as Hspec. pose proof (NoDup_fst_map_to_list m) as Hnd.
    assert (Hel : ∀ k a, m !! k = Some a ↔ (k, a) ∈ map_to_list m) by (intros; symmetry; apply elem_of_map_to_list).
    clear Hm Hs Hb. revert Hnd Hel. generalize (map_to_list m) as l. intros l. revert m m' Hspec. induction l as [|[k0 a0] l IH]; intros m m' Hspec Hnd Hel.
    - exists []. split; [done|]. intros k b. cbn. specialize (Hspec k). destruct (m !! k) as [a|] eqn:Hk; [by apply Hel, elem_of_nil in Hk|].
      destruct (m' !! k); [done|]. split; [by intros ?%elem_of_nil|done].
    - cbn in Hnd. apply NoDup_cons in Hnd as [Hnin Hnd]. pose proof (Hspec k0) as H0. rewrite (proj2 (Hel k0 a0)) in H0 by left.
      destruct (m' !! k0) as [b0|] eqn:Hb0; [|done].
      destruct (IH (delete k0 m) (delete k0 m')) as (bs & Hbs & Hz).
      + intros k. destruct (decide (k0 = k)) as [<-|Hne]; [by rewrite !lookup_delete_eq|]. rewrite !lookup_delete_ne by done. apply Hspec.
      + done.
      + intros k a. rewrite lookup_delete_Some, Hel, elem_of_cons. split; [naive_solver|]. intros Hin. split; [|by right].
        intros <-. apply Hnin. by apply (list_elem_of_fmap_2 fst _ (k0, a)).
      + exists (b0 :: bs). cbn. rewrite H0, Hbs. split; [done|]. intros k b. rewrite elem_of_cons, Hz, lookup_delete_Some.
        split; [intros [[= -> ->]|[_ ?]]; done|]. intros Hk. destruct (decide (k0 = k)) as [<-|]; [left; congruence|by right]. }
  destruct Hl as (bs & Hl & Hz).
  rewrite (each_fills get upd H1 H2 H3 (λ kv b v, <[kv.1 := b]> v) (λ kv, dec kv.2) body _ bs s Hb Hl). rewrite Hs. repeat f_equal.
  transitivity (insert_all fst snd ∅ (zip (map_to_list m).*1 bs)).
  - generalize (∅ : gmap string B). revert bs Hl Hz. generalize (map_to_list m). intros l bs _ _. revert bs.
    induction l as [|kv l IH]; intros [|b bs] v; try done. cbn. apply IH.
  - apply map_eq. intros k. apply option_eq. intros b.
    rewrite (insert_all_lookup _ _ m'); [|intros [k' b'] Hin; by apply Hz|apply map_empty_subseteq]. rewrite lookup_empty. split.
    + intros [?|([k' b'] & Hin & <- & <-)]; [done|]. by apply Hz.
    + intros Hk. right. exists (k, b). by rewrite Hz.
Qed.

(** ** Messages *)

(** What the wire form of a message is read back as; the wire form of a message that has
    only default values is empty. *)
Definition reads_back {A} `{ProtoMessage A} (m : A) : Prop := ∀ wire, Marshal m = Ok wire → wire ≠ "" ∧ Unmarshal wire = Ok m.

Definition optional_reads_back {A} `{ProtoMessage A} (m : option A) : Prop := from_option reads_back True m.

Lemma decode_encodeProto {A} `{ProtoMessage A} (m : A) s : reads_back m → encodeProto m = Ok s → s ≠ "" ∧ decodeProto s = Ok m.
Proof.
  intros Hm. unfold encodeProto, marshalProto. rewrite bind_Ok. intros (wire & Hw & [= <-]).
  destruct (Marshal m) as [w|] eqn:E; [|done]. injection Hw as ->. destruct (Hm _ E) as [Hne Hu].
  pose proof (DecodeString_EncodeToString StdEncoding wire (proj1 standard_alphabets)) as Hd. split.
  - intros Hs. rewrite Hs in Hd. vm_compute in Hd. congruence.
  - unfold decodeProto. by rewrite Hd, Hu.
Qed.

Lemma decode_encode_optional {A} `{ProtoMessage A} (m : option A) s :
  optional_reads_back m → encode_optional m = Ok s → decode_optional s = Ok m.
Proof.
  unfold decode_optional. destruct m as [m|]; cbn; [|by intros _ [= <-]]. intros Hm Hs.
  destruct (decode_encodeProto m s Hm Hs) as [Hne ->]. by rewrite bool_decide_eq_false_2.
Qed.

Lemma decode_encode_pointer {A} `{ProtoMessage A} (m : option A) s :
  is_Some m → optional_reads_back m → encode_pointer m = Ok s → Some <$> decodeProto s = Ok m.
Proof. intros [x ->] Hm Hs. cbn in Hm, Hs. by destruct (decode_encodeProto x s Hm Hs) as [_ ->]. Qed.

(** The wire form of a timestamp at the epoch has no bytes: what is kept of it is the empty
    text, which is read as no timestamp at all. *)
Lemma epoch_lost `{ProtoMessage Timestamp} :
  Marshal (mkTimestamp 0 0) = Ok "" →
  ∃ text, encode_optional (Some (mkTimestamp 0 0)) = Ok text ∧ decode_optional (A := Timestamp) text = Ok None.
Proof. intros Hm. exists "". unfold encode_optional, encodeProto, marshalProto. by rewrite Hm. Qed.

(** Instants [time.RFC3339Nano] can write: those of the years 0 to 9999. *)
Definition writable_time (t : Z) : Prop := -719528 * 86400 * Second ≤ t < 2932897 * 86400 * Second.

Lemma decode_encode_time field t : writable_time t → decode_time field (encode_time t) = Ok t.
Proof.
  intros Ht. pose proof (Parse_Format t Ht) as Hp. unfold decode_time, encode_time, IsZero.
  destruct (Z.eqb_spec t zero_time) as [->|Hne]; [done|].
  rewrite bool_decide_eq_false_2; [by rewrite Hp|]. intros E. rewrite E in Hp. vm_compute in Hp. done.
Qed.

Section Kept.
Context `{!ProtoMessage ClusterSnapshot, !ProtoMessage SchedulingIntent, !ProtoMessage DecisionRecord,
          !ProtoMessage ActionResult, !ProtoMessage Sandbox, !ProtoMessage Timestamp, !ProtoMessage PlacementPlan,
          !ProtoMessage PendingUnit, !ProtoMessage ResourceVector}.

(** ** What a state must be to be kept

    Its messages are read back, no pointer is nil that the decoder makes a message, times can
    be written, and a transaction has a provider generation. *)

Definition cursor_kept (c : ProviderSandboxCursor) : Prop := optional_reads_back (ps_OccurredAt c).

Definition entry_kept (e : StateEntry) : Prop :=
  writable_time (LastAction e) ∧ writable_time (WindowStart e) ∧ writable_time (BreakerOpened e).

Record reservation_kept (r : CheckpointReservation) : Prop := {
  kept_plan : is_Some (kr_Plan r) ∧ optional_reads_back (kr_Plan r);
  kept_before : optional_reads_back (kr_BeforeSnapshot r);
  kept_allocatable : map_Forall (λ _ v, is_Some v ∧ optional_reads_back v) (kr_DeviceAllocatable r);
  kept_units : Forall reads_back (kr_PendingUnits r);
}.

Definition receipt_kept (r : Receipt) : Prop := optional_reads_back (PreparedAt r) ∧ optional_reads_back (rc_UpdatedAt r).

Record transaction_kept (t : TransactionRecord) : Prop := {
  kept_tx_plan : reads_back (Plan t);
  kept_generation : ProviderGeneration t ≠ 0;
  kept_created : optional_reads_back (tr_CreatedAt t);
  kept_updated : optional_reads_back (tr_UpdatedAt t);
  kept_finalized : optional_reads_back (FinalizedAt t);
  kept_receipt : from_option receipt_kept True (tr_ProviderReceipt t);
}.

Record state_kept (s : SchedulerState) : Prop := {
  kept_snapshot : optional_reads_back (ss_Snapshot s);
  kept_intents : map_Forall (λ _ i, reads_back i) (ss_Intents s);
  kept_decisions : Forall reads_back (ss_Decisions s);
  kept_results : Forall (λ r, is_Some r ∧ optional_reads_back r) (ss_ActionResults s);
  kept_reservations : Forall reservation_kept (ss_Reservations s);
  kept_transactions : Forall transaction_kept (ss_Transactions s);
  kept_sandboxes : Forall (λ r, is_Some r ∧ optional_reads_back r) (ss_ProjectedSandboxes s);
  kept_cursors : map_Forall (λ _ c, cursor_kept c) (ss_SandboxCursors s);
  kept_protection : map_Forall (λ _ e, entry_kept e) (ss_Protection s);
}.

Lemma decode_encode_cursor c e : cursor_kept c → encode_sandbox_cursor c = Ok e → decode_sandbox_cursor e = Ok c.
Proof.
  intros Hc. unfold encode_sandbox_cursor. rewrite bind_Ok. intros (t & Ht & [= <-]). unfold decode_sandbox_cursor. cbn.
  rewrite (decode_encode_optional _ _ Hc Ht). by destruct c.
Qed.

Lemma decode_encode_protection e : entry_kept e → decode_protection (encode_protection e) = Ok e.
Proof.
  intros (H1 & H2 & H3). unfold decode_protection, encode_protection. cbn -[decode_time encode_time].
  rewrite !decode_encode_time by done. by destruct e.
Qed.

Lemma decode_encode_reservation r e : reservation_kept r → encode_reservation r = Ok e → decode_reservation e = Ok r.
Proof.
  intros [[[plan Hp] Hpr] Hb Ha Hu]. unfold encode_reservation. rewrite Hp in *. cbn in Hpr.
  rewrite bind_Ok. intros (p & Hep & H). apply bind_Ok in H as (b & Heb & H). apply bind_Ok in H as (a & Hea & H).
  apply bind_Ok in H as (u & Heu & [= <-]). unfold decode_reservation. cbn -[map_result mapM].
  rewrite (proj2 (decode_encodeProto _ _ Hpr Hep)), (decode_encode_optional _ _ Hb Heb). cbn -[map_result mapM].
  rewrite (map_result_roundtrip encode_pointer (λ encoded, Some <$> decodeProto encoded) (kr_DeviceAllocatable r) a).
  2: { intros k x y Hx Hy. destruct (Ha k x Hx). by apply decode_encode_pointer. }
  2: done.
  cbn -[mapM]. rewrite (mapM_roundtrip encodeProto decodeProto (kr_PendingUnits r) u).
  2: { intros x y Hx Hy. rewrite Forall_forall in Hu. by destruct (decode_encodeProto x y (Hu x Hx) Hy). }
  2: done.
  cbn. destruct r. cbn in *. by subst.
Qed.

Lemma decode_encode_step s : decode_step (encode_step s) = s.
Proof. by destruct s. Qed.

Lemma decode_encode_receipt r e : receipt_kept r → encode_receipt r = Ok e → decode_receipt e = Ok r.
Proof.
  intros [Hp Hu]. unfold encode_receipt. rewrite bind_Ok. intros (p & Hep & H). apply bind_Ok in H as (u & Heu & [= <-]).
  unfold decode_receipt. cbn. rewrite (decode_encode_optional _ _ Hp Hep), (decode_encode_optional _ _ Hu Heu). cbn.
  rewrite <-list_fmap_compose. rewrite (list_fmap_ext _ id); [|intros; apply decode_encode_step]. rewrite list_fmap_id. by destruct r.
Qed.

Lemma decode_encode_transaction t e : transaction_kept t → encode_transaction t = Ok e → decode_transaction e = Ok t.
Proof.
  intros [Hp Hg Hc Hu Hf Hr]. unfold encode_transaction. rewrite bind_Ok. intros (p & Hep & H).
  apply bind_Ok in H as (c & Hec & H). apply bind_Ok in H as (u & Heu & H). apply bind_Ok in H as (f & Hef & H).
  apply bind_Ok in H as (r & Her & [= <-]). unfold decode_transaction. cbn.
  rewrite (proj2 (decode_encodeProto _ _ Hp Hep)), (decode_encode_optional _ _ Hc Hec), (decode_encode_optional _ _ Hu Heu),
    (decode_encode_optional _ _ Hf Hef). cbn. rewrite (proj2 (Z.eqb_neq _ _) Hg).
  assert (E : match r with Some r => Some <$> decode_receipt r | None => Ok None end = Ok (tr_ProviderReceipt t)).
  { destruct (tr_ProviderReceipt t) as [rc|]; [|by injection Her as <-]. destruct (encode_receipt rc) as [e|] eqn:Ee; [|done].
    injection Her as <-. by rewrite (decode_encode_receipt rc e Hr Ee). }
  rewrite E. cbn. by destruct t.
Qed.

(** One step of the decoder. *)
Lemma decoder_step {A B} (m : Decoder A) (k : A → Decoder B) s s' a :
  m s = (s', Ok a) → (@mbind Decoder decoder_bind _ _ k m) s = k a s'.
Proof using. intros E. unfold mbind, decoder_bind. by rewrite E. Qed.

(** A list field and a map field, filled from what they were encoded to. *)
Lemma fills_list {B C} (get : SchedulerState → list B) upd (dec : C → Result PersistenceError B) body (enc : B → Result PersistenceError C) l l' s :
  (∀ v s, get (upd v s) = v) → (∀ v w s, upd v (upd w s) = upd v s) → (∀ s, upd (get s) s = s) →
  (∀ x b s, dec x = Ok b → body x s = (upd (get s ++ [b]) s, Ok tt)) →
  (∀ x y, x ∈ l → enc x = Ok y → dec y = Ok x) → mapM enc l = Ok l' → get s = [] →
  each body l' s = (upd l s, Ok tt).
Proof using.
  intros H1 H2 H3 Hb Hd He Hs. rewrite (each_list get upd dec body l' l s H1 H2 H3 Hb); [by rewrite Hs|]. by eapply mapM_roundtrip.
Qed.

Lemma fills_map {B C} (get : SchedulerState → gmap string B) upd (dec : C → Result PersistenceError B) body (enc : B → Result PersistenceError C) m m' s :
  (∀ v s, get (upd v s) = v) → (∀ v w s, upd v (upd w s) = upd v s) → (∀ s, upd (get s) s = s) →
  (∀ kv b s, dec kv.2 = Ok b → body kv s = (upd (<[kv.1 := b]> (get s)) s, Ok tt)) →
  (∀ k x y, m !! k = Some x → enc x = Ok y → dec y = Ok x) → map_result enc m = Ok m' → get s = ∅ →
  each body (map_to_list m') s = (upd m s, Ok tt).
Proof using. intros H1 H2 H3 Hb Hd He Hs. apply (each_map get upd dec body m' m s H1 H2 H3 Hb); [|done]. by eapply map_result_roundtrip. Qed.

(** A loop body: what is decoded goes into its field. *)
Ltac body H := unfold mbind, decoder_bind, part; rewrite H; reflexivity.

Lemma map_result_fmap {E A B} (f : A → B) (m : gmap string A) : map_result (E := E) (λ a, Ok (f a)) m = Ok (f <$> m).
Proof using.
  destruct (map_result_total (λ a, Ok (f a) : Result E B) m) as [m' Hm]; [intros; by eexists|]. rewrite Hm. f_equal.
  apply map_eq. intros k. pose proof (map_result_spec _ _ _ Hm k) as Hk. rewrite lookup_fmap.
  destruct (m !! k), (m' !! k); try done. cbn. congruence.
Qed.

(** Decoding what was encoded, into an empty state. *)
Lemma decode_encode_envelope st e : state_kept st → encodeCheckpoint st = Ok e → decode_envelope e empty_state = (st, Ok tt).
Proof.
  intros Hk. unfold encodeCheckpoint. rewrite bind_Ok. intros (snap & Hsnap & H).
  apply bind_Ok in H as (intents & Hintents & H). apply bind_Ok in H as (decisions & Hdecisions & H).
  apply bind_Ok in H as (results & Hresults & H). apply bind_Ok in H as (sandboxes & Hsandboxes & H).
  apply bind_Ok in H as (cursors & Hcursors & H). apply bind_Ok in H as (reservations & Hreservations & H).
  apply bind_Ok in H as (transactions & Htransactions & [= <-]). unfold decode_envelope. cbn -[each map_to_list].
  erewrite decoder_step by done.
  set (s1 := empty_state <| ss_Snapshot := ss_Snapshot st |>).
  erewrite (decoder_step _ _ _ s1); cycle 1.
  { pose proof (decode_encode_optional _ _ (kept_snapshot _ Hk) Hsnap) as Hd. unfold decode_optional in Hd. unfold s1.
    case_bool_decide as Hempty; [by injection Hd as <-|]. destruct (decodeProto snap) as [x|]; [|done]. injection Hd as <-. done. }
  erewrite decoder_step by done.
  erewrite decoder_step; [|eapply (fills_map ss_Intents (λ v s, s <| ss_Intents := v |>) decodeProto _ encodeProto (ss_Intents st)); 
    [done..|by intros []|intros kv b s Hd; body Hd
     |intros k x y Hx Hy; by destruct (decode_encodeProto x y (kept_intents _ Hk k x Hx) Hy)|exact Hintents|done]].
  erewrite decoder_step; [|eapply (fills_list ss_Decisions (λ v s, s <| ss_Decisions := v |>) decodeProto _ encodeProto (ss_Decisions st));
    [done..|by intros []|intros x b s Hd; body Hd
     |intros x y Hx Hy; pose proof (kept_decisions _ Hk) as Hf; rewrite Forall_forall in Hf; by destruct (decode_encodeProto x y (Hf x Hx) Hy)
     |exact Hdecisions|done]].
  erewrite decoder_step; [|eapply (fills_list ss_ActionResults (λ v s, s <| ss_ActionResults := v |>) (λ e, Some <$> decodeProto e) _ encode_pointer (ss_ActionResults st));
    [done..|by intros []|intros x b s Hd; destruct (decodeProto x) as [d|] eqn:Ed; [by injection Hd as <-|done]
     |intros x y Hx Hy; pose proof (kept_results _ Hk) as Hf; rewrite Forall_forall in Hf; destruct (Hf x Hx); by apply decode_encode_pointer
     |exact Hresults|done]].
  erewrite decoder_step; [|eapply (fills_list ss_ProjectedSandboxes (λ v s, s <| ss_ProjectedSandboxes := v |>) (λ e, Some <$> decodeProto e) _ encode_pointer (ss_ProjectedSandboxes st));
    [done..|by intros []|intros x b s Hd; destruct (decodeProto x) as [d|] eqn:Ed; [by injection Hd as <-|done]
     |intros x y Hx Hy; pose proof (kept_sandboxes _ Hk) as Hf; rewrite Forall_forall in Hf; destruct (Hf x Hx); by apply decode_encode_pointer
     |exact Hsandboxes|done]].
  erewrite decoder_step by done.
  erewrite decoder_step; [|eapply (fills_map ss_SandboxCursors (λ v s, s <| ss_SandboxCursors := v |>) decode_sandbox_cursor _ encode_sandbox_cursor (ss_SandboxCursors st));
    [done..|by intros []|intros kv b s Hd; body Hd
     |intros k x y Hx Hy; by apply (decode_encode_cursor x y (kept_cursors _ Hk k x Hx))|exact Hcursors|done]].
  erewrite decoder_step; [|case_bool_decide; reflexivity].
  erewrite decoder_step; [|eapply (fills_map ss_Protection (λ v s, s <| ss_Protection := v |>) decode_protection _ (λ e, Ok (encode_protection e)) (ss_Protection st));
    [done..|by intros []|intros kv b s Hd; body Hd
     |intros k x y Hx [= <-]; by apply (decode_encode_protection x), (kept_protection _ Hk k x Hx)|apply map_result_fmap|done]].
  erewrite decoder_step by done.
  erewrite decoder_step; [|eapply (fills_list ss_Reservations (λ v s, s <| ss_Reservations := v |>) decode_reservation _ encode_reservation (ss_Reservations st));
    [done..|by intros []|intros x b s Hd; body Hd
     |intros x y Hx Hy; pose proof (kept_reservations _ Hk) as Hf; rewrite Forall_forall in Hf; by apply (decode_encode_reservation x y (Hf x Hx))
     |exact Hreservations|done]].
  erewrite (fills_list ss_Transactions (λ v s, s <| ss_Transactions := v |>) decode_transaction _ encode_transaction (ss_Transactions st));
    [|done..|by intros []|intros x b s Hd; body Hd
     |intros x y Hx Hy; pose proof (kept_transactions _ Hk) as Hf; rewrite Forall_forall in Hf; by apply (decode_encode_transaction x y (Hf x Hx))
     |exact Htransactions|done].
  assert (Hrc : decode_resource_cursor <$> (encode_resource_cursor <$> ss_ResourceCursors st) = ss_ResourceCursors st).
  { apply map_eq. intros k. rewrite !lookup_fmap. by destruct (ss_ResourceCursors st !! k) as [[]|]. }
  unfold s1, empty_state. rewrite Hrc. by destruct st.
Qed.

(** ** Saves, failures and restarts *)

Section Restarts.
Context (json_Marshal : checkpointEnvelope → Result string string) (json_Unmarshal : string → Result string checkpointEnvelope).
Context `{!ProtoMessage GetSnapshotResponse} (json_Unmarshal_cursor : string → Result string Z).

Definition json_reads_back (e : checkpointEnvelope) : Prop := ∀ payload, json_Marshal e = Ok payload → json_Unmarshal payload = Ok e.

Definition savable (st : SchedulerState) : Prop := state_kept st ∧ ∀ e, encodeCheckpoint st = Ok e → json_reads_back e.

Lemma saved_payload st e payload :
  savable st → encodeCheckpoint st = Ok e → json_Marshal e = Ok payload → decodeCheckpoint json_Unmarshal payload empty_state = (st, Ok tt).
Proof using. intros [Hk Hj] He Hp. unfold decodeCheckpoint. rewrite (Hj e He payload Hp). by apply decode_encode_envelope. Qed.

(** What a save leaves: the new checkpoint, or the files as they were. *)
Lemma SaveCheckpoint_files sf jf st r r' err :
  savable st → SaveCheckpoint json_Marshal sf jf st r = (r', err) →
  (∃ payload, checkpoint_file r' = Some payload ∧ payload ≠ "" ∧ decodeCheckpoint json_Unmarshal payload empty_state = (st, Ok tt)) ∨
  (err ≠ None ∧ r' = r).
Proof using.
  intros Hs. unfold SaveCheckpoint. destruct (checkpointJournalRecords st); [|by intros [= <- <-]; right].
  destruct (ValidateJournalReplacement _); [|by intros [= <- <-]; right].
  destruct (encodeCheckpoint st) as [e|] eqn:He; [|by intros [= <- <-]; right].
  destruct (json_Marshal e) as [payload|] eqn:Hp; [|by intros [= <- <-]; right].
  unfold SavePayload. case_bool_decide as Hne; [intros [= <- <-]; right; by destruct r|].
  assert (Hd := saved_payload st e payload Hs He Hp).
  destruct sf as [[]|]; intros [= <- <-]; [right; by destruct r|left; by exists payload|left; by exists payload].
Qed.

Record SaveHistory := mkSaveHistory { sh_now : Repository; sh_acknowledged : SchedulerState; sh_refused : list SchedulerState }.

Definition fresh_repository : SaveHistory := mkSaveHistory (mkRepository None []) empty_state [].

Inductive save_step (h : SaveHistory) : SaveHistory → Prop :=
| step_saved sf jf st r : savable st → SaveCheckpoint json_Marshal sf jf st (sh_now h) = (r, None) → save_step h (mkSaveHistory r st [])
| step_refused sf jf st r e :
    savable st → SaveCheckpoint json_Marshal sf jf st (sh_now h) = (r, Some e) →
    save_step h (mkSaveHistory r (sh_acknowledged h) (st :: sh_refused h)).

Definition checkpoint_on_disk (h : SaveHistory) : Prop :=
  match checkpoint_file (sh_now h) with
  | None => sh_acknowledged h = empty_state ∧ journal_file (sh_now h) = []
  | Some payload => payload ≠ "" ∧ ∃ st, decodeCheckpoint json_Unmarshal payload empty_state = (st, Ok tt) ∧
      (st = sh_acknowledged h ∨ st ∈ sh_refused h)
  end.

Lemma save_step_disk h h' : checkpoint_on_disk h → save_step h h' → checkpoint_on_disk h'.
Proof using.
  intros Hd Hs. destruct Hs as [sf jf st r Hst He|sf jf st r e Hst He];
    destruct (SaveCheckpoint_files _ _ _ _ _ _ Hst He) as [(payload & Hf & Hne & Hp)|[Hn ->]]; unfold checkpoint_on_disk; cbn.
  - rewrite Hf. split; [done|]. exists st. split; [done|by left].
  - done.
  - rewrite Hf. split; [done|]. exists st. split; [done|]. right. by left.
  - unfold checkpoint_on_disk in Hd. destruct (checkpoint_file (sh_now h)); [|done].
    destruct Hd as (Hne & st' & Hp & Hin). split; [done|]. exists st'. split; [done|]. destruct Hin; [by left|right; by right].
Qed.

(** C18: The checkpoint is never lost and never mixed.  Whatever saves succeeded, failed before
    or after the new file was in place, or were refused, a restart recovers exactly the state
    of the last save that was acknowledged, or of one that was refused since then; every part
    of it: snapshot, intents, decisions, cursors, reservations, transactions, protection. *)
Theorem restart_recovers_checkpoint h :
  rtc save_step fresh_repository h →
  ∃ st, Recover json_Unmarshal json_Unmarshal_cursor (sh_now h) = Ok st ∧ (st = sh_acknowledged h ∨ st ∈ sh_refused h).
Proof using.
  intros Hr. assert (Hd : checkpoint_on_disk h).
  { assert (H0 : checkpoint_on_disk fresh_repository) by done. revert H0. induction Hr; eauto using save_step_disk. }
  unfold checkpoint_on_disk in Hd. unfold Recover. destruct (checkpoint_file (sh_now h)) as [payload|].
  - destruct Hd as (Hne & st & Hp & Hin). exists st. split; [|done]. destruct payload; [done|]. cbn [LoadPayload mbind Result_bind]. by rewrite Hp.
  - destruct Hd as [-> Hj]. exists empty_state. split; [|by left]. cbn [LoadPayload mbind Result_bind]. unfold replay_journal. rewrite Hj. done.
Qed.

(** ** A store across a restart *)

Lemma restored_captured r : restored_reservation (capture_reservation r) = r.
Proof using. by destruct r. Qed.

Lemma insert_all_injective {A B} (key : A → string) (f : A → B) l : ∀ m k x,
  (∀ a b, a ∈ l → b ∈ l → key a = key b → a = b) →
  insert_all key f m l !! k = Some x ↔ (∃ a, a ∈ l ∧ key a = k ∧ f a = x) ∨ (m !! k = Some x ∧ ∀ a, a ∈ l → key a ≠ k).
Proof using.
  induction l as [|a l IH]; intros m k x Hinj; [cbn|change (insert_all key f m (a :: l)) with (insert_all key f (<[key a := f a]> m) l)].
  - split; [intros H; right; split; [done|]; by intros ? ?%elem_of_nil|]. intros [(? & []%elem_of_nil & _)|[? _]]; done.
  - rewrite IH by (intros b c Hb Hc; apply Hinj; by right). rewrite lookup_insert_Some. split.
    + intros [(b & Hb & Hk & Hf)|[[[Hk Hx]|[Hne Hm]] Hn]].
      * left. exists b. split; [by right|done].
      * left. exists a. split; [by left|done].
      * right. split; [done|]. intros b [->|Hb]%elem_of_cons; [done|by apply Hn].
    + intros [(b & [->|Hb]%elem_of_cons & Hk & Hf)|[Hm Hn]].
      * destruct (decide (Exists (λ c, key c = k) l)) as [He|He].
        -- left. apply Exists_exists in He as (c & Hc & Hck). exists c. split; [done|]. split; [done|].
           rewrite (Hinj c a); [done|by right|by left|congruence].
        -- right. split; [by left|]. intros c Hc Hck. apply He, Exists_exists. by exists c.
      * left. by exists b.
      * right. split; [right; split; [apply Hn; by left|done]|]. intros b Hb. apply Hn. by right.
Qed.

Lemma capture_intents_all l : capture_intents (Some <$> l) = insert_all (λ i, checkpoint_key (in_execution_id i) (in_stage_id i)) (λ i, i) ∅ l.
Proof using. unfold capture_intents, insert_all. generalize (∅ : gmap string SchedulingIntent). induction l as [|i l IH]; intros m; [done|]. apply IH. Qed.

Lemma checkpoint_key_inj e1 s1 e2 s2 :
  sep_free zero e1 → sep_free zero e2 → checkpoint_key e1 s1 = checkpoint_key e2 s2 → e1 = e2 ∧ s1 = s2.
Proof using.
  intros H1 H2 H. unfold checkpoint_key in H. apply (f_equal (λ s, Cut s zero)) in H. rewrite !Cut_app in H by done. by injection H.
Qed.


End Restarts.

End Kept.
