(* ===== verification/CheckpointWitnesses.v ===== *)
(** * The checkpoint's theorems at a concrete store

    The wire form of each message and the text of an envelope are toys that read back the
    messages of this store. *)

From Stdlib Require Import ZArith Lia Ascii.
From S2P Require Import Prelude GoBytes GoStrings GoTime GoTimeText GoFloat GoBase64 Journal Protection SemVer Semantics ComponentRegistry Evaluator ClusterModel SchedulerState Mutation Preemption Reservation Transaction Intents Projection ProviderEvents DurableState DurableProofs StoreWitnesses SchedulerCore Checkpoint CheckpointProofs.
From stdpp Require Import options.

Local Open Scope Z_scope.

Module CheckpointWitnesses.
Import StoreWitnesses.StoreWitnesses.

Definition toy {A} (a : A) : ProtoMessage A := Build_ProtoMessage A (λ _, Ok "m") (λ _, Ok a).
Definition mute {A} : ProtoMessage A := Build_ProtoMessage A (λ _, Ok "m") (λ _, Err "not used").

Lemma toy_reads_back {A} (a : A) : @reads_back A (toy a) a.
Proof. intros wire [= <-]. done. Qed.

Definition decision : DecisionRecord :=
  mkRecord "decision-1" 1 "e" "s" 1 7 [] [] None f1 true "no capacity" DATA_KIND_SYNTHETIC "rev" None "policy" 0 "config" "run" "trace" "" 1 "" "j"
    Semantics.TICK_KIND_FAST (Semantics.mkEvaluationContext Semantics.TICK_KIND_FAST None 1 "" 7 None false) [] 0 0 false [] [] 0 false.

Definition guard : Guard := (CommitN (NewGuard example_config) (seconds 5) "e/s" f1 1).1.

#[local] Instance proto_snapshot : ProtoMessage ClusterSnapshot := toy (st_snapshot s1).
#[local] Instance proto_intent : ProtoMessage SchedulingIntent := toy intent.
#[local] Instance proto_decision : ProtoMessage DecisionRecord := toy decision.
#[local] Instance proto_result : ProtoMessage ActionResult := mute.
#[local] Instance proto_sandbox : ProtoMessage Sandbox := toy (default ended (sandboxes (providerProjection s1) !! "x")).
#[local] Instance proto_timestamp : ProtoMessage Timestamp := toy (mkTimestamp 2 0).
#[local] Instance proto_plan : ProtoMessage PlacementPlan := mute.
#[local] Instance proto_unit : ProtoMessage PendingUnit := mute.
#[local] Instance proto_resources : ProtoMessage ResourceVector := mute.
#[local] Instance proto_response : ProtoMessage GetSnapshotResponse := mute.

Definition captured (cursor : Z) : SchedulerState := Capture (ExportDurableState s1) [decision] cursor (ExportState guard).

Definition envelope (cursor : Z) : checkpointEnvelope :=
  match encodeCheckpoint (captured cursor) with Ok e => e | Err _ => mkCheckpointEnvelope 0 "" ∅ [] [] 0 [] [] [] ∅ ∅ ∅ end.

Definition toy_Marshal (e : checkpointEnvelope) : Result string string := Ok (FormatUint (ce_Cursor e)).
Definition toy_Unmarshal (payload : string) : Result string checkpointEnvelope := if bool_decide (payload = "1") then Ok (envelope 1) else Ok (envelope 2).
Definition toy_cursor (payload : string) : Result string Z := Err "not used".

Lemma parts_of_captured cursor :
  map_to_list (ss_Intents (captured cursor)) = [(checkpoint_key "e" "s", intent)] ∧
  ss_ProjectedSandboxes (captured cursor) = [sandboxes (providerProjection s1) !! "x"] ∧
  map_to_list (ss_SandboxCursors (captured cursor)) = [("x", mkPSC 1 3 "ev1" "" (Some (mkTimestamp 2 0)) ["ev1"] [])] ∧
  map_to_list (ss_Protection (captured cursor)) = [("e/s", mkStateEntry (seconds 5) f1 (seconds 5) 1 0 zero_time)].
Proof. by vm_compute. Qed.

Lemma in_list {K A} `{Countable K} (m : gmap K A) k a (P : A → Prop) : map_to_list m = [(k, a)] → P a → map_Forall (λ _ x, P x) m.
Proof. intros Hm Ha k' a' Hk. apply elem_of_map_to_list in Hk. rewrite Hm in Hk. by apply list_elem_of_singleton in Hk as [= -> ->]. Qed.

Lemma captured_kept cursor : state_kept (captured cursor).
Proof.
  destruct (parts_of_captured cursor) as (Hi & Hs & Hc & Hp). split.
  - change (ss_Snapshot (captured cursor)) with (Some (st_snapshot s1)). cbn [optional_reads_back from_option].
    exact (toy_reads_back (st_snapshot s1)).
  - eapply (in_list _ _ _ reads_back); [exact Hi|]. exact (toy_reads_back intent).
  - apply Forall_singleton. exact (toy_reads_back decision).
  - by apply Forall_nil.
  - by apply Forall_nil.
  - by apply Forall_nil.
  - assert (E : sandboxes (providerProjection s1) !! "x" = Some (default ended (sandboxes (providerProjection s1) !! "x"))) by (by vm_compute).
    rewrite Hs, E. apply Forall_singleton. split; [by eexists|]. cbn [optional_reads_back from_option]. exact (toy_reads_back (default ended (sandboxes (providerProjection s1) !! "x"))).
  - eapply (in_list _ _ _ cursor_kept); [exact Hc|]. exact (toy_reads_back (mkTimestamp 2 0)).
  - eapply (in_list _ _ _ entry_kept); [exact Hp|].
    assert (Hs5 : seconds 5 = 5000000000) by done. assert (Hz : zero_time = -62135596800000000000) by done. assert (Hsec : Second = 1000000000) by done.
    unfold entry_kept, writable_time. cbn [LastAction WindowStart BreakerOpened]. rewrite Hs5, Hz, Hsec. lia.
Qed.

Lemma captured_savable cursor : cursor = 1 ∨ cursor = 2 → savable toy_Marshal toy_Unmarshal (captured cursor).
Proof.
  intros Hc. split; [apply captured_kept|]. intros e He payload [= <-].
  assert (E : envelope cursor = e) by (unfold envelope; by rewrite He). 
  assert (ce_Cursor e = cursor) as ->.
  { rewrite <-E. destruct Hc as [-> | ->]; by vm_compute. }
  destruct Hc as [-> | ->]; rewrite <-E; by vm_compute.
Qed.

(** Two saves: the first is acknowledged, the second fails once its file is in place. *)
Lemma restart_recovers_checkpoint_witness :
  let r1 := (SaveCheckpoint toy_Marshal None None (captured 1) (mkRepository None [])).1 in
  let r2 := (SaveCheckpoint toy_Marshal (Some FaultAfterRename) None (captured 2) r1).1 in
  ∃ st, Recover toy_Unmarshal toy_cursor r2 = Ok st ∧ (st = captured 1 ∨ st ∈ [captured 2]).
Proof.
  cbv zeta. set (r1 := (SaveCheckpoint toy_Marshal None None (captured 1) (mkRepository None [])).1).
  set (r2 := (SaveCheckpoint toy_Marshal (Some FaultAfterRename) None (captured 2) r1).1).
  assert (H1 : SaveCheckpoint toy_Marshal None None (captured 1) (mkRepository None []) = (r1, None)) by (by vm_compute).
  assert (H2 : SaveCheckpoint toy_Marshal (Some FaultAfterRename) None (captured 2) r1 = (r2, Some ErrCheckpointIO)) by (by vm_compute).
  apply (restart_recovers_checkpoint toy_Marshal toy_Unmarshal toy_cursor (mkSaveHistory r2 (captured 1) [captured 2])).
  eapply rtc_l; [eapply (step_saved _ _ _ None None (captured 1) r1); [apply captured_savable; by left|exact H1]|].
  eapply rtc_l; [eapply (step_refused _ _ _ (Some FaultAfterRename) None (captured 2) r2); [apply captured_savable; by right|exact H2]|].
  apply rtc_refl.
Defined.

End CheckpointWitnesses.
