(* ===== verification/JobModel.v ===== *)
(** * Jobs, runs and operations ([job-controller-go/lifecycle], [job-controller-go/compiler], [runtimeclient/manifest.go])

    The messages of the job controller, the states and commands of a run, and the pure
    functions that normalise a job, compile a run of it and derive the manifest the
    runtime is given.  SHA-256, the deterministic wire encoding of a job and the iteration
    order of a Go map are parameters.  Protobuf clones are values. *)

From Stdlib Require Import ZArith Lia String Ascii.
From stdpp Require Import base list strings gmap.
From S2P Require Import Prelude GoStrings GoTime Semantics ClusterModel Projection PhaseGraph Validation.
From stdpp Require Import options.

Local Open Scope Z_scope.

(** ** States and commands *)

Inductive JobState :=
| JOB_STATE_UNKNOWN | JOB_STATE_PENDING | JOB_STATE_RUNNING | JOB_STATE_PAUSED | JOB_STATE_SUCCEEDED
| JOB_STATE_FAILED | JOB_STATE_CANCELLED | JOB_STATE_UNNAMED (n : Z).

Inductive OperationType :=
| OPERATION_TYPE_UNKNOWN | OPERATION_TYPE_VALIDATE | OPERATION_TYPE_ADMIT | OPERATION_TYPE_START
| OPERATION_TYPE_PAUSE | OPERATION_TYPE_RESUME | OPERATION_TYPE_STOP | OPERATION_TYPE_RETRY
| OPERATION_TYPE_TERMINATE | OPERATION_TYPE_UNNAMED (n : Z).

Inductive OperationState :=
| OPERATION_STATE_UNKNOWN | OPERATION_STATE_PENDING | OPERATION_STATE_RUNNING | OPERATION_STATE_SUCCEEDED
| OPERATION_STATE_FAILED | OPERATION_STATE_CANCELLED | OPERATION_STATE_UNNAMED (n : Z).

Inductive ComponentHealth :=
| COMPONENT_HEALTH_UNKNOWN | COMPONENT_HEALTH_HEALTHY | COMPONENT_HEALTH_DEGRADED | COMPONENT_HEALTH_FAILED
| COMPONENT_HEALTH_PROGRESSING | COMPONENT_HEALTH_UNNAMED (n : Z).

Inductive JobEventType :=
| JOB_EVENT_TYPE_UNKNOWN | JOB_EVENT_TYPE_JOB_CREATED | JOB_EVENT_TYPE_JOB_ADMITTED | JOB_EVENT_TYPE_JOB_STARTED
| JOB_EVENT_TYPE_JOB_PAUSED | JOB_EVENT_TYPE_JOB_RESUMED | JOB_EVENT_TYPE_JOB_STOPPED | JOB_EVENT_TYPE_JOB_RETRIED
| JOB_EVENT_TYPE_JOB_TERMINATED | JOB_EVENT_TYPE_OPERATION_RECORDED | JOB_EVENT_TYPE_COMPONENT_CHANGED
| JOB_EVENT_TYPE_UNNAMED (n : Z).

Inductive JobRunState :=
| JOB_RUN_STATE_UNKNOWN | JOB_RUN_STATE_VALIDATING | JOB_RUN_STATE_ADMITTED | JOB_RUN_STATE_PREPARING
| JOB_RUN_STATE_RUNNING | JOB_RUN_STATE_PAUSED | JOB_RUN_STATE_STOPPED | JOB_RUN_STATE_SUCCEEDED
| JOB_RUN_STATE_FAILED | JOB_RUN_STATE_TERMINATED | JOB_RUN_STATE_WAITING | JOB_RUN_STATE_ADMITTING
| JOB_RUN_STATE_STARTING | JOB_RUN_STATE_PAUSING | JOB_RUN_STATE_RESUMING | JOB_RUN_STATE_STOPPING
| JOB_RUN_STATE_TERMINATING | JOB_RUN_STATE_RETRYING | JOB_RUN_STATE_UNNAMED (n : Z).

Inductive JobCommandType :=
| JOB_COMMAND_TYPE_UNKNOWN | JOB_COMMAND_TYPE_START | JOB_COMMAND_TYPE_PAUSE | JOB_COMMAND_TYPE_RESUME
| JOB_COMMAND_TYPE_STOP | JOB_COMMAND_TYPE_RETRY | JOB_COMMAND_TYPE_TERMINATE | JOB_COMMAND_TYPE_UNNAMED (n : Z).

#[export] Instance JobState_eq_dec : EqDecision JobState.
Proof. solve_decision. Defined.
#[export] Instance OperationType_eq_dec : EqDecision OperationType.
Proof. solve_decision. Defined.
#[export] Instance OperationState_eq_dec : EqDecision OperationState.
Proof. solve_decision. Defined.
#[export] Instance ComponentHealth_eq_dec : EqDecision ComponentHealth.
Proof. solve_decision. Defined.
#[export] Instance JobEventType_eq_dec : EqDecision JobEventType.
Proof. solve_decision. Defined.
#[export] Instance JobRunState_eq_dec : EqDecision JobRunState.
Proof. solve_decision. Defined.
#[export] Instance JobCommandType_eq_dec : EqDecision JobCommandType.
Proof. solve_decision. Defined.
#[export] Instance RolloutMode_eq_dec : EqDecision RolloutMode.
Proof. solve_decision. Defined.

(** [String] of the generated enums: the name, or the number of a value without one. *)
Definition OperationType_String (t : OperationType) : string :=
  match t with
  | OPERATION_TYPE_UNKNOWN => "OPERATION_TYPE_UNKNOWN" | OPERATION_TYPE_VALIDATE => "OPERATION_TYPE_VALIDATE"
  | OPERATION_TYPE_ADMIT => "OPERATION_TYPE_ADMIT" | OPERATION_TYPE_START => "OPERATION_TYPE_START"
  | OPERATION_TYPE_PAUSE => "OPERATION_TYPE_PAUSE" | OPERATION_TYPE_RESUME => "OPERATION_TYPE_RESUME"
  | OPERATION_TYPE_STOP => "OPERATION_TYPE_STOP" | OPERATION_TYPE_RETRY => "OPERATION_TYPE_RETRY"
  | OPERATION_TYPE_TERMINATE => "OPERATION_TYPE_TERMINATE" | OPERATION_TYPE_UNNAMED n => FormatInt n
  end.

Definition JobEventType_String (t : JobEventType) : string :=
  match t with
  | JOB_EVENT_TYPE_UNKNOWN => "JOB_EVENT_TYPE_UNKNOWN" | JOB_EVENT_TYPE_JOB_CREATED => "JOB_EVENT_TYPE_JOB_CREATED"
  | JOB_EVENT_TYPE_JOB_ADMITTED => "JOB_EVENT_TYPE_JOB_ADMITTED" | JOB_EVENT_TYPE_JOB_STARTED => "JOB_EVENT_TYPE_JOB_STARTED"
  | JOB_EVENT_TYPE_JOB_PAUSED => "JOB_EVENT_TYPE_JOB_PAUSED" | JOB_EVENT_TYPE_JOB_RESUMED => "JOB_EVENT_TYPE_JOB_RESUMED"
  | JOB_EVENT_TYPE_JOB_STOPPED => "JOB_EVENT_TYPE_JOB_STOPPED" | JOB_EVENT_TYPE_JOB_RETRIED => "JOB_EVENT_TYPE_JOB_RETRIED"
  | JOB_EVENT_TYPE_JOB_TERMINATED => "JOB_EVENT_TYPE_JOB_TERMINATED"
  | JOB_EVENT_TYPE_OPERATION_RECORDED => "JOB_EVENT_TYPE_OPERATION_RECORDED"
  | JOB_EVENT_TYPE_COMPONENT_CHANGED => "JOB_EVENT_TYPE_COMPONENT_CHANGED" | JOB_EVENT_TYPE_UNNAMED n => FormatInt n
  end.

Definition JobCommandType_String (c : JobCommandType) : string :=
  match c with
  | JOB_COMMAND_TYPE_UNKNOWN => "JOB_COMMAND_TYPE_UNKNOWN" | JOB_COMMAND_TYPE_START => "JOB_COMMAND_TYPE_START"
  | JOB_COMMAND_TYPE_PAUSE => "JOB_COMMAND_TYPE_PAUSE" | JOB_COMMAND_TYPE_RESUME => "JOB_COMMAND_TYPE_RESUME"
  | JOB_COMMAND_TYPE_STOP => "JOB_COMMAND_TYPE_STOP" | JOB_COMMAND_TYPE_RETRY => "JOB_COMMAND_TYPE_RETRY"
  | JOB_COMMAND_TYPE_TERMINATE => "JOB_COMMAND_TYPE_TERMINATE" | JOB_COMMAND_TYPE_UNNAMED n => FormatInt n
  end.

Definition JobRunState_String (s : JobRunState) : string :=
  match s with
  | JOB_RUN_STATE_UNKNOWN => "JOB_RUN_STATE_UNKNOWN" | JOB_RUN_STATE_VALIDATING => "JOB_RUN_STATE_VALIDATING"
  | JOB_RUN_STATE_ADMITTED => "JOB_RUN_STATE_ADMITTED" | JOB_RUN_STATE_PREPARING => "JOB_RUN_STATE_PREPARING"
  | JOB_RUN_STATE_RUNNING => "JOB_RUN_STATE_RUNNING" | JOB_RUN_STATE_PAUSED => "JOB_RUN_STATE_PAUSED"
  | JOB_RUN_STATE_STOPPED => "JOB_RUN_STATE_STOPPED" | JOB_RUN_STATE_SUCCEEDED => "JOB_RUN_STATE_SUCCEEDED"
  | JOB_RUN_STATE_FAILED => "JOB_RUN_STATE_FAILED" | JOB_RUN_STATE_TERMINATED => "JOB_RUN_STATE_TERMINATED"
  | JOB_RUN_STATE_WAITING => "JOB_RUN_STATE_WAITING" | JOB_RUN_STATE_ADMITTING => "JOB_RUN_STATE_ADMITTING"
  | JOB_RUN_STATE_STARTING => "JOB_RUN_STATE_STARTING" | JOB_RUN_STATE_PAUSING => "JOB_RUN_STATE_PAUSING"
  | JOB_RUN_STATE_RESUMING => "JOB_RUN_STATE_RESUMING" | JOB_RUN_STATE_STOPPING => "JOB_RUN_STATE_STOPPING"
  | JOB_RUN_STATE_TERMINATING => "JOB_RUN_STATE_TERMINATING" | JOB_RUN_STATE_RETRYING => "JOB_RUN_STATE_RETRYING"
  | JOB_RUN_STATE_UNNAMED n => FormatInt n
  end.

Definition ComponentHealth_String (h : ComponentHealth) : string :=
  match h with
  | COMPONENT_HEALTH_UNKNOWN => "COMPONENT_HEALTH_UNKNOWN" | COMPONENT_HEALTH_HEALTHY => "COMPONENT_HEALTH_HEALTHY"
  | COMPONENT_HEALTH_DEGRADED => "COMPONENT_HEALTH_DEGRADED" | COMPONENT_HEALTH_FAILED => "COMPONENT_HEALTH_FAILED"
  | COMPONENT_HEALTH_PROGRESSING => "COMPONENT_HEALTH_PROGRESSING" | COMPONENT_HEALTH_UNNAMED n => FormatInt n
  end.

Definition RuntimeState_String (s : RuntimeState) : string :=
  match s with
  | RUNTIME_STATE_UNKNOWN => "RUNTIME_STATE_UNKNOWN" | RUNTIME_STATE_REQUESTED => "RUNTIME_STATE_REQUESTED"
  | RUNTIME_STATE_BOUND => "RUNTIME_STATE_BOUND" | RUNTIME_STATE_RUNNING => "RUNTIME_STATE_RUNNING"
  | RUNTIME_STATE_PAUSED => "RUNTIME_STATE_PAUSED" | RUNTIME_STATE_SLEEPING => "RUNTIME_STATE_SLEEPING"
  | RUNTIME_STATE_FAILED => "RUNTIME_STATE_FAILED" | RUNTIME_STATE_TERMINATED => "RUNTIME_STATE_TERMINATED"
  | RUNTIME_STATE_VALIDATING => "RUNTIME_STATE_VALIDATING" | RUNTIME_STATE_COMPILING => "RUNTIME_STATE_COMPILING"
  | RUNTIME_STATE_PREPARING => "RUNTIME_STATE_PREPARING" | RUNTIME_STATE_STARTING => "RUNTIME_STATE_STARTING"
  | RUNTIME_STATE_PAUSING => "RUNTIME_STATE_PAUSING" | RUNTIME_STATE_RESUMING => "RUNTIME_STATE_RESUMING"
  | RUNTIME_STATE_CHECKPOINTING => "RUNTIME_STATE_CHECKPOINTING" | RUNTIME_STATE_STOPPING => "RUNTIME_STATE_STOPPING"
  | RUNTIME_STATE_TERMINATING => "RUNTIME_STATE_TERMINATING" | RUNTIME_STATE_UNNAMED n => FormatInt n
  end.

(** The generated maps from names to values hold the named values only. *)
Definition named_healths : list ComponentHealth :=
  [COMPONENT_HEALTH_UNKNOWN; COMPONENT_HEALTH_HEALTHY; COMPONENT_HEALTH_DEGRADED; COMPONENT_HEALTH_FAILED;
   COMPONENT_HEALTH_PROGRESSING].

Definition named_runtime_states : list RuntimeState :=
  [RUNTIME_STATE_UNKNOWN; RUNTIME_STATE_REQUESTED; RUNTIME_STATE_BOUND; RUNTIME_STATE_RUNNING; RUNTIME_STATE_PAUSED;
   RUNTIME_STATE_SLEEPING; RUNTIME_STATE_FAILED; RUNTIME_STATE_TERMINATED; RUNTIME_STATE_VALIDATING;
   RUNTIME_STATE_COMPILING; RUNTIME_STATE_PREPARING; RUNTIME_STATE_STARTING; RUNTIME_STATE_PAUSING;
   RUNTIME_STATE_RESUMING; RUNTIME_STATE_CHECKPOINTING; RUNTIME_STATE_STOPPING; RUNTIME_STATE_TERMINATING].

Definition value_of {A} (name : A → string) (named : list A) (s : string) : option A :=
  find (λ a, bool_decide (name a = s)) named.

Definition ComponentHealth_value : string → option ComponentHealth := value_of ComponentHealth_String named_healths.
Definition RuntimeState_value : string → option RuntimeState := value_of RuntimeState_String named_runtime_states.

(** ** Messages *)

Record FrameworkRuntimeSpec := mkRuntimeSpec {
  rt_framework : string;
  rt_framework_version : string;
  rt_execution_backend : string;
  rt_execution_backend_version : string;
  rt_trainer : string;
  rt_trainer_version : string;
  rt_rollout_engine : string;
  rt_rollout_engine_version : string;
  rt_image_digest : string;
  rt_compatibility_profile : string;
  rt_patch_set : list string;
  rt_command : list string;
  rt_args : list string;
  rt_environment : gmap string string;
  rt_working_directory : string;
  rt_artifact_uri : string;
  rt_annotations : gmap string string;
}.

#[export] Instance eta_FrameworkRuntimeSpec : Eta FrameworkRuntimeSpec := λ r,
  mkRuntimeSpec (rt_framework r) (rt_framework_version r) (rt_execution_backend r) (rt_execution_backend_version r)
    (rt_trainer r) (rt_trainer_version r) (rt_rollout_engine r) (rt_rollout_engine_version r) (rt_image_digest r)
    (rt_compatibility_profile r) (rt_patch_set r) (rt_command r) (rt_args r) (rt_environment r)
    (rt_working_directory r) (rt_artifact_uri r) (rt_annotations r).

Record RLTrainingJob := mkJob {
  jb_id : string;
  jb_display_name : string;
  jb_protocol_version : string;
  jb_algorithm : string;
  jb_runtime : option FrameworkRuntimeSpec;
  jb_execution_contract : option ContractMessage;
  jb_resources_per_unit : option ResourceVector;
  jb_required_capabilities : option CapabilitySet;
  jb_desired_units : Z;
  jb_priority : Z;
  jb_queue : string;
  jb_state : JobState;
  jb_created_at : option Timestamp;
  jb_labels : gmap string string;
  jb_rollout_mode : RolloutMode;
  jb_model_ref : string;
  jb_dataset_ref : string;
  jb_policy_ref : string;
  jb_data_kind : DataKind;
}.

#[export] Instance eta_RLTrainingJob : Eta RLTrainingJob := λ j,
  mkJob (jb_id j) (jb_display_name j) (jb_protocol_version j) (jb_algorithm j) (jb_runtime j) (jb_execution_contract j)
    (jb_resources_per_unit j) (jb_required_capabilities j) (jb_desired_units j) (jb_priority j) (jb_queue j) (jb_state j)
    (jb_created_at j) (jb_labels j) (jb_rollout_mode j) (jb_model_ref j) (jb_dataset_ref j) (jb_policy_ref j)
    (jb_data_kind j).

Record Operation := mkOperation {
  op_id : string;
  op_type : OperationType;
  op_state : OperationState;
  op_actor : string;
  op_reason : string;
  op_created_at : option Timestamp;
  op_completed_at : option Timestamp;
  op_error_code : string;
  op_error_message : string;
  op_job_id : string;
  op_run_id : string;
  op_trace_id : string;
  op_data_kind : DataKind;
  op_semantic_context : option Envelope;
  op_annotations : gmap string string;
  op_request_id : string;
  op_idempotency_key : string;
  op_sequence : Z;
  op_cursor : string;
}.

#[export] Instance eta_Operation : Eta Operation := λ o,
  mkOperation (op_id o) (op_type o) (op_state o) (op_actor o) (op_reason o) (op_created_at o) (op_completed_at o)
    (op_error_code o) (op_error_message o) (op_job_id o) (op_run_id o) (op_trace_id o) (op_data_kind o)
    (op_semantic_context o) (op_annotations o) (op_request_id o) (op_idempotency_key o) (op_sequence o) (op_cursor o).

Record ComponentStatus := mkStatus {
  cs_component : string;
  cs_health : ComponentHealth;
  cs_detail : string;
  cs_source : string;
  cs_revision : Z;
  cs_observed_at : option Timestamp;
  cs_annotations : gmap string string;
  cs_job_id : string;
  cs_run_id : string;
  cs_trace_id : string;
  cs_data_kind : DataKind;
  cs_semantic_context : option Envelope;
  cs_observed_runtime_state : RuntimeState;
  cs_converged : bool;
}.

#[export] Instance eta_ComponentStatus : Eta ComponentStatus := λ c,
  mkStatus (cs_component c) (cs_health c) (cs_detail c) (cs_source c) (cs_revision c) (cs_observed_at c)
    (cs_annotations c) (cs_job_id c) (cs_run_id c) (cs_trace_id c) (cs_data_kind c) (cs_semantic_context c)
    (cs_observed_runtime_state c) (cs_converged c).

Record JobRun := mkRun {
  rn_id : string;
  rn_job_id : string;
  rn_trace_id : string;
  rn_display_name : string;
  rn_job_state : JobState;
  rn_created_at : option Timestamp;
  rn_started_at : option Timestamp;
  rn_completed_at : option Timestamp;
  rn_attempt : Z;
  rn_runtime : option FrameworkRuntimeSpec;
  rn_execution_contract : option ContractMessage;
  rn_rollout_mode : RolloutMode;
  rn_data_kind : DataKind;
  rn_policy_version : string;
  rn_random_seed : Z;
  rn_component_status : list ComponentStatus;
  rn_operations : list Operation;
  rn_labels : gmap string string;
  rn_run_state : JobRunState;
  rn_cursor : string;
  rn_resources_per_unit : option ResourceVector;
  rn_required_capabilities : option CapabilitySet;
  rn_desired_units : Z;
  rn_priority : Z;
  rn_queue : string;
}.

#[export] Instance eta_JobRun : Eta JobRun := λ r,
  mkRun (rn_id r) (rn_job_id r) (rn_trace_id r) (rn_display_name r) (rn_job_state r) (rn_created_at r) (rn_started_at r)
    (rn_completed_at r) (rn_attempt r) (rn_runtime r) (rn_execution_contract r) (rn_rollout_mode r) (rn_data_kind r)
    (rn_policy_version r) (rn_random_seed r) (rn_component_status r) (rn_operations r) (rn_labels r) (rn_run_state r)
    (rn_cursor r) (rn_resources_per_unit r) (rn_required_capabilities r) (rn_desired_units r) (rn_priority r)
    (rn_queue r).

Record JobEvent := mkEvent {
  je_id : string;
  je_type : JobEventType;
  je_job_id : string;
  je_run_id : string;
  je_trace_id : string;
  je_occurred_at : option Timestamp;
  je_state : JobState;
  je_operation : option Operation;
  je_component_status : option ComponentStatus;
  je_detail : string;
  je_data_kind : DataKind;
  je_semantic_context : option Envelope;
  je_annotations : gmap string string;
  je_run_state : JobRunState;
  je_sequence : Z;
  je_cursor : string;
}.

#[export] Instance eta_JobEvent : Eta JobEvent := λ e,
  mkEvent (je_id e) (je_type e) (je_job_id e) (je_run_id e) (je_trace_id e) (je_occurred_at e) (je_state e)
    (je_operation e) (je_component_status e) (je_detail e) (je_data_kind e) (je_semantic_context e) (je_annotations e)
    (je_run_state e) (je_sequence e) (je_cursor e).

Record RuntimeArtifact := mkArtifact {
  ra_artifact_id : string;
  ra_kind : string;
  ra_uri : string;
  ra_digest : string;
  ra_attributes : gmap string string;
}.

Record RuntimeManifest := mkManifest {
  mf_manifest_id : string;
  mf_run_id : string;
  mf_job_id : string;
  mf_trace_id : string;
  mf_framework : string;
  mf_execution_backend : string;
  mf_trainer : string;
  mf_rollout_engine : string;
  mf_image_digests : list string;
  mf_patch_set : list string;
  mf_compatibility_profile : string;
  mf_annotations : gmap string string;
  mf_data_kind : DataKind;
  mf_execution_contract : ContractMessage;
  mf_resources_per_unit : option ResourceVector;
  mf_required_capabilities : option CapabilitySet;
  mf_desired_units : Z;
  mf_priority : Z;
  mf_queue : string;
  mf_rollout_mode : RolloutMode;
  mf_policy_version : string;
  mf_deterministic_seed : Z;
  mf_artifacts : list RuntimeArtifact;
  mf_command : list string;
  mf_args : list string;
  mf_environment : gmap string string;
  mf_working_directory : string;
}.

(** ** Errors: a gRPC status, or an error without one *)

Inductive Code :=
| Canceled | Unknown | InvalidArgument | DeadlineExceeded | NotFound | AlreadyExists | PermissionDenied
| ResourceExhausted | FailedPrecondition | Aborted | OutOfRange | Unimplemented | Internal | Unavailable | DataLoss
| Unauthenticated | CODE_UNNAMED (n : Z).

#[export] Instance Code_eq_dec : EqDecision Code.
Proof. solve_decision. Defined.

Record JobError := mkError { er_code : option Code; er_text : string }.

Definition status_error (c : Code) (text : string) : JobError := mkError (Some c) text.
Definition plain_error (text : string) : JobError := mkError None text.

Definition Code_String (c : Code) : string :=
  match c with
  | Canceled => "Canceled" | Unknown => "Unknown" | InvalidArgument => "InvalidArgument"
  | DeadlineExceeded => "DeadlineExceeded" | NotFound => "NotFound" | AlreadyExists => "AlreadyExists"
  | PermissionDenied => "PermissionDenied" | ResourceExhausted => "ResourceExhausted"
  | FailedPrecondition => "FailedPrecondition" | Aborted => "Aborted" | OutOfRange => "OutOfRange"
  | Unimplemented => "Unimplemented" | Internal => "Internal" | Unavailable => "Unavailable" | DataLoss => "DataLoss"
  | Unauthenticated => "Unauthenticated" | CODE_UNNAMED n => "Code(" +:+ FormatInt n +:+ ")"
  end.

(** [Error] of a status error and of a plain one. *)
Definition Error_text (e : JobError) : string :=
  match er_code e with
  | Some c => "rpc error: code = " +:+ Code_String c +:+ " desc = " +:+ er_text e
  | None => er_text e
  end.

(** ** The lifecycle of a run ([lifecycle/lifecycle.go]) *)

Definition InvalidTransitionError (command : string) (runState : JobRunState) : JobError :=
  status_error FailedPrecondition ("cannot " +:+ command +:+ " run in state " +:+ JobRunState_String runState).

Definition IsTerminalRunState (runState : JobRunState) : bool :=
  match runState with
  | JOB_RUN_STATE_STOPPED | JOB_RUN_STATE_SUCCEEDED | JOB_RUN_STATE_FAILED | JOB_RUN_STATE_TERMINATED => true
  | _ => false
  end.

Definition MapCommand (command : JobCommandType) : Result JobError (JobEventType * OperationType) :=
  match command with
  | JOB_COMMAND_TYPE_START => Ok (JOB_EVENT_TYPE_JOB_STARTED, OPERATION_TYPE_START)
  | JOB_COMMAND_TYPE_PAUSE => Ok (JOB_EVENT_TYPE_JOB_PAUSED, OPERATION_TYPE_PAUSE)
  | JOB_COMMAND_TYPE_RESUME => Ok (JOB_EVENT_TYPE_JOB_RESUMED, OPERATION_TYPE_RESUME)
  | JOB_COMMAND_TYPE_STOP => Ok (JOB_EVENT_TYPE_JOB_STOPPED, OPERATION_TYPE_STOP)
  | JOB_COMMAND_TYPE_RETRY => Ok (JOB_EVENT_TYPE_JOB_RETRIED, OPERATION_TYPE_RETRY)
  | JOB_COMMAND_TYPE_TERMINATE => Ok (JOB_EVENT_TYPE_JOB_TERMINATED, OPERATION_TYPE_TERMINATE)
  | _ => Err (status_error InvalidArgument "command must be set")
  end.

(** [JobStateFromRun], which the controller repeats as [stateFromRun]. *)
Definition JobStateFromRun (runState : JobRunState) : JobState :=
  match runState with
  | JOB_RUN_STATE_RUNNING => JOB_STATE_RUNNING
  | JOB_RUN_STATE_PAUSED => JOB_STATE_PAUSED
  | JOB_RUN_STATE_SUCCEEDED => JOB_STATE_SUCCEEDED
  | JOB_RUN_STATE_FAILED => JOB_STATE_FAILED
  | JOB_RUN_STATE_STOPPED | JOB_RUN_STATE_TERMINATED => JOB_STATE_CANCELLED
  | _ => JOB_STATE_PENDING
  end.

(** [mergeMaps]: the overlay wins. *)
Definition mergeMaps (base overlay : gmap string string) : gmap string string := overlay ∪ base.

(** ** The manifest of a run ([runtimeclient/manifest.go]) *)

Definition BuildManifest (run : JobRun) : Result JobError RuntimeManifest :=
  match rn_runtime run, rn_execution_contract run with
  | None, _ => Err (plain_error "runtimeclient: run.runtime is required")
  | Some _, None => Err (plain_error "runtimeclient: run.execution_contract is required")
  | Some r, Some contract =>
      let image := TrimSpace (rt_artifact_uri r) in
      Ok (mkManifest ("manifest-" +:+ rn_id run) (rn_id run) (rn_job_id run) (rn_trace_id run) (rt_framework r)
            (rt_execution_backend r) (rt_trainer r) (rt_rollout_engine r) [rt_image_digest r] (rt_patch_set r)
            (rt_compatibility_profile r) (mergeMaps (rt_annotations r) (rn_labels run)) (rn_data_kind run) contract
            (rn_resources_per_unit run) (rn_required_capabilities run) (rn_desired_units run) (rn_priority run)
            (rn_queue run) (rn_rollout_mode run) (rn_policy_version run) (rn_random_seed run)
            (if bool_decide (image = "") then [] else
             [mkArtifact ("workload-image:" +:+ rn_id run) "oci_image" image (rt_image_digest r)
                {[ "purpose" := "workload" ]}])
            (rt_command r) (rt_args r) (mergeMaps (rt_environment r) ∅) (rt_working_directory r))
  end.

(** ** The job compiler ([compiler/compiler.go]) *)

Definition ProtocolVersion : string := "v0.3".

(** [digestPattern]: [sha256:] and 64 lower-case hexadecimal digits. *)
Definition is_hex_lower (c : ascii) : bool := is_digit c || ((97 <=? code c) && (code c <=? 102)).

Definition digestPattern (s : string) : bool :=
  HasPrefix s "sha256:" &&
  (let rest := chars (TrimPrefix s "sha256:") in
   bool_decide (length rest = 64%nat) && forallb is_hex_lower rest).

Definition HasSuffix (s p : string) : bool :=
  String.prefix (String.rev p) (String.rev s).

Definition trim_runtime (r : FrameworkRuntimeSpec) : FrameworkRuntimeSpec :=
  r <| rt_framework := TrimSpace (rt_framework r) |>
    <| rt_framework_version := TrimSpace (rt_framework_version r) |>
    <| rt_execution_backend := TrimSpace (rt_execution_backend r) |>
    <| rt_execution_backend_version := TrimSpace (rt_execution_backend_version r) |>
    <| rt_trainer := TrimSpace (rt_trainer r) |>
    <| rt_trainer_version := TrimSpace (rt_trainer_version r) |>
    <| rt_rollout_engine := TrimSpace (rt_rollout_engine r) |>
    <| rt_rollout_engine_version := TrimSpace (rt_rollout_engine_version r) |>
    <| rt_image_digest := TrimSpace (rt_image_digest r) |>
    <| rt_artifact_uri := TrimSpace (rt_artifact_uri r) |>
    <| rt_patch_set := sort_strings (rt_patch_set r) |>.

Definition sort_capabilities (c : CapabilitySet) : CapabilitySet :=
  c <| names := sort_strings (names c) |> <| algorithms := sort_strings (algorithms c) |>
    <| rollout_modes := sort_strings (rollout_modes c) |> <| supported_actions := sort_strings (supported_actions c) |>.

(** [requiredPins] *)
Definition requiredPins (r : FrameworkRuntimeSpec) : list (string * string) :=
  [("framework", rt_framework r); ("framework_version", rt_framework_version r);
   ("execution_backend", rt_execution_backend r); ("execution_backend_version", rt_execution_backend_version r);
   ("trainer", rt_trainer r); ("trainer_version", rt_trainer_version r); ("rollout_engine", rt_rollout_engine r);
   ("rollout_engine_version", rt_rollout_engine_version r); ("image_digest", rt_image_digest r)].

Definition no_phases (c : ContractMessage) : bool :=
  match phase_graph c with Some g => bool_decide (phases g = []) | None => true end.

(** The hexadecimal digits of a digest as a number. *)
Definition hex_value (l : list ascii) : Z :=
  foldl (λ acc c, 16 * acc + (if is_digit c then code c - 48 else code c - 87)) 0 l.

Section Compiler.

(** SHA-256 in hexadecimal, the deterministic wire encoding of a job and the order in which
    Go walks a map of required fields. *)
Variable sha256_hex : string → string.
Variable job_wire : RLTrainingJob → string.
Variable map_order : list (string * string) → list (string * string).

(** [hashStrings] *)
Definition hashStrings (parts : list string) : string :=
  sha256_hex (foldr (λ p acc, p +:+ String "000" acc) "" parts).

(** [deterministicID] *)
Definition deterministicID (prefix : string) (parts : list string) : string :=
  prefix +:+ "-" +:+ substring 0 16 (hashStrings parts).

Definition deterministicProtoHash (j : RLTrainingJob) : string := sha256_hex (job_wire j).

Definition deterministicProtoID (prefix : string) (j : RLTrainingJob) : string :=
  prefix +:+ "-" +:+ substring 0 16 (deterministicProtoHash j).

(** The first eight bytes of the digest, big-endian. *)
Definition deterministicSeed (jobID : string) (attempt : Z) : Z :=
  hex_value (chars (substring 0 16 (sha256_hex (jobID +:+ String "000" (FormatUint attempt))))).

Definition runtime_diagnostics (r : FrameworkRuntimeSpec) : list string :=
  omap (λ '(field, value), if bool_decide (TrimSpace value = "") then Some ("runtime." +:+ field +:+ " is required") else None)
    (map_order (requiredPins r)) ++
  (if negb (bool_decide (rt_image_digest r = "")) && negb (digestPattern (rt_image_digest r))
   then ["runtime.image_digest must be an immutable sha256 digest"] else []) ++
  (if negb (bool_decide (rt_artifact_uri r = "")) &&
      (negb (HasSuffix (rt_artifact_uri r) ("@" +:+ rt_image_digest r)) || HasPrefix (rt_artifact_uri r) "@")
   then ["runtime.artifact_uri must be an immutable OCI image reference ending in @runtime.image_digest"] else []).

Definition ValidateJob (job : RLTrainingJob) : list string :=
  let need (b : bool) (d : string) := if b then [] else [d] in
  need (bool_decide (jb_protocol_version job = ProtocolVersion)) ("protocol_version must be " +:+ Quote id ProtocolVersion) ++
  need (negb (bool_decide (jb_display_name job = ""))) "display_name is required" ++
  need (negb (bool_decide (jb_algorithm job = ""))) "algorithm is required" ++
  need (negb (bool_decide (jb_rollout_mode job = ROLLOUT_MODE_UNKNOWN))) "rollout_mode must be set" ++
  need (negb (bool_decide (jb_data_kind job = DATA_KIND_UNKNOWN))) "data_kind must be set" ++
  match jb_resources_per_unit job with
  | None => ["resources_per_unit is required"]
  | Some r => need (negb (cpu_millis r =? 0)) "resources_per_unit.cpu_millis must be > 0" ++
              need (negb (memory_bytes r =? 0)) "resources_per_unit.memory_bytes must be > 0"
  end ++
  need (negb (jb_desired_units job =? 0)) "desired_units must be > 0" ++
  match jb_runtime job with
  | None => ["runtime is required"]
  | Some r => runtime_diagnostics r
  end ++
  match jb_execution_contract job with
  | None => ["execution_contract is required"]
  | Some c => need (negb (no_phases c)) "execution_contract.phase_graph must contain at least one phase"
  end.

Definition valid_timestamp (ts : option Timestamp) : bool :=
  match ts with Some t => Timestamp_valid t | None => false end.

(** What [NormalizeJob] trims and sorts before it validates. *)
Definition trim_job (job : RLTrainingJob) : RLTrainingJob :=
  job <| jb_display_name := TrimSpace (jb_display_name job) |>
      <| jb_protocol_version := TrimSpace (jb_protocol_version job) |>
      <| jb_algorithm := TrimSpace (jb_algorithm job) |>
      <| jb_queue := TrimSpace (jb_queue job) |>
      <| jb_model_ref := TrimSpace (jb_model_ref job) |>
      <| jb_dataset_ref := TrimSpace (jb_dataset_ref job) |>
      <| jb_policy_ref := TrimSpace (jb_policy_ref job) |>
      <| jb_runtime := trim_runtime <$> jb_runtime job |>
      <| jb_required_capabilities := sort_capabilities <$> jb_required_capabilities job |>.

Definition NormalizeJob (job : option RLTrainingJob) (now : Z) : option RLTrainingJob * list string :=
  match job with
  | None => (None, ["job is required"])
  | Some job =>
      let normalized := trim_job job in
      let diagnostics := ValidateJob normalized in
      let normalized := normalized <| jb_state := JOB_STATE_PENDING |> in
      let normalized := if valid_timestamp (jb_created_at normalized) then normalized
                        else normalized <| jb_created_at := Some (timestamp_New now) |> in
      let normalized :=
        if bool_decide (TrimSpace (jb_id normalized) = "") then
          let fingerprint := normalized <| jb_id := "" |> <| jb_created_at := None |> <| jb_state := JOB_STATE_UNKNOWN |> in
          normalized <| jb_id := deterministicProtoID "job" fingerprint |>
        else normalized <| jb_id := TrimSpace (jb_id normalized) |> in
      (Some normalized, diagnostics)
  end.

Definition NewRun (job : RLTrainingJob) (attempt : Z) (runState : JobRunState) (now : Z) : JobRun :=
  let runID := deterministicID "run" [jb_id job; FormatUint attempt; deterministicProtoHash job] in
  mkRun runID (jb_id job) (deterministicID "trace" [jb_id job; runID]) (jb_display_name job) (JobStateFromRun runState)
    (Some (timestamp_New now)) None None attempt (jb_runtime job) (jb_execution_contract job) (jb_rollout_mode job)
    (jb_data_kind job) (jb_policy_ref job) (deterministicSeed (jb_id job) attempt) [] []
    (mergeMaps (jb_labels job) {[ "controller.generation" := FormatUint attempt ]}) runState "" (jb_resources_per_unit job)
    (jb_required_capabilities job) (jb_desired_units job) (jb_priority job) (jb_queue job).

End Compiler.
