(* ===== verification/JobRepository.v ===== *)
(** * The repository of the job controller ([job-controller-go/state])

    Jobs, runs, operations, idempotency records and the event log in memory, with the
    watches of the log, and the repository that writes them to a file first.  An update
    runs on a copy, so here it is a function from the store to a new store.  The lock makes
    updates and views atomic.  A channel is on the heap and outlives the watch that feeds
    it: [channels] is that heap, keyed by the watch.  A file holds the value that was
    encoded; which values [encoding/gob] accepts is a parameter, and which step of a write
    fails is an argument. *)

From Stdlib Require Import ZArith Lia String Ascii.
From stdpp Require Import base list strings gmap.
From S2P Require Import Prelude GoStrings GoTime ClusterModel Projection Validation JobModel.
From stdpp Require Import options.

Local Open Scope Z_scope.

Definition defaultPageLimit : Z := 100.
Definition watchBufferSlack : nat := 32.

(** ** State *)

Record IdempotencyRecord := mkIdempotency {
  ir_Scope : string;
  ir_Key : string;
  ir_RequestHash : string;
  ir_OperationID : string;
  ir_JobID : string;
  ir_RunID : string;
}.

Record watcher := mkWatcher { wt_jobID : string; wt_runID : string }.

Inductive WatchTerminationReason := WatchTerminationConsumerLagged.

(** The two channels of a watch: events, and why it ended.  [ch_registered]: the pair is in
    the table [WatchResultFor] reads. *)
Record Channel := mkChannel {
  ch_buffer : list JobEvent;
  ch_capacity : nat;
  ch_closed : bool;
  ch_termination : option WatchTerminationReason;
  ch_termination_closed : bool;
  ch_registered : bool;
}.

#[export] Instance eta_Channel : Eta Channel := λ c,
  mkChannel (ch_buffer c) (ch_capacity c) (ch_closed c) (ch_termination c) (ch_termination_closed c) (ch_registered c).

Record MemoryRepository := mkRepository {
  jobs : gmap string RLTrainingJob;
  runs : gmap string (gmap string JobRun);
  operations : gmap string Operation;
  idempotency : gmap string IdempotencyRecord;
  log : list (Z * JobEvent);
  watchers : gmap Z watcher;
  channels : gmap Z Channel;
  nextSequence : Z;
  nextWatcherID : Z;
}.

#[export] Instance eta_MemoryRepository : Eta MemoryRepository := λ r,
  mkRepository (jobs r) (runs r) (operations r) (idempotency r) (log r) (watchers r) (channels r) (nextSequence r)
    (nextWatcherID r).

Definition NewMemoryRepository : MemoryRepository := mkRepository ∅ ∅ ∅ ∅ [] ∅ ∅ 0 0.

(** ** Pages ([repository_helpers.go]) *)

Section Queries.

(** [%q] of text that is not ASCII. *)
Variable unicode_quote : string → string.

Definition decodePageToken (pageToken : string) : Result JobError Z :=
  if bool_decide (pageToken = "") then Ok 0 else
  match Atoi pageToken with
  | Some v => if v <? 0 then Err (plain_error ("state: invalid page token " +:+ Quote unicode_quote pageToken)) else Ok v
  | None => Err (plain_error ("state: invalid page token " +:+ Quote unicode_quote pageToken))
  end.

Definition normalizeLimit (limit : Z) : Z :=
  if limit =? 0 then defaultPageLimit else if defaultPageLimit <? limit then defaultPageLimit else limit.

(** [start + limit] does not overflow: the start is within the list. *)
Definition paginate {T} (items : list T) (start limit : Z) : list T * string :=
  let n := Z.of_nat (length items) in
  if n <=? start then ([], "") else
  let stop := Z.min (start + limit) n in
  (take (Z.to_nat (stop - start)) (drop (Z.to_nat start) items), if stop <? n then FormatInt stop else "").

Definition offsetAfter {T} (items : list T) (afterID : string) (ident : T → string) : Z :=
  if bool_decide (afterID = "") then 0 else
  match list_find (λ i, ident i = afterID) items with
  | Some (index, _) => Z.of_nat index + 1
  | None => Z.of_nat (length items)
  end.

(** ** Queries ([repository_query.go]) *)

Definition by_time_less {T} (created : T → option Timestamp) : T → T → bool :=
  λ a b, AsTime (created a) <? AsTime (created b).

Definition job_less : RLTrainingJob → RLTrainingJob → bool :=
  lex_less (by_time_less jb_created_at) (λ a b, str_ltb (jb_id a) (jb_id b)).

Definition run_less : JobRun → JobRun → bool :=
  lex_less (λ a b, rn_attempt b <? rn_attempt a) (λ a b, str_ltb (rn_id b) (rn_id a)).

Definition operation_less : Operation → Operation → bool :=
  lex_less (by_time_less op_created_at) (λ a b, str_ltb (op_id a) (op_id b)).

Definition GetJob (r : MemoryRepository) (jobID : string) : option RLTrainingJob := jobs r !! jobID.

Definition ListJobs (r : MemoryRepository) (kind : DataKind) (limit : Z) (pageToken afterJobID : string) :
    Result JobError (list RLTrainingJob * string) :=
  let selected := filter (λ j, kind = DATA_KIND_UNKNOWN ∨ jb_data_kind j = kind) (map_to_list (jobs r)).*2 in
  let sorted := sort_by job_less selected in
  start ← decodePageToken pageToken;
  let start := if bool_decide (pageToken = "") then offsetAfter sorted afterJobID jb_id else start in
  Ok (paginate sorted start (normalizeLimit limit)).

Definition runs_of (r : MemoryRepository) (jobID : string) : gmap string JobRun := default ∅ (runs r !! jobID).

Definition GetRun (r : MemoryRepository) (jobID runID : string) : option JobRun := runs_of r jobID !! runID.

Definition ListRuns (r : MemoryRepository) (jobID : string) (limit : Z) (pageToken afterRunID : string) :
    Result JobError (list JobRun * string) :=
  let sorted := sort_by run_less (map_to_list (runs_of r jobID)).*2 in
  start ← decodePageToken pageToken;
  let start := if bool_decide (pageToken = "") then offsetAfter sorted afterRunID rn_id else start in
  Ok (paginate sorted start (normalizeLimit limit)).

(** The greatest of a list, the first of equals: how the loops keep [latest]. *)
Definition latest_by {T} (better : T → T → bool) (l : list T) : option T :=
  foldl (λ latest x, match latest with Some y => if better x y then Some x else Some y | None => Some x end) None l.

Definition later_run (run latest : JobRun) : bool :=
  (rn_attempt latest <? rn_attempt run) || ((rn_attempt run =? rn_attempt latest) && str_ltb (rn_id latest) (rn_id run)).

Definition GetLatestRun (r : MemoryRepository) (jobID : string) : option JobRun :=
  latest_by later_run (map_to_list (runs_of r jobID)).*2.

Definition GetOperation (r : MemoryRepository) (operationID : string) : option Operation := operations r !! operationID.

Definition wanted_operation (jobID runID : string) (opType : OperationType) (opState : OperationState) (o : Operation) : Prop :=
  (jobID = "" ∨ op_job_id o = jobID) ∧ (runID = "" ∨ op_run_id o = runID) ∧
  (opType = OPERATION_TYPE_UNKNOWN ∨ op_type o = opType) ∧ (opState = OPERATION_STATE_UNKNOWN ∨ op_state o = opState).

#[export] Instance wanted_operation_dec jobID runID opType opState o : Decision (wanted_operation jobID runID opType opState o).
Proof. unfold wanted_operation. apply _. Defined.

Definition with_cursor (o : Operation) : Operation :=
  if bool_decide (op_cursor o = "") then o <| op_cursor := op_id o |> else o.

Definition ListOperations (r : MemoryRepository) (jobID runID : string) (opType : OperationType) (opState : OperationState)
    (limit : Z) (pageToken : string) : Result JobError (list Operation * string) :=
  let selected := with_cursor <$> filter (wanted_operation jobID runID opType opState) (map_to_list (operations r)).*2 in
  let sorted := sort_by operation_less selected in
  start ← decodePageToken pageToken;
  Ok (paginate sorted start (normalizeLimit limit)).

Definition later_operation (o latest : Operation) : bool :=
  (AsTime (op_created_at latest) <? AsTime (op_created_at o)) ||
  ((AsTime (op_created_at o) =? AsTime (op_created_at latest)) && str_ltb (op_id latest) (op_id o)).

Definition GetLatestOperation (r : MemoryRepository) (jobID runID : string) (opType : OperationType) : option Operation :=
  latest_by later_operation
    (filter (λ o, op_type o = opType ∧ op_job_id o = jobID ∧ op_run_id o = runID) (map_to_list (operations r)).*2).

Definition idempotencyMapKey (scope key : string) : string := scope +:+ String "000" key.

Definition GetIdempotency (r : MemoryRepository) (scope key : string) : option IdempotencyRecord :=
  idempotency r !! idempotencyMapKey scope key.

(** ** The event log ([repository_watch.go]) *)

Definition matchesTarget (event : JobEvent) (jobID runID : string) : bool :=
  (bool_decide (jobID = "") || bool_decide (je_job_id event = jobID)) &&
  (bool_decide (runID = "") || bool_decide (je_run_id event = runID)).

Definition sequenceFloorLocked (r : MemoryRepository) (afterSequence : Z) (afterEventID : string) : Result JobError Z :=
  if bool_decide (afterEventID = "") then Ok afterSequence else
  match list_find (λ entry, je_id entry.2 = afterEventID) (log r) with
  | Some (_, entry) => Ok (if afterSequence <? entry.1 then entry.1 else afterSequence)
  | None => Err (plain_error ("state: event " +:+ Quote unicode_quote afterEventID +:+ " not found"))
  end.

Definition filteredEventsLocked (r : MemoryRepository) (jobID runID : string) (afterSequence : Z) : list (Z * JobEvent) :=
  filter (λ entry, afterSequence < entry.1 ∧ matchesTarget entry.2 jobID runID = true) (log r).

Definition ListEvents (r : MemoryRepository) (jobID runID afterEventID : string) (afterSequence limit : Z)
    (pageToken : string) : Result JobError (list JobEvent * string) :=
  sequenceFloor ← sequenceFloorLocked r afterSequence afterEventID;
  let events := (filteredEventsLocked r jobID runID sequenceFloor).*2 in
  start ← decodePageToken pageToken;
  Ok (paginate events start (normalizeLimit limit)).

(** The new watch's number and the repository with it: its channel holds the backlog. *)
Definition Watch (r : MemoryRepository) (jobID runID : string) (afterSequence : Z) (afterEventID : string) :
    Result JobError (Z * MemoryRepository) :=
  sequenceFloor ← sequenceFloorLocked r afterSequence afterEventID;
  let backlog := (filteredEventsLocked r jobID runID sequenceFloor).*2 in
  let watcherID := wrap64 (nextWatcherID r + 1) in
  let channel := mkChannel backlog (length backlog + watchBufferSlack) false None false true in
  Ok (watcherID, r <| nextWatcherID := watcherID |> <| watchers := <[watcherID := mkWatcher jobID runID]> (watchers r) |>
                   <| channels := <[watcherID := channel]> (channels r) |>).

End Queries.

Definition change_channel (r : MemoryRepository) (watcherID : Z) (f : Channel → Channel) : MemoryRepository :=
  r <| channels := alter f watcherID (channels r) |>.

(** The function [Watch] returns to end the watch. *)
Definition cancel (r : MemoryRepository) (watcherID : Z) : MemoryRepository :=
  let r := change_channel r watcherID (λ c, c <| ch_registered := false |>) in
  match watchers r !! watcherID with
  | Some _ =>
      change_channel (r <| watchers := delete watcherID (watchers r) |>) watcherID
        (λ c, c <| ch_closed := true |> <| ch_termination_closed := true |>)
  | None => r
  end.

(** A send that would block closes the watch instead, with the reason in its channel. *)
Definition deliverLocked (r : MemoryRepository) (item : Z * JobEvent) : MemoryRepository :=
  match watchers r !! item.1, channels r !! item.1 with
  | Some _, Some c =>
      if bool_decide (length (ch_buffer c) < ch_capacity c)%nat
      then change_channel r item.1 (λ c, c <| ch_buffer := ch_buffer c ++ [item.2] |>)
      else change_channel (r <| watchers := delete item.1 (watchers r) |>) item.1
             (λ c, c <| ch_termination := Some WatchTerminationConsumerLagged |> <| ch_termination_closed := true |>
                     <| ch_closed := true |>)
  | _, _ => r
  end.

(** A receive of the consumer: an event, the end of a closed channel, or it waits. *)
Inductive Received := Event (e : JobEvent) | Closed | Waits.

Definition receive (r : MemoryRepository) (watcherID : Z) : Received * MemoryRepository :=
  match channels r !! watcherID with
  | Some c =>
      match ch_buffer c with
      | e :: rest => (Event e, change_channel r watcherID (λ c, c <| ch_buffer := rest |>))
      | [] => (if ch_closed c then Closed else Waits, r)
      end
  | None => (Waits, r)
  end.

(** ** The store an update runs on ([repository_store.go]) *)

Record memoryStore := mkStore { repository : MemoryRepository; deliveries : list (Z * JobEvent) }.

#[export] Instance eta_memoryStore : Eta memoryStore := λ s, mkStore (repository s) (deliveries s).

Definition PutJob (job : RLTrainingJob) (s : memoryStore) : memoryStore :=
  s <| repository := (repository s) <| jobs := <[jb_id job := job]> (jobs (repository s)) |> |>.

Definition PutRun (run : JobRun) (s : memoryStore) : memoryStore :=
  s <| repository := (repository s)
         <| runs := <[rn_job_id run := <[rn_id run := run]> (runs_of (repository s) (rn_job_id run))]> (runs (repository s)) |> |>.

Definition PutOperation (operation : Operation) (s : memoryStore) : memoryStore :=
  s <| repository := (repository s)
         <| operations := <[op_id operation := with_cursor operation]> (operations (repository s)) |> |>.

Definition PutIdempotency (scope key : string) (record : IdempotencyRecord) (s : memoryStore) : memoryStore :=
  s <| repository := (repository s)
         <| idempotency := <[idempotencyMapKey scope key := record]> (idempotency (repository s)) |> |>.

(** What one event owes the watches there are. *)
Definition deliveries_of (ws : gmap Z watcher) (event : JobEvent) : list (Z * JobEvent) :=
  omap (λ '(watcherID, w), if matchesTarget event (wt_jobID w) (wt_runID w) then Some (watcherID, event) else None)
    (map_to_list ws).

Definition AppendEvent (event : JobEvent) (s : memoryStore) : memoryStore :=
  let r := repository s in
  let sequence := wrap64 (nextSequence r + 1) in
  let event := event <| je_sequence := sequence |> <| je_cursor := FormatUint sequence |> in
  mkStore (r <| nextSequence := sequence |> <| log := log r ++ [(sequence, event)] |>)
    (deliveries s ++ deliveries_of (watchers r) event).

(** ** Updates ([repository.go]) *)

(** A callback of an update: it reads and changes the store, or fails. *)
Definition StoreM (A : Type) : Type := memoryStore → Result JobError (A * memoryStore).

#[export] Instance StoreM_ret : MRet StoreM := λ A a s, Ok (a, s).
#[export] Instance StoreM_bind : MBind StoreM := λ A B k m s,
  match m s with Ok (a, s') => k a s' | Err e => Err e end.

Definition query {A} (q : MemoryRepository → A) : StoreM A := λ s, Ok (q (repository s), s).
Definition put (f : memoryStore → memoryStore) : StoreM unit := λ s, Ok (tt, f s).
Definition fail {A} (e : JobError) : StoreM A := λ _, Err e.

Definition View {A} (fn : MemoryRepository → A) (r : MemoryRepository) : A := fn r.

Definition Update {A} (fn : StoreM A) (r : MemoryRepository) : Result JobError A * MemoryRepository :=
  match fn (mkStore r []) with
  | Err e => (Err e, r)
  | Ok (a, s) => (Ok a, foldl deliverLocked (repository s) (deliveries s))
  end.

(** ** The file repository ([file_repository.go]) *)

Record persistedState := mkPersisted {
  ps_Jobs : gmap string RLTrainingJob;
  ps_Runs : gmap string (gmap string JobRun);
  ps_Operations : gmap string Operation;
  ps_Idempotency : gmap string IdempotencyRecord;
  ps_Events : list (Z * JobEvent);
  ps_NextSequence : Z;
}.

Record FileRepository := mkFileRepository {
  memory : MemoryRepository;
  journalFile : option persistedState;
  snapshotFile : option persistedState;
}.

#[export] Instance eta_FileRepository : Eta FileRepository := λ r,
  mkFileRepository (memory r) (journalFile r) (snapshotFile r).

Definition captureRepository (r : MemoryRepository) : persistedState :=
  mkPersisted (jobs r) (runs r) (operations r) (idempotency r) (log r) (nextSequence r).

(** Where a write of a file fails: before its rename, which leaves the old file, or when the
    directory is synced after it, which leaves the new one. *)
Inductive WriteFault := NoFault | FailsBefore (text : string) | FailsAfter (text : string).

Section Files.

(** What [gob.Encoder] accepts, and the error it gives otherwise. *)
Variable gob_encodable : persistedState → bool.
Variable gob_error : persistedState → string.

Definition atomicWriteGob (fault : WriteFault) (value : persistedState) (file : option persistedState) :
    Result JobError unit * option persistedState :=
  match fault with
  | FailsBefore text => (Err (plain_error text), file)
  | _ =>
      if negb (gob_encodable value) then (Err (plain_error (gob_error value)), file) else
      match fault with
      | FailsAfter text => (Err (plain_error text), Some value)
      | _ => (Ok tt, Some value)
      end
  end.

(** The journal is the authority; what becomes of the snapshot is not looked at. *)
Definition persist (journalFault snapshotFault : WriteFault) (value : persistedState) (r : FileRepository) :
    Result JobError unit * FileRepository :=
  let '(res, file) := atomicWriteGob journalFault value (journalFile r) in
  let r := r <| journalFile := file |> in
  match res with
  | Err e => (Err e, r)
  | Ok _ => (Ok tt, r <| snapshotFile := (atomicWriteGob snapshotFault value (snapshotFile r)).2 |>)
  end.

(** [replaceStateLocked]: the data, not the watches. *)
Definition replaceStateLocked (r working : MemoryRepository) : MemoryRepository :=
  r <| jobs := jobs working |> <| runs := runs working |> <| operations := operations working |>
    <| idempotency := idempotency working |> <| log := log working |> <| nextSequence := nextSequence working |>.

Definition FileUpdate {A} (journalFault snapshotFault : WriteFault) (fn : StoreM A) (r : FileRepository) :
    Result JobError A * FileRepository :=
  let working := (memory r) <| watchers := ∅ |> in
  let previousSequence := nextSequence (memory r) in
  match fn (mkStore working []) with
  | Err e => (Err e, r)
  | Ok (a, s) =>
      match persist journalFault snapshotFault (captureRepository (repository s)) r with
      | (Err e, r') => (Err e, r')
      | (Ok _, r') =>
          let live := replaceStateLocked (memory r) (repository s) in
          let due := filter (λ entry, previousSequence < entry.1) (log (repository s)) ≫=
                       λ entry, deliveries_of (watchers live) entry.2 in
          (Ok a, r' <| memory := foldl deliverLocked live due |>)
      end
  end.

(** [loadLatestState] *)
Definition loadLatestState (r : FileRepository) : option persistedState :=
  match journalFile r with Some p => Some p | None => snapshotFile r end.

(** [NewFileRepository] over the files of an earlier process: no watch survives. *)
Definition restore (r : FileRepository) : FileRepository :=
  let fresh := NewMemoryRepository in
  match loadLatestState r with
  | None => r <| memory := fresh |>
  | Some p =>
      r <| memory := fresh <| jobs := ps_Jobs p |> <| runs := ps_Runs p |> <| operations := ps_Operations p |>
                       <| idempotency := ps_Idempotency p |> <| log := ps_Events p |> <| nextSequence := ps_NextSequence p |> |>
  end.

End Files.
