(* ===== verification/JobStatus.v ===== *)
(** * Component statuses ([job-controller-go/status/status.go])

    Every source that observes a component of a run reports on its own; the aggregate keeps
    the latest report of each source in its annotations and shows the worst health.  The
    two maps the code walks are read by key, and the keys of a status do not interfere, so
    their order does not matter. *)

From Stdlib Require Import ZArith Lia String Ascii.
From stdpp Require Import base list strings gmap.
From S2P Require Import Prelude GoStrings GoTime GoTimeText ClusterModel Projection Validation JobModel.
From stdpp Require Import options.

Local Open Scope Z_scope.

Definition authoritativeRuntimeObservationSource : string := "runtime-observation".

Definition annotation (s : ComponentStatus) (key : string) : string := default "" (cs_annotations s !! key).

Definition healthRank (health : ComponentHealth) : Z :=
  match health with
  | COMPONENT_HEALTH_FAILED => 5
  | COMPONENT_HEALTH_DEGRADED => 4
  | COMPONENT_HEALTH_PROGRESSING => 3
  | COMPONENT_HEALTH_HEALTHY => 2
  | _ => 1
  end.

(** Both are there wherever this is asked, the current one perhaps not. *)
Definition isObservationNewer (candidate : ComponentStatus) (current : option ComponentStatus) : bool :=
  match current with
  | None => true
  | Some current =>
      if negb (cs_revision candidate =? cs_revision current) then cs_revision current <? cs_revision candidate
      else AsTime (cs_observed_at current) <? AsTime (cs_observed_at candidate)
  end.

Definition normalizeRuntimeSignal (s : ComponentStatus) : ComponentStatus :=
  if negb (bool_decide (cs_component s = "runtime")) then s
  else if negb (bool_decide (cs_observed_runtime_state s = RUNTIME_STATE_UNKNOWN)) then s
  else
    let rawState := TrimSpace (annotation s "runtime.state") in
    if bool_decide (rawState = "") then s else
    match RuntimeState_value rawState with
    | None => s
    | Some st =>
        let s := s <| cs_observed_runtime_state := st |> in
        let rawConverged := TrimSpace (annotation s "runtime.converged") in
        match (if bool_decide (rawConverged = "") then None else ParseBool rawConverged) with
        | Some b => s <| cs_converged := b |>
        | None => s
        end
    end.

(** ** Reading the observations of an aggregate *)

Definition new_observation (s : ComponentStatus) (source : string) : ComponentStatus :=
  mkStatus (cs_component s) COMPONENT_HEALTH_UNKNOWN "" source 0 None ∅ (cs_job_id s) (cs_run_id s) (cs_trace_id s)
    (cs_data_kind s) (cs_semantic_context s) RUNTIME_STATE_UNKNOWN false.

Definition set_observed (field value : string) (o : ComponentStatus) : ComponentStatus :=
  if bool_decide (field = "health") then
    match ComponentHealth_value value with Some h => o <| cs_health := h |> | None => o end
  else if bool_decide (field = "detail") then o <| cs_detail := value |>
  else if bool_decide (field = "revision") then o <| cs_revision := default 0 (ScanUint value) |>
  else if bool_decide (field = "observed_at") then
    match ParseRFC3339 value with Some t => o <| cs_observed_at := Some (timestamp_New t) |> | None => o end
  else if bool_decide (field = "runtime_state") then
    match RuntimeState_value value with Some st => o <| cs_observed_runtime_state := st |> | None => o end
  else if bool_decide (field = "runtime_converged") then
    match ParseBool value with Some b => o <| cs_converged := b |> | None => o end
  else o.

Definition parse_annotation (s : ComponentStatus) (key value : string) (observations : gmap string ComponentStatus) :
    gmap string ComponentStatus :=
  if negb (HasPrefix key "observation.") then observations else
  match Split key "." with
  | [_; source; field] =>
      let current := default (new_observation s source) (observations !! source) in
      <[source := set_observed field value current]> observations
  | _ => observations
  end.

Definition parseObservationAnnotations (s : ComponentStatus) : gmap string ComponentStatus :=
  map_fold (parse_annotation s) ∅ (cs_annotations s).

(** ** Merging an observation *)

(** The observations kept for a component: a later status wins. *)
Definition known_observations (existing : list ComponentStatus) (component : string) : gmap string ComponentStatus :=
  foldl (λ known s, if bool_decide (cs_component s = component) then parseObservationAnnotations s ∪ known else known)
    ∅ existing.

Definition named_source (incoming : ComponentStatus) : ComponentStatus :=
  normalizeRuntimeSignal (incoming <| cs_source := if bool_decide (cs_source incoming = "") then "unknown" else cs_source incoming |>).

Definition observe (known : gmap string ComponentStatus) (incoming : ComponentStatus) : gmap string ComponentStatus :=
  if isObservationNewer incoming (known !! cs_source incoming) then <[cs_source incoming := incoming]> known else known.

Definition observation_key (source field : string) : string := "observation." +:+ source +:+ "." +:+ field.

(** What the aggregate writes down of one observation. *)
Definition observation_annotations (source : string) (o : ComponentStatus) : gmap string string :=
  let base : gmap string string :=
    <[observation_key source "health" := ComponentHealth_String (cs_health o)]>
    (<[observation_key source "detail" := cs_detail o]>
    (<[observation_key source "revision" := FormatUint (cs_revision o)]>
    {[ observation_key source "observed_at" := FormatRFC3339Nano (AsTime (cs_observed_at o)) ]})) in
  if bool_decide (cs_observed_runtime_state o = RUNTIME_STATE_UNKNOWN) then base else
  <[observation_key source "runtime_state" := RuntimeState_String (cs_observed_runtime_state o)]>
  (<[observation_key source "runtime_converged" := FormatBool (cs_converged o)]> base).

Definition observation_detail (source : string) (o : ComponentStatus) : string :=
  let detail := TrimSpace (cs_detail o) in
  source +:+ "=" +:+ (if bool_decide (detail = "") then ComponentHealth_String (cs_health o) else detail).

Definition later_time (aggregated observed : option Timestamp) : option Timestamp :=
  match aggregated with
  | None => observed
  | Some _ => if AsTime aggregated <? AsTime observed then observed else aggregated
  end.

(** One turn of the loop over the sources. *)
Definition fold_observation (aggregated : ComponentStatus) (entry : string * ComponentStatus) : ComponentStatus :=
  let '(source, o) := entry in
  let o := normalizeRuntimeSignal o in
  aggregated
    <| cs_health := if healthRank (cs_health aggregated) <? healthRank (cs_health o) then cs_health o else cs_health aggregated |>
    <| cs_revision := if cs_revision aggregated <? cs_revision o then cs_revision o else cs_revision aggregated |>
    <| cs_observed_at := later_time (cs_observed_at aggregated) (cs_observed_at o) |>
    <| cs_annotations := observation_annotations source o ∪ cs_annotations aggregated |>.

(** [latestRuntimeSignalObservation]: the authoritative source, when it has seen a state. *)
Definition runtime_signal (entries : list (string * ComponentStatus)) : option ComponentStatus :=
  foldl (λ latest '(source, o),
    let o := normalizeRuntimeSignal o in
    if bool_decide (cs_observed_runtime_state o ≠ RUNTIME_STATE_UNKNOWN) &&
       bool_decide (source = authoritativeRuntimeObservationSource) && isObservationNewer o latest
    then Some o else latest) None entries.

Definition show_signal (aggregated : ComponentStatus) (signal : option ComponentStatus) : ComponentStatus :=
  match signal with
  | None => aggregated
  | Some o =>
      aggregated <| cs_observed_runtime_state := cs_observed_runtime_state o |> <| cs_converged := cs_converged o |>
        <| cs_annotations :=
             <["runtime.converged" := FormatBool (cs_converged o)]>
             (<["runtime.state" := RuntimeState_String (cs_observed_runtime_state o)]>
             (<["runtime.source" := cs_source o]> (cs_annotations aggregated))) |>
  end.

Definition by_source (known : gmap string ComponentStatus) : list (string * ComponentStatus) :=
  sort_by (λ a b, str_ltb a.1 b.1) (map_to_list known).

Definition MergeAggregatedStatus (existing : list ComponentStatus) (incoming : ComponentStatus) : ComponentStatus :=
  let component := cs_component incoming in
  let incoming := named_source incoming in
  let entries := by_source (observe (known_observations existing component) incoming) in
  let aggregated :=
    mkStatus component COMPONENT_HEALTH_UNKNOWN "" "aggregated" (cs_revision incoming) (cs_observed_at incoming) ∅
      (cs_job_id incoming) (cs_run_id incoming) (cs_trace_id incoming) (cs_data_kind incoming)
      (cs_semantic_context incoming) RUNTIME_STATE_UNKNOWN false in
  let aggregated := foldl fold_observation aggregated entries in
  let aggregated := show_signal aggregated (runtime_signal entries) in
  aggregated
    <| cs_detail := Join ((λ entry, observation_detail entry.1 (normalizeRuntimeSignal entry.2)) <$> entries) "; " |>
    <| cs_annotations :=
         <["observation.sources" := Join entries.*1 ","]>
         (<["observation.count" := FormatUint (Z.of_nat (length entries))]>
         (<["aggregation.strategy" := "retain-latest-per-source-worst-health"]> (cs_annotations aggregated))) |>.

Definition UpsertAggregatedStatus (existing : list ComponentStatus) (aggregated : ComponentStatus) : list ComponentStatus :=
  let result := (λ s, if bool_decide (cs_component s = cs_component aggregated) then aggregated else s) <$> existing in
  let replaced := existsb (λ s, bool_decide (cs_component s = cs_component aggregated)) existing in
  sort_by (λ a b, str_ltb (cs_component a) (cs_component b)) (if replaced then result else result ++ [aggregated]).
