(* ===== verification/JobLifecycle.v ===== *)
(** * How observations move a run ([controller/helpers.go], [controller/status_projection.go])

    The operations and events the controller records, and what a component status does to
    the run it reports on.  SHA-256 and Unicode case mapping are parameters, like the next
    number of the controller's sequence. *)

From Stdlib Require Import ZArith Lia String Ascii.
From stdpp Require Import base list strings gmap.
From S2P Require Import Prelude GoStrings GoTime GoTimeText ClusterModel Projection Validation JobModel JobStatus.
From stdpp Require Import options.

Local Open Scope Z_scope.

(** The operation replaces the one of its identifier, or is appended. *)
Definition appendOperation (existing : list Operation) (operation : Operation) : list Operation :=
  let output := (λ current, if bool_decide (op_id current = op_id operation) then operation else current) <$> existing in
  if existsb (λ current, bool_decide (op_id current = op_id operation)) existing then output else output ++ [operation].

(** [upsertAggregatedStatus(run.GetComponentStatus(), ...)] *)
Definition upsert_status (run : JobRun) (s : ComponentStatus) : JobRun :=
  run <| rn_component_status := UpsertAggregatedStatus (rn_component_status run) s |>.

Definition append_operation (run : JobRun) (operation : Operation) : JobRun :=
  run <| rn_operations := appendOperation (rn_operations run) operation |>.

Section Lifecycle.

Variable sha256_hex : string → string.
Variable unicode_upper : string → string.

(** ** Operations and events *)

(** An identity without an idempotency key gets the time and the sequence number. *)
Definition newOperation (opType : OperationType) (jobID runID actor reason requestID idempotencyKey : string)
    (kind : DataKind) (semantic : option Envelope) (now sequence : Z) : Operation :=
  let identityParts := [OperationType_String opType; jobID; runID; requestID; idempotencyKey; actor; reason] ++
    (if bool_decide (TrimSpace idempotencyKey = "") then [FormatRFC3339Nano now; FormatUint sequence] else []) in
  mkOperation (deterministicID sha256_hex "op" identityParts) opType OPERATION_STATE_SUCCEEDED (TrimSpace actor)
    (TrimSpace reason) (Some (timestamp_New now)) (Some (timestamp_New now)) "" "" jobID runID
    (deterministicID sha256_hex "trace" [jobID; runID; OperationType_String opType]) kind semantic ∅ requestID
    idempotencyKey 0
    (deterministicID sha256_hex "cursor" [jobID; runID; OperationType_String opType; requestID; idempotencyKey]).

(** Only [AppendEvent] numbers an event. *)
Definition newEvent (eventType : JobEventType) (job : RLTrainingJob) (run : option JobRun) (operation : option Operation)
    (component : option ComponentStatus) (detail : string) (now : Z) : JobEvent :=
  let runID := from_option rn_id "" run in
  let dataKind := if bool_decide (jb_data_kind job = DATA_KIND_UNKNOWN) then from_option rn_data_kind (jb_data_kind job) run
                  else jb_data_kind job in
  let traceID := from_option rn_trace_id "" run in
  let traceID := if bool_decide (traceID = "") then from_option op_trace_id traceID operation else traceID in
  let borrowed := bool_decide (traceID = "") in
  let traceID := if borrowed then from_option cs_trace_id traceID component else traceID in
  let semantic := if borrowed then component ≫= cs_semantic_context else None in
  let semantic := match semantic with Some _ => semantic | None => operation ≫= op_semantic_context end in
  mkEvent (deterministicID sha256_hex "event" [JobEventType_String eventType; jb_id job; runID; traceID; detail; FormatInt (swrap64 now)])
    eventType (jb_id job) runID traceID (Some (timestamp_New now)) (jb_state job) operation component detail dataKind
    semantic ∅ (from_option rn_run_state JOB_RUN_STATE_UNKNOWN run) 0 "".

(** ** The runtime's signal *)

Definition observedRuntimeState (s : ComponentStatus) : option RuntimeState :=
  if negb (bool_decide (cs_observed_runtime_state s = RUNTIME_STATE_UNKNOWN)) then Some (cs_observed_runtime_state s) else
  let raw := TrimSpace (annotation s "runtime.state") in
  match (if bool_decide (raw = "") then None else RuntimeState_value raw) with
  | Some st => Some st
  | None =>
      let raw := TrimSpace (cs_detail s) in
      if bool_decide (raw = "") then None else
      let candidate := ToUpper unicode_upper (TrimSpace raw) in
      let candidate := if HasPrefix candidate "RUNTIME_STATE_" then candidate else "RUNTIME_STATE_" +:+ candidate in
      RuntimeState_value candidate
  end.

(** The state and whether it is the desired one, of the authoritative source only. *)
Definition authoritativeRuntimeSignal (aggregated : ComponentStatus) : option (RuntimeState * bool) :=
  if negb (bool_decide (TrimSpace (annotation aggregated "runtime.source") = authoritativeRuntimeObservationSource)) then None
  else (λ st, (st, cs_converged aggregated)) <$> observedRuntimeState aggregated.

Definition runtimeFailureDetail (aggregated : ComponentStatus) : string :=
  if bool_decide (TrimSpace (cs_detail aggregated) = "") then "runtime reported failed" else cs_detail aggregated.

(** ** Settling operations *)

(** The latest operation of a run, the first of those created at the same time. *)
Definition latest_operation (wanted : Operation → bool) (run : JobRun) : option Operation :=
  foldl (λ latest o,
    if negb (wanted o) then latest else
    match latest with
    | None => Some o
    | Some l => if AsTime (op_created_at l) <? AsTime (op_created_at o) then Some o else latest
    end) None (rn_operations run).

Definition is_running (o : Operation) : bool := bool_decide (op_state o = OPERATION_STATE_RUNNING).

Definition complete (o : Operation) (now : Z) : Operation :=
  o <| op_state := OPERATION_STATE_SUCCEEDED |> <| op_completed_at := Some (timestamp_New now) |>.

Definition fail_with (o : Operation) (code message : string) (now : Z) : Operation :=
  o <| op_state := OPERATION_STATE_FAILED |> <| op_error_code := code |> <| op_error_message := message |>
    <| op_completed_at := Some (timestamp_New now) |>.

Definition completeLatestOperation (run : JobRun) (opType : OperationType) (now : Z) : JobRun * option Operation :=
  match latest_operation (λ o, bool_decide (op_type o = opType) && is_running o) run with
  | None => (run, None)
  | Some o => let o := complete o now in (append_operation run o, Some o)
  end.

Definition lifecycle_type (t : OperationType) : bool :=
  match t with
  | OPERATION_TYPE_START | OPERATION_TYPE_PAUSE | OPERATION_TYPE_RESUME | OPERATION_TYPE_STOP | OPERATION_TYPE_TERMINATE => true
  | _ => false
  end.

Definition failLatestRunningLifecycleOperation (run : JobRun) (now : Z) (code message : string) : JobRun * option Operation :=
  match latest_operation (λ o, is_running o && lifecycle_type (op_type o)) run with
  | None => (run, None)
  | Some o => let o := fail_with o code message now in (append_operation run o, Some o)
  end.

(** [failOperation] *)
Definition failOperation (job : RLTrainingJob) (run : JobRun) (operation : Operation) (code message : string) (now : Z) :
    JobRun * Operation :=
  let operation := fail_with operation code message now in
  let run := upsert_status run
    (mkStatus "runtime" COMPONENT_HEALTH_FAILED message "controller" 0 (Some (timestamp_New now)) ∅ (jb_id job) (rn_id run)
       (rn_trace_id run) (rn_data_kind run) None RUNTIME_STATE_UNKNOWN false) in
  (append_operation run operation, operation).

(** ** What a status does to its run ([advanceRunFromComponent]) *)

(** Where a converged observation takes a run: the new states, whether the run has
    started or is over, and the operation and the event this completes. *)
Record Advance := mkAdvance {
  av_run_state : JobRunState;
  av_job_state : JobState;
  av_starts : bool;
  av_ends : bool;
  av_operation : OperationType;
  av_event : JobEventType;
  av_detail : string;
}.

Definition advance_of (runState : JobRunState) (observed : RuntimeState) : option Advance :=
  match runState, observed with
  | JOB_RUN_STATE_STARTING, RUNTIME_STATE_RUNNING =>
      Some (mkAdvance JOB_RUN_STATE_RUNNING JOB_STATE_RUNNING true false OPERATION_TYPE_START JOB_EVENT_TYPE_JOB_STARTED "job started")
  | JOB_RUN_STATE_PAUSING, RUNTIME_STATE_PAUSED =>
      Some (mkAdvance JOB_RUN_STATE_PAUSED JOB_STATE_PAUSED false false OPERATION_TYPE_PAUSE JOB_EVENT_TYPE_JOB_PAUSED "job paused")
  | JOB_RUN_STATE_RESUMING, RUNTIME_STATE_RUNNING =>
      Some (mkAdvance JOB_RUN_STATE_RUNNING JOB_STATE_RUNNING true false OPERATION_TYPE_RESUME JOB_EVENT_TYPE_JOB_RESUMED "job resumed")
  | JOB_RUN_STATE_STOPPING, RUNTIME_STATE_TERMINATED =>
      Some (mkAdvance JOB_RUN_STATE_STOPPED JOB_STATE_CANCELLED false true OPERATION_TYPE_STOP JOB_EVENT_TYPE_JOB_STOPPED "job stopped")
  | JOB_RUN_STATE_TERMINATING, RUNTIME_STATE_TERMINATED =>
      Some (mkAdvance JOB_RUN_STATE_TERMINATED JOB_STATE_CANCELLED false true OPERATION_TYPE_TERMINATE
              JOB_EVENT_TYPE_JOB_TERMINATED "job terminated")
  | _, _ => None
  end.

Record Advanced := mkAdvanced {
  ad_job : RLTrainingJob;
  ad_run : JobRun;
  ad_operation : option Operation;
  ad_event : JobEventType;
  ad_detail : string;
}.

Definition advanceRunFromComponent (job : RLTrainingJob) (run : JobRun) (aggregated : ComponentStatus) (now : Z) : Advanced :=
  let nothing := mkAdvanced job run None JOB_EVENT_TYPE_UNKNOWN "" in
  match authoritativeRuntimeSignal aggregated with
  | Some (RUNTIME_STATE_FAILED, _) =>
      let run := run <| rn_run_state := JOB_RUN_STATE_FAILED |> <| rn_job_state := JOB_STATE_FAILED |>
                     <| rn_completed_at := Some (timestamp_New now) |> in
      let job := job <| jb_state := JOB_STATE_FAILED |> in
      let '(run, operation) := failLatestRunningLifecycleOperation run now "RUNTIME_STATE_FAILED" (runtimeFailureDetail aggregated) in
      mkAdvanced job run operation JOB_EVENT_TYPE_OPERATION_RECORDED "operation failed from component status"
  | Some (observed, true) =>
      match advance_of (rn_run_state run) observed with
      | None => nothing
      | Some a =>
          let run := run <| rn_run_state := av_run_state a |> <| rn_job_state := av_job_state a |> in
          let run := if av_starts a && bool_decide (rn_started_at run = None)
                     then run <| rn_started_at := Some (timestamp_New now) |> else run in
          let run := if av_ends a then run <| rn_completed_at := Some (timestamp_New now) |> else run in
          let job := job <| jb_state := av_job_state a |> in
          let '(run, operation) := completeLatestOperation run (av_operation a) now in
          mkAdvanced job run operation (av_event a) (av_detail a)
      end
  | _ => nothing
  end.

End Lifecycle.
