(* ===== verification/Programs.v ===== *)
(** * Programs that share a state

    A request is served by a goroutine: it takes locks for a while, reads the clock, calls
    another service and waits for other goroutines.  Between these points the others run.
    A program is the tree of its points; a pool of programs takes one point at a time, and
    a crash ends them all.  [safe] says what a program guarantees of every state it may find
    after the others have worked, and [reachable_invariant] that a pool of safe programs
    keeps the invariant whatever the interleaving. *)

From Stdlib Require Import ZArith Lia.
From stdpp Require Import base list relations.
From S2P Require Import Prelude.
From stdpp Require Import options.

Local Open Scope Z_scope.

Section Programs.

(** The shared state, what the environment decides at an atomic step, and the calls that
    leave the process with their answers. *)
Context {W F C R : Type}.

Inductive Prog (A : Type) : Type :=
| Return (a : A)
| Now (k : Z → Prog A)
| Atomic (f : F → W → W) (k : F → W → Prog A)
| Call (c : C) (k : R → Prog A)
| Wait (ready : W → bool) (k : W → Prog A).

Arguments Return {A} a.
Arguments Now {A} k.
Arguments Atomic {A} f k.
Arguments Call {A} c k.
Arguments Wait {A} ready k.

Fixpoint prog_bind {A B} (p : Prog A) (h : A → Prog B) : Prog B :=
  match p with
  | Return a => h a
  | Now k => Now (λ t, prog_bind (k t) h)
  | Atomic f k => Atomic f (λ e w, prog_bind (k e w) h)
  | Call c k => Call c (λ r, prog_bind (k r) h)
  | Wait ready k => Wait ready (λ w, prog_bind (k w) h)
  end.

#[export] Instance prog_ret : MRet Prog := λ A, Return.
#[export] Instance prog_mbind : MBind Prog := λ A B h p, prog_bind p h.

(** An atomic step that answers a value, the clock, a call. *)
Definition atomically {A} (f : F → W → A * W) : Prog A := 
  Atomic (λ e w, (f e w).2) (λ e w, Return (f e w).1).
Definition clock : Prog Z := Now Return.
Definition call (c : C) : Prog R := Call c Return.

(** ** One program alone *)

(** What the environment does at each point, in turn. *)
Inductive Move := Tick (t : Z) | Env (e : F) | Answer (r : R) | Go.

(** The program run with no other beside it: the value, the state and the calls made. *)
Fixpoint run_alone {A} (moves : list Move) (p : Prog A) (w : W) : option A * W * list C :=
  match p, moves with
  | Return a, _ => (Some a, w, [])
  | Now k, Tick t :: moves => run_alone moves (k t) w
  | Atomic f k, Env e :: moves => run_alone moves (k e w) (f e w)
  | Call c k, Answer r :: moves => let '(a, w', cs) := run_alone moves (k r) w in (a, w', c :: cs)
  | Wait ready k, Go :: moves => if ready w then run_alone moves (k w) w else (None, w, [])
  | _, _ => (None, w, [])
  end.

(** Whatever the environment does at each point, the program alone ends, and [Q] holds of
    its value and the state then. *)
Fixpoint finishes {A} (p : Prog A) (w : W) (Q : A → W → Prop) : Prop :=
  match p with
  | Return a => Q a w
  | Now k => ∀ t, finishes (k t) w Q
  | Atomic f k => ∀ e, finishes (k e w) (f e w) Q
  | Call c k => ∀ r, finishes (k r) w Q
  | Wait ready k => ready w = true ∧ finishes (k w) w Q
  end.

Lemma finishes_mono {A} (p : Prog A) w (Q Q' : A → W → Prop) :
  finishes p w Q → (∀ a w', Q a w' → Q' a w') → finishes p w Q'.
Proof. intros Hf HQ. revert w Hf. induction p; simpl; naive_solver. Qed.

Lemma finishes_bind {A B} (p : Prog A) (h : A → Prog B) w Q Q' :
  finishes p w Q → (∀ a w', Q a w' → finishes (h a) w' Q') → finishes (prog_bind p h) w Q'.
Proof. intros Hf Hh. revert w Hf. induction p; simpl; naive_solver. Qed.

(** A run that has moves for all the points of the program ends as it must. *)
Lemma finishes_run {A} moves (p : Prog A) w Q a w' cs :
  finishes p w Q → run_alone moves p w = (Some a, w', cs) → Q a w'.
Proof.
  revert p w cs. induction moves as [|m moves IH]; intros p w cs; destruct p as [b|k|f k|c k|ready k]; simpl; try done.
  - intros HQ [= <- <- _]. done.
  - intros HQ [= <- <- _]. done.
  - destruct m; try done. intros Hf. by apply IH.
  - destruct m; try done. intros Hf. by apply IH.
  - destruct m as [| |r|]; try done. destruct (run_alone moves (k r) w) as [[x y] z] eqn:E. intros Hf [= -> -> _]. by eapply IH.
  - destruct m; try done. intros [-> Hf]. by apply IH.
Qed.

(** ** Safety *)

Section Safety.

(** [I] holds between steps, [G] relates the states around a step of the process, and [pre]
    is what a call needs. *)
Variable I : W → Prop.
Variable G : W → W → Prop.
Variable pre : C → W → Prop.

Definition later : W → W → Prop := rtc G.

(** Whatever the state is by the time the program gets to act; [Q] holds of the value and
    the state when it returns. *)
Fixpoint safe {A} (p : Prog A) (w : W) (Q : A → W → Prop) : Prop :=
  match p with
  | Return a => Q a w
  | Now k => ∀ t, safe (k t) w Q
  | Atomic f k => ∀ e w1, later w w1 → I w1 → I (f e w1) ∧ G w1 (f e w1) ∧ safe (k e w1) (f e w1) Q
  | Call c k => (∀ w1, later w w1 → I w1 → pre c w1) ∧ ∀ r, safe (k r) w Q
  | Wait ready k => ∀ w1, later w w1 → I w1 → ready w1 = true → safe (k w1) w1 Q
  end.

(** Safe whatever it answers. *)
Definition harmless {A} (p : Prog A) (w : W) : Prop := safe p w (λ _ _, True).

Lemma safe_mono {A} (p : Prog A) w (Q Q' : A → W → Prop) : safe p w Q → (∀ a w', Q a w' → Q' a w') → safe p w Q'.
Proof.
  intros Hs HQ. revert w Hs. induction p as [a|k IH|f k IH|c k IH|ready k IH]; simpl; intros w Hs; eauto.
  - intros e w1 Hl HI. destruct (Hs e w1 Hl HI) as (? & ? & ?). eauto.
  - destruct Hs. eauto.
Qed.

Lemma safe_bind {A B} (p : Prog A) (h : A → Prog B) w Q Q' :
  safe p w Q → (∀ a w', Q a w' → safe (h a) w' Q') → safe (prog_bind p h) w Q'.
Proof.
  intros Hs Hh. revert w Hs. induction p as [a|k IH|f k IH|c k IH|ready k IH]; simpl; intros w Hs; eauto.
  - intros e w1 Hl HI. destruct (Hs e w1 Hl HI) as (? & ? & ?). eauto.
  - destruct Hs. eauto.
Qed.

Lemma harmless_later {A} (p : Prog A) w w' : harmless p w → later w w' → harmless p w'.
Proof.
  unfold harmless. revert w w'. induction p as [a|k IH|f k IH|c k IH|ready k IH]; simpl; intros w w' Hs Hl; eauto.
  - intros e w1 Hl1. apply Hs. by transitivity w'.
  - destruct Hs as [Hp Hk]. split; [|eauto]. intros w1 Hl1. apply Hp. by transitivity w'.
  - intros w1 Hl1. apply Hs. by transitivity w'.
Qed.

(** ** Many programs *)

Section Pool.
Context {A : Type}.

(** What other parties do to the state, and what a crash leaves of it. *)
Variable environment : W → W → Prop.
Variable restart : W → W.
(** The programs that may be started. *)
Variable admissible : Prog A → Prop.

Definition Config : Type := W * list (Prog A).

Inductive Label := Silent | Called (c : C) | Crash.

Inductive step : Config → Label → Config → Prop :=
| step_now w pool i k t : pool !! i = Some (Now k) → step (w, pool) Silent (w, <[i := k t]> pool)
| step_atomic w pool i f k e : pool !! i = Some (Atomic f k) → step (w, pool) Silent (f e w, <[i := k e w]> pool)
| step_call w pool i c k r : pool !! i = Some (Call c k) → step (w, pool) (Called c) (w, <[i := k r]> pool)
| step_wait w pool i ready k : pool !! i = Some (Wait ready k) → ready w = true → step (w, pool) Silent (w, <[i := k w]> pool)
| step_start w pool p : admissible p → step (w, pool) Silent (w, pool ++ [p])
| step_environment w pool w' : environment w w' → step (w, pool) Silent (w', pool)
| step_crash w pool : step (w, pool) Crash (restart w, []).

Hypothesis environment_ok : ∀ w w', I w → environment w w' → I w' ∧ G w w'.
Hypothesis restart_ok : ∀ w, I w → I (restart w).
Hypothesis admissible_ok : ∀ p w, admissible p → harmless p w.

Definition good (c : Config) : Prop := I c.1 ∧ Forall (λ p, harmless p c.1) c.2.

Lemma pool_later (pool : list (Prog A)) w w' : Forall (λ p, harmless p w) pool → later w w' → Forall (λ p, harmless p w') pool.
Proof. intros H Hl. eapply Forall_impl; [exact H|]. intros p Hp. exact (harmless_later _ _ _ Hp Hl). Qed.

(** What a step shows: a change the process guarantees, a call that was due, or a restart. *)
Definition shows (w : W) (l : Label) (w' : W) : Prop :=
  match l with
  | Silent => w' = w ∨ G w w'
  | Called c => w' = w ∧ pre c w
  | Crash => w' = restart w
  end.

Lemma step_good c l c' : good c → step c l c' → good c' ∧ shows c.1 l c'.1.
Proof using environment_ok restart_ok admissible_ok.
  intros [HI Hp] Hs.
  assert (Hrefl : ∀ w, later w w) by (intros; apply rtc_refl).
  destruct Hs as [w pool i k t Hi|w pool i f k e Hi|w pool i c k r Hi|w pool i ready k Hi Hr|w pool p Ha|w pool w' He|w pool];
    cbn [fst snd] in *.
  - pose proof (proj1 (Forall_lookup _ _) Hp i _ Hi) as Hsafe. cbn in Hsafe.
    split; [split; [done|]|by left]. apply Forall_insert; [done|exact (Hsafe t)].
  - pose proof (proj1 (Forall_lookup _ _) Hp i _ Hi) as Hsafe. cbn in Hsafe.
    destruct (Hsafe e w (Hrefl w) HI) as (HI' & HG & Hq).
    split; [split; [done|]|by right]. apply Forall_insert; [|done]. eapply pool_later; [done|by apply rtc_once].
  - pose proof (proj1 (Forall_lookup _ _) Hp i _ Hi) as [Hpre Hk].
    split; [split; [done|]|split; [done|by apply Hpre]]. apply Forall_insert; [done|exact (Hk r)].
  - pose proof (proj1 (Forall_lookup _ _) Hp i _ Hi) as Hsafe. cbn in Hsafe.
    specialize (Hsafe w (Hrefl w) HI Hr). split; [split; [done|]|by left]. by apply Forall_insert.
  - split; [split; [done|]|by left]. apply Forall_app. split; [done|]. constructor; [by apply admissible_ok|done].
  - destruct (environment_ok _ _ HI He) as [HI' HG]. split; [split; [done|]|by right].
    eapply pool_later; [done|by apply rtc_once].
  - split; [split; [by apply restart_ok|constructor]|done].
Qed.

Inductive steps : Config → list Label → Config → Prop :=
| steps_nil c : steps c [] c
| steps_cons c l c1 ls c2 : step c l c1 → steps c1 ls c2 → steps c (l :: ls) c2.

(** One move of one program of the pool. *)
Definition move_one (i : nat) (m : Move) (c : Config) : option (Label * Config) :=
  let '(w, pool) := c in
  match pool !! i, m with
  | Some (Now k), Tick t => Some (Silent, (w, <[i := k t]> pool))
  | Some (Atomic f k), Env e => Some (Silent, (f e w, <[i := k e w]> pool))
  | Some (Call c k), Answer r => Some (Called c, (w, <[i := k r]> pool))
  | Some (Wait ready k), Go => if ready w then Some (Silent, (w, <[i := k w]> pool)) else None
  | _, _ => None
  end.

Fixpoint moved (ms : list (nat * Move)) (c : Config) : option (list Label * Config) :=
  match ms with
  | [] => Some ([], c)
  | (i, m) :: ms =>
      '(l, c) ← move_one i m c;
      '(ls, c) ← moved ms c;
      Some (l :: ls, c)
  end.

Lemma move_one_step i m c l c' : move_one i m c = Some (l, c') → step c l c'.
Proof.
  destruct c as [w pool]. cbn. intros H.
  destruct (pool !! i) as [[]|] eqn:Hi, m; simplify_eq; eauto using step_now, step_atomic, step_call.
  destruct (ready w) eqn:Hr; simplify_eq. by eapply step_wait.
Qed.

Lemma moved_steps ms c ls c' : moved ms c = Some (ls, c') → steps c ls c'.
Proof.
  revert c ls. induction ms as [|[i m] ms IH]; intros c ls; cbn; [intros [= <- <-]; constructor|].
  intros ([l c1] & Hm & ([ls1 c2] & Hms & [= <- <-])%bind_Some)%bind_Some.
  econstructor; [by eapply move_one_step|by apply IH].
Qed.

Theorem reachable_good c ls c' : good c → steps c ls c' → good c'.
Proof using environment_ok restart_ok admissible_ok.
  intros Hg Hs. induction Hs as [|c l c1 ls c2 Hstep _ IH]; [done|]. apply IH. by eapply step_good.
Qed.

End Pool.

End Safety.

End Programs.

Arguments Return {W F C R A} a.
Arguments Now {W F C R A} k.
Arguments Atomic {W F C R A} f k.
Arguments Call {W F C R A} c k.
Arguments Wait {W F C R A} ready k.
Arguments Prog W F C R A : clear implicits.
