(* ===== verification/JobController.v ===== *)
(** * The job controller ([job-controller-go/controller])

    Every request is a program: views and updates of the repository, readings of the clock
    and calls of the runtime in the order the code makes them, with the table of calls in
    flight that lets two requests for one operation share its outcome.  The controller's
    state is what those programs share.  SHA-256, the wire encoding and [proto.Equal] of
    jobs and operations, what [encoding/gob] accepts, Unicode case mapping and quoting, and
    the iteration order of a Go map are parameters; a request is not nil, and an empty one
    stands for it where the code allows nil. *)

From Stdlib Require Import ZArith Lia String Ascii.
From stdpp Require Import base list strings gmap.
From S2P Require Import Prelude GoStrings GoTime GoTimeText Programs ClusterModel Projection Validation JobModel JobRepository JobStatus JobLifecycle.
From stdpp Require Import options.

Local Open Scope Z_scope.

(** ** The runtime *)

Inductive RuntimeHealth :=
| RUNTIME_HEALTH_UNKNOWN | RUNTIME_HEALTH_HEALTHY | RUNTIME_HEALTH_DEGRADED | RUNTIME_HEALTH_FAILED
| RUNTIME_HEALTH_PROGRESSING | RUNTIME_HEALTH_UNNAMED (n : Z).

Record RuntimeStatusSummary := mkSummary {
  rs_observed_runtime_state : RuntimeState;
  rs_converged : bool;
  rs_health : RuntimeHealth;
  rs_detail : string;
  rs_revision : Z;
  rs_observed_at : option Timestamp;
  rs_annotations : gmap string string;
}.

(** The calls of [runtimeclient.Driver] the controller makes. *)
Inductive RuntimeRequest :=
| ValidateRuntime (manifest : RuntimeManifest) (requestID idempotencyKey : string)
| CompileRuntime (manifest : RuntimeManifest) (requestID idempotencyKey : string)
| PrepareRuntime (runID requestID idempotencyKey : string)
| StartRuntime (runID requestID idempotencyKey : string)
| PauseRuntime (runID requestID idempotencyKey reason : string)
| ResumeRuntime (runID requestID idempotencyKey : string)
| StopRuntime (runID requestID idempotencyKey reason : string)
| TerminateRuntime (runID requestID idempotencyKey reason : string)
| GetRuntimeStatus (runID : string).

(** What the controller reads of an answer. *)
Record RuntimeResponse := mkResponse {
  rr_valid : bool;
  rr_diagnostics : list string;
  rr_runtime_status : option RuntimeStatusSummary;
}.

(** ** Requests and responses *)

Record CreateJobRequest := mkCreateJobRequest {
  cq_job : option RLTrainingJob;
  cq_job_id : string;
  cq_request_id : string;
  cq_idempotency_key : string;
}.

Record AdmitJobRequest := mkAdmitJobRequest {
  aq_job_id : string;
  aq_request_id : string;
  aq_idempotency_key : string;
  aq_reason : string;
}.

Record ApplyJobCommandRequest := mkCommandRequest {
  pq_job_id : string;
  pq_run_id : string;
  pq_command : JobCommandType;
  pq_actor : string;
  pq_reason : string;
  pq_request_id : string;
  pq_idempotency_key : string;
}.

Record CreateJobResponse := mkCreateJobResponse { cr_job : option RLTrainingJob; cr_operation : option Operation }.
Record AdmitJobResponse := mkAdmitJobResponse { ar_job : option RLTrainingJob; ar_operation : option Operation }.
Record ApplyJobCommandResponse := mkCommandResponse { pr_operation : option Operation; pr_run : option JobRun }.

Record ValidateJobResponse := mkValidateJobResponse {
  vr_valid : bool;
  vr_normalized : option RLTrainingJob;
  vr_diagnostics : list string;
  vr_operation : Operation;
}.

(** What a call in flight hands to those that wait for it. *)
Inductive Reply := AdmitReply (r : AdmitJobResponse) | CommandReply (r : ApplyJobCommandResponse).

(** ** State *)

(** [inflight] names the call of a key; a call has an outcome once its channel is closed,
    and those that wait keep it after it has left the table. *)
Record Controller := mkController {
  store : FileRepository;
  inflight : gmap string nat;
  inflightCalls : list (option (Result JobError Reply));
  operationSequence : Z;
}.

#[export] Instance eta_Controller : Eta Controller := λ c,
  mkController (store c) (inflight c) (inflightCalls c) (operationSequence c).

(** Whether the writes of an update fail. *)
Record Faults := mkFaults { journal_fault : WriteFault; snapshot_fault : WriteFault }.

(** A request being served: a program that answers a value or an error. *)
Definition Request (A : Type) : Type := Prog Controller Faults RuntimeRequest (Result JobError RuntimeResponse) (Result JobError A).

#[export] Instance Request_ret : MRet Request := λ A a, Return (Ok a).
#[export] Instance Request_bind : MBind Request := λ A B k p,
  prog_bind p (λ r, match r with Ok a => k a | Err e => Return (Err e) end).

Definition throw {A} (e : JobError) : Request A := Return (Err e).
Definition lift {A} (r : Result JobError A) : Request A := Return r.
(** The error as a value. *)
Definition attempt {A} (p : Request A) : Request (Result JobError A) := prog_bind p (λ r, Return (Ok r)).
Definition tick : Request Z := Now (λ t, Return (Ok t)).
Definition runtime (c : RuntimeRequest) : Request RuntimeResponse := Call c Return.
(** An atomic look at the controller. *)
Definition look {A} (f : Controller → A) : Request A := atomically (λ _ c, (Ok (f c), c)).

Record prepareResult := mkPrepareResult { pp_diagnostics : list string; pp_err : option JobError }.

Record admitPlan := mkAdmitPlan { al_job : RLTrainingJob; al_run : JobRun; al_operation : Operation }.

Record commandPlan := mkCommandPlan {
  cp_job : RLTrainingJob;
  cp_run : JobRun;
  cp_operation : Operation;
  cp_command : JobCommandType;
  cp_isRetry : bool;
  cp_stableJob : RLTrainingJob;
  cp_stableRun : JobRun;
}.

(** ** Transitions a command makes ([persistCommandPhase]) *)

(** The new state of the run and the state of run and job. *)
Definition command_transition (command : JobCommandType) (runState : JobRunState) : Result JobError (JobRunState * JobState) :=
  let among (l : list JobRunState) := bool_decide (runState ∈ l) in
  match command with
  | JOB_COMMAND_TYPE_START =>
      if among [JOB_RUN_STATE_ADMITTED; JOB_RUN_STATE_WAITING; JOB_RUN_STATE_STOPPED]
      then Ok (JOB_RUN_STATE_STARTING, JOB_STATE_PENDING) else Err (InvalidTransitionError "start" runState)
  | JOB_COMMAND_TYPE_PAUSE =>
      if among [JOB_RUN_STATE_RUNNING] then Ok (JOB_RUN_STATE_PAUSING, JOB_STATE_RUNNING)
      else Err (InvalidTransitionError "pause" runState)
  | JOB_COMMAND_TYPE_RESUME =>
      if among [JOB_RUN_STATE_PAUSED] then Ok (JOB_RUN_STATE_RESUMING, JOB_STATE_PAUSED)
      else Err (InvalidTransitionError "resume" runState)
  | JOB_COMMAND_TYPE_STOP =>
      if among [JOB_RUN_STATE_RUNNING; JOB_RUN_STATE_PAUSED; JOB_RUN_STATE_ADMITTED]
      then Ok (JOB_RUN_STATE_STOPPING, JOB_STATE_RUNNING) else Err (InvalidTransitionError "stop" runState)
  | JOB_COMMAND_TYPE_TERMINATE =>
      if IsTerminalRunState runState then Err (InvalidTransitionError "terminate" runState)
      else Ok (JOB_RUN_STATE_TERMINATING, JOB_STATE_RUNNING)
  | _ => Err (status_error InvalidArgument "unsupported command")
  end.

Definition stableRunForCommand (run : JobRun) (command : JobCommandType) : JobRun :=
  let st := rn_run_state run in
  let state :=
    match command with
    | JOB_COMMAND_TYPE_START => if bool_decide (st = JOB_RUN_STATE_STOPPED) then JOB_STATE_CANCELLED else JOB_STATE_PENDING
    | JOB_COMMAND_TYPE_PAUSE => JOB_STATE_RUNNING
    | JOB_COMMAND_TYPE_RESUME => JOB_STATE_PAUSED
    | JOB_COMMAND_TYPE_STOP =>
        match st with
        | JOB_RUN_STATE_ADMITTED => JOB_STATE_PENDING
        | JOB_RUN_STATE_PAUSED => JOB_STATE_PAUSED
        | _ => JOB_STATE_RUNNING
        end
    | _ => JobStateFromRun st
    end in
  run <| rn_job_state := state |>.

Definition isAmbiguousRuntimeCommandError (e : JobError) : bool :=
  match er_code e with
  | Some Canceled | Some DeadlineExceeded | Some Unavailable | Some Unknown => true
  | _ => false
  end.

Definition commandForOperation (operationType : OperationType) : option JobCommandType :=
  match operationType with
  | OPERATION_TYPE_START => Some JOB_COMMAND_TYPE_START
  | OPERATION_TYPE_PAUSE => Some JOB_COMMAND_TYPE_PAUSE
  | OPERATION_TYPE_RESUME => Some JOB_COMMAND_TYPE_RESUME
  | OPERATION_TYPE_STOP => Some JOB_COMMAND_TYPE_STOP
  | OPERATION_TYPE_RETRY => Some JOB_COMMAND_TYPE_RETRY
  | OPERATION_TYPE_TERMINATE => Some JOB_COMMAND_TYPE_TERMINATE
  | _ => None
  end.

Definition componentHealthFromRuntime (health : RuntimeHealth) : ComponentHealth :=
  match health with
  | RUNTIME_HEALTH_HEALTHY => COMPONENT_HEALTH_HEALTHY
  | RUNTIME_HEALTH_DEGRADED => COMPONENT_HEALTH_DEGRADED
  | RUNTIME_HEALTH_FAILED => COMPONENT_HEALTH_FAILED
  | RUNTIME_HEALTH_PROGRESSING => COMPONENT_HEALTH_PROGRESSING
  | _ => COMPONENT_HEALTH_UNKNOWN
  end.

Definition runtimeObservationFollowsOperation (operation : Operation) (summary : RuntimeStatusSummary) : bool :=
  valid_timestamp (rs_observed_at summary) &&
  (negb (valid_timestamp (op_created_at operation)) ||
   negb (AsTime (rs_observed_at summary) <? AsTime (op_created_at operation))).

Definition reconciliationRequiredCode : string := "RECONCILIATION_REQUIRED".
Definition dispatchAccepted : string := "runtime.dispatch.accepted".

(** ** Callbacks of updates *)

Definition lift_store {A} (r : Result JobError A) : StoreM A := match r with Ok a => mret a | Err e => fail e end.

Section Controller.

Variable sha256_hex : string → string.
Variable unicode_upper unicode_quote : string → string.
Variable job_wire : RLTrainingJob → string.
Variable job_Equal : RLTrainingJob → RLTrainingJob → bool.
Variable operation_Equal : Operation → Operation → bool.
Variable gob_encodable : persistedState → bool.
Variable gob_error : persistedState → string.
Variable map_order : list (string * string) → list (string * string).

Definition quote : string → string := Quote unicode_quote.
Definition not_found (what ident : string) : JobError := status_error NotFound (what +:+ " " +:+ quote ident +:+ " not found").

(** [Repository.Update] and [Repository.View]. *)
Definition update {A} (fn : StoreM A) : Request A := atomically (λ faults c,
  let '(res, r) := FileUpdate gob_encodable gob_error (journal_fault faults) (snapshot_fault faults) fn (store c) in
  (res, c <| store := r |>)).

(** An update that may record a new operation: it gets the next number of the controller's
    sequence and says whether it took it. *)
Definition update_numbered {A} (fn : Z → StoreM (A * bool)) : Request A := atomically (λ faults c,
  let sequence := wrap64 (operationSequence c + 1) in
  let '(res, r) := FileUpdate gob_encodable gob_error (journal_fault faults) (snapshot_fault faults) (fn sequence) (store c) in
  let taken := match fn sequence (mkStore ((memory (store c)) <| watchers := ∅ |>) []) with
               | Ok ((_, taken), _) => taken | Err _ => false end in
  (fst <$> res, c <| store := r |> <| operationSequence := if taken : bool then sequence else operationSequence c |>)).

Definition view {A} (q : MemoryRepository → Result JobError A) : Request A :=
  atomically (λ _ c, (View q (memory (store c)), c)).

Definition takes_number (idempotencyKey : string) : bool := bool_decide (TrimSpace idempotencyKey = "").

Definition get_job (jobID : string) : StoreM RLTrainingJob :=
  job ← query (λ r, GetJob r jobID); lift_store (from_option Ok (Err (not_found "job" jobID)) job).

Definition get_run (jobID runID : string) : StoreM JobRun :=
  run ← query (λ r, GetRun r jobID runID); lift_store (from_option Ok (Err (not_found "run" runID)) run).

Definition record_event (eventType : JobEventType) (job : RLTrainingJob) (run : option JobRun) (operation : option Operation)
    (component : option ComponentStatus) (detail : string) (now : Z) : StoreM unit :=
  put (AppendEvent (newEvent sha256_hex eventType job run operation component detail now)).

(** A key that is given is remembered with what it led to. *)
Definition remember (scope key requestHash operationID jobID runID : string) : StoreM unit :=
  if bool_decide (key = "") then mret tt
  else put (PutIdempotency scope key (mkIdempotency scope key requestHash operationID jobID runID)).

(** ** Idempotency ([idempotency.go]) *)

Definition hashAdmitRequest (jobID reason : string) : string := hashStrings sha256_hex ["admit"; jobID; reason].

Definition hashCommandRequest (jobID runID : string) (command : JobCommandType) (actor reason : string) : string :=
  hashStrings sha256_hex ["command"; jobID; runID; JobCommandType_String command; actor; reason].

Definition hashRequest (namespace : string) (job : RLTrainingJob) : string :=
  hashStrings sha256_hex [namespace; deterministicProtoHash sha256_hex job_wire job].

(** The state, and what the controller filled in itself, is not part of the request. *)
Definition hashNormalizedJobRequest (namespace : string) (normalized submitted : RLTrainingJob) : string :=
  let fingerprint := normalized <| jb_state := JOB_STATE_UNKNOWN |> in
  let fingerprint := if valid_timestamp (jb_created_at submitted) then fingerprint else fingerprint <| jb_created_at := None |> in
  let fingerprint := if bool_decide (TrimSpace (jb_id submitted) = "") then fingerprint <| jb_id := "" |> else fingerprint in
  hashRequest namespace fingerprint.

(** The four loads: nothing for an unknown key, an error for one used differently. *)
Definition loadIdempotency {A} (scope what key requestHash : string) (response : MemoryRepository → IdempotencyRecord → A)
    (r : MemoryRepository) : Result JobError (option A) :=
  if bool_decide (key = "") then Ok None else
  match GetIdempotency r scope key with
  | None => Ok None
  | Some record =>
      if bool_decide (ir_RequestHash record = requestHash) then Ok (Some (response r record))
      else Err (status_error AlreadyExists ("idempotency key " +:+ quote key +:+ " already used for a different " +:+ what +:+ " request"))
  end.

Definition loadCreateJobIdempotency (key requestHash : string) : MemoryRepository → Result JobError (option CreateJobResponse) :=
  loadIdempotency "create-job" "create-job" key requestHash
    (λ r record, mkCreateJobResponse (GetJob r (ir_JobID record)) (GetOperation r (ir_OperationID record))).

Definition loadAdmitIdempotency (key requestHash : string) : MemoryRepository → Result JobError (option AdmitJobResponse) :=
  loadIdempotency "admit" "admit" key requestHash
    (λ r record, mkAdmitJobResponse (GetJob r (ir_JobID record)) (GetOperation r (ir_OperationID record))).

Definition loadCreateRunIdempotency (key requestHash : string) : MemoryRepository → Result JobError (option (option JobRun)) :=
  loadIdempotency "create-run" "create-run" key requestHash (λ r record, GetRun r (ir_JobID record) (ir_RunID record)).

Definition loadCommandIdempotency (key requestHash : string) : MemoryRepository → Result JobError (option ApplyJobCommandResponse) :=
  loadIdempotency "command" "command" key requestHash
    (λ r record, mkCommandResponse (GetOperation r (ir_OperationID record)) (GetRun r (ir_JobID record) (ir_RunID record))).

Definition loadCommittedOperation (jobID runID operationID : string) (r : MemoryRepository) :
    Result JobError (RLTrainingJob * JobRun * Operation) :=
  match GetJob r jobID with
  | None => Err (not_found "job" jobID)
  | Some job =>
      match GetRun r jobID runID with
      | None => Err (not_found "run" runID)
      | Some run =>
          match GetOperation r operationID with
          | None => Err (not_found "operation" operationID)
          | Some operation => Ok (job, run, operation)
          end
      end
  end.

Definition load_committed (jobID runID operationID : string) : StoreM (RLTrainingJob * JobRun * Operation) :=
  res ← query (loadCommittedOperation jobID runID operationID); lift_store res.

Definition resolveTargetRun (jobID runID : string) : StoreM (RLTrainingJob * option JobRun) :=
  job ← get_job jobID;
  if negb (bool_decide (runID = "")) then run ← get_run jobID runID; mret (job, Some run)
  else run ← query (λ r, GetLatestRun r jobID); mret (job, run).

(** The run is already where the command would take it, by an earlier operation. *)
Definition semanticIdempotentOperation (r : MemoryRepository) (job : RLTrainingJob) (run : JobRun) (opType : OperationType) :
    option Operation :=
  operation ← GetLatestOperation r (jb_id job) (rn_id run) opType;
  let arrived :=
    match opType with
    | OPERATION_TYPE_START | OPERATION_TYPE_RESUME => bool_decide (rn_run_state run = JOB_RUN_STATE_RUNNING)
    | OPERATION_TYPE_PAUSE => bool_decide (rn_run_state run = JOB_RUN_STATE_PAUSED)
    | OPERATION_TYPE_STOP => bool_decide (rn_run_state run = JOB_RUN_STATE_STOPPED)
    | OPERATION_TYPE_TERMINATE => bool_decide (rn_run_state run = JOB_RUN_STATE_TERMINATED)
    | OPERATION_TYPE_RETRY => match GetLatestRun r (jb_id job) with
                              | Some latest => rn_attempt run <? rn_attempt latest | None => false end
    | _ => false
    end in
  if arrived then Some operation else None.

(** [runInflight]: the first with a key runs the body, the others wait for its outcome. *)
Definition call_done (i : nat) (c : Controller) : bool :=
  match inflightCalls c !! i with Some (Some _) => true | _ => false end.
Definition call_outcome (i : nat) (c : Controller) : Result JobError Reply :=
  match inflightCalls c !! i with Some (Some r) => r | _ => Err (plain_error "") end.
Definition await (i : nat) : Request Reply := Wait (call_done i) (λ c, Return (call_outcome i c)).

Definition register_call (key : string) : Request (nat * bool) := atomically (λ _ c,
  match inflight c !! key with
  | Some i => (Ok (i, false), c)
  | None =>
      let i := length (inflightCalls c) in
      (Ok (i, true), c <| inflight := <[key := i]> (inflight c) |> <| inflightCalls := inflightCalls c ++ [None] |>)
  end).

Definition runInflight (key : string) (body : Request Reply) : Request Reply :=
  '(i, mine) ← register_call key;
  if negb mine then await i else
  outcome ← attempt body;
  _ ← atomically (λ _ c, (Ok tt, c <| inflightCalls := <[i := Some outcome]> (inflightCalls c) |>));
  _ ← atomically (λ _ c, (Ok tt, c <| inflight := delete key (inflight c) |>));
  lift outcome.

(** Whether a call was in flight, and its error once it is over. *)
Definition waitInflight (key : string) : Request bool :=
  found ← look (λ c, inflight c !! key);
  match found with
  | None => mret false
  | Some i => _ ← await i; mret true
  end.

(** The type assertions on an outcome; a wrong type would end the goroutine. *)
Definition as_admit (r : Reply) : Request AdmitJobResponse :=
  match r with AdmitReply a => mret a | CommandReply _ => throw (plain_error "interface conversion") end.
Definition as_command (r : Reply) : Request ApplyJobCommandResponse :=
  match r with CommandReply a => mret a | AdmitReply _ => throw (plain_error "interface conversion") end.

(** ** Admission ([admission_prepare.go]) *)

Definition new_operation (opType : OperationType) (jobID runID actor reason requestID key : string) (kind : DataKind)
    (now sequence : Z) : Operation :=
  newOperation sha256_hex opType jobID runID actor reason requestID key kind None now sequence.

Definition start_operation (o : Operation) : Operation :=
  o <| op_state := OPERATION_STATE_RUNNING |> <| op_completed_at := None |>.

Definition prepareRun (run : JobRun) (operation : Operation) : Request prepareResult :=
  let failed e := mkPrepareResult [] (Some e) in
  match BuildManifest run with
  | Err e => mret (failed e)
  | Ok manifest =>
      validated ← attempt (runtime (ValidateRuntime manifest (op_request_id operation) (op_idempotency_key operation)));
      match validated with
      | Err e => mret (failed e)
      | Ok response =>
          if negb (rr_valid response) then mret (mkPrepareResult (rr_diagnostics response) None) else
          compiled ← attempt (runtime (CompileRuntime manifest (op_request_id operation) (op_idempotency_key operation)));
          match compiled with
          | Err e => mret (failed e)
          | Ok _ =>
              prepared ← attempt (runtime (PrepareRuntime (rn_id run) (op_request_id operation) (op_idempotency_key operation)));
              match prepared with
              | Err e => mret (failed e)
              | Ok _ => mret (mkPrepareResult [] None)
              end
          end
      end
  end.

Definition persistAdmitPhase (request : AdmitJobRequest) (requestHash : string) (now : Z) : Request (admitPlan + AdmitJobResponse) :=
  update_numbered (λ sequence,
    job ← get_job (aq_job_id request);
    latestRun ← query (λ r, GetLatestRun r (aq_job_id request));
    let key := aq_idempotency_key request in
    let fresh runID := new_operation OPERATION_TYPE_ADMIT (jb_id job) runID "" (aq_reason request) (aq_request_id request) key
                         (jb_data_kind job) now sequence in
    let admitted := match latestRun with
                    | Some run => bool_decide (rn_run_state run ∈ [JOB_RUN_STATE_ADMITTED; JOB_RUN_STATE_WAITING]) | None => false end in
    match latestRun, admitted with
    | Some run, true =>
        existing ← query (λ r, GetLatestOperation r (jb_id job) (rn_id run) OPERATION_TYPE_ADMIT);
        let operation := default (fresh (rn_id run)) existing in
        _ ← (match existing with Some _ => mret tt | None => put (PutOperation operation) end : StoreM unit);
        _ ← remember "admit" key requestHash (op_id operation) (jb_id job) (rn_id run);
        mret (inr (mkAdmitJobResponse (Some job) (Some operation)), bool_decide (existing = None) && takes_number key)
    | _, _ =>
        let blocked := match latestRun with
                       | Some run => if IsTerminalRunState (rn_run_state run)
                                     then Err (InvalidTransitionError "admit" (rn_run_state run)) else Ok tt
                       | None => Ok tt end in
        _ ← lift_store blocked;
        let job' := job <| jb_state := JOB_STATE_PENDING |> in
        let run := match latestRun with
                   | None => NewRun sha256_hex job_wire job 1 JOB_RUN_STATE_ADMITTING now
                   | Some run => run <| rn_run_state := JOB_RUN_STATE_ADMITTING |> <| rn_job_state := JOB_STATE_PENDING |>
                   end in
        let operation := start_operation (fresh (rn_id run)) in
        let run := append_operation run operation in
        _ ← put (PutJob job');
        _ ← put (PutRun run);
        _ ← put (PutOperation operation);
        _ ← record_event JOB_EVENT_TYPE_JOB_ADMITTED job' (Some run) (Some operation) None "job admitted" now;
        _ ← record_event JOB_EVENT_TYPE_OPERATION_RECORDED job' (Some run) (Some operation) None "operation recorded" now;
        _ ← remember "admit" key requestHash (op_id operation) (jb_id job') (rn_id run);
        mret (inl (mkAdmitPlan job' run operation), takes_number key)
    end).

(** What preparing a run came to, as the failure of its operation. *)
Definition prepare_failure (result : prepareResult) : option string :=
  match pp_err result with
  | Some e => Some (Error_text e)
  | None => if bool_decide (pp_diagnostics result = []) then None else Some (Join (pp_diagnostics result) "; ")
  end.

(** The end both admission and retry give an operation: the run fails in place or waits. *)
Definition settle_prepared (scope key requestHash : string) (job : RLTrainingJob) (run : JobRun) (operation : Operation)
    (result : prepareResult) (now : Z) : StoreM (RLTrainingJob * JobRun * Operation) :=
  match prepare_failure result with
  | Some message =>
      let '(run, operation) := failOperation job run operation "RUNTIME_PREPARE_FAILED" message now in
      mret (job, run, operation)
  | None =>
      let run := run <| rn_run_state := JOB_RUN_STATE_WAITING |> <| rn_job_state := JOB_STATE_PENDING |> in
      let job := job <| jb_state := JOB_STATE_PENDING |> in
      let operation := complete operation now in
      _ ← remember scope key requestHash (op_id operation) (jb_id job) (rn_id run);
      mret (job, run, operation)
  end.

Definition store_all (job : RLTrainingJob) (run : JobRun) (operation : Operation) : StoreM unit :=
  _ ← put (PutJob job); _ ← put (PutRun run); put (PutOperation operation).

Definition finalizeAdmitPhase (request : AdmitJobRequest) (requestHash : string) (plan : admitPlan) (result : prepareResult) :
    Request AdmitJobResponse :=
  now ← tick;
  update (
    '(job, run, operation) ← load_committed (jb_id (al_job plan)) (rn_id (al_run plan)) (op_id (al_operation plan));
    if negb (is_running operation) then mret (mkAdmitJobResponse (Some job) (Some operation)) else
    '(job, run, operation) ← settle_prepared "admit" (aq_idempotency_key request) requestHash job run operation result now;
    let run := append_operation run operation in
    _ ← store_all job run operation;
    mret (mkAdmitJobResponse (Some job) (Some operation))).

Definition admit_body (request : AdmitJobRequest) (requestHash : string) (plan : admitPlan) : Request Reply :=
  result ← prepareRun (al_run plan) (al_operation plan);
  response ← finalizeAdmitPhase request requestHash plan result;
  mret (AdmitReply response).

Definition loadAdmitRunningPlan (jobID runID operationID : string) : Request (admitPlan + AdmitJobResponse) :=
  view (λ r,
    '(job, run, operation) ← loadCommittedOperation jobID runID operationID r;
    Ok (if is_running operation then inl (mkAdmitPlan job run operation)
        else inr (mkAdmitJobResponse (Some job) (Some operation)))).

Definition run_admit (request : AdmitJobRequest) (requestHash : string) (found : admitPlan + AdmitJobResponse)
    (key : admitPlan → string) : Request AdmitJobResponse :=
  match found with
  | inr response => mret response
  | inl plan => reply ← runInflight (key plan) (admit_body request requestHash plan); as_admit reply
  end.

Definition resumeAdmitPhase (request : AdmitJobRequest) (requestHash operationID runID jobID : string) : Request AdmitJobResponse :=
  found ← loadAdmitRunningPlan jobID runID operationID;
  run_admit request requestHash found (λ _, operationID).

(** A response whose operation is still running. *)
Definition running_operation (o : option Operation) : option Operation :=
  match o with Some o => if is_running o then Some o else None | None => None end.

Definition AdmitJob (request : AdmitJobRequest) : Request AdmitJobResponse :=
  if bool_decide (TrimSpace (aq_job_id request) = "") then throw (status_error InvalidArgument "job_id is required") else
  let requestHash := hashAdmitRequest (aq_job_id request) (aq_reason request) in
  loaded ← view (loadAdmitIdempotency (aq_idempotency_key request) requestHash);
  match loaded with
  | Some response =>
      match running_operation (ar_operation response) with
      | None => mret response
      | Some operation =>
          waited ← waitInflight (op_id operation);
          reloaded ← (if waited : bool then view (loadAdmitIdempotency (aq_idempotency_key request) requestHash) else mret None);
          match reloaded with
          | Some response => mret response
          | None => resumeAdmitPhase request requestHash (op_id operation) (op_run_id operation) (op_job_id operation)
          end
      end
  | None =>
      now ← tick;
      found ← persistAdmitPhase request requestHash now;
      run_admit request requestHash found (λ plan, op_id (al_operation plan))
  end.

(** ** Commands ([command.go]) *)

(** No letter of [true] folds to one outside ASCII. *)
Definition commandDispatchAccepted (operation : Operation) : bool :=
  bool_decide (lower_ascii (TrimSpace (default "" (op_annotations operation !! dispatchAccepted))) = "true").

Definition persistCommandPhase (request : ApplyJobCommandRequest) (requestHash : string) (eventType : JobEventType)
    (opType : OperationType) (now : Z) : Request (commandPlan + ApplyJobCommandResponse) :=
  update_numbered (λ sequence,
    '(job, target) ← resolveTargetRun (pq_job_id request) (pq_run_id request);
    match target with
    | None => fail (status_error FailedPrecondition ("job " +:+ quote (pq_job_id request) +:+ " has no run to mutate"))
    | Some run =>
        let key := pq_idempotency_key request in
        arrived ← query (λ r, semanticIdempotentOperation r job run opType);
        match arrived with
        | Some existing =>
            _ ← remember "command" key requestHash (op_id existing) (jb_id job) (rn_id run);
            mret (inr (mkCommandResponse (Some existing) (Some run)), false)
        | None =>
            let command := pq_command request in
            let isRetry := bool_decide (command = JOB_COMMAND_TYPE_RETRY) in
            let mutated :=
              if isRetry then
                if IsTerminalRunState (rn_run_state run) then
                  Ok (job <| jb_state := JOB_STATE_PENDING |>,
                      NewRun sha256_hex job_wire job (wrap64 (rn_attempt run + 1)) JOB_RUN_STATE_RETRYING now)
                else Err (InvalidTransitionError "retry" (rn_run_state run))
              else
                '(runState, state) ← command_transition command (rn_run_state run);
                Ok (job <| jb_state := state |>, run <| rn_run_state := runState |> <| rn_job_state := state |>) in
            '(job', run') ← lift_store mutated;
            let operation := start_operation (new_operation opType (jb_id job') (rn_id run') (pq_actor request) (pq_reason request)
                               (pq_request_id request) key (jb_data_kind job') now sequence) in
            let run' := append_operation run' operation in
            _ ← store_all job' run' operation;
            let detail := if isRetry then "job retried"
                          else lower_ascii (TrimPrefix (JobEventType_String eventType) "JOB_EVENT_TYPE_") in
            _ ← record_event eventType job' (Some run') (Some operation) None detail now;
            _ ← record_event JOB_EVENT_TYPE_OPERATION_RECORDED job' (Some run') (Some operation) None "operation recorded" now;
            _ ← remember "command" key requestHash (op_id operation) (jb_id job') (rn_id run');
            mret (inl (mkCommandPlan job' run' operation command isRetry job (stableRunForCommand run command)), takes_number key)
        end
    end).

Definition finalizeRetryPhase (request : ApplyJobCommandRequest) (requestHash : string) (plan : commandPlan)
    (result : prepareResult) : Request ApplyJobCommandResponse :=
  now ← tick;
  update (
    '(job, run, operation) ← load_committed (jb_id (cp_job plan)) (rn_id (cp_run plan)) (op_id (cp_operation plan));
    if negb (is_running operation) then mret (mkCommandResponse (Some operation) (Some run)) else
    '(job, run, operation) ← settle_prepared "command" (pq_idempotency_key request) requestHash job run operation result now;
    let run := append_operation run operation in
    _ ← store_all job run operation;
    mret (mkCommandResponse (Some operation) (Some run))).

(** A refusal gives run and job the states they had before the command; an error that may
    have reached the runtime leaves everything as it is. *)
Definition finalizeCommandPhase (plan : commandPlan) (runtimeErr : option JobError) : Request ApplyJobCommandResponse :=
  now ← tick;
  update (
    '(job, run, operation) ← load_committed (jb_id (cp_job plan)) (rn_id (cp_run plan)) (op_id (cp_operation plan));
    if negb (is_running operation) then mret (mkCommandResponse (Some operation) (Some run)) else
    match runtimeErr with
    | Some e =>
        if isAmbiguousRuntimeCommandError e then mret (mkCommandResponse (Some operation) (Some run)) else
        let operation := fail_with operation "RUNTIME_COMMAND_FAILED" (Error_text e) now in
        let run := append_operation (cp_stableRun plan) operation in
        _ ← store_all (cp_stableJob plan) run operation;
        mret (mkCommandResponse (Some operation) (Some run))
    | None =>
        let operation := operation <| op_annotations := <[dispatchAccepted := "true"]> (op_annotations operation) |> in
        let run := append_operation run operation in
        _ ← store_all job run operation;
        mret (mkCommandResponse (Some operation) (Some run))
    end).

(** The call of the runtime a command makes. *)
Definition command_call (command : JobCommandType) (run : JobRun) (request : ApplyJobCommandRequest) : option RuntimeRequest :=
  let runID := rn_id run in let requestID := pq_request_id request in let key := pq_idempotency_key request in
  match command with
  | JOB_COMMAND_TYPE_START => Some (StartRuntime runID requestID key)
  | JOB_COMMAND_TYPE_PAUSE => Some (PauseRuntime runID requestID key (pq_reason request))
  | JOB_COMMAND_TYPE_RESUME => Some (ResumeRuntime runID requestID key)
  | JOB_COMMAND_TYPE_STOP => Some (StopRuntime runID requestID key (pq_reason request))
  | JOB_COMMAND_TYPE_TERMINATE => Some (TerminateRuntime runID requestID key (pq_reason request))
  | _ => None
  end.

Definition invokeRuntime (command : JobCommandType) (run : JobRun) (request : ApplyJobCommandRequest) : Request (option JobError) :=
  match command_call command run request with
  | Some c => answer ← attempt (runtime c); mret (match answer with Ok _ => None | Err e => Some e end)
  | None => mret (Some (status_error InvalidArgument "unsupported runtime command"))
  end.

Definition command_body (request : ApplyJobCommandRequest) (requestHash : string) (plan : commandPlan) : Request Reply :=
  if cp_isRetry plan then
    result ← prepareRun (cp_run plan) (cp_operation plan);
    response ← finalizeRetryPhase request requestHash plan result;
    mret (CommandReply response)
  else
    runtimeErr ← invokeRuntime (cp_command plan) (cp_run plan) request;
    response ← finalizeCommandPhase plan runtimeErr;
    mret (CommandReply response).

Definition run_command (request : ApplyJobCommandRequest) (requestHash : string) (found : commandPlan + ApplyJobCommandResponse)
    (key : commandPlan → string) : Request ApplyJobCommandResponse :=
  match found with
  | inr response => mret response
  | inl plan => reply ← runInflight (key plan) (command_body request requestHash plan); as_command reply
  end.

Definition loadCommandRunningPlan (command : JobCommandType) (jobID runID operationID : string) :
    Request (commandPlan + ApplyJobCommandResponse) :=
  view (λ r,
    '(job, run, operation) ← loadCommittedOperation jobID runID operationID r;
    Ok (if is_running operation
        then inl (mkCommandPlan job run operation command (bool_decide (command = JOB_COMMAND_TYPE_RETRY)) job
                    (stableRunForCommand run command))
        else inr (mkCommandResponse (Some operation) (Some run)))).

Definition resumeCommandPhase (request : ApplyJobCommandRequest) (requestHash operationID runID jobID : string) :
    Request ApplyJobCommandResponse :=
  found ← loadCommandRunningPlan (pq_command request) jobID runID operationID;
  run_command request requestHash found (λ _, operationID).

Definition ApplyJobCommand (request : ApplyJobCommandRequest) : Request ApplyJobCommandResponse :=
  if bool_decide (TrimSpace (pq_job_id request) = "") then throw (status_error InvalidArgument "job_id is required") else
  '(eventType, opType) ← lift (MapCommand (pq_command request));
  let requestHash := hashCommandRequest (pq_job_id request) (pq_run_id request) (pq_command request) (pq_actor request)
                       (pq_reason request) in
  loaded ← view (loadCommandIdempotency (pq_idempotency_key request) requestHash);
  match loaded with
  | Some response =>
      match running_operation (pr_operation response) with
      | None => mret response
      | Some operation =>
          waited ← waitInflight (op_id operation);
          reloaded ← (if waited : bool then view (loadCommandIdempotency (pq_idempotency_key request) requestHash) else mret None);
          match reloaded with
          | Some response => mret response
          | None =>
              if commandDispatchAccepted operation then mret response
              else resumeCommandPhase request requestHash (op_id operation) (op_run_id operation) (op_job_id operation)
          end
      end
  | None =>
      now ← tick;
      found ← persistCommandPhase request requestHash eventType opType now;
      run_command request requestHash found (λ plan, op_id (cp_operation plan))
  end.

(** ** Statuses ([status_projection.go]) *)

Definition ReportComponentStatus (incoming : option ComponentStatus) : Request ComponentStatus :=
  match incoming with
  | None => throw (status_error InvalidArgument "component_status is required")
  | Some incoming =>
      if bool_decide (TrimSpace (cs_job_id incoming) = "") || bool_decide (TrimSpace (cs_run_id incoming) = "") ||
         bool_decide (TrimSpace (cs_component incoming) = "")
      then throw (status_error InvalidArgument "component_status.job_id, run_id, and component are required") else
      incoming ← (match cs_observed_at incoming with
                  | Some _ => mret incoming
                  | None => now ← tick; mret (incoming <| cs_observed_at := Some (timestamp_New now) |>)
                  end : Request ComponentStatus);
      update (
        job ← get_job (cs_job_id incoming);
        run ← get_run (cs_job_id incoming) (cs_run_id incoming);
        let at_ := AsTime (cs_observed_at incoming) in
        let aggregated := MergeAggregatedStatus (rn_component_status run) incoming in
        let run := upsert_status run aggregated in
        let advanced := advanceRunFromComponent unicode_upper job run aggregated at_ in
        let job := ad_job advanced in let run := ad_run advanced in
        _ ← put (PutJob job);
        _ ← put (PutRun run);
        _ ← record_event JOB_EVENT_TYPE_COMPONENT_CHANGED job (Some run) None (Some incoming) "component status updated" at_;
        _ ← match ad_operation advanced with
            | None => mret tt
            | Some operation =>
                _ ← put (PutOperation operation);
                _ ← record_event (ad_event advanced) job (Some run) (Some operation) (Some aggregated) (ad_detail advanced) at_;
                record_event JOB_EVENT_TYPE_OPERATION_RECORDED job (Some run) (Some operation) (Some aggregated)
                  "operation completed from component status" at_
            end;
        mret aggregated)
  end.

(** ** The catalogue ([catalog.go]) *)

Definition invalid_argument (d : string) : JobError := status_error InvalidArgument d.

(** An error of a query is the caller's. *)
Definition query_error {A} (r : Result JobError A) : Result JobError A :=
  match r with Ok a => Ok a | Err e => Err (invalid_argument (Error_text e)) end.

Definition fresh_validation (job : RLTrainingJob) (request : CreateJobRequest) (now sequence : Z) : Operation :=
  new_operation OPERATION_TYPE_VALIDATE (jb_id job) "" "" "" (cq_request_id request) (cq_idempotency_key request)
    (jb_data_kind job) now sequence.

Definition normalize (job : RLTrainingJob) (now : Z) : option RLTrainingJob * list string :=
  NormalizeJob sha256_hex job_wire map_order (Some job) now.

Definition create_job (request : CreateJobRequest) (requestHash : string) (normalized : RLTrainingJob) (now : Z) :
    Request CreateJobResponse :=
  update_numbered (λ sequence,
    let key := cq_idempotency_key request in
    existing ← query (λ r, GetJob r (jb_id normalized));
    match existing with
    | Some existing =>
        if negb (job_Equal existing normalized)
        then fail (status_error AlreadyExists ("job " +:+ quote (jb_id normalized) +:+ " already exists with different content"))
        else
        earlier ← query (λ r, GetLatestOperation r (jb_id normalized) "" OPERATION_TYPE_VALIDATE);
        let operation := default (fresh_validation normalized request now sequence) earlier in
        _ ← (match earlier with Some _ => mret tt | None => put (PutOperation operation) end : StoreM unit);
        _ ← remember "create-job" key requestHash (op_id operation) (jb_id normalized) "";
        mret (mkCreateJobResponse (Some existing) (Some operation), bool_decide (earlier = None) && takes_number key)
    | None =>
        let operation := fresh_validation normalized request now sequence in
        _ ← put (PutJob normalized);
        _ ← put (PutOperation operation);
        _ ← record_event JOB_EVENT_TYPE_JOB_CREATED normalized None (Some operation) None "job created" now;
        _ ← record_event JOB_EVENT_TYPE_OPERATION_RECORDED normalized None (Some operation) None "operation recorded" now;
        _ ← remember "create-job" key requestHash (op_id operation) (jb_id normalized) "";
        mret (mkCreateJobResponse (Some normalized) (Some operation), takes_number key)
    end).

Definition CreateJob (request : CreateJobRequest) : Request CreateJobResponse :=
  match cq_job request with
  | None => throw (invalid_argument "job is required")
  | Some submitted =>
      now ← tick;
      match normalize submitted now with
      | (Some normalized, []) =>
          let requestHash := hashNormalizedJobRequest "create-job" normalized submitted in
          loaded ← view (loadCreateJobIdempotency (cq_idempotency_key request) requestHash);
          match loaded with
          | Some response => mret response
          | None => create_job request requestHash normalized now
          end
      | (_, diagnostics) => throw (invalid_argument (Join diagnostics "; "))
      end
  end.

(** The number of an operation recorded outside an update. *)
Definition next_number (key : string) : Request Z := atomically (λ _ c,
  let sequence := wrap64 (operationSequence c + 1) in
  (Ok sequence, if takes_number key then c <| operationSequence := sequence |> else c)).

Definition ValidateJobRequest (request : CreateJobRequest) : Request ValidateJobResponse :=
  match cq_job request with
  | None => throw (invalid_argument "job is required")
  | Some submitted =>
      now ← tick;
      let '(normalized, diagnostics) := normalize submitted now in
      sequence ← next_number (cq_idempotency_key request);
      let operation := new_operation OPERATION_TYPE_VALIDATE (from_option jb_id "" normalized) "" "" "" (cq_request_id request)
                         (cq_idempotency_key request) (from_option jb_data_kind DATA_KIND_UNKNOWN normalized) now sequence in
      let manifest := normalized ≫= λ job,
        match BuildManifest (NewRun sha256_hex job_wire job 1 JOB_RUN_STATE_VALIDATING now) with Ok m => Some m | Err _ => None end in
      '(valid, diagnostics) ←
        (match bool_decide (diagnostics = []), manifest with
         | true, Some manifest =>
             answer ← attempt (runtime (ValidateRuntime manifest (cq_request_id request) (cq_idempotency_key request)));
             mret match answer with
                  | Err e => (false, diagnostics ++ [Error_text e])
                  | Ok response => if rr_valid response then (true, diagnostics) else (false, diagnostics ++ rr_diagnostics response)
                  end
         | valid, _ => mret (valid, diagnostics)
         end : Request (bool * list string));
      let operation := if valid : bool then operation else
        operation <| op_state := OPERATION_STATE_FAILED |> <| op_error_code := "JOB_VALIDATION_FAILED" |>
                  <| op_error_message := Join diagnostics "; " |> in
      mret (mkValidateJobResponse valid normalized diagnostics operation)
  end.

Definition ListJobsRequest (kind : DataKind) (limit : Z) (pageToken afterJobID : string) : Request (list RLTrainingJob * string) :=
  if negb (bool_decide (pageToken = "")) && negb (bool_decide (afterJobID = ""))
  then throw (invalid_argument "page_token is mutually exclusive with after_job_id")
  else view (λ r, query_error (ListJobs unicode_quote r kind limit pageToken afterJobID)).

(** The job and its cursor. *)
Definition GetJobRequest (jobID : string) : Request (RLTrainingJob * string) :=
  if bool_decide (TrimSpace jobID = "") then throw (invalid_argument "job_id is required") else
  view (λ r, match GetJob r jobID with
             | None => Err (not_found "job" jobID)
             | Some job => Ok (job, deterministicID sha256_hex "cursor" [jb_id job; FormatRFC3339Nano (AsTime (jb_created_at job))])
             end).

(** [attempt + 1] is zero only after the last attempt there can be. *)
Definition create_run (request : CreateJobRequest) (requestHash : string) (normalized : RLTrainingJob) (now : Z) : Request JobRun :=
  update (
    existing ← query (λ r, GetJob r (jb_id normalized));
    let job := default normalized existing in
    _ ← (match existing with Some _ => mret tt | None => put (PutJob job) end : StoreM unit);
    latest ← query (λ r, GetLatestRun r (jb_id job));
    let attempt := from_option (λ l, wrap64 (rn_attempt l + 1)) 1 latest in
    if attempt =? 0 then fail (status_error ResourceExhausted "run attempt counter is exhausted") else
    let run := NewRun sha256_hex job_wire job attempt JOB_RUN_STATE_VALIDATING now in
    _ ← put (PutRun run);
    _ ← remember "create-run" (cq_idempotency_key request) requestHash "" (jb_id job) (rn_id run);
    mret run).

Definition CreateJobRun (request : CreateJobRequest) : Request (option JobRun) :=
  let requestJobID := TrimSpace (cq_job_id request) in
  if bool_decide (cq_job request = None) && bool_decide (requestJobID = "")
  then throw (invalid_argument "job or job_id is required") else
  now ← tick;
  normalized ←
    (match cq_job request with
     | Some submitted =>
         match normalize submitted now with
         | (Some normalized, []) =>
             if negb (bool_decide (requestJobID = "")) && negb (bool_decide (jb_id normalized = requestJobID))
             then throw (invalid_argument "job.job_id must match job_id when both are set") else mret normalized
         | (_, diagnostics) => throw (invalid_argument (Join diagnostics "; "))
         end
     | None => view (λ r, from_option Ok (Err (not_found "job" requestJobID)) (GetJob r requestJobID))
     end : Request RLTrainingJob);
  let requestHash := match cq_job request with
                     | Some submitted => hashNormalizedJobRequest "create-run" normalized submitted
                     | None => hashStrings sha256_hex ["create-run"; requestJobID]
                     end in
  loaded ← view (loadCreateRunIdempotency (cq_idempotency_key request) requestHash);
  match loaded with
  | Some run => mret run
  | None => run ← create_run request requestHash normalized now; mret (Some run)
  end.

Definition ListJobRuns (jobID : string) (limit : Z) (pageToken afterRunID : string) : Request (list JobRun * string) :=
  if bool_decide (TrimSpace jobID = "") then throw (invalid_argument "job_id is required")
  else if negb (bool_decide (pageToken = "")) && negb (bool_decide (afterRunID = ""))
  then throw (invalid_argument "page_token is mutually exclusive with after_run_id")
  else view (λ r, match GetJob r jobID with
                  | None => Err (not_found "job" jobID)
                  | Some _ => query_error (ListRuns unicode_quote r jobID limit pageToken afterRunID)
                  end).

Definition GetJobRun (jobID runID : string) : Request (JobRun * string) :=
  if bool_decide (TrimSpace jobID = "") || bool_decide (TrimSpace runID = "")
  then throw (invalid_argument "job_id and run_id are required")
  else view (λ r, match GetRun r jobID runID with
                  | None => Err (status_error NotFound ("run " +:+ quote runID +:+ " for job " +:+ quote jobID +:+ " not found"))
                  | Some run => Ok (run, rn_cursor run)
                  end).

(** The page, the next token and the cursor of its last element. *)
Definition with_last_cursor {T} (cursor : T → string) (page : list T * string) : list T * string * string :=
  (page.1, page.2, from_option cursor "" (last page.1)).

Definition ListJobEvents (jobID runID afterEventID : string) (afterSequence limit : Z) (pageToken : string) :
    Request (list JobEvent * string * string) :=
  if bool_decide (TrimSpace jobID = "") then throw (invalid_argument "job_id is required")
  else if negb (bool_decide (TrimSpace pageToken = "")) &&
          (negb (afterSequence =? 0) || negb (bool_decide (TrimSpace afterEventID = "")))
  then throw (invalid_argument "page_token is mutually exclusive with after_sequence and after_event_id")
  else view (λ r, page ← query_error (ListEvents unicode_quote r jobID runID afterEventID afterSequence limit pageToken);
                  Ok (with_last_cursor je_cursor page)).

Definition WatchJobEvents (jobID runID : string) (afterSequence : Z) (afterEventID : string) : Request Z :=
  if bool_decide (TrimSpace jobID = "") then throw (invalid_argument "job_id is required") else
  atomically (λ _ c,
    match query_error (Watch unicode_quote (memory (store c)) jobID runID afterSequence afterEventID) with
    | Ok (watcherID, r) => (Ok watcherID, c <| store := (store c) <| memory := r |> |>)
    | Err e => (Err e, c)
    end).

Definition GetOperationRequest (operationID : string) : Request (Operation * string) :=
  if bool_decide (TrimSpace operationID = "") then throw (invalid_argument "operation_id is required") else
  view (λ r, match GetOperation r operationID with
             | None => Err (not_found "operation" operationID)
             | Some operation => Ok (operation, op_cursor operation)
             end).

Definition ListOperationsRequest (jobID runID : string) (opType : OperationType) (opState : OperationState) (limit : Z)
    (pageToken : string) : Request (list Operation * string * string) :=
  view (λ r, page ← query_error (ListOperations unicode_quote r jobID runID opType opState limit pageToken);
             Ok (with_last_cursor op_cursor page)).

Definition complete_incoming (o : Operation) (now : Z) : Operation :=
  let o := if bool_decide (TrimSpace (op_id o) = "") then
    o <| op_id := deterministicID sha256_hex "op"
           [OperationType_String (op_type o); op_job_id o; op_run_id o; op_request_id o; op_idempotency_key o] |> else o in
  let o := if bool_decide (op_created_at o = None) then o <| op_created_at := Some (timestamp_New now) |> else o in
  let o := if bool_decide (op_completed_at o = None) then o <| op_completed_at := Some (timestamp_New now) |> else o in
  if bool_decide (op_state o = OPERATION_STATE_UNKNOWN) then o <| op_state := OPERATION_STATE_SUCCEEDED |> else o.

Definition RecordOperation (operation : option Operation) : Request Operation :=
  match operation with
  | None => throw (invalid_argument "operation is required")
  | Some operation =>
      now ← tick;
      let incoming := complete_incoming operation now in
      update (
        job ← get_job (op_job_id incoming);
        existing ← query (λ r, GetOperation r (op_id incoming));
        match existing with
        | Some existing =>
            if negb (operation_Equal existing incoming)
            then fail (status_error AlreadyExists ("operation " +:+ quote (op_id incoming) +:+ " already exists with different content"))
            else mret existing
        | None =>
            run ← (if bool_decide (op_run_id incoming = "") then mret None else
                   run ← get_run (op_job_id incoming) (op_run_id incoming);
                   let run := append_operation run incoming in
                   _ ← put (PutRun run);
                   mret (Some run) : StoreM (option JobRun));
            _ ← put (PutOperation incoming);
            _ ← record_event JOB_EVENT_TYPE_OPERATION_RECORDED job run (Some incoming) None "operation recorded" now;
            mret incoming
        end)
  end.

(** ** Recovery ([reconcile.go]) *)

(** The pages of the running operations; a page is at least one operation further. *)
Fixpoint running_pages (fuel : nat) (r : MemoryRepository) (pageToken : string) : Result JobError (list Operation) :=
  match fuel with
  | O => Ok []
  | S fuel' =>
      '(page, next) ← ListOperations unicode_quote r "" "" OPERATION_TYPE_UNKNOWN OPERATION_STATE_RUNNING 100 pageToken;
      if bool_decide (next = "") then Ok page else
      rest ← running_pages fuel' r next;
      Ok (page ++ rest)
  end.

Definition listRunningOperations (r : MemoryRepository) : Result JobError (list Operation) :=
  operations ← running_pages (S (size (operations r))) r "";
  Ok (sort_by operation_less operations).

Definition hasRecoveryIdentity (operation : Operation) (r : MemoryRepository) : bool :=
  if bool_decide (TrimSpace (op_idempotency_key operation) = "") then false else
  let matches scope requestHash :=
    match GetIdempotency r scope (op_idempotency_key operation) with
    | Some record => bool_decide (ir_OperationID record = op_id operation) && bool_decide (ir_JobID record = op_job_id operation) &&
                     bool_decide (ir_RunID record = op_run_id operation) && bool_decide (ir_RequestHash record = requestHash)
    | None => false
    end in
  if bool_decide (op_type operation = OPERATION_TYPE_ADMIT)
  then matches "admit" (hashAdmitRequest (op_job_id operation) (op_reason operation))
  else match commandForOperation (op_type operation) with
       | Some command => matches "command" (hashCommandRequest (op_job_id operation) (op_run_id operation) command
                                              (op_actor operation) (op_reason operation))
       | None => false
       end.

Definition require_reconciliation (o : Operation) (detail : string) (now : Z) : Operation :=
  (fail_with o reconciliationRequiredCode detail now)
    <| op_annotations := <["reconciliation.manual_required" := "true"]> (op_annotations o) |>.

Definition markReconciliationRequired (operation : Operation) (detail : string) : Request unit :=
  now ← tick;
  update (
    if bool_decide (op_job_id operation = "") || bool_decide (op_run_id operation = "") then
      current ← query (λ r, GetOperation r (op_id operation));
      match current with
      | Some current => if is_running current then put (PutOperation (require_reconciliation current detail now)) else mret tt
      | None => mret tt
      end
    else
      '(job, run, current) ← load_committed (op_job_id operation) (op_run_id operation) (op_id operation);
      if negb (is_running current) then mret tt else
      let current := require_reconciliation current detail now in
      let run := upsert_status run
        (mkStatus "reconciliation" COMPONENT_HEALTH_DEGRADED detail "job-controller-recovery" 0 (Some (timestamp_New now)) ∅
           (jb_id job) (rn_id run) (rn_trace_id run) (rn_data_kind run) None RUNTIME_STATE_UNKNOWN false) in
      let run := append_operation run current in
      _ ← put (PutRun run);
      _ ← put (PutOperation current);
      record_event JOB_EVENT_TYPE_OPERATION_RECORDED job (Some run) (Some current) None detail now).

Definition operationCompleted (operationID : string) (r : MemoryRepository) : bool :=
  match GetOperation r operationID with Some o => negb (is_running o) | None => false end.

Definition still_running (o : option Operation) : bool := from_option is_running false o.

Definition replayOperation (operation : Operation) : Request unit :=
  match op_type operation with
  | OPERATION_TYPE_ADMIT =>
      let request := mkAdmitJobRequest (op_job_id operation) (op_request_id operation) (op_idempotency_key operation)
                       (op_reason operation) in
      response ← resumeAdmitPhase request (hashAdmitRequest (aq_job_id request) (aq_reason request)) (op_id operation)
                   (op_run_id operation) (op_job_id operation);
      if still_running (ar_operation response)
      then markReconciliationRequired operation "admission retry outcome remains unknown after restart" else mret tt
  | _ =>
      match commandForOperation (op_type operation) with
      | None => markReconciliationRequired operation "operation type cannot be safely replayed"
      | Some command =>
          let request := mkCommandRequest (op_job_id operation) (op_run_id operation) command (op_actor operation)
                           (op_reason operation) (op_request_id operation) (op_idempotency_key operation) in
          response ← resumeCommandPhase request
                       (hashCommandRequest (op_job_id operation) (op_run_id operation) command (op_actor operation) (op_reason operation))
                       (op_id operation) (op_run_id operation) (op_job_id operation);
          if still_running (pr_operation response) && negb (from_option commandDispatchAccepted false (pr_operation response))
          then markReconciliationRequired operation "runtime retry outcome remains unknown after restart" else mret tt
      end
  end.

Definition status_of_summary (operation : Operation) (summary : RuntimeStatusSummary) : ComponentStatus :=
  mkStatus "runtime" (componentHealthFromRuntime (rs_health summary)) (rs_detail summary) authoritativeRuntimeObservationSource
    (rs_revision summary) (rs_observed_at summary) (rs_annotations summary) (op_job_id operation) (op_run_id operation)
    (op_trace_id operation) (op_data_kind operation) (op_semantic_context operation) (rs_observed_runtime_state summary)
    (rs_converged summary).

Definition with_status_error (detail : string) (statusErr : option JobError) : string :=
  match statusErr with Some e => detail +:+ ": " +:+ Error_text e | None => detail end.

(** First what the runtime has seen, then a repetition where that is safe. *)
Definition reconcileOperation (operation : Operation) : Request unit :=
  let unknown := "operation outcome is unknown after restart and no matching idempotency record is available" in
  if bool_decide (op_run_id operation = "") || bool_decide (op_job_id operation = "")
  then markReconciliationRequired operation "operation is missing job or run identity"
  else if bool_decide (op_type operation = OPERATION_TYPE_ADMIT) || bool_decide (op_type operation = OPERATION_TYPE_RETRY) then
    known ← (view (λ r, Ok (hasRecoveryIdentity operation r)) : Request bool);
    if negb known then markReconciliationRequired operation unknown
    else if bool_decide (op_type operation = OPERATION_TYPE_RETRY) && commandDispatchAccepted operation
    then markReconciliationRequired operation "retry prepare was accepted before restart but did not reach a durable terminal state"
    else replayOperation operation
  else
    answer ← attempt (runtime (GetRuntimeStatus (op_run_id operation)));
    let statusErr := match answer with Err e => Some e | Ok _ => None end in
    let summary := match answer with
                   | Ok response => match rr_runtime_status response with
                                    | Some s => if runtimeObservationFollowsOperation operation s then Some s else None
                                    | None => None end
                   | Err _ => None end in
    done_ ← (match summary with
             | Some s =>
                 _ ← ReportComponentStatus (Some (status_of_summary operation s));
                 view (λ r, Ok (operationCompleted (op_id operation) r))
             | None => mret false
             end : Request bool);
    if done_ : bool then mret tt else
    known ← (view (λ r, Ok (hasRecoveryIdentity operation r)) : Request bool);
    if negb known then markReconciliationRequired operation (with_status_error unknown statusErr)
    else if commandDispatchAccepted operation
    then markReconciliationRequired operation
           (with_status_error "runtime accepted the operation before restart but current state does not confirm its outcome" statusErr)
    else replayOperation operation.

(** Each operation with the error that kept it, in order. *)
Fixpoint reconcile_each (l : list Operation) : Request (list (string * JobError)) :=
  match l with
  | [] => mret []
  | operation :: l' =>
      res ← attempt (reconcileOperation operation);
      rest ← reconcile_each l';
      mret (match res with Ok _ => rest | Err e => (op_id operation, e) :: rest end)
  end.

Definition ReconcileIncompleteOperations : Request (list (string * JobError)) :=
  listed ← view listRunningOperations;
  reconcile_each listed.

End Controller.
