(* ===== verification/JobRepositoryProofs.v ===== *)
(** * What the repository of the job controller promises

    A watch hands out every matching event after its floor, in order and without a gap,
    until it ends; what a restart finds is what was acknowledged, or one update that was
    refused after it had reached the disk; and walking the pages lists every operation
    once. *)

From Stdlib Require Import ZArith Lia String Ascii.
From stdpp Require Import base list strings gmap relations.
From S2P Require Import Prelude GoStrings GoTime ClusterModel Projection Validation JobModel JobRepository.
From stdpp Require Import options.

Local Open Scope Z_scope.

(** ** What a callback does to the store *)

Inductive store_step : memoryStore → memoryStore → Prop :=
| step_job job s : store_step s (PutJob job s)
| step_run run s : store_step s (PutRun run s)
| step_operation o s : store_step s (PutOperation o s)
| step_idempotency scope key record s : store_step s (PutIdempotency scope key record s)
| step_event e s : store_step s (AppendEvent e s).

Definition store_path : memoryStore → memoryStore → Prop := rtc store_step.

(** A callback that changes the store through its methods only. *)
Class Stores {A} (fn : StoreM A) : Prop := stores s a s' : fn s = Ok (a, s') → store_path s s'.

#[export] Instance stores_ret {A} (a : A) : Stores (mret a).
Proof. intros s b s' [= <- <-]. apply rtc_refl. Qed.

#[export] Instance stores_fail {A} e : Stores (fail e : StoreM A).
Proof. by intros s b s' H. Qed.

#[export] Instance stores_query {A} (q : MemoryRepository → A) : Stores (query q).
Proof. intros s b s' [= <- <-]. apply rtc_refl. Qed.

#[export] Instance stores_bind {A B} (m : StoreM A) (k : A → StoreM B) : Stores m → (∀ a, Stores (k a)) → Stores (m ≫= k).
Proof.
  intros Hm Hk s b s' H. unfold mbind, StoreM_bind in H. destruct (m s) as [[a s1]|] eqn:E; [|done].
  etrans; [by eapply Hm|]. by eapply Hk.
Qed.

#[export] Instance stores_job job : Stores (put (PutJob job)).
Proof. intros s [] s' [= <-]. apply rtc_once. constructor. Qed.
#[export] Instance stores_run run : Stores (put (PutRun run)).
Proof. intros s [] s' [= <-]. apply rtc_once. constructor. Qed.
#[export] Instance stores_operation o : Stores (put (PutOperation o)).
Proof. intros s [] s' [= <-]. apply rtc_once. constructor. Qed.
#[export] Instance stores_idempotency scope key record : Stores (put (PutIdempotency scope key record)).
Proof. intros s [] s' [= <-]. apply rtc_once. constructor. Qed.
#[export] Instance stores_event e : Stores (put (AppendEvent e)).
Proof. intros s [] s' [= <-]. apply rtc_once. constructor. Qed.

(** ** The log *)

(** The events are numbered from one without a gap. *)
Record log_ok (r : MemoryRepository) : Prop := {
  log_next : nextSequence r = Z.of_nat (length (log r));
  log_small : Z.of_nat (length (log r)) < two64;
  log_numbered i entry : log r !! i = Some entry → entry.1 = Z.of_nat i + 1 ∧ je_sequence entry.2 = entry.1;
}.

Definition number (e : JobEvent) (sequence : Z) : Z * JobEvent :=
  (sequence, e <| je_sequence := sequence |> <| je_cursor := FormatUint sequence |>).

Definition due (ws : gmap Z watcher) (entries : list (Z * JobEvent)) : list (Z * JobEvent) :=
  entries ≫= λ entry, deliveries_of ws entry.2.

(** The store after a callback: a longer log, and a delivery for every watch of every event. *)
Record grown (s s' : memoryStore) (entries : list (Z * JobEvent)) : Prop := {
  grown_log : log (repository s') = log (repository s) ++ entries;
  grown_watchers : watchers (repository s') = watchers (repository s);
  grown_channels : channels (repository s') = channels (repository s);
  grown_ids : nextWatcherID (repository s') = nextWatcherID (repository s);
  grown_deliveries : deliveries s' = deliveries s ++ due (watchers (repository s)) entries;
  grown_next : nextSequence (repository s) = Z.of_nat (length (log (repository s))) →
    Z.of_nat (length (log (repository s'))) < two64 → nextSequence (repository s') = Z.of_nat (length (log (repository s')));
  grown_numbered : nextSequence (repository s) = Z.of_nat (length (log (repository s))) →
    Z.of_nat (length (log (repository s'))) < two64 →
    ∀ i entry, entries !! i = Some entry →
      entry.1 = Z.of_nat (length (log (repository s)) + i) + 1 ∧ je_sequence entry.2 = entry.1;
}.

Lemma grown_refl s : grown s s [].
Proof. split; rewrite ?app_nil_r; done. Qed.

Lemma store_step_grown s s' : store_step s s' → ∃ entries, grown s s' entries.
Proof.
  intros H. destruct H as [job s|run s|o s|scope key record s|e s];
    [exists []; destruct (grown_refl s) as [? ? ? ? ? Hn Hm]; split; simpl in *; auto..|].
  exists [number e (wrap64 (nextSequence (repository s) + 1))].
  split; try done.
  - simpl. unfold due. simpl. by rewrite app_nil_r.
  - simpl. intros Hn Hs. rewrite length_app in *. simpl in *. rewrite Hn, wrap64_id; [lia|]. unfold is_u64. lia.
  - simpl. intros Hn Hs i entry Hi. rewrite length_app in Hs. simpl in Hs.
    apply list_lookup_singleton_Some in Hi as [-> <-]. simpl. rewrite Hn, wrap64_id; [|unfold is_u64; lia]. lia.
Qed.

Lemma grown_trans s1 s2 s3 l1 l2 : grown s1 s2 l1 → grown s2 s3 l2 → grown s1 s3 (l1 ++ l2).
Proof.
  intros H1 H2. destruct H1 as [Hl Hw Hc Hi Hd Hn Hm], H2 as [Hl' Hw' Hc' Hi' Hd' Hn' Hm']. split.
  - by rewrite Hl', Hl, app_assoc.
  - congruence.
  - congruence.
  - congruence.
  - rewrite Hd', Hd, Hw. unfold due. by rewrite bind_app, app_assoc.
  - intros H Hs. apply Hn'; [|done]. apply Hn; [done|]. rewrite Hl', length_app in Hs. lia.
  - intros H Hs i entry Hlook.
    assert (Hs2 : Z.of_nat (length (log (repository s2))) < two64) by (rewrite Hl', length_app in Hs; lia).
    apply lookup_app_Some in Hlook as [Hlook|[Hge Hlook]]; [by apply Hm|].
    destruct (Hm' (Hn H Hs2) Hs _ _ Hlook) as [-> ?]. split; [|done]. rewrite Hl, length_app. lia.
Qed.

Lemma store_path_grown s s' : store_path s s' → ∃ entries, grown s s' entries.
Proof.
  induction 1 as [s|s s1 s' Hs _ [l2 H2]]; [eauto using grown_refl|].
  destruct (store_step_grown _ _ Hs) as [l1 H1]. eauto using grown_trans.
Qed.

Lemma grown_log_ok s s' entries :
  log_ok (repository s) → grown s s' entries → Z.of_nat (length (log (repository s'))) < two64 → log_ok (repository s').
Proof.
  intros [Hn Hs Hm] Hg Hsmall. split; [by eapply grown_next|done|].
  intros i entry Hi. rewrite (grown_log _ _ _ Hg) in Hi. apply lookup_app_Some in Hi as [Hi|[Hge Hi]]; [eauto|].
  destruct (grown_numbered _ _ _ Hg Hn Hsmall _ _ Hi) as [-> ?]. split; [lia|done].
Qed.

(** ** Subscriptions *)

(** A watch as its consumer knows it: its target and floor, and what it has received. *)
Record Subscription := mkSubscription {
  su_jobID : string;
  su_runID : string;
  su_floor : Z;
  su_received : list JobEvent;
}.

#[export] Instance eta_Subscription : Eta Subscription := λ u,
  mkSubscription (su_jobID u) (su_runID u) (su_floor u) (su_received u).

(** All the consumer is to receive. *)
Definition wanted (r : MemoryRepository) (u : Subscription) : list JobEvent :=
  (filteredEventsLocked r (su_jobID u) (su_runID u) (su_floor u)).*2.

Definition pending (watcherID : Z) (ds : list (Z * JobEvent)) : list JobEvent :=
  omap (λ d, if bool_decide (d.1 = watcherID) then Some d.2 else None) ds.

(** Received, buffered and still to be delivered is all there is; after the end of the
    watch, what was handed out is the beginning of it. *)
Definition subscribed (r : MemoryRepository) (ds : list (Z * JobEvent)) (watcherID : Z) (u : Subscription) : Prop :=
  ∃ c, channels r !! watcherID = Some c ∧
    match watchers r !! watcherID with
    | Some w => w = mkWatcher (su_jobID u) (su_runID u) ∧ ch_closed c = false ∧
                su_received u ++ ch_buffer c ++ pending watcherID ds = wanted r u
    | None => ch_closed c = true ∧ (su_received u ++ ch_buffer c) `prefix_of` wanted r u
    end.

Lemma pending_cons watcherID d ds :
  pending watcherID (d :: ds) = (if bool_decide (d.1 = watcherID) then [d.2] else []) ++ pending watcherID ds.
Proof. unfold pending. cbn. by destruct (bool_decide _). Qed.

Lemma pending_deliveries_of watcherID ws e :
  pending watcherID (deliveries_of ws e) =
  match ws !! watcherID with
  | Some w => if matchesTarget e (wt_jobID w) (wt_runID w) then [e] else []
  | None => []
  end.
Proof.
  unfold deliveries_of. revert watcherID.
  assert (H : ∀ l, NoDup (l.*1 : list Z) → ∀ watcherID,
    pending watcherID (omap (λ '(k, w), if matchesTarget e (wt_jobID w) (wt_runID w) then Some (k, e) else None) l) =
    match (list_to_map l : gmap Z watcher) !! watcherID with
    | Some w => if matchesTarget e (wt_jobID w) (wt_runID w) then [e] else [] | None => [] end).
  { intros l. induction l as [|[k w] l IH]; intros Hnd watcherID; [by cbn; rewrite lookup_empty|].
    inversion Hnd as [|? ? Hk Hnd']; subst. cbn [omap list_omap list_to_map foldr fst snd]. specialize (IH Hnd' watcherID).
    destruct (decide (k = watcherID)) as [->|Hne].
    - rewrite lookup_insert_eq. cbn [fst] in Hk. apply not_elem_of_list_to_map_1 in Hk. rewrite Hk in IH.
      destruct (matchesTarget _ _ _); [|done]. rewrite pending_cons, IH. cbn. by rewrite bool_decide_eq_true_2.
    - rewrite lookup_insert_ne by done. destruct (matchesTarget _ _ _); [|done].
      rewrite pending_cons, IH. cbn. by rewrite bool_decide_eq_false_2. }
  intros watcherID. rewrite H by apply NoDup_fst_map_to_list. by rewrite list_to_map_to_list.
Qed.

Lemma pending_due watcherID ws w entries :
  ws !! watcherID = Some w →
  pending watcherID (due ws entries) = (filter (λ entry, matchesTarget entry.2 (wt_jobID w) (wt_runID w) = true) entries).*2.
Proof.
  intros Hw. unfold due. induction entries as [|e l IH]; [done|]. rewrite bind_cons. unfold pending in *.
  rewrite omap_app, IH. fold (pending watcherID (deliveries_of ws e.2)). rewrite pending_deliveries_of, Hw, filter_cons.
  destruct (matchesTarget _ _ _); case_decide; done || by destruct (decide (false = true)).
Qed.

Lemma wanted_log r r' u : log r' = log r → wanted r' u = wanted r u.
Proof. intros H. unfold wanted, filteredEventsLocked. by rewrite H. Qed.

Lemma change_channel_eq r k f c : channels r !! k = Some c → channels (change_channel r k f) !! k = Some (f c).
Proof. intros H. unfold change_channel. change (alter f k (channels r) !! k = Some (f c)). by rewrite lookup_alter_eq, H. Qed.

Lemma change_channel_ne r k f i : k ≠ i → channels (change_channel r k f) !! i = channels r !! i.
Proof. intros H. unfold change_channel. change (alter f k (channels r) !! i = channels r !! i). by rewrite lookup_alter_ne. Qed.

Lemma change_channel_rest r k f :
  log (change_channel r k f) = log r ∧ watchers (change_channel r k f) = watchers r ∧
  nextSequence (change_channel r k f) = nextSequence r ∧ nextWatcherID (change_channel r k f) = nextWatcherID r.
Proof. done. Qed.

(** One delivery moves an event into its channel, or ends the watch. *)
Lemma deliver_subscribed r d ds watcherID u :
  subscribed r (d :: ds) watcherID u → subscribed (deliverLocked r d) ds watcherID u.
Proof.
  intros (c & Hc & H). rewrite pending_cons in H. unfold deliverLocked.
  destruct (watchers r !! d.1) as [w'|] eqn:Hw'.
  2: { exists c. split; [done|]. case_bool_decide as E; [by rewrite <-E, Hw' in *|]. by destruct (watchers r !! watcherID). }
  destruct (channels r !! d.1) as [c'|] eqn:Hc'.
  2: { exists c. split; [done|]. case_bool_decide as E; [by rewrite <-E, Hc' in *|]. by destruct (watchers r !! watcherID). }
  set (ended := r <| watchers := delete d.1 (watchers r) |>).
  assert (He : watchers ended = delete d.1 (watchers r) ∧ channels ended = channels r) by done. destruct He as [Hew Hec].
  assert (Hel : log ended = log r) by done. clearbody ended.
  destruct (decide (d.1 = watcherID)) as [<-|Hne].
  - simplify_eq. rewrite Hw' in H. destruct H as (-> & Hopen & Hall).
    rewrite bool_decide_eq_true_2 in Hall by done. case_bool_decide as Hfit.
    + eexists. split; [by apply change_channel_eq|]. rewrite (proj1 (proj2 (change_channel_rest _ _ _))), Hw'.
      split_and!; [done..|]. rewrite (wanted_log r) by done. rewrite <-Hall. cbn. by rewrite <-app_assoc.
    + eexists. split; [apply change_channel_eq; by rewrite Hec|].
      rewrite (proj1 (proj2 (change_channel_rest _ _ _))), Hew, lookup_delete_eq. split; [done|].
      rewrite (wanted_log r) by done. rewrite <-Hall, app_assoc. by eexists.
  - rewrite bool_decide_eq_false_2 in H by done. cbn [app] in H. case_bool_decide as Hfit.
    + exists c. rewrite change_channel_ne by done. split; [done|].
      rewrite (proj1 (proj2 (change_channel_rest _ _ _))). rewrite (wanted_log r) by done. exact H.
    + exists c. rewrite change_channel_ne, Hec by done. split; [done|].
      rewrite (proj1 (proj2 (change_channel_rest _ _ _))), Hew, lookup_delete_ne by done. rewrite (wanted_log r) by done. exact H.
Qed.

Lemma deliver_all_subscribed ds r watcherID u :
  subscribed r ds watcherID u → subscribed (foldl deliverLocked r ds) [] watcherID u.
Proof. revert r. induction ds as [|d ds IH]; intros r H; [done|]. simpl. apply IH. by apply deliver_subscribed. Qed.

Lemma deliver_data r d :
  let r' := deliverLocked r d in
  log r' = log r ∧ nextSequence r' = nextSequence r ∧ nextWatcherID r' = nextWatcherID r ∧ jobs r' = jobs r ∧
  runs r' = runs r ∧ operations r' = operations r ∧ idempotency r' = idempotency r.
Proof. unfold deliverLocked, change_channel. repeat case_match; done. Qed.

Lemma deliver_all_data ds r :
  let r' := foldl deliverLocked r ds in
  log r' = log r ∧ nextSequence r' = nextSequence r ∧ nextWatcherID r' = nextWatcherID r ∧ jobs r' = jobs r ∧
  runs r' = runs r ∧ operations r' = operations r ∧ idempotency r' = idempotency r.
Proof.
  revert r. induction ds as [|d ds IH]; intros r; [done|]. simpl. specialize (IH (deliverLocked r d)).
  pose proof (deliver_data r d). simpl in *. intuition congruence.
Qed.

Lemma filter_iff_in {T} (P Q : T → Prop) `{!∀ x, Decision (P x), !∀ x, Decision (Q x)} (l : list T) :
  (∀ x, x ∈ l → P x ↔ Q x) → filter P l = filter Q l.
Proof.
  induction l as [|x l IH]; intros Hin; [done|]. rewrite !filter_cons, IH by (intros; apply Hin; by right).
  pose proof (Hin x (list_elem_of_here _ _)). by repeat case_decide; naive_solver.
Qed.

Lemma filter_keep_all {T} (P : T → Prop) `{!∀ x, Decision (P x)} (l : list T) : (∀ x, x ∈ l → P x) → filter P l = l.
Proof.
  induction l as [|x l IH]; intros Hin; [done|]. rewrite filter_cons, IH by (intros; apply Hin; by right).
  rewrite decide_True; [done|]. apply Hin. by left.
Qed.

Lemma filter_none {T} (P : T → Prop) `{!∀ x, Decision (P x)} (l : list T) : (∀ x, x ∈ l → ¬ P x) → filter P l = [].
Proof.
  induction l as [|x l IH]; intros Hin; [done|]. rewrite filter_cons, IH by (intros; apply Hin; by right).
  rewrite decide_False; [done|]. apply Hin. by left.
Qed.

(** New entries go to the end of what a subscriber is to receive. *)
Lemma wanted_grow r r' u entries :
  log r' = log r ++ entries → (∀ entry, entry ∈ entries → su_floor u < entry.1) →
  wanted r' u = wanted r u ++ (filter (λ entry, matchesTarget entry.2 (su_jobID u) (su_runID u) = true) entries).*2.
Proof.
  intros Hl Hf. unfold wanted, filteredEventsLocked. rewrite Hl, filter_app, fmap_app. f_equal. f_equal.
  apply filter_iff_in. intros e He. specialize (Hf e He). tauto.
Qed.

(** A commit: the log grows and every watch is owed its share of the new entries. *)
Lemma commit_subscribed r live entries watcherID u :
  subscribed r [] watcherID u →
  log live = log r ++ entries → watchers live = watchers r → channels live = channels r →
  (∀ entry, entry ∈ entries → su_floor u < entry.1) →
  subscribed (foldl deliverLocked live (due (watchers r) entries)) [] watcherID u.
Proof.
  intros (c & Hc & H) Hl Hw Hch Hf. apply deliver_all_subscribed. exists c. rewrite Hch, Hw. split; [done|].
  rewrite (wanted_grow r live u entries Hl Hf). destruct (watchers r !! watcherID) as [w|] eqn:Ew.
  - destruct H as (-> & Hopen & Hall). split_and!; [done..|]. cbn in Hall. rewrite app_nil_r in Hall.
    rewrite (pending_due _ _ _ _ Ew). by rewrite app_assoc, Hall.
  - destruct H as [? Hp]. split; [done|]. by apply prefix_app_r.
Qed.

(** ** The states a repository can reach, with its subscribers *)

Definition Observed : Type := FileRepository * gmap Z Subscription.

Section Watching.
Variable unicode_quote : string → string.
Variable gob_encodable : persistedState → bool.
Variable gob_error : persistedState → string.

Inductive watch_step : Observed → Observed → Prop :=
| watch_memory_update {A} (fn : StoreM A) r us : Stores fn →
    Z.of_nat (length (log (Update fn (memory r)).2)) < two64 →
    watch_step (r, us) (r <| memory := (Update fn (memory r)).2 |>, us)
| watch_file_update {A} jf sf (fn : StoreM A) r us : Stores fn →
    Z.of_nat (length (log (memory (FileUpdate gob_encodable gob_error jf sf fn r).2))) < two64 →
    watch_step (r, us) ((FileUpdate gob_encodable gob_error jf sf fn r).2, us)
| watch_start r us jobID runID afterSequence afterEventID floor watcherID m :
    nextWatcherID (memory r) + 1 < two64 → afterSequence < two64 →
    sequenceFloorLocked unicode_quote (memory r) afterSequence afterEventID = Ok floor →
    Watch unicode_quote (memory r) jobID runID afterSequence afterEventID = Ok (watcherID, m) →
    floor ≤ nextSequence (memory r) →
    watch_step (r, us) (r <| memory := m |>, <[watcherID := mkSubscription jobID runID floor []]> us)
| watch_receive r us watcherID u e m :
    us !! watcherID = Some u → receive (memory r) watcherID = (Event e, m) →
    watch_step (r, us) (r <| memory := m |>, <[watcherID := u <| su_received := su_received u ++ [e] |>]> us)
| watch_cancel r us watcherID : watch_step (r, us) (r <| memory := cancel (memory r) watcherID |>, us).
End Watching.

(** ** The invariant of the subscriptions *)

Record observed_ok (o : Observed) : Prop := {
  observed_log : log_ok (memory o.1);
  observed_ids : 0 ≤ nextWatcherID (memory o.1);
  observed_subs watcherID u : o.2 !! watcherID = Some u →
    watcherID ≤ nextWatcherID (memory o.1) ∧ su_floor u ≤ nextSequence (memory o.1) ∧ subscribed (memory o.1) [] watcherID u;
}.

(** Both repositories commit in the same way. *)
Lemma commit_ok r us live entries (r' : FileRepository) :
  observed_ok (r, us) → log_ok live → nextWatcherID live = nextWatcherID (memory r) →
  log live = log (memory r) ++ entries → watchers live = watchers (memory r) → channels live = channels (memory r) →
  memory r' = foldl deliverLocked live (due (watchers (memory r)) entries) → observed_ok (r', us).
Proof.
  intros [Hlog Hids Hsubs] Hlive Hni Hl Hw Hc Hr'. cbn [fst snd] in *.
  destruct (deliver_all_data (due (watchers (memory r)) entries) live) as (Dl & Dn & Di & _).
  assert (Hnext : nextSequence (memory r) ≤ nextSequence live).
  { rewrite (log_next _ Hlog), (log_next _ Hlive), Hl, length_app. lia. }
  split; cbn [fst snd]; rewrite Hr'.
  - destruct Hlive as [H1 H2 H3]. split; rewrite ?Dl, ?Dn; done.
  - rewrite Di, Hni. done.
  - intros k u Hu. destruct (Hsubs k u Hu) as (? & Hf & Hs). rewrite Di, Dn, Hni. split; [done|]. split; [lia|].
    apply (commit_subscribed (memory r)); try done. intros entry He.
    apply list_elem_of_lookup in He as [i Hi].
    assert (Hi' : log live !! (length (log (memory r)) + i)%nat = Some entry).
    { rewrite Hl, lookup_app_r by lia. by replace (length (log (memory r)) + i - length (log (memory r)))%nat with i by lia. }
    destruct (log_numbered _ Hlive _ _ Hi') as [-> _]. rewrite (log_next _ Hlog) in Hf. lia.
Qed.

Lemma memory_update_ok {A} (fn : StoreM A) r us :
  Stores fn → Z.of_nat (length (log (Update fn (memory r)).2)) < two64 → observed_ok (r, us) →
  observed_ok (r <| memory := (Update fn (memory r)).2 |>, us).
Proof.
  intros Hfn Hsmall Ho. unfold Update in *. destruct (fn _) as [[a s]|e] eqn:E; [|by destruct r].
  destruct (store_path_grown _ _ (Hfn _ _ _ E)) as [entries Hg].
  cbn [snd] in *. rewrite (proj1 (deliver_all_data _ _)) in Hsmall.
  pose proof (grown_log_ok (mkStore (memory r) []) s entries (observed_log _ Ho) Hg Hsmall).
  destruct Hg as [? ? ? ? Hd _ _]. cbn [repository deliveries app] in *.
  apply (commit_ok r us (repository s) entries); try done. cbn. by rewrite Hd.
Qed.

Lemma persist_memory enc err jf sf value r : memory (persist enc err jf sf value r).2 = memory r.
Proof. unfold persist. destruct (atomicWriteGob _ _ jf _ _) as [[[]|e] f]; done. Qed.

(** A committed update of the file repository. *)
Lemma FileUpdate_Ok {A} enc err jf sf (fn : StoreM A) r a r' :
  FileUpdate enc err jf sf fn r = (Ok a, r') →
  ∃ s, fn (mkStore ((memory r) <| watchers := ∅ |>) []) = Ok (a, s) ∧
       (persist enc err jf sf (captureRepository (repository s)) r).1 = Ok tt ∧
       memory r' = foldl deliverLocked (replaceStateLocked (memory r) (repository s))
                     (due (watchers (memory r)) (filter (λ entry, nextSequence (memory r) < entry.1) (log (repository s)))).
Proof.
  unfold FileUpdate. destruct (fn _) as [[b s]|e] eqn:E; [|done].
  destruct (persist _ _ _ _ _ _) as [[[]|e'] r1] eqn:Ep; [|done]. intros [= <- <-]. exists s. by rewrite Ep.
Qed.

Lemma FileUpdate_Err {A} enc err jf sf (fn : StoreM A) r e r' :
  FileUpdate enc err jf sf fn r = (Err e, r') → memory r' = memory r.
Proof.
  unfold FileUpdate. destruct (fn _) as [[b s]|e'] eqn:E; [|by intros [= _ <-]].
  pose proof (persist_memory enc err jf sf (captureRepository (repository s)) r) as Hm.
  destruct (persist _ _ _ _ _ _) as [[[]|e'] r1] eqn:Ep; [done|]. by intros [= _ <-].
Qed.

Lemma new_entries r entries :
  log_ok r → ∀ l, l = log r ++ entries →
  (∀ i entry, entries !! i = Some entry → entry.1 = Z.of_nat (length (log r) + i) + 1) →
  filter (λ entry, nextSequence r < entry.1) l = entries.
Proof.
  intros [Hn _ Hm] l -> He. rewrite filter_app.
  rewrite filter_none, filter_keep_all; [done| |].
  - intros entry [i Hi]%list_elem_of_lookup. rewrite (He _ _ Hi), Hn. lia.
  - intros entry [i Hi]%list_elem_of_lookup. destruct (Hm _ _ Hi) as [-> _]. apply lookup_lt_Some in Hi. lia.
Qed.

Lemma file_update_ok {A} enc err jf sf (fn : StoreM A) r us :
  Stores fn → Z.of_nat (length (log (memory (FileUpdate enc err jf sf fn r).2))) < two64 → observed_ok (r, us) →
  observed_ok ((FileUpdate enc err jf sf fn r).2, us).
Proof.
  intros Hfn Hsmall Ho. destruct (FileUpdate _ _ _ _ _ _) as [[a|e] r'] eqn:E; cbn [snd] in *.
  - destruct (FileUpdate_Ok _ _ _ _ _ _ _ _ E) as (s & Hs & _ & Hm).
    destruct (store_path_grown _ _ (Hfn _ _ _ Hs)) as [entries Hg].
    set (s0 := mkStore ((memory r) <| watchers := ∅ |>) []) in *.
    assert (Hl : log (repository s) = log (memory r) ++ entries) by apply (grown_log _ _ _ Hg).
    rewrite Hm, (proj1 (deliver_all_data _ _)) in Hsmall. change (log (replaceStateLocked _ _)) with (log (repository s)) in Hsmall.
    assert (Hlog0 : log_ok (repository s0)) by (destruct (observed_log _ Ho); by split).
    pose proof (grown_log_ok s0 s entries Hlog0 Hg Hsmall) as Hlive.
    rewrite (new_entries (memory r) entries (observed_log _ Ho)) in Hm.
    + apply (commit_ok r us (replaceStateLocked (memory r) (repository s)) entries); try done. destruct Hlive; by split.
    + done.
    + intros i entry Hi. apply (grown_numbered _ _ _ Hg (log_next _ Hlog0) Hsmall _ _ Hi).
  - pose proof (FileUpdate_Err _ _ _ _ _ _ _ _ E) as Hm. destruct Ho as [H1 H2 H3]. split; cbn [fst snd] in *; by rewrite Hm.
Qed.

Lemma file_memory (r : FileRepository) m : memory (r <| memory := m |>) = m.
Proof. done. Qed.

Lemma watch_start_ok quote r us jobID runID afterSequence afterEventID floor watcherID m :
  nextWatcherID (memory r) + 1 < two64 →
  sequenceFloorLocked quote (memory r) afterSequence afterEventID = Ok floor →
  Watch quote (memory r) jobID runID afterSequence afterEventID = Ok (watcherID, m) →
  floor ≤ nextSequence (memory r) → observed_ok (r, us) →
  observed_ok (r <| memory := m |>, <[watcherID := mkSubscription jobID runID floor []]> us).
Proof.
  intros Hid Hfl HW Hle [Hlog Hids Hsubs]. unfold Watch in HW. rewrite Hfl in HW. cbn [mbind Result_bind] in HW.
  cbn [fst snd] in *. rewrite wrap64_id in HW by (unfold is_u64; lia). injection HW as <- <-.
  set (n := nextWatcherID (memory r) + 1). split; cbn [fst snd].
  - destruct Hlog; by split.
  - cbn. lia.
  - intros k u Hu. cbn. destruct (decide (k = n)) as [->|Hne].
    + rewrite lookup_insert_eq in Hu. injection Hu as <-. split; [lia|]. split; [done|].
      eexists. cbn [channels watchers]. rewrite !lookup_insert_eq. split; [done|]. split_and!; [done..|].
      cbn. by rewrite app_nil_r.
    + rewrite lookup_insert_ne in Hu by done. destruct (Hsubs k u Hu) as (? & ? & c & Hc & H).
      split; [lia|]. split; [done|]. exists c. cbn [channels watchers]. by rewrite !lookup_insert_ne by done.
Qed.

Lemma receive_ok r us k u e m :
  us !! k = Some u → receive (memory r) k = (Event e, m) → observed_ok (r, us) →
  observed_ok (r <| memory := m |>, <[k := u <| su_received := su_received u ++ [e] |>]> us).
Proof.
  intros Hu Hr [Hlog Hids Hsubs]. cbn [fst snd] in *. unfold receive in Hr.
  destruct (channels (memory r) !! k) as [c|] eqn:Hc; [|done]. destruct (ch_buffer c) as [|e' rest] eqn:Hb; [by destruct (ch_closed c)|].
  injection Hr as -> <-. split; cbn [fst snd].
  - destruct Hlog; by split.
  - done.
  - intros k' u' Hu'. destruct (decide (k' = k)) as [->|Hne].
    + rewrite lookup_insert_eq in Hu'. injection Hu' as <-. destruct (Hsubs k u Hu) as (? & ? & c' & Hc' & H). simplify_eq.
      split; [done|]. split; [done|]. eexists. split; [by apply change_channel_eq|]. cbn [ch_buffer ch_closed].
      rewrite (wanted_log (memory r)) by done. change (watchers (memory (r <| memory := _ |>))) with (watchers (memory r)).
      rewrite Hb in H. destruct (watchers (memory r) !! k).
      * destruct H as (? & ? & H). split_and!; [done..|]. transitivity (wanted (memory r) u); [|done]. rewrite <-H.
        cbn. by rewrite <-app_assoc.
      * destruct H as [? H]. split; [done|]. cbn [su_received]. rewrite <-app_assoc. exact H.
    + rewrite lookup_insert_ne in Hu' by done. destruct (Hsubs k' u' Hu') as (? & ? & c' & Hc' & H).
      split; [done|]. split; [done|]. exists c'. split; [by rewrite <-Hc'; apply change_channel_ne|].
      rewrite (wanted_log (memory r)) by done. exact H.
Qed.

Lemma cancel_ok r us k : observed_ok (r, us) → observed_ok (r <| memory := cancel (memory r) k |>, us).
Proof.
  intros [Hlog Hids Hsubs]. cbn [fst snd] in *.
  assert (Hdata : log (cancel (memory r) k) = log (memory r) ∧ nextSequence (cancel (memory r) k) = nextSequence (memory r) ∧
    nextWatcherID (cancel (memory r) k) = nextWatcherID (memory r)) by (unfold cancel; cbn zeta; case_match; done).
  destruct Hdata as (Hl & Hn & Hi). split; cbn [fst snd memory].
  - destruct Hlog as [? ? ?]. split; rewrite ?file_memory, ?Hl, ?Hn; done.
  - by rewrite file_memory, Hi.
  - intros k' u Hu. rewrite file_memory, Hn, Hi. destruct (Hsubs k' u Hu) as (? & ? & c & Hc & H). split; [done|]. split; [done|].
    unfold subscribed. rewrite (wanted_log (memory r)) by done. cbn in H. unfold cancel.
    set (r0 := change_channel (memory r) k (λ c, c <| ch_registered := false |>)).
    assert (Hw0 : watchers r0 = watchers (memory r)) by done.
    assert (Hc0 : ∃ c0, channels r0 !! k' = Some c0 ∧ ch_buffer c0 = ch_buffer c ∧ ch_closed c0 = ch_closed c).
    { destruct (decide (k = k')) as [->|]; [eexists; split; [by apply change_channel_eq|done]|].
      exists c. split; [|done]. rewrite <-Hc. by apply change_channel_ne. }
    destruct Hc0 as (c0 & Hc0 & Hb & Hcl). clearbody r0. cbn zeta. rewrite Hw0.
    destruct (watchers (memory r) !! k) as [w|] eqn:Ew.
    + set (r1 := r0 <| watchers := delete k (watchers (memory r)) |>).
      assert (Hr1 : watchers r1 = delete k (watchers (memory r)) ∧ channels r1 = channels r0) by done. destruct Hr1 as [Hw1 Hc1]. clearbody r1.
      destruct (decide (k = k')) as [->|Hne].
      * eexists. split; [apply change_channel_eq; by rewrite Hc1|].
        rewrite (proj1 (proj2 (change_channel_rest _ _ _))), Hw1, lookup_delete_eq. split; [done|]. rewrite Ew in H.
        destruct H as (_ & _ & H). cbn [ch_buffer]. rewrite app_nil_r in H. cbn. by rewrite Hb, H.
      * exists c0. rewrite change_channel_ne, Hc1 by done. split; [done|].
        rewrite (proj1 (proj2 (change_channel_rest _ _ _))), Hw1, lookup_delete_ne by done. by rewrite Hb, Hcl.
    + exists c0. split; [done|]. rewrite Hw0, Hb, Hcl. exact H.
Qed.

Lemma watch_step_ok quote enc err o o' : observed_ok o → watch_step quote enc err o o' → observed_ok o'.
Proof.
  intros Ho Hs. destruct Hs; eauto using memory_update_ok, file_update_ok, watch_start_ok, receive_ok, cancel_ok.
Qed.

(** ** Taking up a watch where it ended *)

(** A list without duplicates is cut by an element of it in one way. *)
Lemma cut_unique {T} (x : T) a b c d : NoDup (a ++ x :: b) → a ++ x :: b = c ++ x :: d → a = c ∧ b = d.
Proof.
  revert c. induction a as [|y a IH]; intros [|z c] Hnd Heq; cbn in *; simplify_eq; [done| | |].
  - apply NoDup_cons in Hnd as [Hnd _]. exfalso. apply Hnd. set_solver.
  - apply NoDup_cons in Hnd as [Hnd _]. exfalso. apply Hnd. set_solver.
  - apply NoDup_cons in Hnd as [_ Hnd]. by destruct (IH c Hnd) as [-> ->].
Qed.

Lemma log_NoDup r : log_ok r → NoDup (log r).
Proof.
  intros [_ _ Hm]. apply NoDup_alt. intros a b y Ha Hb.
  destruct (Hm _ _ Ha) as [Ea _], (Hm _ _ Hb) as [Eb _]. lia.
Qed.

(** What was received up to an event, and then everything after that event. *)
Lemma wanted_resume r u l e :
  log_ok r → l ++ [e] `prefix_of` wanted r u → wanted r u = (l ++ [e]) ++ wanted r (u <| su_floor := je_sequence e |>).
Proof.
  intros Hlog [l' Hl]. unfold wanted, filteredEventsLocked in *.
  set (P := λ entry : Z * JobEvent, su_floor u < entry.1 ∧ matchesTarget entry.2 (su_jobID u) (su_runID u) = true) in *.
  rewrite Hl. f_equal. apply fmap_app_inv in Hl as (es & es' & Hes & -> & Hsplit).
  symmetry in Hes. apply fmap_app_inv in Hes as (es0 & [|x [|]] & -> & Hx & ->); simplify_eq/=. rename Hsplit into Hs.
  rewrite <-app_assoc in Hs. cbn in Hs.
  assert (HPx : x ∈ filter P (log r)) by (rewrite Hs; set_solver).
  apply list_elem_of_filter in HPx as [HPx [i Hi]%list_elem_of_lookup]. destruct (log_numbered _ Hlog _ _ Hi) as [Hx1 Hx2].
  assert (Hcut : filter P (log r) = filter P (take i (log r)) ++ x :: filter P (drop (S i) (log r))).
  { rewrite <-(take_drop_middle (log r) i x Hi) at 1. by rewrite filter_app, filter_cons, decide_True by done. }
  assert (Hnd : NoDup (filter P (log r))) by (apply NoDup_filter, log_NoDup, Hlog).
  rewrite Hs in Hcut, Hnd. destruct (cut_unique _ _ _ _ _ Hnd Hcut) as [_ ->]. f_equal.
  rewrite <-(take_drop_middle (log r) i x Hi) at 2. cbn. rewrite filter_app, filter_cons, decide_False by (cbn; lia).
  rewrite (filter_none _ (take i (log r))).
  - cbn. apply filter_iff_in. intros entry [k Hk]%list_elem_of_lookup. rewrite lookup_drop in Hk.
    destruct (log_numbered _ Hlog _ _ Hk) as [Hk1 _].
    destruct HPx as [HPx _]. unfold P. cbn. rewrite Hk1, Hx2, Hx1 in *. split; intros [? ?]; split; done || lia.
  - intros entry [k Hk]%list_elem_of_lookup [? _]. apply lookup_take_Some in Hk as [Hk ?].
    destruct (log_numbered _ Hlog _ _ Hk) as [? _]. cbn in *. lia.
Qed.

Lemma watch_steps_ok quote enc err o o' : observed_ok o → rtc (watch_step quote enc err) o o' → observed_ok o'.
Proof. intros Ho H. revert Ho. induction H; eauto using watch_step_ok. Qed.

Definition empty_repository : FileRepository := mkFileRepository NewMemoryRepository None None.

Lemma observed_empty : observed_ok (empty_repository, ∅).
Proof. split; [by split|done|]. intros k u H. cbn in H. by rewrite lookup_empty in H. Qed.

(** C15: Whatever updates, watches, receives and cancellations have happened, with however
    many consumers, what a consumer has received followed by what its channel holds is the
    beginning of the list of all events of its target after its floor, in the order of the
    log; it is the whole list as long as the watch has not ended, and when a watch ended
    because its consumer lagged, a new watch after the last event handed out is owed
    exactly the rest, so a consumer that resumes misses nothing and sees nothing twice. *)
Theorem watch_no_gap quote enc err r us watcherID u :
  rtc (watch_step quote enc err) (empty_repository, ∅) (r, us) → us !! watcherID = Some u →
  ∃ c, channels (memory r) !! watcherID = Some c ∧
    (su_received u ++ ch_buffer c) `prefix_of` wanted (memory r) u ∧
    (is_Some (watchers (memory r) !! watcherID) → su_received u ++ ch_buffer c = wanted (memory r) u) ∧
    ∀ handed e, su_received u ++ ch_buffer c = handed ++ [e] →
      ∃ watcherID' m c', Watch quote (memory r) (su_jobID u) (su_runID u) (je_sequence e) "" = Ok (watcherID', m) ∧
        channels m !! watcherID' = Some c' ∧ wanted (memory r) u = handed ++ [e] ++ ch_buffer c'.
Proof.
  intros Hsteps Hu. pose proof (watch_steps_ok _ _ _ _ _ observed_empty Hsteps) as [Hlog _ Hsubs]. cbn [fst snd] in *.
  destruct (Hsubs _ _ Hu) as (_ & _ & c & Hc & H). exists c. split; [done|].
  assert (Hp : (su_received u ++ ch_buffer c) `prefix_of` wanted (memory r) u).
  { destruct (watchers (memory r) !! watcherID); [|by destruct H]. destruct H as (_ & _ & <-). cbn. by rewrite app_nil_r. }
  split; [done|]. split.
  - intros [w Hw]. rewrite Hw in H. destruct H as (_ & _ & <-). cbn. by rewrite app_nil_r.
  - intros handed e Heq. rewrite Heq in Hp. do 3 eexists. split; [done|]. split; [by apply lookup_insert_eq|].
    rewrite app_assoc. by apply wanted_resume.
Qed.

(** ** What a restart finds *)

(** The repository, what its last acknowledged update left, and what each update refused
    since then would have left. *)
Record FileHistory := mkHistory {
  fh_now : FileRepository;
  fh_acknowledged : persistedState;
  fh_refused : list persistedState;
}.

Section Restarting.
Variable gob_encodable : persistedState → bool.
Variable gob_error : persistedState → string.

(** What a callback leaves, had it been committed. *)
Definition attempted {A} (fn : StoreM A) (r : FileRepository) : option persistedState :=
  match fn (mkStore ((memory r) <| watchers := ∅ |>) []) with
  | Ok (_, s) => Some (captureRepository (repository s))
  | Err _ => None
  end.

Inductive file_step : FileHistory → FileHistory → Prop :=
| file_acknowledged {A} jf sf (fn : StoreM A) r acknowledged refused a r' p :
    FileUpdate gob_encodable gob_error jf sf fn r = (Ok a, r') → attempted fn r = Some p →
    file_step (mkHistory r acknowledged refused) (mkHistory r' p [])
| file_refused {A} jf sf (fn : StoreM A) r acknowledged refused e r' :
    FileUpdate gob_encodable gob_error jf sf fn r = (Err e, r') →
    file_step (mkHistory r acknowledged refused) (mkHistory r' acknowledged (refused ++ option_list (attempted fn r)))
| file_restart r acknowledged refused :
    file_step (mkHistory r acknowledged refused) (mkHistory (restore r) (captureRepository (memory (restore r))) []).
End Restarting.

Definition new_history : FileHistory := mkHistory empty_repository (captureRepository NewMemoryRepository) [].

Definition on_disk (h : FileHistory) : Prop :=
  captureRepository (memory (fh_now h)) = fh_acknowledged h ∧
  match journalFile (fh_now h) with
  | Some p => p = fh_acknowledged h ∨ p ∈ fh_refused h
  | None => snapshotFile (fh_now h) = None ∧ fh_acknowledged h = captureRepository NewMemoryRepository
  end.

Lemma captured_deliveries ds r : captureRepository (foldl deliverLocked r ds) = captureRepository r.
Proof.
  destruct (deliver_all_data ds r) as (H1 & H2 & _ & H3 & H4 & H5 & H6). unfold captureRepository. congruence.
Qed.

Lemma captured_restore r :
  captureRepository (memory (restore r)) =
  match loadLatestState r with Some p => p | None => captureRepository NewMemoryRepository end.
Proof. unfold restore. by destruct (loadLatestState r) as [[]|]. Qed.

Lemma restore_files r : journalFile (restore r) = journalFile r ∧ snapshotFile (restore r) = snapshotFile r.
Proof. unfold restore. by destruct (loadLatestState r). Qed.

Lemma on_disk_step enc err h h' : on_disk h → file_step enc err h h' → on_disk h'.
Proof.
  intros [Hm Hj] H. destruct H as [A jf sf fn r ack refused a r' p HU Hp|A jf sf fn r ack refused e r' HU|r ack refused];
    cbn in Hm, Hj.
  - unfold attempted in Hp. destruct (FileUpdate_Ok _ _ _ _ _ _ _ _ HU) as (s & Hs & _ & Hm').
    rewrite Hs in Hp. injection Hp as <-. split; cbn; [by rewrite Hm', captured_deliveries|].
    unfold FileUpdate in HU. rewrite Hs in HU. unfold persist, atomicWriteGob in HU.
    destruct jf; cbn in HU; [|done|]; destruct (enc _); cbn in HU; simplify_eq/=. by left.
  - split; cbn; [by rewrite (FileUpdate_Err _ _ _ _ _ _ _ _ HU)|]. unfold attempted.
    unfold FileUpdate in HU. destruct (fn _) as [[a s]|e'].
    2: { injection HU as <- <-. destruct (journalFile r); [|done]. cbn. by rewrite app_nil_r. }
    unfold persist, atomicWriteGob in HU. cbn [option_list].
    destruct jf; cbn in HU; [destruct (enc _); cbn in HU; [done|]| |destruct (enc _); cbn in HU]; simplify_eq/=;
      try (right; set_solver); destruct (journalFile r); set_solver.
  - split; cbn [fh_now fh_acknowledged fh_refused]; [done|]. destruct (restore_files r) as [-> ->].
    rewrite captured_restore. unfold loadLatestState.
    destruct (journalFile r) as [p|]; [by left|]. destruct Hj as [-> _]. done.
Qed.

(** C14: Whatever steps of whatever writes fail and however often the process restarts, the
    process serves exactly what its last acknowledged update left, and a restart finds
    that, or what one of the updates refused since then would have left: no acknowledged
    update is lost, and nothing is invented. *)
Theorem restart_durable enc err h :
  rtc (file_step enc err) new_history h →
  captureRepository (memory (fh_now h)) = fh_acknowledged h ∧
  (captureRepository (memory (restore (fh_now h))) = fh_acknowledged h ∨
   captureRepository (memory (restore (fh_now h))) ∈ fh_refused h).
Proof.
  intros H. assert (Hd : on_disk h).
  { assert (H0 : on_disk new_history) by done. revert H0. induction H; eauto using on_disk_step. }
  destruct Hd as [Hm Hd]. split; [done|]. rewrite captured_restore. unfold loadLatestState.
  destruct (journalFile (fh_now h)) as [p|]; [done|]. destruct Hd as [-> ->]. by left.
Qed.
