(* ===== verification/JobSafety.v ===== *)
(** * What the requests of the job controller keep, together and across restarts

    Every request, alone or beside any others, keeps an invariant of the stored tables, only
    adds to the event log, and calls the runtime for a run only after the log on disk says
    that an operation of that run is under way.  The proof is by symbolic execution: of the
    callbacks on the store with [store_wp], of the requests with [Safe]. *)

From Stdlib Require Import ZArith Lia String Ascii.
From stdpp Require Import base list strings gmap relations.
From S2P Require Import Prelude GoStrings GoTime GoTimeText Programs ClusterModel Projection Validation JobModel JobRepository JobStatus JobLifecycle JobController JobRepositoryProofs.
From stdpp Require Import options.

Local Open Scope Z_scope.

(** ** Recorded operations *)

(** The log has an event that records the operation while it ran. *)
Definition recorded (E : list (Z * JobEvent)) (o : Operation) : Prop :=
  ∃ entry o', entry ∈ E ∧ je_type entry.2 = JOB_EVENT_TYPE_OPERATION_RECORDED ∧ je_operation entry.2 = Some o' ∧
    is_running o' = true ∧ op_id o' = op_id o ∧ op_run_id o' = op_run_id o ∧ op_type o' = op_type o.

Definition covered (E : list (Z * JobEvent)) (o : Operation) : Prop := is_running o = true → recorded E o.

Definition run_covered (E : list (Z * JobEvent)) (run : JobRun) : Prop := Forall (covered E) (rn_operations run).

(** Every operation under way is recorded, in the table and in its run; operations and runs
    are filed under their own names. *)
Record tables_ok (E : list (Z * JobEvent)) (ops : gmap string Operation) (rs : gmap string (gmap string JobRun)) : Prop := {
  tables_operation id o : ops !! id = Some o → op_id o = id ∧ covered E o;
  tables_run job m id run : rs !! job = Some m → m !! id = Some run → rn_id run = id ∧ run_covered E run;
}.

Lemma recorded_same E o o' :
  op_id o' = op_id o → op_run_id o' = op_run_id o → op_type o' = op_type o → recorded E o → recorded E o'.
Proof. intros Hi Hr Ht (entry & x & Hx). exists entry, x. rewrite Hi, Hr, Ht. exact Hx. Qed.

Lemma recorded_mono E E' o : E `prefix_of` E' → recorded E o → recorded E' o.
Proof. intros [l ->] (entry & o' & ? & ?). exists entry, o'. split; [|done]. set_solver. Qed.

Lemma covered_mono E E' o : E `prefix_of` E' → covered E o → covered E' o.
Proof. intros ? H ?. eapply recorded_mono; eauto. Qed.

Lemma run_covered_mono E E' run : E `prefix_of` E' → run_covered E run → run_covered E' run.
Proof. intros ? H. eapply Forall_impl; [exact H|]. intros. by eapply covered_mono. Qed.

Lemma tables_mono E E' ops rs : E `prefix_of` E' → tables_ok E ops rs → tables_ok E' ops rs.
Proof.
  intros HE [Ho Hr]. split; [intros id o Hid; destruct (Ho _ _ Hid); split; [done|by eapply covered_mono]|].
  intros job m id run Hm Hi. destruct (Hr _ _ _ _ Hm Hi). split; [done|by eapply run_covered_mono].
Qed.

(** ** Operations and runs the callbacks make of others *)

Lemma covered_settled E o : is_running o = false → covered E o.
Proof. intros H. unfold covered. by rewrite H. Qed.

Lemma covered_same E o o' :
  op_state o' = op_state o → op_id o' = op_id o → op_run_id o' = op_run_id o → op_type o' = op_type o →
  covered E o → covered E o'.
Proof. unfold covered, is_running. intros -> ? ? ? H ?. eapply recorded_same; eauto. Qed.

Lemma covered_cursor E o : covered E o → covered E (with_cursor o).
Proof. unfold with_cursor. case_bool_decide; [|done]. by apply covered_same. Qed.

Lemma appendOperation_elem l o x : x ∈ appendOperation l o → x = o ∨ x ∈ l.
Proof.
  unfold appendOperation. intros H.
  assert (Hx : x = o ∨ x ∈ (λ current, if bool_decide (op_id current = op_id o) then o else current) <$> l)
    by (case_match; set_solver).
  destruct Hx as [->|(y & -> & ?)%list_elem_of_fmap]; [by left|]. case_bool_decide; auto.
Qed.

Lemma run_covered_append E run o : run_covered E run → covered E o → run_covered E (append_operation run o).
Proof.
  unfold run_covered. rewrite !Forall_forall. intros Hr Ho x Hx. change (x ∈ appendOperation (rn_operations run) o) in Hx.
  apply appendOperation_elem in Hx as [->|]; auto.
Qed.

Lemma run_covered_operations E run run' : rn_operations run' = rn_operations run → run_covered E run → run_covered E run'.
Proof. unfold run_covered. by intros ->. Qed.

Lemma latest_operation_elem wanted run o : latest_operation wanted run = Some o → o ∈ rn_operations run ∧ wanted o = true.
Proof.
  unfold latest_operation. set (f := λ latest x, _).
  assert (H : ∀ l acc r, foldl f acc l = Some r → acc = Some r ∨ (r ∈ l ∧ wanted r = true)).
  { induction l as [|x l IH]; intros acc r Hr; [by left|]. simpl in Hr. apply IH in Hr.
    unfold f in Hr. destruct (wanted x) eqn:Hx; cbn in Hr.
    - destruct acc as [y|]; [case_match|]; destruct Hr as [[= <-]|[? ?]]; set_solver.
    - destruct Hr as [->|[? ?]]; [by left|]. right. set_solver. }
  intros Hl. apply H in Hl. by destruct Hl.
Qed.

Lemma run_covered_in E run o : run_covered E run → o ∈ rn_operations run → covered E o.
Proof. unfold run_covered. rewrite Forall_forall. auto. Qed.

(** ** Symbolic execution of a callback *)

Definition events (s : memoryStore) : list (Z * JobEvent) := log (repository s).

Definition store_ok (E : list (Z * JobEvent)) (s : memoryStore) : Prop :=
  tables_ok E (operations (repository s)) (runs (repository s)).

Definition store_wp {A} (fn : StoreM A) (s : memoryStore) (Q : A → memoryStore → Prop) : Prop :=
  match fn s with Ok (a, s') => Q a s' | Err _ => True end.

Lemma wp_ret {A} (a : A) s (Q : A → memoryStore → Prop) : Q a s → store_wp (mret a) s Q.
Proof. done. Qed.

Lemma wp_fail {A} e s (Q : A → memoryStore → Prop) : store_wp (fail e) s Q.
Proof. done. Qed.

Lemma wp_bind {A B} (m : StoreM A) (k : A → StoreM B) s Q :
  store_wp m s (λ a s', store_wp (k a) s' Q) → store_wp (m ≫= k) s Q.
Proof. unfold store_wp, mbind, StoreM_bind. by destruct (m s) as [[a s']|]. Qed.

Lemma wp_query {A} (q : MemoryRepository → A) s (Q : A → memoryStore → Prop) :
  Q (q (repository s)) s → store_wp (query q) s Q.
Proof. done. Qed.

Lemma wp_put f s (Q : unit → memoryStore → Prop) : Q tt (f s) → store_wp (put f) s Q.
Proof. done. Qed.

Lemma wp_lift {A} (r : Result JobError A) s (Q : A → memoryStore → Prop) :
  (∀ a, r = Ok a → Q a s) → store_wp (lift_store r) s Q.
Proof. destruct r; [|done]. intros H. by apply H. Qed.

Lemma wp_mono {A} (fn : StoreM A) s (Q Q' : A → memoryStore → Prop) :
  store_wp fn s Q → (∀ a s', Q a s' → Q' a s') → store_wp fn s Q'.
Proof. unfold store_wp. destruct (fn s) as [[a s']|]; auto. Qed.

Lemma events_job job s : events (PutJob job s) = events s. Proof. done. Qed.
Lemma events_run run s : events (PutRun run s) = events s. Proof. done. Qed.
Lemma events_operation o s : events (PutOperation o s) = events s. Proof. done. Qed.
Lemma events_idempotency scope key record s : events (PutIdempotency scope key record s) = events s. Proof. done. Qed.

Lemma events_append e s : events s `prefix_of` events (AppendEvent e s).
Proof. by eexists. Qed.

Lemma recorded_append e s o :
  je_type e = JOB_EVENT_TYPE_OPERATION_RECORDED → je_operation e = Some o → is_running o = true →
  recorded (events (AppendEvent e s)) o.
Proof. intros Ht Ho Hr. eexists _, o. split; [apply elem_of_app; right; by apply list_elem_of_singleton|]. done. Qed.

Lemma ok_job E job s : store_ok E s → store_ok E (PutJob job s). Proof. done. Qed.
Lemma ok_idempotency E scope key record s : store_ok E s → store_ok E (PutIdempotency scope key record s). Proof. done. Qed.
Lemma ok_event E e s : store_ok E s → store_ok E (AppendEvent e s). Proof. done. Qed.

Lemma ok_operation E o s : covered E o → store_ok E s → store_ok E (PutOperation o s).
Proof.
  intros Hc [Ho Hr]. split; [|exact Hr]. intros id x Hx.
  change (<[op_id o := with_cursor o]> (operations (repository s)) !! id = Some x) in Hx.
  apply lookup_insert_Some in Hx as [[<- <-]|[_ Hx]]; [|by eapply Ho].
  split; [unfold with_cursor; by case_bool_decide|by apply covered_cursor].
Qed.

Lemma ok_run E run s : run_covered E run → store_ok E s → store_ok E (PutRun run s).
Proof.
  intros Hc [Ho Hr]. split; [exact Ho|]. intros job m id x Hm Hx.
  change (<[rn_job_id run := <[rn_id run := run]> (runs_of (repository s) (rn_job_id run))]> (runs (repository s)) !! job = Some m) in Hm.
  apply lookup_insert_Some in Hm as [[_ <-]|[_ Hm]]; [|by eapply Hr].
  apply lookup_insert_Some in Hx as [[<- <-]|[_ Hx]]; [done|].
  unfold runs_of in Hx. destruct (runs (repository s) !! rn_job_id run) as [m'|] eqn:E'; [by eapply Hr|].
  cbn in Hx. by rewrite lookup_empty in Hx.
Qed.

(** What a table lookup gives. *)
Lemma ok_GetRun E s job id run : store_ok E s → GetRun (repository s) job id = Some run → rn_id run = id ∧ run_covered E run.
Proof.
  intros [_ Hr]. unfold GetRun, runs_of. destruct (runs (repository s) !! job) as [m|] eqn:Em; [by eapply Hr|].
  cbn. by rewrite lookup_empty.
Qed.

Lemma latest_by_elem {T} (better : T → T → bool) l x : latest_by better l = Some x → x ∈ l.
Proof.
  unfold latest_by. set (f := λ latest x, _).
  assert (H : ∀ l acc r, foldl f acc l = Some r → acc = Some r ∨ r ∈ l).
  { clear. induction l as [|y l IH]; intros acc r Hr; [by left|]. simpl in Hr. apply IH in Hr as [Hr|?]; [|set_solver].
    unfold f in Hr. destruct acc as [z|]; [destruct (better y z)|]; simplify_eq; set_solver. }
  intros Hl. apply H in Hl. by destruct Hl.
Qed.

Lemma ok_GetLatestRun E s job run : store_ok E s → GetLatestRun (repository s) job = Some run → run_covered E run.
Proof.
  intros Hs H. apply latest_by_elem, list_elem_of_fmap in H as ([id x] & -> & H). apply elem_of_map_to_list in H.
  exact (proj2 (ok_GetRun _ _ _ _ _ Hs H)).
Qed.

Lemma ok_GetOperation E s id o : store_ok E s → GetOperation (repository s) id = Some o → covered E o.
Proof. intros [Ho _] H. by eapply Ho. Qed.

Lemma ok_GetLatestOperation E s job run opType o :
  store_ok E s → GetLatestOperation (repository s) job run opType = Some o → covered E o.
Proof.
  intros [Ho _] H. apply latest_by_elem, list_elem_of_filter in H as [_ ([id x] & -> & H)%list_elem_of_fmap].
  apply elem_of_map_to_list in H. by eapply Ho.
Qed.

Lemma ok_mono E E' s : E `prefix_of` E' → store_ok E s → store_ok E' s.
Proof. apply tables_mono. Qed.

(** ** What an update may commit *)

Definition commits (s s' : memoryStore) : Prop := events s `prefix_of` events s' ∧ store_ok (events s') s'.

(** The new state is examined against the log it ends with. *)
Lemma commits_intro s s' :
  store_ok (events s) s → events s `prefix_of` events s' →
  (∀ E, E = events s' → events s `prefix_of` E → store_ok E s → store_ok E s') → commits s s'.
Proof. intros Hs Hp H. split; [done|]. apply H; [done..|]. by eapply ok_mono. Qed.

Lemma commits_refl s : store_ok (events s) s → commits s s.
Proof. by split. Qed.

(** ** The invariant of the controller *)

Definition log_of (c : Controller) : list (Z * JobEvent) := log (memory (store c)).

Definition working (c : Controller) : memoryStore := mkStore ((memory (store c)) <| watchers := ∅ |>) [].

(** The tables in memory agree with the log, and so do those on disk, whose log goes at
    least as far. *)
Record controller_ok (c : Controller) : Prop := {
  controller_memory : store_ok (log_of c) (working c);
  controller_disk :
    match journalFile (store c) with
    | Some p => log_of c `prefix_of` ps_Events p ∧ tables_ok (ps_Events p) (ps_Operations p) (ps_Runs p)
    | None => snapshotFile (store c) = None ∧ captureRepository (memory (store c)) = captureRepository NewMemoryRepository
    end;
}.

(** The log only grows. *)
Definition log_grows (c c' : Controller) : Prop := log_of c `prefix_of` log_of c'.

(** The log on disk says that an operation of the run is under way. *)
Definition on_record (c : Controller) (runID : string) : Prop :=
  ∃ p o, journalFile (store c) = Some p ∧ recorded (ps_Events p) o ∧ op_run_id o = runID.

(** The run a call takes somewhere. *)
Definition moved_run (call : RuntimeRequest) : option string :=
  match call with
  | PrepareRuntime runID _ _ | StartRuntime runID _ _ | PauseRuntime runID _ _ _ | ResumeRuntime runID _ _
  | StopRuntime runID _ _ _ | TerminateRuntime runID _ _ _ => Some runID
  | ValidateRuntime _ _ _ | CompileRuntime _ _ _ | GetRuntimeStatus _ => None
  end.

Definition call_recorded (call : RuntimeRequest) (c : Controller) : Prop :=
  match moved_run call with Some runID => on_record c runID | None => True end.

Lemma recorded_on_disk c o : controller_ok c → recorded (log_of c) o → on_record c (op_run_id o).
Proof.
  intros [_ Hd] Hr. destruct (journalFile (store c)) as [p|] eqn:Ej.
  - destruct Hd as [Hp _]. exists p, o. split; [done|]. split; [by eapply recorded_mono|done].
  - destruct Hd as [_ Hm]. assert (Hl : log_of c = []) by (by injection Hm). rewrite Hl in Hr.
    destruct Hr as (? & ? & H & _). by apply elem_of_nil in H.
Qed.

Lemma later_log c c' : later log_grows c c' → log_of c `prefix_of` log_of c'.
Proof. induction 1; [done|]. by etrans. Qed.

(** ** Symbolic execution of a request *)

(** The request is safe from the state on; an answer has the property, of the log by then. *)
Definition Safe {A} (p : Request A) (c : Controller) (Q : A → list (Z * JobEvent) → Prop) : Prop :=
  safe controller_ok log_grows call_recorded p c (λ r c', log_of c `prefix_of` log_of c' ∧
    match r with Ok a => Q a (log_of c') | Err _ => True end).

Lemma Safe_ret {A} (a : A) c (Q : A → list (Z * JobEvent) → Prop) : Q a (log_of c) → Safe (mret a) c Q.
Proof. by split. Qed.

Lemma Safe_throw {A} e c (Q : A → list (Z * JobEvent) → Prop) : Safe (throw e) c Q.
Proof. by split. Qed.

Lemma Safe_lift {A} (r : Result JobError A) c (Q : A → list (Z * JobEvent) → Prop) :
  (∀ a, r = Ok a → Q a (log_of c)) → Safe (lift r) c Q.
Proof. intros H. split; [done|]. destruct r; auto. Qed.

Lemma Safe_mono {A} (p : Request A) c (Q Q' : A → list (Z * JobEvent) → Prop) :
  Safe p c Q → (∀ a E, log_of c `prefix_of` E → Q a E → Q' a E) → Safe p c Q'.
Proof. intros H HQ. eapply safe_mono; [exact H|]. intros [a|e] c' [? ?]; cbn; auto. Qed.

Lemma Safe_bind {A B} (p : Request A) (k : A → Request B) c Q Q' :
  Safe p c Q → (∀ a c', log_of c `prefix_of` log_of c' → Q a (log_of c') → Safe (k a) c' Q') → Safe (p ≫= k) c Q'.
Proof.
  intros Hp Hk. eapply safe_bind; [exact Hp|]. intros [a|e] c' [Hl HQ]; cbn; [|by split].
  eapply safe_mono; [exact (Hk a c' Hl HQ)|]. intros r c'' [Hl' Hr]. split; [by etrans|done].
Qed.

Lemma Safe_attempt {A} (p : Request A) c Q (Q' : Result JobError A → list (Z * JobEvent) → Prop) :
  Safe p c Q → (∀ r E, log_of c `prefix_of` E → match r with Ok a => Q a E | Err _ => True end → Q' r E) →
  Safe (attempt p) c Q'.
Proof. intros Hp HQ. eapply safe_bind; [exact Hp|]. intros r c' [? ?]. split; cbn; auto. Qed.

Lemma Safe_tick c (Q : Z → list (Z * JobEvent) → Prop) : (∀ t, Q t (log_of c)) → Safe tick c Q.
Proof. intros H t. by split. Qed.

Lemma Safe_runtime call c (Q : RuntimeResponse → list (Z * JobEvent) → Prop) :
  (∀ c', log_of c `prefix_of` log_of c' → controller_ok c' → call_recorded call c') → (∀ r, Q r (log_of c)) →
  Safe (runtime call) c Q.
Proof. intros Hc HQ. split; [intros c' Hl; apply Hc; by apply later_log|]. intros [r|e]; split; auto. Qed.

(** A step that leaves repository and disk as they are. *)
Lemma Safe_step {A} (f : Controller → Result JobError A * Controller) c (Q : A → list (Z * JobEvent) → Prop) :
  (∀ c', memory (store (f c').2) = memory (store c') ∧ journalFile (store (f c').2) = journalFile (store c') ∧
         snapshotFile (store (f c').2) = snapshotFile (store c')) →
  (∀ c' a, log_of c `prefix_of` log_of c' → controller_ok c' → (f c').1 = Ok a → Q a (log_of c')) →
  Safe (atomically (λ _, f)) c Q.
Proof.
  intros Hf HQ e c' Hl%later_log Hok. destruct (Hf c') as (Hm & Hj & Hs).
  assert (Hlog : log_of (f c').2 = log_of c') by (unfold log_of; by rewrite Hm).
  split_and!.
  - destruct Hok as [H1 H2]. split; unfold working; rewrite ?Hlog, ?Hm, ?Hj, ?Hs; done.
  - unfold log_grows. by rewrite Hlog.
  - cbn. rewrite Hlog. split; [done|]. destruct (f c').1 eqn:E; eauto.
Qed.

Lemma Safe_view {A} (q : MemoryRepository → Result JobError A) c (Q : A → list (Z * JobEvent) → Prop) :
  (∀ c' a, log_of c `prefix_of` log_of c' → controller_ok c' → q (memory (store c')) = Ok a → Q a (log_of c')) →
  Safe (view q) c Q.
Proof. intros H. by apply (Safe_step (λ c', (View q (memory (store c')), c'))). Qed.

Lemma Safe_await i c (Q : Reply → list (Z * JobEvent) → Prop) :
  (∀ r E, log_of c `prefix_of` E → Q r E) → Safe (await i) c Q.
Proof. intros HQ c' Hl%later_log Hok _. split; [done|]. case_match; auto. Qed.

Definition refused_or {A} (Q : A → list (Z * JobEvent) → Prop) (r : Result JobError A) (E : list (Z * JobEvent)) : Prop :=
  match r with Ok a => Q a E | Err _ => True end.

(** Whatever write fails, an update that may be committed keeps the invariant. *)
Lemma FileUpdate_ok {A} enc err jf sf (fn : StoreM A) c c' Q :
  controller_ok c → store_wp fn (working c) (λ a s', commits (working c) s' ∧ Q a (events s')) →
  store c' = (FileUpdate enc err jf sf fn (store c)).2 →
  controller_ok c' ∧ log_grows c c' ∧ refused_or Q (FileUpdate enc err jf sf fn (store c)).1 (log_of c').
Proof.
  intros Hok Hwp Hst. unfold store_wp, working in Hwp. unfold log_grows, log_of in *. rewrite Hst.
  destruct Hok as [Hm Hd]. unfold log_of in *. unfold FileUpdate in *.
  destruct (fn _) as [[a s']|e] eqn:Ef; cbn [fst snd] in *.
  2: { split; [|by split]. split; unfold log_of, working; by rewrite Hst. }
  destruct Hwp as [[Hp Hs'] HQ]. unfold persist, atomicWriteGob in *.
  assert (Hrefused : ∀ file, journalFile (store c') = Some (captureRepository (repository s')) →
    memory (store c') = memory (store c) → file = snapshotFile (store c') → controller_ok c').
  { intros file Hj Hmem _. split; unfold log_of, working; rewrite ?Hj, Hmem; [exact Hm|]. split; [exact Hp|exact Hs']. }
  assert (Hkept : journalFile (store c') = journalFile (store c) → snapshotFile (store c') = snapshotFile (store c) →
    memory (store c') = memory (store c) → controller_ok c').
  { intros Hj Hsn Hmem. split; unfold log_of, working; rewrite ?Hj, ?Hsn, Hmem; done. }
  destruct jf as [|text|text]; cbn [negb] in *.
  - destruct (enc _); cbn [negb] in *; [|rewrite <-Hst; split; [apply Hkept; by rewrite Hst|by rewrite Hst; split]].
    set (live := replaceStateLocked (memory (store c)) (repository s')) in *.
    set (due := _ ≫= _) in *. destruct (deliver_all_data due live) as (Dl & _ & _ & _ & Dr & Do & _).
    change (log live) with (log (repository s')) in Dl. change (runs live) with (runs (repository s')) in Dr.
    change (operations live) with (operations (repository s')) in Do.
    assert (Hc' : memory (store c') = foldl deliverLocked live due) by (by rewrite Hst).
    assert (Hj : journalFile (store c') = Some (captureRepository (repository s'))) by (by rewrite Hst).
    rewrite <-Hst, Hc', Dl. split; [|split; [exact Hp|exact HQ]]. split.
    + unfold log_of, working, store_ok. rewrite Hc', Dl. change (tables_ok (log (repository s')) (operations (foldl deliverLocked live due)) (runs (foldl deliverLocked live due))).
      rewrite Do, Dr. exact Hs'.
    + rewrite Hj. unfold log_of. rewrite Hc', Dl. split; [done|exact Hs'].
  - rewrite <-Hst. split; [apply Hkept; by rewrite Hst|by rewrite Hst; split].
  - destruct (enc _); cbn [negb] in *; rewrite <-Hst.
    + split; [by eapply Hrefused; rewrite Hst|by rewrite Hst; split].
    + split; [apply Hkept; by rewrite Hst|by rewrite Hst; split].
Qed.

(** What one atomic step has to show. *)
Lemma Safe_atomic {A} (f : Faults → Controller → Result JobError A * Controller) c (Q : A → list (Z * JobEvent) → Prop) :
  (∀ e c', log_of c `prefix_of` log_of c' → controller_ok c' →
     controller_ok (f e c').2 ∧ log_grows c' (f e c').2 ∧ refused_or Q (f e c').1 (log_of (f e c').2)) →
  Safe (atomically f) c Q.
Proof.
  intros H e c' Hl%later_log Hok. destruct (H e c' Hl Hok) as (H1 & H2 & H3). split_and!; [done..|].
  split; [by etrans|]. exact H3.
Qed.

Lemma Safe_update {A} enc err (fn : StoreM A) c (Q : A → list (Z * JobEvent) → Prop) :
  (∀ c', log_of c `prefix_of` log_of c' → controller_ok c' →
     store_wp fn (working c') (λ a s', commits (working c') s' ∧ Q a (events s'))) →
  Safe (update enc err fn) c Q.
Proof.
  intros H. apply Safe_atomic. intros e c' Hl Hok. specialize (H c' Hl Hok).
  pose proof (FileUpdate_ok enc err (journal_fault e) (snapshot_fault e) fn c') as HF.
  destruct (FileUpdate enc err (journal_fault e) (snapshot_fault e) fn (store c')) as [res r].
  by apply (HF (c' <| store := r |>) Q Hok H).
Qed.

Lemma Safe_update_numbered {A} enc err (fn : Z → StoreM (A * bool)) c (Q : A → list (Z * JobEvent) → Prop) :
  (∀ sequence c', log_of c `prefix_of` log_of c' → controller_ok c' →
     store_wp (fn sequence) (working c') (λ a s', commits (working c') s' ∧ Q a.1 (events s'))) →
  Safe (update_numbered enc err fn) c Q.
Proof.
  intros H. apply Safe_atomic. intros e c' Hl Hok. set (sequence := wrap64 (operationSequence c' + 1)).
  specialize (H sequence c' Hl Hok). cbn zeta. fold sequence.
  pose proof (FileUpdate_ok enc err (journal_fault e) (snapshot_fault e) (fn sequence) c') as HF.
  destruct (FileUpdate enc err (journal_fault e) (snapshot_fault e) (fn sequence) (store c')) as [res r].
  set (c2 := c' <| store := r |> <| operationSequence := _ |>).
  destruct (HF c2 (λ a, Q a.1) Hok H) as (? & ? & ?); [done|]. split_and!; [done..|]. by destruct res as [[]|].
Qed.

(** Follow the log through the states of a request. *)
Ltac log_chain :=
  first [assumption | reflexivity
        | match goal with H : ?a `prefix_of` ?b |- ?a `prefix_of` _ => transitivity b; [exact H|clear H; log_chain] end].

(** Anything at all. *)
Definition whatever {A} (a : A) (E : list (Z * JobEvent)) : Prop := True.

Lemma Safe_whatever {A} (p : Request A) c Q : Safe p c Q → Safe p c whatever.
Proof. intros H. by eapply Safe_mono. Qed.

Lemma Safe_runInflight key body c :
  (∀ c', log_of c `prefix_of` log_of c' → Safe body c' whatever) → Safe (runInflight key body) c whatever.
Proof.
  intros Hb. unfold runInflight. apply (Safe_bind _ _ _ whatever).
  { apply Safe_step; [|done]. intros c'. by destruct (inflight c' !! key). }
  intros [i mine] c1 H1 _. destruct mine; cbn [negb]; [|by apply Safe_await].
  apply (Safe_bind _ _ _ whatever); [by eapply Safe_attempt; [by apply Hb|]|]. intros outcome c2 H2 _.
  apply (Safe_bind _ _ _ whatever); [by apply Safe_step|]. intros _ c3 H3 _.
  apply (Safe_bind _ _ _ whatever); [by apply Safe_step|]. intros _ c4 H4 _. by apply Safe_lift.
Qed.

Lemma Safe_waitInflight key c : Safe (waitInflight key) c whatever.
Proof.
  unfold waitInflight. apply (Safe_bind _ _ _ whatever); [by apply Safe_step|]. intros [i|] c1 H1 _; [|by apply Safe_ret].
  apply (Safe_bind _ _ _ whatever); [by apply Safe_await|]. intros _ c2 H2 _. by apply Safe_ret.
Qed.

(** ** The parts callbacks share *)

Lemma wp_get_job quote id s (Q : RLTrainingJob → memoryStore → Prop) :
  (∀ job, GetJob (repository s) id = Some job → Q job s) → store_wp (get_job quote id) s Q.
Proof.
  intros H. apply wp_bind, wp_query, wp_lift. intros job. destruct (GetJob _ _) as [j|] eqn:E; [|done]. intros [= <-]. by apply H.
Qed.

Lemma wp_get_run quote job id s (Q : JobRun → memoryStore → Prop) :
  (∀ run, GetRun (repository s) job id = Some run → Q run s) → store_wp (get_run quote job id) s Q.
Proof.
  intros H. apply wp_bind, wp_query, wp_lift. intros run. destruct (GetRun _ _ _) as [r|] eqn:E; [|done]. intros [= <-]. by apply H.
Qed.

Lemma loadCommittedOperation_Ok quote jobID runID operationID r job run o :
  loadCommittedOperation quote jobID runID operationID r = Ok (job, run, o) →
  GetJob r jobID = Some job ∧ GetRun r jobID runID = Some run ∧ GetOperation r operationID = Some o.
Proof. unfold loadCommittedOperation. intros H. by repeat case_match; simplify_eq. Qed.

Lemma wp_load_committed quote jobID runID operationID s (Q : RLTrainingJob * JobRun * Operation → memoryStore → Prop) :
  (∀ job run o, GetRun (repository s) jobID runID = Some run → GetOperation (repository s) operationID = Some o → Q (job, run, o) s) →
  store_wp (load_committed quote jobID runID operationID) s Q.
Proof.
  intros H. apply wp_bind, wp_query, wp_lift. intros [[job run] o] (_ & ? & ?)%loadCommittedOperation_Ok. by apply H.
Qed.

(** The same tables and the same log. *)
Definition same_tables (s s' : memoryStore) : Prop := events s' = events s ∧ ∀ E, store_ok E s → store_ok E s'.

Lemma wp_remember scope key hash operationID jobID runID s (Q : unit → memoryStore → Prop) :
  (∀ s', same_tables s s' → Q tt s') → store_wp (remember scope key hash operationID jobID runID) s Q.
Proof. intros H. unfold remember. case_bool_decide; [apply wp_ret|apply wp_put]; by apply H. Qed.

Lemma wp_store_all job run o s (Q : unit → memoryStore → Prop) :
  Q tt (PutOperation o (PutRun run (PutJob job s))) → store_wp (store_all job run o) s Q.
Proof. done. Qed.

Lemma wp_record_event sha t job run o comp detail now s (Q : unit → memoryStore → Prop) :
  Q tt (AppendEvent (newEvent sha t job run o comp detail now) s) → store_wp (record_event sha t job run o comp detail now) s Q.
Proof. done. Qed.

Lemma working_ok c : controller_ok c → store_ok (events (working c)) (working c).
Proof. by intros []. Qed.

(** Tables that are the same may be committed. *)
Lemma commits_same s s' : store_ok (events s) s → same_tables s s' → commits s s'.
Proof. intros H [He Hk]. split; [by rewrite He|]. rewrite He. by apply Hk. Qed.

(** Job, run and operation are stored together; the operation is over or as it was. *)
Lemma commits_all s job run o :
  store_ok (events s) s → run_covered (events s) run → covered (events s) o → commits s (PutOperation o (PutRun run (PutJob job s))).
Proof.
  intros Hs Hr Ho. apply commits_intro; [done|done|]. intros E -> HE Hok.
  apply ok_operation; [by eapply covered_mono|]. apply ok_run; [by eapply run_covered_mono|]. by apply ok_job.
Qed.

(** A new operation is stored with its run, and both events follow. *)
Lemma commits_recorded sha s s' job run o t detail now :
  store_ok (events s) s → run_covered (events s) run → is_running o = true →
  let stored := PutOperation o (PutRun (append_operation run o) (PutJob job s)) in
  let event t detail := newEvent sha t job (Some (append_operation run o)) (Some o) None detail now in
  same_tables (AppendEvent (event JOB_EVENT_TYPE_OPERATION_RECORDED "operation recorded") (AppendEvent (event t detail) stored)) s' →
  commits s s' ∧ recorded (events s') o.
Proof.
  intros Hs Hr Ho stored event [He Hk].
  assert (Hp : events s `prefix_of` events s') by (rewrite He; do 2 (etrans; [|apply events_append]); done).
  assert (Hrec : recorded (events s') o) by (rewrite He; by apply recorded_append).
  split; [|done]. apply commits_intro; [done..|]. intros E -> HE Hok. apply Hk, ok_event, ok_event.
  assert (covered (events s') o) by (by intros _). apply ok_operation; [done|]. apply ok_run; [|by apply ok_job].
  apply run_covered_append; [by eapply run_covered_mono|done].
Qed.

(** ** Admission *)

Definition admit_plan_ok (plan : admitPlan) (E : list (Z * JobEvent)) : Prop :=
  ∃ o, recorded E o ∧ op_run_id o = rn_id (al_run plan).

Definition found_ok {P R} (plan_ok : P → list (Z * JobEvent) → Prop) (found : P + R) (E : list (Z * JobEvent)) : Prop :=
  match found with inl plan => plan_ok plan E | inr _ => True end.

Lemma admit_plan_mono plan E E' : E `prefix_of` E' → admit_plan_ok plan E → admit_plan_ok plan E'.
Proof. intros ? (o & ? & ?). exists o. split; [by eapply recorded_mono|done]. Qed.

Lemma persistAdmitPhase_safe sha quote wire enc err request hash now c :
  Safe (persistAdmitPhase sha quote wire enc err request hash now) c (found_ok admit_plan_ok).
Proof.
  apply Safe_update_numbered. intros sequence c' _ Hok%working_ok. generalize dependent (working c'). intros s Hs.
  apply wp_bind, wp_get_job. intros job Hjob. apply wp_bind, wp_query.
  destruct (GetLatestRun (repository s) (aq_job_id request)) as [run|] eqn:Hrun; [destruct (bool_decide _)|].
  - apply wp_bind, wp_query. destruct (GetLatestOperation _ _ _ _) as [o|]; apply wp_bind.
    + apply wp_ret, wp_bind, wp_remember. intros s' Hs'. apply wp_ret. split; [by apply commits_same|done].
    + apply wp_put, wp_bind, wp_remember. intros s' [He Hk]. apply wp_ret. split; [|done].
      apply commits_intro; [done|by rewrite He|]. intros E -> HE Hs1. apply Hk, ok_operation; [by apply covered_settled|done].
  - apply wp_bind, wp_lift. intros _ _. do 3 apply wp_bind, wp_put. apply wp_bind, wp_record_event, wp_bind, wp_record_event.
    apply wp_bind, wp_remember. intros s' Hs'. apply wp_ret.
    eapply commits_recorded in Hs'; [|done|apply (run_covered_operations _ run); [done|by eapply ok_GetLatestRun]|done].
    destruct Hs' as [? Hr]. split; [done|]. eexists. split; [exact Hr|done].
  - apply wp_bind, wp_lift. intros _ _. do 3 apply wp_bind, wp_put. apply wp_bind, wp_record_event, wp_bind, wp_record_event.
    apply wp_bind, wp_remember. intros s' Hs'. apply wp_ret.
    eapply commits_recorded in Hs'; [|done|by apply Forall_nil|done].
    destruct Hs' as [? Hr]. split; [done|]. eexists. split; [exact Hr|done].
Qed.

(** What preparing came to leaves an operation that is over. *)
Lemma wp_settle_prepared scope key hash job run o result now s (Q : RLTrainingJob * JobRun * Operation → memoryStore → Prop) :
  (∀ s' job' run' o', same_tables s s' → is_running o' = false → (∀ E, run_covered E run → run_covered E run') → Q (job', run', o') s') →
  store_wp (settle_prepared scope key hash job run o result now) s Q.
Proof.
  intros H. unfold settle_prepared. destruct (prepare_failure result) as [message|].
  - apply wp_ret, H; [done|done|]. intros E HE. apply run_covered_append; [exact HE|by apply covered_settled].
  - apply wp_bind, wp_remember. intros s' Hs'. by apply wp_ret, H.
Qed.

Lemma recorded_call c0 c runID o :
  log_of c0 `prefix_of` log_of c → controller_ok c → recorded (log_of c0) o → op_run_id o = runID → on_record c runID.
Proof. intros Hl Hok Hr <-. apply recorded_on_disk; [done|by eapply recorded_mono]. Qed.

Lemma prepareRun_safe run operation c :
  (∃ o, recorded (log_of c) o ∧ op_run_id o = rn_id run) → Safe (prepareRun run operation) c whatever.
Proof.
  intros (o & Ho & Hrun). unfold prepareRun. destruct (BuildManifest run); [|by apply Safe_ret].
  apply (Safe_bind _ _ _ whatever); [eapply Safe_attempt; [by apply (Safe_runtime _ _ whatever)|done]|].
  intros [response|] c1 H1 _; [|by apply Safe_ret]. destruct (negb _); [by apply Safe_ret|].
  apply (Safe_bind _ _ _ whatever); [eapply Safe_attempt; [by apply (Safe_runtime _ _ whatever)|done]|].
  intros [compiled|] c2 H2 _; [|by apply Safe_ret].
  apply (Safe_bind _ _ _ whatever); [|by intros []; intros; apply Safe_ret].
  eapply Safe_attempt; [|done]. apply (Safe_runtime _ _ whatever); [|done]. intros c' Hl Hok.
  apply (recorded_call c _ _ o); [log_chain|done..].
Qed.

(** An operation that is over is stored with its run. *)
Lemma commits_settled s s' jobID runID job run run' o :
  store_ok (events s) s → same_tables s s' → is_running o = false → GetRun (repository s) jobID runID = Some run →
  (∀ E, run_covered E run → run_covered E run') →
  commits s (PutOperation o (PutRun (append_operation run' o) (PutJob job s'))).
Proof.
  intros Hs [He Hk] Ho Hrun Hcov.
  assert (Hc : commits s' (PutOperation o (PutRun (append_operation run' o) (PutJob job s')))).
  { apply commits_all; [rewrite He; by apply Hk| |by apply covered_settled].
    apply run_covered_append; [|by apply covered_settled]. apply Hcov. rewrite He. by eapply ok_GetRun. }
  destruct Hc as [Hc1 Hc2]. split; [by rewrite <-He|done].
Qed.

Lemma finalizeAdmitPhase_safe quote enc err request hash plan result c :
  Safe (finalizeAdmitPhase quote enc err request hash plan result) c whatever.
Proof.
  apply (Safe_bind _ _ _ whatever); [by apply Safe_tick|]. intros now c1 _ _. apply Safe_update.
  intros c' _ Hok%working_ok. generalize dependent (working c'). intros s Hs.
  apply wp_bind, wp_load_committed. intros job run o Hrun _. destruct (negb (is_running o)); [by apply wp_ret; split; [apply commits_refl|]|].
  apply wp_bind, wp_settle_prepared. intros s' job' run' o' Hs' Ho Hcov. apply wp_bind, wp_store_all, wp_ret. split; [|done].
  eapply commits_settled; eauto.
Qed.

Lemma admit_body_safe quote enc err request hash plan c :
  admit_plan_ok plan (log_of c) → Safe (admit_body quote enc err request hash plan) c whatever.
Proof.
  intros Hp. apply (Safe_bind _ _ _ whatever); [by apply prepareRun_safe|]. intros result c1 H1 _.
  apply (Safe_bind _ _ _ whatever); [apply finalizeAdmitPhase_safe|]. intros response c2 H2 _. by apply Safe_ret.
Qed.

Lemma run_admit_safe quote enc err request hash found key c :
  found_ok admit_plan_ok found (log_of c) → Safe (run_admit quote enc err request hash found key) c whatever.
Proof.
  destruct found as [plan|response]; [|by intros; apply Safe_ret]. intros Hp.
  apply (Safe_bind _ _ _ whatever); [apply Safe_runInflight|].
  - intros c' Hl. apply admit_body_safe. by eapply admit_plan_mono.
  - intros [] c1 H1 _; [by apply Safe_ret|by apply Safe_throw].
Qed.

Lemma resumeAdmitPhase_safe quote enc err request hash operationID runID jobID c :
  (∃ o, recorded (log_of c) o ∧ op_run_id o = runID) → Safe (resumeAdmitPhase quote enc err request hash operationID runID jobID) c whatever.
Proof.
  intros (o & Ho & Hrun). apply (Safe_bind _ _ _ (found_ok admit_plan_ok)).
  - apply Safe_view. intros c' found Hl Hok. intros ([[job run] op] & Hload & [= <-])%bind_Ok.
    apply loadCommittedOperation_Ok in Hload as (_ & Hr & _). destruct (is_running op); [|done].
    exists o. split; [by eapply recorded_mono|]. cbn. rewrite Hrun. symmetry. apply controller_memory in Hok.
    exact (proj1 (ok_GetRun _ (working c') _ _ _ Hok Hr)).
  - intros found c1 H1 Hf. by apply run_admit_safe.
Qed.

Lemma running_operation_Some x o : running_operation x = Some o → x = Some o ∧ is_running o = true.
Proof. unfold running_operation. destruct x as [y|]; [|done]. destruct (is_running y) eqn:E; [|done]. by intros [= <-]. Qed.

(** The operation a remembered answer names, if it is under way. *)
Definition resumed_ok {A} (operation : A → option Operation) (loaded : option A) (E : list (Z * JobEvent)) : Prop :=
  ∀ response o, loaded = Some response → running_operation (operation response) = Some o → recorded E o.

Lemma loadIdempotency_safe {A} quote scope what key hash (response : MemoryRepository → IdempotencyRecord → A) operation c :
  (∀ r record, ∃ id, operation (response r record) = GetOperation r id) →
  Safe (view (loadIdempotency quote scope what key hash response)) c (resumed_ok operation).
Proof.
  intros Hop. apply Safe_view. intros c' loaded Hl Hok H a o Ha Ho. subst loaded. unfold loadIdempotency in H.
  case_bool_decide; [done|]. destruct (GetIdempotency _ _ _) as [record|]; [|done]. case_bool_decide; [|done].
  injection H as <-. apply running_operation_Some in Ho as [Ho Hr]. destruct (Hop (memory (store c')) record) as [id Hid].
  rewrite Hid in Ho. apply controller_memory in Hok. by apply (ok_GetOperation _ (working c') id o Hok).
Qed.

Lemma AdmitJob_safe sha quote wire enc err request c : Safe (AdmitJob sha quote wire enc err request) c whatever.
Proof.
  unfold AdmitJob. case_bool_decide; [by apply Safe_throw|]. cbn zeta.
  assert (Hload : ∀ c, Safe (view (loadAdmitIdempotency quote (aq_idempotency_key request)
      (hashAdmitRequest sha (aq_job_id request) (aq_reason request)))) c (resumed_ok ar_operation))
    by (intros; apply loadIdempotency_safe; eauto).
  eapply Safe_bind; [apply Hload|]. intros [response|] c1 _ Hr.
  - destruct (running_operation (ar_operation response)) as [o|] eqn:Eo; [|by apply Safe_ret].
    eapply Safe_bind; [apply Safe_waitInflight|]. intros waited c2 H2 _.
    apply (Safe_bind _ _ _ whatever); [destruct waited; [by eapply Safe_whatever|by apply Safe_ret]|].
    intros [response'|] c3 H3 _; [by apply Safe_ret|]. apply resumeAdmitPhase_safe. exists o. split; [|done].
    apply (recorded_mono (log_of c1)); [log_chain|]. by apply (Hr response o).
  - apply (Safe_bind _ _ _ whatever); [by apply Safe_tick|]. intros now c2 H2 _.
    eapply Safe_bind; [apply persistAdmitPhase_safe|]. intros found c3 H3 Hf. by apply run_admit_safe.
Qed.

(** ** Commands *)

Definition command_plan_ok (plan : commandPlan) (E : list (Z * JobEvent)) : Prop :=
  (∃ o, recorded E o ∧ op_run_id o = rn_id (cp_run plan)) ∧ run_covered E (cp_stableRun plan).

Lemma command_plan_mono plan E E' : E `prefix_of` E' → command_plan_ok plan E → command_plan_ok plan E'.
Proof.
  intros ? [(o & ? & ?) ?]. split; [|by eapply run_covered_mono]. exists o. split; [by eapply recorded_mono|done].
Qed.

Lemma stableRun_operations run command : rn_operations (stableRunForCommand run command) = rn_operations run.
Proof. done. Qed.

Lemma wp_resolveTargetRun quote jobID runID s (Q : RLTrainingJob * option JobRun → memoryStore → Prop) :
  store_ok (events s) s → (∀ job target, from_option (run_covered (events s)) True target → Q (job, target) s) →
  store_wp (resolveTargetRun quote jobID runID) s Q.
Proof.
  intros Hs H. apply wp_bind, wp_get_job. intros job _. destruct (negb _).
  - apply wp_bind, wp_get_run. intros run Hrun. apply wp_ret, H. by eapply ok_GetRun.
  - apply wp_bind, wp_query, wp_ret, H. destruct (GetLatestRun _ _) eqn:E; [|done]. by eapply ok_GetLatestRun.
Qed.

Lemma persistCommandPhase_safe sha quote wire enc err request hash eventType opType now c :
  Safe (persistCommandPhase sha quote wire enc err request hash eventType opType now) c (found_ok command_plan_ok).
Proof.
  apply Safe_update_numbered. intros sequence c' _ Hok%working_ok. generalize dependent (working c'). intros s Hs.
  apply wp_bind, wp_resolveTargetRun; [done|]. intros job [run|] Hrun; [|apply wp_fail]. cbn in Hrun.
  apply wp_bind, wp_query. destruct (semanticIdempotentOperation _ _ _ _) as [o|].
  { apply wp_bind, wp_remember. intros s' Hs'. apply wp_ret. split; [by apply commits_same|done]. }
  apply wp_bind, wp_lift. intros [job' run'] Hm.
  assert (Hrun' : run_covered (events s) run').
  { destruct (bool_decide _).
    - destruct (IsTerminalRunState _); [|done]. injection Hm as <- <-. by apply Forall_nil.
    - apply bind_Ok in Hm as ([runState state] & _ & [= <- <-]). exact Hrun. }
  clear Hm. apply wp_bind, wp_store_all, wp_bind, wp_record_event, wp_bind, wp_record_event, wp_bind, wp_remember.
  intros s' Hs'. apply wp_ret. eapply commits_recorded in Hs' as [Hc Hr]; [|done..]. split; [done|]. split.
  - eexists. split; [exact Hr|done].
  - cbn. apply (run_covered_mono (events s)); [apply Hc|exact Hrun].
Qed.

Lemma finalizeRetryPhase_safe quote enc err request hash plan result c :
  Safe (finalizeRetryPhase quote enc err request hash plan result) c whatever.
Proof.
  apply (Safe_bind _ _ _ whatever); [by apply Safe_tick|]. intros now c1 _ _. apply Safe_update.
  intros c' _ Hok%working_ok. generalize dependent (working c'). intros s Hs.
  apply wp_bind, wp_load_committed. intros job run o Hrun _. destruct (negb (is_running o)); [by apply wp_ret; split; [apply commits_refl|]|].
  apply wp_bind, wp_settle_prepared. intros s' job' run' o' Hs' Ho Hcov. apply wp_bind, wp_store_all, wp_ret. split; [|done].
  eapply commits_settled; eauto.
Qed.

Lemma finalizeCommandPhase_safe quote enc err plan runtimeErr c :
  command_plan_ok plan (log_of c) → Safe (finalizeCommandPhase quote enc err plan runtimeErr) c whatever.
Proof.
  intros [_ Hstable]. apply (Safe_bind _ _ _ whatever); [by apply Safe_tick|]. intros now c1 H1 _. apply Safe_update.
  intros c' H2 Hok%working_ok. assert (Hst : run_covered (events (working c')) (cp_stableRun plan)).
  { eapply run_covered_mono; [|exact Hstable]. change (events (working c')) with (log_of c'). log_chain. }
  generalize dependent (working c'). intros s Hs Hst.
  apply wp_bind, wp_load_committed. intros job run o Hrun Hop. destruct (negb (is_running o)); [by apply wp_ret; split; [apply commits_refl|]|].
  destruct runtimeErr as [e|]; [destruct (isAmbiguousRuntimeCommandError e); [by apply wp_ret; split; [apply commits_refl|]|]|].
  - apply wp_bind, wp_store_all, wp_ret. split; [|done].
    apply commits_all; [done| |by apply covered_settled]. apply run_covered_append; [done|by apply covered_settled].
  - set (o' := o <| op_annotations := _ |>).
    assert (Ho' : covered (events s) o') by (apply (covered_same _ o); [done..|by eapply ok_GetOperation]).
    apply wp_bind, wp_store_all, wp_ret. split; [|done]. apply commits_all; [done| |done].
    apply run_covered_append; [by eapply ok_GetRun|done].
Qed.

Lemma invokeRuntime_safe command run request c :
  (∃ o, recorded (log_of c) o ∧ op_run_id o = rn_id run) → Safe (invokeRuntime command run request) c whatever.
Proof.
  intros (o & Ho & Hrun). unfold invokeRuntime. destruct (command_call command run request) as [call|] eqn:E; [|by apply Safe_ret].
  assert (Hcall : moved_run call = Some (rn_id run)) by (unfold command_call in E; by destruct command; simplify_eq/=).
  apply (Safe_bind _ _ _ whatever); [|by intros; apply Safe_ret].
  eapply Safe_attempt; [|done]. apply (Safe_runtime _ _ whatever); [|done]. intros c' Hl Hok.
  unfold call_recorded. rewrite Hcall. by apply (recorded_call c _ _ o).
Qed.

Lemma command_body_safe quote enc err request hash plan c :
  command_plan_ok plan (log_of c) → Safe (command_body quote enc err request hash plan) c whatever.
Proof.
  intros Hp. unfold command_body. destruct (cp_isRetry plan).
  - apply (Safe_bind _ _ _ whatever); [by apply prepareRun_safe, Hp|]. intros result c1 H1 _.
    apply (Safe_bind _ _ _ whatever); [apply finalizeRetryPhase_safe|]. intros response c2 H2 _. by apply Safe_ret.
  - apply (Safe_bind _ _ _ whatever); [by apply invokeRuntime_safe, Hp|]. intros result c1 H1 _.
    apply (Safe_bind _ _ _ whatever); [apply finalizeCommandPhase_safe; by eapply command_plan_mono|].
    intros response c2 H2 _. by apply Safe_ret.
Qed.

Lemma run_command_safe quote enc err request hash found key c :
  found_ok command_plan_ok found (log_of c) → Safe (run_command quote enc err request hash found key) c whatever.
Proof.
  destruct found as [plan|response]; [|by intros; apply Safe_ret]. intros Hp.
  apply (Safe_bind _ _ _ whatever); [apply Safe_runInflight|].
  - intros c' Hl. apply command_body_safe. by eapply command_plan_mono.
  - intros [] c1 H1 _; [by apply Safe_throw|by apply Safe_ret].
Qed.

Lemma resumeCommandPhase_safe quote enc err request hash operationID runID jobID c :
  (∃ o, recorded (log_of c) o ∧ op_run_id o = runID) → Safe (resumeCommandPhase quote enc err request hash operationID runID jobID) c whatever.
Proof.
  intros (o & Ho & Hrun). apply (Safe_bind _ _ _ (found_ok command_plan_ok)).
  - apply Safe_view. intros c' found Hl Hok. intros ([[job run] op] & Hload & [= <-])%bind_Ok.
    apply loadCommittedOperation_Ok in Hload as (_ & Hr & _). destruct (is_running op); [|done].
    apply controller_memory in Hok. destruct (ok_GetRun _ (working c') _ _ _ Hok Hr) as [Hid Hcov]. split; [|exact Hcov].
    exists o. split; [by eapply recorded_mono|]. cbn. by rewrite Hrun.
  - intros found c1 H1 Hf. by apply run_command_safe.
Qed.

Lemma ApplyJobCommand_safe sha quote wire enc err request c : Safe (ApplyJobCommand sha quote wire enc err request) c whatever.
Proof.
  unfold ApplyJobCommand. case_bool_decide; [by apply Safe_throw|].
  apply (Safe_bind _ _ _ whatever); [by apply Safe_lift|]. intros [eventType opType] c0 _ _. cbn zeta.
  set (hash := hashCommandRequest _ _ _ _ _ _).
  assert (Hload : ∀ c, Safe (view (loadCommandIdempotency quote (pq_idempotency_key request) hash)) c (resumed_ok pr_operation))
    by (intros; apply loadIdempotency_safe; eauto).
  eapply Safe_bind; [apply Hload|]. intros [response|] c1 _ Hr.
  - destruct (running_operation (pr_operation response)) as [o|] eqn:Eo; [|by apply Safe_ret].
    eapply Safe_bind; [apply Safe_waitInflight|]. intros waited c2 H2 _.
    apply (Safe_bind _ _ _ whatever); [destruct waited; [by eapply Safe_whatever|by apply Safe_ret]|].
    intros [response'|] c3 H3 _; [by apply Safe_ret|]. destruct (commandDispatchAccepted o); [by apply Safe_ret|].
    apply resumeCommandPhase_safe. exists o. split; [|done].
    apply (recorded_mono (log_of c1)); [log_chain|]. by apply (Hr response o).
  - apply (Safe_bind _ _ _ whatever); [by apply Safe_tick|]. intros now c2 H2 _.
    eapply Safe_bind; [apply persistCommandPhase_safe|]. intros found c3 H3 Hf. by apply run_command_safe.
Qed.

(** ** Statuses *)

Definition settled_operation (o : option Operation) : Prop := ∀ x, o = Some x → is_running x = false.

Lemma completeLatestOperation_covered E run opType now :
  run_covered E run → run_covered E (completeLatestOperation run opType now).1 ∧
  settled_operation (completeLatestOperation run opType now).2.
Proof.
  intros H. unfold completeLatestOperation. destruct (latest_operation _ run); cbn; [|by split].
  split; [apply run_covered_append; [done|by apply covered_settled]|by intros x [= <-]].
Qed.

Lemma failLatest_covered E run now code message :
  run_covered E run → run_covered E (failLatestRunningLifecycleOperation run now code message).1 ∧
  settled_operation (failLatestRunningLifecycleOperation run now code message).2.
Proof.
  intros H. unfold failLatestRunningLifecycleOperation. destruct (latest_operation _ run); cbn; [|by split].
  split; [apply run_covered_append; [done|by apply covered_settled]|by intros x [= <-]].
Qed.

Lemma advance_covered E upper job run aggregated now :
  run_covered E run → let a := advanceRunFromComponent upper job run aggregated now in
  run_covered E (ad_run a) ∧ settled_operation (ad_operation a).
Proof.
  intros H. cbn zeta. unfold advanceRunFromComponent.
  assert (Hfail : ∀ run' code message, rn_operations run' = rn_operations run →
    run_covered E (failLatestRunningLifecycleOperation run' now code message).1 ∧
    settled_operation (failLatestRunningLifecycleOperation run' now code message).2).
  { intros run' code message Heq. apply failLatest_covered. by apply (run_covered_operations _ run). }
  assert (Hdone : ∀ run' opType, rn_operations run' = rn_operations run →
    run_covered E (completeLatestOperation run' opType now).1 ∧ settled_operation (completeLatestOperation run' opType now).2).
  { intros run' opType Heq. apply completeLatestOperation_covered. by apply (run_covered_operations _ run). }
  assert (Hnone : run_covered E run ∧ settled_operation None) by done.
  destruct (authoritativeRuntimeSignal upper aggregated) as [[st converged]|]; [|done]. destruct st, converged; try exact Hnone;
    try (match goal with |- context [failLatestRunningLifecycleOperation ?r _ ?c ?m] => specialize (Hfail r c m eq_refl);
      by destruct (failLatestRunningLifecycleOperation r now c m) end);
    (destruct (advance_of _ _) as [a|]; [|exact Hnone]); cbn zeta;
    match goal with |- context [completeLatestOperation ?r ?t now] =>
      assert (Heq : rn_operations r = rn_operations run) by (destruct (av_starts a && _), (av_ends a); done);
      specialize (Hdone r t Heq); by destruct (completeLatestOperation r t now) end.
Qed.

Lemma commits_trans s1 s2 s3 : commits s1 s2 → commits s2 s3 → commits s1 s3.
Proof. intros [H1 _] [H2 H3]. split; [by etrans|done]. Qed.

Lemma commits_event s e : store_ok (events s) s → commits s (AppendEvent e s).
Proof. intros H. apply commits_intro; [done|apply events_append|]. intros E _ _ Hok. by apply ok_event. Qed.

Lemma commits_job s job : store_ok (events s) s → commits s (PutJob job s).
Proof. by split. Qed.

Lemma commits_run s run : store_ok (events s) s → run_covered (events s) run → commits s (PutRun run s).
Proof. intros H Hr. split; [done|]. by apply ok_run. Qed.

Lemma commits_operation s o : store_ok (events s) s → covered (events s) o → commits s (PutOperation o s).
Proof. intros H Ho. split; [done|]. by apply ok_operation. Qed.

Lemma ReportComponentStatus_safe sha upper quote enc err incoming c :
  Safe (ReportComponentStatus sha upper quote enc err incoming) c whatever.
Proof.
  unfold ReportComponentStatus. destruct incoming as [incoming|]; [|by apply Safe_throw].
  case_match; [by apply Safe_throw|]. apply (Safe_bind _ _ _ whatever).
  { destruct (cs_observed_at incoming); [by apply Safe_ret|]. apply (Safe_bind _ _ _ whatever); [by apply Safe_tick|].
    intros. by apply Safe_ret. }
  clear. intros s0 c1 _ _. apply Safe_update. intros c' _ Hok%working_ok. generalize dependent (working c'). intros s Hs.
  apply wp_bind, wp_get_job. intros job _. apply wp_bind, wp_get_run. intros run Hrun. cbn zeta.
  set (run0 := upsert_status run _). set (a := advanceRunFromComponent _ _ _ _ _).
  assert (Ha : run_covered (events s) (ad_run a) ∧ settled_operation (ad_operation a)).
  { apply advance_covered. apply (run_covered_operations _ run); [done|by eapply ok_GetRun]. }
  clearbody a. destruct Ha as [Ha Hop]. apply wp_bind, wp_put, wp_bind, wp_put, wp_bind, wp_record_event.
  set (s1 := AppendEvent _ _).
  assert (Hs1 : commits s s1).
  { eapply commits_trans; [eapply commits_trans; [by apply commits_job|by apply commits_run]|]. apply commits_event.
    by apply ok_run. }
  clearbody s1. apply wp_bind. destruct (ad_operation a) as [o|]; [|by apply wp_ret, wp_ret].
  apply wp_bind, wp_put, wp_bind, wp_record_event, wp_record_event, wp_ret. split; [|done].
  assert (Hs2 : commits s (PutOperation o s1)).
  { eapply commits_trans; [exact Hs1|]. apply commits_operation; [apply Hs1|by apply covered_settled, Hop]. }
  eapply commits_trans; [exact Hs2|]. eapply commits_trans; [apply commits_event, Hs2|].
  apply commits_event. eapply commits_event, Hs2.
Qed.

(** ** The catalogue *)

Lemma CreateJob_safe sha quote wire Equal enc err order request c :
  Safe (CreateJob sha quote wire Equal enc err order request) c whatever.
Proof.
  unfold CreateJob. destruct (cq_job request) as [submitted|]; [|by apply Safe_throw].
  apply (Safe_bind _ _ _ whatever); [by apply Safe_tick|]. intros now c1 _ _.
  destruct (normalize sha wire order submitted now) as [[job|] [|d ds]]; try by apply Safe_throw. cbn zeta.
  apply (Safe_bind _ _ _ whatever); [by apply Safe_view|]. intros [response|] c2 _ _; [by apply Safe_ret|].
  apply Safe_update_numbered. intros sequence c' _ Hok%working_ok. generalize dependent (working c'). intros s Hs.
  apply wp_bind, wp_query. destruct (GetJob _ _) as [existing|].
  - destruct (negb _); [apply wp_fail|]. apply wp_bind, wp_query. destruct (GetLatestOperation _ _ _ _) as [o|]; apply wp_bind.
    + apply wp_ret, wp_bind, wp_remember. intros s' Hs'. apply wp_ret. split; [by apply commits_same|done].
    + apply wp_put, wp_bind, wp_remember. intros s' Hs'. apply wp_ret. split; [|done].
      assert (Hc : commits s (PutOperation (fresh_validation sha job request now sequence) s))
        by (apply commits_operation; [done|by apply covered_settled]).
      eapply commits_trans; [exact Hc|]. apply commits_same; [apply Hc|exact Hs'].
  - apply wp_bind, wp_put, wp_bind, wp_put, wp_bind, wp_record_event, wp_bind, wp_record_event, wp_bind, wp_remember.
    intros s' Hs'. apply wp_ret. split; [|done]. cbn [default] in *.
    set (o := fresh_validation sha job request now sequence) in *.
    assert (Hc : commits s (PutOperation o (PutJob job s)))
      by (apply (commits_trans _ (PutJob job s)); [by apply commits_job|apply commits_operation; [done|by apply covered_settled]]).
    assert (Hc2 : ∀ e, commits s (AppendEvent e (PutOperation o (PutJob job s))))
      by (intros e; eapply commits_trans; [exact Hc|apply commits_event, Hc]).
    eapply commits_trans; [eapply commits_trans; [apply Hc2|apply commits_event; eapply Hc2]|].
    apply commits_same; [|exact Hs']. eapply commits_event, Hc2.
Qed.

Lemma ValidateJobRequest_safe sha wire order request c : Safe (ValidateJobRequest sha wire order request) c whatever.
Proof.
  unfold ValidateJobRequest. destruct (cq_job request) as [submitted|]; [|by apply Safe_throw].
  apply (Safe_bind _ _ _ whatever); [by apply Safe_tick|]. intros now c1 _ _.
  destruct (normalize sha wire order submitted now) as [normalized diagnostics]. cbn zeta.
  apply (Safe_bind _ _ _ whatever).
  { apply Safe_step; [|done]. intros c'. by destruct (takes_number _). }
  intros sequence c2 _ _. apply (Safe_bind _ _ _ whatever); [|intros [valid ds] c3 _ _; by apply Safe_ret].
  destruct (bool_decide (diagnostics = [])); [|by apply Safe_ret]. case_match; [|by apply Safe_ret].
  apply (Safe_bind _ _ _ whatever); [|intros; by apply Safe_ret].
  eapply Safe_attempt; [by apply (Safe_runtime _ _ whatever)|done].
Qed.

Lemma create_run_safe sha wire enc err request hash normalized now c :
  Safe (create_run sha wire enc err request hash normalized now) c whatever.
Proof.
  apply Safe_update. intros c' _ Hok%working_ok. generalize dependent (working c'). intros s Hs.
  apply wp_bind, wp_query. set (job := default normalized _). apply wp_bind.
  assert (Hrest : ∀ s', commits s s' → ∀ latest, store_wp
    (let attempt := from_option (λ l, wrap64 (rn_attempt l + 1)) 1 latest in
     if attempt =? 0 then fail (status_error ResourceExhausted "run attempt counter is exhausted") else
     let run := NewRun sha wire job attempt JOB_RUN_STATE_VALIDATING now in
     _ ← put (PutRun run);
     _ ← remember "create-run" (cq_idempotency_key request) hash "" (jb_id job) (rn_id run);
     mret run) s' (λ a s'', commits s s'' ∧ whatever a (events s''))).
  { intros s' Hc latest. cbn zeta. destruct (_ =? 0); [apply wp_fail|]. apply wp_bind, wp_put, wp_bind, wp_remember.
    intros s'' Hs''. apply wp_ret. split; [|done].
    assert (Hc2 : commits s (PutRun (NewRun sha wire job (from_option (λ l, wrap64 (rn_attempt l + 1)) 1 latest) JOB_RUN_STATE_VALIDATING now) s'))
      by (eapply commits_trans; [exact Hc|]; apply commits_run; [apply Hc|by apply Forall_nil]).
    eapply commits_trans; [exact Hc2|]. apply commits_same; [apply Hc2|exact Hs'']. }
  destruct (GetJob _ _); [apply wp_ret, wp_bind, wp_query|apply wp_put, wp_bind, wp_query]; apply Hrest;
    [by apply commits_refl|by apply commits_job].
Qed.

Lemma CreateJobRun_safe sha quote wire enc err order request c : Safe (CreateJobRun sha quote wire enc err order request) c whatever.
Proof.
  unfold CreateJobRun. case_match; [by apply Safe_throw|]. apply (Safe_bind _ _ _ whatever); [by apply Safe_tick|].
  intros now c1 _ _. apply (Safe_bind _ _ _ whatever).
  { destruct (cq_job request) as [submitted|]; [|by apply Safe_view].
    destruct (normalize sha wire order submitted now) as [[job|] [|d ds]]; try by apply Safe_throw.
    case_match; [by apply Safe_throw|by apply Safe_ret]. }
  intros normalized c2 _ _. cbn zeta. apply (Safe_bind _ _ _ whatever); [by apply Safe_view|].
  intros [run|] c3 _ _; [by apply Safe_ret|]. apply (Safe_bind _ _ _ whatever); [apply create_run_safe|].
  intros run c4 _ _. by apply Safe_ret.
Qed.

Lemma RecordOperation_safe sha quote Equal enc err operation c : Safe (RecordOperation sha quote Equal enc err operation) c whatever.
Proof.
  unfold RecordOperation. destruct operation as [o0|]; [|by apply Safe_throw].
  apply (Safe_bind _ _ _ whatever); [by apply Safe_tick|]. intros now c1 _ _. cbn zeta. set (o := complete_incoming _ _ _).
  apply Safe_update. intros c' _ Hok%working_ok. generalize dependent (working c'). intros s Hs.
  apply wp_bind, wp_get_job. intros job _. apply wp_bind, wp_query. destruct (GetOperation _ _) as [existing|].
  { destruct (negb _); [apply wp_fail|]. apply wp_ret. split; [by apply commits_refl|done]. }
  assert (Hstored : ∀ s' run, store_ok (events s) s → events s' = events s → (∀ E, store_ok E s → covered E o → events s `prefix_of` E → store_ok E s') →
    commits s (AppendEvent (newEvent sha JOB_EVENT_TYPE_OPERATION_RECORDED job run (Some o) None "operation recorded" now) (PutOperation o s'))).
  { intros s' run _ He Hk. apply commits_intro; [done|rewrite <-He; apply (events_append _ (PutOperation o s'))|].
    intros E -> HE Hs'. assert (covered (events (AppendEvent (newEvent sha JOB_EVENT_TYPE_OPERATION_RECORDED job run (Some o) None "operation recorded" now) (PutOperation o s'))) o)
      by (intros Hr; by apply recorded_append). by apply ok_event, ok_operation, Hk. }
  apply wp_bind. case_bool_decide.
  - apply wp_ret, wp_bind, wp_put, wp_bind, wp_record_event, wp_ret. split; [|done]. by apply Hstored.
  - apply wp_bind, wp_get_run. intros run Hrun. apply wp_bind, wp_put, wp_ret, wp_bind, wp_put, wp_bind, wp_record_event, wp_ret.
    split; [|done]. apply Hstored; [done..|]. intros E Hs' Ho HE. apply ok_run; [|done].
    apply run_covered_append; [|done]. eapply (ok_GetRun E); [|done]. exact Hs'.
Qed.

Lemma WatchJobEvents_safe quote jobID runID afterSequence afterEventID c :
  Safe (WatchJobEvents quote jobID runID afterSequence afterEventID) c whatever.
Proof.
  unfold WatchJobEvents. case_bool_decide; [by apply Safe_throw|]. apply Safe_atomic. intros e c' _ Hok.
  unfold Watch. destruct (sequenceFloorLocked _ _ _ _); cbn;
    [|split_and!; [done|unfold log_grows; reflexivity|done]].
  split_and!; [|unfold log_grows; reflexivity|done]. destruct Hok as [H1 H2]. split; [exact H1|]. cbn. destruct (journalFile (store c')); [exact H2|].
  destruct H2 as [H2 H3]. split; [done|]. injection H3 as ??????. unfold captureRepository. cbn. congruence.
Qed.

Lemma Safe_read {A} (b : bool) e (q : MemoryRepository → Result JobError A) c :
  Safe (if b then throw e else view q) c whatever.
Proof. destruct b; [by apply Safe_throw|by apply Safe_view]. Qed.

Lemma Safe_read_two {A} (b1 b2 : bool) e1 e2 (q : MemoryRepository → Result JobError A) c :
  Safe (if b1 then throw e1 else if b2 then throw e2 else view q) c whatever.
Proof. destruct b1; [by apply Safe_throw|apply Safe_read]. Qed.

(** ** Recovery *)

Lemma paginate_elem {T} (l : list T) start limit x : x ∈ (paginate l start limit).1 → x ∈ l.
Proof.
  unfold paginate. destruct (_ <=? _); cbn; [by intros ?%elem_of_nil|]. intros H.
  apply list_elem_of_lookup in H as [i H]. apply lookup_take_Some in H as [H _]. rewrite lookup_drop in H.
  by eapply list_elem_of_lookup_2.
Qed.

Lemma ListOperations_elem quote r jobID runID opType opState limit pageToken page next o :
  ListOperations quote r jobID runID opType opState limit pageToken = Ok (page, next) → o ∈ page →
  ∃ id o0, operations r !! id = Some o0 ∧ o = with_cursor o0 ∧ wanted_operation jobID runID opType opState o0.
Proof.
  unfold ListOperations. intros (start & _ & [= Hp])%bind_Ok Ho. apply (f_equal fst) in Hp. cbn in Hp. subst page.
  apply paginate_elem, elem_of_sort_by, list_elem_of_fmap in Ho as (o0 & -> & Ho).
  apply list_elem_of_filter in Ho as [Hw ([id x] & -> & Hx)%list_elem_of_fmap]. apply elem_of_map_to_list in Hx.
  by exists id, x.
Qed.

Lemma running_pages_elem quote fuel r pageToken l o :
  running_pages quote fuel r pageToken = Ok l → o ∈ l → ∃ id o0, operations r !! id = Some o0 ∧ o = with_cursor o0 ∧ is_running o0 = true.
Proof.
  revert pageToken l. induction fuel as [|fuel IH]; intros pageToken l; cbn; [by intros [= <-] ?%elem_of_nil|].
  intros ([page next] & Hpage & H)%bind_Ok Ho.
  assert (Hin : o ∈ page → ∃ id o0, operations r !! id = Some o0 ∧ o = with_cursor o0 ∧ is_running o0 = true).
  { intros Hx. destruct (ListOperations_elem _ _ _ _ _ _ _ _ _ _ _ Hpage Hx) as (id & o0 & H1 & H2 & H3). exists id, o0.
    split_and!; [done..|]. apply bool_decide_eq_true. by destruct H3 as (_ & _ & _ & [?|?]). }
  case_bool_decide; [injection H as <-; by apply Hin|]. apply bind_Ok in H as (rest & Hrest & [= <-]).
  apply elem_of_app in Ho as [?|?]; eauto.
Qed.

Lemma listRunningOperations_elem quote r l o :
  listRunningOperations quote r = Ok l → o ∈ l → ∃ id o0, operations r !! id = Some o0 ∧ o = with_cursor o0 ∧ is_running o0 = true.
Proof.
  unfold listRunningOperations. intros (pages & Hpages & [= <-])%bind_Ok Ho. apply elem_of_sort_by in Ho. by eapply running_pages_elem.
Qed.

Lemma markReconciliationRequired_safe sha quote enc err operation detail c :
  Safe (markReconciliationRequired sha quote enc err operation detail) c whatever.
Proof.
  apply (Safe_bind _ _ _ whatever); [by apply Safe_tick|]. intros now c1 _ _. apply Safe_update.
  intros c' _ Hok%working_ok. generalize dependent (working c'). intros s Hs. destruct (_ || _).
  - apply wp_bind, wp_query. destruct (GetOperation _ _) as [o|]; [|apply wp_ret; split; [by apply commits_refl|done]].
    destruct (is_running o); [|apply wp_ret; split; [by apply commits_refl|done]].
    apply wp_put. split; [|done]. apply commits_operation; [done|by apply covered_settled].
  - apply wp_bind, wp_load_committed. intros job run o Hrun _. destruct (negb _); [apply wp_ret; split; [by apply commits_refl|done]|].
    cbn zeta. set (o' := require_reconciliation o detail now). set (run' := append_operation _ o').
    assert (Hc : commits s (PutOperation o' (PutRun run' s))).
    { apply (commits_all s job run' o'); [done| |by apply covered_settled]. apply run_covered_append; [|by apply covered_settled].
      apply (run_covered_operations _ run); [done|by eapply ok_GetRun]. }
    apply wp_bind, wp_put, wp_bind, wp_put, wp_record_event. split; [|done].
    eapply commits_trans; [exact Hc|]. apply commits_event, Hc.
Qed.

Lemma replayOperation_safe sha quote enc err operation c :
  recorded (log_of c) operation → Safe (replayOperation sha quote enc err operation) c whatever.
Proof.
  intros Ho. unfold replayOperation. cbn zeta.
  destruct (op_type operation); cbn [commandForOperation]; try apply markReconciliationRequired_safe;
    (apply (Safe_bind _ _ _ whatever); [first [apply resumeAdmitPhase_safe|apply resumeCommandPhase_safe]; by exists operation|]);
    intros response c1 _ _; (case_match; [apply markReconciliationRequired_safe|by apply Safe_ret]).
Qed.

Lemma reconcileOperation_safe sha upper quote enc err operation c :
  recorded (log_of c) operation → Safe (reconcileOperation sha upper quote enc err operation) c whatever.
Proof.
  intros Ho. unfold reconcileOperation. cbn zeta. destruct (_ || _); [apply markReconciliationRequired_safe|].
  destruct (bool_decide (op_type operation = OPERATION_TYPE_ADMIT) || _).
  - apply (Safe_bind _ _ _ whatever); [by apply Safe_view|]. intros known c1 H1 _.
    destruct (negb known); [apply markReconciliationRequired_safe|]. destruct (_ && _); [apply markReconciliationRequired_safe|].
    apply replayOperation_safe. by eapply recorded_mono.
  - apply (Safe_bind _ _ _ whatever); [eapply Safe_attempt; [by apply (Safe_runtime _ _ whatever)|done]|]. intros answer c1 H1 _.
    apply (Safe_bind _ _ _ whatever).
    { destruct (match answer with Ok _ => _ | Err _ => None end); [|by apply Safe_ret].
      apply (Safe_bind _ _ _ whatever); [apply ReportComponentStatus_safe|]. intros; by apply Safe_view. }
    intros completed c2 H2 _. destruct completed; [by apply Safe_ret|].
    apply (Safe_bind _ _ _ whatever); [by apply Safe_view|]. intros known c3 H3 _.
    destruct (negb known); [apply markReconciliationRequired_safe|].
    destruct (commandDispatchAccepted operation); [apply markReconciliationRequired_safe|].
    apply replayOperation_safe. eapply recorded_mono; [|exact Ho]. log_chain.
Qed.

Lemma reconcile_each_safe sha upper quote enc err l c :
  Forall (recorded (log_of c)) l → Safe (reconcile_each sha upper quote enc err l) c whatever.
Proof.
  revert c. induction l as [|o l IH]; intros c Hl; cbn; [by apply Safe_ret|]. apply Forall_cons in Hl as [Ho Hl].
  apply (Safe_bind _ _ _ whatever); [eapply Safe_attempt; [by apply reconcileOperation_safe|done]|]. intros res c1 H1 _.
  apply (Safe_bind _ _ _ whatever); [|intros; by apply Safe_ret].
  apply IH. eapply Forall_impl; [exact Hl|]. intros x Hx. by eapply recorded_mono.
Qed.

Lemma ReconcileIncompleteOperations_safe sha upper quote enc err c :
  Safe (ReconcileIncompleteOperations sha upper quote enc err) c whatever.
Proof.
  apply (Safe_bind _ _ _ (λ l E, Forall (recorded E) l)); [|intros; by apply reconcile_each_safe].
  apply Safe_view. intros c' l _ Hok Hl. apply Forall_forall. intros o Ho.
  destruct (listRunningOperations_elem _ _ _ _ Hl Ho) as (id & o0 & H1 & -> & Hr). apply controller_memory in Hok.
  apply covered_cursor; [by eapply (tables_operation _ _ _ Hok _ _ H1)|]. unfold with_cursor. by case_bool_decide.
Qed.

(** ** The controller at work *)

Definition Goroutine : Type := Prog Controller Faults RuntimeRequest (Result JobError RuntimeResponse) unit.

(** A request whose answer has been sent. *)
Definition serve {A} (p : Request A) : Goroutine :=
  prog_bind p (λ _, Return tt).

Section Serving.
Variable sha256_hex : string → string.
Variable unicode_upper unicode_quote : string → string.
Variable job_wire : RLTrainingJob → string.
Variable job_Equal : RLTrainingJob → RLTrainingJob → bool.
Variable operation_Equal : Operation → Operation → bool.
Variable gob_encodable : persistedState → bool.
Variable gob_error : persistedState → string.
Variable map_order : list (string * string) → list (string * string).

(** Whatever a client may ask, and the recovery of a new process. *)
Inductive served : Goroutine → Prop :=
| serve_create request : served (serve (CreateJob sha256_hex unicode_quote job_wire job_Equal gob_encodable gob_error map_order request))
| serve_validate request : served (serve (ValidateJobRequest sha256_hex job_wire map_order request))
| serve_create_run request : served (serve (CreateJobRun sha256_hex unicode_quote job_wire gob_encodable gob_error map_order request))
| serve_admit request : served (serve (AdmitJob sha256_hex unicode_quote job_wire gob_encodable gob_error request))
| serve_command request : served (serve (ApplyJobCommand sha256_hex unicode_quote job_wire gob_encodable gob_error request))
| serve_status s : served (serve (ReportComponentStatus sha256_hex unicode_upper unicode_quote gob_encodable gob_error s))
| serve_record o : served (serve (RecordOperation sha256_hex unicode_quote operation_Equal gob_encodable gob_error o))
| serve_jobs kind limit token after : served (serve (ListJobsRequest unicode_quote kind limit token after))
| serve_job jobID : served (serve (GetJobRequest sha256_hex unicode_quote jobID))
| serve_runs jobID limit token after : served (serve (ListJobRuns unicode_quote jobID limit token after))
| serve_run jobID runID : served (serve (GetJobRun unicode_quote jobID runID))
| serve_events jobID runID afterID after limit token : served (serve (ListJobEvents unicode_quote jobID runID afterID after limit token))
| serve_watch jobID runID after afterID : served (serve (WatchJobEvents unicode_quote jobID runID after afterID))
| serve_operation id : served (serve (GetOperationRequest unicode_quote id))
| serve_operations jobID runID t st limit token : served (serve (ListOperationsRequest unicode_quote jobID runID t st limit token))
| serve_recovery : served (serve (ReconcileIncompleteOperations sha256_hex unicode_upper unicode_quote gob_encodable gob_error)).

(** What the consumer of a watch does on its own. *)
Inductive consumed : Controller → Controller → Prop :=
| consumer_receives c watcherID : consumed c (c <| store := (store c) <| memory := (receive (memory (store c)) watcherID).2 |> |>)
| consumer_cancels c watcherID : consumed c (c <| store := (store c) <| memory := cancel (memory (store c)) watcherID |> |>).

(** A new process over the files of the last one. *)
Definition restarted (c : Controller) : Controller := mkController (restore (store c)) ∅ [] 0.

Definition first_process : Controller := mkController empty_repository ∅ [] 0.

Definition controller_steps := steps (A := unit) consumed restarted served.

Lemma serve_harmless {A} (p : Request A) c :
  Safe p c whatever → harmless controller_ok log_grows call_recorded (serve p) c.
Proof. intros H. eapply safe_bind; [exact H|]. done. Qed.

Lemma served_harmless p c : served p → harmless controller_ok log_grows call_recorded p c.
Proof.
  intros H. destruct H; apply serve_harmless.
  - apply CreateJob_safe.
  - apply ValidateJobRequest_safe.
  - apply CreateJobRun_safe.
  - apply AdmitJob_safe.
  - apply ApplyJobCommand_safe.
  - apply ReportComponentStatus_safe.
  - apply RecordOperation_safe.
  - apply Safe_read.
  - apply Safe_read.
  - apply Safe_read_two.
  - apply Safe_read.
  - apply Safe_read_two.
  - apply WatchJobEvents_safe.
  - apply Safe_read.
  - by apply Safe_view.
  - apply ReconcileIncompleteOperations_safe.
Qed.

(** Channels and watches are no part of what is stored. *)
Lemma same_data_ok c c' :
  captureRepository (memory (store c')) = captureRepository (memory (store c)) → journalFile (store c') = journalFile (store c) →
  snapshotFile (store c') = snapshotFile (store c) → controller_ok c → controller_ok c' ∧ log_grows c c'.
Proof.
  intros Hm Hj Hs [H1 H2]. assert (Hl : log_of c' = log_of c) by (by injection Hm). split; [|unfold log_grows; by rewrite Hl].
  split; rewrite Hl; [|by rewrite Hj, Hs, Hm].
  unfold store_ok, working in *. cbn [repository] in *. injection Hm as ? Hr Ho ? ? ?.
  change (tables_ok (log_of c) (operations (memory (store c'))) (runs (memory (store c')))). by rewrite Hr, Ho.
Qed.

Lemma consumed_ok c c' : controller_ok c → consumed c c' → controller_ok c' ∧ log_grows c c'.
Proof.
  intros Hok H. destruct H; apply same_data_ok; try done; cbn [store memory].
  - unfold receive. by repeat case_match.
  - unfold cancel. cbn zeta. by case_match.
Qed.

Lemma restarted_ok c : controller_ok c → controller_ok (restarted c) ∧ log_grows c (restarted c).
Proof.
  intros [H1 H2]. unfold log_grows, log_of in *. unfold restarted, restore, loadLatestState. cbn [store].
  destruct (journalFile (store c)) as [p|] eqn:Ej.
  - destruct H2 as [Hp Ht]. split; [|exact Hp]. split; [exact Ht|]. cbn. rewrite Ej. split; [done|exact Ht].
  - destruct H2 as [Hs Hm]. rewrite Hs. split; [|injection Hm as ? ? ? ? Hl ?; by rewrite Hl]. split; [by split|]. cbn. by rewrite Ej.
Qed.

Lemma first_process_ok : good controller_ok log_grows call_recorded (first_process, [] : list Goroutine).
Proof. split; [|done]. split; [by split|done]. Qed.

Lemma controller_good ls c (pool : list Goroutine) : controller_steps (first_process, []) ls (c, pool) → good controller_ok log_grows call_recorded (c, pool).
Proof.
  intros H. eapply reachable_good; [..|exact first_process_ok|exact H]; [apply consumed_ok|by intros; apply restarted_ok|].
  intros p w. apply served_harmless.
Qed.

Lemma controller_step_grows c (pool : list Goroutine) l c' (pool' : list Goroutine) :
  good controller_ok log_grows call_recorded (c, pool) → step consumed restarted served (c, pool) l (c', pool') →
  good controller_ok log_grows call_recorded (c', pool') ∧ log_of c `prefix_of` log_of c' ∧ ∀ call, l = Called call → call_recorded call c.
Proof.
  intros Hg Hs. assert (Hstep := step_good _ _ _ _ _ _ consumed_ok (λ c H, proj1 (restarted_ok c H)) (λ p w, served_harmless p w) _ _ _ Hg Hs).
  destruct Hstep as [Hg' Hshow]. cbn [fst] in Hshow. split; [done|]. destruct l as [|call|]; cbn in Hshow.
  - split; [|done]. destruct Hshow as [->|?]; done.
  - destruct Hshow as [-> ?]. split; [done|]. by intros ? [= <-].
  - split; [|done]. rewrite Hshow. apply restarted_ok, Hg.
Qed.

End Serving.

(** C11: Through any interleaving of any requests, with watches being read and cancelled,
    whatever writes fail and however often the process crashes and starts again over its
    files, the event log only grows: no event is lost, changed or reordered, by a crash
    either. *)
Theorem log_never_shrinks sha upper quote wire jobEqual opEqual enc err order ls c pool ls' c' pool' :
  controller_steps sha upper quote wire jobEqual opEqual enc err order (first_process, []) ls (c, pool) →
  controller_steps sha upper quote wire jobEqual opEqual enc err order (c, pool) ls' (c', pool') →
  log_of c `prefix_of` log_of c'.
Proof.
  intros H1%controller_good H2. remember (c, pool) as cfg eqn:E1. remember (c', pool') as cfg' eqn:E2.
  revert c pool E1 H1. induction H2 as [cfg|[c1 p1] l [c2 p2] ls' [c3 p3] Hs _ IH]; intros c pool E1 Hg; simplify_eq; [done|].
  destruct (controller_step_grows _ _ _ _ _ _ _ _ _ _ _ _ _ _ Hg Hs) as (Hg' & Hl & _).
  etrans; [exact Hl|]. by eapply IH.
Qed.

(** C10: Write-ahead: whatever else is going on and has gone wrong, when the runtime is asked
    to prepare, start, pause, resume, stop or terminate a run, the file on disk already has
    an event that records an operation of this run while it is under way, so a crash during
    the call leaves an operation the recovery can find. *)
Theorem runtime_calls_recorded sha upper quote wire jobEqual opEqual enc err order ls c pool call c' pool' runID :
  controller_steps sha upper quote wire jobEqual opEqual enc err order (first_process, []) ls (c, pool) →
  step consumed restarted (served sha upper quote wire jobEqual opEqual enc err order) (c, pool) (Called call) (c', pool') →
  moved_run call = Some runID →
  ∃ p entry o, journalFile (store c) = Some p ∧ entry ∈ ps_Events p ∧
    je_type entry.2 = JOB_EVENT_TYPE_OPERATION_RECORDED ∧ je_operation entry.2 = Some o ∧
    op_run_id o = runID ∧ op_state o = OPERATION_STATE_RUNNING.
Proof.
  intros Hg%controller_good Hs Hrun. destruct (controller_step_grows _ _ _ _ _ _ _ _ _ _ _ _ _ _ Hg Hs) as (_ & _ & Hc).
  specialize (Hc call eq_refl). unfold call_recorded in Hc. rewrite Hrun in Hc.
  destruct Hc as (p & o & Hp & (entry & o' & He & Ht & Ho & Hr & _ & Hid & _) & <-). exists p, entry, o'. split_and!; try done.
  by apply bool_decide_eq_true in Hr.
Qed.
