(* ===== verification/JobRecovery.v ===== *)
(** * What the recovery of the job controller achieves

    The operations under way are all found, and once the recovery has gone through one of
    them without an error that operation is over or known to have been accepted. *)

From Stdlib Require Import ZArith Lia String Ascii.
From stdpp Require Import base list strings gmap relations.
From S2P Require Import Prelude GoStrings GoTime GoTimeText Programs ClusterModel Projection Validation JobModel JobRepository JobStatus JobLifecycle JobController JobRepositoryProofs JobSafety.
From stdpp Require Import options.

Local Open Scope Z_scope.

(** ** Page tokens *)

Lemma decode_token quote n : 0 ≤ n ≤ max_int64 → decodePageToken quote (FormatInt n) = Ok n ∧ FormatInt n ≠ "".
Proof.
  intros Hn. unfold FormatInt. rewrite (proj2 (Z.ltb_ge n 0)) by lia.
  destruct (FormatUint_spec n (proj1 Hn)) as [(Hne & Hd & _) Hv].
  assert (Hs : FormatUint n ≠ "") by (intros E; by rewrite E in Hne). split; [|done].
  unfold decodePageToken, Atoi. rewrite bool_decide_eq_false_2 by done.
  destruct (chars (FormatUint n)) as [|d ds] eqn:Ec; [done|].
  assert (Hsign : match d :: ds with "-"%char :: l => (true, l) | "+"%char :: l => (false, l) | l => (false, l) end = (false, d :: ds)).
  { simpl in Hd. apply andb_true_iff in Hd as [Hd _]. clear -Hd. by destruct d as [[] [] [] [] [] [] [] []]. }
  rewrite Hsign, Hd, Hv, (proj2 (andb_true_iff _ _)); [|split; apply Z.leb_le; unfold min_int64; lia].
  by rewrite (proj2 (Z.ltb_ge n 0)) by lia.
Qed.

(** A page and the token of the rest. *)
Lemma paginate_spec {T} (l : list T) start limit :
  (start < length l)%nat → 0 < limit →
  paginate l (Z.of_nat start) limit =
  (take (Z.to_nat limit) (drop start l),
   if Z.of_nat start + limit <? Z.of_nat (length l) then FormatInt (Z.of_nat start + limit) else "").
Proof.
  intros Hs Hl. unfold paginate. rewrite (proj2 (Z.leb_gt _ _)) by lia. rewrite Nat2Z.id. f_equal.
  - destruct (Z.min_spec (Z.of_nat start + limit) (Z.of_nat (length l))) as [[? ->]|[? ->]]; [f_equal; lia|].
    rewrite !take_ge; [done|rewrite length_drop; lia..].
  - destruct (Z.ltb_spec (Z.of_nat start + limit) (Z.of_nat (length l))).
    + rewrite Z.min_l by lia. by rewrite (proj2 (Z.ltb_lt _ _)) by lia.
    + rewrite Z.min_r by lia. by rewrite Z.ltb_irrefl.
Qed.

(** ** The operations under way *)

Definition underway (r : MemoryRepository) : list Operation :=
  with_cursor <$> filter (wanted_operation "" "" OPERATION_TYPE_UNKNOWN OPERATION_STATE_RUNNING) (map_to_list (operations r)).*2.

#[export] Instance operation_less_sw : StrictWeak operation_less.
Proof. unfold operation_less, by_time_less. key_sw. Qed.

Lemma running_pages_drop quote r fuel start token :
  let l := sort_by operation_less (underway r) in
  Z.of_nat (length l) ≤ max_int64 → decodePageToken quote token = Ok (Z.of_nat start) → (length l - start < fuel)%nat →
  running_pages quote fuel r token = Ok (drop start l).
Proof.
  cbn zeta. set (l := sort_by operation_less (underway r)). intros Hmax. revert start token.
  induction fuel as [|fuel IH]; intros start token Htoken Hfuel; [lia|]. cbn [running_pages].
  unfold ListOperations. fold (underway r). fold l. rewrite Htoken. cbn [mbind Result_bind].
  change (normalizeLimit 100) with 100. destruct (decide (length l ≤ start)%nat) as [Hend|Hmore].
  - unfold paginate. rewrite (proj2 (Z.leb_le _ _)) by lia. cbn. by rewrite drop_ge.
  - rewrite paginate_spec by lia. destruct (Z.ltb_spec (Z.of_nat start + 100) (Z.of_nat (length l))) as [Hlt|Hge].
    + destruct (decode_token quote (Z.of_nat start + 100)) as [Hd Hne]; [lia|]. rewrite bool_decide_eq_false_2 by done.
      rewrite (IH (start + 100)%nat); [|by rewrite Hd, Nat2Z.inj_add|lia]. cbn [mbind Result_bind]. f_equal.
      rewrite <-drop_drop. change (Z.to_nat 100) with 100%nat. by rewrite take_drop.
    + rewrite bool_decide_eq_true_2 by done. f_equal. apply take_ge. rewrite length_drop. lia.
Qed.

Lemma underway_length r : (length (underway r) ≤ size (operations r))%nat.
Proof.
  unfold underway. rewrite length_fmap. etrans; [apply length_filter|]. rewrite length_fmap, length_map_to_list. done.
Qed.

(** C13: Walking the pages of the operations under way ends within one page per operation,
    and finds each of them exactly once, in the order of their creation and name, with
    nothing else. *)
Theorem listRunningOperations_complete quote r :
  Z.of_nat (size (operations r)) ≤ max_int64 →
  ∃ l, listRunningOperations quote r = Ok l ∧ sorted_by operation_less l ∧
    l ≡ₚ with_cursor <$> filter (λ o, is_running o = true) (map_to_list (operations r)).*2.
Proof.
  intros Hmax. pose proof (underway_length r) as Hlen.
  unfold listRunningOperations. rewrite (running_pages_drop quote r _ 0%nat); [|rewrite sort_by_length; lia|done|rewrite sort_by_length; lia].
  cbn [mbind Result_bind]. rewrite drop_0, sort_by_id by apply sort_by_sorted, _. eexists. split; [done|].
  split; [apply sort_by_sorted, _|]. rewrite sort_by_perm. unfold underway. apply fmap_Permutation.
  rewrite (filter_iff_in _ (λ o, is_running o = true)); [done|]. intros o _. unfold wanted_operation, is_running.
  rewrite bool_decide_eq_true. naive_solver.
Qed.

(** ** Operations that need no further attention *)

Definition closed_operation (o : Operation) : Prop := is_running o = false ∨ commandDispatchAccepted o = true.

Definition closed (t : gmap string Operation) (id : string) : Prop := ∀ o, t !! id = Some o → closed_operation o.

Definition keyed (t : gmap string Operation) : Prop := ∀ id o, t !! id = Some o → op_id o = id.

(** What is closed stays closed. *)
Definition improves (t t' : gmap string Operation) : Prop := (keyed t → keyed t') ∧ ∀ id, closed t id → closed t' id.

#[export] Instance improves_preorder : PreOrder improves.
Proof. unfold improves. split; [intros t; by split|]. intros t1 t2 t3 [H1 H2] [H3 H4]. split; auto. Qed.

Lemma closed_cursor o : closed_operation o → closed_operation (with_cursor o).
Proof. unfold with_cursor. by case_bool_decide. Qed.

Lemma id_cursor o : op_id (with_cursor o) = op_id o.
Proof. unfold with_cursor. by case_bool_decide. Qed.

Definition table_of (s : memoryStore) : gmap string Operation := operations (repository s).
Definition operations_of (c : Controller) : gmap string Operation := operations (memory (store c)).

Lemma table_operation o s : table_of (PutOperation o s) = <[op_id o := with_cursor o]> (table_of s).
Proof. done. Qed.

Lemma improves_operation o s : closed_operation o → improves (table_of s) (table_of (PutOperation o s)).
Proof.
  intros Ho. rewrite table_operation. split.
  - intros Hk id x [[<- <-]|[_ Hx]]%lookup_insert_Some; [apply id_cursor|by apply Hk].
  - intros id Hc x [[<- <-]|[_ Hx]]%lookup_insert_Some; [by apply closed_cursor|by apply Hc].
Qed.

Lemma improves_all job run o s :
  closed_operation o → improves (table_of s) (table_of (PutOperation o (PutRun run (PutJob job s)))).
Proof. apply (improves_operation o (PutRun run (PutJob job s))). Qed.

Lemma closed_put o s id : op_id o = id → closed_operation o → closed (table_of (PutOperation o s)) id.
Proof. intros <- Ho x. rewrite table_operation, lookup_insert_eq. intros [= <-]. by apply closed_cursor. Qed.

(** ** A request alone *)

(** The request ends; calls in flight are the ones there were, the table improves, and an
    answer has the property. *)
Definition Ends {A} (p : Request A) (c : Controller) (Q : A → gmap string Operation → Prop) : Prop :=
  finishes p c (λ r c', inflight c' = inflight c ∧ improves (operations_of c) (operations_of c') ∧
    match r with Ok a => Q a (operations_of c') | Err _ => True end).

Lemma Ends_lift {A} (r : Result JobError A) c (Q : A → gmap string Operation → Prop) :
  (∀ a, r = Ok a → Q a (operations_of c)) → Ends (lift r) c Q.
Proof. intros H. split; [done|]. split; [reflexivity|]. destruct r; auto. Qed.

Lemma Ends_ret {A} (a : A) c (Q : A → gmap string Operation → Prop) : Q a (operations_of c) → Ends (mret a) c Q.
Proof. intros H. apply (Ends_lift (Ok a)). by intros ? [= <-]. Qed.

Lemma Ends_throw {A} e c (Q : A → gmap string Operation → Prop) : Ends (throw e) c Q.
Proof. by apply (Ends_lift (Err e)). Qed.

Lemma Ends_mono {A} (p : Request A) c (Q Q' : A → gmap string Operation → Prop) :
  Ends p c Q → (∀ a t, Q a t → Q' a t) → Ends p c Q'.
Proof. intros H HQ. eapply finishes_mono; [exact H|]. intros [a|e] c' (? & ? & ?); split_and!; auto. Qed.

Lemma Ends_bind {A B} (p : Request A) (k : A → Request B) c Q Q' :
  Ends p c Q →
  (∀ a c', inflight c' = inflight c → improves (operations_of c) (operations_of c') → Q a (operations_of c') → Ends (k a) c' Q') →
  Ends (p ≫= k) c Q'.
Proof.
  intros Hp Hk. eapply finishes_bind; [exact Hp|]. intros [a|e] c' (Hi & Ht & HQ); [|split; [done|by split]].
  eapply finishes_mono; [exact (Hk a c' Hi Ht HQ)|]. intros r c'' (Hi' & Ht' & Hr). split_and!; [by rewrite Hi', Hi|by etrans|done].
Qed.

Lemma Ends_attempt {A} (p : Request A) c Q :
  Ends p c Q → Ends (attempt p) c (λ r t, match r with Ok a => Q a t | Err _ => True end).
Proof. intros Hp. eapply finishes_bind; [exact Hp|]. intros r c' (? & ? & ?). split; [done|by split]. Qed.

Lemma Ends_tick c (Q : Z → gmap string Operation → Prop) : (∀ t, Q t (operations_of c)) → Ends tick c Q.
Proof. intros H t. split; [done|]. split; [reflexivity|apply H]. Qed.

Lemma Ends_runtime call c (Q : RuntimeResponse → gmap string Operation → Prop) :
  (∀ r, Q r (operations_of c)) → Ends (runtime call) c Q.
Proof. intros H r. split; [done|]. split; [reflexivity|]. destruct r; [apply H|done]. Qed.

Lemma Ends_atomic {A} (f : Faults → Controller → Result JobError A * Controller) c (Q : A → gmap string Operation → Prop) :
  (∀ e, inflight (f e c).2 = inflight c ∧ improves (operations_of c) (operations_of (f e c).2) ∧
     match (f e c).1 with Ok a => Q a (operations_of (f e c).2) | Err _ => True end) →
  Ends (atomically f) c Q.
Proof. done. Qed.

Lemma Ends_view {A} (q : MemoryRepository → Result JobError A) c (Q : A → gmap string Operation → Prop) :
  (∀ a, q (memory (store c)) = Ok a → Q a (operations_of c)) → Ends (view q) c Q.
Proof. intros H. apply Ends_atomic. intros e. split; [done|]. split; [reflexivity|]. cbn. unfold View. destruct (q _) eqn:E; auto. Qed.

Lemma FileUpdate_table {A} enc err jf sf (fn : StoreM A) c Q :
  store_wp fn (working c) (λ a s', improves (operations_of c) (table_of s') ∧ Q a (table_of s')) →
  let '(res, r) := FileUpdate enc err jf sf fn (store c) in
  improves (operations_of c) (operations (memory r)) ∧ match res with Ok a => Q a (operations (memory r)) | Err _ => True end.
Proof.
  intros H. unfold store_wp, working in H. destruct (FileUpdate _ _ _ _ _ _) as [[a|x] r] eqn:E.
  - destruct (FileUpdate_Ok _ _ _ _ _ _ _ _ E) as (s & Hs & _ & ->). rewrite Hs in H.
    destruct (deliver_all_data (due (watchers (memory (store c))) (filter (λ entry, nextSequence (memory (store c)) < entry.1) (log (repository s))))
      (replaceStateLocked (memory (store c)) (repository s))) as (_ & _ & _ & _ & _ & -> & _). exact H.
  - by rewrite (FileUpdate_Err _ _ _ _ _ _ _ _ E).
Qed.

Lemma Ends_update {A} enc err (fn : StoreM A) c (Q : A → gmap string Operation → Prop) :
  store_wp fn (working c) (λ a s', improves (operations_of c) (table_of s') ∧ Q a (table_of s')) → Ends (update enc err fn) c Q.
Proof.
  intros H. apply Ends_atomic. intros e.
  pose proof (FileUpdate_table enc err (journal_fault e) (snapshot_fault e) fn c Q H) as Ht.
  destruct (FileUpdate _ _ _ _ _ _) as [res r]. by split.
Qed.

Lemma Ends_runInflight key body c Q :
  inflight c !! key = None → (∀ c', store c' = store c → Ends body c' Q) → Ends (runInflight key body) c Q.
Proof.
  intros Hkey Hbody. unfold runInflight. eapply finishes_bind.
  { intros e. instantiate (1 := λ r c', ∃ i, r = Ok (i, true) ∧ store c' = store c ∧ inflight c' = <[key := i]> (inflight c)).
    cbn. rewrite Hkey. by eexists. }
  intros r c1 (i & -> & Hs1 & Hi1). cbn [negb]. eapply finishes_bind.
  { eapply finishes_bind; [by apply Hbody|]. intros outcome c2 H. instantiate (1 := λ r c', ∃ outcome, r = Ok outcome ∧
      inflight c' = inflight c1 ∧ improves (operations_of c1) (operations_of c') ∧
      match outcome with Ok a => Q a (operations_of c') | Err _ => True end). by exists outcome. }
  intros r c2 (outcome & -> & Hi2 & Ht2 & HQ) e e'. unfold Ends, operations_of in *. cbn. split.
  - rewrite Hi2, Hi1, delete_insert_id by done. done.
  - rewrite Hs1 in Ht2. split; [exact Ht2|]. by destruct outcome.
Qed.

(** ** The phases of the recovery *)

(** The answer names an operation; if that is closed, so is the one of the table. *)
Definition answers (id : string) (answer : option Operation) (t : gmap string Operation) : Prop :=
  ∃ o, answer = Some o ∧ (closed_operation o → closed t id).

Lemma closed_settled o : is_running o = false → closed_operation o.
Proof. by left. Qed.

Lemma answers_found t id o : t !! id = Some o → answers id (Some o) t.
Proof. intros H. exists o. split; [done|]. intros Hc x Hx. by simplify_eq. Qed.

Lemma answers_put o s id : op_id o = id → closed_operation o → answers id (Some o) (table_of (PutOperation o s)).
Proof. intros. exists o. split; [done|]. intros _. by apply closed_put. Qed.

Lemma working_table c : table_of (working c) = operations_of c.
Proof. done. Qed.

Lemma same_remembered scope key hash operationID jobID runID s (Q : unit → memoryStore → Prop) :
  (∀ s', table_of s' = table_of s → Q tt s') → store_wp (remember scope key hash operationID jobID runID) s Q.
Proof. intros H. unfold remember. case_bool_decide; [apply wp_ret|apply wp_put]; by apply H. Qed.

Lemma settle_prepared_ends scope key hash job run o result now s (Q : RLTrainingJob * JobRun * Operation → memoryStore → Prop) :
  (∀ s' job' run' o', table_of s' = table_of s → op_id o' = op_id o → closed_operation o' → Q (job', run', o') s') →
  store_wp (settle_prepared scope key hash job run o result now) s Q.
Proof.
  intros H. unfold settle_prepared. destruct (prepare_failure result) as [message|].
  - apply wp_ret, H; [done|done|by left].
  - apply wp_bind, same_remembered. intros s' Hs'. apply wp_ret, H; [done|done|by left].
Qed.

Lemma markReconciliationRequired_ends sha quote enc err operation detail c :
  keyed (operations_of c) →
  Ends (markReconciliationRequired sha quote enc err operation detail) c (λ _ t, closed t (op_id operation)).
Proof.
  intros Hk. eapply Ends_bind; [by apply (Ends_tick _ (λ _ _, True))|]. intros now c1 _ Hi _. apply Ends_update.
  apply Hi in Hk. clear Hi. rewrite <-working_table in *. generalize dependent (working c1). intros s Hk. destruct (_ || _).
  - apply wp_bind, wp_query. unfold GetOperation. fold (table_of s).
    destruct (table_of s !! op_id operation) as [o|] eqn:Eo; [|apply wp_ret; split; [reflexivity|intros x Hx; by simplify_eq]].
    destruct (is_running o) eqn:Hr; [|apply wp_ret; split; [reflexivity|intros x Hx; simplify_eq; by left]].
    apply wp_put. split; [apply improves_operation; by left|]. apply closed_put; [exact (Hk _ _ Eo)|by left].
  - apply wp_bind, wp_load_committed. intros job run o _ Eo.
    destruct (negb (is_running o)) eqn:Hr; [apply wp_ret; split; [reflexivity|intros x Hx; unfold table_of in Hx; unfold GetOperation in Eo; simplify_eq; left; by apply negb_true_iff]|].
    cbn zeta. set (o' := require_reconciliation o detail now). apply wp_bind, wp_put, wp_bind, wp_put, wp_record_event.
    set (s1 := PutRun _ s). change (improves (table_of s1) (table_of (PutOperation o' s1)) ∧ closed (table_of (PutOperation o' s1)) (op_id operation)).
    split; [apply improves_operation; by left|]. apply closed_put; [exact (Hk _ _ Eo)|by left].
Qed.

Lemma prepareRun_ends run operation c : Ends (prepareRun run operation) c (λ _ _, True).
Proof.
  unfold prepareRun. destruct (BuildManifest run); [|by apply Ends_ret].
  eapply Ends_bind; [by apply Ends_attempt, (Ends_runtime _ _ (λ _ _, True))|].
  intros [response|] c1 _ _ _; [|by apply Ends_ret]. destruct (negb _); [by apply Ends_ret|].
  eapply Ends_bind; [by apply Ends_attempt, (Ends_runtime _ _ (λ _ _, True))|].
  intros [compiled|] c2 _ _ _; [|by apply Ends_ret].
  eapply Ends_bind; [by apply Ends_attempt, (Ends_runtime _ _ (λ _ _, True))|].
  by intros [prepared|] c3 _ _ _; apply Ends_ret.
Qed.

Lemma invokeRuntime_ends command run request c : Ends (invokeRuntime command run request) c (λ _ _, True).
Proof.
  unfold invokeRuntime. destruct (command_call _ _ _); [|by apply Ends_ret].
  eapply Ends_bind; [by apply Ends_attempt, (Ends_runtime _ _ (λ _ _, True))|]. intros. by apply Ends_ret.
Qed.

Lemma finalizeAdmitPhase_ends quote enc err request hash plan result c :
  keyed (operations_of c) →
  Ends (finalizeAdmitPhase quote enc err request hash plan result) c (λ r, answers (op_id (al_operation plan)) (ar_operation r)).
Proof.
  intros Hk. eapply Ends_bind; [by apply (Ends_tick _ (λ _ _, True))|]. intros now c1 _ Hi _. apply Ends_update.
  apply Hi in Hk. clear Hi. rewrite <-working_table in *. generalize dependent (working c1). intros s Hk.
  apply wp_bind, wp_load_committed. intros job run o _ Ho. destruct (negb _); [apply wp_ret; split; [reflexivity|by apply answers_found]|].
  apply wp_bind, settle_prepared_ends. intros s' job' run' o' Ht Hid Hc. apply wp_bind, wp_store_all, wp_ret. rewrite <-Ht.
  split; [by apply improves_all|]. apply answers_put; [|done]. rewrite Hid. exact (Hk _ _ Ho).
Qed.

Lemma finalizeRetryPhase_ends quote enc err request hash plan result c :
  keyed (operations_of c) →
  Ends (finalizeRetryPhase quote enc err request hash plan result) c (λ r, answers (op_id (cp_operation plan)) (pr_operation r)).
Proof.
  intros Hk. eapply Ends_bind; [by apply (Ends_tick _ (λ _ _, True))|]. intros now c1 _ Hi _. apply Ends_update.
  apply Hi in Hk. clear Hi. rewrite <-working_table in *. generalize dependent (working c1). intros s Hk.
  apply wp_bind, wp_load_committed. intros job run o _ Ho. destruct (negb _); [apply wp_ret; split; [reflexivity|by apply answers_found]|].
  apply wp_bind, settle_prepared_ends. intros s' job' run' o' Ht Hid Hc. apply wp_bind, wp_store_all, wp_ret. rewrite <-Ht.
  split; [by apply improves_all|]. apply answers_put; [|done]. rewrite Hid. exact (Hk _ _ Ho).
Qed.

Lemma accepted_mark o : commandDispatchAccepted (o <| op_annotations := <[dispatchAccepted := "true"]> (op_annotations o) |>) = true.
Proof. unfold commandDispatchAccepted. cbn -[dispatchAccepted]. by rewrite lookup_insert_eq. Qed.

Lemma finalizeCommandPhase_ends quote enc err plan runtimeErr c :
  keyed (operations_of c) →
  Ends (finalizeCommandPhase quote enc err plan runtimeErr) c (λ r, answers (op_id (cp_operation plan)) (pr_operation r)).
Proof.
  intros Hk. eapply Ends_bind; [by apply (Ends_tick _ (λ _ _, True))|]. intros now c1 _ Hi _. apply Ends_update.
  apply Hi in Hk. clear Hi. rewrite <-working_table in *. generalize dependent (working c1). intros s Hk.
  apply wp_bind, wp_load_committed. intros job run o _ Ho. destruct (negb _); [apply wp_ret; split; [reflexivity|by apply answers_found]|].
  destruct runtimeErr as [e|]; [destruct (isAmbiguousRuntimeCommandError e); [apply wp_ret; split; [reflexivity|by apply answers_found]|]|].
  - apply wp_bind, wp_store_all, wp_ret. split; [apply improves_all; by left|].
    apply answers_put; [exact (Hk _ _ Ho)|by left].
  - pose proof (accepted_mark o). apply wp_bind, wp_store_all, wp_ret. split; [apply improves_all; by right|].
    apply answers_put; [exact (Hk _ _ Ho)|by right].
Qed.

(** ** Resuming an operation *)

Definition reply_operation (r : Reply) : option Operation :=
  match r with AdmitReply a => ar_operation a | CommandReply a => pr_operation a end.

Lemma resumeAdmitPhase_ends quote enc err request hash operationID runID jobID c :
  keyed (operations_of c) → inflight c = ∅ →
  Ends (resumeAdmitPhase quote enc err request hash operationID runID jobID) c (λ r, answers operationID (ar_operation r)).
Proof.
  intros Hk Hin. eapply (Ends_bind _ _ _ (λ found t,
    match found with inl plan => op_id (al_operation plan) = operationID | inr r => answers operationID (ar_operation r) t end)).
  - apply Ends_view. intros found. intros ([[job run] o] & Hload & [= <-])%bind_Ok.
    apply loadCommittedOperation_Ok in Hload as (_ & _ & Ho). destruct (is_running o); [exact (Hk _ _ Ho)|by apply answers_found].
  - intros [plan|r] c1 Hi1 Ht1 Hp; [|by apply Ends_ret]. apply Ht1 in Hk.
    eapply (Ends_bind _ _ _ (λ r, answers operationID (reply_operation r))).
    + apply Ends_runInflight; [by rewrite Hi1, Hin, lookup_empty|]. intros c2 Hs2.
      eapply Ends_bind; [apply prepareRun_ends|]. intros result c3 _ Ht3 _.
      eapply Ends_bind; [apply finalizeAdmitPhase_ends, Ht3; unfold operations_of; by rewrite Hs2|].
      intros response c4 _ _ Hr. apply Ends_ret. cbn. by rewrite <-Hp.
    + intros [r|r] c2 _ _ Hr; [by apply Ends_ret|by apply Ends_throw].
Qed.

Lemma resumeCommandPhase_ends quote enc err request hash operationID runID jobID c :
  keyed (operations_of c) → inflight c = ∅ →
  Ends (resumeCommandPhase quote enc err request hash operationID runID jobID) c (λ r, answers operationID (pr_operation r)).
Proof.
  intros Hk Hin. eapply (Ends_bind _ _ _ (λ found t,
    match found with inl plan => op_id (cp_operation plan) = operationID | inr r => answers operationID (pr_operation r) t end)).
  - apply Ends_view. intros found. intros ([[job run] o] & Hload & [= <-])%bind_Ok.
    apply loadCommittedOperation_Ok in Hload as (_ & _ & Ho). destruct (is_running o); [exact (Hk _ _ Ho)|by apply answers_found].
  - intros [plan|r] c1 Hi1 Ht1 Hp; [|by apply Ends_ret]. apply Ht1 in Hk.
    eapply (Ends_bind _ _ _ (λ r, answers operationID (reply_operation r))).
    + apply Ends_runInflight; [by rewrite Hi1, Hin, lookup_empty|]. intros c2 Hs2. unfold command_body.
      assert (Hk2 : keyed (operations_of c2)) by (unfold operations_of; by rewrite Hs2). destruct (cp_isRetry plan).
      * eapply Ends_bind; [apply prepareRun_ends|]. intros result c3 _ Ht3 _.
        eapply Ends_bind; [by apply finalizeRetryPhase_ends, Ht3|]. intros response c4 _ _ Hr. apply Ends_ret. cbn. by rewrite <-Hp.
      * eapply Ends_bind; [apply invokeRuntime_ends|]. intros result c3 _ Ht3 _.
        eapply Ends_bind; [by apply finalizeCommandPhase_ends, Ht3|]. intros response c4 _ _ Hr. apply Ends_ret. cbn. by rewrite <-Hp.
    + intros [r|r] c2 _ _ Hr; [by apply Ends_throw|by apply Ends_ret].
Qed.

(** The check of an answer before the recovery lets go of the operation. *)
Lemma checked_closed id answer t :
  answers id answer t → still_running answer && negb (from_option commandDispatchAccepted false answer) = false → closed t id.
Proof.
  intros (o & -> & Ho) H. apply Ho. unfold still_running in H. cbn in H.
  apply andb_false_iff in H as [H|H%negb_false_iff]; [by left|by right].
Qed.

Lemma replayOperation_ends sha quote enc err operation c :
  keyed (operations_of c) → inflight c = ∅ →
  Ends (replayOperation sha quote enc err operation) c (λ _ t, closed t (op_id operation)).
Proof.
  intros Hk Hin. unfold replayOperation. cbn zeta.
  assert (Hmark : ∀ detail c', improves (operations_of c) (operations_of c') →
    Ends (markReconciliationRequired sha quote enc err operation detail) c' (λ _ t, closed t (op_id operation)))
    by (intros detail c' Ht; by apply markReconciliationRequired_ends, Ht).
  destruct (op_type operation); cbn [commandForOperation]; try (apply Hmark; reflexivity);
    (eapply Ends_bind; [first [by apply resumeAdmitPhase_ends|by apply resumeCommandPhase_ends]|]);
    intros response c1 _ Ht Hr.
  { destruct (still_running (ar_operation response)) eqn:Es; [by apply Hmark|].
    eapply Ends_ret, checked_closed; [exact Hr|]. by rewrite Es. }
  all: destruct (still_running (pr_operation response) && _) eqn:Es; [by apply Hmark|].
  all: eapply Ends_ret, checked_closed; [exact Hr|exact Es].
Qed.

(** Some log covers a run. *)
Lemma covering_log run : ∃ E, run_covered E run.
Proof.
  set (e o := mkEvent "" JOB_EVENT_TYPE_OPERATION_RECORDED "" "" "" None JOB_STATE_UNKNOWN (Some o) None "" DATA_KIND_UNKNOWN None ∅
    JOB_RUN_STATE_UNKNOWN 0 "").
  exists ((λ o, (0, e o)) <$> rn_operations run). apply Forall_forall. intros o Ho Hr. exists (0, e o), o.
  split; [|done]. apply list_elem_of_fmap. by exists o.
Qed.

Lemma ReportComponentStatus_ends sha upper quote enc err incoming c :
  Ends (ReportComponentStatus sha upper quote enc err incoming) c (λ _ _, True).
Proof.
  unfold ReportComponentStatus. destruct incoming as [incoming|]; [|by apply Ends_throw].
  case_match; [by apply Ends_throw|]. apply (Ends_bind _ _ _ (λ _ _, True)).
  { destruct (cs_observed_at incoming); [by apply Ends_ret|].
    eapply Ends_bind; [by apply (Ends_tick _ (λ _ _, True))|]. intros. by apply Ends_ret. }
  clear. intros s0 c1 _ _ _. apply Ends_update. rewrite <-working_table. generalize (working c1). intros s.
  apply wp_bind, wp_get_job. intros job _. apply wp_bind, wp_get_run. intros run _. cbn zeta.
  set (a := advanceRunFromComponent _ _ _ _ _).
  assert (Ha : settled_operation (ad_operation a)).
  { destruct (covering_log (upsert_status run (MergeAggregatedStatus (rn_component_status run) s0))) as [E HE].
    exact (proj2 (advance_covered E _ _ _ _ _ HE)). }
  clearbody a. apply wp_bind, wp_put, wp_bind, wp_put, wp_bind, wp_record_event.
  set (s1 := AppendEvent _ _). assert (Hs1 : table_of s1 = table_of s) by done. rewrite <-Hs1. clearbody s1.
  apply wp_bind. destruct (ad_operation a) as [o|]; [|by apply wp_ret, wp_ret].
  apply wp_bind, wp_put, wp_bind, wp_record_event, wp_record_event, wp_ret. split; [|done].
  apply (improves_operation o s1). left. by apply Ha.
Qed.

Lemma reconcileOperation_ends sha upper quote enc err operation c :
  keyed (operations_of c) → inflight c = ∅ →
  Ends (reconcileOperation sha upper quote enc err operation) c (λ _ t, closed t (op_id operation)).
Proof.
  intros Hk Hin. unfold reconcileOperation. cbn zeta. destruct (_ || _); [by apply markReconciliationRequired_ends|].
  destruct (bool_decide (op_type operation = OPERATION_TYPE_ADMIT) || _).
  - eapply Ends_bind; [by apply (Ends_view _ _ (λ _ _, True))|]. intros known c1 Hi1 Ht1 _. apply Ht1 in Hk. rewrite Hin in Hi1.
    destruct (negb known); [by apply markReconciliationRequired_ends|].
    destruct (_ && _); [by apply markReconciliationRequired_ends|by apply replayOperation_ends].
  - eapply Ends_bind; [by apply Ends_attempt, (Ends_runtime _ _ (λ _ _, True))|]. intros answer c1 Hi1 Ht1 _. apply Ht1 in Hk. rewrite Hin in Hi1.
    eapply (Ends_bind _ _ _ (λ completed t, completed = true → closed t (op_id operation))).
    { destruct (match answer with Ok _ => _ | Err _ => None end); [|by apply Ends_ret].
      eapply Ends_bind; [apply ReportComponentStatus_ends|]. intros _ c2 _ _ _. apply Ends_view. intros completed [= <-] Hc x Hx.
      unfold operationCompleted, GetOperation in Hc. unfold operations_of in Hx. rewrite Hx in Hc. left. by apply negb_true_iff. }
    intros completed c2 Hi2 Ht2 Hc. apply Ht2 in Hk. rewrite Hi1 in Hi2. destruct completed; [by apply Ends_ret, Hc|].
    eapply Ends_bind; [by apply (Ends_view _ _ (λ _ _, True))|]. intros known c3 Hi3 Ht3 _. apply Ht3 in Hk. rewrite Hi2 in Hi3.
    destruct (negb known); [by apply markReconciliationRequired_ends|].
    destruct (commandDispatchAccepted operation); [by apply markReconciliationRequired_ends|by apply replayOperation_ends].
Qed.

Lemma attempt_finishes {A} (p : Request A) c Q :
  Ends p c Q → finishes (attempt p) c (λ r c', ∃ res, r = Ok res ∧ inflight c' = inflight c ∧
    improves (operations_of c) (operations_of c') ∧ match res with Ok a => Q a (operations_of c') | Err _ => True end).
Proof. intros H. eapply finishes_bind; [exact H|]. intros res c' Hres. by exists res. Qed.

Lemma view_finishes {A} (q : MemoryRepository → Result JobError A) c a :
  q (memory (store c)) = Ok a → finishes (view q) c (λ r c', r = Ok a ∧ c' = c).
Proof. intros H e. split; [|done]. exact H. Qed.

(** Each operation of the list is closed, or its error is reported. *)
Lemma reconcile_each_finishes sha upper quote enc err l c :
  keyed (operations_of c) → inflight c = ∅ →
  finishes (reconcile_each sha upper quote enc err l) c (λ r c', ∃ failed, r = Ok failed ∧
    improves (operations_of c) (operations_of c') ∧ Forall (λ o, closed (operations_of c') (op_id o) ∨ op_id o ∈ failed.*1) l).
Proof.
  revert c. induction l as [|o l IH]; intros c Hk Hin; cbn [reconcile_each]; [by exists []|].
  eapply finishes_bind; [by apply attempt_finishes, reconcileOperation_ends|]. intros r c1 (res & -> & Hi1 & Ht1 & Hres).
  eapply finishes_bind; [apply IH; [by apply Ht1|by rewrite Hi1]|]. intros r c2 (rest & -> & Ht2 & Hrest). eexists. split; [done|].
  split; [by etrans|]. constructor.
  - destruct res; [left; by apply Ht2|right]. cbn. set_solver.
  - eapply Forall_impl; [exact Hrest|]. intros x [?|?]; [by left|right]. destruct res; cbn; set_solver.
Qed.

(** A controller that has just started again holds what is on disk. *)
Lemma restarted_keyed sha upper quote wire jobEqual opEqual enc err order ls c pool :
  controller_steps sha upper quote wire jobEqual opEqual enc err order (first_process, []) ls (c, pool) →
  keyed (operations_of (restarted c)).
Proof.
  intros Hg%controller_good. destruct Hg as [Hok _]. apply restarted_ok, proj1 in Hok. destruct Hok as [[Ho _] _].
  intros id o H. exact (proj1 (Ho id o H)).
Qed.

(** C12: A process that starts again after anything that has happened before, and however the
    runtime answers and whatever writes fail, finishes its recovery before it serves; then
    every operation that is still marked as running is one whose dispatch the runtime has
    accepted, or one whose error the recovery reports. *)
Theorem recovery_settles sha upper quote wire jobEqual opEqual enc err order ls c pool :
  controller_steps sha upper quote wire jobEqual opEqual enc err order (first_process, []) ls (c, pool) →
  Z.of_nat (size (operations_of (restarted c))) ≤ max_int64 →
  finishes (ReconcileIncompleteOperations sha upper quote enc err) (restarted c) (λ r c', ∃ failed, r = Ok failed ∧
    ∀ id o, operations_of c' !! id = Some o → op_state o = OPERATION_STATE_RUNNING →
      commandDispatchAccepted o = true ∨ id ∈ failed.*1).
Proof.
  intros Hk%restarted_keyed Hsize. set (c0 := restarted c) in *. assert (Hin : inflight c0 = ∅) by done. clearbody c0.
  destruct (listRunningOperations_complete quote (memory (store c0)) Hsize) as (l & Hl & _ & Hperm).
  eapply finishes_bind; [by apply view_finishes, Hl|]. intros r c1 [-> ->].
  eapply finishes_mono; [by apply reconcile_each_finishes|]. intros r c' (failed & -> & [_ Himp] & Hall). exists failed. split; [done|].
  intros id o Ho Hr. assert (Hrun : is_running o = true) by (by apply bool_decide_eq_true).
  assert (Hend : closed (operations_of c') id ∨ id ∈ failed.*1).
  { destruct (operations_of c0 !! id) as [o0|] eqn:E0; [|left; apply Himp; intros x Hx; by rewrite E0 in Hx].
    destruct (is_running o0) eqn:Er0; [|left; apply Himp; intros x Hx; rewrite E0 in Hx; injection Hx as <-; by left].
    rewrite Forall_forall in Hall. rewrite <-(Hk id o0 E0), <-(id_cursor o0). apply Hall. rewrite Hperm.
    apply list_elem_of_fmap. exists o0. split; [done|]. apply list_elem_of_filter. split; [done|].
    apply list_elem_of_fmap. exists (id, o0). split; [done|]. by apply elem_of_map_to_list. }
  destruct Hend as [Hc|?]; [left|by right]. destruct (Hc o Ho) as [?|?]; congruence.
Qed.

(** ** A refused command *)

Lemma update_finishes {A} enc err (fn : StoreM A) c (Q : Result JobError A → Controller → Prop) :
  (∀ a s, fn (working c) = Ok (a, s) → ∀ c', jobs (memory (store c')) = jobs (repository s) →
     runs (memory (store c')) = runs (repository s) → Q (Ok a) c') →
  (∀ e c', memory (store c') = memory (store c) → Q (Err e) c') →
  finishes (update enc err fn) c Q.
Proof.
  intros HOk HErr faults. unfold update, atomically. cbn beta iota.
  pose proof (FileUpdate_Ok enc err (journal_fault faults) (snapshot_fault faults) fn (store c)) as H1.
  pose proof (FileUpdate_Err enc err (journal_fault faults) (snapshot_fault faults) fn (store c)) as H2.
  destruct (FileUpdate enc err (journal_fault faults) (snapshot_fault faults) fn (store c)) as [[a|e] r].
  - destruct (H1 a r eq_refl) as (s & Hs & _ & Hm). set (live := replaceStateLocked (memory (store c)) (repository s)) in Hm.
    set (ds := due _ _) in Hm. destruct (deliver_all_data ds live) as (_ & _ & _ & Hj & Hr & _). rewrite <-Hm in Hj, Hr.
    apply (HOk a s Hs); [exact Hj|exact Hr].
  - apply HErr. exact (H2 e r eq_refl).
Qed.

