(* ===== verification/JobStatusProofs.v ===== *)
(** * What the aggregate of a component's statuses keeps

    The latest observation of every source survives the aggregate: reading the annotations
    back gives what was written, whatever the order in which the map is walked. *)

From Stdlib Require Import ZArith Lia String Ascii.
From stdpp Require Import base list strings gmap.
From S2P Require Import Prelude GoStrings GoTime GoTimeText ClusterModel Projection ProjectionProofs Validation JobModel JobStatus.
From stdpp Require Import options.

Local Open Scope Z_scope.

(** ** Keys of annotations *)

(** The source and the field a key names. *)
Definition observed_parts (key : string) : option (string * string) :=
  if HasPrefix key "observation." then
    match Split key "." with [_; source; field] => Some (source, field) | _ => None end
  else None.

Definition dot_free (source : string) : Prop := sep_free "." source.

Lemma parse_annotation_parts s key value obs :
  parse_annotation s key value obs =
  match observed_parts key with
  | Some (source, field) => <[source := set_observed field value (default (new_observation s source) (obs !! source))]> obs
  | None => obs
  end.
Proof. unfold parse_annotation, observed_parts. destruct (HasPrefix _ _); [|done]. cbn [negb]. by repeat case_match; simplify_eq. Qed.

Lemma observation_key_join source field : observation_key source field = Join ["observation"; source; field] ".".
Proof. done. Qed.

Lemma prefix_of_app (p r : string) : String.prefix p (p +:+ r) = true.
Proof.
  induction p as [|c p IH]; [by destruct r|]. change (String c p +:+ r) with (String c (p +:+ r)).
  cbn [String.prefix]. by destruct (ascii_dec c c).
Qed.

Lemma observed_parts_key source field :
  dot_free source → dot_free field → observed_parts (observation_key source field) = Some (source, field).
Proof.
  intros Hs Hf. unfold observed_parts. unfold HasPrefix, observation_key at 1. rewrite prefix_of_app.
  rewrite observation_key_join, Split_Join; [done|done|]. repeat constructor; try done. unfold sep_free. cbn. set_solver.
Qed.

Lemma prefix_app (p s : string) : String.prefix p s = true → ∃ r, s = p +:+ r.
Proof.
  revert s. induction p as [|c p IH]; intros s; [by exists s|]. destruct s as [|d s]; [done|]. cbn.
  destruct (ascii_dec c d) as [->|]; [|done]. intros [r ->]%IH. by exists r.
Qed.

Lemma Split_pieces c s : Forall (sep_free c) (Split s c).
Proof.
  unfold Split. apply Forall_fmap. eapply Forall_impl; [apply split_list_pieces|]. intros p Hp. cbn. unfold sep_free. by rewrite chars_unchars.
Qed.

Lemma observed_parts_Some key source field :
  observed_parts key = Some (source, field) → key = observation_key source field ∧ dot_free source ∧ dot_free field.
Proof.
  unfold observed_parts. destruct (HasPrefix key _) eqn:Hp; [|done]. apply prefix_app in Hp as [r ->].
  assert (Hsplit : Split ("observation." +:+ r) "." = "observation" :: Split r ".").
  { unfold Split. rewrite chars_app. change (chars "observation.") with (chars "observation" ++ ["."%char]). rewrite <-app_assoc.
    cbn [app]. rewrite split_list_app; [|cbn; set_solver]. by rewrite fmap_cons, unchars_chars. }
  rewrite Hsplit. pose proof (Split_pieces "." r) as Hf. pose proof (Join_Split "." r) as Hj.
  destruct (Split r ".") as [|p [|q [|]]]; try done. intros [= -> ->]. inversion Hf as [|? ? ? Hf']; subst. inversion Hf'; subst.
  by split.
Qed.

Lemma observation_key_inj s1 f1 s2 f2 :
  dot_free s1 → dot_free f1 → dot_free s2 → dot_free f2 → observation_key s1 f1 = observation_key s2 f2 → s1 = s2 ∧ f1 = f2.
Proof.
  intros H1 H2 H3 H4 He. pose proof (observed_parts_key s1 f1 H1 H2) as Hp. rewrite He, observed_parts_key in Hp by done. by simplify_eq.
Qed.

(** ** Reading the annotations *)

(** An observation from the fields that are written down. *)
Definition assembled (s : ComponentStatus) (source : string) (look : string → option string) : ComponentStatus :=
  mkStatus (cs_component s)
    (default COMPONENT_HEALTH_UNKNOWN (look "health" ≫= ComponentHealth_value))
    (default "" (look "detail")) source
    (default 0 (look "revision" ≫= ScanUint))
    (timestamp_New <$> (look "observed_at" ≫= ParseRFC3339))
    ∅ (cs_job_id s) (cs_run_id s) (cs_trace_id s) (cs_data_kind s) (cs_semantic_context s)
    (default RUNTIME_STATE_UNKNOWN (look "runtime_state" ≫= RuntimeState_value))
    (default false (look "runtime_converged" ≫= ParseBool)).

Lemma assembled_ext s source look look' : (∀ field, look field = look' field) → assembled s source look = assembled s source look'.
Proof. intros H. unfold assembled. by rewrite !H. Qed.

(** One more field is written down. *)
Definition with_field (field value : string) (look : string → option string) : string → option string :=
  λ f, if bool_decide (f = field) then Some value else look f.

Definition observed_fields : list string :=
  ["health"; "detail"; "revision"; "observed_at"; "runtime_state"; "runtime_converged"].

Lemma assembled_set s source field value look :
  look field = None → set_observed field value (assembled s source look) = assembled s source (with_field field value look).
Proof.
  intros Hnone. unfold set_observed, assembled, with_field.
  destruct (decide (field ∈ observed_fields)) as [H|H]; unfold observed_fields in H.
  - repeat (apply elem_of_cons in H as [->|H]; [rewrite Hnone; repeat case_bool_decide; try done; cbn; repeat case_match; done|]).
    by apply elem_of_nil in H.
  - repeat (apply not_elem_of_cons in H as [? H]). by repeat (rewrite bool_decide_eq_false_2 by congruence).
Qed.

(** What the map says of a source. *)
Definition looked (m : gmap string string) (source field : string) : option string :=
  if decide (dot_free source ∧ dot_free field) then m !! observation_key source field else None.

Lemma looked_insert m i x source field :
  looked (<[i := x]> m) source field =
  if decide (observed_parts i = Some (source, field)) then Some x else looked m source field.
Proof.
  unfold looked. destruct (decide (dot_free source ∧ dot_free field)) as [[Hs Hf]|Hd].
  - destruct (decide (i = observation_key source field)) as [->|Hne].
    + rewrite lookup_insert_eq, decide_True; [done|]. by apply observed_parts_key.
    + rewrite lookup_insert_ne by done. rewrite decide_False; [done|]. by intros [-> _]%observed_parts_Some.
  - rewrite decide_False; [done|]. intros (_ & ? & ?)%observed_parts_Some. by apply Hd.
Qed.

Definition read_ok (s : ComponentStatus) (obs : gmap string ComponentStatus) (m : gmap string string) : Prop :=
  ∀ source, match obs !! source with
            | Some o => o = assembled s source (looked m source) ∧ ∃ field, is_Some (looked m source field)
            | None => ∀ field, looked m source field = None end.

Lemma read_step s i x m obs : m !! i = None → read_ok s obs m → read_ok s (parse_annotation s i x obs) (<[i := x]> m).
Proof.
  intros Hi H source. rewrite parse_annotation_parts. pose proof (H source) as Hs.
  destruct (observed_parts i) as [[src f]|] eqn:Ep.
  - assert (Hnone : looked m src f = None).
    { unfold looked. apply observed_parts_Some in Ep as (-> & ? & ?). by rewrite decide_True. }
    destruct (decide (src = source)) as [->|Hne].
    + rewrite lookup_insert_eq. split.
      * transitivity (set_observed f x (assembled s source (looked m source))).
        { f_equal. destruct (obs !! source) as [o|]; [by destruct Hs as [-> _]|].
          transitivity (assembled s source (λ _, None)); [done|]. by apply assembled_ext. }
        rewrite assembled_set by done. apply assembled_ext. intros field. rewrite looked_insert, Ep. unfold with_field.
        destruct (decide (field = f)) as [->|Hnf]; [by rewrite bool_decide_eq_true_2, decide_True by done|].
        rewrite bool_decide_eq_false_2, decide_False by (done || congruence). done.
      * exists f. rewrite looked_insert, decide_True by done. done.
    + assert (Hsame : ∀ field, looked (<[i := x]> m) source field = looked m source field)
        by (intros field; rewrite looked_insert, decide_False by congruence; done).
      rewrite lookup_insert_ne by done. destruct (obs !! source) as [o|].
      * destruct Hs as [-> [field Hf]]. split; [by apply assembled_ext|]. exists field. by rewrite Hsame.
      * intros field. by rewrite Hsame.
  - assert (Hsame : ∀ field, looked (<[i := x]> m) source field = looked m source field)
      by (intros field; rewrite looked_insert, decide_False by congruence; done).
    destruct (obs !! source) as [o|].
    + destruct Hs as [-> [field Hf]]. split; [by apply assembled_ext|]. exists field. by rewrite Hsame.
    + intros field. by rewrite Hsame.
Qed.

(** Reading does not depend on the order in which the map is walked: it gives every source
    that has a field the observation its fields make. *)
Lemma parse_read s : read_ok s (parseObservationAnnotations s) (cs_annotations s).
Proof.
  apply (map_fold_weak_ind (read_ok s)); [|intros; by apply read_step].
  intros source. rewrite lookup_empty. intros field. unfold looked. case_decide; [apply lookup_empty|done].
Qed.

(** ** Writing the annotations *)

(** The fields the aggregate writes down of an observation. *)
Definition written (o : ComponentStatus) : string → option string :=
  (if bool_decide (cs_observed_runtime_state o = RUNTIME_STATE_UNKNOWN) then id else
   λ look, with_field "runtime_state" (RuntimeState_String (cs_observed_runtime_state o))
     (with_field "runtime_converged" (FormatBool (cs_converged o)) look))
  (with_field "health" (ComponentHealth_String (cs_health o))
  (with_field "detail" (cs_detail o)
  (with_field "revision" (FormatUint (cs_revision o))
  (with_field "observed_at" (FormatRFC3339Nano (AsTime (cs_observed_at o))) (λ _, None))))).

Lemma looked_empty source field : looked ∅ source field = None.
Proof. unfold looked. case_decide; [apply lookup_empty|done]. Qed.

Lemma looked_field src f x m source field :
  dot_free src → f ∈ observed_fields →
  looked (<[observation_key src f := x]> m) source field =
  if bool_decide (source = src ∧ field = f) then Some x else looked m source field.
Proof.
  intros Hs Hf. assert (dot_free f).
  { unfold observed_fields in Hf. repeat (apply elem_of_cons in Hf as [->|Hf]; [unfold dot_free, sep_free; cbn; set_solver|]).
    by apply elem_of_nil in Hf. }
  rewrite looked_insert, observed_parts_key by done. case_bool_decide as Hc.
  - destruct Hc as [-> ->]. by rewrite decide_True.
  - rewrite decide_False; [done|]. naive_solver.
Qed.

Lemma looked_union m1 m2 source field :
  looked (m1 ∪ m2) source field = match looked m1 source field with Some v => Some v | None => looked m2 source field end.
Proof. unfold looked. case_decide; [|done]. rewrite lookup_union. by destruct (m1 !! _), (m2 !! _). Qed.

Lemma looked_observation src o source field :
  dot_free src → looked (observation_annotations src o) source field = if decide (source = src) then written o field else None.
Proof.
  intros Hs. unfold observation_annotations, written. rewrite <-insert_empty.
  destruct (bool_decide (cs_observed_runtime_state o = _)); rewrite !looked_field, looked_empty by (done || unfold observed_fields; set_solver);
    unfold with_field, id; destruct (decide (source = src)) as [->|Hne]; repeat (case_bool_decide; [naive_solver|]); try done;
    repeat (rewrite bool_decide_eq_false_2 by naive_solver); done.
Qed.

Lemma fold_annotations entries aggregated source field :
  Forall (λ entry, dot_free entry.1) entries → NoDup entries.*1 →
  looked (cs_annotations (foldl fold_observation aggregated entries)) source field =
  match (list_to_map entries : gmap string ComponentStatus) !! source with
  | Some o => match written (normalizeRuntimeSignal o) field with
              | Some v => Some v | None => looked (cs_annotations aggregated) source field end
  | None => looked (cs_annotations aggregated) source field
  end.
Proof.
  revert aggregated. induction entries as [|[src o] entries IH]; intros aggregated Hd Hn; [done|].
  inversion Hd as [|? ? Hsrc Hd']; subst. inversion Hn as [|? ? Hnotin Hn']; subst. cbn [fst] in *.
  cbn [foldl list_to_map foldr fst snd]. rewrite (IH _ Hd' Hn').
  change (cs_annotations (fold_observation aggregated (src, o))) with
    (observation_annotations src (normalizeRuntimeSignal o) ∪ cs_annotations aggregated).
  rewrite looked_union, looked_observation by done. destruct (decide (source = src)) as [->|Hne].
  - rewrite not_elem_of_list_to_map_1 by done. by rewrite lookup_insert_eq.
  - rewrite lookup_insert_ne by done. done.
Qed.

(** The keys that are not of an observation. *)
Lemma looked_other i x m source field : observed_parts i = None → looked (<[i := x]> m) source field = looked m source field.
Proof. intros H. rewrite looked_insert, decide_False; [done|]. by rewrite H. Qed.

Lemma by_source_perm known : by_source known ≡ₚ map_to_list known.
Proof. apply sort_by_perm. Qed.

Lemma by_source_map known : (list_to_map (by_source known) : gmap string ComponentStatus) = known.
Proof.
  transitivity (list_to_map (map_to_list known) : gmap string ComponentStatus); [|apply list_to_map_to_list].
  apply list_to_map_proper; [|apply by_source_perm]. rewrite (by_source_perm known). apply NoDup_fst_map_to_list.
Qed.

Lemma by_source_NoDup known : NoDup (by_source known).*1.
Proof. rewrite (by_source_perm known). apply NoDup_fst_map_to_list. Qed.

Definition merged_observations (existing : list ComponentStatus) (incoming : ComponentStatus) : gmap string ComponentStatus :=
  observe (known_observations existing (cs_component incoming)) (named_source incoming).

Lemma merged_annotations existing incoming source field :
  map_Forall (λ source _, dot_free source) (merged_observations existing incoming) →
  looked (cs_annotations (MergeAggregatedStatus existing incoming)) source field =
  merged_observations existing incoming !! source ≫= λ o, written (normalizeRuntimeSignal o) field.
Proof.
  intros Hd. unfold MergeAggregatedStatus. fold (merged_observations existing incoming).
  set (known := merged_observations existing incoming) in *. set (entries := by_source known). cbn zeta.
  set (aggregated := mkStatus _ _ _ _ _ _ _ _ _ _ _ _ _ _).
  assert (Hfold : looked (cs_annotations (foldl fold_observation aggregated entries)) source field =
    known !! source ≫= λ o, written (normalizeRuntimeSignal o) field).
  { rewrite fold_annotations.
    - unfold entries. rewrite by_source_map. destruct (known !! source) as [o|]; cbn [mbind option_bind]; [|apply looked_empty].
      destruct (written _ _); [done|]. apply looked_empty.
    - apply Forall_forall. intros [src o] Hin. unfold entries in Hin. rewrite by_source_perm in Hin.
      apply elem_of_map_to_list in Hin. by apply (Hd src o).
    - apply by_source_NoDup. }
  clearbody aggregated entries. set (folded := foldl fold_observation aggregated entries) in *.
  rewrite <-Hfold. generalize (runtime_signal entries) as signal. intros signal.
  transitivity (looked (cs_annotations (show_signal folded signal)) source field).
  - cbn [cs_annotations]. change (looked (<["observation.sources" := Join entries.*1 ","]>
      (<["observation.count" := FormatUint (Z.of_nat (length entries))]>
      (<["aggregation.strategy" := "retain-latest-per-source-worst-health"]> (cs_annotations (show_signal folded signal))))) source field =
      looked (cs_annotations (show_signal folded signal)) source field).
    by rewrite !looked_other by (by vm_compute).
  - unfold show_signal. destruct signal as [o|]; [|done].
    change (looked (<["runtime.converged" := FormatBool (cs_converged o)]> (<["runtime.state" := RuntimeState_String (cs_observed_runtime_state o)]>
      (<["runtime.source" := cs_source o]> (cs_annotations folded)))) source field = looked (cs_annotations folded) source field).
    by rewrite !looked_other by (by vm_compute).
Qed.

(** ** The round trip *)

(** An observation whose fields have texts that say everything of them. *)
Record storable (o : ComponentStatus) : Prop := {
  storable_health : cs_health o ∈ named_healths;
  storable_revision : is_u64 (cs_revision o);
  storable_time : ∃ t, cs_observed_at o = Some t ∧ Timestamp_valid t = true;
  storable_state : cs_observed_runtime_state o ∈ named_runtime_states;
}.

(** What is kept of an observation: all but its own annotations, with the names of the run
    taken from the aggregate; whether a state has been reached is kept with the state. *)
Definition kept (aggregated : ComponentStatus) (source : string) (o : ComponentStatus) : ComponentStatus :=
  mkStatus (cs_component aggregated) (cs_health o) (cs_detail o) source (cs_revision o) (cs_observed_at o) ∅
    (cs_job_id aggregated) (cs_run_id aggregated) (cs_trace_id aggregated) (cs_data_kind aggregated)
    (cs_semantic_context aggregated) (cs_observed_runtime_state o)
    (if bool_decide (cs_observed_runtime_state o = RUNTIME_STATE_UNKNOWN) then false else cs_converged o).

Lemma named_health h : h ∈ named_healths → ComponentHealth_value (ComponentHealth_String h) = Some h.
Proof. intros H. unfold named_healths in H. repeat (apply elem_of_cons in H as [->|H]; [by vm_compute|]). by apply elem_of_nil in H. Qed.

Lemma named_state st : st ∈ named_runtime_states → RuntimeState_value (RuntimeState_String st) = Some st.
Proof. intros H. unfold named_runtime_states in H. repeat (apply elem_of_cons in H as [->|H]; [by vm_compute|]). by apply elem_of_nil in H. Qed.

Lemma ParseBool_Format b : ParseBool (FormatBool b) = Some b.
Proof. by destruct b; vm_compute. Qed.

Lemma stored_time t : Timestamp_valid t = true → ParseRFC3339 (FormatRFC3339Nano (AsTime (Some t))) = Some (AsTime (Some t)).
Proof. intros H. apply Parse_Format. unfold Timestamp_valid in H. bool_props. unfold AsTime, Second. lia. Qed.

Lemma assembled_written s source o : storable o → assembled s source (written o) = kept s source o.
Proof.
  intros [Hh Hr (t & Ht & Hv) Hs]. unfold assembled, kept.
  assert (H1 : written o "health" = Some (ComponentHealth_String (cs_health o)) ∧ written o "detail" = Some (cs_detail o) ∧
    written o "revision" = Some (FormatUint (cs_revision o)) ∧
    written o "observed_at" = Some (FormatRFC3339Nano (AsTime (cs_observed_at o)))) by (unfold written; by destruct (bool_decide _)).
  assert (H2 : written o "runtime_state" = (if bool_decide (cs_observed_runtime_state o = RUNTIME_STATE_UNKNOWN) then None else
      Some (RuntimeState_String (cs_observed_runtime_state o))) ∧
    written o "runtime_converged" = (if bool_decide (cs_observed_runtime_state o = RUNTIME_STATE_UNKNOWN) then None else
      Some (FormatBool (cs_converged o)))) by (unfold written; by destruct (bool_decide _)).
  destruct H1 as (-> & -> & -> & ->), H2 as [-> ->]. rewrite Ht. cbn [mbind option_bind].
  rewrite named_health, ScanUint_FormatUint, stored_time by done. cbn [default from_option fmap option_fmap option_map].
  rewrite timestamp_New_AsTime by done. case_bool_decide as Eu; cbn [mbind option_bind default from_option]; [by rewrite Eu|].
  by rewrite named_state, ParseBool_Format by done.
Qed.


(** ** The health of the aggregate *)

Lemma normalized_health o : cs_health (normalizeRuntimeSignal o) = cs_health o.
Proof. unfold normalizeRuntimeSignal. by repeat case_match. Qed.

Lemma fold_health entries aggregated :
  let h := cs_health (foldl fold_observation aggregated entries) in
  (h = cs_health aggregated ∨ ∃ entry, entry ∈ entries ∧ h = cs_health entry.2) ∧
  healthRank (cs_health aggregated) ≤ healthRank h ∧ ∀ entry, entry ∈ entries → healthRank (cs_health entry.2) ≤ healthRank h.
Proof.
  revert aggregated. induction entries as [|[src o] entries IH]; intros aggregated; cbn zeta; [split_and!; [by left|done|]; by intros ? ?%elem_of_nil|].
  cbn [foldl]. destruct (IH (fold_observation aggregated (src, o))) as (H1 & H2 & H3). cbn zeta in *.
  assert (Hh : cs_health (fold_observation aggregated (src, o)) =
    if healthRank (cs_health aggregated) <? healthRank (cs_health o) then cs_health o else cs_health aggregated).
  { rewrite <-(normalized_health o). done. }
  rewrite Hh in *. destruct (Z.ltb_spec (healthRank (cs_health aggregated)) (healthRank (cs_health o))); split_and!.
  - right. destruct H1 as [->|(e & ? & ->)]; [exists (src, o)|exists e]; set_solver.
  - lia.
  - intros e [->|He]%elem_of_cons; [cbn [snd]; lia|by apply H3].
  - destruct H1 as [->|(e & ? & ->)]; [by left|right; exists e; set_solver].
  - lia.
  - intros e [->|He]%elem_of_cons; [cbn [snd]; lia|by apply H3].
Qed.

(** The health of the aggregate is the worst of the newest observations of all sources:
    one of them has it, unless none says anything, and none is worse. *)
Theorem aggregate_worst_health existing incoming :
  let h := cs_health (MergeAggregatedStatus existing incoming) in
  (h = COMPONENT_HEALTH_UNKNOWN ∨ ∃ source o, merged_observations existing incoming !! source = Some o ∧ cs_health o = h) ∧
  ∀ source o, merged_observations existing incoming !! source = Some o → healthRank (cs_health o) ≤ healthRank h.
Proof.
  cbn zeta. set (known := merged_observations existing incoming).
  set (aggregated := mkStatus (cs_component incoming) COMPONENT_HEALTH_UNKNOWN "" "aggregated" (cs_revision (named_source incoming))
    (cs_observed_at (named_source incoming)) ∅ (cs_job_id (named_source incoming)) (cs_run_id (named_source incoming))
    (cs_trace_id (named_source incoming)) (cs_data_kind (named_source incoming)) (cs_semantic_context (named_source incoming))
    RUNTIME_STATE_UNKNOWN false).
  assert (Hh : cs_health (MergeAggregatedStatus existing incoming) = cs_health (foldl fold_observation aggregated (by_source known))).
  { unfold MergeAggregatedStatus. fold (merged_observations existing incoming). fold known. cbn zeta. fold aggregated.
    unfold show_signal. by destruct (runtime_signal _). }
  rewrite Hh. clear Hh. destruct (fold_health (by_source known) aggregated) as (H1 & _ & H3). cbn zeta in *.
  assert (Hin : ∀ source o, (source, o) ∈ by_source known ↔ known !! source = Some o)
    by (intros; by rewrite (by_source_perm known), elem_of_map_to_list).
  split.
  - destruct H1 as [->|([source o] & He & ->)]; [by left|right]. exists source, o. by rewrite <-Hin.
  - intros source o Hs%Hin. by apply (H3 (source, o)).
Qed.
