(* ===== verification/JobWitnesses.v ===== *)
(** * The job controller's theorems at concrete inputs

    A client creates a job, admits it and starts its run, against a runtime that accepts
    everything, with toy functions for the hash and the wire form. *)

From Stdlib Require Import ZArith Lia String Ascii.
From stdpp Require Import base list strings gmap relations.
From S2P Require Import Prelude GoStrings GoTime GoTimeText Programs ClusterModel Projection Validation JobModel JobRepository JobStatus JobLifecycle JobController JobRepositoryProofs JobSafety JobRecovery JobStatusProofs.
From stdpp Require Import options.

Local Open Scope Z_scope.

(** A hash of 20 digits. *)
Definition toy_hash (s : string) : string :=
  FormatUint (10 ^ 19 + foldl (λ acc c, (acc * 257 + code c) mod 10 ^ 19) 7 (chars s)).

Definition toy_wire (job : RLTrainingJob) : string := jb_id job +:+ jb_display_name job.

Definition toy_runtime : FrameworkRuntimeSpec :=
  mkRuntimeSpec "verl" "1" "ray" "2" "fsdp" "1" "vllm" "1" ("sha256:" +:+ unchars (replicate 64 "a"%char)) "" [] [] [] ∅ "" "" ∅.

Definition toy_contract : ContractMessage :=
  mkContractMessage "contract" "1" (Some (PhaseGraph.mkGraph [None] [] [])) [] [] None None None None [] [].

Definition toy_job : RLTrainingJob :=
  mkJob "job-1" "demo" "v0.3" "ppo" (Some toy_runtime) (Some toy_contract) (Some (mkResources 1 1 GoFloat.f0 0 0)) None 1 0 ""
    JOB_STATE_UNKNOWN None ∅ ROLLOUT_MODE_SYNC "" "" "" DATA_KIND_LIVE.

Definition no_faults : Faults := mkFaults NoFault NoFault.
Definition accepted : Result JobError RuntimeResponse := Ok (mkResponse true [] None).

Definition toy_create : Goroutine := serve (CreateJob toy_hash id toy_wire (λ _ _, false) (λ _, true) (λ _, "") id
  (mkCreateJobRequest (Some toy_job) "" "r1" "k1")).
Definition toy_admit : Goroutine := serve (AdmitJob toy_hash id toy_wire (λ _, true) (λ _, "") (mkAdmitJobRequest "job-1" "r2" "k2" "go")).
Definition toy_start : Goroutine := serve (ApplyJobCommand toy_hash id toy_wire (λ _, true) (λ _, "")
  (mkCommandRequest "job-1" "" JOB_COMMAND_TYPE_START "me" "now" "r3" "k3")).

Definition toy_pool : Controller * list Goroutine := (first_process, [toy_create; toy_admit; toy_start]).

(** Creation and admission in turn, and the start up to its call of the runtime. *)
Definition toy_moves : list (nat * @Move Faults (Result JobError RuntimeResponse)) :=
  ((λ m, (0%nat, m)) <$> [Tick 1000; Env no_faults; Env no_faults]) ++
  ((λ m, (1%nat, m)) <$> [Env no_faults; Tick 2000; Env no_faults; Env no_faults; Answer accepted; Answer accepted; Answer accepted;
                         Tick 3000; Env no_faults; Env no_faults; Env no_faults]) ++
  ((λ m, (2%nat, m)) <$> [Env no_faults; Tick 4000; Env no_faults; Env no_faults]).

Definition toy_reached : list (@Label RuntimeRequest) * (Controller * list Goroutine) :=
  default ([], toy_pool) (moved toy_moves toy_pool).

Definition toy_steps := controller_steps toy_hash id id toy_wire (λ _ _, false) (λ _ _, false) (λ _, true) (λ _, "") id.

Lemma toy_started : toy_steps (first_process, []) [Silent; Silent; Silent] toy_pool.
Proof.
  eapply steps_cons; [apply (step_start _ _ _ _ _ toy_create); constructor|].
  eapply steps_cons; [apply (step_start _ _ _ _ _ toy_admit); constructor|].
  eapply steps_cons; [apply (step_start _ _ _ _ _ toy_start); constructor|]. apply steps_nil.
Qed.

Lemma steps_trans {W F C R A : Type} env restart adm (c1 c2 c3 : @Config W F C R A) ls1 ls2 :
  steps env restart adm c1 ls1 c2 → steps env restart adm c2 ls2 c3 → steps env restart adm c1 (ls1 ++ ls2) c3.
Proof. induction 1; [done|]. intros. econstructor; eauto. Qed.

Lemma toy_moved : moved toy_moves toy_pool = Some toy_reached.
Proof.
  assert (H : match moved toy_moves toy_pool with Some _ => true | None => false end = true) by (by vm_compute).
  unfold toy_reached. by destruct (moved toy_moves toy_pool).
Qed.

Lemma toy_reaches : toy_steps (first_process, []) ([Silent; Silent; Silent] ++ toy_reached.1) (toy_reached.2.1, toy_reached.2.2).
Proof.
  eapply steps_trans; [exact toy_started|]. eapply moved_steps. rewrite toy_moved. by destruct toy_reached as [? []].
Qed.

(** The call the start is about to make. *)
Definition toy_call : option RuntimeRequest :=
  match toy_reached.2.2 !! 2%nat with Some (Call call _) => Some call | _ => None end.

Lemma toy_called call : toy_call = Some call →
  ∃ pool', step consumed restarted (served toy_hash id id toy_wire (λ _ _, false) (λ _ _, false) (λ _, true) (λ _, "") id)
    (toy_reached.2.1, toy_reached.2.2) (Called call) (toy_reached.2.1, pool').
Proof.
  unfold toy_call. destruct (toy_reached.2.2 !! 2%nat) as [[]|] eqn:E; intros [= <-].
  eexists. by apply (step_call _ _ _ _ _ 2%nat _ k accepted).
Qed.

Definition toy_run : string := "run-1514530853039040".

Lemma runtime_calls_recorded_witness :
  (∃ call, toy_call = Some call ∧ moved_run call = Some toy_run) ∧
  ∃ p entry o, journalFile (store toy_reached.2.1) = Some p ∧ entry ∈ ps_Events p ∧
    je_type entry.2 = JOB_EVENT_TYPE_OPERATION_RECORDED ∧ je_operation entry.2 = Some o ∧
    op_run_id o = toy_run ∧ op_state o = OPERATION_STATE_RUNNING.
Proof.
  assert (H : ∃ call, toy_call = Some call ∧ moved_run call = Some toy_run).
  { assert (Hc : bool_decide ((moved_run <$> toy_call) = Some (Some toy_run)) = true) by (by vm_compute).
    apply bool_decide_eq_true in Hc. destruct toy_call as [call|]; [|done]. exists call. by injection Hc. }
  split; [exact H|]. destruct H as (call & Hcall & Hrun). destruct (toy_called call Hcall) as [pool' Hs].
  exact (runtime_calls_recorded _ _ _ _ _ _ _ _ _ _ _ _ _ _ _ _ toy_reaches Hs Hrun).
Defined.

Lemma log_never_shrinks_witness :
  length (log_of toy_reached.2.1) = 6%nat ∧ log_of toy_reached.2.1 `prefix_of` log_of (restarted toy_reached.2.1).
Proof.
  split; [by vm_compute|].
  refine (log_never_shrinks _ _ _ _ _ _ _ _ _ _ _ _ [Crash] _ [] toy_reaches _).
  eapply steps_cons; [apply step_crash|apply steps_nil].
Defined.

(** ** The repository *)

Definition toy_event (ident : string) : JobEvent :=
  mkEvent ident JOB_EVENT_TYPE_JOB_CREATED "job-1" "" "" None JOB_STATE_PENDING None None "" DATA_KIND_LIVE None ∅ JOB_RUN_STATE_UNKNOWN 0 "".

Definition toy_append (ident : string) : StoreM unit := put (AppendEvent (toy_event ident)).

(** A watch, two events, and one of them received. *)
Definition watched : FileRepository := empty_repository <| memory := default NewMemoryRepository
  (match Watch id NewMemoryRepository "job-1" "" 0 "" with Ok (_, m) => Some m | Err _ => None end) |>.
Definition appended : FileRepository :=
  (FileUpdate (λ _, true) (λ _, "") NoFault NoFault (toy_append "e1" ≫= λ _, toy_append "e2") watched).2.
Definition received : FileRepository := appended <| memory := (receive (memory appended) 1).2 |>.
Definition toy_subscription : Subscription :=
  mkSubscription "job-1" "" 0 (match (receive (memory appended) 1).1 with Event e => [e] | _ => [] end).

Lemma toy_watched : rtc (watch_step id (λ _, true) (λ _, "")) (empty_repository, ∅) (received, {[1 := toy_subscription]}).
Proof.
  eapply rtc_l; [by apply (watch_start id _ _ empty_repository ∅ "job-1" "" 0 "" 0 1 (memory watched))|].
  eapply rtc_l; [apply (watch_file_update id _ _ NoFault NoFault (toy_append "e1" ≫= λ _, toy_append "e2") watched); [exact _|by vm_compute]|].
  assert (Hr : ∃ e, (receive (memory appended) 1).1 = Event e) by (by eexists; vm_compute). destruct Hr as [e He].
  assert (Hs : ({[1 := toy_subscription]} : gmap Z Subscription) =
    <[1 := (mkSubscription "job-1" "" 0 []) <| su_received := [] ++ [e] |>]> (<[1 := mkSubscription "job-1" "" 0 []]> ∅)).
  { unfold toy_subscription. rewrite He. by rewrite insert_insert_eq. }
  rewrite Hs. eapply rtc_l; [|apply rtc_refl].
  apply (watch_receive id _ _ appended (<[1 := mkSubscription "job-1" "" 0 []]> ∅) 1 (mkSubscription "job-1" "" 0 []) e (receive (memory appended) 1).2).
  - by rewrite lookup_insert_eq.
  - rewrite <-He. by destruct (receive (memory appended) 1).
Qed.

Lemma watch_no_gap_witness :
  length (su_received toy_subscription) = 1%nat ∧ length (wanted (memory received) toy_subscription) = 2%nat ∧
  ∃ c, channels (memory received) !! 1 = Some c ∧
    (is_Some (watchers (memory received) !! 1) → su_received toy_subscription ++ ch_buffer c = wanted (memory received) toy_subscription).
Proof.
  split; [by vm_compute|]. split; [by vm_compute|].
  destruct (watch_no_gap id (λ _, true) (λ _, "") received {[1 := toy_subscription]} 1 toy_subscription toy_watched
    (lookup_singleton_eq _ _)) as (c & Hc & _ & Hall & _).
  exists c. by split.
Defined.

(** An update, and one that reached the disk but was refused. *)
Definition toy_kept : FileRepository := (FileUpdate (λ _, true) (λ _, "") NoFault NoFault (toy_append "e1") empty_repository).2.
Definition toy_refused : FileRepository := (FileUpdate (λ _, true) (λ _, "") (FailsAfter "sync") NoFault (toy_append "e2") toy_kept).2.

Definition toy_history : FileHistory :=
  mkHistory toy_refused (captureRepository (memory toy_kept)) (option_list (attempted (toy_append "e2") toy_kept)).

Lemma restart_durable_witness :
  captureRepository (memory (restore toy_refused)) ≠ captureRepository (memory toy_refused) ∧
  (captureRepository (memory (restore toy_refused)) = captureRepository (memory toy_kept) ∨
   captureRepository (memory (restore toy_refused)) ∈ fh_refused toy_history).
Proof.
  split; [by vm_compute|]. apply (restart_durable (λ _, true) (λ _, "") toy_history).
  eapply rtc_l; [by apply (file_acknowledged _ _ NoFault NoFault (toy_append "e1") empty_repository _ [] tt toy_kept (captureRepository (memory toy_kept)))|].
  eapply rtc_l; [|apply rtc_refl].
  by apply (file_refused _ _ (FailsAfter "sync") NoFault (toy_append "e2") toy_kept _ [] (plain_error "sync") toy_refused).
Defined.

(** ** Recovery *)

Lemma listRunningOperations_complete_witness :
  size (operations_of toy_reached.2.1) = 3%nat ∧
  ∃ l, listRunningOperations id (memory (store toy_reached.2.1)) = Ok l ∧ sorted_by operation_less l ∧
    l ≡ₚ with_cursor <$> filter (λ o, is_running o = true) (map_to_list (operations_of toy_reached.2.1)).*2.
Proof.
  split; [by vm_compute|]. apply (listRunningOperations_complete id (memory (store toy_reached.2.1))).
  apply Z.leb_le. by vm_compute.
Defined.

(** The process dies while it waits for the runtime to start the run. *)
Lemma recovery_settles_witness :
  length (underway (memory (store (restarted toy_reached.2.1)))) = 1%nat ∧
  finishes (ReconcileIncompleteOperations toy_hash id id (λ _, true) (λ _, "")) (restarted toy_reached.2.1) (λ r c', ∃ failed, r = Ok failed ∧
    ∀ id o, operations_of c' !! id = Some o → op_state o = OPERATION_STATE_RUNNING →
      commandDispatchAccepted o = true ∨ id ∈ failed.*1).
Proof.
  split; [by vm_compute|]. refine (recovery_settles _ _ _ _ _ _ _ _ _ _ _ _ toy_reaches _). apply Z.leb_le. by vm_compute.
Defined.

(** While the start is at the runtime, the run is terminated, and the runtime accepts that. *)
Definition toy_terminate : Goroutine := serve (ApplyJobCommand toy_hash id toy_wire (λ _, true) (λ _, "")
  (mkCommandRequest "job-1" "" JOB_COMMAND_TYPE_TERMINATE "me" "stop it" "r4" "k4")).

Definition toy_terminated : Controller :=
  from_option (λ reached, reached.2.1) first_process
    (moved ((λ m, (0%nat, m)) <$> [Env no_faults; Tick 5000; Env no_faults; Env no_faults; Answer accepted; Tick 6000; Env no_faults; Env no_faults; Env no_faults])
      (toy_reached.2.1, [toy_terminate])).

Definition the_run (c : Controller) : JobRun :=
  default (NewRun toy_hash toy_wire toy_job 1 JOB_RUN_STATE_UNKNOWN 0) (GetRun (memory (store c)) "job-1" toy_run).
Definition the_job (c : Controller) : RLTrainingJob := default toy_job (GetJob (memory (store c)) "job-1").
Definition the_start (c : Controller) : Operation :=
  default (new_operation toy_hash OPERATION_TYPE_START "" "" "" "" "" "" DATA_KIND_LIVE 0 0)
    (GetLatestOperation (memory (store c)) "job-1" toy_run OPERATION_TYPE_START).

(** What the start had toy_kept of the time before it. *)
Definition toy_plan : commandPlan :=
  mkCommandPlan (the_job toy_terminated) (the_run toy_terminated) (the_start toy_terminated) JOB_COMMAND_TYPE_START false toy_job
    ((the_run toy_terminated) <| rn_run_state := JOB_RUN_STATE_WAITING |>).

Lemma running_loaded (r : Result JobError (RLTrainingJob * JobRun * Operation)) :
  match r with Ok (_, _, o) => is_running o | Err _ => false end = true → ∃ job run o, r = Ok (job, run, o) ∧ is_running o = true.
Proof. destruct r as [[[job run] o]|]; [|done]. by exists job, run, o. Qed.


(** ** Statuses *)

Definition toy_status : ComponentStatus :=
  mkStatus "runtime" COMPONENT_HEALTH_HEALTHY "up" "runtime-observation" 7 (Some (mkTimestamp 1700000000 5)) ∅ "job-1" toy_run "" DATA_KIND_LIVE
    None RUNTIME_STATE_RUNNING true.

Lemma toy_merged : merged_observations [] toy_status = {[ "runtime-observation" := toy_status ]}.
Proof. by vm_compute. Qed.

